(* ===== verification/_CoqProject ===== *)
-Q . S2P
Prelude.v
PyFloat.v
PyStr.v
PySort.v
Models.v
Sha256.v
Auth.v
Redaction.v
Durable.v
WorkloadRegistry.v
AttemptRegistry.v
JobGraph.v
JobRegistry.v
ArtifactRegistry.v
WorkerRegistry.v
WorkerRegistryProps.v
Placement.v
PlacementProps.v
Sizing.v
SizingProps.v
Frames.v
IpAddr.v
Prioritizer.v
SingleFlight.v
M7.v
M7Props.v
Admission.v
StateStore.v
AdmissionProps.v
SubmitJob.v
Polling.v
Orchestrator.v
OrchestratorProps.v
Cancellation.v
Recovery.v
RecoveryProps.v
History.v
Intelligence.v
CacheIndex.v
CacheStorage.v
Eviction.v
CacheStore.v
CacheProps.v
Cas.v
Transfer.v
Metrics.v
DataPlane.v
Coordinator.v
Membership.v
MembershipProps.v
SceneGraph.v
SceneGraphProps.v
Packaging.v
PackagingProps.v
Execution.v
ExecutionProps.v
Runtime.v
RuntimeProps.v
Worker.v
WorkerProps.v
WorkerServer.v
WorkerServerProps.v
IntelligenceProps.v
MLShards.v
MLShardsProps.v
MLMerge.v
MLMergeProps.v
MLAdapters.v
MLRun.v
MLPlatforms.v
AppAdapters.v
BlenderAdapter.v
MLAdaptersProps.v
BlenderAdapterProps.v
Visibility.v
VisibilityGeometry.v
VisibilityAnalyzer.v
VisibilityProps.v
SceneEngine.v
