(* ===== verification/Prelude.v ===== *)
(** * AIDAR: a verification development

    AIDAR spreads work over the computers of a local network: a coordinator
    registers workers, places workloads, watches and retries their attempts and
    keeps the records; a worker stores content-addressed assets, exchanges them
    with its peers and runs processes; adapters turn the requests of an
    application (Blender, machine learning, language models, video) into
    workloads.  This development models the Python code under [src/src/aidars]
    and proves what its parts promise.  It is shallow: a Python function is a
    Rocq function, a method maps the object it is called on to the new object
    and a result, an exception is the [Err] case of [res], and a coroutine is cut
    at its awaits.  All definitions compute, and the examples at the end of the
    files run them.

    ** Conventions

    - An [int] is a [Z]; a [float] is a binary64 number computed with the
      Standard Library's executable IEEE-754 specification ([PyFloat]); a [str] is a byte string ([PyStr]); a [dict] is an
      association list in insertion order ([odict], below) or, where no order
      is observable, a [gmap]; a free-form value is [Models.json].
    - Clock readings, random identifiers, the file system, the network, the
      process that runs and the JSON encoder are arguments, with what the code
      relies on as hypotheses of the theorems that need it.
    - A record's fields carry the source's names with a prefix per record, a
      function the source's name wherever Rocq allows it.

    ** The coordinator ([distributed/])

    - [Models], [JobGraph], [Redaction]: data, validators, dependency graphs and
      the redaction of secrets ([models.py]).
    - [WorkloadRegistry], [AttemptRegistry] (with [retry.py] and
      [checkpoint.py]), [JobRegistry], [ArtifactRegistry], [WorkerRegistry]: the
      five registries, each with its invariant.  They write through the interface
      [Durable.RecordStore]; [StateStore] is the database that implements it, and
      [Recovery] the restart that reads it back.
    - [Placement], [Sizing], [Prioritizer] (with [IpAddr]), [M7]: who gets the
      work.  Placement calls the advisory layer through the interface
      [Placement.Advisory]; [M7Props] discharges it.
    - [Admission], [SubmitJob], [Orchestrator], [Polling], [Cancellation]
      ([workload.py]): the queue, the submission of jobs, the loop that drives
      one workload, the protocol of one attempt, and the coroutines that
      interfere.  [Orchestrator] is a state-and-exception monad over the
      registries, [OrchestratorProps] its Hoare logic.
    - [Auth], [Coordinator], [Membership]: credentials and guards, the control
      plane, and the registration and heartbeat protocol between both sides.
    - [History], [Intelligence] ([m12/]): what past attempts teach.

    ** The worker

    - [Cas] ([cas_adapter.py]), [Sha256]: the object store under failing system
      calls.  [Transfer], [SingleFlight], [DataPlane], [Metrics]: range requests,
      fail-over, coalescing and synchronisation of assets.
    - [Execution], [Runtime] ([execution.py], [runtime.py]): sandbox, staging,
      the process tree, ingestion, verdict.  [Worker], [WorkerServer]
      ([worker.py], [server.py]): the ledger of executions and the HTTP routes.
    - [CacheIndex], [CacheStorage], [Eviction], [CacheStore] ([cache/]): the disk
      cache, its index, its quota and its verification.

    ** The adapters ([adapters/], [sdk/], [cli/])

    - [BlenderAdapter], [Frames]: a render request is checked and cut into
      chunks of frames, one workload each, and the finished chunks are read back
      as the frames that are missing.
    - [SceneGraph], [Packaging]: the dependency graph of a scene and its closure,
      the packages sent to workers.
    - [Visibility] ([visibility/models.py], [eligibility.py], [influence.py],
      [resolver.py]), [VisibilityGeometry] ([camera.py], [geometry.py]),
      [VisibilityAnalyzer] ([analyzer.py], [engine.py]): what a range of frames
      of a scene needs: the objects that are not hidden, that the camera sees,
      that influence those, and what all of them depend on.
    - [SceneEngine] ([intelligence/scene_engine.py], [cache.py]): the pipeline
      from a scene to its package, and the cache that saves a second run.
    - [MLShards], [MLMerge]: slices of a dataset in proportion to the workers'
      throughput as planned and as read back on the worker, samplers, federated
      averaging, and the merging of outputs.
    - [MLAdapters], [MLPlatforms], [AppAdapters]: the workloads the adapters plan
      for a request, behind the interface [MLAdapters.ApplicationAdapter];
      [MLAdaptersProps] proves what every instance of it promises.  [MLRun]
      ([cli/ml_run.py]) plans, submits, polls, downloads and merges.

    ** What is proved

    The properties are in the components' files or, for the larger components,
    in [...Props].  Invariants under arbitrary histories: attempt numbers, the
    inverted index of assets, the disk cache, the object store, the admission
    sets, the ledger.  Safety: hard placement constraints, exclusive dispatch,
    failed workers, collection of artifacts, single flights, sandboxes,
    credentials, redaction, fail-over, publication, cancellation of process
    trees.  Exact characterisations against reference definitions: dependency
    validation, frame coverage, the nonce guard, scene closure, anomalies,
    visibility of animated objects.
    Refinement of specifications: authorisation, an attempt end to end,
    inventories of coordinator and worker, packages, groups, dataset shards,
    render requests.
    Round trips: restart, cache, downloads.  Termination: retry budget, graph
    search.  Findings, most of them with a concrete example that computes the
    behaviour, are in the manifest.

    ** Fuel and bounds

    Recursion follows the data wherever the code's does.  Elsewhere there is
    fuel, with a proof that it is enough: [SceneGraph.bfs] gets one turn per
    node and edge (every turn removes a queued node, and a node enters the queue
    once); the process tree of [Runtime] takes as many generations as there are
    processes; [Orchestrator.process_loop] as many turns as attempts are left,
    and every turn uses one; [MLShards.batches_of] one turn per row;
    [MLRun.poll_until_done] as many turns as there are before the time is up,
    and more change nothing ([MLAdaptersProps.poll_enough]).
    [Visibility.require_parents] gets one step per object, and visits each once;
    [Visibility.search_fuel] counts every edge under every key of every material
    that can be queued ([VisibilityProps.analysis_ends] shows both are enough).
    [JobGraph.visit] takes Python's recursion limit, which is part of the
    behaviour: exceeding it raises.

    ** Not modelled

    Code that runs inside Blender or only starts it and copies its answers (the
    extraction of scenes and the exporters, whose results are arguments of
    [SceneEngine]); the trigonometric functions of the geometry; the programs the
    adapters ship to workers as text; hardware probing ([resources.py]); argument parsing and
    process start-up ([cli.py], [__init__.py]); demonstration and stress scripts
    outside [src/aidars]; log messages and explanation texts.  FastAPI,
    Pydantic's JSON, SQLite, psutil, NumPy and PyTorch are outside the source:
    where the code calls them they are arguments. *)
From Stdlib Require Export ZArith Lia String Ascii Permutation Sorted.
From stdpp Require Export base gmap sets list strings pretty sorting.
Close Scope nat_scope.
Open Scope Z_scope.

(** ** Results: a Python call either returns a value or raises. *)

Inductive exn :=
| ValueError (msg : string)
| KeyError (key : string)
| IndexError
| ZeroDivisionError
| StoreError
| WorkloadIdConflictError (workload_id : string)
| InvalidHashError
| HashMismatchError
| CacheQuotaExceededError
| CacheStorageError
| CacheEntryNotFoundError
| CancelledError
| RecursionError
| TypeError
| JobSubmissionInfeasibleError
| FileNotFoundError
| OSError (msg : string)
| RuntimeError (msg : string)
| HTTPException (status_code : Z) (detail : string)
| WorkerHttpError (status_code : Z) (msg : string)
| StreamAbortError (msg : string)
| IntegrityError (msg : string)
| CASCommitError (msg : string)
| CandidateExhaustedError (msg : string)
| AttributeError (msg : string).

#[export] Instance exn_eq_dec : EqDecision exn.
Proof. solve_decision. Defined.

Inductive res (A : Type) :=
| Ok (a : A)
| Err (e : exn).
Arguments Ok {A} a.
Arguments Err {A} e.

Definition res_bind {A B} (m : res A) (f : A -> res B) : res B :=
  match m with Ok a => f a | Err e => Err e end.

Definition res_map {A B} (f : A -> B) (m : res A) : res B :=
  match m with Ok a => Ok (f a) | Err e => Err e end.

Declare Scope aidar_scope.
Delimit Scope aidar_scope with aidar.
Notation "'let!' x ':=' m 'in' k" := (res_bind m (fun x => k))
  (at level 10, x pattern, m at level 100, k at level 200) : aidar_scope.
Open Scope aidar_scope.

Definition is_ok {A} (m : res A) : bool :=
  match m with Ok _ => true | Err _ => false end.

Lemma res_bind_ok {A B} (m : res A) (f : A -> res B) b :
  res_bind m f = Ok b <-> exists a, m = Ok a /\ f a = Ok b.
Proof. destruct m; simpl; naive_solver. Qed.

(** Folding a fallible step over a list, left to right. *)
Fixpoint res_fold {A S} (f : S -> A -> res S) (s : S) (l : list A) : res S :=
  match l with
  | [] => Ok s
  | a :: l => let! s' := f s a in res_fold f s' l
  end.

Lemma res_fold_inv {A S} (P : S -> Prop) (f : S -> A -> res S) l s s' :
  (forall s a s', P s -> f s a = Ok s' -> P s') ->
  P s -> res_fold f s l = Ok s' -> P s'.
Proof.
  intros Hstep. revert s. induction l as [|a l IH]; simpl; intros s Hs Hf; [naive_solver|].
  apply res_bind_ok in Hf as (s1 & H1 & H2). eauto.
Qed.

(** ** Python truthiness of optional strings and of strings *)

Definition str_truthy (s : string) : bool := negb (String.eqb s "").
Definition opt_truthy (o : option string) : bool :=
  match o with Some s => str_truthy s | None => false end.

(** ** Insertion-ordered dictionaries

    A Python [dict] iterates in insertion order and an update keeps the
    position of an existing key; [odict] is that dictionary, as the list of
    its items. *)

Definition odict (V : Type) := list (string * V).

Fixpoint od_get {V} (k : string) (d : odict V) : option V :=
  match d with
  | [] => None
  | (k', v) :: d => if String.eqb k k' then Some v else od_get k d
  end.

Fixpoint od_set {V} (k : string) (v : V) (d : odict V) : odict V :=
  match d with
  | [] => [(k, v)]
  | (k', v') :: d => if String.eqb k k' then (k', v) :: d else (k', v') :: od_set k v d
  end.

Fixpoint od_del {V} (k : string) (d : odict V) : odict V :=
  match d with
  | [] => []
  | (k', v') :: d => if String.eqb k k' then d else (k', v') :: od_del k d
  end.

Definition od_keys {V} (d : odict V) : list string := map fst d.
Definition od_values {V} (d : odict V) : list V := map snd d.
Definition od_mem {V} (k : string) (d : odict V) : bool :=
  match od_get k d with Some _ => true | None => false end.
Definition od_get_default {V} (k : string) (dflt : V) (d : odict V) : V :=
  match od_get k d with Some v => v | None => dflt end.
(** [dict.setdefault]. *)
Definition od_setdefault {V} (k : string) (v : V) (d : odict V) : odict V :=
  if od_mem k d then d else od_set k v d.
(** [{**a, **b}]. *)
Definition od_merge {V} (a b : odict V) : odict V :=
  fold_left (fun d '(k, v) => od_set k v d) b a.

Definition od_wf {V} (d : odict V) : Prop := NoDup (od_keys d).

Section odict_lemmas.
Context {V : Type}.
Implicit Types (d : odict V) (k : string) (v : V).

Lemma od_get_set d k k' v :
  od_get k' (od_set k v d) = if String.eqb k' k then Some v else od_get k' d.
Proof.
  induction d as [|[k1 v1] d IH]; simpl; [done|].
  destruct (String.eqb_spec k k1) as [->|Hk]; simpl.
  - by destruct (String.eqb_spec k' k1).
  - rewrite IH. destruct (String.eqb_spec k' k1), (String.eqb_spec k' k); congruence.
Qed.

Lemma od_get_set_eq d k v : od_get k (od_set k v d) = Some v.
Proof. by rewrite od_get_set, String.eqb_refl. Qed.

Lemma od_get_set_ne d k k' v : k' <> k -> od_get k' (od_set k v d) = od_get k' d.
Proof. intros H. rewrite od_get_set. by destruct (String.eqb_spec k' k). Qed.

Lemma od_get_Some_elem d k v : od_get k d = Some v -> (k, v) ∈ d.
Proof.
  induction d as [|[k1 v1] d IH]; simpl; [done|].
  destruct (String.eqb_spec k k1) as [->|Hk]; intros H; simplify_eq.
  - apply elem_of_cons; by left.
  - apply elem_of_cons; right; auto.
Qed.

Lemma od_get_None_keys d k : od_get k d = None <-> k ∉ od_keys d.
Proof.
  induction d as [|[k1 v1] d IH]; simpl; [split; [intros _; inversion 1|done]|].
  rewrite not_elem_of_cons.
  destruct (String.eqb_spec k k1); naive_solver.
Qed.

Lemma od_get_elem d k v : od_wf d -> (k, v) ∈ d -> od_get k d = Some v.
Proof.
  unfold od_wf. induction d as [|[k1 v1] d IH]; simpl; intros Hnd Hin; [by inversion Hin|].
  apply NoDup_cons in Hnd as [Hn Hnd].
  apply elem_of_cons in Hin as [Heq|Hin].
  - simplify_eq. by rewrite String.eqb_refl.
  - destruct (String.eqb_spec k k1) as [->|]; [|auto].
    exfalso. apply Hn. apply list_elem_of_fmap. by exists (k1, v).
Qed.

Lemma od_keys_set d k v :
  od_keys (od_set k v d) = if od_mem k d then od_keys d else od_keys d ++ [k].
Proof.
  unfold od_mem. induction d as [|[k1 v1] d IH]; simpl; [done|].
  destruct (String.eqb_spec k k1) as [->|Hk]; simpl; [done|].
  rewrite IH. by destruct (od_get k d).
Qed.

Lemma od_set_wf d k v : od_wf d -> od_wf (od_set k v d).
Proof.
  unfold od_wf. intros Hnd. rewrite od_keys_set. unfold od_mem.
  destruct (od_get k d) eqn:E; [done|].
  apply od_get_None_keys in E.
  apply NoDup_app. split_and!; [done| |apply NoDup_singleton].
  intros x Hx Hx'. apply list_elem_of_singleton in Hx'. by subst.
Qed.

Lemma od_keys_del_subset d k k' : k' ∈ od_keys (od_del k d) -> k' ∈ od_keys d.
Proof.
  induction d as [|[k1 v1] d IH]; simpl; [done|].
  destruct (String.eqb_spec k k1); simpl; rewrite ?elem_of_cons; naive_solver.
Qed.

Lemma od_del_wf d k : od_wf d -> od_wf (od_del k d).
Proof.
  unfold od_wf. induction d as [|[k1 v1] d IH]; simpl; [done|].
  intros [Hn Hnd]%NoDup_cons. destruct (String.eqb_spec k k1); simpl; [done|].
  apply NoDup_cons; split; [|auto]. intros Hin. by apply Hn, (od_keys_del_subset _ k).
Qed.

Lemma od_get_del d k k' :
  od_wf d -> od_get k' (od_del k d) = if String.eqb k' k then None else od_get k' d.
Proof.
  unfold od_wf. induction d as [|[k1 v1] d IH]; simpl.
  { by destruct (String.eqb k' k). }
  intros [Hn Hnd]%NoDup_cons. destruct (String.eqb_spec k k1) as [->|Hk]; simpl.
  - destruct (String.eqb_spec k' k1) as [Heq|]; [|done].
    subst. by apply od_get_None_keys.
  - rewrite IH by done. destruct (String.eqb_spec k' k1), (String.eqb_spec k' k); congruence.
Qed.

Lemma od_get_del_eq d k : od_wf d -> od_get k (od_del k d) = None.
Proof. intros. by rewrite od_get_del, String.eqb_refl. Qed.

Lemma od_get_del_ne d k k' : k' <> k -> od_get k' (od_del k d) = od_get k' d.
Proof.
  intros Hne. induction d as [|[k1 v1] d IH]; simpl; [done|].
  destruct (String.eqb_spec k k1) as [->|]; simpl; [|by rewrite IH].
  by destruct (String.eqb_spec k' k1).
Qed.

Lemma od_mem_get d k : od_mem k d = true <-> is_Some (od_get k d).
Proof. unfold od_mem. destruct (od_get k d); naive_solver. Qed.

Lemma od_values_elem d v : od_wf d -> v ∈ od_values d <-> exists k, od_get k d = Some v.
Proof.
  intros Hwf. unfold od_values. rewrite list_elem_of_fmap. split.
  - intros ([k v'] & -> & Hin). exists k. by apply od_get_elem.
  - intros [k Hk]. exists (k, v). split; [done|]. by apply od_get_Some_elem.
Qed.

Lemma od_set_same_length d k v v0 :
  od_get k d = Some v0 -> length (od_set k v d) = length d.
Proof.
  induction d as [|[k1 v1] d IH]; simpl; [done|].
  destruct (String.eqb_spec k k1); simpl; [done|]. intros H. by rewrite IH.
Qed.

Lemma od_get_app d1 d2 k :
  od_get k (d1 ++ d2) = match od_get k d1 with Some v => Some v | None => od_get k d2 end.
Proof.
  induction d1 as [|[k1 v1] d1 IH]; simpl; [done|]. by destruct (String.eqb k k1).
Qed.
End odict_lemmas.

(** Setting fresh keys one after another appends them. *)
Lemma od_set_fresh {V} k (v : V) d : k ∉ od_keys d -> od_set k v d = d ++ [(k, v)].
Proof.
  induction d as [|[k1 v1] d IH]; simpl; [done|]. intros [Hne Hk]%not_elem_of_cons.
  destruct (String.eqb_spec k k1); [done|]. by rewrite IH.
Qed.

Lemma od_set_all {V A} (f : A -> string * V) (l : list A) (d : odict V) :
  NoDup (od_keys d ++ map (fun a => fst (f a)) l) ->
  fold_left (fun d a => od_set (fst (f a)) (snd (f a)) d) l d = d ++ map f l.
Proof.
  revert d. induction l as [|a l IH]; intros d Hnd; simpl in *; [by rewrite app_nil_r|].
  assert (fst (f a) ∉ od_keys d) as Hfresh.
  { apply NoDup_app in Hnd as (_ & Hd & _). intros Hin. apply (Hd _ Hin). left. }
  rewrite IH; rewrite od_set_fresh by done.
  - rewrite <- app_assoc. simpl. by destruct (f a).
  - unfold od_keys in *. rewrite map_app. simpl. by rewrite <- app_assoc.
Qed.

Lemma od_set_twice {V} k (v v' : V) d : od_set k v' (od_set k v d) = od_set k v' d.
Proof.
  induction d as [|[k1 v1] d IH]; simpl; [by rewrite String.eqb_refl|].
  destruct (String.eqb_spec k k1) as [->|]; simpl.
  - by rewrite String.eqb_refl.
  - destruct (String.eqb_spec k k1); [done|]. by rewrite IH.
Qed.

Lemma od_wf_nil V : od_wf ([] : odict V).
Proof. apply NoDup_nil_2. Qed.

Create HintDb odict.
Create Rewrite HintDb odict.
#[export] Hint Resolve od_set_wf od_del_wf od_wf_nil : odict.
#[export] Hint Rewrite @od_get_set_eq : odict.
#[export] Hint Rewrite @od_get_set_ne using done : odict.
#[export] Hint Rewrite @od_get_del_ne using done : odict.

(** Case analysis on the string tests and lookups of a goal. *)
Ltac str_case :=
  match goal with
  | |- context [String.eqb ?a ?b] => destruct (String.eqb_spec a b); simplify_eq
  | H : context [String.eqb ?a ?b] |- _ => destruct (String.eqb_spec a b); simplify_eq
  end.

(** Evaluate the decisions of a goal that are closed. *)
Ltac eval_decide :=
  repeat match goal with
  | |- context [bool_decide ?P] =>
      let b := eval vm_compute in (bool_decide P) in
      lazymatch b with true => idtac | false => idtac end;
      change (bool_decide P) with b
  end.

(** ** Stable sorting

    [list.sort] is stable and compares with [<] only.  [isort ltb] is the
    stable sort: an element goes before the first element that is not
    smaller than it. *)

Section sorting.
Context {A : Type} (ltb : A -> A -> bool).

Fixpoint sinsert (x : A) (l : list A) : list A :=
  match l with
  | [] => [x]
  | y :: l' => if ltb y x then y :: sinsert x l' else x :: y :: l'
  end.

Definition isort (l : list A) : list A := fold_right sinsert [] l.

Lemma sinsert_perm x l : Permutation (sinsert x l) (x :: l).
Proof.
  induction l as [|y l IH]; simpl; [done|].
  destruct (ltb y x); [|done]. rewrite IH. apply perm_swap.
Qed.

Lemma isort_perm l : Permutation (isort l) l.
Proof. induction l as [|x l IH]; simpl; [done|]. by rewrite sinsert_perm, IH. Qed.

Lemma isort_length l : length (isort l) = length l.
Proof. apply Permutation_length, isort_perm. Qed.

Lemma isort_elem x l : x ∈ isort l <-> x ∈ l.
Proof. by rewrite isort_perm. Qed.

(** "Not greater": what two neighbours of a sorted list satisfy. *)
Definition not_gt (x y : A) : Prop := ltb y x = false.

Hypothesis ltb_asym : forall x y, ltb x y = true -> ltb y x = false.

Lemma sinsert_sorted x l : Sorted not_gt l -> Sorted not_gt (sinsert x l).
Proof.
  induction l as [|y l IH]; simpl; intros Hs; [by repeat constructor|].
  destruct (ltb y x) eqn:E.
  - apply Sorted_inv in Hs as [Hs Hh]. constructor; [auto|].
    destruct l as [|z l]; simpl in *.
    + constructor. unfold not_gt. by apply ltb_asym.
    + destruct (ltb z x); constructor; [by inversion Hh|]. by apply ltb_asym.
  - constructor; [done|]. by constructor.
Qed.

Lemma isort_sorted l : Sorted not_gt (isort l).
Proof. induction l; simpl; [constructor|]. by apply sinsert_sorted. Qed.

Hypothesis not_gt_trans : forall x y z, not_gt x y -> not_gt y z -> not_gt x z.

Lemma isort_strongly_sorted l : StronglySorted not_gt (isort l).
Proof.
  apply Sorted_StronglySorted; [|apply isort_sorted].
  intros x y z. apply not_gt_trans.
Qed.

(** The first element of the sorted list is a minimum. *)
Lemma isort_head_min l x l' : isort l = x :: l' -> forall y, y ∈ l -> ltb y x = false.
Proof.
  intros E y Hy. pose proof (isort_strongly_sorted l) as Hs. rewrite E in Hs.
  apply isort_elem in Hy. rewrite E in Hy.
  apply elem_of_cons in Hy as [->|Hy].
  - destruct (ltb x x) eqn:Ex; [|done]. by rewrite (ltb_asym x x Ex) in Ex.
  - apply StronglySorted_inv in Hs as [_ Hf].
    rewrite List.Forall_forall in Hf. apply Hf. by apply list_elem_of_In.
Qed.

(** Stability: elements that do not go before each other keep their order. *)
Lemma sinsert_stable (p : A -> bool) x l :
  (forall a b, p a = true -> p b = true -> ltb a b = false) ->
  List.filter p (sinsert x l) = List.filter p (x :: l).
Proof.
  intros Hp. induction l as [|y l IH]; simpl in *; [done|].
  destruct (ltb y x) eqn:E; simpl; [|done]. rewrite IH.
  destruct (p x) eqn:Ex, (p y) eqn:Ey; try done. by rewrite (Hp y x Ey Ex) in E.
Qed.

Lemma isort_stable (p : A -> bool) l :
  (forall a b, p a = true -> p b = true -> ltb a b = false) ->
  List.filter p (isort l) = List.filter p l.
Proof.
  intros Hp. induction l as [|x l IH]; [done|].
  change (isort (x :: l)) with (sinsert x (isort l)). rewrite sinsert_stable by done. simpl. by rewrite IH.
Qed.
End sorting.

(** The order only matters on the elements of the list. *)
Lemma sinsert_ext {A} (f g : A -> A -> bool) x l :
  (forall y, y ∈ l -> f y x = g y x) -> sinsert f x l = sinsert g x l.
Proof.
  induction l as [|y l IH]; simpl; intros H; [done|].
  rewrite (H y) by left. rewrite IH; [done|]. intros z Hz. apply H. by right.
Qed.

Lemma isort_ext {A} (f g : A -> A -> bool) l :
  (forall x y, x ∈ l -> y ∈ l -> f x y = g x y) -> isort f l = isort g l.
Proof.
  induction l as [|x l IH]; simpl; intros H; [done|].
  rewrite IH by (intros; apply H; by right). apply sinsert_ext.
  intros y Hy. apply isort_elem in Hy. apply H; [by right|left].
Qed.

(** Sorting by an integer key: what the general lemmas say of it. *)
Section sort_by_key.
Context {A : Type} (key : A -> Z).

Definition key_lt (a b : A) : bool := key a <? key b.

Lemma isort_key_sorted l : StronglySorted (fun a b => key a <= key b) (isort key_lt l).
Proof.
  assert (StronglySorted (not_gt key_lt) (isort key_lt l)) as Hs
    by (apply isort_strongly_sorted; unfold not_gt, key_lt; intros; lia).
  induction Hs as [|a l' _ IH Hf]; constructor; [done|].
  eapply List.Forall_impl; [|exact Hf]. unfold not_gt, key_lt. intros; simpl in *; lia.
Qed.

(** A list whose keys are distinct has one sorted arrangement. *)
Lemma isort_key_unique l l' :
  (forall x y, x ∈ l -> y ∈ l -> key x = key y -> x = y) ->
  StronglySorted (fun a b => key a <= key b) l' -> Permutation l l' -> isort key_lt l = l'.
Proof.
  intros Hinj Hs Hp. apply (StronglySorted_unique_strong (fun a b => key a <= key b)).
  - intros x y Hx Hy Hxy Hyx. apply isort_elem in Hx. rewrite <- Hp in Hy. apply Hinj; [done..|lia].
  - apply isort_key_sorted.
  - done.
  - by rewrite isort_perm.
Qed.
End sort_by_key.

(** ** Miscellaneous list functions *)

Fixpoint sumZ (l : list Z) : Z :=
  match l with [] => 0 | x :: l => x + sumZ l end.

Lemma sumZ_app l1 l2 : sumZ (l1 ++ l2) = sumZ l1 + sumZ l2.
Proof. induction l1; simpl; lia. Qed.

Lemma sumZ_perm l1 l2 : Permutation l1 l2 -> sumZ l1 = sumZ l2.
Proof. induction 1; simpl; lia. Qed.

Lemma sumZ_nonneg l : (forall x, x ∈ l -> 0 <= x) -> 0 <= sumZ l.
Proof.
  induction l as [|x l IH]; simpl; intros H; [lia|].
  assert (0 <= x) by (apply H; left). assert (0 <= sumZ l); [|lia].
  apply IH. intros y Hy. apply H. by right.
Qed.

Lemma nth_error_lookup {A} (l : list A) (n : nat) : nth_error l n = l !! n.
Proof. revert n. induction l as [|x l IH]; intros [|n]; simpl; auto. Qed.
