(* ===== verification/PyFloat.v ===== *)
(** * Python floats

    A Python [float] is an IEEE-754 binary64 number.  The development computes
    with them through the executable specification of the Standard Library
    ([SpecFloat], round to nearest even, precision 53, [emax] 1024), so that
    every comparison, sum, product and quotient of the program is the one the
    interpreter makes, rounding included.  The file adds the parts of the
    language the program uses: [min]/[max] with Python's tie rule, [int / int],
    [float(int)], [math.floor], [round], decimal literals, and the order
    lemmas that the components share. *)
From Stdlib Require Import SpecFloat.
From S2P Require Export Prelude.

Definition float := spec_float.

Definition fadd : float -> float -> float := SFadd 53 1024.
Definition fsub : float -> float -> float := SFsub 53 1024.
Definition fmul : float -> float -> float := SFmul 53 1024.
Definition fdiv : float -> float -> float := SFdiv 53 1024.
Definition fopp : float -> float := SFopp.

Definition flt (x y : float) : bool := SFltb x y.
Definition fle (x y : float) : bool := SFleb x y.
Definition feq (x y : float) : bool := SFeqb x y.
Definition fgt (x y : float) : bool := flt y x.
Definition fge (x y : float) : bool := fle y x.

Definition f0 : float := S754_zero false.
(** [float(n)]: the nearest binary64 number. *)
Definition f_of_Z (n : Z) : float := binary_normalize 53 1024 n 0 false.

(** [n / d] on integers: the correctly rounded quotient. *)
Definition fdivZ (n d : Z) : float :=
  match n, d with
  | _, Z0 => S754_nan
  | Z0, _ => f0
  | Zpos p, Zpos q => fdiv (S754_finite false p 0) (S754_finite false q 0)
  | Zpos p, Zneg q => fdiv (S754_finite false p 0) (S754_finite true q 0)
  | Zneg p, Zpos q => fdiv (S754_finite true p 0) (S754_finite false q 0)
  | Zneg p, Zneg q => fdiv (S754_finite true p 0) (S754_finite true q 0)
  end.

(** The decimal literal [n / 10^k]: [flit 15 1] is [1.5]. *)
Definition flit (n : Z) (k : Z) : float := fdivZ n (10 ^ k).
Definition f1 : float := f_of_Z 1.

(** A Python division raises on a zero divisor, whatever its type. *)
Definition py_truediv (x y : float) : res float :=
  if feq y f0 then Err ZeroDivisionError else Ok (fdiv x y).

(** [max(a, b)] keeps [a] unless [b > a]; [min(a, b)] keeps [a] unless [b < a]. *)
Definition fmax (a b : float) : float := if flt a b then b else a.
Definition fmin (a b : float) : float := if flt b a then b else a.

(** Left-to-right [sum(...)], which starts from the integer [0]. *)
Definition fsum (l : list float) : float := fold_left fadd l f0.

Definition f_isfinite (x : float) : bool :=
  match x with S754_zero _ | S754_finite _ _ _ => true | _ => false end.
Definition f_isnan (x : float) : bool :=
  match x with S754_nan => true | _ => false end.

(** [math.floor(x)]; [None] where Python raises (infinities and NaN). *)
Definition f_floor (x : float) : option Z :=
  match x with
  | S754_zero _ => Some 0
  | S754_finite s m e =>
      let v := if s then Zneg m else Zpos m in
      Some (if Z.leb 0 e then v * 2 ^ e else v / 2 ^ (- e))
  | _ => None
  end.

(** [int(x)]: truncation toward zero. *)
Definition f_trunc (x : float) : option Z :=
  match x with
  | S754_zero _ => Some 0
  | S754_finite s m e =>
      let v := if Z.leb 0 e then Zpos m * 2 ^ e else Zpos m / 2 ^ (- e) in
      Some (if s then - v else v)
  | _ => None
  end.

(** Nearest integer to [n / d] ([0 <= n], [0 < d]), ties to even. *)
Definition round_half_even (n d : Z) : Z :=
  let q := n / d in
  match Z.compare (2 * (n mod d)) d with
  | Lt => q
  | Gt => q + 1
  | Eq => if Z.even q then q else q + 1
  end.

(** [round(x, k)]: the decimal with [k] digits nearest to the exact value of
    [x] (ties to even), read back as a float. *)
Definition f_round (x : float) (k : Z) : float :=
  match x with
  | S754_finite s m e =>
      let num := if Z.leb 0 e then Zpos m * 2 ^ e * 10 ^ k else Zpos m * 10 ^ k in
      let den := if Z.leb 0 e then 1 else 2 ^ (- e) in
      let q := round_half_even num den in
      let r := fdivZ q (10 ^ k) in
      if s then fopp r else r
  | _ => x
  end.

(** [round(x)] with no digits: an [int]. *)
Definition f_round_int (x : float) : option Z :=
  match x with
  | S754_zero _ => Some 0
  | S754_finite s m e =>
      let q := if Z.leb 0 e then Zpos m * 2 ^ e else round_half_even (Zpos m) (2 ^ (- e)) in
      Some (if s then - q else q)
  | _ => None
  end.

(** Exact comparison of a float with an integer, as Python's [==] does. *)
Definition feq_Z (x : float) (n : Z) : bool :=
  match x with
  | S754_zero _ => n =? 0
  | S754_finite s m e =>
      let v := if s then Zneg m else Zpos m in
      if Z.leb 0 e then v * 2 ^ e =? n else v =? n * 2 ^ (- e)
  | _ => false
  end.

#[export] Instance float_eq_dec : EqDecision float.
Proof. solve_decision. Defined.

(** ** The order of non-NaN floats

    [frank] sends a float that is not NaN to a triple of integers, compared
    lexicographically; [flt] and [fle] are that order. *)

Definition frank (x : float) : Z * Z * Z :=
  match x with
  | S754_infinity true => (-2, 0, 0)
  | S754_finite true m e => (-1, - e, Zneg m)
  | S754_zero _ => (0, 0, 0)
  | S754_finite false m e => (1, e, Zpos m)
  | S754_infinity false => (2, 0, 0)
  | S754_nan => (3, 0, 0)
  end.

Definition rank_lt (a b : Z * Z * Z) : Prop :=
  let '(a1, a2, a3) := a in let '(b1, b2, b3) := b in
  a1 < b1 \/ (a1 = b1 /\ (a2 < b2 \/ (a2 = b2 /\ a3 < b3))).

Definition notnan (x : float) : Prop := x <> S754_nan.

Lemma flt_rank x y : notnan x -> notnan y -> flt x y = true <-> rank_lt (frank x) (frank y).
Proof.
  unfold notnan, flt, SFltb.
  destruct x as [sx|sx| |sx mx ex], y as [sy|sy| |sy my ey]; try done;
    intros _ _; simpl;
    try destruct sx; try destruct sy; simpl;
    try (split; intros; first [done | lia]);
    change (Pos.compare_cont Eq mx my) with (Pos.compare mx my);
    destruct (Z.compare_spec ex ey); try destruct (Pos.compare_spec mx my); simpl;
    split; intros; first [done | lia].
Qed.

Lemma fle_rank x y : notnan x -> notnan y -> fle x y = true <-> ~ rank_lt (frank y) (frank x).
Proof.
  unfold notnan, fle, SFleb.
  destruct x as [sx|sx| |sx mx ex], y as [sy|sy| |sy my ey]; try done;
    intros _ _; simpl;
    try destruct sx; try destruct sy; simpl;
    try (split; intros; first [done | lia]);
    change (Pos.compare_cont Eq mx my) with (Pos.compare mx my);
    destruct (Z.compare_spec ex ey); try destruct (Pos.compare_spec mx my); simpl;
    split; intros; first [done | lia].
Qed.

Lemma rank_lt_trans a b c : rank_lt a b -> rank_lt b c -> rank_lt a c.
Proof. destruct a as [[??]?], b as [[??]?], c as [[??]?]; simpl; lia. Qed.
Lemma rank_lt_irrefl a : ~ rank_lt a a.
Proof. destruct a as [[??]?]; simpl; lia. Qed.
Lemma rank_not_lt_trans a b c : ~ rank_lt b a -> ~ rank_lt c b -> ~ rank_lt c a.
Proof. destruct a as [[??]?], b as [[??]?], c as [[??]?]; simpl; lia. Qed.

Lemma flt_nan_l y : flt S754_nan y = false. Proof. done. Qed.
Lemma flt_nan_r x : flt x S754_nan = false.
Proof. by destruct x as [[]|[]| |[] ? ?]. Qed.

Lemma flt_notnan x y : flt x y = true -> notnan x /\ notnan y.
Proof. intros H; split; intros ->; [done|]. by rewrite flt_nan_r in H. Qed.

Lemma flt_asym x y : flt x y = true -> flt y x = false.
Proof.
  intros H. destruct (flt_notnan _ _ H) as [Hx Hy].
  destruct (flt y x) eqn:E; [|done].
  apply flt_rank in H; [|done..]. apply flt_rank in E; [|done..].
  exfalso. by eapply rank_lt_irrefl, rank_lt_trans.
Qed.

Lemma flt_irrefl x : flt x x = false.
Proof. destruct (flt x x) eqn:E; [|done]. by rewrite <- (flt_asym _ _ E). Qed.

Lemma flt_trans x y z : flt x y = true -> flt y z = true -> flt x z = true.
Proof.
  intros H1 H2. destruct (flt_notnan _ _ H1), (flt_notnan _ _ H2).
  apply flt_rank; [done..|]. apply flt_rank in H1, H2; try done.
  by eapply rank_lt_trans.
Qed.

Lemma flt_false_fle x y : notnan x -> notnan y -> flt x y = false <-> fle y x = true.
Proof.
  intros Hx Hy. rewrite fle_rank by done. rewrite <- (flt_rank x y) by done.
  destruct (flt x y); split; done.
Qed.

Lemma fle_trans x y z : notnan y -> fle x y = true -> fle y z = true -> fle x z = true.
Proof.
  intros Hy H1 H2.
  assert (notnan x) by (intros ->; done).
  assert (notnan z) by (intros ->; destruct y as [[]|[]| |[] ? ?]; done).
  rewrite fle_rank in * by done. by eapply rank_not_lt_trans.
Qed.

Lemma fle_refl x : notnan x -> fle x x = true.
Proof. intros. apply fle_rank; [done..|]. apply rank_lt_irrefl. Qed.

Lemma flt_fle x y : flt x y = true -> fle x y = true.
Proof.
  intros H. destruct (flt_notnan _ _ H). apply flt_false_fle; [done..|]. by apply flt_asym.
Qed.

Lemma fle_notnan x y : fle x y = true -> notnan x /\ notnan y.
Proof.
  intros H; split; intros ->; [done|].
  by destruct x as [[]|[]| |[] ? ?].
Qed.

Lemma flt_le_trans x y z : flt x y = true -> fle y z = true -> flt x z = true.
Proof.
  intros H1 H2. destruct (flt_notnan _ _ H1), (fle_notnan _ _ H2).
  apply flt_rank; [done..|]. apply flt_rank in H1; [|done..]. apply fle_rank in H2; [|done..].
  destruct (frank x) as [[??]?], (frank y) as [[??]?], (frank z) as [[??]?]; simpl in *; lia.
Qed.

Lemma fmax_ge_l a b : notnan a -> fle a (fmax a b) = true.
Proof. unfold fmax. destruct (flt a b) eqn:E; intros; [by apply flt_fle|by apply fle_refl]. Qed.

Lemma fmax_notnan a b : notnan a -> notnan (fmax a b).
Proof. unfold fmax. destruct (flt a b) eqn:E; intros; [by destruct (flt_notnan _ _ E)|done]. Qed.

Lemma fmin_le_l a b : notnan a -> fle (fmin a b) a = true.
Proof. unfold fmin. destruct (flt b a) eqn:E; intros; [by apply flt_fle|by apply fle_refl]. Qed.

Lemma fmin_notnan a b : notnan a -> notnan (fmin a b).
Proof. unfold fmin. destruct (flt b a) eqn:E; intros; [by destruct (flt_notnan _ _ E)|done]. Qed.

(** The clamp [min(hi, max(lo, x))] lies in [lo, hi]; a NaN is sent to [lo]. *)
Lemma fclamp_bounds lo hi x :
  fle lo hi = true ->
  fle lo (fmin hi (fmax lo x)) = true /\ fle (fmin hi (fmax lo x)) hi = true.
Proof.
  intros H. destruct (fle_notnan _ _ H). split; [|by apply fmin_le_l].
  unfold fmin. destruct (flt (fmax lo x) hi); [by apply fmax_ge_l|done].
Qed.

Create HintDb pyfloat.
#[export] Hint Resolve flt_asym flt_fle fmax_notnan fmin_notnan fmax_ge_l fmin_le_l : pyfloat.

(** Sanity checks against the interpreter. *)
Example flit_01 : flit 1 1 = S754_finite false 7205759403792794 (-56).
Proof. reflexivity. Qed.
Example fadd_01_02 : fadd (flit 1 1) (flit 2 1) = S754_finite false 5404319552844596 (-54).
Proof. reflexivity. Qed.
Example f_round_2675 : f_round (flit 2675 3) 2 = flit 267 2.
Proof. reflexivity. Qed.

(** Exact comparison [x >= n] of a float with an integer. *)
Definition fge_Z (x : float) (n : Z) : bool :=
  match x with
  | S754_infinity s => negb s
  | S754_nan => false
  | _ => match f_floor x with Some v => n <=? v | None => false end
  end.

(** Equality and order read off the ranks. *)
Lemma feq_rank x y : notnan x -> notnan y -> feq x y = true <-> frank x = frank y.
Proof.
  unfold notnan, feq, SFeqb.
  destruct x as [sx|sx| |sx mx ex], y as [sy|sy| |sy my ey]; try done;
    intros _ _; simpl;
    try destruct sx; try destruct sy; simpl; try (split; intros; first [done | congruence | lia]);
    change (Pos.compare_cont Eq mx my) with (Pos.compare mx my);
    destruct (Z.compare_spec ex ey); try destruct (Pos.compare_spec mx my); simpl;
    split; intros Heq; try done; try (injection Heq; lia); try (f_equal; try f_equal; lia).
Qed.

Definition rank_ltb (a b : Z * Z * Z) : bool :=
  let '(a1, a2, a3) := a in let '(b1, b2, b3) := b in
  (a1 <? b1) || ((a1 =? b1) && ((a2 <? b2) || ((a2 =? b2) && (a3 <? b3)))).

Lemma rank_ltb_iff a b : rank_ltb a b = true <-> rank_lt a b.
Proof. destruct a as [[a1 a2] a3], b as [[b1 b2] b3]; simpl. lia. Qed.

Lemma rank_total a b : rank_lt a b \/ a = b \/ rank_lt b a.
Proof.
  destruct a as [[a1 a2] a3], b as [[b1 b2] b3]; simpl.
  destruct (Z.lt_total a1 b1) as [|[->|]]; [lia| |lia].
  destruct (Z.lt_total a2 b2) as [|[->|]]; [lia| |lia].
  destruct (Z.lt_total a3 b3) as [|[->|]]; [lia|auto|lia].
Qed.

Lemma flt_rankb x y : notnan x -> notnan y -> flt x y = rank_ltb (frank x) (frank y).
Proof.
  intros Hx Hy. apply eq_true_iff_eq. by rewrite rank_ltb_iff, flt_rank.
Qed.

Lemma fopp_notnan x : notnan x -> notnan (fopp x).
Proof. by destruct x. Qed.

Lemma fopp_lt x y : notnan x -> notnan y -> flt (fopp x) (fopp y) = flt y x.
Proof.
  intros Hx Hy. apply eq_true_iff_eq. rewrite !flt_rank by (done || by apply fopp_notnan).
  destruct x as [sx|sx| |sx mx ex], y as [sy|sy| |sy my ey]; try done;
    try destruct sx; try destruct sy; simpl; lia.
Qed.

Lemma frank_opp x : notnan x -> frank (fopp x) = (let '(a, b, c) := frank x in (- a, - b, - c)).
Proof. destruct x as [[]|[]| |[] m e]; simpl; intros Hn; try done; by rewrite ?Z.opp_involutive. Qed.

Lemma frank_opp_eq x y : notnan x -> notnan y -> frank (fopp x) = frank (fopp y) <-> frank x = frank y.
Proof.
  intros Hx Hy. rewrite !frank_opp by done. destruct (frank x) as [[a b] c], (frank y) as [[a' b'] c'].
  split; intros Heq; injection Heq as E1 E2 E3; f_equal; try f_equal; lia.
Qed.

Lemma feq_flt x y : feq x y = true -> flt x y = false.
Proof. unfold feq, flt, SFeqb, SFltb. by destruct (SFcompare x y) as [[]|]. Qed.

Lemma feq_notnan x y : feq x y = true -> notnan x /\ notnan y.
Proof. intros H; split; intros ->; [done|]. by destruct x as [[]|[]| |[] ? ?]. Qed.

Lemma feq_flt_sym x y : feq x y = true -> flt y x = false.
Proof.
  intros H. destruct (feq_notnan _ _ H) as [Hx Hy]. apply feq_rank in H; [|done..].
  rewrite flt_rankb, H by done. destruct (rank_ltb (frank y) (frank y)) eqn:E; [|done].
  by apply rank_ltb_iff, rank_lt_irrefl in E.
Qed.

(** ** Integers as floats

    [float(n)] is exact below [2^53], multiplying it by [1.0] changes nothing,
    and rounding it gives [n] back. *)

Lemma digits2_size p : digits2_pos p = Pos.size p.
Proof. induction p; simpl; congruence. Qed.

Lemma size_iter p k : Pos.size (Pos.iter xO p k) = (Pos.size p + k)%positive.
Proof. induction k using Pos.peano_ind; [simpl; lia|]. rewrite Pos.iter_succ. simpl. rewrite IHk. lia. Qed.

Lemma iter_xO p k : Zpos (Pos.iter xO p k) = Zpos p * 2 ^ Zpos k.
Proof.
  induction k using Pos.peano_ind; [simpl; lia|]. rewrite Pos.iter_succ.
  change (Zpos (Pos.iter xO p k)~0) with (2 * Zpos (Pos.iter xO p k)). rewrite IHk, Pos2Z.inj_succ, Z.pow_succ_r by lia. lia.
Qed.

(** A mantissa of 53 digits is kept. *)
Lemma shr_canonical m e l :
  Pos.size m = 53%positive -> -1074 <= e -> shr_fexp 53 1024 (Zpos m) e l = (shr_record_of_loc (Zpos m) l, e).
Proof.
  intros Hm He. unfold shr_fexp, fexp, emin, Zdigits2. rewrite digits2_size, Hm.
  by replace (Z.max (53 + e - 53) (3 - 1024 - 53) - e) with 0 by lia.
Qed.

Lemma round_canonical s m e :
  Pos.size m = 53%positive -> -1074 <= e <= 971 -> binary_round_aux 53 1024 s (Zpos m) e loc_Exact = S754_finite s m e.
Proof.
  intros Hm He. unfold binary_round_aux. rewrite shr_canonical by (done || lia).
  cbn [shr_record_of_loc shr_m loc_of_shr_record round_nearest_even].
  rewrite shr_canonical by (done || lia). cbn [shr_record_of_loc shr_m]. by rewrite (proj2 (Z.leb_le _ _)) by lia.
Qed.

(** [float(p)] for [p] of at most 53 digits. *)
Definition exact_float (p : positive) : float :=
  match Z.sub (Zpos (Pos.size p)) 53 with
  | Zneg d => S754_finite false (Pos.iter xO p d) (Zpos (Pos.size p) - 53)
  | _ => S754_finite false p 0
  end.

Lemma f_of_Z_exact p : Zpos (Pos.size p) <= 53 -> f_of_Z (Zpos p) = exact_float p.
Proof.
  intros Hp. unfold f_of_Z, binary_normalize, binary_round, fexp, emin, exact_float. rewrite digits2_size.
  replace (Z.max (Zpos (Pos.size p) + 0 - 53) (3 - 1024 - 53)) with (Zpos (Pos.size p) - 53) by lia.
  unfold shl_align. rewrite Z.sub_0_r. destruct (Zpos (Pos.size p) - 53) as [|d|d] eqn:E; [|lia|].
  - apply round_canonical; lia.
  - apply round_canonical; [|lia]. rewrite size_iter. lia.
Qed.

Lemma fmul_one s m e :
  Pos.size m = 53%positive -> -1074 <= e <= 971 -> fmul (S754_finite s m e) f1 = S754_finite s m e.
Proof.
  intros Hm He. unfold fmul. change f1 with (S754_finite false 4503599627370496 (-52)).
  unfold SFmul. rewrite xorb_false_r. unfold binary_round_aux at 1. rewrite Pos.mul_comm.
  assert (shr_fexp 53 1024 (Zpos (4503599627370496 * m)) (e + -52) loc_Exact = ({| shr_m := Zpos m; shr_r := false; shr_s := false |}, e)) as ->.
  { change (4503599627370496 * m)%positive with (Pos.iter xO m 52). unfold shr_fexp, fexp, emin, Zdigits2.
    rewrite digits2_size, size_iter, Hm.
    replace (Z.max (Zpos (53 + 52) + (e + -52) - 53) (3 - 1024 - 53) - (e + -52)) with 52 by lia. unfold shr, shr_record_of_loc.
    replace (e + -52 + 52) with e by lia. done. }
  cbn [shr_m loc_of_shr_record round_nearest_even]. rewrite shr_canonical by (done || lia). cbn [shr_record_of_loc shr_m].
  by rewrite (proj2 (Z.leb_le _ _)) by lia.
Qed.

Lemma round_exact p : Zpos (Pos.size p) <= 53 -> f_round_int (exact_float p) = Some (Zpos p).
Proof.
  intros Hp. unfold exact_float. destruct (Zpos (Pos.size p) - 53) as [|d|d] eqn:E; [|lia|].
  - simpl. by rewrite Z.mul_1_r.
  - unfold f_round_int. rewrite (proj2 (Z.leb_gt _ _)) by lia. rewrite Z.opp_involutive || idtac.
    replace (- (Zpos (Pos.size p) - 53)) with (Zpos d) by lia. rewrite iter_xO. unfold round_half_even.
    rewrite Z.mod_mul, Z.div_mul by lia. rewrite Z.mul_0_r. by rewrite (proj2 (Z.compare_lt_iff _ _)) by lia.
Qed.

Lemma small_size n p : n < 2 ^ 53 -> n = Zpos p -> Zpos (Pos.size p) <= 53.
Proof.
  intros Hn ->. destruct (Z.le_gt_cases (Zpos (Pos.size p)) 53) as [|Hgt]; [done|].
  assert (2 ^ 53 <= Zpos p); [|lia].
  pose proof (Pos.size_le p) as H. assert (Zpos (2 ^ Pos.size p) <= 2 * Zpos p) as H2 by (change (2 * Zpos p) with (Zpos p~0); done).
  rewrite Pos2Z.inj_pow in H2. assert (2 ^ 54 <= 2 ^ Zpos (Pos.size p)) by (apply Z.pow_le_mono_r; lia). lia.
Qed.

(** [round(n * 1.0) == n] and [round(n * 0.0) == 0]. *)
Lemma round_mul_one n : 0 <= n < 2 ^ 53 -> f_round_int (fmul (f_of_Z n) f1) = Some n.
Proof.
  intros [H0 Hn]. destruct n as [|p|p]; [done| |lia]. pose proof (small_size _ p Hn eq_refl) as Hp.
  rewrite f_of_Z_exact by done. pose proof (round_exact p Hp) as Hr. unfold exact_float in *.
  destruct (Zpos (Pos.size p) - 53) as [|d|d] eqn:E; [|lia|].
  - rewrite fmul_one; [done|lia|lia].
  - rewrite fmul_one; [done| |lia]. rewrite size_iter. lia.
Qed.

Lemma round_mul_zero n : 0 <= n < 2 ^ 53 -> f_round_int (fmul (f_of_Z n) f0) = Some 0.
Proof.
  intros [H0 Hn]. destruct n as [|p|p]; [done| |lia]. rewrite f_of_Z_exact by (by eapply small_size).
  unfold exact_float. by destruct (Zpos (Pos.size p) - 53).
Qed.
