(* ===== verification/PyStr.v ===== *)
(** * Python strings

    Strings are byte strings (UTF-8, so the byte order is the code-point order
    of Python's [<]).  [strip], [lower] and the character classes are the ASCII
    parts of the Python functions; on the identifiers, digests and host names
    the components handle, non-ASCII letters are rejected by the same
    validators or left unchanged by both. *)
From S2P Require Export Prelude.
From Stdlib Require Import Structures.OrdersEx.

(** ** Characters *)

Definition in_range (lo hi : N) (c : ascii) : bool :=
  (lo <=? N_of_ascii c)%N && (N_of_ascii c <=? hi)%N.

Definition is_digit (c : ascii) : bool := in_range 48 57 c.
Definition is_upper (c : ascii) : bool := in_range 65 90 c.
Definition is_lower (c : ascii) : bool := in_range 97 122 c.
Definition is_space (c : ascii) : bool :=
  in_range 9 13 c || in_range 28 32 c.

(** [[0-9a-f]] and [[a-fA-F0-9]]. *)
Definition is_hex_lower (c : ascii) : bool := is_digit c || in_range 97 102 c.
Definition is_hex (c : ascii) : bool := is_hex_lower c || in_range 65 70 c.

Definition lower_ascii (c : ascii) : ascii :=
  if is_upper c then ascii_of_N (N_of_ascii c + 32) else c.

(** ** Strings *)

Fixpoint str_forallb (p : ascii -> bool) (s : string) : bool :=
  match s with
  | EmptyString => true
  | String c s => p c && str_forallb p s
  end.

Fixpoint str_map (f : ascii -> ascii) (s : string) : string :=
  match s with
  | EmptyString => EmptyString
  | String c s => String (f c) (str_map f s)
  end.

Definition str_lower : string -> string := str_map lower_ascii.
Definition str_len (s : string) : Z := Z.of_nat (String.length s).

Fixpoint lstrip (s : string) : string :=
  match s with
  | String c s' => if is_space c then lstrip s' else s
  | EmptyString => EmptyString
  end.

(** Drop the trailing white space. *)
Fixpoint rstrip (s : string) : string :=
  match s with
  | EmptyString => EmptyString
  | String c s' =>
      match rstrip s' with
      | EmptyString => if is_space c then EmptyString else String c EmptyString
      | s'' => String c s''
      end
  end.

Definition strip (s : string) : string := rstrip (lstrip s).

Definition str_lt (a b : string) : bool := String.ltb a b.

(** [re.match] of a pattern [^[class]{n}$]: in Python [$] also matches just
    before a final newline. *)
Definition nl : ascii := ascii_of_N 10.

Fixpoint re_class_exact (p : ascii -> bool) (n : nat) (s : string) : bool :=
  match n, s with
  | O, EmptyString => true
  | O, String c EmptyString => Ascii.eqb c nl
  | S n, String c s => p c && re_class_exact p n s
  | _, _ => false
  end.

(** Decimal printing of a non-negative integer, as [f"{n}"]. *)
Definition str_of_Z (n : Z) : string := pretty n.

(** ** Lemmas *)

Lemma str_lt_compare a b : str_lt a b = true <-> String.compare a b = Lt.
Proof. unfold str_lt, String.ltb. destruct (String.compare a b); split; done. Qed.

Lemma str_lt_asym a b : str_lt a b = true -> str_lt b a = false.
Proof.
  intros H%str_lt_compare. unfold str_lt, String.ltb.
  rewrite String.compare_antisym, H. done.
Qed.

Lemma str_lt_irrefl a : str_lt a a = false.
Proof. destruct (str_lt a a) eqn:E; [|done]. by rewrite <- (str_lt_asym _ _ E). Qed.

Lemma str_lt_trans a b c : str_lt a b = true -> str_lt b c = true -> str_lt a c = true.
Proof.
  rewrite !str_lt_compare. intros H1 H2.
  assert (StrictOrder String_as_OT.lt) as [_ Ht] by apply String_as_OT.lt_strorder.
  assert (String_as_OT.lt a c) as Hac.
  { apply (Ht a b c); unfold String_as_OT.lt; done. }
  done.
Qed.

Lemma str_lt_total a b : a <> b -> str_lt a b = false -> str_lt b a = true.
Proof.
  intros Hne H. apply str_lt_compare. rewrite String.compare_antisym.
  unfold str_lt, String.ltb in H.
  destruct (String.compare a b) eqn:E; [|done|done].
  by apply String.compare_eq_iff in E.
Qed.

Lemma str_forallb_lower_hex s :
  str_forallb is_hex s = true -> str_forallb is_hex_lower (str_lower s) = true.
Proof.
  unfold str_lower. induction s as [|c s IH]; simpl; [done|].
  intros [Hc Hs]%andb_true_iff. rewrite IH by done. rewrite andb_true_r.
  destruct c as [[] [] [] [] [] [] [] []]; vm_compute in Hc |- *; done.
Qed.

Lemma lower_ascii_idemp c : lower_ascii (lower_ascii c) = lower_ascii c.
Proof. by destruct c as [[] [] [] [] [] [] [] []]. Qed.

Lemma str_lower_idemp s : str_lower (str_lower s) = str_lower s.
Proof. unfold str_lower. induction s as [|c s IH]; simpl; [done|]. by rewrite lower_ascii_idemp, IH. Qed.

Lemma str_lower_hex_lower s : str_forallb is_hex_lower s = true -> str_lower s = s.
Proof.
  unfold str_lower. induction s as [|c s IH]; simpl; [done|]. intros [Hc Hs]%andb_true_iff.
  rewrite IH by done. f_equal. by destruct c as [[] [] [] [] [] [] [] []].
Qed.

Lemma is_hex_lower_not_space c : is_hex_lower c = true -> is_space c = false.
Proof. by destruct c as [[] [] [] [] [] [] [] []]. Qed.

Lemma rstrip_nospace s :
  str_forallb (fun c => negb (is_space c)) s = true -> rstrip s = s.
Proof.
  induction s as [|c s IH]; simpl; [done|]. intros [Hc Hs]%andb_true_iff.
  rewrite IH by done. destruct s; [|done]. by destruct (is_space c).
Qed.

Lemma strip_nospace s :
  str_forallb (fun c => negb (is_space c)) s = true -> strip s = s.
Proof.
  intros H. unfold strip. replace (lstrip s) with s; [by apply rstrip_nospace|].
  destruct s as [|c s]; [done|]. simpl in *.
  apply andb_true_iff in H as [Hc Hs]. by destruct (is_space c).
Qed.

Lemma str_forallb_impl (p q : ascii -> bool) s :
  (forall c, p c = true -> q c = true) -> str_forallb p s = true -> str_forallb q s = true.
Proof.
  intros Hpq. induction s as [|c s IH]; simpl; [done|].
  intros [Hc Hs]%andb_true_iff. by rewrite Hpq, IH.
Qed.

Lemma strip_last_not_space s n c :
  strip s = (n +:+ String c EmptyString)%string -> is_space c = false.
Proof.
  unfold strip. generalize (lstrip s). clear s. intros s. revert n.
  induction s as [|d s IH]; simpl; intros n; [by destruct n|].
  destruct (rstrip s) as [|e s'] eqn:E.
  - destruct (is_space d) eqn:Ed; [by destruct n|].
    intros H. destruct n as [|a n]; simpl in H; [by injection H as ->|].
    injection H as -> H. by destruct n.
  - intros H. destruct n as [|a n]; simpl in H; [by injection H as -> ?|].
    injection H as -> H. by apply (IH n).
Qed.

(** ** Separators: [f"{w}{c}{s}"] determines both parts when [s] has no [c] *)

Definition no_char (c : ascii) (s : string) : bool := str_forallb (fun d => negb (Ascii.eqb d c)) s.

Lemma no_char_app c u v : no_char c (u +:+ v) = no_char c u && no_char c v.
Proof.
  unfold no_char. induction u as [|d u IH]; simpl; [done|]. rewrite IH. by destruct (Ascii.eqb d c).
Qed.

Lemma no_char_mid c w s : no_char c (w +:+ String c s) = false.
Proof.
  rewrite no_char_app. unfold no_char. simpl. rewrite Ascii.eqb_refl. simpl.
  by rewrite andb_false_r.
Qed.

Lemma sep_inj c w1 w2 s1 s2 :
  no_char c s1 = true -> no_char c s2 = true ->
  (w1 +:+ String c s1)%string = (w2 +:+ String c s2)%string -> w1 = w2 /\ s1 = s2.
Proof.
  intros H1 H2. revert w2. induction w1 as [|a w1 IH]; intros [|b w2]; simpl; intros H.
  - injection H as ->. done.
  - injection H as _ Hs. by rewrite Hs, no_char_mid in H1.
  - injection H as _ Hs. by rewrite <- Hs, no_char_mid in H2.
  - injection H as -> Hs. by destruct (IH _ Hs) as [-> ->].
Qed.

Lemma pretty_N_go_no_char c x s :
  (forall y, pretty_N_char y <> c) -> no_char c s = true -> no_char c (pretty_N_go x s) = true.
Proof.
  intros Hc. revert s. induction (N.lt_wf_0 x) as [x _ IH]; intros s Hs.
  destruct (decide (0 < x)%N) as [Hx|Hx].
  - rewrite pretty_N_go_step by done. apply IH; [by apply N.div_lt|].
    unfold no_char in *. simpl. rewrite Hs, andb_true_r.
    destruct (Ascii.eqb_spec (pretty_N_char (x mod 10)) c); [|done]. by edestruct Hc.
  - assert (x = 0%N) as -> by lia. by rewrite pretty_N_go_0.
Qed.

(** The decimal text of a non-negative integer contains digits only. *)
Lemma str_of_Z_no_char c n :
  0 <= n -> (forall y, pretty_N_char y <> c) -> no_char c (str_of_Z n) = true.
Proof.
  intros Hn Hc. unfold str_of_Z, pretty, pretty_Z. destruct n as [|p|p]; [| |lia].
  - change (negb (Ascii.eqb "0"%char c) && true = true). rewrite andb_true_r.
    destruct (Ascii.eqb_spec "0"%char c) as [Heq|]; [|done]. by destruct (Hc 0%N).
  - unfold pretty, pretty_positive, pretty, pretty_N. case_decide; [done|].
    by apply pretty_N_go_no_char.
Qed.

Lemma pretty_N_char_ne c :
  negb (existsb (Ascii.eqb c) ["0"; "1"; "2"; "3"; "4"; "5"; "6"; "7"; "8"; "9"]%char) = true ->
  forall y, pretty_N_char y <> c.
Proof. intros H y <-. unfold pretty_N_char in H. repeat case_match; done. Qed.

Lemma str_of_Z_inj m n : str_of_Z m = str_of_Z n -> m = n.
Proof. intros H. by apply (inj pretty). Qed.

(** ** Splitting and parsing *)

(** [s.split(c, 1)]: the parts before and after the first [c]. *)
Fixpoint split_once (c : ascii) (s : string) : option (string * string) :=
  match s with
  | EmptyString => None
  | String d s' =>
      if Ascii.eqb d c then Some (EmptyString, s')
      else option_map (fun '(a, b) => (String d a, b)) (split_once c s')
  end.

(** [s.split(c)]. *)
Fixpoint split_on (c : ascii) (s : string) : list string :=
  match s with
  | EmptyString => [EmptyString]
  | String d s' =>
      if Ascii.eqb d c then EmptyString :: split_on c s'
      else match split_on c s' with x :: r => String d x :: r | [] => [] end
  end.

(** [os.path.basename] with [/] as the separator: the part after the last one. *)
Fixpoint basename_from (acc s : string) : string :=
  match s with
  | EmptyString => acc
  | String c s' => if Ascii.eqb c "/"%char then basename_from s' s' else basename_from acc s'
  end.
Definition basename (s : string) : string := basename_from s s.

Fixpoint starts_with (pre s : string) : bool :=
  match pre, s with
  | EmptyString, _ => true
  | String a pre, String b s => Ascii.eqb a b && starts_with pre s
  | _, EmptyString => false
  end.

(** [s[:n]] and [s[n:]] for [0 <= n]. *)
Fixpoint str_take (n : nat) (s : string) : string :=
  match n, s with S n, String c s => String c (str_take n s) | _, _ => EmptyString end.
Fixpoint str_drop (n : nat) (s : string) : string :=
  match n, s with S n, String c s => str_drop n s | _, _ => s end.

(** [s.endswith(suf)] *)
Definition ends_with (suf s : string) : bool :=
  bool_decide (String.length suf <= String.length s)%nat
  && String.eqb (str_drop (String.length s - String.length suf) s) suf.

(** [s.rstrip(c)] *)
Fixpoint rstrip_char (c : ascii) (s : string) : string :=
  match s with
  | EmptyString => EmptyString
  | String d s' =>
      match rstrip_char c s' with
      | EmptyString => if Ascii.eqb d c then EmptyString else String d EmptyString
      | t => String d t
      end
  end.

Fixpoint str_concat (l : list string) : string :=
  match l with [] => EmptyString | s :: l => s +:+ str_concat l end.

Definition digit_val (c : ascii) : Z := Z.of_N (N_of_ascii c) - 48.

(** Decimal digits with single underscores between them, as [int] accepts;
    [last_digit] says whether an underscore may come next. *)
Fixpoint int_digits (acc : Z) (last_digit : bool) (s : string) : option Z :=
  match s with
  | EmptyString => if last_digit then Some acc else None
  | String c s =>
      if is_digit c then int_digits (acc * 10 + digit_val c) true s
      else if Ascii.eqb c "_"%char && last_digit then int_digits acc false s else None
  end.

(** [int(s)] for a decimal string; [None] where it raises [ValueError]. *)
Definition py_int (s : string) : option Z :=
  match strip s with
  | String "-"%char s' => option_map Z.opp (int_digits 0 false s')
  | String "+"%char s' => int_digits 0 false s'
  | s' => int_digits 0 false s'
  end.

Example py_int_ok : py_int " -1_024 " = Some (-1024) /\ py_int "6.1" = None /\ py_int "" = None.
Proof. done. Qed.
Example basename_ok : basename "/usr/bin/blender" = "blender"%string /\ basename "ffmpeg" = "ffmpeg"%string.
Proof. done. Qed.

Lemma str_app_assoc (a b c : string) : ((a +:+ b) +:+ c = a +:+ (b +:+ c))%string.
Proof. induction a as [|x a IH]; [done|]. exact (f_equal (String x) IH). Qed.
Lemma str_app_nil a : a +:+ EmptyString = a.
Proof. induction a as [|x a IH]; [done|]. exact (f_equal (String x) IH). Qed.
Lemma str_app_length a b : String.length (a +:+ b) = (String.length a + String.length b)%nat.
Proof. induction a as [|x a IH]; [done|]. exact (f_equal S IH). Qed.
Lemma str_take_drop n s : str_take n s +:+ str_drop n s = s.
Proof. revert s. induction n as [|n IH]; intros [|c s]; try done. exact (f_equal (String c) (IH s)). Qed.
Lemma str_take_length n s : String.length (str_take n s) = Nat.min n (String.length s).
Proof. revert s. induction n as [|n IH]; intros [|c s]; simpl; auto. Qed.
Lemma str_drop_length n s : String.length (str_drop n s) = (String.length s - n)%nat.
Proof. revert s. induction n as [|n IH]; intros [|c s]; simpl; auto. Qed.
Lemma str_take_all n s : (String.length s <= n)%nat -> str_take n s = s.
Proof. revert s. induction n as [|n IH]; intros [|c s]; simpl; intros H; try done; try lia. f_equal. apply IH. lia. Qed.
Lemma str_take_split m n s : str_take (m + n) s = str_take m s +:+ str_take n (str_drop m s).
Proof.
  revert s. induction m as [|m IH]; intros [|c s]; try done.
  - by destruct n.
  - exact (f_equal (String c) (IH s)).
Qed.
Lemma str_drop_drop m n s : str_drop n (str_drop m s) = str_drop (m + n) s.
Proof. revert s. induction m as [|m IH]; intros [|c s]; simpl; try done. by destruct n. Qed.
Lemma str_length_0 s : String.length s = 0%nat -> s = EmptyString.
Proof. by destruct s. Qed.
Lemma str_concat_app l k : str_concat (l ++ k) = str_concat l +:+ str_concat k.
Proof. induction l as [|s l IH]; [done|]. simpl. by rewrite IH, str_app_assoc. Qed.

(** ** Decimal round trip *)

Lemma pretty_N_char_digit d : (d < 10)%N -> is_digit (pretty_N_char d) = true /\ digit_val (pretty_N_char d) = Z.of_N d.
Proof.
  intros H. assert (d = 0 \/ d = 1 \/ d = 2 \/ d = 3 \/ d = 4 \/ d = 5 \/ d = 6 \/ d = 7 \/ d = 8 \/ d = 9)%N as Hd by lia.
  repeat (destruct Hd as [->|Hd]; [by split|]). subst d. by split.
Qed.

Lemma pretty_N_go_step_digits x s : (0 < x)%N ->
  pretty_N_go x s = pretty_N_go (x / 10) (String (pretty_N_char (x mod 10)) s).
Proof. apply pretty_N_go_step. Qed.

Lemma int_digits_pretty x : forall s, (0 < x)%N ->
  int_digits 0 false (pretty_N_go x s) = int_digits (Z.of_N x) true s.
Proof.
  induction (N.lt_wf_0 x) as [x _ IH]. intros s Hx. rewrite pretty_N_go_step_digits by done.
  assert (x mod 10 < 10)%N as Hm by (by apply N.mod_lt). destruct (pretty_N_char_digit _ Hm) as [Hd Hv].
  destruct (decide (0 < x / 10)%N) as [Hq|Hq].
  - rewrite IH by (done || by apply N.div_lt). cbn [int_digits]. rewrite Hd, Hv. f_equal.
    pose proof (N.div_mod x 10 ltac:(lia)). lia.
  - assert (x / 10 = 0)%N as Hz by (by apply N.le_0_r, N.nlt_ge). rewrite Hz, pretty_N_go_0. cbn [int_digits].
    rewrite Hd, Hv. f_equal. pose proof (N.div_mod x 10 ltac:(lia)) as Hm'. rewrite Hz in Hm'. lia.
Qed.

Lemma pretty_N_go_digits x : forall s, str_forallb is_digit s = true -> str_forallb is_digit (pretty_N_go x s) = true.
Proof.
  induction (N.lt_wf_0 x) as [x _ IH]. intros s Hs. destruct (decide (0 < x)%N) as [Hx|Hx].
  - rewrite pretty_N_go_step_digits by done. apply IH; [by apply N.div_lt|]. cbn [str_forallb].
    rewrite Hs, andb_true_r. apply pretty_N_char_digit. by apply N.mod_lt.
  - assert (x = 0)%N as -> by lia. by rewrite pretty_N_go_0.
Qed.

Lemma str_of_Z_digits n : 0 <= n -> str_forallb is_digit (str_of_Z n) = true.
Proof.
  intros Hn. unfold str_of_Z, pretty, pretty_Z. destruct n as [|p|p]; [done| |lia].
  unfold pretty, pretty_positive, pretty, pretty_N. case_decide; [done|]. by apply pretty_N_go_digits.
Qed.

Lemma is_digit_not_space c : is_digit c = true -> negb (is_space c) = true.
Proof. by destruct c as [[] [] [] [] [] [] [] []]. Qed.

Lemma str_of_Z_nospace n : 0 <= n -> str_forallb (fun c => negb (is_space c)) (str_of_Z n) = true.
Proof. intros H. eapply str_forallb_impl; [|by apply str_of_Z_digits]. apply is_digit_not_space. Qed.

Lemma py_int_str_of_Z n : 0 <= n -> py_int (str_of_Z n) = Some n.
Proof.
  intros Hn. unfold py_int. rewrite strip_nospace by (by apply str_of_Z_nospace).
  pose proof (str_of_Z_digits n Hn) as Hd.
  assert (int_digits 0 false (str_of_Z n) = Some n) as Hi.
  { unfold str_of_Z, pretty, pretty_Z. destruct n as [|p|p]; [done| |lia].
    unfold pretty, pretty_positive, pretty, pretty_N. rewrite decide_False by done. by rewrite int_digits_pretty. }
  destruct (str_of_Z n) as [|c s]; [done|]. cbn [str_forallb] in Hd. apply andb_true_iff in Hd as [Hc _].
  rewrite <- Hi. by destruct c as [[] [] [] [] [] [] [] []].
Qed.

Lemma str_of_Z_nonempty n : 0 <= n -> exists c s, str_of_Z n = String c s.
Proof.
  intros Hn. pose proof (py_int_str_of_Z n Hn) as H. destruct (str_of_Z n) as [|c s]; [done|]. by exists c, s.
Qed.

Lemma split_once_app c u v : no_char c u = true -> split_once c (u +:+ String c v) = Some (u, v).
Proof.
  unfold no_char. induction u as [|d u IH]; simpl; [by rewrite Ascii.eqb_refl|].
  intros [Hd Hu]%andb_true_iff. apply negb_true_iff in Hd. rewrite Hd, IH by done. done.
Qed.

Lemma str_app_inv_tail a b c : (a +:+ c = b +:+ c)%string -> a = b.
Proof.
  revert b. induction a as [|x a IH]; intros [|y b] H; [done| | |].
  - apply (f_equal String.length) in H. rewrite !str_app_length in H. simpl in H. lia.
  - apply (f_equal String.length) in H. rewrite !str_app_length in H. simpl in H. lia.
  - injection H as -> H. f_equal. by apply IH.
Qed.
