(* ===== verification/PySort.v ===== *)
(** * Sorting by [(float, str)] keys

    Python compares tuples element by element, first with [==] and then with
    [<]; [fkey_lt] is that comparison.  When no key is NaN it is a strict total
    preorder and the head of the sorted list is a least element. *)
From S2P Require Export PyFloat PyStr.

(** Sorting by a float key with ties broken by a string, as Python sorts by
    the tuple; when no key is NaN this is a strict total preorder. *)
Section float_keyed.
Context {A : Type} (key : A -> float) (name : A -> string).

Definition fkey_lt (a b : A) : bool :=
  if feq (key a) (key b) then str_lt (name a) (name b) else flt (key a) (key b).

Definition fkey_ltb (a b : A) : bool :=
  rank_ltb (frank (key a)) (frank (key b)) ||
  (bool_decide (frank (key a) = frank (key b)) && str_lt (name a) (name b)).

Lemma fkey_lt_ltb a b : notnan (key a) -> notnan (key b) -> fkey_lt a b = fkey_ltb a b.
Proof.
  intros Ha Hb. unfold fkey_lt, fkey_ltb. pose proof (feq_rank _ _ Ha Hb) as Heq.
  rewrite flt_rankb by done. destruct (feq (key a) (key b)).
  - rewrite (proj1 Heq eq_refl), bool_decide_eq_true_2 by done. simpl.
    destruct (rank_ltb _ _) eqn:E; [|done]. by apply rank_ltb_iff, rank_lt_irrefl in E.
  - rewrite bool_decide_eq_false_2; [by rewrite orb_false_r|]. intros He. by apply Heq in He.
Qed.

Definition fkey_lexlt (a b : A) : Prop :=
  rank_lt (frank (key a)) (frank (key b)) \/
  (frank (key a) = frank (key b) /\ str_lt (name a) (name b) = true).

Lemma fkey_ltb_iff a b : fkey_ltb a b = true <-> fkey_lexlt a b.
Proof.
  unfold fkey_ltb, fkey_lexlt. rewrite orb_true_iff, rank_ltb_iff, andb_true_iff, bool_decide_eq_true. done.
Qed.

Lemma fkey_lexlt_trans a b c : fkey_lexlt a b -> fkey_lexlt b c -> fkey_lexlt a c.
Proof.
  unfold fkey_lexlt. intros [H1|[E1 H1]] [H2|[E2 H2]].
  - left. by eapply rank_lt_trans.
  - left. by rewrite <- E2.
  - left. by rewrite E1.
  - right. split; [congruence|]. by eapply str_lt_trans.
Qed.

Lemma fkey_lexlt_irrefl a : ~ fkey_lexlt a a.
Proof. intros [H|[_ H]]; [by apply rank_lt_irrefl in H|]. by rewrite str_lt_irrefl in H. Qed.

Lemma fkey_ltb_asym a b : fkey_ltb a b = true -> fkey_ltb b a = false.
Proof.
  intros Hab. destruct (fkey_ltb b a) eqn:Hba; [|done].
  apply fkey_ltb_iff in Hab, Hba. exfalso. by eapply fkey_lexlt_irrefl, fkey_lexlt_trans.
Qed.

Lemma fkey_not_gt a b : not_gt fkey_ltb a b <-> fkey_lexlt a b \/ (frank (key a) = frank (key b) /\ name a = name b).
Proof.
  unfold not_gt. destruct (fkey_ltb b a) eqn:E.
  - apply fkey_ltb_iff in E. split; [done|]. intros [H|[H1 H2]].
    + exfalso. by eapply fkey_lexlt_irrefl, fkey_lexlt_trans.
    + exfalso. destruct E as [E|[_ E]]; [rewrite H1 in E; by apply rank_lt_irrefl in E|].
      rewrite H2, str_lt_irrefl in E. done.
  - split; [intros _|done].
    assert (~ fkey_lexlt b a) as Hn by (intros Hn; apply fkey_ltb_iff in Hn; congruence).
    unfold fkey_lexlt in *. destruct (rank_total (frank (key a)) (frank (key b))) as [H|[H|H]].
    + auto.
    + destruct (decide (name a = name b)); [auto|]. left. right. split; [done|].
      apply str_lt_total; [congruence|]. destruct (str_lt (name b) (name a)) eqn:E'; [|done].
      exfalso. apply Hn. right. split; [congruence|done].
    + exfalso. apply Hn. auto.
Qed.

Lemma fkey_not_gt_trans a b c : not_gt fkey_ltb a b -> not_gt fkey_ltb b c -> not_gt fkey_ltb a c.
Proof.
  rewrite !fkey_not_gt. unfold fkey_lexlt.
  intros [[H1|[E1 H1]]|[E1 N1]] [[H2|[E2 H2]]|[E2 N2]].
  - left. left. by eapply rank_lt_trans.
  - left. left. by rewrite <- E2.
  - left. left. by rewrite <- E2.
  - left. left. by rewrite E1.
  - left. right. split; [congruence|]. by eapply str_lt_trans.
  - left. right. split; [congruence|]. by rewrite <- N2.
  - left. left. by rewrite E1.
  - left. right. split; [congruence|]. by rewrite N1.
  - right. split; congruence.
Qed.

(** The head of the sorted list is a least element. *)
Lemma isort_fkey_head l x l' :
  (forall y, y ∈ l -> notnan (key y)) -> isort fkey_lt l = x :: l' ->
  forall y, y ∈ l -> fkey_lexlt x y \/ (frank (key x) = frank (key y) /\ name x = name y).
Proof.
  intros Hnn E y Hy. apply fkey_not_gt. unfold not_gt.
  rewrite (isort_ext fkey_lt fkey_ltb) in E by (intros; apply fkey_lt_ltb; auto).
  eapply isort_head_min; [apply fkey_ltb_asym|apply fkey_not_gt_trans|exact E|done].
Qed.

Lemma isort_fkey_sorted l :
  (forall y, y ∈ l -> notnan (key y)) -> StronglySorted (not_gt fkey_ltb) (isort fkey_lt l).
Proof.
  intros Hnn. rewrite (isort_ext fkey_lt fkey_ltb) by (intros; apply fkey_lt_ltb; auto).
  apply isort_strongly_sorted; [apply fkey_ltb_asym|apply fkey_not_gt_trans].
Qed.

(** With distinct names there is one sorted arrangement. *)
Lemma isort_fkey_unique l r :
  (forall y, y ∈ l -> notnan (key y)) -> (forall x y, x ∈ l -> y ∈ l -> name x = name y -> x = y) ->
  StronglySorted (not_gt fkey_ltb) r -> Permutation l r -> isort fkey_lt l = r.
Proof.
  intros Hnn Hinj Hs Hp. apply (StronglySorted_unique_strong (not_gt fkey_ltb)).
  - intros x y Hx Hy Hxy Hyx. apply isort_elem in Hx. rewrite <- Hp in Hy. apply Hinj; [done..|].
    apply fkey_not_gt in Hxy, Hyx. destruct Hxy as [Hxy|[_ ?]]; [|done]. destruct Hyx as [Hyx|[_ ?]]; [|done].
    by destruct (fkey_lexlt_irrefl x (fkey_lexlt_trans _ _ _ Hxy Hyx)).
  - by apply isort_fkey_sorted.
  - done.
  - by rewrite isort_perm.
Qed.
End float_keyed.

(** ** Descending by a float key

    [sort(key=key, reverse=True)] keeps the order of equal keys, so it is the
    stable sort by falling key. *)
Section descending.
Context {A : Type} (key : A -> float).

Definition desc_lt (a b : A) : bool := flt (key b) (key a).

Lemma isort_desc_sorted l :
  (forall e, e ∈ l -> notnan (key e)) ->
  StronglySorted (fun a b => fle (key b) (key a) = true) (isort desc_lt l).
Proof.
  intros Hnn. set (g := fun a b => rank_ltb (frank (key b)) (frank (key a))).
  rewrite (isort_ext desc_lt g).
  2: { intros x y Hx Hy. unfold desc_lt, g. apply flt_rankb; auto. }
  assert (forall e, e ∈ isort g l -> notnan (key e)) as Hnn' by (intros e He%isort_elem; auto).
  assert (StronglySorted (not_gt g) (isort g l)) as Hs.
  { apply isort_strongly_sorted; unfold not_gt, g.
    - intros x y H. apply not_true_iff_false. intros H'. apply rank_ltb_iff in H, H'.
      exact (rank_lt_irrefl _ (rank_lt_trans _ _ _ H H')).
    - intros x y z H1 H2. apply not_true_iff_false. intros H. apply rank_ltb_iff in H.
      apply not_true_iff_false in H1, H2. rewrite rank_ltb_iff in H1, H2.
      revert H. by eapply rank_not_lt_trans. }
  induction Hs as [|a r _ IH Hf]; constructor; [apply IH; intros e He; apply Hnn'; by right|].
  rewrite List.Forall_forall in *. intros b Hb. specialize (Hf b Hb). apply list_elem_of_In in Hb.
  apply flt_false_fle; [apply Hnn'; left|apply Hnn'; by right|].
  rewrite flt_rankb by (apply Hnn'; (left || by right)). exact Hf.
Qed.

(** Equal keys keep their order. *)
Lemma isort_desc_stable l s :
  notnan s -> List.filter (fun e => feq (key e) s) (isort desc_lt l) = List.filter (fun e => feq (key e) s) l.
Proof.
  intros Hn. apply isort_stable. intros a b Ha Hb. unfold desc_lt.
  apply feq_notnan in Ha as Hna. apply feq_notnan in Hb as Hnb. destruct Hna as [Hna _], Hnb as [Hnb _].
  apply feq_rank in Ha, Hb; [|done..]. rewrite flt_rankb by done. rewrite Ha, Hb.
  apply not_true_iff_false. rewrite rank_ltb_iff. apply rank_lt_irrefl.
Qed.
End descending.

(** ** A flag before the key

    Tuples [(0 or 1, float, str)]: the flagged elements first, each side by
    its float key, ties by name. *)
Section flagged.
Context {A : Type} (flag : A -> bool) (key : A -> float) (name : A -> string).

Definition flag_lt (a b : A) : bool :=
  if Bool.eqb (flag a) (flag b) then fkey_lt key name a b else flag a.

Definition flag_ltb (a b : A) : bool :=
  if Bool.eqb (flag a) (flag b) then fkey_ltb key name a b else flag a.

Lemma flag_ltb_asym a b : flag_ltb a b = true -> flag_ltb b a = false.
Proof.
  unfold flag_ltb. destruct (flag a), (flag b); simpl; try done; apply fkey_ltb_asym.
Qed.

Lemma flag_not_gt a b :
  not_gt flag_ltb a b <->
  (flag a = true /\ flag b = false) \/ (flag a = flag b /\ not_gt (fkey_ltb key name) a b).
Proof. unfold not_gt, flag_ltb. destruct (flag a), (flag b); simpl; naive_solver. Qed.

Lemma flag_not_gt_trans a b c : not_gt flag_ltb a b -> not_gt flag_ltb b c -> not_gt flag_ltb a c.
Proof.
  rewrite !flag_not_gt. intros [[? ?]|[E1 H1]] [[? ?]|[E2 H2]].
  - congruence.
  - left. split; congruence.
  - left. split; congruence.
  - right. split; [congruence|]. eapply fkey_not_gt_trans; eauto.
Qed.

Lemma isort_flag_sorted l :
  (forall x, x ∈ l -> notnan (key x)) -> StronglySorted (not_gt flag_ltb) (isort flag_lt l).
Proof.
  intros Hnn. rewrite (isort_ext flag_lt flag_ltb).
  - apply isort_strongly_sorted; [apply flag_ltb_asym|apply flag_not_gt_trans].
  - intros x y Hx Hy. unfold flag_lt, flag_ltb. destruct (Bool.eqb _ _); [|done]. apply fkey_lt_ltb; auto.
Qed.
End flagged.
