(* ===== verification/Models.v ===== *)
(** * Data models and validators ([distributed/models.py])

    The records and enumerations that the registries, the placement engine and
    the cluster sizer exchange, with the validation logic of the Pydantic
    models: hash normalisation, execution-group membership, affinity and
    dependency checks.  Field names are those of the source with a prefix per
    record; the free-form [parameters] object is a JSON value. *)
From S2P Require Export PySort.

(** ** JSON values ([Dict[str, Any]]) *)

Inductive json :=
| JNull
| JBool (b : bool)
| JInt (n : Z)
| JFloat (f : float)
| JStr (s : string)
| JList (l : list json)
| JObj (o : list (string * json)).

Section json_induction.
Variable P : json -> Prop.
Hypothesis P_leaf : forall v, match v with JObj _ | JList _ => False | _ => True end -> P v.
Hypothesis P_list : forall l, Forall P l -> P (JList l).
Hypothesis P_obj : forall o, Forall (fun kv => P (snd kv)) o -> P (JObj o).

Fixpoint json_nested_ind (v : json) : P v.
Proof.
  destruct v as [|b|n|f|s|l|o]; try (apply P_leaf; exact I).
  - apply P_list. induction l as [|x l IH]; constructor; [apply json_nested_ind|exact IH].
  - apply P_obj. induction o as [|[k x] o IH]; constructor; [apply json_nested_ind|exact IH].
Qed.
End json_induction.

Definition json_truthy (j : json) : bool :=
  match j with
  | JNull => false
  | JBool b => b
  | JInt n => negb (n =? 0)
  | JFloat f => negb (feq f f0)
  | JStr s => str_truthy s
  | JList l => match l with [] => false | _ => true end
  | JObj o => match o with [] => false | _ => true end
  end.

Definition json_num (j : json) : option (Z + float) :=
  match j with
  | JBool b => Some (inl (if b then 1 else 0))
  | JInt n => Some (inl n)
  | JFloat f => Some (inr f)
  | _ => None
  end.

Definition num_eqb (a b : Z + float) : bool :=
  match a, b with
  | inl x, inl y => x =? y
  | inr x, inr y => feq x y
  | inl x, inr y => feq_Z y x
  | inr x, inl y => feq_Z x y
  end.

(** Python [==]: booleans are the integers 0 and 1, an [int] equals the
    [float] of the same value, and objects compare as key/value sets. *)
Fixpoint json_eqb (a b : json) {struct a} : bool :=
  match a, b with
  | JNull, JNull => true
  | JStr s, JStr t => String.eqb s t
  | JList l, JList m =>
      (fix go (l m : list json) : bool :=
         match l, m with
         | [], [] => true
         | x :: l, y :: m => json_eqb x y && go l m
         | _, _ => false
         end) l m
  | JObj o, JObj p =>
      Nat.eqb (length o) (length p) &&
      (fix go (o : list (string * json)) : bool :=
         match o with
         | [] => true
         | (k, v) :: o =>
             match od_get k p with Some w => json_eqb v w | None => false end && go o
         end) o
  | _, _ =>
      match json_num a, json_num b with
      | Some x, Some y => num_eqb x y
      | _, _ => false
      end
  end.

(** Equality of two [Dict[str, str]]. *)
Definition sdict_eqb (a b : odict string) : bool :=
  Nat.eqb (length a) (length b) &&
  forallb (fun '(k, v) => match od_get k b with Some w => String.eqb v w | None => false end) a.

Definition opt_eqb {A} (eqb : A -> A -> bool) (a b : option A) : bool :=
  match a, b with
  | Some x, Some y => eqb x y
  | None, None => true
  | _, _ => false
  end.

(** ** Hash validation *)

(** A normalised digest: 64 lowercase hexadecimal characters. *)
Definition is_sha256 (s : string) : bool :=
  Nat.eqb (String.length s) 64 && str_forallb is_hex_lower s.

Definition validate_sha256_hex (val : string) : res string :=
  let cleaned := str_lower (strip val) in
  if re_class_exact is_hex 64 cleaned then Ok cleaned
  else Err (ValueError "Invalid SHA-256 hash format").

(** Set comprehension [{validate_sha256_hex(h) for h in v}]. *)
Definition validate_hashes (v : list string) : res (gset string) :=
  res_fold (fun acc h => let! n := validate_sha256_hex h in Ok ({[n]} ∪ acc)) ∅ v.

(** ** Enumerations *)

Inductive worker_status := WS_ACTIVE | WS_DEGRADED | WS_UNHEALTHY | WS_DRAINING | WS_OFFLINE.
#[export] Instance worker_status_eq_dec : EqDecision worker_status.
Proof. solve_decision. Defined.

Inductive locality_tier := LOOPBACK | SUBNET | LAN | WAN.
#[export] Instance locality_tier_eq_dec : EqDecision locality_tier.
Proof. solve_decision. Defined.

Inductive failure_category :=
| WORKER_UNAVAILABLE | TEMPORARY_CAS_FAILURE | RESOURCE_EXHAUSTION | EXECUTION_TIMEOUT
| ASSET_TRANSFER_FAILURE | ASSET_STAGING_FAILURE
| INVALID_INPUT | INVALID_DEPENDENCY | MISSING_EXECUTABLE | INVALID_WORKLOAD
| APPLICATION_ERROR | AUTHORIZATION_FAILURE | MALFORMED_REQUEST
| ARTIFACT_VERIFICATION_FAILURE | EXECUTION_FAILURE.
#[export] Instance failure_category_eq_dec : EqDecision failure_category.
Proof. solve_decision. Defined.

Inductive execution_shape := SINGLE_MACHINE | TASK_SPLIT | PIPELINE | DISTRIBUTED_NATIVE.
#[export] Instance execution_shape_eq_dec : EqDecision execution_shape.
Proof. solve_decision. Defined.

Inductive affinity_mode := AF_NONE | AF_SAME_WORKER | AF_DIFFERENT_WORKER | AF_SAME_TAG | AF_DIFFERENT_TAG.
#[export] Instance affinity_mode_eq_dec : EqDecision affinity_mode.
Proof. solve_decision. Defined.

Inductive group_state := GS_ASSIGNED | GS_RUNNING | GS_COMPLETED | GS_FAILED | GS_LOST.
#[export] Instance group_state_eq_dec : EqDecision group_state.
Proof. solve_decision. Defined.

(** ** Workload specifications *)

Record execution_spec := {
  es_executable : string;
  es_args : list string;
  es_env : odict string;
  es_cwd : option string;
  es_timeout_seconds : option float;
  es_command : option string;
}.

Record workload_spec := {
  ws_workload_id : string;
  ws_job_id : option string;
  ws_task_type : string;
  ws_input_asset_hashes : gset string;
  ws_min_cpu_cores : Z;
  ws_min_ram_bytes : Z;
  ws_requires_gpu : bool;
  ws_min_vram_bytes : Z;
  ws_estimated_duration_seconds : float;
  ws_priority : Z;
  ws_deadline_at_utc : option float;
  ws_required_gpu_vendor : option string;
  ws_required_gpu_model : option string;
  ws_min_compute_capability : option string;
  ws_required_driver_version : option string;
  ws_required_runtime_compatibility : option string;
  ws_required_worker_tags : odict string;
  ws_preferred_worker_tags : odict string;
  ws_affinity_group_id : option string;
  ws_affinity_mode : affinity_mode;
  ws_affinity_tag_key : option string;
  ws_affinity_hard : bool;
  ws_max_cost_per_hour : option float;
  ws_depends_on : list string;
  ws_parameters : odict json;
  ws_execution_spec : option execution_spec;
}.

Definition execution_spec_eqb (a b : execution_spec) : bool :=
  String.eqb (es_executable a) (es_executable b)
  && bool_decide (es_args a = es_args b)
  && sdict_eqb (es_env a) (es_env b)
  && opt_eqb String.eqb (es_cwd a) (es_cwd b)
  && opt_eqb feq (es_timeout_seconds a) (es_timeout_seconds b)
  && opt_eqb String.eqb (es_command a) (es_command b).

(** [WorkloadSpec.__eq__]: every field is compared. *)
Definition spec_eqb (a b : workload_spec) : bool :=
  String.eqb (ws_workload_id a) (ws_workload_id b)
  && opt_eqb String.eqb (ws_job_id a) (ws_job_id b)
  && String.eqb (ws_task_type a) (ws_task_type b)
  && bool_decide (ws_input_asset_hashes a = ws_input_asset_hashes b)
  && (ws_min_cpu_cores a =? ws_min_cpu_cores b)
  && (ws_min_ram_bytes a =? ws_min_ram_bytes b)
  && Bool.eqb (ws_requires_gpu a) (ws_requires_gpu b)
  && (ws_min_vram_bytes a =? ws_min_vram_bytes b)
  && feq (ws_estimated_duration_seconds a) (ws_estimated_duration_seconds b)
  && (ws_priority a =? ws_priority b)
  && opt_eqb feq (ws_deadline_at_utc a) (ws_deadline_at_utc b)
  && opt_eqb String.eqb (ws_required_gpu_vendor a) (ws_required_gpu_vendor b)
  && opt_eqb String.eqb (ws_required_gpu_model a) (ws_required_gpu_model b)
  && opt_eqb String.eqb (ws_min_compute_capability a) (ws_min_compute_capability b)
  && opt_eqb String.eqb (ws_required_driver_version a) (ws_required_driver_version b)
  && opt_eqb String.eqb (ws_required_runtime_compatibility a) (ws_required_runtime_compatibility b)
  && sdict_eqb (ws_required_worker_tags a) (ws_required_worker_tags b)
  && sdict_eqb (ws_preferred_worker_tags a) (ws_preferred_worker_tags b)
  && opt_eqb String.eqb (ws_affinity_group_id a) (ws_affinity_group_id b)
  && bool_decide (ws_affinity_mode a = ws_affinity_mode b)
  && opt_eqb String.eqb (ws_affinity_tag_key a) (ws_affinity_tag_key b)
  && Bool.eqb (ws_affinity_hard a) (ws_affinity_hard b)
  && opt_eqb feq (ws_max_cost_per_hour a) (ws_max_cost_per_hour b)
  && bool_decide (ws_depends_on a = ws_depends_on b)
  && json_eqb (JObj (ws_parameters a)) (JObj (ws_parameters b))
  && opt_eqb execution_spec_eqb (ws_execution_spec a) (ws_execution_spec b).

(** [WorkloadSpec.validate_affinity]. *)
Definition validate_affinity (s : workload_spec) : res workload_spec :=
  let mode := ws_affinity_mode s in
  if bool_decide (mode <> AF_NONE) && negb (opt_truthy (ws_affinity_group_id s)) then
    Err (ValueError "affinity_group_id is required when affinity_mode is not 'none'")
  else if bool_decide (mode = AF_SAME_TAG \/ mode = AF_DIFFERENT_TAG)
          && negb (opt_truthy (ws_affinity_tag_key s)) then
    Err (ValueError "affinity_tag_key is required for tag-scoped affinity")
  else if bool_decide (ws_workload_id s ∈ ws_depends_on s)
          || negb (bool_decide (NoDup (ws_depends_on s))) then
    Err (ValueError "dependencies must be unique and cannot include the workload itself")
  else Ok s.

(** ** Worker state and telemetry *)

Record worker_resource_profile := {
  rp_worker_id : string;
  rp_endpoint_url : string;
  rp_ip_address : string;
  rp_cpu_cores_total : Z;
  rp_cpu_cores_logical : Z;
  rp_cpu_cores_physical : Z;
  rp_cpu_freq_mhz : float;
  rp_cpu_utilization_percent : float;
  rp_ram_total_bytes : Z;
  rp_ram_available_bytes : Z;
  rp_gpu_available : bool;
  rp_gpu_device_name : option string;
  rp_gpu_vendor : option string;
  rp_gpu_model : option string;
  rp_gpu_compute_capability : option string;
  rp_gpu_driver_version : option string;
  rp_vram_total_bytes : Z;
  rp_vram_available_bytes : Z;
  rp_active_workload_count : Z;
  rp_max_concurrent_workloads : Z;
  rp_status : worker_status;
  rp_local_cached_hashes : gset string;
  rp_cost_per_hour : float;
  rp_timestamp_utc : option float;
  rp_can_execute_workloads : bool;
}.

Record worker_capabilities := {
  cap_can_serve_cas : bool;
  cap_can_receive_cas : bool;
  cap_max_concurrent_streams : Z;
  cap_bandwidth_limit_mbps : option float;
  cap_chunk_size_bytes : Z;
  cap_supports_range_requests : bool;
  cap_supported_protocols : list string;
  cap_extra : odict json;
}.

Record worker_metrics := {
  wm_active_transfers : Z;
  wm_active_uploads : Z;
  wm_active_downloads : Z;
  wm_cpu_percent : float;
  wm_ram_percent : float;
  wm_used_bytes : Z;
  wm_available_bytes : Z;
  wm_total_bytes_sent : Z;
  wm_total_bytes_received : Z;
  wm_transfer_error_count : Z;
  wm_uptime_seconds : float;
}.

Record worker_info := {
  wi_worker_id : string;
  wi_endpoint_url : string;
  wi_ip_address : string;
  wi_port : Z;
  wi_hostname : option string;
  wi_status : worker_status;
  wi_capacity_bytes : Z;
  wi_used_bytes : Z;
  wi_capabilities : worker_capabilities;
  wi_inventory_hashes : gset string;
  wi_last_heartbeat_utc : float;
  wi_estimated_rtt_ms : float;
  wi_active_transfers : Z;
  wi_consecutive_heartbeat_failures : Z;
  wi_penalty_score : float;
  wi_registered_at_utc : float;
  wi_last_metrics : option worker_metrics;
  wi_resource_profile : option worker_resource_profile;
  wi_tags : odict string;
  wi_cost_per_hour : float;
  wi_can_execute_workloads : bool;
}.

Definition wi_available_bytes (w : worker_info) : Z :=
  Z.max 0 (wi_capacity_bytes w - wi_used_bytes w).

Definition wi_is_healthy (w : worker_info) : bool :=
  bool_decide (wi_status w = WS_ACTIVE \/ wi_status w = WS_DEGRADED).

Record heartbeat_payload := {
  hb_metrics : option worker_metrics;
  hb_resource_profile : option worker_resource_profile;
  hb_active_transfers : Z;
  hb_used_bytes : option Z;
  hb_inventory_delta_added : gset string;
  hb_inventory_delta_removed : gset string;
}.

(** ** Placement decisions and execution results *)

(** The [locality] dictionary of a candidate ([PlacementEngine._locality]). *)
Record locality := {
  lo_class : string;
  lo_asset_count_fraction : float;
  lo_known_byte_fraction : option float;
  lo_known_asset_count : Z;
  lo_unknown_size_count : Z;
  lo_ranking_basis : string;
  lo_ranking_fraction : float;
}.

(** One entry of [candidate_explanations]: the verdict of every check by name,
    and the score terms of an eligible candidate. *)
Record candidate := {
  cd_worker_id : string;
  cd_checks : odict bool;
  cd_locality : locality;
  cd_rejection_reasons : list string;
  cd_scores : option (float * float * odict float);
}.
Definition cd_eligible (c : candidate) : bool := bool_decide (cd_rejection_reasons c = []).

Record placement_decision := {
  pd_workload_id : string;
  pd_selected_worker_id : string;
  pd_placement_score : float;
  pd_score_breakdown : odict float;
  pd_missing_assets_on_worker : gset string;
  pd_execution_tier : string;
  pd_decision_timestamp_utc : float;
  pd_candidate_explanations : list candidate;
  pd_m7_ranking_adjustments : odict float;
  pd_locality_details : option locality; 
  pd_deadline_details : option (string * float);
}.

Record workload_execution_result := {
  er_workload_id : string;
  er_worker_id : string;
  er_success : bool;
  er_output_asset_hashes : gset string;
  er_output_asset_sizes : odict Z;
  er_execution_duration_seconds : float;
  er_error_message : option string;
  er_was_checkpointed : bool;
  er_checkpoint_hash : option string;
  er_failure_category : option failure_category;
  er_checkpoint_runtime_type : option string;
  er_checkpoint_format_version : option Z;
  er_staging_duration_seconds : float;
  er_output_ingestion_duration_seconds : float;
  er_verification_duration_seconds : float;
  er_transfer_duration_seconds : float;
  er_stdout_snippet : option string;
  er_stderr_snippet : option string;
}.

(** [WorkloadExecutionResult.total_duration_seconds]. *)
Definition er_total_duration_seconds (r : workload_execution_result) : float :=
  fadd (fadd (fadd (fadd (er_staging_duration_seconds r) (er_execution_duration_seconds r))
                   (er_output_ingestion_duration_seconds r))
             (er_verification_duration_seconds r))
       (er_transfer_duration_seconds r).

(** [expected is not None and len(hashes) < expected]. *)
Definition too_few_outputs (n : Z) (expected : option json) : res bool :=
  match expected with
  | None | Some JNull => Ok false
  | Some (JBool b) => Ok (n <? (if b then 1 else 0))
  | Some (JInt m) => Ok (n <? m)
  | Some (JFloat x) => Ok (flt (f_of_Z n) x)
  | Some _ => Err TypeError
  end.

(** ** Execution groups *)

Record execution_group := {
  eg_execution_id : string;
  eg_worker_ids : list string;
  eg_required_worker_count : Z;
  eg_state : group_state;
  eg_unavailable_worker_ids : gset string;
  eg_placement_decisions : list placement_decision;
}.

Definition eg_with_state (g : execution_group) (st : group_state) (lost : list string) : execution_group :=
  {| eg_execution_id := eg_execution_id g; eg_worker_ids := eg_worker_ids g;
     eg_required_worker_count := eg_required_worker_count g; eg_state := st;
     eg_unavailable_worker_ids := list_to_set lost ∪ eg_unavailable_worker_ids g;
     eg_placement_decisions := eg_placement_decisions g |}.

(** [ExecutionGroup.validate_membership]. *)
Definition validate_membership (g : execution_group) : res execution_group :=
  if negb (Z.of_nat (length (eg_worker_ids g)) =? eg_required_worker_count g)
     || negb (bool_decide (NoDup (eg_worker_ids g))) then
    Err (ValueError "execution group must contain the required number of distinct workers")
  else if negb (bool_decide (eg_unavailable_worker_ids g ⊆ list_to_set (eg_worker_ids g))) then
    Err (ValueError "unavailable workers must belong to the execution group")
  else if negb (bool_decide (eg_placement_decisions g = [] \/
                 map pd_selected_worker_id (eg_placement_decisions g) = eg_worker_ids g)) then
    Err (ValueError "execution group requires one placement decision per worker in membership order")
  else Ok g.

(** ** Properties of the validators *)

Lemma re_class_exact_length p n s :
  (forall c, p c = true -> c <> nl) ->
  re_class_exact p n s = true ->
  (String.length s = n /\ str_forallb p s = true) \/
  (exists s', s = (s' +:+ String nl EmptyString)%string /\ String.length s' = n /\ str_forallb p s' = true).
Proof.
  intros Hnl. revert s. induction n as [|n IH]; intros [|c s]; simpl; try done.
  - by left.
  - destruct s; [|done]. intros ->%Ascii.eqb_eq. right. by exists EmptyString.
  - intros [Hc Hs]%andb_true_iff. destruct (IH _ Hs) as [[Hl Hf]|(s' & -> & Hl & Hf)].
    + left. by rewrite Hl, Hc, Hf.
    + right. exists (String c s'). simpl. by rewrite Hl, Hc, Hf.
Qed.

Lemma is_hex_not_nl c : is_hex c = true -> c <> nl.
Proof. intros H ->. done. Qed.

Lemma str_lower_snoc_nl s n :
  str_lower s = (n +:+ String nl EmptyString)%string ->
  exists n', s = (n' +:+ String nl EmptyString)%string.
Proof.
  revert n. unfold str_lower. induction s as [|c s IH]; simpl; intros n H; [by destruct n|].
  destruct n as [|a n]; simpl in H.
  - destruct s as [|d s]; [|done]. exists EmptyString. simpl. f_equal.
    assert (lower_ascii c = nl) as Hc by (by injection H).
    by destruct c as [[] [] [] [] [] [] [] []].
  - injection H as Hc Hs. destruct (IH _ Hs) as [n' ->]. by exists (String c n').
Qed.

Lemma validate_sha256_hex_lemma val h :
  validate_sha256_hex val = Ok h -> is_sha256 h = true /\ validate_sha256_hex h = Ok h.
Proof.
  unfold validate_sha256_hex. destruct (re_class_exact _ _ _) eqn:E; [|done].
  intros [= <-].
  assert (is_sha256 (str_lower (strip val)) = true) as Hsha.
  { apply re_class_exact_length in E; [|apply is_hex_not_nl].
    destruct E as [[Hl Hf]|(s' & Hs & _ & _)].
    - unfold is_sha256. rewrite Hl. rewrite <- (str_lower_idemp (strip val)).
      by rewrite str_forallb_lower_hex.
    - exfalso. apply str_lower_snoc_nl in Hs as [n' Hn'].
      by apply strip_last_not_space in Hn'. }
  split; [done|]. pose proof Hsha as H. unfold is_sha256 in H.
  apply andb_true_iff in H as [_ Hf]. rewrite (strip_nospace (str_lower _)).
  - by rewrite str_lower_idemp, E.
  - eapply str_forallb_impl; [|done]. intros c Hc. by rewrite is_hex_lower_not_space.
Qed.

Lemma validate_sha256_hex_norm h : is_sha256 h = true -> validate_sha256_hex h = Ok h.
Proof.
  unfold is_sha256. intros [Hl%Nat.eqb_eq Hf]%andb_true_iff. unfold validate_sha256_hex.
  rewrite strip_nospace, str_lower_hex_lower by
    (done || (eapply str_forallb_impl; [|done]; intros c Hc; by rewrite is_hex_lower_not_space)).
  enough (re_class_exact is_hex 64 h = true) as -> by done.
  revert Hl Hf. generalize 64%nat. induction h as [|c h IH]; simpl; intros n <-; [done|].
  intros [Hc Hf]%andb_true_iff. simpl. rewrite (IH _ eq_refl Hf).
  unfold is_hex. by rewrite Hc.
Qed.

#[export] Hint Resolve validate_sha256_hex_norm : core.

(** ** A plain specification, to run the components on concrete inputs *)

Definition plain_spec (wid task : string) (deps : list string) : workload_spec :=
  {| ws_workload_id := wid; ws_job_id := None; ws_task_type := task;
     ws_input_asset_hashes := ∅; ws_min_cpu_cores := 1; ws_min_ram_bytes := 0;
     ws_requires_gpu := false; ws_min_vram_bytes := 0;
     ws_estimated_duration_seconds := f_of_Z 60; ws_priority := 5; ws_deadline_at_utc := None;
     ws_required_gpu_vendor := None; ws_required_gpu_model := None;
     ws_min_compute_capability := None; ws_required_driver_version := None;
     ws_required_runtime_compatibility := None; ws_required_worker_tags := [];
     ws_preferred_worker_tags := []; ws_affinity_group_id := None; ws_affinity_mode := AF_NONE;
     ws_affinity_tag_key := None; ws_affinity_hard := false; ws_max_cost_per_hour := None;
     ws_depends_on := deps; ws_parameters := []; ws_execution_spec := None |}.

Definition plain_capabilities : worker_capabilities :=
  {| cap_can_serve_cas := true; cap_can_receive_cas := true; cap_max_concurrent_streams := 4;
     cap_bandwidth_limit_mbps := None; cap_chunk_size_bytes := 65536; cap_supports_range_requests := true;
     cap_supported_protocols := ["http"]%string; cap_extra := [] |}.

Definition plain_worker (wid : string) (hb : float) (hashes : gset string) : worker_info :=
  {| wi_worker_id := wid; wi_endpoint_url := "http://10.0.0.1:1"; wi_ip_address := "10.0.0.1"; wi_port := 1;
     wi_hostname := None; wi_status := WS_ACTIVE; wi_capacity_bytes := 100; wi_used_bytes := 10;
     wi_capabilities := plain_capabilities; wi_inventory_hashes := hashes; wi_last_heartbeat_utc := hb;
     wi_estimated_rtt_ms := f0; wi_active_transfers := 0; wi_consecutive_heartbeat_failures := 0;
     wi_penalty_score := f0; wi_registered_at_utc := hb; wi_last_metrics := None; wi_resource_profile := None;
     wi_tags := []; wi_cost_per_hour := f0; wi_can_execute_workloads := true |}.

Definition plain_profile (wid : string) (cores ram : Z) (hashes : gset string) : worker_resource_profile :=
  {| rp_worker_id := wid; rp_endpoint_url := "http://10.0.0.1:1"; rp_ip_address := "10.0.0.1";
     rp_cpu_cores_total := cores; rp_cpu_cores_logical := cores; rp_cpu_cores_physical := cores;
     rp_cpu_freq_mhz := f_of_Z 3000; rp_cpu_utilization_percent := f0; rp_ram_total_bytes := ram;
     rp_ram_available_bytes := ram; rp_gpu_available := false; rp_gpu_device_name := None; rp_gpu_vendor := None;
     rp_gpu_model := None; rp_gpu_compute_capability := None; rp_gpu_driver_version := None;
     rp_vram_total_bytes := 0; rp_vram_available_bytes := 0; rp_active_workload_count := 0;
     rp_max_concurrent_workloads := 4; rp_status := WS_ACTIVE; rp_local_cached_hashes := hashes;
     rp_cost_per_hour := f0; rp_timestamp_utc := Some f0; rp_can_execute_workloads := true |}.
