(* ===== verification/Sha256.v ===== *)
(** * SHA-256

    [hashlib.sha256(data).hexdigest()] (FIPS 180-4) on byte strings, executable:
    32-bit words are integers modulo [2^32]. *)
From S2P Require Export Models.

Definition w32 (x : Z) : Z := Z.land x (Z.ones 32).
Definition rotr (n x : Z) : Z := Z.lor (Z.shiftr x n) (w32 (Z.shiftl x (32 - n))).
Definition ch (x y z : Z) : Z := Z.lxor (Z.land x y) (Z.land (Z.lxor x (Z.ones 32)) z).
Definition maj (x y z : Z) : Z := Z.lxor (Z.lxor (Z.land x y) (Z.land x z)) (Z.land y z).
Definition bsig0 x := Z.lxor (Z.lxor (rotr 2 x) (rotr 13 x)) (rotr 22 x).
Definition bsig1 x := Z.lxor (Z.lxor (rotr 6 x) (rotr 11 x)) (rotr 25 x).
Definition ssig0 x := Z.lxor (Z.lxor (rotr 7 x) (rotr 18 x)) (Z.shiftr x 3).
Definition ssig1 x := Z.lxor (Z.lxor (rotr 17 x) (rotr 19 x)) (Z.shiftr x 10).

(** ** Constants

    FIPS 180-4 defines the constants by their origin, and so does this file: the
    first 32 bits of the fractional parts of the cube roots of the first 64
    primes, and of the square roots of the first 8. *)

Definition is_prime (n : Z) : bool :=
  forallb (fun d => negb (Z.eqb (n mod d) 0)) (seqZ 2 (Z.sqrt n - 1)).
Definition primes_below (n : Z) : list Z := List.filter is_prime (seqZ 2 (n - 2)).

(** Bit by bit from bit [k]: the greatest [r] with [r ^ 3 <= n] that extends the
    bits already in [r]. *)
Fixpoint cbrt_bits (k : nat) (n r : Z) : Z :=
  let r' := Z.lor r (Z.shiftl 1 (Z.of_nat k)) in
  let r := if Z.leb (r' * r' * r') n then r' else r in
  match k with O => r | S k => cbrt_bits k n r end.

Definition frac_cbrt (p : Z) : Z := w32 (cbrt_bits 40 (Z.shiftl p 96) 0).
Definition frac_sqrt (p : Z) : Z := w32 (Z.sqrt (Z.shiftl p 64)).

Definition first_primes : list Z := Eval vm_compute in primes_below 312.
Definition round_constants : list Z := Eval vm_compute in map frac_cbrt first_primes.
Definition initial_hash : list Z := Eval vm_compute in map frac_sqrt (take 8 first_primes).

(** ** Padding and blocks *)

Fixpoint bytes_of (s : string) : list Z :=
  match s with EmptyString => [] | String c s => Z.of_N (N_of_ascii c) :: bytes_of s end.

(** [n] as eight bytes, most significant first. *)
Definition be64 (n : Z) : list Z := map (fun k => Z.land (Z.shiftr n (8 * k)) 255) [7; 6; 5; 4; 3; 2; 1; 0].

Definition padded (msg : list Z) : list Z :=
  let n := Z.of_nat (length msg) in
  msg ++ [128] ++ repeat 0 (Z.to_nat ((55 - n) mod 64)) ++ be64 (8 * n).

(** Big-endian words of a list of bytes. *)
Fixpoint words (l : list Z) : list Z :=
  match l with
  | a :: b :: c :: d :: l => (((a * 256 + b) * 256 + c) * 256 + d) :: words l
  | _ => []
  end.

(** ** Compression *)

(** The message schedule, newest word first: sixteen words give [16 + n]. *)
Fixpoint schedule (n : nat) (rev_w : list Z) : list Z :=
  match n with
  | O => rev_w
  | S n =>
      let w k := nth k rev_w 0 in
      schedule n (w32 (ssig1 (w 1%nat) + w 6%nat + ssig0 (w 14%nat) + w 15%nat) :: rev_w)
  end.

Fixpoint rounds (kw : list (Z * Z)) (st : list Z) : list Z :=
  match kw, st with
  | (k, w) :: kw, [a; b; c; d; e; f; g; h] =>
      let t1 := h + bsig1 e + ch e f g + k + w in
      let t2 := bsig0 a + maj a b c in
      rounds kw [w32 (t1 + t2); a; b; c; w32 (d + t1); e; f; g]
  | _, _ => st
  end.

Definition compress (st block : list Z) : list Z :=
  let w := rev (schedule 48 (rev block)) in
  map (fun '(x, y) => w32 (x + y)) (combine st (rounds (combine round_constants w) st)).

(** Blocks of sixteen words; [n] bounds their number. *)
Fixpoint blocks (n : nat) (ws : list Z) : list (list Z) :=
  match n, ws with
  | S n, _ :: _ => take 16 ws :: blocks n (drop 16 ws)
  | _, _ => []
  end.

Definition hash_words (msg : list Z) : list Z :=
  let ws := words (padded msg) in
  fold_left compress (blocks (length ws) ws) initial_hash.

(** ** Hexadecimal digest *)

Definition hex_digit (n : Z) : ascii := ascii_of_N (Z.to_N (if Z.ltb n 10 then n + 48 else n + 87)).
Definition hex_word (x : Z) : list ascii :=
  map (fun k => hex_digit (Z.land (Z.shiftr x (4 * k)) 15)) [7; 6; 5; 4; 3; 2; 1; 0].
Definition sha256 (data : string) : string :=
  string_of_list_ascii (flat_map hex_word (hash_words (bytes_of data))).

Example sha256_empty : sha256 "" = "e3b0c44298fc1c149afbf4c8996fb92427ae41e4649b934ca495991b7852b855"%string.
Proof. vm_compute. reflexivity. Qed.
Example sha256_abc : sha256 "abc" = "ba7816bf8f01cfea414140de5dae2223b00361a396177a9cb410ff61f20015ad"%string.
Proof. vm_compute. reflexivity. Qed.
Example sha256_two_blocks :
  sha256 "abcdbcdecdefdefgefghfghighijhijkijkljklmklmnlmnomnopnopq" =
  "248d6a61d20638b8e5c026930c3e6039a33ce45964ff2167f6ecedd419db06c1"%string.
Proof. vm_compute. reflexivity. Qed.

(** ** Shape of a digest: 64 lower-case hexadecimal characters *)

Lemma rounds_length kw st : length st = 8%nat -> length (rounds kw st) = 8%nat.
Proof.
  revert st. induction kw as [|[k w] kw IH]; intros st Hl; simpl; [done|].
  destruct st as [|a [|b [|c [|d [|e [|f [|g [|h [|]]]]]]]]]; try done. by apply IH.
Qed.

Lemma compress_length st block : length st = 8%nat -> length (compress st block) = 8%nat.
Proof. intros H. unfold compress. rewrite length_map, length_combine, rounds_length by done. lia. Qed.

Lemma hash_words_length msg : length (hash_words msg) = 8%nat.
Proof.
  unfold hash_words. generalize (blocks (length (words (padded msg))) (words (padded msg))).
  assert (length initial_hash = 8%nat) as H by done. revert H. generalize initial_hash.
  intros st H l. revert st H. induction l as [|b l IH]; intros st H; simpl; [done|].
  apply IH. by apply compress_length.
Qed.

Lemma nibble_range x k : 0 <= Z.land (Z.shiftr x (4 * k)) 15 < 16.
Proof. change 15 with (Z.ones 4). rewrite Z.land_ones by lia. apply Z.mod_pos_bound. lia. Qed.

Lemma hex_digit_lower n : 0 <= n < 16 -> is_hex_lower (hex_digit n) = true.
Proof.
  intros H. assert (n ∈ seqZ 0 16) as Hin by (apply elem_of_seqZ; lia).
  clear H. revert n Hin. apply Forall_forall. repeat (constructor; [reflexivity|]). constructor.
Qed.

Lemma digest_length msg : length (flat_map hex_word (hash_words msg)) = 64%nat.
Proof.
  pose proof (hash_words_length msg) as H.
  destruct (hash_words msg) as [|a [|b [|c [|d [|e [|f [|g [|h [|]]]]]]]]]; try done.
Qed.

Lemma string_of_list_length l : String.length (string_of_list_ascii l) = length l.
Proof. induction l; simpl; auto. Qed.

Lemma sha256_length data : String.length (sha256 data) = 64%nat.
Proof. unfold sha256. rewrite string_of_list_length. apply digest_length. Qed.

Lemma str_forallb_list p l : str_forallb p (string_of_list_ascii l) = forallb p l.
Proof. induction l as [|c l IH]; [done|]. cbn. by rewrite IH. Qed.

Lemma sha256_hex data : str_forallb is_hex_lower (sha256 data) = true.
Proof.
  unfold sha256. rewrite str_forallb_list. apply forallb_forall. intros c Hc.
  apply in_flat_map in Hc as (x & _ & Hc). unfold hex_word in Hc. apply in_map_iff in Hc as (k & <- & _).
  apply hex_digit_lower, nibble_range.
Qed.

(** ** Digests are the strings the validators accept *)

Lemma re_class_exact_iff p n s :
  (forall c, p c = true -> c <> nl) -> str_forallb p s = true -> String.length s = n -> re_class_exact p n s = true.
Proof.
  intros Hp. revert s. induction n as [|n IH]; intros [|c s]; simpl; try done.
  intros [Hc Hs]%andb_true_iff [= Hl]. by rewrite Hc, IH.
Qed.

Lemma sha256_is_sha256 data : is_sha256 (sha256 data) = true.
Proof. unfold is_sha256. by rewrite sha256_length, sha256_hex. Qed.

Lemma is_sha256_lower h : is_sha256 h = true -> str_lower h = h.
Proof. unfold is_sha256. intros [_ Hf]%andb_true_iff. by apply str_lower_hex_lower. Qed.
