(* ===== verification/Auth.v ===== *)
(** * Coordinator authentication ([distributed/auth.py])

    The credential store, the request guards built on it and the nonce guard
    against replayed requests.  [os.environ] is a dictionary argument; the
    random part of an issued credential is the argument [token].  The guards are
    functions of the store as the factories close over it; a refused request is
    an [HTTPException].  [secrets.compare_digest] is equality. *)
From S2P Require Export Sha256 PyFloat.

Definition INSECURE_MODE_ENV_VAR : string := "AIDAR_INSECURE_MODE".
Definition ADMIN_TOKENS_ENV_VAR : string := "AIDAR_ADMIN_TOKENS".
Definition BOOTSTRAP_SECRET_ENV_VAR : string := "AIDAR_WORKER_BOOTSTRAP_SECRET".

Definition is_insecure_mode_enabled (env : odict string) : bool :=
  let value := od_get_default INSECURE_MODE_ENV_VAR "" env in
  bool_decide (str_lower (strip value) ∈ ["1"; "true"; "yes"]%string).

Definition hash_token (token : string) : string := sha256 token.

(** [s or None] *)
Definition nonempty (s : string) : option string := if str_truthy s then Some s else None.

Definition extract_bearer_token (authorization : option string) : option string :=
  match authorization with
  | None => None
  | Some header =>
      if negb (str_truthy header) then None
      else
        match split_once " "%char header with
        | None => None
        | Some (scheme, rest) =>
            if negb (String.eqb (str_lower scheme) "bearer") then None
            else nonempty (strip rest)
        end
  end.

(** ** The credential store *)

Record credential_store := {
  cs_admin_token_hashes : gset string;
  cs_bootstrap_secret_hash : option string;
  cs_worker_credential_hashes : gmap string string;
  cs_insecure_mode : bool;
}.

Definition load_admin_tokens_from_env (env : odict string) : gset string :=
  let raw := od_get_default ADMIN_TOKENS_ENV_VAR "" env in
  list_to_set (List.filter str_truthy (map strip (split_on ","%char raw))).

Definition load_bootstrap_secret_from_env (env : odict string) : option string :=
  nonempty (strip (od_get_default BOOTSTRAP_SECRET_ENV_VAR "" env)).

(** The admin tokens and the bootstrap secret in force: the arguments, or else
    the environment. *)
Definition configured_admin_tokens (env : odict string) (admin_tokens : option (gset string)) : gset string :=
  default (load_admin_tokens_from_env env) admin_tokens.

Definition resolved_bootstrap (env : odict string) (bootstrap_secret : option string) : option string :=
  match bootstrap_secret with Some s => nonempty s | None => load_bootstrap_secret_from_env env end.

Definition new_credential_store (env : odict string) (admin_tokens : option (gset string))
    (bootstrap_secret : option string) (insecure_mode : option bool) : credential_store :=
  {| cs_admin_token_hashes := set_map hash_token (configured_admin_tokens env admin_tokens);
     cs_bootstrap_secret_hash := hash_token <$> resolved_bootstrap env bootstrap_secret;
     cs_worker_credential_hashes := ∅;
     cs_insecure_mode := default (is_insecure_mode_enabled env) insecure_mode |}.

Definition token_truthy (token : option string) : option string := t ← token; nonempty t.

Definition verify_admin_token (cs : credential_store) (token : option string) : bool :=
  match token_truthy token with
  | None => false
  | Some t => existsb (String.eqb (hash_token t)) (elements (cs_admin_token_hashes cs))
  end.

Definition verify_bootstrap_secret (cs : credential_store) (token : option string) : bool :=
  match token_truthy token, cs_bootstrap_secret_hash cs with
  | Some t, Some h => String.eqb (hash_token t) h
  | _, _ => false
  end.

Definition verify_worker_credential (cs : credential_store) (worker_id : string) (token : option string) : bool :=
  match token_truthy token with
  | None => false
  | Some t =>
      match cs_worker_credential_hashes cs !! worker_id with
      | None => false
      | Some stored => String.eqb (hash_token t) stored
      end
  end.

Definition verify_any_worker_credential (cs : credential_store) (token : option string) : bool :=
  match token_truthy token with
  | None => false
  | Some t => existsb (String.eqb (hash_token t)) (map snd (map_to_list (cs_worker_credential_hashes cs)))
  end.

Definition with_worker_credentials (m : gmap string string) (cs : credential_store) : credential_store :=
  {| cs_admin_token_hashes := cs_admin_token_hashes cs; cs_bootstrap_secret_hash := cs_bootstrap_secret_hash cs;
     cs_worker_credential_hashes := m; cs_insecure_mode := cs_insecure_mode cs |}.

(** [token] is [secrets.token_urlsafe(32)]. *)
Definition issue_worker_credential (worker_id token : string) (cs : credential_store) : credential_store * string :=
  (with_worker_credentials (<[worker_id := hash_token token]> (cs_worker_credential_hashes cs)) cs, token).

Definition invalidate_all_worker_credentials (cs : credential_store) : credential_store :=
  with_worker_credentials ∅ cs.

(** [getattr(self.credential_store, "_bootstrap_secret", None)] of the
    coordinator's constructor: the store has no attribute of that name. *)
Definition control_bootstrap_secret (cs : credential_store) : option string := None.

(** [_worker_control_headers]: the token of the coordinator's calls to workers. *)
Definition worker_control_headers (env : odict string) (worker_bootstrap_secret : option string) : odict string :=
  let secret :=
    match token_truthy worker_bootstrap_secret with
    | Some s => s
    | None => strip (od_get_default BOOTSTRAP_SECRET_ENV_VAR "" env)
    end in
  if str_truthy secret then [("Authorization"%string, "Bearer " +:+ secret)] else [].

(** ** Request guards *)

Definition unauthorized (detail : string) : res unit := Err (HTTPException 401 detail).

Definition require_admin (cs : credential_store) (authorization : option string) : res unit :=
  if cs_insecure_mode cs then Ok tt
  else
    let token := extract_bearer_token authorization in
    if negb (verify_admin_token cs token) then unauthorized "Invalid or missing admin credential" else Ok tt.

Definition require_bootstrap (cs : credential_store) (authorization : option string) : res unit :=
  if cs_insecure_mode cs then Ok tt
  else
    let token := extract_bearer_token authorization in
    if negb (verify_bootstrap_secret cs token) then unauthorized "Invalid or missing bootstrap credential" else Ok tt.

Definition require_worker (cs : credential_store) (worker_id : string) (authorization : option string) : res unit :=
  if cs_insecure_mode cs then Ok tt
  else
    let token := extract_bearer_token authorization in
    if negb (verify_worker_credential cs worker_id token) then unauthorized "Invalid or missing worker credential"
    else Ok tt.

Definition require_worker_or_admin (cs : credential_store) (worker_id : string) (authorization : option string)
    : res unit :=
  if cs_insecure_mode cs then Ok tt
  else
    let token := extract_bearer_token authorization in
    if verify_admin_token cs token || verify_worker_credential cs worker_id token then Ok tt
    else unauthorized "Invalid or missing credential".

Definition require_admin_or_any_worker (cs : credential_store) (authorization : option string) : res unit :=
  if cs_insecure_mode cs then Ok tt
  else
    let token := extract_bearer_token authorization in
    if verify_admin_token cs token || verify_any_worker_credential cs token || verify_bootstrap_secret cs token
    then Ok tt else unauthorized "Invalid or missing credential".

(** ** Replay guard *)

Record replay_guard := { rg_ttl : float; rg_seen_until : odict float }.

Definition new_replay_guard (ttl_seconds : float) : replay_guard := {| rg_ttl := ttl_seconds; rg_seen_until := [] |}.

Definition prune_expired (now : float) (seen : odict float) : odict float :=
  List.filter (fun e => negb (fle (snd e) now)) seen.

Definition check_and_record (nonce : string) (now : float) (g : replay_guard) : replay_guard * bool :=
  let seen := prune_expired now (rg_seen_until g) in
  if od_mem nonce seen then ({| rg_ttl := rg_ttl g; rg_seen_until := seen |}, false)
  else ({| rg_ttl := rg_ttl g; rg_seen_until := od_set nonce (fadd now (rg_ttl g)) seen |}, true).

Definition check_replay (cs : credential_store) (x_request_nonce : option string) (now : float) (g : replay_guard)
    : replay_guard * res unit :=
  match x_request_nonce with
  | None => (g, Ok tt)
  | Some nonce =>
      if cs_insecure_mode cs then (g, Ok tt)
      else
        let '(g, fresh) := check_and_record nonce now g in
        (g, if fresh then Ok tt else Err (HTTPException 409 "Replayed request (nonce already used)"))
  end.

(** ** What the guards promise

    The plain credentials behind a store: the configured ones, and for every
    worker the last one issued since the last invalidation. *)

Record credentials := { cr_admins : gset string; cr_bootstrap : option string; cr_workers : gmap string string }.

Inductive credential_event := Issue (worker_id token : string) | InvalidateAll.

Definition credential_step (cs : credential_store) (e : credential_event) : credential_store :=
  match e with
  | Issue w t => (issue_worker_credential w t cs).1
  | InvalidateAll => invalidate_all_worker_credentials cs
  end.

Definition plain_step (c : credentials) (e : credential_event) : credentials :=
  {| cr_admins := cr_admins c; cr_bootstrap := cr_bootstrap c;
     cr_workers := match e with Issue w t => <[w := t]> (cr_workers c) | InvalidateAll => ∅ end |}.

Definition store_after (env : odict string) (admins : option (gset string)) (bootstrap : option string)
    (insecure : option bool) (events : list credential_event) : credential_store :=
  fold_left credential_step events (new_credential_store env admins bootstrap insecure).

Definition plain_after (env : odict string) (admins : option (gset string)) (bootstrap : option string)
    (events : list credential_event) : credentials :=
  fold_left plain_step events
    {| cr_admins := configured_admin_tokens env admins; cr_bootstrap := resolved_bootstrap env bootstrap;
       cr_workers := ∅ |}.

Inductive guard :=
| ADMIN | BOOTSTRAP | WORKER (worker_id : string) | WORKER_OR_ADMIN (worker_id : string) | ADMIN_OR_ANY_WORKER.

Definition guard_check (cs : credential_store) (g : guard) (authorization : option string) : res unit :=
  match g with
  | ADMIN => require_admin cs authorization
  | BOOTSTRAP => require_bootstrap cs authorization
  | WORKER w => require_worker cs w authorization
  | WORKER_OR_ADMIN w => require_worker_or_admin cs w authorization
  | ADMIN_OR_ANY_WORKER => require_admin_or_any_worker cs authorization
  end.

(** The authorization matrix: which credential opens which guard. *)
Definition permitted (c : credentials) (g : guard) (t : string) : Prop :=
  match g with
  | ADMIN => t ∈ cr_admins c
  | BOOTSTRAP => cr_bootstrap c = Some t
  | WORKER w => cr_workers c !! w = Some t
  | WORKER_OR_ADMIN w => t ∈ cr_admins c \/ cr_workers c !! w = Some t
  | ADMIN_OR_ANY_WORKER => t ∈ cr_admins c \/ (exists w, cr_workers c !! w = Some t) \/ cr_bootstrap c = Some t
  end.

(** [t] shares its digest with no other credential in force. *)
Definition no_collision (c : credentials) (t : string) : Prop :=
  forall u, (u ∈ cr_admins c \/ cr_bootstrap c = Some u \/ exists w, cr_workers c !! w = Some u) ->
  sha256 t = sha256 u -> t = u.

Record hashed (cs : credential_store) (c : credentials) : Prop := {
  hashed_admins : cs_admin_token_hashes cs = set_map hash_token (cr_admins c);
  hashed_bootstrap : cs_bootstrap_secret_hash cs = hash_token <$> cr_bootstrap c;
  hashed_workers : cs_worker_credential_hashes cs = hash_token <$> cr_workers c;
}.

Lemma hashed_step cs c e : hashed cs c -> hashed (credential_step cs e) (plain_step c e).
Proof.
  intros [Ha Hb Hw]. destruct e as [w t|]; split; simpl; try done.
  by rewrite Hw, fmap_insert.
Qed.

Lemma hashed_after env admins bootstrap insecure events :
  hashed (store_after env admins bootstrap insecure events) (plain_after env admins bootstrap events).
Proof.
  unfold store_after, plain_after.
  assert (hashed (new_credential_store env admins bootstrap insecure)
            {| cr_admins := configured_admin_tokens env admins; cr_bootstrap := resolved_bootstrap env bootstrap;
               cr_workers := ∅ |}) as H by (split; simpl; [done|done|by rewrite fmap_empty]).
  revert H. generalize (new_credential_store env admins bootstrap insecure). generalize {|
    cr_admins := configured_admin_tokens env admins; cr_bootstrap := resolved_bootstrap env bootstrap; cr_workers := ∅ |}.
  induction events as [|e l IH]; intros c cs H; simpl; [done|]. by apply IH, hashed_step.
Qed.

Lemma insecure_after env admins bootstrap insecure events :
  cs_insecure_mode (store_after env admins bootstrap insecure events) = default (is_insecure_mode_enabled env) insecure.
Proof.
  unfold store_after.
  change (default (is_insecure_mode_enabled env) insecure)
    with (cs_insecure_mode (new_credential_store env admins bootstrap insecure)).
  generalize (new_credential_store env admins bootstrap insecure).
  induction events as [|[w t|] l IH]; intros cs; simpl; [done|by rewrite IH..].
Qed.

Lemma extracted_nonempty h t : extract_bearer_token h = Some t -> str_truthy t = true.
Proof.
  unfold extract_bearer_token. destruct h as [h|]; [|done]. destruct (negb (str_truthy h)); [done|].
  destruct (split_once _ _) as [[s r]|]; [|done]. destruct (negb _); [done|].
  unfold nonempty. destruct (str_truthy (strip r)) eqn:E; [|done]. by intros [= <-].
Qed.

Lemma token_truthy_some t : str_truthy t = true -> token_truthy (Some t) = Some t.
Proof. unfold token_truthy, nonempty. simpl. by intros ->. Qed.

Lemma existsb_eqb h l : existsb (String.eqb h) l = true <-> h ∈ l.
Proof.
  rewrite existsb_exists. split.
  - intros (x & Hx & ->%String.eqb_eq). by apply list_elem_of_In.
  - intros H. exists h. by rewrite String.eqb_refl, <- list_elem_of_In.
Qed.

Section Verify.
Context (cs : credential_store) (c : credentials) (t : string).
Hypothesis Hcs : hashed cs c.
Hypothesis Ht : str_truthy t = true.
Hypothesis Hnc : no_collision c t.

Lemma verify_admin_iff : verify_admin_token cs (Some t) = true <-> t ∈ cr_admins c.
Proof using All.
  unfold verify_admin_token. rewrite token_truthy_some, existsb_eqb, elem_of_elements, (hashed_admins _ _ Hcs) by done.
  rewrite elem_of_map. split.
  - intros (u & E & Hu). by rewrite (Hnc u (or_introl Hu) E).
  - intros H. by exists t.
Qed.

Lemma verify_bootstrap_iff : verify_bootstrap_secret cs (Some t) = true <-> cr_bootstrap c = Some t.
Proof using All.
  unfold verify_bootstrap_secret. rewrite token_truthy_some, (hashed_bootstrap _ _ Hcs) by done.
  destruct (cr_bootstrap c) as [u|] eqn:E; simpl; [|by split].
  rewrite String.eqb_eq. split; [|by intros [= ->]].
  intros Hh. f_equal. symmetry. apply Hnc; auto.
Qed.

Lemma verify_worker_iff w : verify_worker_credential cs w (Some t) = true <-> cr_workers c !! w = Some t.
Proof using All.
  unfold verify_worker_credential. rewrite token_truthy_some, (hashed_workers _ _ Hcs), lookup_fmap by done.
  destruct (cr_workers c !! w) as [u|] eqn:E; simpl; [|by split].
  rewrite String.eqb_eq. split; [|by intros [= ->]].
  intros Hh. f_equal. symmetry. apply Hnc; eauto.
Qed.

Lemma verify_any_worker_iff :
  verify_any_worker_credential cs (Some t) = true <-> exists w, cr_workers c !! w = Some t.
Proof using All.
  unfold verify_any_worker_credential. rewrite token_truthy_some, (hashed_workers _ _ Hcs), existsb_eqb by done.
  rewrite list_elem_of_fmap. split.
  - intros ([w h] & Hh & Hin). rewrite elem_of_map_to_list, lookup_fmap in Hin. simpl in Hh. subst h.
    destruct (cr_workers c !! w) as [u|] eqn:E; [|done]. injection Hin as Hu.
    exists w. rewrite E. f_equal. symmetry. apply Hnc; [eauto|by symmetry].
  - intros [w Hw]. exists (w, hash_token t). split; [done|].
    by rewrite elem_of_map_to_list, lookup_fmap, Hw.
Qed.
End Verify.

Lemma guard_check_token cs g h : cs_insecure_mode cs = false ->
  guard_check cs g h = Ok tt <->
  (match g with
   | ADMIN => verify_admin_token cs (extract_bearer_token h)
   | BOOTSTRAP => verify_bootstrap_secret cs (extract_bearer_token h)
   | WORKER w => verify_worker_credential cs w (extract_bearer_token h)
   | WORKER_OR_ADMIN w =>
       verify_admin_token cs (extract_bearer_token h) || verify_worker_credential cs w (extract_bearer_token h)
   | ADMIN_OR_ANY_WORKER =>
       verify_admin_token cs (extract_bearer_token h) || verify_any_worker_credential cs (extract_bearer_token h)
       || verify_bootstrap_secret cs (extract_bearer_token h)
   end) = true.
Proof.
  intros Hs. destruct g; simpl;
    unfold require_admin, require_bootstrap, require_worker, require_worker_or_admin, require_admin_or_any_worker;
    rewrite Hs; unfold unauthorized;
    repeat match goal with |- context [if ?b then _ else _] => destruct b eqn:? end;
    rewrite ?negb_true_iff, ?negb_false_iff in *; split; congruence.
Qed.


(** ** What the replay guard promises

    The reference keeps every accepted request for ever and looks for one with
    the same nonce whose window is still open. *)

Fixpoint guard_run (g : replay_guard) (reqs : list (string * float)) : replay_guard * list bool :=
  match reqs with
  | [] => (g, [])
  | (n, t) :: reqs =>
      let '(g, b) := check_and_record n t g in
      let '(g, bs) := guard_run g reqs in (g, b :: bs)
  end.

Definition replayed (ttl : float) (n : string) (t : float) (accepted : list (string * float)) : bool :=
  existsb (fun r => String.eqb (fst r) n && negb (fle (fadd (snd r) ttl) t)) accepted.

Fixpoint reference_run (ttl : float) (accepted reqs : list (string * float)) : list bool :=
  match reqs with
  | [] => []
  | (n, t) :: reqs =>
      if replayed ttl n t accepted then false :: reference_run ttl accepted reqs
      else true :: reference_run ttl (accepted ++ [(n, t)]) reqs
  end.

(** Clock readings of successive requests do not go back. *)
Fixpoint monotone_from (last : option float) (reqs : list (string * float)) : Prop :=
  match reqs with
  | [] => True
  | (_, t) :: reqs => (match last with Some u => fle u t = true | None => True end) /\ monotone_from (Some t) reqs
  end.

Record remembers (ttl : float) (last : option float) (seen : odict float) (accepted : list (string * float)) : Prop := {
  rm_wf : od_wf seen;
  rm_sound : forall n e, (n, e) ∈ seen -> exists t, (n, t) ∈ accepted /\ e = fadd t ttl;
  rm_complete : forall n t, (n, t) ∈ accepted ->
    (n, fadd t ttl) ∈ seen \/ exists u, last = Some u /\ fle (fadd t ttl) u = true;
}.

Lemma prune_expired_elem now n e seen : (n, e) ∈ prune_expired now seen <-> (n, e) ∈ seen /\ fle e now = false.
Proof. unfold prune_expired. rewrite !list_elem_of_In, filter_In, negb_true_iff. done. Qed.

Lemma prune_expired_keys now n (seen : odict float) : n ∈ od_keys (prune_expired now seen) -> n ∈ od_keys seen.
Proof.
  unfold od_keys. rewrite !list_elem_of_fmap. intros ([n' e] & -> & [He _]%prune_expired_elem). by exists (n', e).
Qed.

Lemma prune_expired_wf now (seen : odict float) : od_wf seen -> od_wf (prune_expired now seen).
Proof.
  unfold od_wf. induction seen as [|[n e] seen IH]; simpl; [done|]. intros [Hn Hw]%NoDup_cons.
  destruct (negb (fle e now)); simpl; [|by apply IH].
  apply NoDup_cons. split; [|by apply IH]. intros Hin. by apply Hn, (prune_expired_keys now).
Qed.

Lemma remembers_prune ttl last now seen accepted :
  (match last with Some u => fle u now = true | None => True end) ->
  remembers ttl last seen accepted -> remembers ttl (Some now) (prune_expired now seen) accepted.
Proof.
  intros Hl [Hw Hs Hc]. split.
  - by apply prune_expired_wf.
  - intros n e [He _]%prune_expired_elem. by apply Hs.
  - intros n t Ht. destruct (fle (fadd t ttl) now) eqn:E; [right; by exists now|].
    left. apply prune_expired_elem. split; [|done].
    destruct (Hc _ _ Ht) as [|(u & -> & Hu)]; [done|].
    exfalso. rewrite (fle_trans _ u now) in E; [done| |done|done]. by apply fle_notnan in Hl as [? _].
Qed.

Lemma replayed_mem ttl now seen accepted n :
  remembers ttl (Some now) (prune_expired now seen) accepted ->
  od_mem n (prune_expired now seen) = replayed ttl n now accepted.
Proof.
  intros [Hw Hs Hc]. apply eq_bool_prop_intro. rewrite !Is_true_true. split.
  - intros [e He]%od_mem_get. apply od_get_Some_elem in He. destruct (Hs _ _ He) as (t & Ht & ->).
    apply prune_expired_elem in He as [_ He]. unfold replayed. apply existsb_exists.
    exists (n, t). rewrite <- list_elem_of_In. split; [done|]. simpl. by rewrite String.eqb_refl, He.
  - unfold replayed. rewrite existsb_exists. intros ([n' t] & Hin & [Hn He]%andb_true_iff). simpl in *.
    apply String.eqb_eq in Hn as ->. apply list_elem_of_In in Hin. apply negb_true_iff in He.
    apply od_mem_get. destruct (Hc _ _ Hin) as [H|(u & [= <-] & Hu)]; [|congruence].
    exists (fadd t ttl). by apply od_get_elem.
Qed.

Lemma remembers_record ttl now seen accepted n :
  remembers ttl (Some now) seen accepted -> od_mem n seen = false ->
  remembers ttl (Some now) (od_set n (fadd now ttl) seen) (accepted ++ [(n, now)]).
Proof.
  intros [Hw Hs Hc] Hn.
  assert (n ∉ od_keys seen) as Hk.
  { apply od_get_None_keys. destruct (od_get n seen) eqn:E; [|done].
    assert (od_mem n seen = true) by (apply od_mem_get; by rewrite E). congruence. }
  rewrite od_set_fresh by done. split.
  - rewrite <- (od_set_fresh n (fadd now ttl)) by done. by apply od_set_wf.
  - intros m e [He|He%list_elem_of_singleton]%elem_of_app.
    + destruct (Hs _ _ He) as (t & Ht & ->). exists t. split; [apply elem_of_app; by left|done].
    + injection He as -> ->. exists now. split; [apply elem_of_app; right; by apply list_elem_of_singleton|done].
  - intros m t [Ht|Ht%list_elem_of_singleton]%elem_of_app.
    + destruct (Hc _ _ Ht) as [H|H]; [left; apply elem_of_app; by left|by right].
    + injection Ht as -> ->. left. apply elem_of_app. right. by apply list_elem_of_singleton.
Qed.

Lemma guard_run_reference g last accepted reqs :
  monotone_from last reqs -> remembers (rg_ttl g) last (rg_seen_until g) accepted ->
  (guard_run g reqs).2 = reference_run (rg_ttl g) accepted reqs.
Proof.
  revert g last accepted. induction reqs as [|[n t] reqs IH]; intros g last accepted; simpl; [done|].
  intros [Hl Hm] Hr. apply (remembers_prune _ _ _ _ _ Hl) in Hr.
  unfold check_and_record. rewrite (replayed_mem _ _ _ _ _ Hr).
  destruct (replayed (rg_ttl g) n t accepted) eqn:E; simpl.
  - specialize (IH {| rg_ttl := rg_ttl g; rg_seen_until := prune_expired t (rg_seen_until g) |} (Some t) accepted Hm Hr).
    destruct (guard_run _ reqs). simpl in *. by rewrite IH.
  - set (g' := {| rg_ttl := _; rg_seen_until := od_set n _ _ |}).
    assert (remembers (rg_ttl g') (Some t) (rg_seen_until g') (accepted ++ [(n, t)])) as Hr'.
    { apply remembers_record; [done|]. by rewrite (replayed_mem _ _ _ _ _ Hr). }
    specialize (IH g' (Some t) _ Hm Hr'). destruct (guard_run g' reqs). simpl in *. by rewrite IH.
Qed.

(** Pruning loses nothing: over a sequence of requests whose clock readings
    never go back, the guard accepts and refuses exactly the requests that a
    guard remembering every accepted request for ever would: a nonce is refused
    precisely while the window of an accepted request with it is open. *)
Theorem replay_guard_exact ttl reqs :
  monotone_from None reqs -> (guard_run (new_replay_guard ttl) reqs).2 = reference_run ttl [] reqs.
Proof.
  intros Hm. apply (guard_run_reference (new_replay_guard ttl) None [] reqs Hm). split; simpl.
  - apply od_wf_nil.
  - intros n e H. by apply elem_of_nil in H.
  - intros n t H. by apply elem_of_nil in H.
Qed.

(** ** Concrete runs *)

Definition sample_requests : list (string * float) :=
  [("n1"%string, f_of_Z 0); ("n1"%string, f_of_Z 10); ("n2"%string, f_of_Z 299); ("n1"%string, f_of_Z 300)].

Lemma replay_guard_witness :
  (guard_run (new_replay_guard (f_of_Z 300)) sample_requests).2 = [true; false; true; true].
Proof.
  rewrite (replay_guard_exact (f_of_Z 300) sample_requests); [reflexivity|].
  repeat split; reflexivity.
Defined.

Definition sample_events : list credential_event := [Issue "w1" "old"; Issue "w1" "new"].

Lemma sample_no_collision t :
  extract_bearer_token (Some "bearer new "%string) = Some t ->
  no_collision (plain_after [] (Some {["root"%string]}) (Some "join"%string) sample_events) t.
Proof.
  intros E u. vm_compute in E. injection E as <-.
  intros [H|[H|[w H]]] Hh.
  - unfold plain_after in H. simpl in H. apply elem_of_singleton in H as ->. vm_compute in Hh. discriminate Hh.
  - unfold plain_after in H. simpl in H. injection H as <-. vm_compute in Hh. discriminate Hh.
  - clear Hh. unfold plain_after, sample_events in H. simpl in H.
    destruct (decide (w = "w1"%string)) as [->|Hne].
    + rewrite lookup_insert_eq in H. injection H as <-. reflexivity.
    + rewrite !lookup_insert_ne, lookup_empty in H by (intros E; apply Hne; rewrite E; reflexivity). discriminate H.
Defined.


(** The constructor of the coordinator reads an attribute the store does not
    have: a bootstrap secret given to the store in code is never presented to
    the workers. *)
Example control_secret_lost :
  let cs := new_credential_store [] None (Some "join"%string) None in
  cs_bootstrap_secret_hash cs <> None /\ worker_control_headers [] (control_bootstrap_secret cs) = [].
Proof. split; [done|reflexivity]. Qed.
