(* ===== verification/Redaction.v ===== *)
(** * Redaction of persisted parameters ([distributed/models.py])

    [redact_workload_parameters], applied to the parameters of a specification
    whenever it is written to the state store or to a worker's metadata file.
    The three regular expressions are matchers over the characters of a string
    ([sensitive_key], [match_userinfo], [match_command]); a substitution scans
    once from left to right, skipping what the last match consumed
    ([regex_sub]).  Letters are ASCII; the few other letters that Python folds
    into them when case is ignored are not modelled. *)
From S2P Require Export Models.

(** ** Matching *)

Definition is_alnum (c : ascii) : bool := is_digit c || is_lower c || is_upper c.

(** [s] without the prefix [p], case ignored; [p] is lower case. *)
Fixpoint drop_prefix (p s : string) : option string :=
  match p, s with
  | EmptyString, _ => Some s
  | String c p, String d s => if Ascii.eqb c (lower_ascii d) then drop_prefix p s else None
  | String _ _, EmptyString => None
  end.

Fixpoint drop_any (ps : list string) (s : string) : option string :=
  match ps with
  | [] => None
  | p :: ps => match drop_prefix p s with Some r => Some r | None => drop_any ps s end
  end.

(** The longest prefix of characters in [p], and the rest. *)
Fixpoint span (p : ascii -> bool) (s : string) : string * string :=
  match s with
  | EmptyString => (EmptyString, EmptyString)
  | String c s' => if p c then let '(u, r) := span p s' in (String c u, r) else (EmptyString, s)
  end.

(** What was consumed when [rest] is left of [s]. *)
Definition consumed (s rest : string) : string := substring 0 (String.length s - String.length rest) s.

(** [pattern.sub]: [m] gives, at a position, the replacement and the number of
    characters matched. *)
Fixpoint regex_sub (m : string -> option (string * nat)) (skip : nat) (s : string) : string :=
  match s with
  | EmptyString => EmptyString
  | String c s' =>
      match skip with
      | Datatypes.S k => regex_sub m k s'
      | O => match m s with
             | Some (out, n) => (out +:+ regex_sub m (n - 1) s')%string
             | None => String c (regex_sub m 0 s')
             end
      end
  end.

Definition REDACTED_PARAMETER_VALUE : string := "[REDACTED]".

(** ** Credential-shaped keys *)

Definition sensitive_words : list string :=
  ["secret"; "password"; "passwd"; "token"; "credential"; "authorization"; "apikey"; "api_key"; "api-key";
   "accesskey"; "access_key"; "access-key"; "privatekey"; "private_key"; "private-key"].

Definition at_boundary (s : string) : bool :=
  match s with EmptyString => true | String c _ => negb (is_alnum c) end.

Fixpoint search_key (after_alnum : bool) (s : string) : bool :=
  (negb after_alnum
   && existsb (fun w => match drop_prefix w s with Some r => at_boundary r | None => false end) sensitive_words)
  || match s with EmptyString => false | String c s => search_key (is_alnum c) s end.

Definition undot (c : ascii) : ascii := if Ascii.eqb c "." then "_"%char else c.
Definition sensitive_key (key : string) : bool := search_key false (str_map undot key).

(** ** Credentials inside strings *)

(** [_URL_USERINFO]: a user and a password in front of the host. *)
Definition userinfo_char (c : ascii) : bool := negb (Ascii.eqb c "/" || Ascii.eqb c "@" || is_space c).
Fixpoint inner_colon (first : bool) (s : string) : bool :=
  match s with
  | EmptyString | String _ EmptyString => false
  | String c s => (negb first && Ascii.eqb c ":") || inner_colon false s
  end.
Definition match_userinfo (s : string) : option (string * nat) :=
  match drop_any ["http://"; "https://"]%string s with
  | None => None
  | Some r =>
      let '(info, rest) := span userinfo_char r in
      match rest with
      | String "@" rest' =>
          if inner_colon true info
          then Some ((consumed s r +:+ "[REDACTED]@")%string, (String.length s - String.length rest')%nat)
          else None
      | _ => None
      end
  end.

(** [_SENSITIVE_COMMAND_VALUE]: an option or an assignment, and its value. *)
Definition command_words : list string :=
  ["password"; "passwd"; "token"; "secret"; "apikey"; "api-key"; "api_key"; "accesskey"; "access-key"; "access_key";
   "authorization"]%string.
Definition value_char (c : ascii) : bool :=
  negb (is_space c || Ascii.eqb c ";" || Ascii.eqb c "&" || Ascii.eqb c "|").
Definition dquote : ascii := ascii_of_N 34.

(** What follows the value, if there is one. *)
Definition plain_value (s : string) : option string :=
  match span value_char s with (EmptyString, _) => None | (_, r) => Some r end.
Definition quoted_value (q : ascii) (s : string) : option string :=
  match span (fun c => negb (Ascii.eqb c q)) s with (_, String _ r) => Some r | (_, EmptyString) => None end.
Definition after_value (s : string) : option string :=
  match s with
  | String c s' =>
      if Ascii.eqb c dquote || Ascii.eqb c "'" then
        match quoted_value c s' with Some r => Some r | None => plain_value s end
      else plain_value s
  | EmptyString => None
  end.

(** The value after each form of the prefix: [--word=], [--word ], [word = ]. *)
Definition option_value (s : string) : option string :=
  match s with
  | String c r => if Ascii.eqb c "=" then Some r
                  else if is_space c then Some (lstrip s) else None
  | EmptyString => None
  end.
Definition assigned_value (s : string) : option string :=
  match lstrip s with
  | String "=" r => Some (lstrip r)
  | _ => None
  end.

Definition match_value (s value : string) : option (string * nat) :=
  match after_value value with
  | Some r => Some ((consumed s value +:+ REDACTED_PARAMETER_VALUE)%string, (String.length s - String.length r)%nat)
  | None => None
  end.

Definition and_then {A B} (a : option A) (f : A -> option B) : option B :=
  match a with Some x => f x | None => None end.
Definition or_else {A} (a : option A) (b : option A) : option A := match a with Some _ => a | None => b end.
Definition match_option (dashes s : string) : option (string * nat) :=
  and_then (drop_prefix dashes s) (fun r =>
  and_then (drop_any command_words r) (fun r => and_then (option_value r) (match_value s))).
Definition match_command (s : string) : option (string * nat) :=
  or_else (match_option "--" s)
    (or_else (match_option "-" s) (and_then (drop_any command_words s) (fun r => and_then (assigned_value r) (match_value s)))).

Definition redact_string (s : string) : string := regex_sub match_command 0 (regex_sub match_userinfo 0 s).

(** ** Parameters *)

Fixpoint redact_value (key : option string) (value : json) {struct value} : json :=
  if match key with Some k => sensitive_key k | None => false end then JStr REDACTED_PARAMETER_VALUE
  else match value with
       | JObj o => JObj ((fix fields (o : list (string * json)) : list (string * json) :=
                            match o with
                            | [] => []
                            | (k, v) :: o => (k, redact_value (Some k) v) :: fields o
                            end) o)
       | JList l => JList ((fix items (l : list json) : list json :=
                              match l with
                              | [] => []
                              | v :: l => redact_value None v :: items l
                              end) l)
       | JStr s => JStr (redact_string s)
       | v => v
       end.

Definition redact_workload_parameters (parameters : odict json) : odict json :=
  match redact_value None (JObj parameters) with JObj o => o | _ => [] end.

Definition spec_with_parameters (parameters : odict json) (s : workload_spec) : workload_spec :=
  {| ws_workload_id := ws_workload_id s; ws_job_id := ws_job_id s; ws_task_type := ws_task_type s;
     ws_input_asset_hashes := ws_input_asset_hashes s; ws_min_cpu_cores := ws_min_cpu_cores s;
     ws_min_ram_bytes := ws_min_ram_bytes s; ws_requires_gpu := ws_requires_gpu s;
     ws_min_vram_bytes := ws_min_vram_bytes s; ws_estimated_duration_seconds := ws_estimated_duration_seconds s;
     ws_priority := ws_priority s; ws_deadline_at_utc := ws_deadline_at_utc s;
     ws_required_gpu_vendor := ws_required_gpu_vendor s; ws_required_gpu_model := ws_required_gpu_model s;
     ws_min_compute_capability := ws_min_compute_capability s;
     ws_required_driver_version := ws_required_driver_version s;
     ws_required_runtime_compatibility := ws_required_runtime_compatibility s;
     ws_required_worker_tags := ws_required_worker_tags s;
     ws_preferred_worker_tags := ws_preferred_worker_tags s; ws_affinity_group_id := ws_affinity_group_id s;
     ws_affinity_mode := ws_affinity_mode s; ws_affinity_tag_key := ws_affinity_tag_key s;
     ws_affinity_hard := ws_affinity_hard s; ws_max_cost_per_hour := ws_max_cost_per_hour s;
     ws_depends_on := ws_depends_on s; ws_parameters := parameters;
     ws_execution_spec := ws_execution_spec s |}.
(** [redacted_metadata_json] dumps this copy of the specification. *)
Definition redacted_spec (s : workload_spec) : workload_spec :=
  spec_with_parameters (redact_workload_parameters (ws_parameters s)) s.

(** ** Properties *)

(** No value under a credential-shaped key is left, at any depth. *)
Inductive hidden : json -> Prop :=
| hidden_leaf v : match v with JObj _ | JList _ => False | _ => True end -> hidden v
| hidden_list l : Forall hidden l -> hidden (JList l)
| hidden_obj o :
    Forall (fun kv => (sensitive_key (fst kv) = true -> snd kv = JStr REDACTED_PARAMETER_VALUE) /\ hidden (snd kv)) o ->
    hidden (JObj o).

(** Nothing to redact: no such key, and no string a substitution changes. *)
Inductive innocuous : json -> Prop :=
| innocuous_string s : redact_string s = s -> innocuous (JStr s)
| innocuous_scalar v : match v with JObj _ | JList _ | JStr _ => False | _ => True end -> innocuous v
| innocuous_list l : Forall innocuous l -> innocuous (JList l)
| innocuous_obj o :
    Forall (fun kv => sensitive_key (fst kv) = false /\ innocuous (snd kv)) o -> innocuous (JObj o).

Definition redacted_here (key : option string) : bool :=
  match key with Some k => sensitive_key k | None => false end.

Lemma redact_value_list key l :
  redacted_here key = false -> redact_value key (JList l) = JList (map (redact_value None) l).
Proof.
  intros Hk. cbn [redact_value]. unfold redacted_here in Hk. by rewrite Hk.
Qed.
Lemma redact_value_obj key o :
  redacted_here key = false -> redact_value key (JObj o) = JObj (map (fun kv => (fst kv, redact_value (Some (fst kv)) (snd kv))) o).
Proof.
  intros Hk. cbn [redact_value]. unfold redacted_here in Hk. rewrite Hk. f_equal.
  induction o as [|[k v] o IH]; [done|]. by rewrite IH.
Qed.
Lemma redact_value_here key v : redacted_here key = true -> redact_value key v = JStr REDACTED_PARAMETER_VALUE.
Proof. unfold redacted_here. intros Hk. destruct v; cbn [redact_value]; by rewrite Hk. Qed.

Lemma redact_value_hidden key v : hidden (redact_value key v).
Proof.
  revert key. induction v as [v Hv|l IH|o IH] using json_nested_ind; intros key.
  all: destruct (redacted_here key) eqn:Hk; [rewrite redact_value_here by done; by apply hidden_leaf|].
  - unfold redacted_here in Hk. destruct v; try done; cbn [redact_value]; rewrite Hk; by apply hidden_leaf.
  - rewrite redact_value_list by done. apply hidden_list, Forall_map. eapply Forall_impl; [exact IH|]. auto.
  - rewrite redact_value_obj by done. apply hidden_obj, Forall_map. eapply Forall_impl; [exact IH|].
    intros [k v] Hv. simpl in *. split; [|apply Hv]. intros Hs. by apply redact_value_here.
Qed.

Lemma redact_value_innocuous key v : redacted_here key = false -> innocuous v -> redact_value key v = v.
Proof.
  revert key. induction v as [v Hv|l IH|o IH] using json_nested_ind; intros key Hk Hi.
  - unfold redacted_here in Hk. destruct v; try done; cbn [redact_value]; rewrite Hk; try reflexivity.
    inversion Hi; simplify_eq; [congruence|done].
  - rewrite redact_value_list by done. f_equal. inversion Hi as [|? Hn|? Hl|]; simplify_eq; [done|].
    clear Hi. induction l as [|v l IHl]; [done|]. apply Forall_cons in IH as [Hv IH]. apply Forall_cons in Hl as [Hx Hl].
    simpl. rewrite Hv by done. f_equal. by apply IHl.
  - rewrite redact_value_obj by done. f_equal. inversion Hi as [|? Hn| |? Ho]; simplify_eq; [done|].
    clear Hi. induction o as [|[k v] o IHo]; [done|]. apply Forall_cons in IH as [Hv IH]. apply Forall_cons in Ho as [[Hs Hx] Ho].
    simpl in *. rewrite Hv by done. f_equal. by apply IHo.
Qed.

Lemma redact_parameters_map o :
  redact_workload_parameters o = map (fun kv => (fst kv, redact_value (Some (fst kv)) (snd kv))) o.
Proof. unfold redact_workload_parameters. by rewrite redact_value_obj. Qed.


(** ** Examples *)

Example keys_redacted :
  map sensitive_key ["api_key"; "HF.TOKEN"; "max_tokens"; "my-Private-Key"; "secretary"; "db.password.old"]%string
  = [true; true; false; true; false; true].
Proof. vm_compute. reflexivity. Qed.
Example command_redacted :
  redact_string "train --token abc;curl https://me:pw@host/x -H 'a' PASSWORD = 'x y' secret=" =
  "train --token [REDACTED];curl https://[REDACTED]@host/x -H 'a' PASSWORD = [REDACTED] secret="%string.
Proof. vm_compute. reflexivity. Qed.

(** An option written with spaces around the equals sign: the sign is taken for
    the value, and the password stays. *)
Example spaced_option_leaks :
  redact_string "--password = hunter2" = "--password [REDACTED] hunter2"%string /\
  redact_string "password = hunter2" = "password = [REDACTED]"%string.
Proof. vm_compute. split; reflexivity. Qed.
