(* ===== verification/Durable.v ===== *)
(** * Write-through persistence: the interface

    Every registry takes an optional [CoordinatorStateStore] and, after each
    mutation, saves a snapshot of the record it changed
    ([_persist_worker], [_persist_workload], [_persist_job],
    [_persist_artifact], [AttemptRegistry._persist]).  [RecordStore] is what a
    registry relies on: saving an acceptable record makes a later load return
    the view of that record under its key and leaves the other keys alone; a
    save may raise.  [StateStore] discharges the interface for the tables of
    [state_store.py], all but the attempts, whose upsert keeps old columns. *)
From S2P Require Export Prelude.

Class RecordStore (S A : Type) := {
  store_key : A -> string;
  store_view : A -> A;
  store_row : S -> string -> option A;
  store_save : S -> A -> option S;
}.

Class RecordStoreLaws (S A : Type) `{RecordStore S A} := {
  store_ok : A -> Prop;
  store_save_row : forall s a s' k,
    store_ok a -> store_save s a = Some s' ->
    store_row s' k = if String.eqb k (store_key a) then Some (store_view a) else store_row s k;
}.

(** A table whose rows can also be deleted ([delete_artifact]). *)
Class RecordDelete (S : Type) := store_delete : S -> string -> option S.

Class RecordDeleteLaws (S A : Type) `{RecordStore S A} `{RecordDelete S} := {
  store_delete_row : forall s k s' k',
    store_delete s k = Some s' -> store_row s' k' = if String.eqb k' k then None else store_row s k';
}.

(** [_persist_*(snapshot)]: nothing without a store; a failing write raises. *)
Definition persist {S A} `{RecordStore S A} (st : option S) (snapshot : A) : res (option S) :=
  match st with
  | None => Ok None
  | Some s =>
      match store_save s snapshot with
      | Some s' => Ok (Some s')
      | None => Err StoreError
      end
  end.

(** The store in force after the call: unchanged when the write raised. *)
Definition persist_store {S A} `{RecordStore S A} (st : option S) (snapshot : A) : option S :=
  match persist st snapshot with Ok st' => st' | Err _ => st end.

Definition persist_result {S A B} `{RecordStore S A} (st : option S) (snapshot : A) (b : B) : res B :=
  res_map (fun _ => b) (persist st snapshot).

Section synced.
Context {S A : Type} `{RecordStoreLaws S A}.

(** A registry's dictionary and its table agree on key [k]. *)
Definition synced_at (d : odict A) (st : option S) (k : string) : Prop :=
  match st with
  | None => True
  | Some s => store_row s k = option_map store_view (od_get k d)
  end.

Definition synced (d : odict A) (st : option S) : Prop := forall k, synced_at d st k.

(** A successful write after an update of [k] keeps the table in step. *)
Lemma persist_synced_at d st a k :
  store_ok a -> is_ok (persist st a) = true ->
  synced_at d st k -> synced_at (od_set (store_key a) a d) (persist_store st a) k.
Proof.
  unfold persist_store, persist. intros Ha. destruct st as [s|]; [|done].
  destruct (store_save s a) as [s'|] eqn:E; [|done]. intros _. unfold synced_at.
  rewrite (store_save_row s a s' k Ha E), od_get_set.
  by destruct (String.eqb k (store_key a)).
Qed.

Lemma persist_synced d st a :
  store_ok a -> is_ok (persist st a) = true ->
  synced d st -> synced (od_set (store_key a) a d) (persist_store st a).
Proof. intros Ha Hok Hs k. by apply persist_synced_at. Qed.

(** Even when the write raises, only the record that was being saved may be
    out of step. *)
Lemma persist_synced_others d st a k :
  store_ok a -> k <> store_key a -> synced_at d st k ->
  synced_at (od_set (store_key a) a d) (persist_store st a) k.
Proof.
  intros Ha Hne Hs. destruct (is_ok (persist st a)) eqn:Hok; [by apply persist_synced_at|].
  unfold persist_store. destruct (persist st a); [done|].
  unfold synced_at in *. destruct st; [|done]. by rewrite od_get_set_ne.
Qed.
End synced.

(** A store whose table is a dictionary and which fails as told: the first
    element of [ms_writes] says whether the next write succeeds; no element
    left means it does.  Used to run the registries on concrete inputs. *)
Record mem_store (A : Type) := { ms_rows : odict A; ms_writes : list bool }.
Arguments ms_rows {A} m.
Arguments ms_writes {A} m.
Arguments Build_mem_store {A} _ _.

Definition ms_save {A} (key : A -> string) (view : A -> A) (s : mem_store A) (a : A) : option (mem_store A) :=
  match ms_writes s with
  | false :: _ => None
  | _ => Some {| ms_rows := od_set (key a) (view a) (ms_rows s); ms_writes := tail (ms_writes s) |}
  end.

Lemma ms_save_row {A} (key : A -> string) view (s : mem_store A) a s' k :
  ms_save key view s a = Some s' ->
  od_get k (ms_rows s') = if String.eqb k (key a) then Some (view a) else od_get k (ms_rows s).
Proof.
  unfold ms_save. destruct (ms_writes s) as [|[] w]; intros [= <-]; simpl; by rewrite od_get_set.
Qed.

Definition ms_delete {A} (s : mem_store A) (k : string) : option (mem_store A) :=
  match ms_writes s with
  | false :: _ => None
  | _ => Some {| ms_rows := od_del k (ms_rows s); ms_writes := tail (ms_writes s) |}
  end.
