(* ===== verification/WorkloadRegistry.v ===== *)
(** * Workload registry ([distributed/workload_registry.py])

    [registry] is the [WorkloadRegistry] object: the ordered dictionary
    [_workloads] and the optional state store.  Each method is a function from
    the registry (and the clock reading it takes) to the new registry and the
    value it returns or the exception it raises; [wstep] is one call. *)
From S2P Require Export Models Durable.

Inductive workload_state :=
| SUBMITTED | VALIDATING | PLACING | PLACED | SYNCING_ASSETS | READY | EXECUTING
| MIGRATING | INGESTING | COMPLETED | FAILED | TIMEOUT | UNSCHEDULABLE
| CANCELLATION_REQUESTED | CANCELLED.
#[export] Instance workload_state_eq_dec : EqDecision workload_state.
Proof. solve_decision. Defined.

Definition TERMINAL_WORKLOAD_STATES : list workload_state :=
  [COMPLETED; FAILED; UNSCHEDULABLE; CANCELLED].

(** The tuple of [update_state] whose members set [completed_at]. *)
Definition completing_states : list workload_state :=
  [COMPLETED; FAILED; TIMEOUT; UNSCHEDULABLE].

Record workload_record := {
  wr_spec : workload_spec;
  wr_state : workload_state;
  wr_submitted_at : float;
  wr_completed_at : option float;
  wr_placement_decision : option placement_decision;
  wr_placement_explanation : odict json;
  wr_execution_result : option workload_execution_result;
  wr_error_message : option string;
}.

Definition wr_id (r : workload_record) : string := ws_workload_id (wr_spec r).

(** [WorkloadRecord.__init__]. *)
Definition new_workload_record (now : float) (spec : workload_spec) : workload_record :=
  {| wr_spec := spec; wr_state := SUBMITTED; wr_submitted_at := now; wr_completed_at := None;
     wr_placement_decision := None; wr_placement_explanation := [];
     wr_execution_result := None; wr_error_message := None |}.

Section workload_registry.
Context {S : Type} `{RecordStore S workload_record}.

Record registry := {
  reg_workloads : odict workload_record;
  reg_store : option S;
}.

Definition empty_registry (st : option S) : registry :=
  {| reg_workloads := []; reg_store := st |}.

(** Store the record in the dictionary, then persist it. *)
Definition commit {B} (reg : registry) (r : workload_record) (b : B) : registry * res B :=
  ({| reg_workloads := od_set (wr_id r) r (reg_workloads reg);
      reg_store := persist_store (reg_store reg) r |},
   persist_result (reg_store reg) r b).

Definition get_workload (reg : registry) (wid : string) : option workload_record :=
  od_get wid (reg_workloads reg).

Definition list_workloads (reg : registry) : list workload_record :=
  od_values (reg_workloads reg).

Definition add_workload (now : float) (spec : workload_spec) (reg : registry)
  : registry * res workload_record :=
  match get_workload reg (ws_workload_id spec) with
  | Some existing =>
      if spec_eqb (wr_spec existing) spec then (reg, Ok existing)
      else (reg, Err (WorkloadIdConflictError (ws_workload_id spec)))
  | None =>
      let record := new_workload_record now spec in
      commit reg record record
  end.

(** [if not record.completed_at]: absent or zero. *)
Definition completed_at_unset (o : option float) : bool :=
  match o with None => true | Some t => feq t f0 end.

(** The shape every mutator shares: look the record up, return [False] when it
    is unknown, otherwise mutate it, persist the snapshot and return [True]. *)
Definition modify (wid : string) (f : workload_record -> workload_record) (reg : registry)
  : registry * res bool :=
  match get_workload reg wid with
  | None => (reg, Ok false)
  | Some r => commit reg (f r) true
  end.

Definition apply_state (now : float) (st : workload_state) (error_message : option string)
    (r : workload_record) : workload_record :=
  {| wr_spec := wr_spec r; wr_state := st; wr_submitted_at := wr_submitted_at r;
     wr_completed_at :=
       if bool_decide (st ∈ completing_states) && completed_at_unset (wr_completed_at r)
       then Some now else wr_completed_at r;
     wr_placement_decision := wr_placement_decision r;
     wr_placement_explanation := wr_placement_explanation r;
     wr_execution_result := wr_execution_result r;
     wr_error_message := match error_message with Some m => Some m | None => wr_error_message r end |}.

Definition update_state (now : float) (wid : string) (st : workload_state)
    (error_message : option string) : registry -> registry * res bool :=
  modify wid (apply_state now st error_message).

Definition apply_placement (decision : option placement_decision) (r : workload_record) : workload_record :=
  {| wr_spec := wr_spec r; wr_state := wr_state r; wr_submitted_at := wr_submitted_at r;
     wr_completed_at := wr_completed_at r;
     wr_placement_decision := decision;
     wr_placement_explanation := wr_placement_explanation r;
     wr_execution_result := wr_execution_result r;
     wr_error_message := match decision with Some _ => None | None => wr_error_message r end |}.

Definition set_placement (wid : string) (decision : option placement_decision)
  : registry -> registry * res bool :=
  modify wid (apply_placement decision).

Definition apply_result (now : float) (result : workload_execution_result) (r : workload_record) : workload_record :=
  {| wr_spec := wr_spec r;
     wr_state := if er_success result then COMPLETED else FAILED;
     wr_submitted_at := wr_submitted_at r;
     wr_completed_at := Some now;
     wr_placement_decision := wr_placement_decision r;
     wr_placement_explanation := wr_placement_explanation r;
     wr_execution_result := Some result;
     wr_error_message := wr_error_message r |}.

Definition set_result (now : float) (wid : string) (result : workload_execution_result)
  : registry -> registry * res bool :=
  modify wid (apply_result now result).

Definition apply_spec (spec : workload_spec) (r : workload_record) : workload_record :=
  {| wr_spec := spec; wr_state := wr_state r; wr_submitted_at := wr_submitted_at r;
     wr_completed_at := wr_completed_at r;
     wr_placement_decision := wr_placement_decision r;
     wr_placement_explanation := wr_placement_explanation r;
     wr_execution_result := wr_execution_result r;
     wr_error_message := wr_error_message r |}.

Definition update_spec (spec : workload_spec) : registry -> registry * res bool :=
  modify (ws_workload_id spec) (apply_spec spec).

Definition apply_explanation (explanation : odict json) (r : workload_record) : workload_record :=
  {| wr_spec := wr_spec r; wr_state := wr_state r; wr_submitted_at := wr_submitted_at r;
     wr_completed_at := wr_completed_at r;
     wr_placement_decision := wr_placement_decision r;
     wr_placement_explanation := explanation;
     wr_execution_result := wr_execution_result r;
     wr_error_message := wr_error_message r |}.

Definition set_placement_explanation (wid : string) (explanation : odict json)
  : registry -> registry * res bool :=
  modify wid (apply_explanation explanation).

(** Inserts a loaded record; never persists. *)
Definition restore_workload (r : workload_record) (reg : registry) : registry :=
  {| reg_workloads := od_set (wr_id r) r (reg_workloads reg); reg_store := reg_store reg |}.

(** ** Calls and runs *)

Inductive wcall :=
| CAdd (spec : workload_spec)
| CUpdateState (wid : string) (st : workload_state) (err : option string)
| CSetPlacement (wid : string) (d : option placement_decision)
| CSetResult (wid : string) (r : workload_execution_result)
| CUpdateSpec (spec : workload_spec)
| CSetExplanation (wid : string) (e : odict json).

Definition discard {A} (p : registry * res A) : registry * res unit :=
  (fst p, res_map (fun _ => tt) (snd p)).

Definition wstep (now : float) (c : wcall) (reg : registry) : registry * res unit :=
  match c with
  | CAdd spec => discard (add_workload now spec reg)
  | CUpdateState wid st err => discard (update_state now wid st err reg)
  | CSetPlacement wid d => discard (set_placement wid d reg)
  | CSetResult wid x => discard (set_result now wid x reg)
  | CUpdateSpec spec => discard (update_spec spec reg)
  | CSetExplanation wid e => discard (set_placement_explanation wid e reg)
  end.

(** A history of calls, each with the clock reading it saw; exceptions are
    caught by the caller and the registry goes on. *)
Definition wrun (h : list (float * wcall)) (reg : registry) : registry :=
  fold_left (fun reg '(now, c) => fst (wstep now c reg)) h reg.
End workload_registry.

Arguments registry S : clear implicits.

(** ** Well-formedness and stability *)

Section workload_registry_proofs.
Context {S : Type} `{RecordStore S workload_record}.
Implicit Types reg : registry S.

(** Every record is filed once, under the id of its own specification. *)
Definition wf (reg : registry S) : Prop :=
  od_wf (reg_workloads reg) /\
  forall k r, get_workload reg k = Some r -> wr_id r = k.

Lemma wf_empty st : wf (empty_registry st).
Proof. split; [apply od_wf_nil|done]. Qed.

Lemma get_workload_commit {B} reg r (b : B) k :
  get_workload (fst (commit reg r b)) k = if String.eqb k (wr_id r) then Some r else get_workload reg k.
Proof. unfold get_workload, commit. simpl. apply od_get_set. Qed.

Lemma commit_wf {B} reg r (b : B) : wf reg -> wf (fst (commit reg r b)).
Proof.
  intros [Hnd Hk]. split; [simpl; eauto with odict|].
  intros k r'. rewrite get_workload_commit. str_case; [congruence|apply Hk].
Qed.

(** What a call does: nothing, or one commit of a record of the same
    identity.  [target] names the workload a call addresses. *)
Definition target (c : wcall) : string :=
  match c with
  | CAdd spec | CUpdateSpec spec => ws_workload_id spec
  | CUpdateState wid _ _ | CSetPlacement wid _ | CSetResult wid _ | CSetExplanation wid _ => wid
  end.

Definition idle (reg : registry S) (p : registry S * res unit) : Prop :=
  fst p = reg /\ snd p <> Err StoreError.

Definition one_commit (now : float) (c : wcall) (reg : registry S) (p : registry S * res unit) : Prop :=
  exists r, wr_id r = target c /\ p = commit reg r tt /\
    match get_workload reg (target c) with
    | Some r0 => wr_submitted_at r = wr_submitted_at r0 /\
                 (wr_spec r = wr_spec r0 \/ c = CUpdateSpec (wr_spec r))
    | None => c = CAdd (wr_spec r) /\ r = new_workload_record now (wr_spec r)
    end.

Lemma discard_commit {B} reg r (b : B) : discard (commit reg r b) = commit reg r tt.
Proof. unfold discard, commit, persist_result. simpl. by destruct (persist _ _). Qed.

Lemma modify_cases now c f reg :
  wf reg ->
  (forall r, wr_submitted_at (f r) = wr_submitted_at r) ->
  (forall r, wr_id r = target c -> wr_id (f r) = target c) ->
  (forall r, wr_spec (f r) = wr_spec r \/ c = CUpdateSpec (wr_spec (f r))) ->
  idle reg (discard (modify (target c) f reg)) \/
  one_commit now c reg (discard (modify (target c) f reg)).
Proof.
  intros [_ Hk] Hsub Hid Hspec. unfold modify, one_commit.
  destruct (get_workload reg (target c)) as [r|] eqn:E; [|by left].
  right. exists (f r). rewrite discard_commit. split_and!; auto.
Qed.

Lemma wstep_cases now c reg :
  wf reg -> idle reg (wstep now c reg) \/ one_commit now c reg (wstep now c reg).
Proof.
  intros Hwf. destruct c as [spec|wid st err|wid d|wid x|spec|wid e]; simpl wstep.
  { unfold add_workload, one_commit. simpl target.
    destruct (get_workload reg _) as [r|] eqn:E.
    - left. by destruct (spec_eqb _ _).
    - right. exists (new_workload_record now spec). by rewrite discard_commit. }
  - apply (modify_cases now (CUpdateState wid st err) (apply_state now st err)); auto.
  - apply (modify_cases now (CSetPlacement wid d) (apply_placement d)); auto.
  - apply (modify_cases now (CSetResult wid x) (apply_result now x)); auto.
  - apply (modify_cases now (CUpdateSpec spec) (apply_spec spec)); auto.
  - apply (modify_cases now (CSetExplanation wid e) (apply_explanation e)); auto.
Qed.

Lemma wstep_wf now c reg : wf reg -> wf (fst (wstep now c reg)).
Proof.
  intros Hwf. destruct (wstep_cases now c reg Hwf) as [[-> _]|(r & _ & -> & _)]; [done|].
  by apply commit_wf.
Qed.

Lemma wrun_wf h reg : wf reg -> wf (wrun h reg).
Proof.
  revert reg. induction h as [|[now c] h IH]; simpl; intros reg Hwf; [done|].
  by apply IH, wstep_wf.
Qed.

(** A call keeps every record it finds: same id, same submission time, and the
    same specification unless it is an [update_spec] of that workload. *)
Lemma wstep_keeps now c reg wid r :
  wf reg -> get_workload reg wid = Some r ->
  exists r', get_workload (fst (wstep now c reg)) wid = Some r' /\
    wr_submitted_at r' = wr_submitted_at r /\
    ((forall s, c <> CUpdateSpec s \/ ws_workload_id s <> wid) -> wr_spec r' = wr_spec r).
Proof.
  intros Hwf Hget.
  destruct (wstep_cases now c reg Hwf) as [[-> _]|(r1 & Hid & -> & Hcase)]; [by exists r|].
  rewrite get_workload_commit. destruct (String.eqb_spec wid (wr_id r1)) as [Heq|Hne]; [|by exists r].
  exists r1. split; [done|]. rewrite <- Hid, <- Heq, Hget in Hcase.
  destruct Hcase as [Hsub [Hs|Hs]]; split; try done.
  intros Hno. destruct (Hno (wr_spec r1)); done.
Qed.

Definition no_update_spec (wid : string) (h : list (float * wcall)) : Prop :=
  forall now s, (now, CUpdateSpec s) ∈ h -> ws_workload_id s <> wid.

Lemma wrun_keeps h reg wid r :
  wf reg -> get_workload reg wid = Some r ->
  exists r', get_workload (wrun h reg) wid = Some r' /\
    wr_submitted_at r' = wr_submitted_at r /\
    (no_update_spec wid h -> wr_spec r' = wr_spec r).
Proof.
  revert reg r. induction h as [|[now c] h IH]; simpl; intros reg r Hwf Hget; [by exists r|].
  destruct (wstep_keeps now c reg wid r Hwf Hget) as (r1 & Hget1 & Hsub1 & Hspec1).
  destruct (IH _ _ (wstep_wf now c reg Hwf) Hget1) as (r2 & Hget2 & Hsub2 & Hspec2).
  exists r2. split_and!; [done|congruence|]. intros Hno.
  rewrite Hspec2, Hspec1; [done| |].
  - intros s. destruct (decide (ws_workload_id s = wid)) as [Heq|]; [left|by right].
    intros ->. apply (Hno now s); [left|done].
  - intros now' s Hin. apply (Hno now'). by right.
Qed.

(** The specification [add_workload] files for a fresh id. *)
Lemma add_workload_fresh now spec reg :
  get_workload reg (ws_workload_id spec) = None ->
  get_workload (fst (add_workload now spec reg)) (ws_workload_id spec)
  = Some (new_workload_record now spec).
Proof.
  intros E. unfold add_workload. rewrite E, get_workload_commit.
  unfold wr_id. simpl. by rewrite String.eqb_refl.
Qed.

Lemma add_workload_wf now spec reg : wf reg -> wf (fst (add_workload now spec reg)).
Proof.
  intros Hwf. unfold add_workload. destruct (get_workload _ _); [by destruct (spec_eqb _ _)|].
  by apply commit_wf.
Qed.

(** The state a reached record has after [update_state]. *)
Lemma update_state_get now wid st err reg r :
  wf reg -> get_workload reg wid = Some r ->
  exists r', get_workload (fst (update_state now wid st err reg)) wid = Some r' /\
    wr_state r' = st /\ wr_spec r' = wr_spec r /\
    wr_completed_at r' =
      (if bool_decide (st ∈ completing_states) && completed_at_unset (wr_completed_at r)
       then Some now else wr_completed_at r).
Proof.
  intros [_ Hk] E. exists (apply_state now st err r). split_and!; try done.
  unfold update_state, modify. rewrite E, get_workload_commit.
  assert (wr_id (apply_state now st err r) = wid) as -> by exact (Hk _ _ E).
  by rewrite String.eqb_refl.
Qed.

(** ** Durability *)

Context `{!RecordStoreLaws S workload_record}.

Hypothesis key_is_id : forall r, store_key r = wr_id r.
Hypothesis records_ok : forall r, store_ok r.

Definition wsynced (reg : registry S) : Prop := synced (reg_workloads reg) (reg_store reg).

Lemma commit_synced {B} reg r (b : B) :
  wsynced reg -> snd (commit reg r b) <> Err StoreError -> wsynced (fst (commit reg r b)).
Proof.
  intros Hs Hok. unfold wsynced, commit. simpl. rewrite <- key_is_id.
  apply persist_synced; [apply records_ok| |done]. simpl in Hok. unfold persist_result in Hok.
  unfold persist in *. destruct (reg_store reg); [|done].
  by destruct (store_save _ _).
Qed.

Lemma wstep_synced now c reg :
  wf reg -> wsynced reg -> snd (wstep now c reg) <> Err StoreError ->
  wsynced (fst (wstep now c reg)).
Proof.
  intros Hwf Hs. destruct (wstep_cases now c reg Hwf) as [[-> _]|(r & _ & -> & _)]; [done|].
  by apply commit_synced.
Qed.

(** No call of the history reported a failed write. *)
Fixpoint writes_ok (h : list (float * wcall)) (reg : registry S) : Prop :=
  match h with
  | [] => True
  | (now, c) :: h => snd (wstep now c reg) <> Err StoreError /\ writes_ok h (fst (wstep now c reg))
  end.

Lemma wrun_synced h reg :
  wf reg -> wsynced reg -> writes_ok h reg -> wsynced (wrun h reg).
Proof.
  revert reg. induction h as [|[now c] h IH]; simpl; intros reg Hwf Hs; [done|].
  intros [Hok Hh]. apply IH; [by apply wstep_wf|by apply wstep_synced|done].
Qed.

Lemma wstep_synced_others now c reg k :
  wf reg -> k <> target c ->
  synced_at (reg_workloads reg) (reg_store reg) k ->
  synced_at (reg_workloads (fst (wstep now c reg))) (reg_store (fst (wstep now c reg))) k.
Proof.
  intros Hwf Hne Hs. destruct (wstep_cases now c reg Hwf) as [[-> _]|(r & Hid & -> & _)]; [done|].
  unfold commit. simpl. rewrite <- key_is_id. apply persist_synced_others; [apply records_ok| |done].
  by rewrite key_is_id, Hid.
Qed.
End workload_registry_proofs.

(** ** Properties *)

#[export] Instance mem_workload_store : RecordStore (mem_store workload_record) workload_record := {
  store_key := wr_id;
  store_view := fun r => r;
  store_row s k := od_get k (ms_rows s);
  store_save := ms_save wr_id (fun r => r);
}.
#[export] Instance mem_workload_store_laws : RecordStoreLaws (mem_store workload_record) workload_record.
Proof. exists (fun _ => True). intros s a s' k _. apply ms_save_row. Defined.

Definition mem_registry := registry (mem_store workload_record).

Section workload_registry_properties.
Context {S : Type} `{RecordStoreLaws S workload_record}.
Implicit Types reg : registry S.

(** What the second of two submissions of the same id gets. *)
Definition resubmission_answer (now : float) (spec spec' : workload_spec) (a : res workload_record) : Prop :=
  if spec_eqb spec spec'
  then exists r, a = Ok r /\ wr_spec r = spec /\ wr_submitted_at r = now
  else a = Err (WorkloadIdConflictError (ws_workload_id spec)).

(** Resubmission is idempotent.  After a workload is filed, whatever calls
    follow (short of an explicit [update_spec] of it), submitting its id again
    never changes the registry: an equal specification gets the record of the
    first submission back, with its submission time, and a different one
    raises [WorkloadIdConflictError]. *)
Theorem resubmission_idempotent_or_conflict now spec h now' spec' reg :
  wf reg -> get_workload reg (ws_workload_id spec) = None ->
  no_update_spec (ws_workload_id spec) h -> ws_workload_id spec' = ws_workload_id spec ->
  let reg' := wrun h (fst (add_workload now spec reg)) in
  fst (add_workload now' spec' reg') = reg' /\
  resubmission_answer now spec spec' (snd (add_workload now' spec' reg')).
Proof.
  intros Hwf Hnew Hno Hid reg'. unfold resubmission_answer.
  destruct (wrun_keeps h _ _ _ (add_workload_wf now spec reg Hwf) (add_workload_fresh now spec reg Hnew))
    as (r & Hr & Hsub & Hspec). specialize (Hspec Hno). simpl in Hsub, Hspec.
  unfold add_workload. rewrite Hid. unfold reg'. rewrite Hr, Hspec.
  destruct (spec_eqb spec spec'); [|done]. split; [done|]. by exists r.
Qed.

(** Durability.  If no write of a history failed, the store's table holds
    the view of every record under its id; and whatever the next call does,
    even when its write raises, every workload but the one it addresses still
    agrees with its row. *)
Theorem workload_durability h now c reg :
  (forall r, store_key r = wr_id r) -> (forall r, store_ok r) ->
  wf reg -> wsynced reg -> writes_ok h reg ->
  let reg' := wrun h reg in
  wsynced reg' /\
  (snd (wstep now c reg') <> Err StoreError -> wsynced (fst (wstep now c reg'))) /\
  forall k, k <> target c ->
    synced_at (reg_workloads (fst (wstep now c reg'))) (reg_store (fst (wstep now c reg'))) k.
Proof.
  intros Hkey Hrec Hwf Hs Hok reg'.
  assert (wf reg') as Hwf' by by apply wrun_wf.
  assert (wsynced reg') as Hs' by by apply wrun_synced.
  split_and!; [done|by apply wstep_synced|].
  intros k Hk. apply wstep_synced_others; [done..|]. apply Hs'.
Qed.

(** Completion times.  [update_state] answers whether the workload is
    known; it never touches another workload; it stamps [completed_at] exactly
    when the new state is COMPLETED, FAILED, TIMEOUT or UNSCHEDULABLE and no
    (non-zero) time is recorded yet.  So a CANCELLED workload, although
    terminal, keeps an unset [completed_at], and the first stamp wins. *)
Theorem update_state_completion now wid st err reg :
  wf reg ->
  let reg' := fst (update_state now wid st err reg) in
  (forall k, k <> wid -> get_workload reg' k = get_workload reg k) /\
  match get_workload reg wid with
  | None => update_state now wid st err reg = (reg, Ok false)
  | Some r => exists r', get_workload reg' wid = Some r' /\ wr_state r' = st /\ wr_spec r' = wr_spec r /\
      wr_completed_at r' =
        match st with
        | COMPLETED | FAILED | TIMEOUT | UNSCHEDULABLE =>
            match wr_completed_at r with
            | Some t => Some (if feq t f0 then now else t)
            | None => Some now
            end
        | _ => wr_completed_at r
        end
  end.
Proof.
  intros Hwf reg'. split.
  - intros k Hk. unfold reg', update_state, modify.
    destruct (get_workload reg wid) as [r|] eqn:E; [|done].
    rewrite get_workload_commit. destruct Hwf as [_ Hid].
    assert (wr_id (apply_state now st err r) = wid) as -> by exact (Hid _ _ E).
    by destruct (String.eqb_spec k wid).
  - destruct (get_workload reg wid) as [r|] eqn:E.
    + destruct (update_state_get now wid st err reg r Hwf E) as (r' & Hget & Hst & Hsp & Hc).
      exists r'. split_and!; [done..|]. rewrite Hc. unfold completed_at_unset.
      destruct st; try (rewrite bool_decide_eq_true_2 by (unfold completing_states; set_solver));
        try (rewrite bool_decide_eq_false_2 by (unfold completing_states; set_solver)); simpl;
        try done; destruct (wr_completed_at r) as [t|]; try done; by destruct (feq t f0).
    + unfold update_state, modify. by rewrite E.
Qed.
End workload_registry_properties.

Definition witness_history : list (float * wcall) :=
  [(f_of_Z 1, CUpdateState "w1" PLACING None); (f_of_Z 2, CAdd (plain_spec "w2" "t" []));
   (f_of_Z 3, CUpdateState "w1" CANCELLED None)].
Definition witness_registry : mem_registry := empty_registry (Some (Build_mem_store [] [])).

Lemma resubmission_witness :
  let reg' := wrun witness_history (fst (add_workload f0 (plain_spec "w1" "t" []) witness_registry)) in
  fst (add_workload f1 (plain_spec "w1" "u" []) reg') = reg' /\
  resubmission_answer f0 (plain_spec "w1" "t" []) (plain_spec "w1" "u" [])
    (snd (add_workload f1 (plain_spec "w1" "u" []) reg')).
Proof.
  apply (resubmission_idempotent_or_conflict f0 (plain_spec "w1" "t" []) witness_history f1
           (plain_spec "w1" "u" []) witness_registry).
  - apply wf_empty.
  - reflexivity.
  - intros now s Hin. repeat (apply elem_of_cons in Hin as [Hin|Hin]; [discriminate|]). inversion Hin.
  - reflexivity.
Defined.

(** The write of the last call fails: only ["w2"] may be stale. *)
Definition failing_registry : mem_registry :=
  empty_registry (Some (Build_mem_store [] [true; true; false])).

Lemma workload_durability_witness :
  let h := [(f0, CAdd (plain_spec "w1" "t" [])); (f0, CAdd (plain_spec "w2" "t" []))] in
  let reg' := wrun h failing_registry in
  wsynced reg' /\
  (snd (wstep f0 (CUpdateState "w2" PLACING None) reg') <> Err StoreError ->
   wsynced (fst (wstep f0 (CUpdateState "w2" PLACING None) reg'))) /\
  forall k, k <> "w2"%string ->
    synced_at (reg_workloads (fst (wstep f0 (CUpdateState "w2" PLACING None) reg')))
      (reg_store (fst (wstep f0 (CUpdateState "w2" PLACING None) reg'))) k.
Proof.
  apply (workload_durability
           [(f0, CAdd (plain_spec "w1" "t" [])); (f0, CAdd (plain_spec "w2" "t" []))]
           f0 (CUpdateState "w2" PLACING None) failing_registry).
  - reflexivity.
  - intros r. exact I.
  - apply wf_empty.
  - intros k. reflexivity.
  - split_and!; done.
Defined.

Lemma update_state_completion_witness :
  let reg := wrun [(f0, CAdd (plain_spec "w1" "t" []))] witness_registry in
  wf reg /\
  exists r', get_workload (fst (update_state f1 "w1" CANCELLED None reg)) "w1" = Some r' /\
    wr_state r' = CANCELLED /\ wr_completed_at r' = None.
Proof.
  set (reg := wrun [(f0, CAdd (plain_spec "w1" "t" []))] witness_registry).
  assert (wf reg) as Hwf by apply wrun_wf, wf_empty.
  split; [exact Hwf|].
  destruct (proj2 (update_state_completion f1 "w1" CANCELLED None reg Hwf)) as (r' & H1 & H2 & _ & H3).
  exists r'. split_and!; [exact H1|exact H2|exact H3].
Defined.
