(* ===== verification/AttemptRegistry.v ===== *)
(** * Attempts, checkpoints and the retry budget
    ([distributed/attempt.py], [checkpoint.py], [retry.py])

    [attempts] is the [AttemptRegistry] object: the dictionary [_attempts], the
    creation-order index [_by_workload] and the optional store.  Observers
    never change the registry and are not modelled. *)
From S2P Require Export Models Durable.

Inductive attempt_status := QUEUED | ASSIGNED | RUNNING | SUCCEEDED | AT_FAILED | LOST.
#[export] Instance attempt_status_eq_dec : EqDecision attempt_status.
Proof. solve_decision. Defined.

Definition TERMINAL_ATTEMPT_STATUSES : list attempt_status := [SUCCEEDED; AT_FAILED; LOST].

Definition make_attempt_id (workload_id : string) (attempt_number : Z) : string :=
  (workload_id +:+ "#" +:+ str_of_Z attempt_number)%string.

Record attempt_record := {
  at_attempt_id : string;
  at_workload_id : string;
  at_attempt_number : Z;
  at_status : attempt_status;
  at_worker_id : option string;
  at_queued_at : float;
  at_assigned_at : option float;
  at_started_at : option float;
  at_finished_at : option float;
  at_failure_category : option failure_category;
  at_failure_reason : option string;
  at_execution_result : option workload_execution_result;
  at_placement_decision : option placement_decision;
  at_execution_group : option execution_group;
  at_checkpoint_hash : option string;
  at_checkpoint_runtime_type : option string;
  at_checkpoint_format_version : option Z;
}.

Definition queued_duration_seconds (a : attempt_record) : option float :=
  match at_assigned_at a with
  | None => None
  | Some t => Some (fmax f0 (fsub t (at_queued_at a)))
  end.

Definition total_duration_seconds (a : attempt_record) : option float :=
  match at_finished_at a with
  | None => None
  | Some t => Some (fmax f0 (fsub t (at_queued_at a)))
  end.

(** ** The mutators of the [mark_*] methods *)

Definition group_to (st : group_state) (lost : list string) (g : option execution_group) : option execution_group :=
  option_map (fun g => eg_with_state g st lost) g.

Definition mut_assigned (now : float) (worker_id : string) (r : attempt_record) : attempt_record :=
  {| at_attempt_id := at_attempt_id r; at_workload_id := at_workload_id r;
     at_attempt_number := at_attempt_number r; at_status := ASSIGNED;
     at_worker_id := Some worker_id; at_queued_at := at_queued_at r;
     at_assigned_at := Some now; at_started_at := at_started_at r; at_finished_at := at_finished_at r;
     at_failure_category := at_failure_category r; at_failure_reason := at_failure_reason r;
     at_execution_result := at_execution_result r; at_placement_decision := at_placement_decision r;
     at_execution_group := at_execution_group r; at_checkpoint_hash := at_checkpoint_hash r;
     at_checkpoint_runtime_type := at_checkpoint_runtime_type r;
     at_checkpoint_format_version := at_checkpoint_format_version r |}.

Definition mut_running (now : float) (r : attempt_record) : attempt_record :=
  {| at_attempt_id := at_attempt_id r; at_workload_id := at_workload_id r;
     at_attempt_number := at_attempt_number r; at_status := RUNNING;
     at_worker_id := at_worker_id r; at_queued_at := at_queued_at r;
     at_assigned_at := at_assigned_at r; at_started_at := Some now; at_finished_at := at_finished_at r;
     at_failure_category := at_failure_category r; at_failure_reason := at_failure_reason r;
     at_execution_result := at_execution_result r; at_placement_decision := at_placement_decision r;
     at_execution_group := group_to GS_RUNNING [] (at_execution_group r);
     at_checkpoint_hash := at_checkpoint_hash r;
     at_checkpoint_runtime_type := at_checkpoint_runtime_type r;
     at_checkpoint_format_version := at_checkpoint_format_version r |}.

(** The checkpoint fields are taken over when the result carries a checkpoint. *)
Definition mut_succeeded (now : float) (result : workload_execution_result) (r : attempt_record) : attempt_record :=
  let ck := er_was_checkpointed result && opt_truthy (er_checkpoint_hash result) in
  {| at_attempt_id := at_attempt_id r; at_workload_id := at_workload_id r;
     at_attempt_number := at_attempt_number r; at_status := SUCCEEDED;
     at_worker_id := at_worker_id r; at_queued_at := at_queued_at r;
     at_assigned_at := at_assigned_at r; at_started_at := at_started_at r; at_finished_at := Some now;
     at_failure_category := at_failure_category r; at_failure_reason := at_failure_reason r;
     at_execution_result := Some result; at_placement_decision := at_placement_decision r;
     at_execution_group := group_to GS_COMPLETED [] (at_execution_group r);
     at_checkpoint_hash := if ck then er_checkpoint_hash result else at_checkpoint_hash r;
     at_checkpoint_runtime_type := if ck then er_checkpoint_runtime_type result else at_checkpoint_runtime_type r;
     at_checkpoint_format_version := if ck then er_checkpoint_format_version result else at_checkpoint_format_version r |}.

Definition mut_failed (now : float) (category : option failure_category) (reason : option string)
    (result : option workload_execution_result) (r : attempt_record) : attempt_record :=
  {| at_attempt_id := at_attempt_id r; at_workload_id := at_workload_id r;
     at_attempt_number := at_attempt_number r; at_status := AT_FAILED;
     at_worker_id := at_worker_id r; at_queued_at := at_queued_at r;
     at_assigned_at := at_assigned_at r; at_started_at := at_started_at r; at_finished_at := Some now;
     at_failure_category := category; at_failure_reason := reason;
     at_execution_result := match result with Some _ => result | None => at_execution_result r end;
     at_placement_decision := at_placement_decision r;
     at_execution_group := group_to GS_FAILED [] (at_execution_group r);
     at_checkpoint_hash := at_checkpoint_hash r;
     at_checkpoint_runtime_type := at_checkpoint_runtime_type r;
     at_checkpoint_format_version := at_checkpoint_format_version r |}.

Definition mut_lost (now : float) (reason : string) (unavailable : list string) (r : attempt_record) : attempt_record :=
  {| at_attempt_id := at_attempt_id r; at_workload_id := at_workload_id r;
     at_attempt_number := at_attempt_number r; at_status := LOST;
     at_worker_id := at_worker_id r; at_queued_at := at_queued_at r;
     at_assigned_at := at_assigned_at r; at_started_at := at_started_at r; at_finished_at := Some now;
     at_failure_category := Some WORKER_UNAVAILABLE; at_failure_reason := Some reason;
     at_execution_result := at_execution_result r; at_placement_decision := at_placement_decision r;
     at_execution_group := group_to GS_LOST unavailable (at_execution_group r);
     at_checkpoint_hash := at_checkpoint_hash r;
     at_checkpoint_runtime_type := at_checkpoint_runtime_type r;
     at_checkpoint_format_version := at_checkpoint_format_version r |}.

Section attempt_registry.
Context {S : Type} `{RecordStore S attempt_record}.

Record attempts := {
  ar_attempts : odict attempt_record;
  ar_by_workload : odict (list string);
  ar_store : option S;
}.

Definition empty_attempts (st : option S) : attempts :=
  {| ar_attempts := []; ar_by_workload := []; ar_store := st |}.

Definition get_attempt (reg : attempts) (aid : string) : option attempt_record :=
  od_get aid (ar_attempts reg).

Definition attempt_ids (reg : attempts) (wid : string) : list string :=
  od_get_default wid [] (ar_by_workload reg).

Definition new_attempt (now : float) (wid : string) (n : Z) (worker_id : option string)
    (decision : option placement_decision) (group : option execution_group) : attempt_record :=
  {| at_attempt_id := make_attempt_id wid n; at_workload_id := wid; at_attempt_number := n;
     at_status := QUEUED; at_worker_id := worker_id; at_queued_at := now;
     at_assigned_at := None; at_started_at := None; at_finished_at := None;
     at_failure_category := None; at_failure_reason := None; at_execution_result := None;
     at_placement_decision := decision; at_execution_group := group;
     at_checkpoint_hash := None; at_checkpoint_runtime_type := None; at_checkpoint_format_version := None |}.

Definition create_attempt (now : float) (wid : string) (worker_id : option string)
    (decision : option placement_decision) (group : option execution_group) (reg : attempts)
  : attempts * res attempt_record :=
  let existing_ids := attempt_ids reg wid in
  let attempt_number := Z.of_nat (length existing_ids) + 1 in
  let record := new_attempt now wid attempt_number worker_id decision group in
  ({| ar_attempts := od_set (at_attempt_id record) record (ar_attempts reg);
      ar_by_workload := od_set wid (existing_ids ++ [at_attempt_id record]) (ar_by_workload reg);
      ar_store := persist_store (ar_store reg) record |},
   persist_result (ar_store reg) record record).

Definition list_attempts_for_workload (reg : attempts) (wid : string) : list attempt_record :=
  omap (get_attempt reg) (attempt_ids reg wid).

Definition list_attempts (reg : attempts) : list attempt_record := od_values (ar_attempts reg).

Definition get_latest_attempt (reg : attempts) (wid : string) : option attempt_record :=
  last (list_attempts_for_workload reg wid).

Definition count_attempts (reg : attempts) (wid : string) : Z := Z.of_nat (length (attempt_ids reg wid)).

(** [_update]: [None] for an unknown attempt, else mutate, persist, return the
    snapshot. *)
Definition attempt_update (aid : string) (mutator : attempt_record -> attempt_record) (reg : attempts)
  : attempts * res (option attempt_record) :=
  match get_attempt reg aid with
  | None => (reg, Ok None)
  | Some r =>
      let r' := mutator r in
      ({| ar_attempts := od_set aid r' (ar_attempts reg);
          ar_by_workload := ar_by_workload reg;
          ar_store := persist_store (ar_store reg) r' |},
       persist_result (ar_store reg) r' (Some r'))
  end.

Definition mark_assigned (now : float) (aid worker_id : string) := attempt_update aid (mut_assigned now worker_id).
Definition mark_running (now : float) (aid : string) := attempt_update aid (mut_running now).
Definition mark_succeeded (now : float) (aid : string) (result : workload_execution_result) :=
  attempt_update aid (mut_succeeded now result).
Definition mark_failed (now : float) (aid : string) (category : option failure_category)
    (reason : option string) (result : option workload_execution_result) :=
  attempt_update aid (mut_failed now category reason result).
Definition mark_lost (now : float) (aid reason : string) (unavailable : list string) :=
  attempt_update aid (mut_lost now reason unavailable).

Definition attempt_runs_on (worker_id : string) (r : attempt_record) : bool :=
  (bool_decide (at_worker_id r = Some worker_id) ||
   match at_execution_group r with
   | Some g => bool_decide (worker_id ∈ eg_worker_ids g)
   | None => false
   end)
  && bool_decide (at_status r = ASSIGNED \/ at_status r = RUNNING).

Definition list_running_attempts_for_worker (reg : attempts) (worker_id : string) : list attempt_record :=
  List.filter (attempt_runs_on worker_id) (od_values (ar_attempts reg)).

(** The key of the sort in [restore_attempt]; an id with no record would raise
    [KeyError], and is sorted as attempt 0 here (never reached: every id in
    the index has a record). *)
Definition attempt_number_of (recs : odict attempt_record) (aid : string) : Z :=
  match od_get aid recs with Some r => at_attempt_number r | None => 0 end.

Definition restore_attempt (r : attempt_record) (reg : attempts) : attempts :=
  let recs := od_set (at_attempt_id r) r (ar_attempts reg) in
  let ids := attempt_ids reg (at_workload_id r) in
  let ids' :=
    if bool_decide (at_attempt_id r ∈ ids) then ids
    else isort (fun a b => attempt_number_of recs a <? attempt_number_of recs b) (ids ++ [at_attempt_id r]) in
  {| ar_attempts := recs;
     ar_by_workload := od_set (at_workload_id r) ids' (ar_by_workload reg);
     ar_store := ar_store reg |}.

(** [WorkloadOrchestrator.handle_worker_lost]: the attempts that ran on the
    worker are listed first; a failing write leaves the loop. *)
Definition lost_reason (worker_id : string) : string :=
  ("worker " +:+ worker_id +:+ " evicted (heartbeat timeout)")%string.

Fixpoint mark_all_lost (now : float) (worker_id : string) (l : list attempt_record) (reg : attempts)
  : attempts * res unit :=
  match l with
  | [] => (reg, Ok tt)
  | a :: l =>
      match mark_lost now (at_attempt_id a) (lost_reason worker_id) [worker_id] reg with
      | (reg', Ok _) => mark_all_lost now worker_id l reg'
      | (reg', Err e) => (reg', Err e)
      end
  end.

Definition handle_worker_lost (now : float) (worker_id : string) (reg : attempts) : attempts * res unit :=
  mark_all_lost now worker_id (list_running_attempts_for_worker reg worker_id) reg.
End attempt_registry.
Arguments attempts S : clear implicits.

(** ** Checkpoint validation *)

Definition CURRENT_CHECKPOINT_FORMAT_VERSION : Z := 1.

Inductive checkpoint_verdict :=
| CkValid
| CkNone
| CkVersion (v : option Z)
| CkMissing (h : string).

Definition validate_checkpoint (a : attempt_record) (cas_has_hash_fn : string -> bool) : checkpoint_verdict :=
  match at_checkpoint_hash a with
  | None => CkNone
  | Some h =>
      if negb (bool_decide (at_checkpoint_format_version a = Some CURRENT_CHECKPOINT_FORMAT_VERSION))
      then CkVersion (at_checkpoint_format_version a)
      else if negb (cas_has_hash_fn h) then CkMissing h
      else CkValid
  end.

(** ** Retry classification and budget *)

Definition RETRYABLE_FAILURE_CATEGORIES : list failure_category :=
  [WORKER_UNAVAILABLE; TEMPORARY_CAS_FAILURE; RESOURCE_EXHAUSTION; EXECUTION_TIMEOUT;
   ASSET_TRANSFER_FAILURE; ASSET_STAGING_FAILURE].

Definition NON_RETRYABLE_FAILURE_CATEGORIES : list failure_category :=
  [INVALID_INPUT; INVALID_DEPENDENCY; MISSING_EXECUTABLE; INVALID_WORKLOAD; APPLICATION_ERROR;
   AUTHORIZATION_FAILURE; MALFORMED_REQUEST; ARTIFACT_VERIFICATION_FAILURE; EXECUTION_FAILURE].

Definition DEFAULT_MAX_ATTEMPTS : Z := 3.

Definition is_retryable (c : option failure_category) : bool :=
  match c with
  | None => false
  | Some c => bool_decide (c ∈ RETRYABLE_FAILURE_CATEGORIES)
  end.

Definition should_retry (c : option failure_category) (attempts_used max_attempts : Z) : bool :=
  if negb (is_retryable c) then false else attempts_used <? max_attempts.

(** ** Attempt ids *)

Lemma make_attempt_id_inj w1 w2 n1 n2 :
  0 <= n1 -> 0 <= n2 -> make_attempt_id w1 n1 = make_attempt_id w2 n2 -> w1 = w2 /\ n1 = n2.
Proof.
  intros H1 H2 H. unfold make_attempt_id in H.
  apply (sep_inj "#"%char) in H as [-> H]; [|apply str_of_Z_no_char; [done|by apply pretty_N_char_ne]..].
  split; [done|]. by apply str_of_Z_inj.
Qed.

(** The ids [w#1], ..., [w#n]. *)
Definition attempt_id_seq (wid : string) (n : nat) : list string :=
  map (fun i => make_attempt_id wid (Z.of_nat i)) (seq 1 n).

Lemma attempt_id_seq_S wid n :
  attempt_id_seq wid (Datatypes.S n) = attempt_id_seq wid n ++ [make_attempt_id wid (Z.of_nat n + 1)].
Proof.
  unfold attempt_id_seq. rewrite seq_S, map_app. simpl. do 3 f_equal. lia.
Qed.

Lemma attempt_id_seq_elem wid n a :
  a ∈ attempt_id_seq wid n <-> exists i, 1 <= i <= Z.of_nat n /\ a = make_attempt_id wid i.
Proof.
  unfold attempt_id_seq. rewrite list_elem_of_In, in_map_iff. setoid_rewrite in_seq. split.
  - intros (i & <- & Hi). exists (Z.of_nat i). split; [lia|done].
  - intros (i & Hi & ->). exists (Z.to_nat i). split; [f_equal; lia|lia].
Qed.

Lemma length_attempt_id_seq wid n : length (attempt_id_seq wid n) = n.
Proof. unfold attempt_id_seq. by rewrite length_map, length_seq. Qed.

Section attempt_proofs.
Context {S : Type} `{RecordStore S attempt_record}.
Implicit Types reg : attempts S.

(** The registry's invariant: the index of a workload lists [w#1 .. w#n] in
    creation order, and every indexed attempt is recorded with that workload
    and that number. *)
Definition attempts_wf reg : Prop :=
  od_wf (ar_attempts reg) /\
  (forall w, attempt_ids reg w = attempt_id_seq w (length (attempt_ids reg w))) /\
  (forall w i, 1 <= i <= count_attempts reg w ->
     exists r, get_attempt reg (make_attempt_id w i) = Some r /\
       at_attempt_id r = make_attempt_id w i /\ at_workload_id r = w /\ at_attempt_number r = i) /\
  (forall a r, get_attempt reg a = Some r ->
     1 <= at_attempt_number r <= count_attempts reg (at_workload_id r) /\
     a = make_attempt_id (at_workload_id r) (at_attempt_number r)).

Lemma attempts_wf_empty st : attempts_wf (empty_attempts st).
Proof.
  split_and!; [apply od_wf_nil| | |]; try done.
  intros w i. unfold count_attempts, attempt_ids, empty_attempts, od_get_default. simpl. lia.
Qed.

Lemma attempt_ids_create now wid wk d g reg w :
  attempt_ids (fst (create_attempt now wid wk d g reg)) w =
  if String.eqb w wid then attempt_ids reg wid ++ [make_attempt_id wid (count_attempts reg wid + 1)]
  else attempt_ids reg w.
Proof.
  unfold attempt_ids, create_attempt, od_get_default. simpl. rewrite od_get_set.
  by destruct (String.eqb w wid).
Qed.

Lemma count_create now wid wk d g reg w :
  count_attempts (fst (create_attempt now wid wk d g reg)) w =
  if String.eqb w wid then count_attempts reg wid + 1 else count_attempts reg w.
Proof.
  unfold count_attempts. rewrite attempt_ids_create. destruct (String.eqb w wid); [|done].
  rewrite length_app. simpl. lia.
Qed.

Lemma get_attempt_create now wid wk d g reg a :
  get_attempt (fst (create_attempt now wid wk d g reg)) a =
  if String.eqb a (make_attempt_id wid (count_attempts reg wid + 1))
  then Some (new_attempt now wid (count_attempts reg wid + 1) wk d g) else get_attempt reg a.
Proof. unfold get_attempt, create_attempt. simpl. by rewrite od_get_set. Qed.

Lemma count_nonneg reg w : 0 <= count_attempts reg w.
Proof. unfold count_attempts. lia. Qed.

Lemma create_attempt_wf now wid wk d g reg :
  attempts_wf reg -> attempts_wf (fst (create_attempt now wid wk d g reg)).
Proof.
  intros (Hnd & Hids & Hrec & Hall). pose proof (count_nonneg reg wid) as Hnn.
  split_and!.
  - unfold create_attempt. simpl. eauto with odict.
  - intros w. rewrite attempt_ids_create. destruct (String.eqb_spec w wid) as [->|]; [|apply Hids].
    rewrite length_app. simpl. rewrite Nat.add_1_r, attempt_id_seq_S, <- Hids. done.
  - intros w i Hi. rewrite count_create in Hi. rewrite get_attempt_create.
    destruct (String.eqb_spec (make_attempt_id w i) (make_attempt_id wid (count_attempts reg wid + 1))) as [Heq|Hne].
    + assert (0 <= i) by (destruct (String.eqb w wid); lia).
      apply make_attempt_id_inj in Heq as [-> ->]; [|lia..]. by eexists.
    + apply Hrec. destruct (String.eqb_spec w wid) as [->|]; [|done].
      assert (i <> count_attempts reg wid + 1) by (intros ->; done). lia.
  - intros a r. rewrite get_attempt_create, count_create. str_case.
    + intros [= <-]. simpl. rewrite String.eqb_refl. split; [lia|done].
    + intros Hr. destruct (Hall a r Hr) as [Hn Ha]. split; [|done].
      destruct (String.eqb_spec (at_workload_id r) wid) as [Hw|]; [|done]. rewrite Hw in Hn. lia.
Qed.

(** A mutator that keeps the identity of the record keeps the invariant. *)
Definition keeps_identity (f : attempt_record -> attempt_record) : Prop :=
  forall r, at_attempt_id (f r) = at_attempt_id r /\ at_workload_id (f r) = at_workload_id r /\
            at_attempt_number (f r) = at_attempt_number r.

Lemma attempt_update_wf aid f reg :
  keeps_identity f -> attempts_wf reg -> attempts_wf (fst (attempt_update aid f reg)).
Proof.
  intros Hf (Hnd & Hids & Hrec & Hall). unfold attempt_update.
  destruct (get_attempt reg aid) as [r0|] eqn:E; [|done].
  split_and!; simpl; [eauto with odict|exact Hids| |].
  - intros w i Hi. destruct (Hrec w i Hi) as (r & Hr & Hid). unfold get_attempt. simpl.
    rewrite od_get_set. destruct (String.eqb_spec (make_attempt_id w i) aid) as [<-|]; [|by exists r].
    rewrite E in Hr. simplify_eq. exists (f r). destruct (Hf r) as (-> & -> & ->). done.
  - intros a r. unfold get_attempt. simpl. rewrite od_get_set. str_case; [|apply Hall].
    intros [= <-]. destruct (Hf r0) as (_ & -> & ->). apply (Hall aid r0 E).
Qed.

(** ** Calls and runs *)

Inductive acall :=
| ACreate (wid : string) (wk : option string) (d : option placement_decision) (g : option execution_group)
| AAssigned (aid worker : string)
| ARunning (aid : string)
| ASucceeded (aid : string) (result : workload_execution_result)
| AFailed (aid : string) (c : option failure_category) (reason : option string) (result : option workload_execution_result)
| ALost (aid reason : string) (unavailable : list string).

Definition astep (now : float) (c : acall) (reg : attempts S) : attempts S :=
  match c with
  | ACreate wid wk d g => fst (create_attempt now wid wk d g reg)
  | AAssigned aid wk => fst (mark_assigned now aid wk reg)
  | ARunning aid => fst (mark_running now aid reg)
  | ASucceeded aid x => fst (mark_succeeded now aid x reg)
  | AFailed aid c reason x => fst (mark_failed now aid c reason x reg)
  | ALost aid reason u => fst (mark_lost now aid reason u reg)
  end.

Definition arun (h : list (float * acall)) (reg : attempts S) : attempts S :=
  fold_left (fun reg '(now, c) => astep now c reg) h reg.

Lemma astep_wf now c reg : attempts_wf reg -> attempts_wf (astep now c reg).
Proof.
  intros Hwf. destruct c; simpl; [by apply create_attempt_wf|..];
    apply attempt_update_wf; done.
Qed.

Lemma arun_wf h reg : attempts_wf reg -> attempts_wf (arun h reg).
Proof.
  revert reg. induction h as [|[now c] h IH]; simpl; intros reg Hwf; [done|].
  by apply IH, astep_wf.
Qed.

(** Attempts are never dropped and never change workload or number. *)
Lemma astep_keeps now c reg a r :
  attempts_wf reg -> get_attempt reg a = Some r ->
  exists r', get_attempt (astep now c reg) a = Some r' /\
    at_workload_id r' = at_workload_id r /\ at_attempt_number r' = at_attempt_number r /\
    at_queued_at r' = at_queued_at r.
Proof.
  intros (_ & _ & _ & Hall) Hr. destruct c; cbn [astep].
  1: { rewrite get_attempt_create. str_case; [|by exists r].
       destruct (Hall _ _ Hr) as [Hn Heq].
       apply make_attempt_id_inj in Heq as [Hw Hnum]; [|pose proof (count_nonneg reg wid); lia..].
       rewrite Hw in Hnum. lia. }
  all: unfold mark_assigned, mark_running, mark_succeeded, mark_failed, mark_lost, attempt_update;
    destruct (get_attempt reg aid) as [r0|] eqn:E; [|by exists r];
    unfold get_attempt in *; simpl; rewrite od_get_set;
    destruct (String.eqb_spec a aid) as [->|]; [|by exists r];
    rewrite E in Hr; simplify_eq; by eexists.
Qed.

(** ** Lost workers *)

Lemma get_attempt_mark_lost now aid reason u reg a :
  get_attempt (fst (mark_lost now aid reason u reg)) a =
  if String.eqb a aid then option_map (mut_lost now reason u) (get_attempt reg aid) else get_attempt reg a.
Proof.
  unfold mark_lost, attempt_update. destruct (get_attempt reg aid) as [r|] eqn:E.
  - unfold get_attempt. simpl. rewrite od_get_set. by destruct (String.eqb a aid).
  - destruct (String.eqb_spec a aid) as [->|]; [done|done].
Qed.

Lemma mark_lost_wf now aid reason u reg :
  attempts_wf reg -> attempts_wf (fst (mark_lost now aid reason u reg)).
Proof. by apply attempt_update_wf. Qed.

Lemma mark_lost_Some now aid reason u reg x :
  snd (mark_lost now aid reason u reg) = Ok x -> x = option_map (mut_lost now reason u) (get_attempt reg aid).
Proof.
  unfold mark_lost, attempt_update. destruct (get_attempt reg aid); simpl; [|congruence].
  unfold persist_result. destruct (persist _ _); simpl; congruence.
Qed.

Lemma mark_all_lost_wf now w l reg : attempts_wf reg -> attempts_wf (fst (mark_all_lost now w l reg)).
Proof.
  revert reg. induction l as [|a l IH]; simpl; intros reg Hwf; [done|].
  pose proof (mark_lost_wf now (at_attempt_id a) (lost_reason w) [w] reg Hwf) as Hwf'.
  destruct (mark_lost _ _ _ _ reg) as [reg' [x|e]]; simpl in *; auto.
Qed.

(** When every write succeeds, exactly the listed attempts are lost. *)
Lemma mark_all_lost_get now w l reg a :
  snd (mark_all_lost now w l reg) = Ok tt ->
  NoDup (map at_attempt_id l) ->
  get_attempt (fst (mark_all_lost now w l reg)) a =
  if bool_decide (a ∈ map at_attempt_id l)
  then option_map (mut_lost now (lost_reason w) [w]) (get_attempt reg a) else get_attempt reg a.
Proof.
  revert reg. induction l as [|b l IH]; simpl; intros reg Hok Hnd; [done|].
  apply NoDup_cons in Hnd as [Hb Hnd].
  pose proof (get_attempt_mark_lost now (at_attempt_id b) (lost_reason w) [w] reg) as Hget.
  destruct (mark_lost _ _ _ _ reg) as [reg' [x|e]]; [|done]. simpl in *.
  rewrite IH by done. rewrite Hget. destruct (String.eqb_spec a (at_attempt_id b)) as [->|Hne].
  - rewrite bool_decide_eq_false_2 by done. by rewrite bool_decide_eq_true_2 by (left).
  - destruct (decide (a ∈ map at_attempt_id l)).
    + rewrite !bool_decide_eq_true_2; [done|by right|done].
    + rewrite !bool_decide_eq_false_2; [done| |done]. intros [|]%elem_of_cons; done.
Qed.

(** Whatever the writes do, an attempt outside the list is untouched. *)
Lemma mark_all_lost_others now w l reg a :
  a ∉ map at_attempt_id l -> get_attempt (fst (mark_all_lost now w l reg)) a = get_attempt reg a.
Proof.
  revert reg. induction l as [|b l IH]; simpl; intros reg Hn; [done|].
  apply not_elem_of_cons in Hn as [Hne Hn].
  pose proof (get_attempt_mark_lost now (at_attempt_id b) (lost_reason w) [w] reg a) as Hget.
  destruct (mark_lost _ _ _ _ reg) as [reg' [x|e]]; simpl in *.
  - rewrite IH by done. rewrite Hget. by destruct (String.eqb_spec a (at_attempt_id b)).
  - rewrite Hget. by destruct (String.eqb_spec a (at_attempt_id b)).
Qed.

Lemma attempts_wf_get_id reg a r : attempts_wf reg -> get_attempt reg a = Some r -> at_attempt_id r = a.
Proof.
  intros (_ & _ & Hrec & Hall) Hr. destruct (Hall a r Hr) as [Hn ->].
  destruct (Hrec _ _ Hn) as (r' & Hr' & Hid & _). rewrite Hr in Hr'. by simplify_eq.
Qed.

Lemma attempts_values_ids reg : attempts_wf reg -> map at_attempt_id (od_values (ar_attempts reg)) = od_keys (ar_attempts reg).
Proof.
  intros Hwf. unfold od_values, od_keys. rewrite map_map. apply map_ext_in.
  intros [k r] Hin. simpl. apply (attempts_wf_get_id reg); [done|].
  apply od_get_elem; [by destruct Hwf|]. by apply list_elem_of_In.
Qed.

Lemma filter_map_NoDup {A B} (f : A -> B) (p : A -> bool) l :
  NoDup (map f l) -> NoDup (map f (List.filter p l)).
Proof.
  induction l as [|x l IH]; simpl; [done|]. intros [Hx Hnd]%NoDup_cons.
  destruct (p x); simpl; [|auto]. apply NoDup_cons; split; [|auto].
  rewrite !list_elem_of_In, !in_map_iff in *. intros (y & Hy & Hin%filter_In). naive_solver.
Qed.

Lemma running_elem reg w r :
  attempts_wf reg ->
  r ∈ list_running_attempts_for_worker reg w <->
  get_attempt reg (at_attempt_id r) = Some r /\ attempt_runs_on w r = true.
Proof.
  intros Hwf. unfold list_running_attempts_for_worker. rewrite list_elem_of_In, filter_In, <- list_elem_of_In.
  rewrite od_values_elem by apply Hwf. split; intros [Hr Hw]; (split; [|done]).
  - destruct Hr as [k Hk]. by rewrite (attempts_wf_get_id reg k r Hwf Hk).
  - by exists (at_attempt_id r).
Qed.

Lemma running_ids reg w a :
  attempts_wf reg ->
  a ∈ map at_attempt_id (list_running_attempts_for_worker reg w) <->
  exists r, get_attempt reg a = Some r /\ attempt_runs_on w r = true.
Proof.
  intros Hwf. rewrite list_elem_of_In, in_map_iff. setoid_rewrite <- list_elem_of_In. split.
  - intros (r & <- & Hr). apply running_elem in Hr as [? ?]; [|done]. by exists r.
  - intros (r & Hr & Hw). pose proof (attempts_wf_get_id reg a r Hwf Hr) as <-.
    exists r. split; [done|]. by apply running_elem.
Qed.

(** ** Restoring from the store *)

Definition restore_all (l : list attempt_record) (reg : attempts S) : attempts S :=
  fold_left (fun reg r => restore_attempt r reg) l reg.

Definition num_in reg (a : string) : Z := attempt_number_of (ar_attempts reg) a.

(** The state while [l], rows of [reg0], has been restored. *)
Definition restored reg0 (l : list attempt_record) reg : Prop :=
  od_wf (ar_attempts reg) /\
  (forall a r, get_attempt reg a = Some r <-> r ∈ l /\ at_attempt_id r = a) /\
  (forall w, NoDup (attempt_ids reg w) /\
     StronglySorted (fun a b => num_in reg0 a <= num_in reg0 b) (attempt_ids reg w) /\
     forall a, a ∈ attempt_ids reg w <-> exists r, r ∈ l /\ at_attempt_id r = a /\ at_workload_id r = w).

Lemma restored_empty reg0 st : restored reg0 [] (empty_attempts st).
Proof.
  split_and!; [apply od_wf_nil| |].
  - intros a r. split; [done|]. intros [Hr _]. by inversion Hr.
  - intros w. split_and!; [constructor|constructor|]. intros a. split; [by inversion 1|].
    intros (r & Hr & _). by inversion Hr.
Qed.

Lemma attempt_ids_restore r reg w :
  attempt_ids (restore_attempt r reg) w =
  if String.eqb w (at_workload_id r) then
    if bool_decide (at_attempt_id r ∈ attempt_ids reg w) then attempt_ids reg w
    else isort (fun a b => attempt_number_of (od_set (at_attempt_id r) r (ar_attempts reg)) a
                       <? attempt_number_of (od_set (at_attempt_id r) r (ar_attempts reg)) b)
               (attempt_ids reg w ++ [at_attempt_id r])
  else attempt_ids reg w.
Proof.
  unfold attempt_ids at 1, restore_attempt, od_get_default. simpl. rewrite od_get_set.
  destruct (String.eqb_spec w (at_workload_id r)) as [->|]; done.
Qed.

Lemma restored_step reg0 l r reg :
  (forall x, x ∈ l ++ [r] -> get_attempt reg0 (at_attempt_id x) = Some x) ->
  at_attempt_id r ∉ map at_attempt_id l ->
  restored reg0 l reg -> restored reg0 (l ++ [r]) (restore_attempt r reg).
Proof.
  intros H0 Hr (Hnd & Hget & Hids).
  assert (forall x, x ∈ l -> at_attempt_id x <> at_attempt_id r) as Hne.
  { intros x Hx Heq. apply Hr. rewrite <- Heq. apply list_elem_of_fmap. by exists x. }
  split_and!; [simpl; eauto with odict| |].
  - intros a x. unfold get_attempt, restore_attempt. simpl. rewrite od_get_set, elem_of_app, list_elem_of_singleton.
    destruct (String.eqb_spec a (at_attempt_id r)) as [->|Ha].
    + split; [intros [= <-]; eauto|]. intros [[Hx| ->] Heq]; [|done]. by destruct (Hne x Hx).
    + change (get_attempt reg a = Some x <-> (x ∈ l \/ x = r) /\ at_attempt_id x = a). rewrite Hget. naive_solver.
  - intros w. destruct (Hids w) as (Hn & Hs & He). rewrite attempt_ids_restore.
    destruct (String.eqb_spec w (at_workload_id r)) as [->|Hw].
    2: { split_and!; [done|done|]. intros a. rewrite He. setoid_rewrite elem_of_app.
         setoid_rewrite list_elem_of_singleton. naive_solver. }
    assert (at_attempt_id r ∉ attempt_ids reg (at_workload_id r)) as Hnew.
    { rewrite He. intros (x & Hx & Heq & _). by apply (Hne x Hx). }
    rewrite bool_decide_eq_false_2 by done.
    rewrite (isort_ext _ (key_lt (num_in reg0))).
    2: { assert (forall a, a ∈ attempt_ids reg (at_workload_id r) ++ [at_attempt_id r] ->
            attempt_number_of (od_set (at_attempt_id r) r (ar_attempts reg)) a = num_in reg0 a) as Hnum.
         { intros a Ha. unfold num_in, attempt_number_of. rewrite od_get_set.
           destruct (String.eqb_spec a (at_attempt_id r)) as [->|Hne'].
           - pose proof (H0 r ltac:(apply elem_of_app; right; left)) as E. unfold get_attempt in E. by rewrite E.
           - apply elem_of_app in Ha as [Ha|Ha]; [|by apply list_elem_of_singleton in Ha].
             apply He in Ha as (x & Hx & <- & _).
             pose proof (H0 x ltac:(apply elem_of_app; by left)) as E. unfold get_attempt in E. rewrite E.
             pose proof (proj2 (Hget (at_attempt_id x) x) (conj Hx eq_refl)) as E'. unfold get_attempt in E'.
             by rewrite E'. }
         intros x y Hx Hy. unfold key_lt. by rewrite (Hnum x Hx), (Hnum y Hy). }
    split_and!; [|apply isort_key_sorted|].
    + rewrite isort_perm. apply NoDup_app. split_and!; [done| |apply NoDup_singleton].
      intros x Hx Hx'. apply list_elem_of_singleton in Hx'. by subst.
    + intros a. rewrite isort_elem, elem_of_app, list_elem_of_singleton, He.
      setoid_rewrite elem_of_app. setoid_rewrite list_elem_of_singleton. naive_solver.
Qed.

Lemma restore_all_restored reg0 l st :
  (forall x, x ∈ l -> get_attempt reg0 (at_attempt_id x) = Some x) ->
  NoDup (map at_attempt_id l) -> restored reg0 l (restore_all l (empty_attempts st)).
Proof.
  unfold restore_all. induction l as [|r l IH] using rev_ind; intros H0 Hnd; [apply restored_empty|].
  rewrite fold_left_app. rewrite map_app in Hnd. apply NoDup_app in Hnd as (Hnd & Hdis & _).
  apply restored_step; [done| |apply IH; [|done]].
  - intros Hin. apply (Hdis _ Hin). simpl. by left.
  - intros x Hx. apply H0, elem_of_app. by left.
Qed.

Lemma attempt_ids_sorted reg w :
  attempts_wf reg -> StronglySorted (fun a b => num_in reg a <= num_in reg b) (attempt_ids reg w).
Proof.
  intros (_ & Hids & Hrec & _). rewrite Hids. unfold attempt_id_seq.
  assert (forall i, 1 <= i <= count_attempts reg w -> num_in reg (make_attempt_id w i) = i) as Hnum.
  { intros i Hi. destruct (Hrec w i Hi) as (r & Hr & _ & _ & Hn).
    unfold num_in, attempt_number_of. unfold get_attempt in Hr. by rewrite Hr. }
  unfold count_attempts in Hnum. revert Hnum. generalize (length (attempt_ids reg w)) as n. intros n Hnum.
  assert (forall k m, (1 <= k)%nat -> (k + m <= Datatypes.S n)%nat ->
    StronglySorted (fun a b => num_in reg a <= num_in reg b)
      (map (fun i => make_attempt_id w (Z.of_nat i)) (seq k m))) as Hgen; [|by apply Hgen; lia].
  intros k m. revert k. induction m as [|m IH]; intros k Hk Hm; simpl; [constructor|].
  constructor; [apply IH; lia|].
  rewrite List.Forall_forall. intros a (i & <- & Hi%in_seq)%in_map_iff. rewrite !Hnum; lia.
Qed.

Lemma attempt_ids_elem reg w a :
  attempts_wf reg ->
  a ∈ attempt_ids reg w <-> exists r, get_attempt reg a = Some r /\ at_workload_id r = w.
Proof.
  intros (_ & Hids & Hrec & Hall). rewrite Hids, attempt_id_seq_elem. split.
  - intros (i & Hi & ->). destruct (Hrec w i Hi) as (r & Hr & _ & Hw & _). by exists r.
  - intros (r & Hr & <-). destruct (Hall a r Hr) as [Hn ->]. eauto.
Qed.

Lemma attempt_ids_NoDup reg w : attempts_wf reg -> NoDup (attempt_ids reg w).
Proof.
  intros (_ & Hids & _). rewrite Hids. unfold attempt_id_seq. apply NoDup_fmap_2_strong; [|apply NoDup_seq].
  intros i j _ _ Heq. apply make_attempt_id_inj in Heq as [_ Heq]; lia.
Qed.
End attempt_proofs.

(** ** Properties *)

#[export] Instance mem_attempt_store : RecordStore (mem_store attempt_record) attempt_record := {
  store_key := at_attempt_id;
  store_view := fun r => r;
  store_row s k := od_get k (ms_rows s);
  store_save := ms_save at_attempt_id (fun r => r);
}.
#[export] Instance mem_attempt_store_laws : RecordStoreLaws (mem_store attempt_record) attempt_record.
Proof. exists (fun _ => True). intros s a s' k _. apply ms_save_row. Defined.

Section attempt_properties.
Context {S : Type} `{RecordStore S attempt_record}.
Implicit Types reg : attempts S.

Definition creations (w : string) (h : list (float * acall)) : Z :=
  Z.of_nat (length (List.filter
    (fun p => match snd p with ACreate w' _ _ _ => String.eqb w w' | _ => false end) h)).

Lemma arun_count h reg w : count_attempts (arun h reg) w = count_attempts reg w + creations w h.
Proof.
  unfold arun, creations. revert reg. induction h as [|[now c] h IH]; simpl; intros reg; [lia|].
  rewrite IH. destruct c; cbn [astep].
  1: { rewrite count_create. destruct (String.eqb_spec w wid) as [->|]; simpl length; lia. }
  all: f_equal; unfold count_attempts, attempt_ids, mark_assigned, mark_running, mark_succeeded,
    mark_failed, mark_lost, attempt_update; by destruct (get_attempt reg aid).
Qed.

Lemma arun_keeps h reg a r :
  attempts_wf reg -> get_attempt reg a = Some r ->
  exists r', get_attempt (arun h reg) a = Some r' /\
    at_workload_id r' = at_workload_id r /\ at_attempt_number r' = at_attempt_number r /\
    at_queued_at r' = at_queued_at r.
Proof.
  unfold arun. revert reg r. induction h as [|[now c] h IH]; simpl; intros reg r Hwf Hr; [by exists r|].
  destruct (astep_keeps now c reg a r Hwf Hr) as (r1 & Hr1 & H1 & H2 & H3).
  destruct (IH _ r1 (astep_wf now c reg Hwf) Hr1) as (r2 & Hr2 & H4 & H5 & H6).
  exists r2. split_and!; [done|congruence..].
Qed.

(** C1: attempts are numbered without gaps.  After any history of calls on the
    registry, the attempts of a workload are listed in creation order and
    numbered 1, 2, ..., n with ids [w#1 ... w#n], n being the number there
    were plus the creations; the latest attempt is number n; and no call ever
    drops an attempt or changes its workload, number or queueing time. *)
Theorem attempts_numbered_in_order h reg w :
  attempts_wf reg ->
  let reg' := arun h reg in
  let n := count_attempts reg w + creations w h in
  count_attempts reg' w = n /\
  map at_attempt_number (list_attempts_for_workload reg' w) = map Z.of_nat (seq 1 (Z.to_nat n)) /\
  map at_attempt_id (list_attempts_for_workload reg' w) = attempt_ids reg' w /\
  option_map at_attempt_number (get_latest_attempt reg' w) = (if n =? 0 then None else Some n) /\
  forall a r, get_attempt reg a = Some r ->
    exists r', get_attempt reg' a = Some r' /\ at_workload_id r' = at_workload_id r /\
      at_attempt_number r' = at_attempt_number r /\ at_queued_at r' = at_queued_at r.
Proof.
  intros Hwf reg' n. assert (attempts_wf reg') as Hwf' by by apply arun_wf.
  assert (count_attempts reg' w = n) as Hn by apply arun_count.
  destruct Hwf' as (_ & Hids & Hrec & _).
  assert (map at_attempt_number (list_attempts_for_workload reg' w) = map Z.of_nat (seq 1 (Z.to_nat n)) /\
          map at_attempt_id (list_attempts_for_workload reg' w) = attempt_ids reg' w) as [Hnum Hid].
  { unfold list_attempts_for_workload. rewrite Hids. unfold attempt_id_seq.
    replace (length (attempt_ids reg' w)) with (Z.to_nat n) by (rewrite <- Hn; unfold count_attempts; lia).
    assert (forall k, In k (seq 1 (Z.to_nat n)) -> 1 <= Z.of_nat k <= count_attempts reg' w) as Hin.
    { intros k Hk%in_seq. lia. }
    revert Hin. generalize (seq 1 (Z.to_nat n)) as ks. intros ks Hin.
    induction ks as [|k ks IH]; [done|]. simpl.
    destruct (Hrec w (Z.of_nat k)) as (r & Hr & Ha & _ & Hk); [apply Hin; by left|].
    rewrite Hr. simpl. rewrite Ha, Hk. destruct IH as [E1 E2]; [intros; apply Hin; by right|].
    split; f_equal; [exact E1|exact E2]. }
  split_and!; [done..| |intros a r; by apply arun_keeps].
  unfold get_latest_attempt. rewrite <- fmap_last. change (fmap ?f ?l) with (map f l). rewrite Hnum.
  pose proof (count_nonneg reg' w) as Hnn. rewrite Hn in Hnn.
  destruct (Z.eqb_spec n 0) as [->|]; [done|].
  replace (Z.to_nat n) with (Datatypes.S (Z.to_nat (n - 1))) by lia.
  rewrite seq_S, map_app, last_app. simpl. f_equal. lia.
Qed.

(** Recovery restores the index.  Restoring the records of a registry one
    by one into an empty one, in whatever order the store returns them, gives
    back the same attempt under every id and the same creation-order list for
    every workload, so the next attempt gets the next number. *)
Theorem restore_attempts_roundtrip reg rows (st : option S) :
  attempts_wf reg -> Permutation rows (list_attempts reg) ->
  let reg' := restore_all rows (empty_attempts st) in
  attempts_wf reg' /\
  (forall a, get_attempt reg' a = get_attempt reg a) /\
  (forall w, attempt_ids reg' w = attempt_ids reg w).
Proof.
  intros Hwf Hp reg'.
  assert (forall x, x ∈ rows <-> get_attempt reg (at_attempt_id x) = Some x) as Hrows.
  { intros x. rewrite Hp. unfold list_attempts. rewrite od_values_elem by apply Hwf. split.
    - intros [k Hk]. by rewrite (attempts_wf_get_id reg k x Hwf Hk).
    - intros Hx. by exists (at_attempt_id x). }
  assert (NoDup (map at_attempt_id rows)) as Hnd.
  { rewrite Hp. unfold list_attempts. rewrite attempts_values_ids by done. apply Hwf. }
  destruct (restore_all_restored reg rows st (fun x => proj1 (Hrows x)) Hnd) as (Hod & Hget & Hids).
  assert (forall a, get_attempt reg' a = get_attempt reg a) as Hsame.
  { intros a. apply option_eq. intros x. unfold reg'. rewrite Hget, Hrows. split.
    - by intros [Hx <-].
    - intros Hx. by rewrite (attempts_wf_get_id reg a x Hwf Hx). }
  assert (forall w, attempt_ids reg' w = attempt_ids reg w) as Hsameids.
  { intros w. destruct (Hids w) as (Hn & Hs & He).
    apply (StronglySorted_unique_strong (fun a b => num_in reg a <= num_in reg b)).
    - intros a b Ha Hb Hab Hba. apply He in Ha as (ra & Hra & <- & Hwa).
      apply (attempt_ids_elem reg w) in Hb as (rb & Hrb & Hwb); [|done].
      apply Hrows in Hra. destruct Hwf as (_ & _ & _ & Hall).
      destruct (Hall _ _ Hra) as [_ Ea], (Hall _ _ Hrb) as [_ Eb].
      unfold num_in, attempt_number_of, get_attempt in *. rewrite Hra, Hrb in Hab, Hba.
      rewrite Ea, Eb, Hwa, Hwb. f_equal. lia.
    - done.
    - by apply attempt_ids_sorted.
    - apply NoDup_Permutation; [done|by apply attempt_ids_NoDup|]. intros a.
      unfold reg'. rewrite He, (attempt_ids_elem reg w a Hwf). setoid_rewrite Hrows. split.
      + intros (r & Hr & <- & Hw). eauto.
      + intros (r & Hr & Hw). exists r. by rewrite (attempts_wf_get_id reg a r Hwf Hr). }
  split_and!; [|done|done].
  destruct Hwf as (_ & W2 & W3 & W4). unfold attempts_wf, count_attempts in *.
  split_and!; [done|..].
  - intros w. by rewrite Hsameids.
  - intros w i. rewrite Hsameids, Hsame. apply W3.
  - intros a r. rewrite Hsame, Hsameids. apply W4.
Qed.

(** Losing a worker.  If every write succeeds, [handle_worker_lost] turns
    exactly the assigned or running attempts of the worker (its own and those
    of its execution groups) into LOST ones with category
    [WORKER_UNAVAILABLE], afterwards no attempt runs on the worker, and every
    other attempt is untouched (the latter even if a write fails). *)
Theorem lost_worker_drained now w reg :
  attempts_wf reg ->
  let reg' := fst (handle_worker_lost now w reg) in
  attempts_wf reg' /\
  (forall a, match get_attempt reg a with
             | Some r => attempt_runs_on w r = false -> get_attempt reg' a = Some r
             | None => get_attempt reg' a = None
             end) /\
  (snd (handle_worker_lost now w reg) = Ok tt ->
   list_running_attempts_for_worker reg' w = [] /\
   forall a r, get_attempt reg a = Some r -> attempt_runs_on w r = true ->
     get_attempt reg' a = Some (mut_lost now (lost_reason w) [w] r)).
Proof.
  intros Hwf reg'. assert (attempts_wf reg') as Hwf' by by apply mark_all_lost_wf.
  split_and!; [done| |].
  - intros a. assert (a ∉ map at_attempt_id (list_running_attempts_for_worker reg w) ->
      get_attempt reg' a = get_attempt reg a) as Hother by apply mark_all_lost_others.
    rewrite running_ids in Hother by done.
    destruct (get_attempt reg a) as [r|]; [intros Hr|]; apply Hother; intros (r' & [= <-] & Hr'); congruence.
  - intros Hok.
    assert (forall a, get_attempt reg' a =
      if bool_decide (a ∈ map at_attempt_id (list_running_attempts_for_worker reg w))
      then option_map (mut_lost now (lost_reason w) [w]) (get_attempt reg a) else get_attempt reg a) as Hget.
    { intros a. apply mark_all_lost_get; [done|]. apply filter_map_NoDup.
      rewrite attempts_values_ids by done. apply Hwf. }
    split.
    + destruct (list_running_attempts_for_worker reg' w) as [|r l] eqn:E; [done|].
      assert (r ∈ list_running_attempts_for_worker reg' w) as Hr by (rewrite E; left).
      apply running_elem in Hr as [Hr Hw]; [|done]. rewrite Hget in Hr. case_bool_decide as Hin.
      * destruct (get_attempt reg (at_attempt_id r)) as [r0|]; [|done]. simpl in Hr. injection Hr as <-.
        unfold attempt_runs_on in Hw. apply andb_true_iff in Hw as [_ Hw].
        apply bool_decide_eq_true in Hw. simpl in Hw. by destruct Hw.
      * destruct Hin. apply running_ids; [done|]. by exists r.
    + intros a r Hr Hw. rewrite Hget, Hr, bool_decide_eq_true_2; [done|].
      apply running_ids; [done|]. by exists r.
Qed.

(** What a checkpoint is worth.  After [mark_succeeded], an attempt whose
    result carries a checkpoint hash validates exactly when the checkpoint has
    format version 1 and the store has the hash; the version is judged before
    the hash is looked up; a result without a checkpoint leaves the verdict as
    it was. *)
Theorem checkpoint_verdict_after_success now x r has :
  validate_checkpoint (mut_succeeded now x r) has =
  match er_was_checkpointed x, er_checkpoint_hash x with
  | true, Some h =>
      if String.eqb h "" then validate_checkpoint r has
      else match er_checkpoint_format_version x with
           | Some v => if v =? 1 then if has h then CkValid else CkMissing h else CkVersion (Some v)
           | None => CkVersion None
           end
  | _, _ => validate_checkpoint r has
  end.
Proof.
  unfold validate_checkpoint, mut_succeeded. simpl. unfold opt_truthy, str_truthy.
  destruct (er_was_checkpointed x); [|done]. destruct (er_checkpoint_hash x) as [h|]; [|done].
  destruct (String.eqb h ""); simpl; [done|].
  destruct (er_checkpoint_format_version x) as [v|]; [|done].
  unfold CURRENT_CHECKPOINT_FORMAT_VERSION. destruct (Z.eqb_spec v 1) as [->|Hv].
  - rewrite bool_decide_eq_true_2 by done. by destruct (has h).
  - by rewrite bool_decide_eq_false_2 by congruence.
Qed.
End attempt_properties.

(** ** Witnesses, and what restoring a gap does *)

Definition witness_attempts : attempts (mem_store attempt_record) :=
  arun [(f0, ACreate "w" None None None); (f1, AAssigned "w#1" "n1"); (f1, ACreate "w" (Some "n2") None None);
        (f1, ACreate "v" None None None)] (empty_attempts (Some (Build_mem_store [] []))).

Lemma witness_attempts_wf : attempts_wf witness_attempts.
Proof. apply arun_wf, attempts_wf_empty. Defined.

Lemma attempts_numbered_witness :
  attempts_wf witness_attempts /\
  map at_attempt_number (list_attempts_for_workload
    (arun [(f1, ACreate "w" None None None)] witness_attempts) "w") = [1; 2; 3].
Proof.
  split; [exact witness_attempts_wf|].
  exact (proj1 (proj2 (attempts_numbered_in_order [(f1, ACreate "w" None None None)]
    witness_attempts "w" witness_attempts_wf))).
Defined.

Lemma restore_attempts_witness :
  let reg' := restore_all (rev (list_attempts witness_attempts)) (empty_attempts None) in
  attempts_wf reg' /\
  (forall a, get_attempt (S := mem_store attempt_record) reg' a = get_attempt witness_attempts a) /\
  (forall w, attempt_ids reg' w = attempt_ids witness_attempts w).
Proof.
  apply (restore_attempts_roundtrip witness_attempts (rev (list_attempts witness_attempts)) None).
  - exact witness_attempts_wf.
  - apply Permutation_sym, Permutation_rev.
Defined.

Lemma lost_worker_witness :
  snd (handle_worker_lost f1 "n1" witness_attempts) = Ok tt /\
  list_running_attempts_for_worker witness_attempts "n1" <> [] /\
  list_running_attempts_for_worker (fst (handle_worker_lost f1 "n1" witness_attempts)) "n1" = [].
Proof.
  split_and!; [reflexivity|discriminate|].
  exact (proj1 (proj2 (proj2 (lost_worker_drained f1 "n1" witness_attempts witness_attempts_wf)) eq_refl)).
Defined.

(** The number is the length of the index, not the last number: when the store
    lost the row of attempt 1, the next attempt takes the id of attempt 2 and
    overwrites its record. *)
Example restored_gap_overwrites :
  let reg := restore_attempt (new_attempt f0 "w" 2 (Some "n9") None None) (empty_attempts (S := mem_store attempt_record) None) in
  option_map at_worker_id (get_attempt reg "w#2") = Some (Some "n9") /\
  option_map at_worker_id (get_attempt (fst (create_attempt f1 "w" None None None reg)) "w#2") = Some None.
Proof. split; reflexivity. Qed.

(** A terminal attempt is not frozen: a late success of a LOST attempt is
    applied. *)
Example lost_then_succeeded :
  let reg := arun [(f0, ACreate "w" None None None); (f0, ALost "w#1" "gone" []); (f1, ARunning "w#1")]
    (empty_attempts (S := mem_store attempt_record) None) in
  option_map at_status (get_attempt reg "w#1") = Some RUNNING /\ LOST ∈ TERMINAL_ATTEMPT_STATUSES.
Proof. split; [reflexivity|]. unfold TERMINAL_ATTEMPT_STATUSES. set_solver. Qed.
