(* ===== verification/JobGraph.v ===== *)
(** * Execution plans and their dependency graph ([distributed/models.py])

    [_validate_dependency_graph] walks the dependencies of a pipeline depth
    first, with the set of nodes on the stack and the set of nodes already
    done; [ExecutionDescription.validate_plan] accepts an adapter's plan.  The
    recursion is Python's own, so [visit] takes the interpreter's recursion
    limit and raises [RecursionError] when it is used up. *)
From S2P Require Export Models.

(** The graph: the dictionary from workload ids to their dependencies. *)
Abbreviation graph := (odict (list string)).

Definition dependencies_of (deps : graph) (node : string) : list string := od_get_default node [] deps.

(** [visit]: the two sets after the call. *)
Fixpoint visit (limit : nat) (deps : graph) (node : string) (visiting visited : gset string)
  : res (gset string * gset string) :=
  match limit with
  | O => Err RecursionError
  | S limit =>
      if bool_decide (node ∈ visiting) then Err (ValueError "execution dependencies must not contain cycles")
      else if bool_decide (node ∈ visited) then Ok (visiting, visited)
      else
        let! s := res_fold (fun s dependency =>
                              if od_mem dependency deps then visit limit deps dependency (fst s) (snd s)
                              else Err (ValueError "unknown workload dependency"))
                           ({[node]} ∪ visiting, visited) (dependencies_of deps node) in
        Ok (fst s ∖ {[node]}, {[node]} ∪ snd s)
  end.

Definition validate_dependency_graph (limit : nat) (deps : graph) : res unit :=
  let! _ := res_fold (fun s node => visit limit deps node (fst s) (snd s)) (∅, ∅) (od_keys deps) in
  Ok tt.

(** [{item.workload_id: item.depends_on for item in workloads}]. *)
Definition graph_of (specs : list workload_spec) : graph :=
  fold_left (fun d s => od_set (ws_workload_id s) (ws_depends_on s) d) specs [].

(** The checks a pipeline must pass, shared by [validate_plan] and
    [submit_job]; [scope] is the word of the second message. *)
Definition check_pipeline (limit : nat) (scope : string) (specs : list workload_spec) : res unit :=
  let ids := map ws_workload_id specs in
  if bool_decide (length specs < 2)%nat || forallb (fun s => bool_decide (ws_depends_on s = [])) specs then
    Err (ValueError "PIPELINE requires multiple workloads and at least one dependency")
  else if existsb (fun s => existsb (fun d => negb (bool_decide (d ∈ ids))) (ws_depends_on s)) specs then
    Err (ValueError ("pipeline dependencies must refer to workloads in the same " +:+ scope))
  else validate_dependency_graph limit (graph_of specs).

(** [ExecutionDescription], fields checked first, then [validate_plan]. *)
Record execution_description := {
  ed_execution_shape : execution_shape;
  ed_workloads : list workload_spec;
  ed_required_worker_count : Z;
}.

Definition validate_plan (limit : nat) (d : execution_description) : res execution_description :=
  let specs := ed_workloads d in
  let n := ed_required_worker_count d in
  let shape := ed_execution_shape d in
  if bool_decide (specs = []) || (n <? 1) || (64 <? n) then Err (ValueError "validation error")
  else if bool_decide (shape = DISTRIBUTED_NATIVE) && (negb (bool_decide (length specs = 1%nat)) || (n <? 2)) then
    Err (ValueError "DISTRIBUTED_NATIVE requires one workload and at least two workers")
  else if negb (bool_decide (shape = DISTRIBUTED_NATIVE)) && negb (n =? 1) then
    Err (ValueError "required_worker_count is only valid for DISTRIBUTED_NATIVE")
  else if bool_decide (shape = SINGLE_MACHINE) && negb (bool_decide (length specs = 1%nat)) then
    Err (ValueError "SINGLE_MACHINE requires exactly one workload")
  else if bool_decide (shape = PIPELINE) then
    let! _ := check_pipeline limit "execution" specs in Ok d
  else Ok d.

(** ** The graph as a relation *)

Definition depends (deps : graph) (a b : string) : Prop := b ∈ dependencies_of deps a.
Definition acyclic (deps : graph) : Prop := forall a, ~ tc (depends deps) a a.
Definition closed (deps : graph) : Prop :=
  forall a b, depends deps a b -> od_mem b deps = true.

Lemma depends_key deps a b : depends deps a b -> od_mem a deps = true.
Proof.
  unfold depends, dependencies_of, od_get_default, od_mem. destruct (od_get a deps); [done|].
  intros H. by apply not_elem_of_nil in H.
Qed.

Lemma tc_depends_key deps a b : tc (depends deps) a b -> od_mem a deps = true.
Proof. induction 1 as [a b H|a b c H]; by eapply depends_key. Qed.

Lemma size_list_to_set_le (l : list string) : (size (list_to_set l : gset string) <= length l)%nat.
Proof.
  induction l as [|a l IH]; [done|]. cbn [list_to_set foldr length].
  pose proof (size_union_alt {[a]} (list_to_set l : gset string)) as H.
  assert (size (list_to_set l ∖ {[a]} : gset string) <= size (list_to_set l : gset string))%nat
    by (apply subseteq_size; set_solver).
  rewrite H, size_singleton. lia.
Qed.

Section walk.
Context (deps : graph).
Abbreviation E := (depends deps).
Abbreviation keys := (list_to_set (od_keys deps) : gset string).

(** What the finished nodes satisfy: known, none on a cycle, closed under
    dependencies. *)
Definition finished (done : gset string) : Prop :=
  forall a, a ∈ done -> od_mem a deps = true /\ ~ tc E a a /\ forall b, E a b -> b ∈ done.

Definition bad : Prop := (exists a, tc E a a) \/ exists a b, E a b /\ od_mem b deps = false.

(** What a call may return, from the sets [(visiting, visited)], when it is to
    finish the nodes of [l]. *)
Definition walked (visiting visited : gset string) (l : list string) (r : res (gset string * gset string)) : Prop :=
  match r with
  | Ok (visiting', visited') =>
      visiting' = visiting /\ visited ⊆ visited' /\ visiting ## visited' /\ finished visited' /\
      forall a, a ∈ l -> a ∈ visited'
  | Err e => (exists m, e = ValueError m) /\ bad
  end.

Lemma keys_mem a : a ∈ keys <-> od_mem a deps = true.
Proof.
  rewrite elem_of_list_to_set. unfold od_mem. destruct (od_get a deps) eqn:H.
  - split; [done|intros _]. destruct (decide (a ∈ od_keys deps)) as [|Hn]; [done|].
    apply od_get_None_keys in Hn. congruence.
  - split; [|done]. intros Hin. by apply od_get_None_keys in H.
Qed.

Lemma tc_finished done a b : finished done -> a ∈ done -> tc E a b -> b ∈ done.
Proof. intros Hf Ha Hab. induction Hab as [a b H|a b c H _ IH]; [|apply IH]; by apply (Hf a Ha). Qed.

Lemma room_shrinks node visiting :
  od_mem node deps = true -> node ∉ visiting ->
  (size (keys ∖ ({[node]} ∪ visiting)) < size (keys ∖ visiting))%nat.
Proof. intros Hk%keys_mem Hn. apply subset_size. set_solver. Qed.

(** Walking a list of nodes, given that walking each one is right. *)
Lemma walk_list (f : gset string * gset string -> string -> res (gset string * gset string)) l visiting visited :
  (forall a visited, a ∈ l -> visiting ## visited -> finished visited ->
     walked visiting visited [a] (f (visiting, visited) a)) ->
  visiting ## visited -> finished visited ->
  walked visiting visited l (res_fold f (visiting, visited) l).
Proof.
  revert visited. induction l as [|a l IH]; intros visited Hf Hd Hfin; simpl.
  { split_and!; [done..|]. intros a Ha. by apply not_elem_of_nil in Ha. }
  specialize (Hf a visited ltac:(left) Hd Hfin) as Ha.
  destruct (f (visiting, visited) a) as [[vi vd]|e]; simpl; [|done].
  destruct Ha as (-> & Hsub & Hd' & Hfin' & Hin).
  specialize (IH vd ltac:(intros; apply Hf; [by right|done..]) Hd' Hfin').
  destruct (res_fold f (visiting, vd) l) as [[vi' vd']|e']; [|done]. simpl in IH |- *.
  destruct IH as (-> & Hsub' & Hd'' & Hfin'' & Hin'). split_and!; [done|set_solver|done..|].
  intros b [->|Hb]%elem_of_cons; [|auto]. apply Hsub', Hin. left.
Qed.

Lemma finish_node node visiting visited :
  od_mem node deps = true -> node ∉ visiting -> {[node]} ∪ visiting ## visited -> finished visited ->
  (forall a, E node a -> a ∈ visited) -> finished ({[node]} ∪ visited).
Proof.
  intros Hk Hn Hd Hf Hdeps a [->%elem_of_singleton|Ha]%elem_of_union.
  - split_and!; [done| |intros b Hb; set_solver].
    intros Hc. assert (node ∈ visited) as Hin; [|set_solver].
    inversion Hc as [? ? H1|? b ? H1 H2]; subst; [by apply Hdeps|].
    apply (tc_finished visited b); auto.
  - destruct (Hf a Ha) as (? & ? & Hc). split_and!; [done..|]. intros b Hb. specialize (Hc b Hb). set_solver.
Qed.

Lemma visit_walks limit node visiting visited :
  (size (keys ∖ visiting) < limit)%nat -> od_mem node deps = true ->
  (forall v, v ∈ visiting -> tc E v node) -> visiting ## visited -> finished visited ->
  walked visiting visited [node] (visit limit deps node visiting visited).
Proof.
  revert node visiting visited. induction limit as [|limit IH]; intros node visiting visited Hroom Hk Hpath Hd Hf;
    [lia|]. cbn [visit].
  case_bool_decide as Hvi; [split; [eauto|left; eauto]|].
  case_bool_decide as Hvd.
  { split_and!; [done..|]. intros a ->%list_elem_of_singleton. done. }
  pose proof (room_shrinks node visiting Hk Hvi) as Hless.
  set (f := fun s dependency => if od_mem dependency deps then _ else _).
  assert (walked ({[node]} ∪ visiting) visited (dependencies_of deps node)
            (res_fold f ({[node]} ∪ visiting, visited) (dependencies_of deps node))) as Hw.
  { apply walk_list; [|set_solver|done].
    intros a visited' Ha Hd' Hf'. unfold f. simpl. destruct (od_mem a deps) eqn:Hka.
    - apply IH; [lia|done| |done..].
      intros v [->%elem_of_singleton|Hv]%elem_of_union; [by apply tc_once|].
      eapply tc_r; [by apply Hpath|done].
    - split; [eauto|]. right. exists node, a. done. }
  destruct (res_fold f _ _) as [[vi vd]|e]; simpl; [|done].
  destruct Hw as (-> & Hsub & Hd' & Hf' & Hin). split_and!.
  - clear -Hvi. set_solver.
  - clear -Hsub. set_solver.
  - clear -Hd' Hvi. set_solver.
  - by apply (finish_node node visiting).
  - intros a ->%list_elem_of_singleton. clear. set_solver.
Qed.

Lemma finished_good done : finished done -> (forall a, a ∈ od_keys deps -> a ∈ done) -> closed deps /\ acyclic deps.
Proof.
  intros Hf Hall.
  assert (forall a, od_mem a deps = true -> a ∈ done) as Hkey
    by (intros a Ha; apply Hall; apply keys_mem in Ha; by apply elem_of_list_to_set in Ha).
  split.
  - intros a b Hab. apply (Hf b). apply (Hf a); [|done]. apply Hkey. by eapply depends_key.
  - intros a Ha. apply (Hf a); [|done]. apply Hkey. by eapply tc_depends_key.
Qed.

Lemma bad_not_good : bad -> ~ (closed deps /\ acyclic deps).
Proof. intros [[a Ha]|(a & b & Hab & Hb)] [Hc Hac]; [by apply (Hac a)|]. by rewrite (Hc a b Hab) in Hb. Qed.

Lemma validate_cases limit :
  (length deps < limit)%nat ->
  (validate_dependency_graph limit deps = Ok tt /\ closed deps /\ acyclic deps) \/
  (exists m, validate_dependency_graph limit deps = Err (ValueError m)) /\ bad.
Proof.
  intros Hlen. unfold validate_dependency_graph.
  assert (walked ∅ ∅ (od_keys deps)
            (res_fold (fun s node => visit limit deps node (fst s) (snd s)) (∅, ∅) (od_keys deps))) as Hw.
  { apply walk_list; [|done|intros a Ha; by apply elem_of_empty in Ha].
    intros a visited Ha Hd Hf. simpl. apply visit_walks; [| |intros v Hv; by apply elem_of_empty in Hv|done..].
    - enough (size (keys ∖ ∅) <= length deps)%nat by lia.
      rewrite difference_empty_L. replace (length deps) with (length (od_keys deps)) by apply length_map.
      apply size_list_to_set_le.
    - apply keys_mem. by apply elem_of_list_to_set. }
  destruct (res_fold _ _ _) as [[vi vd]|e]; simpl.
  - left. destruct Hw as (_ & _ & _ & Hf & Hin). split; [done|]. by apply (finished_good vd).
  - right. destruct Hw as [[m ->] Hb]. split; [by exists m|done].
Qed.
End walk.

(** C10: pipelines are accepted exactly when their graph is well founded.  If
    the interpreter's recursion limit exceeds the number of workloads,
    [_validate_dependency_graph] terminates without exhausting it: it accepts
    exactly the graphs all of whose dependencies are known and that have no
    cycle, and raises [ValueError] for every other one. *)
Theorem validate_dependency_graph_iff deps limit :
  (length deps < limit)%nat ->
  (validate_dependency_graph limit deps = Ok tt <-> closed deps /\ acyclic deps) /\
  (validate_dependency_graph limit deps <> Ok tt -> exists m, validate_dependency_graph limit deps = Err (ValueError m)).
Proof.
  intros Hlen. destruct (validate_cases deps limit Hlen) as [[-> Hg]|[[m ->] Hb]].
  - done.
  - split; [|eauto]. split; [done|]. intros Hg. by apply bad_not_good in Hg.
Qed.

(** A diamond with a chain under it. *)
Definition sample_graph : graph :=
  [("a", []); ("b", ["a"]); ("c", ["a"]); ("d", ["b"; "c"])]%string.

Lemma validate_dependency_graph_witness :
  (length sample_graph < 5)%nat /\ closed sample_graph /\ acyclic sample_graph.
Proof.
  assert (length sample_graph < 5)%nat as H by (simpl; lia). split; [exact H|].
  apply (validate_dependency_graph_iff sample_graph 5 H). vm_compute. reflexivity.
Defined.

Example cycle_refused :
  validate_dependency_graph 9 [("a", ["b"]); ("b", ["c"]); ("c", ["a"])]%string =
  Err (ValueError "execution dependencies must not contain cycles").
Proof. vm_compute. reflexivity. Qed.
