(* ===== verification/JobRegistry.v ===== *)
(** * Jobs ([distributed/job_registry.py])

    A job groups workloads under a completion policy; its state is derived on
    demand from the records of its members.  [jobs] is the [JobRegistry]
    object; what it needs of the workload registry is the interface
    [WorkloadLookup], which [WorkloadRegistry.registry] implements. *)
From S2P Require Export WorkloadRegistry.

Class WorkloadLookup (W : Type) := lookup_workload : W -> string -> option workload_record.
#[export] Instance registry_lookup {S} : WorkloadLookup (registry S) :=
  fun reg wid => get_workload reg wid.

Inductive completion_policy := ALL_REQUIRED | ANY_SUCCESS | THRESHOLD | BEST_EFFORT.
#[export] Instance completion_policy_eq_dec : EqDecision completion_policy.
Proof. solve_decision. Defined.

Inductive job_state :=
| JS_SUBMITTED | JS_RUNNING | JS_PARTIALLY_COMPLETED | JS_COMPLETED | JS_FAILED | JS_CANCELLED.
#[export] Instance job_state_eq_dec : EqDecision job_state.
Proof. solve_decision. Defined.

Definition FAILED_WORKLOAD_STATES : list workload_state := [FAILED; UNSCHEDULABLE; CANCELLED].
Definition PENDING_WORKLOAD_STATES : list workload_state := [SUBMITTED; VALIDATING; PLACING].
Definition RUNNING_WORKLOAD_STATES : list workload_state :=
  [PLACED; MIGRATING; EXECUTING; SYNCING_ASSETS; INGESTING; CANCELLATION_REQUESTED].

Record job_aggregate := {
  ja_job_id : string;
  ja_total : Z;
  ja_completed : Z;
  ja_failed : Z;
  ja_pending : Z;
  ja_running : Z;
  ja_state : job_state;
  ja_output_asset_hashes : gset string;
}.

Definition ja_is_terminal (a : job_aggregate) : bool :=
  bool_decide (ja_state a ∈ [JS_COMPLETED; JS_FAILED; JS_PARTIALLY_COMPLETED]).

Record job_record := {
  jr_job_id : string;
  jr_workload_ids : gset string;
  jr_completion_policy : completion_policy;
  jr_threshold : option Z;
  jr_execution_shape : execution_shape;
  jr_required_worker_count : Z;
  jr_selected_worker_ids : option (list string);
  jr_spare_worker_ids : option (list string);
  jr_created_at : float;
}.

(** [sorted(ids) if ids else None]. *)
Definition sorted_or_none (ids : option (list string)) : option (list string) :=
  match ids with
  | None | Some [] => None
  | Some l => Some (isort str_lt l)
  end.

(** [JobRecord.__init__]. *)
Definition new_job_record (now : float) (job_id : string) (workload_ids : gset string)
    (policy : completion_policy) (threshold : option Z) (shape : execution_shape)
    (required_worker_count : Z) (selected spare : option (list string)) : res job_record :=
  let no_threshold := match threshold with None => true | Some t => t =? 0 end in
  let n := Z.of_nat (size workload_ids) in
  if bool_decide (policy = THRESHOLD) && no_threshold then
    Err (ValueError "THRESHOLD completion policy requires a positive threshold")
  else
    let ok := Ok {| jr_job_id := job_id; jr_workload_ids := workload_ids;
                    jr_completion_policy := policy; jr_threshold := threshold;
                    jr_execution_shape := shape; jr_required_worker_count := required_worker_count;
                    jr_selected_worker_ids := sorted_or_none selected;
                    jr_spare_worker_ids := sorted_or_none spare; jr_created_at := now |} in
    if bool_decide (shape = DISTRIBUTED_NATIVE) then
      if negb (n =? 1) || (required_worker_count <? 2) || (64 <? required_worker_count) then
        Err (ValueError "DISTRIBUTED_NATIVE requires one workload and 2 to 64 workers")
      else ok
    else if negb (required_worker_count =? 1) then
      Err (ValueError "required_worker_count is only valid for DISTRIBUTED_NATIVE")
    else if bool_decide (shape = SINGLE_MACHINE) && negb (n =? 1) then
      Err (ValueError "SINGLE_MACHINE requires exactly one workload")
    else ok.

(** ** Deriving the state *)

Record tally := { t_total : Z; t_completed : Z; t_failed : Z; t_pending : Z; t_running : Z; t_outputs : gset string }.
Definition tally0 : tally :=
  {| t_total := 0; t_completed := 0; t_failed := 0; t_pending := 0; t_running := 0; t_outputs := ∅ |}.

(** One turn of the loop of [get_aggregate]. *)
Definition tally_workload (t : tally) (o : option workload_record) : tally :=
  match o with
  | None =>
      {| t_total := t_total t + 1; t_completed := t_completed t; t_failed := t_failed t;
         t_pending := t_pending t + 1; t_running := t_running t; t_outputs := t_outputs t |}
  | Some r =>
      let st := wr_state r in
      if bool_decide (st = COMPLETED) then
        {| t_total := t_total t + 1; t_completed := t_completed t + 1; t_failed := t_failed t;
           t_pending := t_pending t; t_running := t_running t;
           t_outputs := match wr_execution_result r with
                        | Some x => t_outputs t ∪ er_output_asset_hashes x
                        | None => t_outputs t
                        end |}
      else if bool_decide (st ∈ FAILED_WORKLOAD_STATES) then
        {| t_total := t_total t + 1; t_completed := t_completed t; t_failed := t_failed t + 1;
           t_pending := t_pending t; t_running := t_running t; t_outputs := t_outputs t |}
      else if bool_decide (st ∈ RUNNING_WORKLOAD_STATES) then
        {| t_total := t_total t + 1; t_completed := t_completed t; t_failed := t_failed t;
           t_pending := t_pending t; t_running := t_running t + 1; t_outputs := t_outputs t |}
      else
        {| t_total := t_total t + 1; t_completed := t_completed t; t_failed := t_failed t;
           t_pending := t_pending t + 1; t_running := t_running t; t_outputs := t_outputs t |}
  end.

(** [_derive_state]; the policy is a closed enumeration, so the final [raise]
    is unreachable. *)
Definition derive_state (job : job_record) (total completed failed pending running : Z) : job_state :=
  if total =? 0 then JS_SUBMITTED
  else if 0 <? pending + running then
    if (completed =? 0) && (failed =? 0) && (running =? 0) then JS_SUBMITTED else JS_RUNNING
  else
    match jr_completion_policy job with
    | ALL_REQUIRED => if failed =? 0 then JS_COMPLETED else JS_FAILED
    | ANY_SUCCESS => if 0 <? completed then JS_COMPLETED else JS_FAILED
    | THRESHOLD => if default 0 (jr_threshold job) <=? completed then JS_COMPLETED else JS_FAILED
    | BEST_EFFORT =>
        if completed =? total then JS_COMPLETED
        else if 0 <? completed then JS_PARTIALLY_COMPLETED else JS_FAILED
    end.

Section job_registry.
Context {S : Type} `{RecordStore S job_record} {W : Type} `{WorkloadLookup W}.

Record jobs := { jb_jobs : odict job_record; jb_store : option S }.

Definition get_job (reg : jobs) (job_id : string) : option job_record := od_get job_id (jb_jobs reg).
Definition list_jobs (reg : jobs) : list job_record := od_values (jb_jobs reg).

Definition create_job (now : float) (job_id : string) (workload_ids : gset string)
    (policy : completion_policy) (threshold : option Z) (shape : execution_shape)
    (required_worker_count : Z) (selected spare : option (list string)) (reg : jobs)
  : jobs * res job_record :=
  match get_job reg job_id with
  | Some job => (reg, Ok job)
  | None =>
      match new_job_record now job_id workload_ids policy threshold shape required_worker_count selected spare with
      | Err e => (reg, Err e)
      | Ok r =>
          ({| jb_jobs := od_set job_id r (jb_jobs reg); jb_store := persist_store (jb_store reg) r |},
           persist_result (jb_store reg) r r)
      end
  end.

Definition restore_job (r : job_record) (reg : jobs) : jobs :=
  {| jb_jobs := od_set (jr_job_id r) r (jb_jobs reg); jb_store := jb_store reg |}.

Definition tally_job (wl : W) (job : job_record) : tally :=
  fold_left (fun t wid => tally_workload t (lookup_workload wl wid)) (elements (jr_workload_ids job)) tally0.

Definition get_aggregate (wl : W) (reg : jobs) (job_id : string) : option job_aggregate :=
  match get_job reg job_id with
  | None => None
  | Some job =>
      let t := tally_job wl job in
      Some {| ja_job_id := job_id; ja_total := t_total t; ja_completed := t_completed t;
              ja_failed := t_failed t; ja_pending := t_pending t; ja_running := t_running t;
              ja_state := derive_state job (t_total t) (t_completed t) (t_failed t) (t_pending t) (t_running t);
              ja_output_asset_hashes := t_outputs t |}
  end.
End job_registry.
Arguments jobs S : clear implicits.

(** ** The tally of a job *)

Inductive bucket := B_COMPLETED | B_FAILED | B_RUNNING | B_PENDING.
#[export] Instance bucket_eq_dec : EqDecision bucket.
Proof. solve_decision. Defined.

(** The bucket a member falls into: an unknown workload counts as pending. *)
Definition bucket_of (o : option workload_record) : bucket :=
  match o with
  | None => B_PENDING
  | Some r =>
      match wr_state r with
      | COMPLETED => B_COMPLETED
      | FAILED | UNSCHEDULABLE | CANCELLED => B_FAILED
      | PLACED | MIGRATING | EXECUTING | SYNCING_ASSETS | INGESTING | CANCELLATION_REQUESTED => B_RUNNING
      | SUBMITTED | VALIDATING | PLACING | READY | TIMEOUT => B_PENDING
      end
  end.

Section tally_proofs.
Context {W : Type} `{WorkloadLookup W} (wl : W).

Definition members_in (b : bucket) (l : list string) : Z :=
  Z.of_nat (length (List.filter (fun wid => bool_decide (bucket_of (lookup_workload wl wid) = b)) l)).

Definition outputs_of (l : list string) : gset string :=
  ⋃ (map (fun wid => match lookup_workload wl wid with
                     | Some r => match wr_state r, wr_execution_result r with
                                 | COMPLETED, Some x => er_output_asset_hashes x
                                 | _, _ => ∅
                                 end
                     | None => ∅
                     end) l).

Lemma tally_workload_spec t o :
  let t' := tally_workload t o in
  t_total t' = t_total t + 1 /\
  t_completed t' = t_completed t + (if decide (bucket_of o = B_COMPLETED) then 1 else 0) /\
  t_failed t' = t_failed t + (if decide (bucket_of o = B_FAILED) then 1 else 0) /\
  t_running t' = t_running t + (if decide (bucket_of o = B_RUNNING) then 1 else 0) /\
  t_pending t' = t_pending t + (if decide (bucket_of o = B_PENDING) then 1 else 0).
Proof.
  destruct o as [r|]; simpl; [|split_and!; lia].
  unfold tally_workload, bucket_of. destruct (wr_state r); eval_decide; simpl; split_and!; lia.
Qed.

Lemma tally_fold l t :
  let t' := fold_left (fun t wid => tally_workload t (lookup_workload wl wid)) l t in
  t_total t' = t_total t + Z.of_nat (length l) /\
  t_completed t' = t_completed t + members_in B_COMPLETED l /\
  t_failed t' = t_failed t + members_in B_FAILED l /\
  t_running t' = t_running t + members_in B_RUNNING l /\
  t_pending t' = t_pending t + members_in B_PENDING l /\
  t_outputs t' = t_outputs t ∪ outputs_of l.
Proof.
  revert t. induction l as [|wid l IH]; intros t; simpl.
  { unfold members_in, outputs_of. simpl. split_and!; [lia..|set_solver]. }
  destruct (IH (tally_workload t (lookup_workload wl wid))) as (-> & -> & -> & -> & -> & ->).
  destruct (tally_workload_spec t (lookup_workload wl wid)) as (-> & -> & -> & -> & ->).
  unfold members_in. simpl.
  split_and!; [lia| | | | |].
  1-4: match goal with |- context [decide ?P] => destruct (decide P) as [Hd|Hd] end;
    [rewrite (bool_decide_eq_true_2 _ Hd)|rewrite (bool_decide_eq_false_2 _ Hd)]; simpl length; lia.
  unfold outputs_of. simpl. rewrite (assoc_L (∪)). f_equal.
  unfold tally_workload. destruct (lookup_workload wl wid) as [r|]; [|by rewrite union_empty_r_L].
  destruct (wr_state r); eval_decide; simpl; try (by rewrite union_empty_r_L).
  destruct (wr_execution_result r); [done|by rewrite union_empty_r_L].
Qed.

Lemma members_in_total l :
  members_in B_COMPLETED l + members_in B_FAILED l + members_in B_RUNNING l + members_in B_PENDING l
  = Z.of_nat (length l).
Proof.
  unfold members_in. induction l as [|wid l IH]; simpl; [done|].
  destruct (bucket_of (lookup_workload wl wid)); simpl length; lia.
Qed.

Lemma members_in_pos b l : 0 < members_in b l <-> exists wid, wid ∈ l /\ bucket_of (lookup_workload wl wid) = b.
Proof.
  unfold members_in. induction l as [|wid l IH]; simpl.
  - split; [lia|]. intros (? & Hin & _). inversion Hin.
  - case_bool_decide as Hb; simpl length; split.
    + intros _. exists wid. split; [left|done].
    + lia.
    + intros (w & Hw & He)%IH. exists w. split; [by right|done].
    + intros (w & Hw & He). apply elem_of_cons in Hw as [->|Hw]; [done|]. apply IH. eauto.
Qed.

Lemma members_in_nonneg b l : 0 <= members_in b l.
Proof. unfold members_in. lia. Qed.
End tally_proofs.

(** ** Properties *)

Section job_properties.
Context {S : Type} `{RecordStoreLaws S job_record} {W : Type} `{WorkloadLookup W}.
Implicit Types reg : jobs S.

(** Every member is known and in one of the registry's terminal states. *)
Definition all_finished (wl : W) (job : job_record) : Prop :=
  forall wid, wid ∈ jr_workload_ids job ->
    exists r, lookup_workload wl wid = Some r /\ wr_state r ∈ TERMINAL_WORKLOAD_STATES.

Definition completed_member (wl : W) (job : job_record) (wid : string) : Prop :=
  wid ∈ jr_workload_ids job /\ bucket_of (lookup_workload wl wid) = B_COMPLETED.

(** What the policy of a finished job asks of its members. *)
Definition policy_met (wl : W) (job : job_record) (completed : Z) : Prop :=
  match jr_completion_policy job with
  | ALL_REQUIRED | BEST_EFFORT => forall wid, wid ∈ jr_workload_ids job -> completed_member wl job wid
  | ANY_SUCCESS => exists wid, completed_member wl job wid
  | THRESHOLD => default 0 (jr_threshold job) <= completed
  end.

Lemma terminal_bucket o :
  (exists r, o = Some r /\ wr_state r ∈ TERMINAL_WORKLOAD_STATES) <->
  bucket_of o = B_COMPLETED \/ bucket_of o = B_FAILED.
Proof.
  unfold TERMINAL_WORKLOAD_STATES. split.
  - intros (r & -> & Hr). unfold bucket_of. repeat (apply elem_of_cons in Hr as [->|Hr]; [auto|]). inversion Hr.
  - destruct o as [r|]; simpl; [|by intros [|]]. intros Hb. exists r. split; [done|].
    destruct (wr_state r); first [by destruct Hb | apply (bool_decide_eq_true_1 _); reflexivity].
Qed.

(** All members are finished exactly when nothing is pending or running. *)
Lemma all_finished_counts wl job :
  all_finished wl job <->
  members_in wl B_PENDING (elements (jr_workload_ids job)) +
  members_in wl B_RUNNING (elements (jr_workload_ids job)) = 0.
Proof.
  set (l := elements (jr_workload_ids job)).
  pose proof (members_in_nonneg wl B_PENDING l). pose proof (members_in_nonneg wl B_RUNNING l).
  unfold all_finished. setoid_rewrite terminal_bucket. split.
  - intros Hall.
    destruct (decide (0 < members_in wl B_PENDING l)) as [(w & Hw & Hb)%members_in_pos|].
    { apply elem_of_elements in Hw. destruct (Hall w Hw); congruence. }
    destruct (decide (0 < members_in wl B_RUNNING l)) as [(w & Hw & Hb)%members_in_pos|]; [|lia].
    apply elem_of_elements in Hw. destruct (Hall w Hw); congruence.
  - intros Hz wid Hw. apply elem_of_elements in Hw. fold l in Hw.
    destruct (bucket_of (lookup_workload wl wid)) eqn:E; auto.
    + assert (0 < members_in wl B_RUNNING l); [|lia]. apply members_in_pos. eauto.
    + assert (0 < members_in wl B_PENDING l); [|lia]. apply members_in_pos. eauto.
Qed.

Lemma all_completed_counts wl job :
  (forall wid, wid ∈ jr_workload_ids job -> completed_member wl job wid) <->
  members_in wl B_COMPLETED (elements (jr_workload_ids job)) = Z.of_nat (size (jr_workload_ids job)).
Proof.
  change (size (jr_workload_ids job)) with (length (elements (jr_workload_ids job))).
  unfold completed_member. setoid_rewrite <- elem_of_elements.
  generalize (elements (jr_workload_ids job)) as l. intros l. split.
  - intros Hall. pose proof (members_in_total wl l) as Ht.
    assert (forall b, b <> B_COMPLETED -> members_in wl b l = 0) as Hz.
    { intros b Hb. pose proof (members_in_nonneg wl b l).
      destruct (decide (0 < members_in wl b l)) as [(w & Hw & Hbw)%members_in_pos|]; [|lia].
      destruct (Hall w Hw). congruence. }
    rewrite (Hz B_FAILED), (Hz B_RUNNING), (Hz B_PENDING) in Ht by done. lia.
  - intros Hc wid Hw. split; [done|]. pose proof (members_in_total wl l) as Ht.
    destruct (bucket_of (lookup_workload wl wid)) eqn:E; [done|exfalso..];
      match type of E with _ = ?b =>
        assert (0 < members_in wl b l) by (apply members_in_pos; eauto) end;
      pose proof (members_in_nonneg wl B_FAILED l); pose proof (members_in_nonneg wl B_RUNNING l);
      pose proof (members_in_nonneg wl B_PENDING l); lia.
Qed.

(** The decision alone, on counts that add up. *)
Lemma derive_state_spec job t c f p r :
  0 <= c -> 0 <= f -> 0 <= p -> 0 <= r -> c + f + r + p = t ->
  let st := derive_state job t c f p r in
  (st ∈ [JS_COMPLETED; JS_FAILED; JS_PARTIALLY_COMPLETED] <-> t <> 0 /\ p + r = 0) /\
  (t <> 0 -> p + r = 0 ->
   (st = JS_COMPLETED <->
    match jr_completion_policy job with
    | ALL_REQUIRED | BEST_EFFORT => c = t
    | ANY_SUCCESS => 0 < c
    | THRESHOLD => default 0 (jr_threshold job) <= c
    end)).
Proof.
  intros Hc Hf Hp Hr Ht st. unfold st, derive_state.
  assert (forall s, s ∈ [JS_COMPLETED; JS_FAILED; JS_PARTIALLY_COMPLETED] <->
            match s with JS_COMPLETED | JS_FAILED | JS_PARTIALLY_COMPLETED => True | _ => False end) as Hterm.
  { intros s. rewrite !elem_of_cons, elem_of_nil. destruct s; naive_solver. }
  rewrite Hterm.
  destruct (Z.eqb_spec t 0); [split; [split; [done|lia]|lia]|].
  destruct (Z.ltb_spec 0 (p + r)).
  { split; [|lia]. destruct ((c =? 0) && (f =? 0) && (r =? 0)); split; [done|lia|done|lia]. }
  assert (p + r = 0) as Hz by lia.
  destruct (jr_completion_policy job).
  - destruct (Z.eqb_spec f 0); split; intros; split; intros; try done; lia.
  - destruct (Z.ltb_spec 0 c); split; intros; split; intros; try done; lia.
  - destruct (Z.leb_spec (default 0 (jr_threshold job)) c); split; intros; split; intros; try done; lia.
  - destruct (Z.eqb_spec c t); [|destruct (Z.ltb_spec 0 c)]; split; intros; split; intros; try done; lia.
Qed.

(** A job is terminal when it has members and all of them are finished. *)
Lemma terminal_iff_finished wl reg j job :
  get_job reg j = Some job ->
  exists agg, get_aggregate wl reg j = Some agg /\
    (ja_is_terminal agg = true <-> jr_workload_ids job <> ∅ /\ all_finished wl job).
Proof.
  intros Hj. unfold get_aggregate. rewrite Hj. eexists. split; [reflexivity|].
  unfold ja_is_terminal. rewrite bool_decide_eq_true. simpl.
  set (ids := elements (jr_workload_ids job)).
  destruct (tally_fold wl ids tally0) as (T1 & T2 & T3 & T4 & T5 & _).
  unfold tally_job. fold ids. rewrite T1, T2, T3, T4, T5. simpl.
  rewrite all_finished_counts. fold ids.
  pose proof (derive_state_spec job (Z.of_nat (length ids)) (members_in wl B_COMPLETED ids)
    (members_in wl B_FAILED ids) (members_in wl B_PENDING ids) (members_in wl B_RUNNING ids)
    (members_in_nonneg _ _ _) (members_in_nonneg _ _ _) (members_in_nonneg _ _ _) (members_in_nonneg _ _ _)
    (members_in_total wl ids)) as [-> _].
  rewrite <- leibniz_equiv_iff, <- (elements_empty_iff (jr_workload_ids job)). fold ids.
  destruct ids; simpl; [naive_solver lia|]. split; intros [_ ?]; split; try done; lia.
Qed.

(** C2: the aggregate of a job.  The counts classify every member (unknown
    workloads count as pending) and add up to the membership; the output
    hashes are those of the completed members; the job is terminal exactly
    when it has members and all of them are known and terminal; and then it is
    COMPLETED exactly when its policy is met. *)
Theorem job_aggregate_correct wl reg job_id job :
  get_job reg job_id = Some job ->
  let ids := elements (jr_workload_ids job) in
  exists a, get_aggregate wl reg job_id = Some a /\
    ja_total a = Z.of_nat (size (jr_workload_ids job)) /\
    ja_completed a + ja_failed a + ja_running a + ja_pending a = ja_total a /\
    ja_completed a = members_in wl B_COMPLETED ids /\ ja_failed a = members_in wl B_FAILED ids /\
    ja_running a = members_in wl B_RUNNING ids /\ ja_pending a = members_in wl B_PENDING ids /\
    ja_output_asset_hashes a = outputs_of wl ids /\
    (ja_is_terminal a = true <-> jr_workload_ids job <> ∅ /\ all_finished wl job) /\
    (ja_is_terminal a = true ->
      (ja_state a = JS_COMPLETED <-> policy_met wl job (ja_completed a))).
Proof.
  intros Hjob ids. unfold get_aggregate. rewrite Hjob. eexists. split; [reflexivity|].
  destruct (tally_fold wl ids tally0) as (T1 & T2 & T3 & T4 & T5 & T6).
  cbn [ja_total ja_completed ja_failed ja_running ja_pending ja_output_asset_hashes].
  unfold tally_job. fold ids. rewrite T1, T2, T3, T4, T5, T6. simpl.
  pose proof (members_in_total wl ids) as Ht.
  pose proof (members_in_nonneg wl B_COMPLETED ids). pose proof (members_in_nonneg wl B_FAILED ids).
  pose proof (members_in_nonneg wl B_RUNNING ids). pose proof (members_in_nonneg wl B_PENDING ids).
  pose proof (derive_state_spec job (Z.of_nat (length ids)) (members_in wl B_COMPLETED ids)
    (members_in wl B_FAILED ids) (members_in wl B_PENDING ids) (members_in wl B_RUNNING ids)
    ltac:(done) ltac:(done) ltac:(done) ltac:(done) Ht) as Hspec. cbv zeta in Hspec.
  assert (jr_workload_ids job <> ∅ <-> length ids <> 0%nat) as Hne.
  { rewrite <- leibniz_equiv_iff, <- (elements_empty_iff (jr_workload_ids job)). fold ids. destruct ids; done. }
  assert (length ids = size (jr_workload_ids job)) as Hlen by done.
  split_and!; [by rewrite Hlen|lia|done..|by rewrite union_empty_l_L| |].
  - rewrite Hne, all_finished_counts. fold ids. unfold ja_is_terminal. rewrite bool_decide_eq_true. simpl.
    rewrite (proj1 Hspec). lia.
  - unfold ja_is_terminal. rewrite bool_decide_eq_true. simpl. rewrite (proj1 Hspec). intros [Hn Hz].
    rewrite (proj2 Hspec Hn Hz). unfold policy_met.
    destruct (jr_completion_policy job); [|rewrite members_in_pos|done|];
      try (rewrite all_completed_counts; fold ids; by rewrite <- Hlen).
    unfold completed_member. setoid_rewrite <- elem_of_elements. done.
Qed.
End job_properties.

(** ** Creation *)

Definition valid_job (r : job_record) : Prop :=
  match jr_execution_shape r with
  | DISTRIBUTED_NATIVE => size (jr_workload_ids r) = 1%nat /\ 2 <= jr_required_worker_count r <= 64
  | SINGLE_MACHINE => size (jr_workload_ids r) = 1%nat /\ jr_required_worker_count r = 1
  | TASK_SPLIT | PIPELINE => jr_required_worker_count r = 1
  end /\
  (jr_completion_policy r = THRESHOLD -> exists t, jr_threshold r = Some t /\ t <> 0) /\
  (forall l, jr_selected_worker_ids r = Some l \/ jr_spare_worker_ids r = Some l ->
     l <> [] /\ Sorted (not_gt str_lt) l).

Definition jobs_wf {S} (reg : jobs S) : Prop :=
  od_wf (jb_jobs reg) /\
  forall id r, get_job reg id = Some r -> jr_job_id r = id /\ valid_job r.

Lemma sorted_or_none_sorted ids l : sorted_or_none ids = Some l -> l <> [] /\ Sorted (not_gt str_lt) l.
Proof.
  destruct ids as [[|x ids]|]; [done| |done]. intros H.
  assert (l = isort str_lt (x :: ids)) as -> by (by injection H). split.
  - intros Hnil. apply (f_equal length) in Hnil. by rewrite isort_length in Hnil.
  - apply isort_sorted. intros x' y. apply str_lt_asym.
Qed.

Lemma new_job_record_valid now id ids policy threshold shape n sel sp r :
  new_job_record now id ids policy threshold shape n sel sp = Ok r ->
  jr_job_id r = id /\ jr_workload_ids r = ids /\ jr_created_at r = now /\ valid_job r.
Proof.
  unfold new_job_record.
  destruct (bool_decide (policy = THRESHOLD) && _) eqn:Et; [done|].
  assert (policy = THRESHOLD -> exists t, threshold = Some t /\ t <> 0) as Hthr.
  { intros ->. rewrite bool_decide_eq_true_2 in Et by done. simpl in Et.
    destruct threshold as [t|]; [|done]. exists t. split; [done|]. lia. }
  intros Hr.
  assert (match shape with
          | DISTRIBUTED_NATIVE => size ids = 1%nat /\ 2 <= n <= 64
          | SINGLE_MACHINE => size ids = 1%nat /\ n = 1
          | TASK_SPLIT | PIPELINE => n = 1
          end) as Hshape.
  { destruct shape; revert Hr; eval_decide; simpl; intros Hr; repeat case_match; try done; lia. }
  repeat case_match; try done; injection Hr as <-;
    (split_and!; [done..|]); (split_and!; [exact Hshape|exact Hthr|]);
    intros l [Hl|Hl]; by apply (sorted_or_none_sorted _ _ Hl).
Qed.

Section create_properties.
Context {S : Type} `{RecordStoreLaws S job_record}.
Implicit Types reg : jobs S.

(** Creating jobs.  A registry of valid jobs stays one; every other job is
    untouched; a known id returns the stored job and changes nothing, whatever
    the other arguments; for a new id, either the arguments are rejected and
    nothing changes, or the job is filed with the given membership, and a
    store that accepts the write agrees with the registry on it. *)
Theorem create_job_valid_and_idempotent now id ids policy threshold shape n sel sp reg :
  (forall r, store_key r = jr_job_id r) -> (forall r, valid_job r -> store_ok r) -> jobs_wf reg ->
  let '(reg', a) := create_job now id ids policy threshold shape n sel sp reg in
  jobs_wf reg' /\
  (forall id', id' <> id -> get_job reg' id' = get_job reg id') /\
  match get_job reg id with
  | Some job => reg' = reg /\ a = Ok job
  | None =>
      match new_job_record now id ids policy threshold shape n sel sp with
      | Err e => reg' = reg /\ a = Err e
      | Ok r => get_job reg' id = Some r /\ jr_workload_ids r = ids /\ valid_job r /\
          (a = Ok r /\ synced_at (jb_jobs reg') (jb_store reg') id \/
           a = Err StoreError /\ jb_store reg' = jb_store reg)
      end
  end.
Proof.
  intros Hkey Hrec [Hnd Hjobs]. unfold create_job. destruct (get_job reg id) as [job|] eqn:E; [done|].
  destruct (new_job_record _ _ _ _ _ _ _ _ _) as [r|e] eqn:Er; [|done].
  destruct (new_job_record_valid _ _ _ _ _ _ _ _ _ _ Er) as (Hid & Hids & _ & Hv).
  split_and!.
  - split; [simpl; eauto with odict|].
    intros id' r'. unfold get_job. simpl. rewrite od_get_set. str_case; [|apply Hjobs].
    by intros [= <-].
  - intros id' Hne. unfold get_job. simpl. by rewrite od_get_set_ne.
  - unfold get_job. simpl. apply od_get_set_eq.
  - done.
  - done.
  - simpl. unfold persist_result, persist_store. destruct (persist (jb_store reg) r) as [st|x] eqn:Ep; simpl.
    + left. split; [done|]. unfold persist in Ep. destruct (jb_store reg) as [s|]; [|by injection Ep as <-].
      destruct (store_save s r) as [s'|] eqn:Es; [|done]. injection Ep as <-. simpl.
      rewrite (store_save_row _ _ _ _ (Hrec r Hv) Es), od_get_set_eq, Hkey, Hid, String.eqb_refl. done.
    + right. split; [|done]. unfold persist in Ep. destruct (jb_store reg) as [s|]; [|done].
      destruct (store_save s r); congruence.
Qed.
End create_properties.

#[export] Instance mem_job_store : RecordStore (mem_store job_record) job_record := {
  store_key := jr_job_id;
  store_view := fun r => r;
  store_row s k := od_get k (ms_rows s);
  store_save := ms_save jr_job_id (fun r => r);
}.
#[export] Instance mem_job_store_laws : RecordStoreLaws (mem_store job_record) job_record.
Proof. exists (fun _ => True). intros s a s' k _. apply ms_save_row. Defined.

Definition witness_jobs : jobs (mem_store job_record) :=
  fst (create_job f0 "j" {["w1"; "w2"]} ALL_REQUIRED None TASK_SPLIT 1 (Some ["n2"; "n1"]%string) None
         {| jb_jobs := []; jb_store := Some (Build_mem_store [] []) |}).

Lemma jobs_wf_empty {S} (st : option S) : jobs_wf {| jb_jobs := []; jb_store := st |}.
Proof. split; [apply od_wf_nil|done]. Defined.

Lemma witness_jobs_wf : jobs_wf witness_jobs.
Proof.
  split; [repeat constructor; inversion 1|].
  intros id r. unfold get_job, witness_jobs. simpl. str_case; [|done]. intros [= <-].
  split; [done|]. split_and!; [done..|].
  intros l [Hl|Hl]; [|done]. split; [by destruct l|].
  eapply (sorted_or_none_sorted (Some ["n2"; "n1"]%string)). exact Hl.
Defined.

Lemma create_job_witness :
  jobs_wf (fst (create_job f1 "j" ∅ BEST_EFFORT None TASK_SPLIT 1 None None witness_jobs)) /\
  create_job f1 "j" ∅ BEST_EFFORT None TASK_SPLIT 1 None None witness_jobs =
  (witness_jobs, Ok (default (Build_job_record "" ∅ BEST_EFFORT None PIPELINE 0 None None f0) (get_job witness_jobs "j"))).
Proof.
  split; [|reflexivity].
  exact (proj1 (create_job_valid_and_idempotent f1 "j" ∅ BEST_EFFORT None TASK_SPLIT 1 None None witness_jobs
    (fun r => eq_refl) (fun r _ => I) witness_jobs_wf)).
Defined.

(** Two members, one completed and one cancelled: the job failed. *)
Definition witness_workloads : mem_registry :=
  wrun [(f0, CAdd (plain_spec "w1" "t" [])); (f0, CAdd (plain_spec "w2" "t" []));
        (f1, CUpdateState "w1" COMPLETED None); (f1, CUpdateState "w2" CANCELLED None)] witness_registry.

Lemma job_aggregate_witness :
  get_job witness_jobs "j" <> None /\
  exists a, get_aggregate witness_workloads witness_jobs "j" = Some a /\
    ja_total a = 2 /\ ja_completed a = 1 /\ ja_failed a = 1 /\ ja_state a = JS_FAILED.
Proof.
  split; [discriminate|].
  destruct (job_aggregate_correct witness_workloads witness_jobs "j" _ eq_refl) as (a & Ha & Ht & _ & Hc & Hf & _).
  exists a. split_and!; [exact Ha|rewrite Ht; reflexivity|rewrite Hc; reflexivity|rewrite Hf; reflexivity|].
  vm_compute in Ha. injection Ha as <-. reflexivity.
Defined.

(** The message asks for a positive threshold, the check only refuses zero: a
    negative threshold is accepted and is met by a job whose members all
    failed. *)
Example negative_threshold_completes :
  match new_job_record f0 "j" {["w2"]} THRESHOLD (Some (-1)) TASK_SPLIT 1 None None with
  | Ok r => option_map ja_state (get_aggregate witness_workloads
              (restore_job (S := mem_store job_record) r {| jb_jobs := []; jb_store := None |}) "j")
            = Some JS_COMPLETED
  | Err _ => False
  end.
Proof. vm_compute. reflexivity. Qed.
