(* ===== verification/ArtifactRegistry.v ===== *)
(** * Output artifacts and their collection ([distributed/artifact.py])

    [artifacts] is the [ArtifactRegistry] object: the dictionary by artifact
    id, the index by content hash and the optional store.  [gc_sweep] is one
    turn of the coordinator's collection loop
    ([coordinator.py], [_run_artifact_gc_loop]) over this registry and the
    job registry. *)
From S2P Require Export JobRegistry.

Inductive lifecycle_state := AR_CREATED | AR_AVAILABLE | AR_GC_ELIGIBLE | AR_DELETED.
#[export] Instance lifecycle_state_eq_dec : EqDecision lifecycle_state.
Proof. solve_decision. Defined.

(** [verification_state] has the single value VERIFIED and is left out. *)
Record artifact := {
  af_artifact_id : string;
  af_content_hash : string;
  af_producer_workload_id : string;
  af_producer_job_id : option string;
  af_created_at : float;
  af_lifecycle_state : lifecycle_state;
  af_storage_location : string;
  af_size_bytes : option Z;
}.

Definition make_artifact_id (producer_workload_id content_hash : string) : string :=
  (producer_workload_id +:+ ":" +:+ content_hash)%string.

Definition with_lifecycle (st : lifecycle_state) (a : artifact) : artifact :=
  {| af_artifact_id := af_artifact_id a; af_content_hash := af_content_hash a;
     af_producer_workload_id := af_producer_workload_id a; af_producer_job_id := af_producer_job_id a;
     af_created_at := af_created_at a; af_lifecycle_state := st;
     af_storage_location := af_storage_location a; af_size_bytes := af_size_bytes a |}.

Definition in_state (st : lifecycle_state) (a : artifact) : bool := bool_decide (af_lifecycle_state a = st).

Section artifact_registry.
Context {S : Type} `{RecordStore S artifact} `{RecordDelete S}.

Record artifacts := {
  ax_artifacts : odict artifact;
  ax_by_hash : odict (gset string);
  ax_store : option S;
}.

Definition get_artifact (reg : artifacts) (id : string) : option artifact := od_get id (ax_artifacts reg).
Definition ids_for_hash (reg : artifacts) (h : string) : gset string := od_get_default h ∅ (ax_by_hash reg).
Definition list_artifacts (reg : artifacts) : list artifact := od_values (ax_artifacts reg).
Definition get_artifacts_for_hash (reg : artifacts) (h : string) : list artifact :=
  omap (get_artifact reg) (elements (ids_for_hash reg h)).

Definition put_artifact (a : artifact) (reg : artifacts) : artifacts :=
  {| ax_artifacts := od_set (af_artifact_id a) a (ax_artifacts reg);
     ax_by_hash := od_set (af_content_hash a) ({[af_artifact_id a]} ∪ ids_for_hash reg (af_content_hash a))
                     (ax_by_hash reg);
     ax_store := ax_store reg |}.

(** Only the dictionary entry changes: the object is mutated in place. *)
Definition mutate_artifact (a : artifact) (reg : artifacts) : artifacts :=
  {| ax_artifacts := od_set (af_artifact_id a) a (ax_artifacts reg);
     ax_by_hash := ax_by_hash reg; ax_store := ax_store reg |}.

Definition with_store (st : option S) (reg : artifacts) : artifacts :=
  {| ax_artifacts := ax_artifacts reg; ax_by_hash := ax_by_hash reg; ax_store := st |}.

(** The loop of writes after the lock is released; the first failure leaves it. *)
Fixpoint persist_all (st : option S) (l : list artifact) : option S * res unit :=
  match l with
  | [] => (st, Ok tt)
  | a :: l =>
      match persist st a with
      | Ok st' => persist_all st' l
      | Err e => (st, Err e)
      end
  end.

Definition persist_artifacts {B} (l : list artifact) (b : B) (reg : artifacts) : artifacts * res B :=
  let '(st, r) := persist_all (ax_store reg) l in
  (with_store st reg, res_map (fun _ => b) r).

Definition new_artifact (clock : string -> float) (wid : string) (jid : option string)
    (sizes : odict Z) (location h : string) : artifact :=
  {| af_artifact_id := make_artifact_id wid h; af_content_hash := h;
     af_producer_workload_id := wid; af_producer_job_id := jid; af_created_at := clock h;
     af_lifecycle_state := AR_AVAILABLE; af_storage_location := location;
     af_size_bytes := od_get h sizes |}.

(** The locked part of [record_artifacts]; [clock h] is the time read when [h]
    is recorded. *)
Fixpoint record_loop (clock : string -> float) (wid : string) (jid : option string) (sizes : odict Z)
    (location : string) (hs : list string) (reg : artifacts) : artifacts * list artifact :=
  match hs with
  | [] => (reg, [])
  | h :: hs =>
      if od_mem (make_artifact_id wid h) (ax_artifacts reg)
      then record_loop clock wid jid sizes location hs reg
      else
        let a := new_artifact clock wid jid sizes location h in
        let '(reg', created) := record_loop clock wid jid sizes location hs (put_artifact a reg) in
        (reg', a :: created)
  end.

Definition record_artifacts (clock : string -> float) (wid : string) (jid : option string)
    (hs : list string) (sizes : odict Z) (location : string) (reg : artifacts)
  : artifacts * res (list artifact) :=
  let '(reg', created) := record_loop clock wid jid sizes location hs reg in
  persist_artifacts created created reg'.

Definition restore_artifact (a : artifact) (reg : artifacts) : artifacts := put_artifact a reg.

Definition gc_candidate (protected_job_ids : gset string) (a : artifact) : bool :=
  if negb (in_state AR_AVAILABLE a) then false
  else match af_producer_job_id a with
       | None => false
       | Some j => negb (bool_decide (j ∈ protected_job_ids))
       end.

Definition compute_gc_eligible (protected_job_ids : gset string) (reg : artifacts) : list string :=
  map af_artifact_id (List.filter (gc_candidate protected_job_ids) (od_values (ax_artifacts reg))).

Fixpoint gc_loop (ids : list string) (reg : artifacts) : artifacts * list artifact :=
  match ids with
  | [] => (reg, [])
  | id :: ids =>
      match get_artifact reg id with
      | Some a =>
          if in_state AR_AVAILABLE a then
            let a' := with_lifecycle AR_GC_ELIGIBLE a in
            let '(reg', snaps) := gc_loop ids (mutate_artifact a' reg) in
            (reg', a' :: snaps)
          else gc_loop ids reg
      | None => gc_loop ids reg
      end
  end.

Definition mark_gc_eligible (ids : list string) (reg : artifacts) : artifacts * res Z :=
  let '(reg', snaps) := gc_loop ids reg in
  persist_artifacts snaps (Z.of_nat (length snaps)) reg'.

Definition mark_deleted (id : string) (reg : artifacts) : artifacts * res bool :=
  match get_artifact reg id with
  | Some a =>
      if in_state AR_GC_ELIGIBLE a then
        let a' := with_lifecycle AR_DELETED a in
        persist_artifacts [a'] true (mutate_artifact a' reg)
      else (reg, Ok false)
  | None => (reg, Ok false)
  end.

(** Drop an artifact and its index entry, and the index set when it empties. *)
Definition drop_artifact (a : artifact) (id : string) (reg : artifacts) : artifacts :=
  let h := af_content_hash a in
  {| ax_artifacts := od_del id (ax_artifacts reg);
     ax_by_hash :=
       match od_get h (ax_by_hash reg) with
       | None => ax_by_hash reg
       | Some s =>
           let s' := s ∖ {[id]} in
           if bool_decide (s' = ∅) then od_del h (ax_by_hash reg) else od_set h s' (ax_by_hash reg)
       end;
     ax_store := ax_store reg |}.

Definition delete_row (st : option S) (id : string) : res (option S) :=
  match st with
  | None => Ok None
  | Some s => match store_delete s id with Some s' => Ok (Some s') | None => Err StoreError end
  end.

(** The row is deleted first; the record goes only if that succeeded. *)
Fixpoint purge_deleted_artifacts (ids : list string) (reg : artifacts) : artifacts * res Z :=
  match ids with
  | [] => (reg, Ok 0)
  | id :: ids =>
      match get_artifact reg id with
      | Some a =>
          if in_state AR_DELETED a then
            match delete_row (ax_store reg) id with
            | Err e => (reg, Err e)
            | Ok st =>
                let '(reg', n) := purge_deleted_artifacts ids (drop_artifact a id (with_store st reg)) in
                (reg', res_map (fun n => n + 1) n)
            end
          else purge_deleted_artifacts ids reg
      | None => purge_deleted_artifacts ids reg
      end
  end.

(** ** The collection loop of the coordinator *)

Fixpoint mark_deleted_all (ids : list string) (reg : artifacts) : artifacts * res unit :=
  match ids with
  | [] => (reg, Ok tt)
  | id :: ids =>
      match mark_deleted id reg with
      | (reg', Ok _) => mark_deleted_all ids reg'
      | (reg', Err e) => (reg', Err e)
      end
  end.

Definition ids_in_state (st : lifecycle_state) (reg : artifacts) : list string :=
  map af_artifact_id (List.filter (in_state st) (list_artifacts reg)).

(** Whether a job keeps its artifacts: it is not terminal, or it is younger
    than the retention time. *)
Definition job_protects {J W} `{WorkloadLookup W} (now retention : float) (wl : W) (jreg : jobs J)
    (job : job_record) : bool :=
  match get_aggregate wl jreg (jr_job_id job) with
  | None => false
  | Some agg =>
      negb (ja_is_terminal agg)
      || (flt f0 retention && flt (fsub now (jr_created_at job)) retention)
  end.

Definition protected_jobs {J W} `{WorkloadLookup W} (now retention : float) (wl : W) (jreg : jobs J)
  : gset string :=
  list_to_set (map jr_job_id (List.filter (job_protects now retention wl jreg) (list_jobs jreg))).

(** One turn: purge, then mark deleted, then mark eligible; an exception is
    logged and ends the turn. *)
Definition gc_sweep (protected : gset string) (reg : artifacts) : artifacts * res unit :=
  match purge_deleted_artifacts (ids_in_state AR_DELETED reg) reg with
  | (reg1, Err e) => (reg1, Err e)
  | (reg1, Ok _) =>
      match mark_deleted_all (ids_in_state AR_GC_ELIGIBLE reg1) reg1 with
      | (reg2, Err e) => (reg2, Err e)
      | (reg2, Ok _) =>
          let '(reg3, r) := mark_gc_eligible (compute_gc_eligible protected reg2) reg2 in
          (reg3, res_map (fun _ => tt) r)
      end
  end.
End artifact_registry.
Arguments artifacts S : clear implicits.

(** ** The two indexes agree *)

Section artifact_proofs.
Context {S : Type} `{RecordStore S artifact} `{RecordDelete S}.
Implicit Types reg : artifacts S.

(** Artifacts are filed under their own id, the hash index lists exactly the
    artifacts with that content, and no index set is empty. *)
Definition art_wf reg : Prop :=
  od_wf (ax_artifacts reg) /\ od_wf (ax_by_hash reg) /\
  (forall id a, get_artifact reg id = Some a -> af_artifact_id a = id) /\
  (forall h id, id ∈ ids_for_hash reg h <-> exists a, get_artifact reg id = Some a /\ af_content_hash a = h) /\
  (forall h s, od_get h (ax_by_hash reg) = Some s -> s <> ∅).

Lemma art_wf_empty st : art_wf {| ax_artifacts := []; ax_by_hash := []; ax_store := st |}.
Proof.
  split_and!; [apply od_wf_nil|apply od_wf_nil|done| |done].
  intros h id. unfold ids_for_hash, od_get_default. simpl. split; [set_solver|by intros (? & ? & _)].
Qed.

Lemma get_put a reg id :
  get_artifact (put_artifact a reg) id = if String.eqb id (af_artifact_id a) then Some a else get_artifact reg id.
Proof. unfold get_artifact, put_artifact. simpl. apply od_get_set. Qed.

Lemma get_mutate a reg id :
  get_artifact (mutate_artifact a reg) id = if String.eqb id (af_artifact_id a) then Some a else get_artifact reg id.
Proof. unfold get_artifact, mutate_artifact. simpl. apply od_get_set. Qed.

Lemma get_drop a id0 reg id :
  od_wf (ax_artifacts reg) ->
  get_artifact (drop_artifact a id0 reg) id = if String.eqb id id0 then None else get_artifact reg id.
Proof. intros. unfold get_artifact, drop_artifact. simpl. by apply od_get_del. Qed.

Lemma ids_for_hash_put a reg h :
  ids_for_hash (put_artifact a reg) h =
  if String.eqb h (af_content_hash a) then {[af_artifact_id a]} ∪ ids_for_hash reg h else ids_for_hash reg h.
Proof.
  unfold ids_for_hash at 1, put_artifact, od_get_default. simpl. rewrite od_get_set.
  by destruct (String.eqb_spec h (af_content_hash a)) as [->|].
Qed.

Lemma put_artifact_wf a reg :
  get_artifact reg (af_artifact_id a) = None -> art_wf reg -> art_wf (put_artifact a reg).
Proof.
  intros Hnew (W1 & W2 & W3 & W4 & W5). split_and!.
  - simpl. eauto with odict.
  - simpl. eauto with odict.
  - intros id b. rewrite get_put. str_case; [congruence|apply W3].
  - intros h id. rewrite ids_for_hash_put, get_put.
    destruct (String.eqb_spec h (af_content_hash a)) as [->|Hh];
      rewrite ?elem_of_union, ?elem_of_singleton, W4;
      destruct (String.eqb_spec id (af_artifact_id a)) as [->|Hid]; naive_solver.
  - intros h s. unfold put_artifact. simpl. rewrite od_get_set. str_case; [|apply W5].
    intros [= <-]. set_solver.
Qed.

Lemma mutate_artifact_wf a a0 reg :
  get_artifact reg (af_artifact_id a) = Some a0 -> af_content_hash a = af_content_hash a0 ->
  art_wf reg -> art_wf (mutate_artifact a reg).
Proof.
  intros Ha Hh (W1 & W2 & W3 & W4 & W5). split_and!; [simpl; eauto with odict|done| | |done].
  - intros id b. rewrite get_mutate. str_case; [congruence|apply W3].
  - intros h id. change (ids_for_hash (mutate_artifact a reg) h) with (ids_for_hash reg h).
    rewrite W4, get_mutate. destruct (String.eqb_spec id (af_artifact_id a)) as [->|]; [|done].
    rewrite Ha. naive_solver.
Qed.

Lemma ids_for_hash_drop a id0 reg h :
  od_wf (ax_by_hash reg) ->
  ids_for_hash (drop_artifact a id0 reg) h =
  if String.eqb h (af_content_hash a) then ids_for_hash reg h ∖ {[id0]} else ids_for_hash reg h.
Proof.
  intros Hnd. unfold ids_for_hash, drop_artifact, od_get_default. simpl.
  destruct (String.eqb_spec h (af_content_hash a)) as [->|Hne].
  - destruct (od_get (af_content_hash a) (ax_by_hash reg)) as [s|] eqn:E.
    + case_bool_decide as He; [by rewrite od_get_del_eq|by rewrite od_get_set_eq].
    + rewrite E. set_solver.
  - destruct (od_get (af_content_hash a) (ax_by_hash reg)) as [s|]; [|done].
    case_bool_decide; [by rewrite od_get_del_ne|by rewrite od_get_set_ne].
Qed.

Lemma drop_artifact_wf a id reg :
  get_artifact reg id = Some a -> art_wf reg -> art_wf (drop_artifact a id reg).
Proof.
  intros Ha (W1 & W2 & W3 & W4 & W5). split_and!.
  - simpl. eauto with odict.
  - unfold drop_artifact. simpl. destruct (od_get _ _); [|done]. case_bool_decide; eauto with odict.
  - intros id' b. rewrite get_drop by done. str_case; [done|apply W3].
  - intros h id'. rewrite ids_for_hash_drop, get_drop by done.
    destruct (String.eqb_spec h (af_content_hash a)) as [->|Hh];
      rewrite ?elem_of_difference, ?elem_of_singleton, W4;
      destruct (String.eqb_spec id' id) as [->|]; naive_solver.
  - intros h s. unfold drop_artifact. simpl.
    destruct (od_get (af_content_hash a) (ax_by_hash reg)) as [s0|] eqn:E; [|apply W5].
    case_bool_decide as He.
    + rewrite od_get_del by done. str_case; [done|apply W5].
    + rewrite od_get_set. str_case; [by intros [= <-]|apply W5].
Qed.

Lemma art_wf_with_store st reg : art_wf reg -> art_wf (with_store st reg).
Proof. done. Qed.

Lemma persist_artifacts_wf {B} l (b : B) reg : art_wf reg -> art_wf (fst (persist_artifacts l b reg)).
Proof. unfold persist_artifacts. by destruct (persist_all _ _). Qed.

Lemma get_persist_artifacts {B} l (b : B) reg id :
  get_artifact (fst (persist_artifacts l b reg)) id = get_artifact reg id.
Proof. unfold persist_artifacts. by destruct (persist_all _ _). Qed.

(** ** Phases: what a loop over ids does to each artifact

    [f] is what the loop does to one artifact.  Every artifact is unchanged or
    has [f] applied, and, when the loop completes, [f] is applied to exactly
    the ids of the list. *)
Definition phase (f : option artifact -> option artifact) (l : list string) reg reg' (ok : Prop) : Prop :=
  forall id, (get_artifact reg' id = get_artifact reg id \/
              id ∈ l /\ get_artifact reg' id = f (get_artifact reg id)) /\
             (ok -> id ∈ l -> get_artifact reg' id = f (get_artifact reg id)).

Lemma phase_nil f reg ok : phase f [] reg reg ok.
Proof. intros id. split; [by left|]. intros _ Hin. inversion Hin. Qed.

Lemma phase_stop f l id reg reg1 :
  get_artifact reg1 id = f (get_artifact reg id) ->
  (forall id', id' <> id -> get_artifact reg1 id' = get_artifact reg id') ->
  phase f (id :: l) reg reg1 False.
Proof.
  intros Hf Ho id'. split; [|done]. destruct (decide (id' = id)) as [->|]; [right|left; auto].
  split; [left|done].
Qed.

Lemma phase_cons f l id reg reg1 reg' (ok : Prop) :
  (forall o, f (f o) = f o) ->
  get_artifact reg1 id = f (get_artifact reg id) ->
  (forall id', id' <> id -> get_artifact reg1 id' = get_artifact reg id') ->
  phase f l reg1 reg' ok -> phase f (id :: l) reg reg' ok.
Proof.
  intros Hff Hf Ho Hp id'. destruct (Hp id') as [H1 H2].
  destruct (decide (id' = id)) as [->|Hne].
  - rewrite Hf, Hff in *. split; [|by naive_solver].
    right. split; [left|]. naive_solver.
  - rewrite Ho in * by done. split; [destruct H1 as [|[? ?]]; [by left|right; split; [by right|done]]|].
    intros Hok [|]%elem_of_cons; [done|auto].
Qed.

Definition f_purge (o : option artifact) : option artifact :=
  match o with Some a => if in_state AR_DELETED a then None else Some a | None => None end.
Definition f_delete (o : option artifact) : option artifact :=
  match o with
  | Some a => if in_state AR_GC_ELIGIBLE a then Some (with_lifecycle AR_DELETED a) else Some a
  | None => None
  end.
Definition f_eligible (o : option artifact) : option artifact :=
  match o with
  | Some a => if in_state AR_AVAILABLE a then Some (with_lifecycle AR_GC_ELIGIBLE a) else Some a
  | None => None
  end.

Lemma f_purge_idemp o : f_purge (f_purge o) = f_purge o.
Proof. destruct o as [a|]; simpl; [|done]. destruct (in_state AR_DELETED a) eqn:E; simpl; by rewrite ?E. Qed.
Lemma f_delete_idemp o : f_delete (f_delete o) = f_delete o.
Proof. destruct o as [a|]; simpl; [|done]. destruct (in_state AR_GC_ELIGIBLE a) eqn:E; simpl; by rewrite ?E. Qed.
Lemma f_eligible_idemp o : f_eligible (f_eligible o) = f_eligible o.
Proof. destruct o as [a|]; simpl; [|done]. destruct (in_state AR_AVAILABLE a) eqn:E; simpl; by rewrite ?E. Qed.

Lemma purge_phase l reg :
  art_wf reg ->
  let p := purge_deleted_artifacts l reg in
  art_wf (fst p) /\ phase f_purge l reg (fst p) (is_ok (snd p) = true).
Proof.
  revert reg. induction l as [|id l IH]; intros reg Hwf; simpl; [split; [done|apply phase_nil]|].
  destruct (get_artifact reg id) as [a|] eqn:E; [destruct (in_state AR_DELETED a) eqn:Es|].
  - destruct (delete_row (ax_store reg) id) as [st|e] eqn:Ed; simpl.
    2: { split; [done|]. intros id'. split; [by left|done]. }
    assert (art_wf (drop_artifact a id (with_store st reg))) as Hwf1 by by apply drop_artifact_wf.
    specialize (IH _ Hwf1). simpl in IH.
    destruct (purge_deleted_artifacts l (drop_artifact a id (with_store st reg))) as [reg' n]. simpl in *.
    destruct IH as [Hwf' Hp]. split; [done|]. replace (is_ok (res_map _ n)) with (is_ok n) by (by destruct n).
    eapply phase_cons; [apply f_purge_idemp| | |exact Hp].
    + rewrite get_drop by apply Hwf. rewrite String.eqb_refl, E. simpl. by rewrite Es.
    + intros id' Hne. rewrite get_drop by apply Hwf. by destruct (String.eqb_spec id' id).
  - destruct (IH _ Hwf) as [Hwf' Hp]. split; [done|].
    eapply phase_cons; [apply f_purge_idemp| |done|exact Hp]. rewrite E. simpl. by rewrite Es.
  - destruct (IH _ Hwf) as [Hwf' Hp]. split; [done|].
    eapply phase_cons; [apply f_purge_idemp| |done|exact Hp]. by rewrite E.
Qed.

Lemma mark_deleted_get id reg :
  art_wf reg ->
  let reg' := fst (mark_deleted id reg) in
  art_wf reg' /\ get_artifact reg' id = f_delete (get_artifact reg id) /\
  forall id', id' <> id -> get_artifact reg' id' = get_artifact reg id'.
Proof.
  intros Hwf reg'. unfold reg', mark_deleted.
  destruct (get_artifact reg id) as [a|] eqn:E; [|simpl; by rewrite E].
  assert (af_artifact_id a = id) as Hid by (destruct Hwf as (_ & _ & W3 & _); auto).
  destruct (in_state AR_GC_ELIGIBLE a) eqn:Es; [|simpl; by rewrite E, Es].
  split_and!.
  - apply persist_artifacts_wf. apply (mutate_artifact_wf _ a); [|done|done]. simpl. by rewrite Hid.
  - rewrite get_persist_artifacts, get_mutate. simpl. by rewrite Hid, String.eqb_refl, Es.
  - intros id' Hne. rewrite get_persist_artifacts, get_mutate. simpl. rewrite Hid.
    by destruct (String.eqb_spec id' id).
Qed.

Lemma mark_deleted_phase l reg :
  art_wf reg ->
  let p := mark_deleted_all l reg in
  art_wf (fst p) /\ phase f_delete l reg (fst p) (is_ok (snd p) = true).
Proof.
  revert reg. induction l as [|id l IH]; intros reg Hwf; simpl; [split; [done|apply phase_nil]|].
  destruct (mark_deleted_get id reg Hwf) as (Hwf1 & Hf & Ho).
  destruct (mark_deleted id reg) as [reg1 [b|e]]; simpl in *.
  - destruct (IH _ Hwf1) as [Hwf' Hp]. split; [done|].
    eapply phase_cons; [apply f_delete_idemp|exact Hf|exact Ho|exact Hp].
  - split; [done|]. intros id'. destruct (phase_stop f_delete l id reg reg1 Hf Ho id') as [? _]. split; done.
Qed.

Lemma gc_loop_phase l reg :
  art_wf reg -> art_wf (fst (gc_loop l reg)) /\ phase f_eligible l reg (fst (gc_loop l reg)) True.
Proof.
  revert reg. induction l as [|id l IH]; intros reg Hwf; simpl; [split; [done|apply phase_nil]|].
  destruct (get_artifact reg id) as [a|] eqn:E; [destruct (in_state AR_AVAILABLE a) eqn:Es|].
  - assert (af_artifact_id a = id) as Hid by (destruct Hwf as (_ & _ & W3 & _); auto).
    assert (art_wf (mutate_artifact (with_lifecycle AR_GC_ELIGIBLE a) reg)) as Hwf1.
    { apply (mutate_artifact_wf _ a); [|done|done]. simpl. by rewrite Hid. }
    destruct (IH _ Hwf1) as [Hwf' Hp].
    destruct (gc_loop l (mutate_artifact _ reg)) as [reg' snaps]. simpl in *. split; [done|].
    eapply phase_cons; [apply f_eligible_idemp| | |exact Hp].
    + rewrite get_mutate, E. simpl. by rewrite Hid, String.eqb_refl, Es.
    + intros id' Hne. rewrite get_mutate. simpl. rewrite Hid. by destruct (String.eqb_spec id' id).
  - destruct (IH _ Hwf) as [Hwf' Hp]. split; [done|].
    eapply phase_cons; [apply f_eligible_idemp| |done|exact Hp]. rewrite E. simpl. by rewrite Es.
  - destruct (IH _ Hwf) as [Hwf' Hp]. split; [done|].
    eapply phase_cons; [apply f_eligible_idemp| |done|exact Hp]. by rewrite E.
Qed.

Lemma mark_gc_eligible_phase l reg :
  art_wf reg ->
  art_wf (fst (mark_gc_eligible l reg)) /\ phase f_eligible l reg (fst (mark_gc_eligible l reg)) True.
Proof.
  intros Hwf. destruct (gc_loop_phase l reg Hwf) as [Hwf' Hp]. unfold mark_gc_eligible.
  destruct (gc_loop l reg) as [reg' snaps]. simpl in *. split; [by apply persist_artifacts_wf|].
  intros id. rewrite get_persist_artifacts. apply Hp.
Qed.

Lemma filter_ids (p : artifact -> bool) reg id :
  art_wf reg ->
  id ∈ map af_artifact_id (List.filter p (od_values (ax_artifacts reg))) <->
  exists a, get_artifact reg id = Some a /\ p a = true.
Proof.
  intros (W1 & _ & W3 & _). rewrite list_elem_of_In, in_map_iff. setoid_rewrite filter_In.
  setoid_rewrite <- list_elem_of_In. setoid_rewrite od_values_elem; [|done]. split.
  - intros (a & <- & [k Hk] & Hp). exists a. split; [|done]. by rewrite (W3 k a Hk).
  - intros (a & Ha & Hp). exists a. split_and!; [by apply W3|by exists id|done].
Qed.
End artifact_proofs.

(** ** Properties *)

Section artifact_properties.
Context {S : Type} `{RecordStore S artifact} `{RecordDelete S}.
Implicit Types reg : artifacts S.

(** The abstract effect of a sweep on one artifact: one step down the
    lifecycle, never two. *)
Definition sweep_one (protected : gset string) (o : option artifact) : option artifact :=
  match o with
  | None => None
  | Some a =>
      match af_lifecycle_state a with
      | AR_CREATED => Some a
      | AR_AVAILABLE =>
          match af_producer_job_id a with
          | Some j => if bool_decide (j ∈ protected) then Some a else Some (with_lifecycle AR_GC_ELIGIBLE a)
          | None => Some a
          end
      | AR_GC_ELIGIBLE => Some (with_lifecycle AR_DELETED a)
      | AR_DELETED => None
      end
  end.

Lemma in_state_iff st a : in_state st a = true <-> af_lifecycle_state a = st.
Proof. apply bool_decide_eq_true. Qed.

(** A phase over the ids of the artifacts that satisfy [p]. *)
Lemma phase_filtered (f : option artifact -> option artifact) (p : artifact -> bool) l reg reg' ok id :
  (forall i, i ∈ l <-> exists a, get_artifact reg i = Some a /\ p a = true) ->
  phase f l reg reg' ok ->
  let o := get_artifact reg id in
  let o' := match o with Some a => if p a then f (Some a) else Some a | None => None end in
  (get_artifact reg' id = o \/ get_artifact reg' id = o') /\ (ok -> get_artifact reg' id = o').
Proof.
  intros Hl Hp o o'. destruct (Hp id) as [H1 H2]. unfold o', o.
  assert (id ∈ l -> f (get_artifact reg id) =
    match get_artifact reg id with Some a => if p a then f (Some a) else Some a | None => None end) as Hin.
  { intros (a & -> & ->)%Hl. done. }
  assert (id ∉ l -> get_artifact reg id =
    match get_artifact reg id with Some a => if p a then f (Some a) else Some a | None => None end) as Hout.
  { intros Hn. destruct (get_artifact reg id) as [a|] eqn:E; [|done]. destruct (p a) eqn:Ep; [|done].
    destruct Hn. apply Hl. eauto. }
  split; [destruct H1 as [|[Hi Hf]]; [by left|right; by rewrite Hf, Hin]|].
  intros Hok. destruct (decide (id ∈ l)) as [Hi|Hn]; [by rewrite H2, Hin|].
  rewrite <- (Hout Hn). by destruct H1 as [|[? _]].
Qed.

Lemma sweep_compose protected reg reg1 reg2 reg3 (ok1 ok2 : Prop) id :
  art_wf reg -> art_wf reg1 -> art_wf reg2 ->
  phase f_purge (ids_in_state AR_DELETED reg) reg reg1 ok1 -> ok1 ->
  phase f_delete (ids_in_state AR_GC_ELIGIBLE reg1) reg1 reg2 ok2 -> ok2 ->
  phase f_eligible (compute_gc_eligible protected reg2) reg2 reg3 True ->
  get_artifact reg3 id = sweep_one protected (get_artifact reg id).
Proof.
  intros W0 W1 W2 P1 K1 P2 K2 P3.
  destruct (phase_filtered _ _ _ _ _ _ id (fun i => filter_ids _ reg i W0) P1) as [_ E1].
  destruct (phase_filtered _ _ _ _ _ _ id (fun i => filter_ids _ reg1 i W1) P2) as [_ E2].
  destruct (phase_filtered _ _ _ _ _ _ id (fun i => filter_ids _ reg2 i W2) P3) as [_ E3].
  rewrite (E3 I), (E2 K2), (E1 K1). destruct (get_artifact reg id) as [a|]; [|done].
  unfold sweep_one, f_purge, f_delete, f_eligible, in_state, gc_candidate.
  destruct a as [aid h w j c st loc sz]; destruct st; simpl; try done.
  unfold in_state. simpl. eval_decide. simpl. destruct j as [j|]; [|done]. simpl.
  by case_bool_decide.
Qed.

(** Purging and deleting move an artifact only where the sweep would. *)
Lemma purge_within protected reg reg1 ok id :
  art_wf reg -> phase f_purge (ids_in_state AR_DELETED reg) reg reg1 ok ->
  get_artifact reg1 id = get_artifact reg id \/ get_artifact reg1 id = sweep_one protected (get_artifact reg id).
Proof.
  intros W P. destruct (phase_filtered _ _ _ _ _ _ id (fun i => filter_ids _ reg i W) P) as [[E|E] _]; [by left|].
  rewrite E. destruct (get_artifact reg id) as [a|]; [|by left]. unfold f_purge, in_state, sweep_one.
  destruct (af_lifecycle_state a); eval_decide; auto.
Qed.

Lemma delete_within protected reg reg1 reg2 (ok1 ok2 : Prop) id :
  art_wf reg -> art_wf reg1 ->
  phase f_purge (ids_in_state AR_DELETED reg) reg reg1 ok1 -> ok1 ->
  phase f_delete (ids_in_state AR_GC_ELIGIBLE reg1) reg1 reg2 ok2 ->
  get_artifact reg2 id = get_artifact reg id \/ get_artifact reg2 id = sweep_one protected (get_artifact reg id).
Proof.
  intros W W1 P1 K1 P2.
  destruct (phase_filtered _ _ _ _ _ _ id (fun i => filter_ids _ reg i W) P1) as [_ E1].
  destruct (phase_filtered _ _ _ _ _ _ id (fun i => filter_ids _ reg1 i W1) P2) as [E2 _].
  rewrite (E1 K1) in E2. destruct (get_artifact reg id) as [a|]; [|left; by destruct E2].
  revert E2. unfold f_purge, f_delete, in_state, sweep_one.
  destruct a as [aid h w j c st loc sz]; destruct st; simpl; eval_decide; simpl; eval_decide; tauto.
Qed.

Lemma gc_sweep_effect protected reg :
  art_wf reg ->
  let p := gc_sweep protected reg in
  art_wf (fst p) /\
  (forall id, get_artifact (fst p) id = get_artifact reg id \/
              get_artifact (fst p) id = sweep_one protected (get_artifact reg id)) /\
  (snd p = Ok tt -> forall id, get_artifact (fst p) id = sweep_one protected (get_artifact reg id)).
Proof.
  intros Hwf p. unfold p, gc_sweep.
  destruct (purge_phase (ids_in_state AR_DELETED reg) reg Hwf) as [W1 P1].
  destruct (purge_deleted_artifacts _ reg) as [reg1 [n|e]]; simpl in *.
  2: { split_and!; [done| |done]. intros id. exact (purge_within _ _ _ _ id Hwf P1). }
  destruct (mark_deleted_phase (ids_in_state AR_GC_ELIGIBLE reg1) reg1 W1) as [W2 P2].
  destruct (mark_deleted_all _ reg1) as [reg2 [u|e]]; simpl in *.
  2: { split_and!; [done| |done]. intros id.
       exact (delete_within _ _ _ _ _ _ id Hwf W1 P1 eq_refl P2). }
  destruct (mark_gc_eligible_phase (compute_gc_eligible protected reg2) reg2 W2) as [W3 P3].
  destruct (mark_gc_eligible _ reg2) as [reg3 r]. simpl in *.
  assert (forall id, get_artifact reg3 id = sweep_one protected (get_artifact reg id)) as Hall
    by (intros id; exact (sweep_compose _ _ _ _ _ _ _ id Hwf W1 W2 P1 eq_refl P2 eq_refl P3)).
  split_and!; [done|by right|done].
Qed.

(** ** Sweeps and jobs *)

Context {J W : Type} `{WorkloadLookup W}.

(** An artifact a sweep at time [now] must not release: it has no job, or the
    job is known and has an unfinished member or is younger than the
    retention time. *)
Definition still_needed (now retention : float) (wl : W) (jreg : jobs J) (a : artifact) : Prop :=
  match af_producer_job_id a with
  | None => True
  | Some j => exists job, get_job jreg j = Some job /\
      (~ (jr_workload_ids job <> ∅ /\ all_finished wl job) \/
       (flt f0 retention = true /\ flt (fsub now (jr_created_at job)) retention = true))
  end.

Lemma protected_iff now retention wl (jreg : jobs J) j :
  jobs_wf jreg ->
  j ∈ protected_jobs now retention wl jreg <->
  exists job, get_job jreg j = Some job /\
    (~ (jr_workload_ids job <> ∅ /\ all_finished wl job) \/
     (flt f0 retention = true /\ flt (fsub now (jr_created_at job)) retention = true)).
Proof.
  intros [Hnd Hids]. unfold protected_jobs. rewrite elem_of_list_to_set, list_elem_of_In, in_map_iff.
  setoid_rewrite filter_In. setoid_rewrite <- list_elem_of_In. unfold list_jobs.
  setoid_rewrite od_values_elem; [|done].
  assert (forall job, get_job jreg (jr_job_id job) = Some job ->
    job_protects now retention wl jreg job = true <->
    (~ (jr_workload_ids job <> ∅ /\ all_finished wl job) \/
     (flt f0 retention = true /\ flt (fsub now (jr_created_at job)) retention = true))) as Hp.
  { intros job Hj. destruct (terminal_iff_finished wl jreg _ job Hj) as (agg & Ha & Ht).
    unfold job_protects. rewrite Ha, <- Ht.
    destruct (ja_is_terminal agg), (flt f0 retention), (flt (fsub now (jr_created_at job)) retention);
      simpl; naive_solver. }
  split.
  - intros (job & <- & [k Hk] & Hb). assert (jr_job_id job = k) as Heq by (by apply (Hids k job)).
    rewrite Heq. exists job. split; [done|]. apply Hp; [by rewrite Heq|done].
  - intros (job & Hj & Hc). assert (jr_job_id job = j) as Heq by (by apply (Hids j job)).
    exists job. split_and!; [done|by exists j|]. apply Hp; [by rewrite Heq|done].
Qed.

(** C3: collection is safe and complete.  With the protected set the
    coordinator computes from the job registry, an available artifact that is
    still needed survives a sweep unchanged, whatever the writes do; one that
    is not needed is gone after three sweeps without a failed write. *)
Theorem gc_safe_and_complete now retention wl (jreg : jobs J) reg id a :
  art_wf reg -> jobs_wf jreg -> get_artifact reg id = Some a -> af_lifecycle_state a = AR_AVAILABLE ->
  let prot := protected_jobs now retention wl jreg in
  (still_needed now retention wl jreg a -> get_artifact (fst (gc_sweep prot reg)) id = Some a) /\
  (~ still_needed now retention wl jreg a ->
   forall prot2 prot3,
   let p1 := gc_sweep prot reg in let p2 := gc_sweep prot2 (fst p1) in let p3 := gc_sweep prot3 (fst p2) in
   snd p1 = Ok tt -> snd p2 = Ok tt -> snd p3 = Ok tt -> get_artifact (fst p3) id = None).
Proof.
  intros Hwf Hj Ha Hst prot.
  assert (still_needed now retention wl jreg a <-> sweep_one prot (Some a) = Some a) as Hneed.
  { unfold still_needed, sweep_one. rewrite Hst. destruct (af_producer_job_id a) as [j|]; [|done].
    rewrite <- (protected_iff now retention wl jreg j Hj). fold prot. case_bool_decide as Hin; [done|].
    split; [done|]. intros [= Heq]. apply (f_equal af_lifecycle_state) in Heq. simpl in Heq. congruence. }
  destruct (gc_sweep_effect prot reg Hwf) as (W1 & E1 & E1').
  split.
  - intros Hn%Hneed. destruct (E1 id) as [->| ->]; by rewrite Ha.
  - intros Hn prot2 prot3 p1 p2 p3 K1 K2 K3.
    destruct (gc_sweep_effect prot2 (fst p1) W1) as (W2 & _ & E2).
    destruct (gc_sweep_effect prot3 (fst p2) W2) as (W3 & _ & E3).
    unfold p3. rewrite (E3 K3). unfold p2. rewrite (E2 K2). unfold p1. rewrite (E1' K1), Ha.
    unfold sweep_one at 3. rewrite Hst. unfold still_needed in Hn.
    destruct (af_producer_job_id a) as [j|] eqn:Ej; [|by destruct Hn].
    rewrite <- (protected_iff now retention wl jreg j Hj) in Hn. fold prot in Hn.
    by rewrite bool_decide_eq_false_2.
Qed.

(** One collection sweep.  It keeps the registry well formed; each
    artifact is either left alone or takes exactly one step
    AVAILABLE -> GC_ELIGIBLE -> DELETED -> removed, even if a write fails; and
    when no write fails it does exactly what [sweep_one] says: an available
    artifact is released only if it belongs to a job and that job is not
    protected. *)
Theorem gc_sweep_one_step protected reg :
  art_wf reg ->
  let p := gc_sweep protected reg in
  art_wf (fst p) /\
  (forall id, get_artifact (fst p) id = get_artifact reg id \/
              get_artifact (fst p) id = sweep_one protected (get_artifact reg id)) /\
  (snd p = Ok tt -> forall id, get_artifact (fst p) id = sweep_one protected (get_artifact reg id)).
Proof. apply gc_sweep_effect. Qed.

(** ** Recording *)

Lemma make_artifact_id_same_producer w h1 h2 : make_artifact_id w h1 = make_artifact_id w h2 -> h1 = h2.
Proof.
  unfold make_artifact_id. intros H2. induction w as [|c w IH]; simpl in H2; [by injection H2|].
  injection H2 as H2. auto.
Qed.

Lemma record_loop_spec clock w j sizes loc hs reg :
  art_wf reg ->
  let p := record_loop clock w j sizes loc hs reg in
  art_wf (fst p) /\
  (forall h, get_artifact (fst p) (make_artifact_id w h) =
     match get_artifact reg (make_artifact_id w h) with
     | Some a => Some a
     | None => if bool_decide (h ∈ hs) then Some (new_artifact clock w j sizes loc h) else None
     end) /\
  (forall id, (forall h, h ∈ hs -> id <> make_artifact_id w h) -> get_artifact (fst p) id = get_artifact reg id) /\
  (forall h, new_artifact clock w j sizes loc h ∈ snd p <->
     h ∈ hs /\ get_artifact reg (make_artifact_id w h) = None).
Proof.
  revert reg. induction hs as [|h0 hs IH]; intros reg Hwf; cbn [record_loop].
  { split_and!; [done| |done|].
    - intros h. simpl. destruct (get_artifact reg (make_artifact_id w h)); done.
    - intros h. simpl. split; [by intros Hin; inversion Hin|]. intros [Hin _]. inversion Hin. }
  unfold od_mem. change (od_get (make_artifact_id w h0) (ax_artifacts reg)) with (get_artifact reg (make_artifact_id w h0)).
  destruct (get_artifact reg (make_artifact_id w h0)) as [a0|] eqn:E.
  - destruct (IH reg Hwf) as (I1 & I2 & I3 & I4). split_and!; [done| | |].
    + intros h. rewrite I2. destruct (decide (h = h0)) as [->|Hne]; [by rewrite E|].
      destruct (get_artifact reg (make_artifact_id w h)); [done|]. erewrite bool_decide_ext; [done|].
      rewrite elem_of_cons. naive_solver.
    + intros id Hid. apply I3. intros h Hh. apply Hid. by right.
    + intros h. rewrite I4, elem_of_cons. naive_solver.
  - set (a := new_artifact clock w j sizes loc h0).
    assert (art_wf (put_artifact a reg)) as Hwf1 by (by apply put_artifact_wf).
    destruct (IH _ Hwf1) as (I1 & I2 & I3 & I4).
    destruct (record_loop clock w j sizes loc hs (put_artifact a reg)) as [reg' created]. simpl in *.
    assert (forall h, get_artifact (put_artifact a reg) (make_artifact_id w h) =
      if decide (h = h0) then Some a else get_artifact reg (make_artifact_id w h)) as Hput.
    { intros h. rewrite get_put. simpl. destruct (String.eqb_spec (make_artifact_id w h) (make_artifact_id w h0)) as [Heq|Hne].
      - apply make_artifact_id_same_producer in Heq as ->. by rewrite decide_True.
      - rewrite decide_False; [done|]. by intros ->. }
    split_and!; [done| | |].
    + intros h. rewrite I2, Hput. destruct (decide (h = h0)) as [->|Hne].
      * rewrite E, bool_decide_eq_true_2; [done|left].
      * destruct (get_artifact reg (make_artifact_id w h)); [done|]. erewrite bool_decide_ext; [done|].
        rewrite elem_of_cons. naive_solver.
    + intros id Hid. rewrite I3 by (intros h Hh; apply Hid; by right). rewrite get_put. simpl.
      destruct (String.eqb_spec id (make_artifact_id w h0)) as [->|]; [|done]. by destruct (Hid h0); [left|].
    + intros h. rewrite elem_of_cons, I4, Hput, elem_of_cons. destruct (decide (h = h0)) as [->|Hne]; [naive_solver|].
      split; [|naive_solver]. intros [Ha|]; [|naive_solver]. unfold a in Ha.
      apply (f_equal af_content_hash) in Ha. done.
Qed.

(** Recording outputs.  Every hash gets an artifact of that content
    and producer; artifacts that were already recorded (by this workload or any
    other) keep their first provenance and lifecycle; exactly the new ones are
    returned, AVAILABLE and filed in the hash index; the registry stays well
    formed even if a write fails. *)
Theorem record_artifacts_provenance clock w j hs sizes loc reg :
  art_wf reg ->
  let p := record_artifacts clock w j hs sizes loc reg in
  art_wf (fst p) /\
  (forall id a, get_artifact reg id = Some a -> get_artifact (fst p) id = Some a) /\
  (forall h, h ∈ hs -> get_artifact reg (make_artifact_id w h) = None ->
     get_artifact (fst p) (make_artifact_id w h) = Some (new_artifact clock w j sizes loc h) /\
     make_artifact_id w h ∈ ids_for_hash (fst p) h) /\
  (forall id, get_artifact reg id = None -> get_artifact (fst p) id <> None ->
     exists h, h ∈ hs /\ id = make_artifact_id w h) /\
  (forall l, snd p = Ok l -> forall h, new_artifact clock w j sizes loc h ∈ l <->
     h ∈ hs /\ get_artifact reg (make_artifact_id w h) = None).
Proof.
  intros Hwf p. destruct (record_loop_spec clock w j sizes loc hs reg Hwf) as (I1 & I2 & I3 & I4).
  unfold p, record_artifacts. destruct (record_loop clock w j sizes loc hs reg) as [reg' created]. simpl in *.
  assert (forall id, get_artifact reg id = None -> get_artifact reg' id <> None ->
    exists h, h ∈ hs /\ id = make_artifact_id w h) as Hnew.
  { intros id H1' H2'. destruct (decide (Exists (fun h => id = make_artifact_id w h) hs)) as [He|Hn].
    - apply Exists_exists in He as (h & Hh & ->). eauto.
    - destruct H2'. rewrite I3; [done|]. intros h Hh ->. apply Hn, Exists_exists. eauto. }
  split_and!.
  - by apply persist_artifacts_wf.
  - intros id a Ha. rewrite get_persist_artifacts.
    destruct (decide (Exists (fun h => id = make_artifact_id w h) hs)) as [He|Hn].
    + apply Exists_exists in He as (h & Hh & ->). by rewrite I2, Ha.
    + rewrite I3; [done|]. intros h Hh ->. apply Hn, Exists_exists. eauto.
  - intros h Hh Hnone. rewrite get_persist_artifacts.
    assert (get_artifact reg' (make_artifact_id w h) = Some (new_artifact clock w j sizes loc h)) as Hget
      by (by rewrite I2, Hnone, bool_decide_eq_true_2).
    split; [done|]. unfold persist_artifacts. destruct (persist_all _ _). simpl.
    destruct I1 as (_ & _ & _ & W4 & _). apply (W4 h). by exists (new_artifact clock w j sizes loc h).
  - intros id. rewrite get_persist_artifacts. apply Hnew.
  - intros l. unfold persist_artifacts. destruct (persist_all _ _) as [st [u|e]]; simpl; [|done].
    intros [= <-]. exact I4.
Qed.
End artifact_properties.

(** ** Witnesses *)

#[export] Instance mem_artifact_store : RecordStore (mem_store artifact) artifact := {
  store_key := af_artifact_id;
  store_view := fun a => a;
  store_row s k := od_get k (ms_rows s);
  store_save := ms_save af_artifact_id (fun a => a);
}.
#[export] Instance mem_artifact_delete : RecordDelete (mem_store artifact) := ms_delete.

Definition empty_artifacts : artifacts (mem_store artifact) :=
  {| ax_artifacts := []; ax_by_hash := []; ax_store := Some (Build_mem_store [] []) |}.
Definition witness_artifacts : artifacts (mem_store artifact) :=
  fst (record_artifacts (fun _ => f0) "w1" (Some "j"%string) ["aa"; "bb"]%string [("aa", 7)]%string "cas" empty_artifacts).

Lemma witness_artifacts_wf : art_wf witness_artifacts.
Proof.
  unfold witness_artifacts, record_artifacts.
  destruct (record_loop_spec (fun _ => f0) "w1" (Some "j"%string) [("aa", 7)]%string "cas" ["aa"; "bb"]%string
    empty_artifacts (art_wf_empty _)) as (I1 & _).
  destruct (record_loop _ _ _ _ _ _ _). by apply persist_artifacts_wf.
Defined.

(** The first sweep releases both artifacts, the second one's first write
    fails. *)
Lemma gc_sweep_witness :
  art_wf witness_artifacts /\
  snd (gc_sweep ∅ witness_artifacts) = Ok tt /\
  option_map af_lifecycle_state (get_artifact (fst (gc_sweep ∅ witness_artifacts)) "w1:aa") = Some AR_GC_ELIGIBLE.
Proof.
  assert (snd (gc_sweep ∅ witness_artifacts) = Ok tt) as Hok by (vm_compute; reflexivity).
  split_and!; [exact witness_artifacts_wf|exact Hok|].
  rewrite (proj2 (proj2 (gc_sweep_one_step ∅ witness_artifacts witness_artifacts_wf)) Hok "w1:aa"%string).
  vm_compute. reflexivity.
Defined.

Lemma gc_safe_witness :
  exists a, get_artifact witness_artifacts "w1:bb" = Some a /\
  (still_needed f1 f0 witness_workloads witness_jobs a ->
   get_artifact (fst (gc_sweep (protected_jobs f1 f0 witness_workloads witness_jobs) witness_artifacts)) "w1:bb" = Some a).
Proof.
  eexists. split; [reflexivity|].
  refine (proj1 (gc_safe_and_complete f1 f0 witness_workloads witness_jobs witness_artifacts "w1:bb" _
    witness_artifacts_wf witness_jobs_wf _ _)); reflexivity.
Defined.

Lemma record_artifacts_witness :
  art_wf witness_artifacts /\
  get_artifact (fst (record_artifacts (fun _ => f1) "w2" None ["aa"]%string [] "cas" witness_artifacts)) "w2:aa" =
  Some (new_artifact (fun _ => f1) "w2" None [] "cas" "aa") /\
  elements (ids_for_hash (fst (record_artifacts (fun _ => f1) "w2" None ["aa"]%string [] "cas" witness_artifacts)) "aa")
  ≡ₚ ["w1:aa"; "w2:aa"]%string.
Proof.
  split_and!; [exact witness_artifacts_wf| |vm_compute; by repeat constructor].
  refine (proj1 (proj1 (proj2 (proj2 (record_artifacts_provenance (fun _ => f1) "w2" None ["aa"]%string [] "cas"
    witness_artifacts witness_artifacts_wf))) "aa"%string _ _)); [left|reflexivity].
Defined.
