(* ===== verification/WorkerRegistry.v ===== *)
(** * Worker registry ([distributed/registry.py])

    [workers] is the [WorkerRegistry] object: the workers in registration
    order, the inverted index from content hash to workers, the hashes of each
    worker, the health records and the optional store.  [register_worker]
    leaves one Python set shared between the worker's [inventory_hashes] and
    [_worker_hashes]; every method that changes the latter reassigns the
    former, so the two are equal whenever the lock is free and values model
    them.  The clock readings are arguments; [math.exp] and [math.log(2.0)] are
    parameters of the decay. *)
From S2P Require Export Models Durable.

Inductive worker_health := WH_HEALTHY | WH_DEGRADED | WH_SUSPECT | WH_DEAD.
#[export] Instance worker_health_eq_dec : EqDecision worker_health.
Proof. solve_decision. Defined.

Record health_record := {
  hr_worker_id : string;
  hr_health_status : worker_health;
  hr_penalty_score : float;
  hr_consecutive_failures : Z;
  hr_total_transfers_served : Z;
  hr_total_bytes_served : Z;
  hr_total_corruptions : Z;
  hr_last_success_utc : float;
  hr_last_failure_utc : float;
  hr_last_decay_utc : float;
}.

Definition new_health_record (now : float) (wid : string) : health_record :=
  {| hr_worker_id := wid; hr_health_status := WH_HEALTHY; hr_penalty_score := f0;
     hr_consecutive_failures := 0; hr_total_transfers_served := 0; hr_total_bytes_served := 0;
     hr_total_corruptions := 0; hr_last_success_utc := f0; hr_last_failure_utc := f0;
     hr_last_decay_utc := now |}.

Definition hr_with_status (st : worker_health) (fails : Z) (r : health_record) : health_record :=
  {| hr_worker_id := hr_worker_id r; hr_health_status := st; hr_penalty_score := hr_penalty_score r;
     hr_consecutive_failures := fails; hr_total_transfers_served := hr_total_transfers_served r;
     hr_total_bytes_served := hr_total_bytes_served r; hr_total_corruptions := hr_total_corruptions r;
     hr_last_success_utc := hr_last_success_utc r; hr_last_failure_utc := hr_last_failure_utc r;
     hr_last_decay_utc := hr_last_decay_utc r |}.

(** [^[a-zA-Z0-9_-]{1,128}$]; [strip] leaves no final newline for [$]. *)
Definition is_id_char (c : ascii) : bool :=
  is_lower c || is_upper c || is_digit c || Ascii.eqb c "_"%char || Ascii.eqb c "-"%char.

Definition validate_worker_id (worker_id : string) : res string :=
  let cleaned := strip worker_id in
  if (1 <=? str_len cleaned) && (str_len cleaned <=? 128) && str_forallb is_id_char cleaned
  then Ok cleaned else Err (ValueError "Invalid worker_id format").

(** ** Updating one worker *)

Definition wi_edit (st : worker_status) (used : Z) (inv : gset string) (hb : float) (active fails : Z)
    (penalty : float) (metrics : option worker_metrics) (profile : option worker_resource_profile)
    (w : worker_info) : worker_info :=
  {| wi_worker_id := wi_worker_id w; wi_endpoint_url := wi_endpoint_url w; wi_ip_address := wi_ip_address w;
     wi_port := wi_port w; wi_hostname := wi_hostname w; wi_status := st;
     wi_capacity_bytes := wi_capacity_bytes w; wi_used_bytes := used; wi_capabilities := wi_capabilities w;
     wi_inventory_hashes := inv; wi_last_heartbeat_utc := hb; wi_estimated_rtt_ms := wi_estimated_rtt_ms w;
     wi_active_transfers := active; wi_consecutive_heartbeat_failures := fails; wi_penalty_score := penalty;
     wi_registered_at_utc := wi_registered_at_utc w; wi_last_metrics := metrics;
     wi_resource_profile := profile; wi_tags := wi_tags w; wi_cost_per_hour := wi_cost_per_hour w;
     wi_can_execute_workloads := wi_can_execute_workloads w |}.

Definition wi_set_inventory (inv : gset string) (w : worker_info) : worker_info :=
  wi_edit (wi_status w) (wi_used_bytes w) inv (wi_last_heartbeat_utc w) (wi_active_transfers w)
    (wi_consecutive_heartbeat_failures w) (wi_penalty_score w) (wi_last_metrics w) (wi_resource_profile w) w.

Definition wi_set_status (st : worker_status) (w : worker_info) : worker_info :=
  wi_edit st (wi_used_bytes w) (wi_inventory_hashes w) (wi_last_heartbeat_utc w) (wi_active_transfers w)
    (wi_consecutive_heartbeat_failures w) (wi_penalty_score w) (wi_last_metrics w) (wi_resource_profile w) w.

Definition wi_set_penalty (p : float) (w : worker_info) : worker_info :=
  wi_edit (wi_status w) (wi_used_bytes w) (wi_inventory_hashes w) (wi_last_heartbeat_utc w) (wi_active_transfers w)
    (wi_consecutive_heartbeat_failures w) p (wi_last_metrics w) (wi_resource_profile w) w.

(** The overlay of coordinator-owned fields on a received hardware profile. *)
Definition rp_overlay (wid url ip : string) (st : worker_status) (cached : gset string) (ts : option float)
    (can : bool) (p : worker_resource_profile) : worker_resource_profile :=
  {| rp_worker_id := wid; rp_endpoint_url := url; rp_ip_address := ip;
     rp_cpu_cores_total := rp_cpu_cores_total p; rp_cpu_cores_logical := rp_cpu_cores_logical p;
     rp_cpu_cores_physical := rp_cpu_cores_physical p; rp_cpu_freq_mhz := rp_cpu_freq_mhz p;
     rp_cpu_utilization_percent := rp_cpu_utilization_percent p; rp_ram_total_bytes := rp_ram_total_bytes p;
     rp_ram_available_bytes := rp_ram_available_bytes p; rp_gpu_available := rp_gpu_available p;
     rp_gpu_device_name := rp_gpu_device_name p; rp_gpu_vendor := rp_gpu_vendor p; rp_gpu_model := rp_gpu_model p;
     rp_gpu_compute_capability := rp_gpu_compute_capability p; rp_gpu_driver_version := rp_gpu_driver_version p;
     rp_vram_total_bytes := rp_vram_total_bytes p; rp_vram_available_bytes := rp_vram_available_bytes p;
     rp_active_workload_count := rp_active_workload_count p;
     rp_max_concurrent_workloads := rp_max_concurrent_workloads p; rp_status := st;
     rp_local_cached_hashes := cached; rp_cost_per_hour := rp_cost_per_hour p; rp_timestamp_utc := ts;
     rp_can_execute_workloads := can |}.

Definition rp_set_status (st : worker_status) (p : worker_resource_profile) : worker_resource_profile :=
  rp_overlay (rp_worker_id p) (rp_endpoint_url p) (rp_ip_address p) st (rp_local_cached_hashes p)
    (rp_timestamp_utc p) (rp_can_execute_workloads p) p.

(** ** The inverted index *)

Abbreviation hindex := (gmap string (gset string)).

Definition idx_get (k : string) (m : hindex) : gset string := default ∅ (m !! k).

Definition index_add (w h : string) (idx : hindex) : hindex := <[h := {[w]} ∪ idx_get h idx]> idx.

(** [if worker_set: discard; if not worker_set: del]. *)
Definition index_del (w h : string) (idx : hindex) : hindex :=
  match idx !! h with
  | None => idx
  | Some s =>
      if bool_decide (s = ∅) then idx
      else let s' := s ∖ {[w]} in if bool_decide (s' = ∅) then delete h idx else <[h := s']> idx
  end.

(** The loop of [_add_worker_hashes_locked] over the index, the worker's set
    and the count; invalid hashes are skipped. *)
Fixpoint add_hashes_loop (w : string) (raw : list string) (idx : hindex) (wh : gset string) (n : Z)
  : hindex * gset string * Z :=
  match raw with
  | [] => (idx, wh, n)
  | r :: raw =>
      match validate_sha256_hex r with
      | Ok h =>
          if bool_decide (h ∈ wh) then add_hashes_loop w raw idx wh n
          else add_hashes_loop w raw (index_add w h idx) ({[h]} ∪ wh) (n + 1)
      | Err _ => add_hashes_loop w raw idx wh n
      end
  end.

Fixpoint remove_hashes_loop (w : string) (raw : list string) (idx : hindex) (wh : gset string) (n : Z)
  : hindex * gset string * Z :=
  match raw with
  | [] => (idx, wh, n)
  | r :: raw =>
      match validate_sha256_hex r with
      | Ok h =>
          if bool_decide (h ∈ wh) then remove_hashes_loop w raw (index_del w h idx) (wh ∖ {[h]}) (n + 1)
          else remove_hashes_loop w raw idx wh n
      | Err _ => remove_hashes_loop w raw idx wh n
      end
  end.

(** The hashes of a set that validate, normalised. *)
Definition normalize_hashes (l : list string) : gset string :=
  list_to_set (omap (fun r => match validate_sha256_hex r with Ok h => Some h | Err _ => None end) l).

(** The loop of [register_worker], which files every valid hash. *)
Fixpoint register_hashes_loop (w : string) (raw : list string) (idx : hindex) (norm : gset string)
  : hindex * gset string :=
  match raw with
  | [] => (idx, norm)
  | r :: raw =>
      match validate_sha256_hex r with
      | Ok h => register_hashes_loop w raw (index_add w h idx) ({[h]} ∪ norm)
      | Err _ => register_hashes_loop w raw idx norm
      end
  end.

(** ** The registry *)

Record registry_config := {
  rc_heartbeat_timeout : float;
  rc_degraded_threshold : float;
  rc_suspect_threshold : float;
  rc_penalty_half_life : float;
}.

Section worker_registry.
Context {S : Type} `{RecordStore S worker_info} `{RecordDelete S}.
Variable cfg : registry_config.

Record workers := {
  wk_workers : odict worker_info;
  wk_hash_index : hindex;
  wk_worker_hashes : hindex;
  wk_health : odict health_record;
  wk_store : option S;
}.

Definition empty_workers (st : option S) : workers :=
  {| wk_workers := []; wk_hash_index := ∅; wk_worker_hashes := ∅; wk_health := []; wk_store := st |}.

Definition get_worker (reg : workers) (wid : string) : option worker_info := od_get wid (wk_workers reg).
Definition hashes_of (reg : workers) (wid : string) : gset string := idx_get wid (wk_worker_hashes reg).
Definition holders_of (reg : workers) (h : string) : gset string := idx_get h (wk_hash_index reg).
Definition get_health_record (reg : workers) (wid : string) : option health_record := od_get wid (wk_health reg).

Definition set_worker (wid : string) (w : worker_info) (reg : workers) : workers :=
  {| wk_workers := od_set wid w (wk_workers reg); wk_hash_index := wk_hash_index reg;
     wk_worker_hashes := wk_worker_hashes reg; wk_health := wk_health reg; wk_store := wk_store reg |}.
Definition set_health (wid : string) (r : health_record) (reg : workers) : workers :=
  {| wk_workers := wk_workers reg; wk_hash_index := wk_hash_index reg;
     wk_worker_hashes := wk_worker_hashes reg; wk_health := od_set wid r (wk_health reg); wk_store := wk_store reg |}.

(** [_persist_worker] of the current snapshot of [wid], when there is one. *)
Definition persist_worker {B} (wid : string) (b : B) (reg : workers) : workers * res B :=
  match get_worker reg wid with
  | None => (reg, Ok b)
  | Some w =>
      ({| wk_workers := wk_workers reg; wk_hash_index := wk_hash_index reg;
          wk_worker_hashes := wk_worker_hashes reg; wk_health := wk_health reg;
          wk_store := persist_store (wk_store reg) w |},
       persist_result (wk_store reg) w b)
  end.

Definition delete_persisted_worker {B} (wid : string) (b : B) (reg : workers) : workers * res B :=
  match wk_store reg with
  | None => (reg, Ok b)
  | Some s =>
      match store_delete s wid with
      | Some s' =>
          ({| wk_workers := wk_workers reg; wk_hash_index := wk_hash_index reg;
              wk_worker_hashes := wk_worker_hashes reg; wk_health := wk_health reg; wk_store := Some s' |}, Ok b)
      | None => (reg, Err StoreError)
      end
  end.

(** [_remove_worker_from_index]: pop the worker's set and prune each hash. *)
Definition remove_worker_from_index (wid : string) (reg : workers) : workers :=
  {| wk_workers := wk_workers reg;
     wk_hash_index := fold_left (fun idx h => index_del wid h idx) (elements (hashes_of reg wid)) (wk_hash_index reg);
     wk_worker_hashes := delete wid (wk_worker_hashes reg);
     wk_health := wk_health reg; wk_store := wk_store reg |}.

Definition register_health (now : float) (wid : string) (o : option health_record) : health_record :=
  match o with
  | None => new_health_record now wid
  | Some r => if bool_decide (hr_health_status r = WH_DEAD) then hr_with_status WH_HEALTHY 0 r else r
  end.

Definition wi_set_heartbeat (hb : float) (w : worker_info) : worker_info :=
  wi_edit (wi_status w) (wi_used_bytes w) (wi_inventory_hashes w) hb (wi_active_transfers w)
    (wi_consecutive_heartbeat_failures w) (wi_penalty_score w) (wi_last_metrics w) (wi_resource_profile w) w.

(** The worker is filed under the cleaned id; its record keeps the given one. *)
Definition register_worker (now : float) (info : worker_info) (reg : workers) : workers * res worker_info :=
  match validate_worker_id (wi_worker_id info) with
  | Err e => (reg, Err e)
  | Ok wid =>
      let copy := if fle (wi_last_heartbeat_utc info) f0 then wi_set_heartbeat now info else info in
      let reg1 := if bool_decide (is_Some (wk_worker_hashes reg !! wid)) then remove_worker_from_index wid reg else reg in
      let '(idx, norm) := register_hashes_loop wid (elements (wi_inventory_hashes copy)) (wk_hash_index reg1) ∅ in
      let w := wi_set_inventory norm copy in
      let reg2 :=
        {| wk_workers := od_set wid w (wk_workers reg1); wk_hash_index := idx;
           wk_worker_hashes := <[wid := norm]> (wk_worker_hashes reg1);
           wk_health := od_set wid (register_health now wid (get_health_record reg1 wid)) (wk_health reg1);
           wk_store := wk_store reg1 |} in
      persist_worker wid w reg2
  end.

Definition unregister_worker_locked (wid : string) (reg : workers) : workers * option worker_info :=
  match get_worker reg wid with
  | None => (reg, None)
  | Some w =>
      let reg1 := remove_worker_from_index wid
        {| wk_workers := od_del wid (wk_workers reg); wk_hash_index := wk_hash_index reg;
           wk_worker_hashes := wk_worker_hashes reg; wk_health := wk_health reg; wk_store := wk_store reg |} in
      let reg2 :=
        match get_health_record reg1 wid with
        | Some r => set_health wid (hr_with_status WH_DEAD (hr_consecutive_failures r) r) reg1
        | None => reg1
        end in
      (reg2, Some w)
  end.

Definition unregister_worker (wid : string) (reg : workers) : workers * res (option worker_info) :=
  match unregister_worker_locked wid reg with
  | (reg', None) => (reg', Ok None)
  | (reg', Some w) => delete_persisted_worker wid (Some w) reg'
  end.

Definition set_worker_status (wid : string) (st : worker_status) (reg : workers) : workers * res bool :=
  match get_worker reg wid with
  | None => (reg, Ok false)
  | Some w =>
      if bool_decide (wi_status w = st) then (reg, Ok true)
      else persist_worker wid true (set_worker wid (wi_set_status st w) reg)
  end.

Definition get_candidates_for_hash (raw : string) (reg : workers) : list worker_info :=
  match validate_sha256_hex raw with
  | Err _ => []
  | Ok h => omap (get_worker reg) (elements (holders_of reg h))
  end.

Definition listed_when_active (reg : workers) (p : string * worker_info) : bool :=
  if bool_decide (wi_status (snd p) = WS_OFFLINE) then false
  else match get_health_record reg (fst p) with
       | Some r => negb (bool_decide (hr_health_status r = WH_SUSPECT \/ hr_health_status r = WH_DEAD))
       | None => true
       end.

Definition list_workers (active_only : bool) (reg : workers) : list worker_info :=
  map snd (List.filter (fun p => if active_only then listed_when_active reg p else true) (wk_workers reg)).

Definition get_workers_for_hash (raw : string) (reg : workers) : gset string :=
  match validate_sha256_hex raw with
  | Err _ => ∅
  | Ok h => holders_of reg h
  end.

Definition locate_hashes (raws : list string) (reg : workers) : hindex :=
  fold_left (fun acc raw =>
    match validate_sha256_hex raw with
    | Ok h => match wk_hash_index reg !! h with Some s => <[h := s]> acc | None => acc end
    | Err _ => acc
    end) raws ∅.

Definition add_worker_hashes_locked (wid : string) (raw : list string) (reg : workers) : workers * Z :=
  match get_worker reg wid with
  | None => (reg, 0)
  | Some w =>
      let '(idx, wh, n) := add_hashes_loop wid raw (wk_hash_index reg) (hashes_of reg wid) 0 in
      ({| wk_workers := od_set wid (wi_set_inventory wh w) (wk_workers reg); wk_hash_index := idx;
          wk_worker_hashes := <[wid := wh]> (wk_worker_hashes reg);
          wk_health := wk_health reg; wk_store := wk_store reg |}, n)
  end.

(** Without an entry the removal works on a fresh set, which is empty, so
    nothing is removed and no entry is created. *)
Definition remove_worker_hashes_locked (wid : string) (raw : list string) (reg : workers) : workers * Z :=
  match get_worker reg wid with
  | None => (reg, 0)
  | Some w =>
      let '(idx, wh, n) := remove_hashes_loop wid raw (wk_hash_index reg) (hashes_of reg wid) 0 in
      ({| wk_workers := od_set wid (wi_set_inventory wh w) (wk_workers reg); wk_hash_index := idx;
          wk_worker_hashes :=
            match wk_worker_hashes reg !! wid with
            | Some _ => <[wid := wh]> (wk_worker_hashes reg)
            | None => wk_worker_hashes reg
            end;
          wk_health := wk_health reg; wk_store := wk_store reg |}, n)
  end.

Definition add_worker_hashes (wid : string) (raw : list string) (reg : workers) : workers * res Z :=
  let '(reg', n) := add_worker_hashes_locked wid raw reg in persist_worker wid n reg'.

Definition remove_worker_hashes (wid : string) (raw : list string) (reg : workers) : workers * res Z :=
  let '(reg', n) := remove_worker_hashes_locked wid raw reg in persist_worker wid n reg'.

Definition sync_worker_inventory (wid : string) (inventory : gset string) (reg : workers)
  : workers * res (Z * Z) :=
  match get_worker reg wid with
  | None => (reg, Ok (0, 0))
  | Some _ =>
      let target := normalize_hashes (elements inventory) in
      let current := hashes_of reg wid in
      let '(reg1, added) := add_worker_hashes_locked wid (elements (target ∖ current)) reg in
      let '(reg2, removed) := remove_worker_hashes_locked wid (elements (current ∖ target)) reg1 in
      persist_worker wid (added, removed) reg2
  end.

Definition get_all_indexed_hashes (reg : workers) : gset string := dom (wk_hash_index reg).
Definition get_hash_count (reg : workers) : Z := Z.of_nat (size (wk_hash_index reg)).

(** ** Heartbeats and eviction *)

Definition heartbeat_payload_fields (p : heartbeat_payload) (w : worker_info) : worker_info :=
  wi_edit (wi_status w) (default (wi_used_bytes w) (hb_used_bytes p)) (wi_inventory_hashes w)
    (wi_last_heartbeat_utc w) (hb_active_transfers p) (wi_consecutive_heartbeat_failures w) (wi_penalty_score w)
    (match hb_metrics p with Some m => Some m | None => wi_last_metrics w end) (wi_resource_profile w) w.

Definition wi_set_profile (p : option worker_resource_profile) (w : worker_info) : worker_info :=
  wi_edit (wi_status w) (wi_used_bytes w) (wi_inventory_hashes w) (wi_last_heartbeat_utc w) (wi_active_transfers w)
    (wi_consecutive_heartbeat_failures w) (wi_penalty_score w) (wi_last_metrics w) p w.

(** Re-stamp a timestamped hardware snapshot; drop any other. *)
Definition received_profile (now : float) (p : option worker_resource_profile) (w : worker_info)
  : option worker_resource_profile :=
  match p with
  | Some p =>
      match rp_timestamp_utc p with
      | None => None
      | Some _ => Some (rp_overlay (wi_worker_id w) (wi_endpoint_url w) (wi_ip_address w) (wi_status w)
                          (wi_inventory_hashes w) (Some now) (wi_can_execute_workloads w) p)
      end
  | None => None
  end.

(** The last steps of [record_heartbeat]: revive, then align the profile. *)
Definition heartbeat_revive (w : worker_info) : worker_info :=
  let w1 := if bool_decide (wi_status w = WS_OFFLINE) then wi_set_status WS_ACTIVE w else w in
  wi_set_profile (option_map (rp_set_status (wi_status w1)) (wi_resource_profile w1)) w1.

Definition heartbeat_revive_health (r : health_record) : health_record :=
  if bool_decide (hr_health_status r = WH_DEAD) then hr_with_status WH_HEALTHY (hr_consecutive_failures r) r else r.

(** An update of the worker of [wid], when there is one. *)
Definition alter_worker (wid : string) (f : worker_info -> worker_info) (reg : workers) : workers :=
  match get_worker reg wid with Some w => set_worker wid (f w) reg | None => reg end.
Definition alter_health (wid : string) (f : health_record -> health_record) (reg : workers) : workers :=
  match get_health_record reg wid with Some r => set_health wid (f r) reg | None => reg end.

Definition heartbeat_apply_payload (now : float) (wid : string) (p : heartbeat_payload) (reg : workers) : workers :=
  let reg1 := alter_worker wid (heartbeat_payload_fields p) reg in
  let reg2 := if bool_decide (hb_inventory_delta_added p = ∅) then reg1
              else fst (add_worker_hashes_locked wid (elements (hb_inventory_delta_added p)) reg1) in
  let reg3 := if bool_decide (hb_inventory_delta_removed p = ∅) then reg2
              else fst (remove_worker_hashes_locked wid (elements (hb_inventory_delta_removed p)) reg2) in
  alter_worker wid (fun w => wi_set_profile (received_profile now (hb_resource_profile p) w) w) reg3.

Definition wi_beat (now : float) (w : worker_info) : worker_info :=
  wi_edit (wi_status w) (wi_used_bytes w) (wi_inventory_hashes w) now (wi_active_transfers w) 0
    (wi_penalty_score w) (wi_last_metrics w) (wi_resource_profile w) w.

Definition record_heartbeat (now : float) (wid : string) (payload : option heartbeat_payload) (reg : workers)
  : workers * res bool :=
  match get_worker reg wid with
  | None => (reg, Ok false)
  | Some w =>
      let reg1 := set_worker wid (wi_beat now w) reg in
      let reg2 := match payload with Some p => heartbeat_apply_payload now wid p reg1 | None => reg1 end in
      let reg3 := alter_health wid heartbeat_revive_health reg2 in
      persist_worker wid true (alter_worker wid heartbeat_revive reg3)
  end.

Fixpoint unregister_all (ids : list string) (reg : workers) : workers * list string :=
  match ids with
  | [] => (reg, [])
  | wid :: ids =>
      let '(reg1, o) := unregister_worker_locked wid reg in
      let '(reg2, evicted) := unregister_all ids reg1 in
      (reg2, match o with Some _ => wid :: evicted | None => evicted end)
  end.

Fixpoint delete_rows (ids : list string) (reg : workers) : workers * res unit :=
  match ids with
  | [] => (reg, Ok tt)
  | wid :: ids =>
      match delete_persisted_worker wid tt reg with
      | (reg', Ok _) => delete_rows ids reg'
      | (reg', Err e) => (reg', Err e)
      end
  end.

Definition expired_ids (cutoff : float) (reg : workers) : list string :=
  map fst (List.filter (fun p => flt (wi_last_heartbeat_utc (snd p)) cutoff) (wk_workers reg)).

Definition evict_expired_workers (now : float) (timeout : option float) (reg : workers)
  : workers * res (list string) :=
  let cutoff := fsub now (default (rc_heartbeat_timeout cfg) timeout) in
  let '(reg1, evicted) := unregister_all (expired_ids cutoff reg) reg in
  let '(reg2, r) := delete_rows evicted reg1 in
  (reg2, res_map (fun _ => evicted) r).

(** ** Health and penalties *)

Definition hr_success (now : float) (bytes : Z) (r : health_record) : health_record :=
  {| hr_worker_id := hr_worker_id r; hr_health_status := hr_health_status r;
     hr_penalty_score := fmax f0 (fsub (hr_penalty_score r) (flit 5 1));
     hr_consecutive_failures := 0; hr_total_transfers_served := hr_total_transfers_served r + 1;
     hr_total_bytes_served := hr_total_bytes_served r + Z.max 0 bytes;
     hr_total_corruptions := hr_total_corruptions r; hr_last_success_utc := now;
     hr_last_failure_utc := hr_last_failure_utc r; hr_last_decay_utc := hr_last_decay_utc r |}.

Definition hr_failure (now penalty : float) (r : health_record) : health_record :=
  {| hr_worker_id := hr_worker_id r; hr_health_status := hr_health_status r;
     hr_penalty_score := fadd (hr_penalty_score r) (fmax f0 penalty);
     hr_consecutive_failures := hr_consecutive_failures r + 1;
     hr_total_transfers_served := hr_total_transfers_served r;
     hr_total_bytes_served := hr_total_bytes_served r; hr_total_corruptions := hr_total_corruptions r;
     hr_last_success_utc := hr_last_success_utc r; hr_last_failure_utc := now;
     hr_last_decay_utc := hr_last_decay_utc r |}.

Definition hr_corrupted (r : health_record) : health_record :=
  {| hr_worker_id := hr_worker_id r; hr_health_status := hr_health_status r;
     hr_penalty_score := hr_penalty_score r; hr_consecutive_failures := hr_consecutive_failures r;
     hr_total_transfers_served := hr_total_transfers_served r;
     hr_total_bytes_served := hr_total_bytes_served r; hr_total_corruptions := hr_total_corruptions r + 1;
     hr_last_success_utc := hr_last_success_utc r; hr_last_failure_utc := hr_last_failure_utc r;
     hr_last_decay_utc := hr_last_decay_utc r |}.

Definition hr_decayed (now score : float) (r : health_record) : health_record :=
  {| hr_worker_id := hr_worker_id r; hr_health_status := hr_health_status r;
     hr_penalty_score := score; hr_consecutive_failures := hr_consecutive_failures r;
     hr_total_transfers_served := hr_total_transfers_served r;
     hr_total_bytes_served := hr_total_bytes_served r; hr_total_corruptions := hr_total_corruptions r;
     hr_last_success_utc := hr_last_success_utc r; hr_last_failure_utc := hr_last_failure_utc r;
     hr_last_decay_utc := now |}.

(** Move the health of [wid] to [h] and, when it is registered, its status. *)
Definition transition (wid : string) (h : worker_health) (st : worker_status) (reg : workers) : workers :=
  alter_worker wid (wi_set_status st)
    (alter_health wid (fun r => hr_with_status h (hr_consecutive_failures r) r) reg).

Definition record_success (now : float) (wid : string) (bytes : Z) (reg : workers) : workers :=
  match get_health_record reg wid with
  | None => reg
  | Some r =>
      let r' := hr_success now bytes r in
      let reg1 := alter_worker wid (wi_set_penalty (hr_penalty_score r')) (set_health wid r' reg) in
      if flt (hr_penalty_score r') (rc_degraded_threshold cfg) && bool_decide (hr_health_status r' = WH_DEGRADED)
      then transition wid WH_HEALTHY WS_ACTIVE reg1 else reg1
  end.

Definition record_failure (now : float) (wid : string) (penalty : float) (reg : workers) : workers :=
  match get_health_record reg wid with
  | None => reg
  | Some r =>
      let r' := hr_failure now penalty r in
      let reg1 := alter_worker wid (wi_set_penalty (hr_penalty_score r')) (set_health wid r' reg) in
      if fge (hr_penalty_score r') (rc_suspect_threshold cfg) then transition wid WH_SUSPECT WS_UNHEALTHY reg1
      else if fge (hr_penalty_score r') (rc_degraded_threshold cfg) then transition wid WH_DEGRADED WS_DEGRADED reg1
      else reg1
  end.

Definition record_corruption (now : float) (wid sha : string) (penalty : float) (reg : workers)
  : workers * res unit :=
  match get_health_record reg wid with
  | None => (reg, Ok tt)
  | Some r =>
      let reg1 := record_failure now wid penalty (set_health wid (hr_corrupted r) reg) in
      match validate_sha256_hex sha with
      | Err _ => (reg1, Ok tt)
      | Ok h => let '(reg2, n) := remove_worker_hashes wid [h] reg1 in (reg2, res_map (fun _ => tt) n)
      end
  end.

(** [math.exp] and [math.log(2.0)]. *)
Variable py_exp : float -> res float.
Variable py_log2 : float.

(** One turn of the loop of [decay_penalties]; a division by a zero half-life
    raises out of it. *)
Definition decay_one (now : float) (reg : workers) (wid : string) : res workers :=
  match get_health_record reg wid with
  | None => Ok reg
  | Some r =>
      let dt := fsub now (hr_last_decay_utc r) in
      if fle dt f0 then Ok reg
      else
        let! q := py_truediv (fopp (fmul dt py_log2)) (rc_penalty_half_life cfg) in
        let! decay_factor := py_exp q in
        let r' := hr_decayed now (fmul (hr_penalty_score r) decay_factor) r in
        let reg1 := alter_worker wid (wi_set_penalty (f_round (hr_penalty_score r') 4)) (set_health wid r' reg) in
        Ok (if flt (hr_penalty_score r') (rc_degraded_threshold cfg) && bool_decide (hr_health_status r' = WH_DEGRADED)
            then transition wid WH_HEALTHY WS_ACTIVE reg1
            else if flt (hr_penalty_score r') (rc_suspect_threshold cfg) && bool_decide (hr_health_status r' = WH_SUSPECT)
            then transition wid WH_DEGRADED WS_DEGRADED reg1
            else reg1)
  end.

Fixpoint decay_loop (now : float) (wids : list string) (reg : workers) : workers * res unit :=
  match wids with
  | [] => (reg, Ok tt)
  | wid :: wids =>
      match decay_one now reg wid with
      | Ok reg' => decay_loop now wids reg'
      | Err e => (reg, Err e)
      end
  end.

Definition decay_penalties (now : float) (reg : workers) : workers * res unit :=
  decay_loop now (od_keys (wk_health reg)) reg.

Definition get_worker_health_multiplier (wid : string) (reg : workers) : res float :=
  match get_health_record reg wid with
  | None => Ok f1
  | Some r =>
      if bool_decide (hr_health_status r = WH_SUSPECT \/ hr_health_status r = WH_DEAD) then Ok f0
      else py_truediv f1 (fadd f1 (hr_penalty_score r))
  end.

(** ** Statistics *)

Record cluster_stats := {
  cs_total_workers : Z;
  cs_healthy_workers : Z;
  cs_degraded_workers : Z;
  cs_suspect_workers : Z;
  cs_total_capacity_bytes : Z;
  cs_total_used_bytes : Z;
  cs_total_unique_hashes : Z;
  cs_average_rtt_ms : float;
}.

Definition health_count (p : worker_health -> bool) (missing : bool) (reg : workers) : Z :=
  Z.of_nat (length (List.filter (fun wid =>
    match get_health_record reg wid with Some r => p (hr_health_status r) | None => missing end)
    (od_keys (wk_workers reg)))).

Definition get_cluster_stats (reg : workers) : cluster_stats :=
  let ws := od_values (wk_workers reg) in
  let total := Z.of_nat (length ws) in
  {| cs_total_workers := total;
     cs_healthy_workers := health_count (fun h => bool_decide (h = WH_HEALTHY)) true reg;
     cs_degraded_workers := health_count (fun h => bool_decide (h = WH_DEGRADED)) false reg;
     cs_suspect_workers := health_count (fun h => bool_decide (h = WH_SUSPECT)) false reg;
     cs_total_capacity_bytes := sumZ (map wi_capacity_bytes ws);
     cs_total_used_bytes := sumZ (map wi_used_bytes ws);
     cs_total_unique_hashes := get_hash_count reg;
     cs_average_rtt_ms := f_round (fdiv (fsum (map wi_estimated_rtt_ms ws)) (f_of_Z (Z.max total 1))) 3 |}.

Definition clear_workers (reg : workers) : workers := empty_workers (wk_store reg).
End worker_registry.
Arguments workers S : clear implicits.

(** ** The index operations *)

Section index_lemmas.
Implicit Types (idx : hindex) (w h : string).

Definition no_empty idx : Prop := forall h s, idx !! h = Some s -> s <> ∅.

Lemma idx_get_insert k s idx k' : idx_get k' (<[k := s]> idx) = if String.eqb k' k then s else idx_get k' idx.
Proof.
  unfold idx_get. destruct (String.eqb_spec k' k) as [->|]; [by rewrite lookup_insert_eq|].
  by rewrite lookup_insert_ne by congruence.
Qed.

Lemma idx_get_delete k idx k' : idx_get k' (delete k idx) = if String.eqb k' k then ∅ else idx_get k' idx.
Proof.
  unfold idx_get. destruct (String.eqb_spec k' k) as [->|]; [by rewrite lookup_delete_eq|].
  by rewrite lookup_delete_ne by congruence.
Qed.

Lemma idx_get_add w h idx k :
  idx_get k (index_add w h idx) = if String.eqb k h then {[w]} ∪ idx_get h idx else idx_get k idx.
Proof. apply idx_get_insert. Qed.

Lemma idx_get_del w h idx k :
  idx_get k (index_del w h idx) = if String.eqb k h then idx_get h idx ∖ {[w]} else idx_get k idx.
Proof.
  unfold index_del. destruct (idx !! h) as [s|] eqn:E.
  - assert (idx_get h idx = s) as Hs by (unfold idx_get; by rewrite E). rewrite Hs.
    case_bool_decide as He; [|case_bool_decide as He'].
    + destruct (String.eqb_spec k h) as [->|]; [|done]. rewrite Hs, He. set_solver.
    + rewrite idx_get_delete. destruct (String.eqb_spec k h); [|done]. by rewrite He'.
    + apply idx_get_insert.
  - destruct (String.eqb_spec k h) as [->|]; [|done]. unfold idx_get. rewrite E. set_solver.
Qed.

Lemma no_empty_add w h idx : no_empty idx -> no_empty (index_add w h idx).
Proof.
  intros Hn k s. unfold index_add. destruct (decide (k = h)) as [->|].
  - rewrite lookup_insert_eq. intros [= <-]. set_solver.
  - rewrite lookup_insert_ne by congruence. apply Hn.
Qed.

Lemma no_empty_del w h idx : no_empty idx -> no_empty (index_del w h idx).
Proof.
  intros Hn k s. unfold index_del. destruct (idx !! h) as [s0|] eqn:E; [|apply Hn].
  case_bool_decide; [apply Hn|]. case_bool_decide as He.
  - destruct (decide (k = h)) as [->|]; [by rewrite lookup_delete_eq|].
    rewrite lookup_delete_ne by congruence. apply Hn.
  - destruct (decide (k = h)) as [->|]; [rewrite lookup_insert_eq; by intros [= <-]|].
    rewrite lookup_insert_ne by congruence. apply Hn.
Qed.

Lemma normalize_cons r raw :
  normalize_hashes (r :: raw) =
  match validate_sha256_hex r with Ok h => {[h]} ∪ normalize_hashes raw | Err _ => normalize_hashes raw end.
Proof. unfold normalize_hashes. simpl. by destruct (validate_sha256_hex r). Qed.

Lemma normalize_sha raw h : h ∈ normalize_hashes raw -> is_sha256 h = true.
Proof.
  unfold normalize_hashes. rewrite elem_of_list_to_set, list_elem_of_omap. intros (r & _ & Hr).
  destruct (validate_sha256_hex r) eqn:E; [|done]. injection Hr as <-.
  by apply validate_sha256_hex_lemma in E as [? _].
Qed.

(** Normalising normalised hashes changes nothing. *)
Lemma normalize_sha_id X :
  (forall h, h ∈ X -> is_sha256 h = true) -> normalize_hashes (elements X) = X.
Proof.
  intros HX. apply set_eq. intros h. unfold normalize_hashes.
  rewrite elem_of_list_to_set, list_elem_of_omap. setoid_rewrite elem_of_elements. split.
  - intros (r & Hr & Hv). rewrite validate_sha256_hex_norm in Hv by auto. by injection Hv as <-.
  - intros Hh. exists h. split; [done|]. by rewrite validate_sha256_hex_norm by auto.
Qed.

Lemma add_hashes_loop_spec w raw idx wh n :
  let p := add_hashes_loop w raw idx wh n in
  snd (fst p) = normalize_hashes raw ∪ wh /\
  snd p = n + Z.of_nat (size (normalize_hashes raw ∖ wh)) /\
  (forall h w', w' ∈ idx_get h (fst (fst p)) <->
     w' ∈ idx_get h idx \/ (w' = w /\ h ∈ normalize_hashes raw /\ h ∉ wh)) /\
  (no_empty idx -> no_empty (fst (fst p))).
Proof.
  revert idx wh n. induction raw as [|r raw IH]; intros idx wh n; simpl.
  { split_and!; [set_solver| |set_solver|done].
    change (normalize_hashes []) with (∅ : gset string). replace ((∅ : gset string) ∖ wh) with (∅ : gset string) by set_solver.
    rewrite size_empty. lia. }
  rewrite normalize_cons. destruct (validate_sha256_hex r) as [h0|]; [|apply IH].
  case_bool_decide as Hin.
  - destruct (IH idx wh n) as (E1 & E2 & E3 & E4). split_and!; [|rewrite E2| |done].
    + rewrite E1. clear -Hin. set_solver.
    + do 2 f_equal. clear -Hin. f_equal. set_solver.
    + intros h w'. rewrite E3. clear -Hin. set_solver.
  - destruct (IH (index_add w h0 idx) ({[h0]} ∪ wh) (n + 1)) as (E1 & E2 & E3 & E4).
    split_and!; [|rewrite E2| |by intros ?; apply E4, no_empty_add].
    + rewrite E1. clear. set_solver.
    + replace (({[h0]} ∪ normalize_hashes raw) ∖ wh) with ({[h0]} ∪ normalize_hashes raw ∖ ({[h0]} ∪ wh)) by (clear -Hin; apply set_eq; intros x; destruct (decide (x = h0)); set_solver).
      rewrite (size_union {[h0]}); [|clear; set_solver]. rewrite size_singleton. lia.
    + intros h w'. rewrite E3, idx_get_add. destruct (String.eqb_spec h h0) as [->|Hne]; [clear -Hin|clear -Hin Hne]; set_solver.
Qed.

Lemma remove_hashes_loop_spec w raw idx wh n :
  let p := remove_hashes_loop w raw idx wh n in
  snd (fst p) = wh ∖ normalize_hashes raw /\
  snd p = n + Z.of_nat (size (wh ∩ normalize_hashes raw)) /\
  (forall h w', w' ∈ idx_get h (fst (fst p)) <->
     w' ∈ idx_get h idx /\ ~ (w' = w /\ h ∈ normalize_hashes raw /\ h ∈ wh)) /\
  (no_empty idx -> no_empty (fst (fst p))).
Proof.
  revert idx wh n. induction raw as [|r raw IH]; intros idx wh n; simpl.
  { split_and!; [set_solver| |set_solver|done].
    change (normalize_hashes []) with (∅ : gset string). replace (wh ∩ (∅ : gset string)) with (∅ : gset string) by set_solver.
    rewrite size_empty. lia. }
  rewrite normalize_cons. destruct (validate_sha256_hex r) as [h0|]; [|apply IH].
  case_bool_decide as Hin.
  - destruct (IH (index_del w h0 idx) (wh ∖ {[h0]}) (n + 1)) as (E1 & E2 & E3 & E4).
    split_and!; [|rewrite E2| |by intros ?; apply E4, no_empty_del].
    + rewrite E1. clear. set_solver.
    + replace (wh ∩ ({[h0]} ∪ normalize_hashes raw)) with ({[h0]} ∪ (wh ∖ {[h0]}) ∩ normalize_hashes raw) by (clear -Hin; apply set_eq; intros x; destruct (decide (x = h0)); set_solver).
      rewrite (size_union {[h0]}); [|clear; set_solver]. rewrite size_singleton. lia.
    + intros h w'. rewrite E3, idx_get_del. destruct (String.eqb_spec h h0) as [->|Hne]; [clear -Hin|clear -Hin Hne]; set_solver.
  - destruct (IH idx wh n) as (E1 & E2 & E3 & E4). split_and!; [|rewrite E2| |done].
    + rewrite E1. clear -Hin. set_solver.
    + do 2 f_equal. clear -Hin. f_equal. set_solver.
    + intros h w'. rewrite E3. clear -Hin. set_solver.
Qed.

Lemma register_hashes_loop_spec w raw idx norm :
  let p := register_hashes_loop w raw idx norm in
  snd p = normalize_hashes raw ∪ norm /\
  (forall h w', w' ∈ idx_get h (fst p) <-> w' ∈ idx_get h idx \/ (w' = w /\ h ∈ normalize_hashes raw)) /\
  (no_empty idx -> no_empty (fst p)).
Proof.
  revert idx norm. induction raw as [|r raw IH]; intros idx norm; simpl; [split_and!; [set_solver..|done]|].
  rewrite normalize_cons. destruct (validate_sha256_hex r) as [h0|]; [|apply IH].
  destruct (IH (index_add w h0 idx) ({[h0]} ∪ norm)) as (E1 & E2 & E3).
  split_and!; [| |by intros ?; apply E3, no_empty_add].
  - rewrite E1. clear. set_solver.
  - intros h w'. rewrite E2, idx_get_add. destruct (String.eqb_spec h h0) as [->|Hne]; [clear|clear -Hne]; set_solver.
Qed.

Lemma prune_spec w l idx :
  let idx' := fold_left (fun idx h => index_del w h idx) l idx in
  (forall h w', w' ∈ idx_get h idx' <-> w' ∈ idx_get h idx /\ ~ (w' = w /\ h ∈ l)) /\
  (no_empty idx -> no_empty idx').
Proof.
  revert idx. induction l as [|h0 l IH]; intros idx; simpl; [split; [set_solver|done]|].
  destruct (IH (index_del w h0 idx)) as (E1 & E2). split; [|by intros ?; apply E2, no_empty_del].
  intros h w'. rewrite E1, idx_get_del. destruct (String.eqb_spec h h0) as [->|Hne]; [clear|clear -Hne]; set_solver.
Qed.
End index_lemmas.
