(* ===== verification/WorkerRegistryProps.v ===== *)
(** * Worker registry: invariants and properties

    The registry's invariant ties the four structures of [WorkerRegistry]
    together; every method preserves it, whether or not its write succeeds. *)
From S2P Require Export WorkerRegistry.

Section worker_registry_proofs.
Context {S : Type} `{RecordStore S worker_info} `{RecordDelete S}.
Implicit Types reg : workers S.

Record wk_wf reg : Prop := {
  wf_workers : od_wf (wk_workers reg);
  wf_health : od_wf (wk_health reg);
  wf_index : forall h w, w ∈ holders_of reg h <-> h ∈ hashes_of reg w;
  wf_nonempty : no_empty (wk_hash_index reg);
  wf_dom : forall w, is_Some (get_worker reg w) <-> is_Some (wk_worker_hashes reg !! w);
  wf_inventory : forall w i, get_worker reg w = Some i -> wi_inventory_hashes i = hashes_of reg w;
  wf_sha : forall w h, h ∈ hashes_of reg w -> is_sha256 h = true;
  wf_id : forall w i, get_worker reg w = Some i -> validate_worker_id (wi_worker_id i) = Ok w;
  wf_tracked : forall w, is_Some (get_worker reg w) -> is_Some (get_health_record reg w);
}.

Lemma wk_wf_empty st : wk_wf (empty_workers st).
Proof.
  constructor; try done; try apply od_wf_nil.
  - intros w. split; intros [? Hs]; [done|]. simpl in Hs. by rewrite lookup_empty in Hs.
  - intros w [? Hs]. done.
Qed.

(** Only the structures matter, not the store. *)
Lemma wk_wf_same reg reg' :
  wk_workers reg' = wk_workers reg -> wk_hash_index reg' = wk_hash_index reg ->
  wk_worker_hashes reg' = wk_worker_hashes reg -> wk_health reg' = wk_health reg ->
  wk_wf reg -> wk_wf reg'.
Proof.
  intros E1 E2 E3 E4 []. constructor; unfold get_worker, hashes_of, holders_of, get_health_record in *;
    rewrite ?E1, ?E2, ?E3, ?E4; done.
Qed.

Definition same_but_store reg reg' : Prop :=
  wk_workers reg' = wk_workers reg /\ wk_hash_index reg' = wk_hash_index reg /\
  wk_worker_hashes reg' = wk_worker_hashes reg /\ wk_health reg' = wk_health reg.

Lemma persist_worker_same {B} wid (b : B) reg : same_but_store reg (fst (persist_worker wid b reg)).
Proof. unfold persist_worker. by destruct (get_worker reg wid). Qed.

Lemma delete_persisted_same {B} wid (b : B) reg : same_but_store reg (fst (delete_persisted_worker wid b reg)).
Proof. unfold delete_persisted_worker. destruct (wk_store reg) as [s|]; [|done]. by destruct (store_delete s wid). Qed.

Lemma same_but_store_trans r1 r2 r3 : same_but_store r1 r2 -> same_but_store r2 r3 -> same_but_store r1 r3.
Proof. intros (A1 & A2 & A3 & A4) (B1 & B2 & B3 & B4). split_and!; congruence. Qed.

Lemma delete_rows_same ids reg : same_but_store reg (fst (delete_rows ids reg)).
Proof.
  revert reg. induction ids as [|w ids IH]; intros reg; simpl; [done|].
  pose proof (delete_persisted_same w tt reg) as Hs.
  destruct (delete_persisted_worker w tt reg) as [reg' [u|e]]; simpl in *; [|done].
  eapply same_but_store_trans; [exact Hs|apply IH].
Qed.

Lemma same_but_store_wf reg reg' : same_but_store reg reg' -> wk_wf reg -> wk_wf reg'.
Proof. intros (E1 & E2 & E3 & E4). by apply wk_wf_same. Qed.

Lemma same_get reg reg' w : same_but_store reg reg' -> get_worker reg' w = get_worker reg w.
Proof. intros (E1 & _). unfold get_worker. by rewrite E1. Qed.
Lemma same_hashes reg reg' w : same_but_store reg reg' -> hashes_of reg' w = hashes_of reg w.
Proof. intros (_ & _ & E & _). unfold hashes_of. by rewrite E. Qed.
Lemma same_holders reg reg' h : same_but_store reg reg' -> holders_of reg' h = holders_of reg h.
Proof. intros (_ & E & _). unfold holders_of. by rewrite E. Qed.
Lemma same_health reg reg' w : same_but_store reg reg' -> get_health_record reg' w = get_health_record reg w.
Proof. intros (_ & _ & _ & E). unfold get_health_record. by rewrite E. Qed.

(** ** Edits of one worker or one health record *)

Definition keeps_inventory (f : worker_info -> worker_info) : Prop :=
  forall i, wi_inventory_hashes (f i) = wi_inventory_hashes i /\ wi_worker_id (f i) = wi_worker_id i.

Lemma get_alter_worker w f reg w' :
  get_worker (alter_worker w f reg) w' =
  if String.eqb w' w then option_map f (get_worker reg w) else get_worker reg w'.
Proof.
  unfold alter_worker. destruct (get_worker reg w) as [i|] eqn:E.
  - unfold get_worker, set_worker. simpl. rewrite od_get_set. by destruct (String.eqb w' w).
  - destruct (String.eqb_spec w' w) as [->|]; [|done]. by rewrite E.
Qed.

Lemma alter_worker_rest w f reg :
  wk_hash_index (alter_worker w f reg) = wk_hash_index reg /\
  wk_worker_hashes (alter_worker w f reg) = wk_worker_hashes reg /\
  wk_health (alter_worker w f reg) = wk_health reg.
Proof. unfold alter_worker. by destruct (get_worker reg w). Qed.

Lemma alter_worker_wf w f reg : keeps_inventory f -> wk_wf reg -> wk_wf (alter_worker w f reg).
Proof.
  intros Hf W. destruct (alter_worker_rest w f reg) as (E1 & E2 & E3).
  constructor; unfold hashes_of, holders_of, get_health_record; rewrite ?E1, ?E2, ?E3; try by apply W.
  - unfold alter_worker. destruct (get_worker reg w); [|apply W]. simpl. apply od_set_wf, W.
  - intros w'. rewrite get_alter_worker. destruct (String.eqb_spec w' w) as [->|]; [|apply W].
    rewrite <- (wf_dom _ W). by destruct (get_worker reg w).
  - intros w' i. rewrite get_alter_worker. destruct (String.eqb_spec w' w) as [->|]; [|apply W].
    destruct (get_worker reg w) as [i0|] eqn:E; simpl; [|done]. intros [= <-].
    rewrite (proj1 (Hf i0)). by apply W.
  - intros w' i. rewrite get_alter_worker. destruct (String.eqb_spec w' w) as [->|]; [|apply W].
    destruct (get_worker reg w) as [i0|] eqn:E; simpl; [|done]. intros [= <-].
    rewrite (proj2 (Hf i0)). by apply W.
  - intros w'. rewrite get_alter_worker. destruct (String.eqb_spec w' w) as [->|]; [|apply W].
    intros Hs. apply (wf_tracked _ W). by destruct (get_worker reg w).
Qed.

Lemma set_worker_alter w i f reg :
  get_worker reg w = Some i -> set_worker w (f i) reg = alter_worker w f reg.
Proof. intros E. unfold alter_worker. by rewrite E. Qed.

Lemma set_health_wf w r reg : wk_wf reg -> wk_wf (set_health w r reg).
Proof.
  intros []. constructor; try done.
  - simpl. eauto with odict.
  - intros w' Hs. unfold get_health_record, set_health. simpl. rewrite od_get_set.
    destruct (String.eqb w' w); [done|by apply wf_tracked0].
Qed.

Lemma alter_health_wf w f reg : wk_wf reg -> wk_wf (alter_health w f reg).
Proof. unfold alter_health. destruct (get_health_record reg w); [apply set_health_wf|done]. Qed.

Lemma transition_wf w h st reg : wk_wf reg -> wk_wf (transition w h st reg).
Proof. intros W. unfold transition. apply alter_worker_wf; [done|]. by apply alter_health_wf. Qed.

(** ** Inventory changes *)

(** Any update of one worker's set, in step in the three places, keeps the
    invariant. *)
Lemma inventory_update_wf w i idx wh reg reg' :
  wk_wf reg -> get_worker reg w = Some i ->
  (forall h w', w' ∈ idx_get h idx <-> (w' <> w /\ w' ∈ holders_of reg h) \/ (w' = w /\ h ∈ wh)) ->
  no_empty idx -> (forall h, h ∈ wh -> is_sha256 h = true) ->
  wk_workers reg' = od_set w (wi_set_inventory wh i) (wk_workers reg) ->
  wk_hash_index reg' = idx -> wk_worker_hashes reg' = <[w := wh]> (wk_worker_hashes reg) ->
  wk_health reg' = wk_health reg -> wk_wf reg'.
Proof.
  intros W Hi Hidx Hne Hsha E1 E2 E3 E4.
  assert (forall w', hashes_of reg' w' = if String.eqb w' w then wh else hashes_of reg w') as Hh.
  { intros w'. unfold hashes_of. rewrite E3. apply idx_get_insert. }
  assert (forall w', get_worker reg' w' = if String.eqb w' w then Some (wi_set_inventory wh i) else get_worker reg w') as Hg.
  { intros w'. unfold get_worker. rewrite E1. apply od_get_set. }
  constructor.
  - rewrite E1. apply od_set_wf, W.
  - rewrite E4. apply W.
  - intros h w'. unfold holders_of. rewrite E2, Hidx, Hh, (wf_index _ W).
    destruct (String.eqb_spec w' w) as [->|]; naive_solver.
  - by rewrite E2.
  - intros w'. rewrite Hg, E3. destruct (String.eqb_spec w' w) as [->|].
    + rewrite lookup_insert_eq. split; intros _; by eexists.
    + rewrite lookup_insert_ne by congruence. apply W.
  - intros w' i'. rewrite Hg, Hh. destruct (String.eqb_spec w' w) as [->|]; [by intros [= <-]|apply W].
  - intros w' h. rewrite Hh. destruct (String.eqb_spec w' w) as [->|]; [apply Hsha|apply W].
  - intros w' i'. rewrite Hg. destruct (String.eqb_spec w' w) as [->|]; [|apply W].
    intros [= <-]. exact (wf_id _ W w i Hi).
  - intros w'. unfold get_health_record. rewrite Hg, E4.
    destruct (String.eqb_spec w' w) as [->|]; [|apply W]. intros _. apply (wf_tracked _ W). by rewrite Hi.
Qed.

Lemma add_locked_spec w raw reg :
  wk_wf reg ->
  let p := add_worker_hashes_locked w raw reg in
  wk_wf (fst p) /\
  (forall w', hashes_of (fst p) w' =
     if String.eqb w' w && od_mem w (wk_workers reg) then normalize_hashes raw ∪ hashes_of reg w' else hashes_of reg w') /\
  (forall w', get_worker (fst p) w' =
     if String.eqb w' w then option_map (wi_set_inventory (normalize_hashes raw ∪ hashes_of reg w)) (get_worker reg w)
     else get_worker reg w') /\
  wk_health (fst p) = wk_health reg /\
  (od_mem w (wk_workers reg) = true -> snd p = Z.of_nat (size (normalize_hashes raw ∖ hashes_of reg w))).
Proof.
  intros W p. unfold p, add_worker_hashes_locked, od_mem.
  change (od_get w (wk_workers reg)) with (get_worker reg w).
  destruct (get_worker reg w) as [i|] eqn:Hi.
  2: { split_and!; [done| | |done|done]; intros w'; destruct (String.eqb_spec w' w) as [->|]; done. }
  destruct (add_hashes_loop_spec w raw (wk_hash_index reg) (hashes_of reg w) 0) as (A1 & A2 & A3 & A4).
  destruct (add_hashes_loop w raw (wk_hash_index reg) (hashes_of reg w) 0) as [[idx wh] n]. simpl in *. subst wh n.
  split_and!.
  - eapply (inventory_update_wf w i idx); [done|done| | | |done..].
    + intros h w'. rewrite A3. change (idx_get h (wk_hash_index reg)) with (holders_of reg h).
      rewrite elem_of_union. pose proof (wf_index _ W h w) as Hidx.
      destruct (decide (w' = w)) as [->|]; [destruct (decide (h ∈ hashes_of reg w))|]; tauto.
    + apply A4, W.
    + intros h [Hn|Ho]%elem_of_union; [by eapply normalize_sha|by eapply (wf_sha _ W)].
  - intros w'. unfold hashes_of at 1. simpl. rewrite idx_get_insert.
    destruct (String.eqb_spec w' w) as [->|]; done.
  - intros w'. unfold get_worker at 1. simpl. rewrite od_get_set. by destruct (String.eqb w' w).
  - done.
  - done.
Qed.

Lemma remove_locked_spec w raw reg :
  wk_wf reg ->
  let p := remove_worker_hashes_locked w raw reg in
  wk_wf (fst p) /\
  (forall w', hashes_of (fst p) w' =
     if String.eqb w' w && od_mem w (wk_workers reg) then hashes_of reg w' ∖ normalize_hashes raw else hashes_of reg w') /\
  (forall w', get_worker (fst p) w' =
     if String.eqb w' w then option_map (wi_set_inventory (hashes_of reg w ∖ normalize_hashes raw)) (get_worker reg w)
     else get_worker reg w') /\
  wk_health (fst p) = wk_health reg /\
  (od_mem w (wk_workers reg) = true -> snd p = Z.of_nat (size (hashes_of reg w ∩ normalize_hashes raw))).
Proof.
  intros W p. unfold p, remove_worker_hashes_locked, od_mem.
  change (od_get w (wk_workers reg)) with (get_worker reg w).
  destruct (get_worker reg w) as [i|] eqn:Hi.
  2: { split_and!; [done| | |done|done]; intros w'; destruct (String.eqb_spec w' w) as [->|]; done. }
  assert (is_Some (wk_worker_hashes reg !! w)) as [s0 Hs0] by (apply (wf_dom _ W); by rewrite Hi).
  destruct (remove_hashes_loop_spec w raw (wk_hash_index reg) (hashes_of reg w) 0) as (A1 & A2 & A3 & A4).
  destruct (remove_hashes_loop w raw (wk_hash_index reg) (hashes_of reg w) 0) as [[idx wh] n]. simpl in *. subst wh n.
  rewrite Hs0. split_and!.
  - eapply (inventory_update_wf w i idx); [done|done| | | |done..].
    + intros h w'. rewrite A3. change (idx_get h (wk_hash_index reg)) with (holders_of reg h).
      rewrite elem_of_difference. pose proof (wf_index _ W h w) as Hidx.
      destruct (decide (w' = w)) as [->|]; tauto.
    + apply A4, W.
    + intros h [Ho _]%elem_of_difference. by eapply (wf_sha _ W).
  - intros w'. unfold hashes_of at 1. simpl. rewrite idx_get_insert.
    destruct (String.eqb_spec w' w) as [->|]; done.
  - intros w'. unfold get_worker at 1. simpl. rewrite od_get_set. by destruct (String.eqb w' w).
  - done.
  - done.
Qed.

(** ** Registration and removal *)

(** Pruning a worker removes exactly its index entries. *)
Lemma remove_index_holders w reg h w' :
  wk_wf reg ->
  w' ∈ holders_of (remove_worker_from_index w reg) h <-> w' <> w /\ w' ∈ holders_of reg h.
Proof.
  intros W. unfold holders_of at 1, remove_worker_from_index. simpl.
  rewrite (proj1 (prune_spec w _ _)), elem_of_elements.
  change (idx_get h (wk_hash_index reg)) with (holders_of reg h).
  pose proof (wf_index _ W h w) as Hidx. destruct (decide (w' = w)) as [->|]; tauto.
Qed.

Lemma remove_index_no_empty w reg : wk_wf reg -> no_empty (wk_hash_index (remove_worker_from_index w reg)).
Proof. intros W. apply (prune_spec w), W. Qed.

Lemma hashes_remove_index w reg w' :
  hashes_of (remove_worker_from_index w reg) w' = if String.eqb w' w then ∅ else hashes_of reg w'.
Proof. apply idx_get_delete. Qed.

Lemma unregister_locked_spec w reg :
  wk_wf reg ->
  let p := unregister_worker_locked w reg in
  wk_wf (fst p) /\ snd p = get_worker reg w /\
  (forall w', get_worker (fst p) w' = if String.eqb w' w then None else get_worker reg w') /\
  (forall w', hashes_of (fst p) w' = if String.eqb w' w then ∅ else hashes_of reg w') /\
  (forall w', get_health_record (fst p) w' =
     if String.eqb w' w && od_mem w (wk_workers reg)
     then option_map (fun r => hr_with_status WH_DEAD (hr_consecutive_failures r) r) (get_health_record reg w)
     else get_health_record reg w') /\
  (forall k, k ∈ od_keys (wk_workers (fst p)) -> k ∈ od_keys (wk_workers reg)).
Proof.
  intros W p. unfold p, unregister_worker_locked, od_mem.
  change (od_get w (wk_workers reg)) with (get_worker reg w).
  destruct (get_worker reg w) as [i|] eqn:Hi; simpl.
  2: { assert (hashes_of reg w = ∅) as Hno.
       { unfold hashes_of, idx_get. destruct (wk_worker_hashes reg !! w) eqn:E; [|done].
         exfalso. assert (is_Some (get_worker reg w)) as [? ?] by (apply (wf_dom _ W); by rewrite E). congruence. }
       split_and!; try done; intros w'; destruct (String.eqb_spec w' w) as [->|]; done. }
  set (reg1 := {| wk_workers := od_del w (wk_workers reg); wk_hash_index := wk_hash_index reg;
    wk_worker_hashes := wk_worker_hashes reg; wk_health := wk_health reg; wk_store := wk_store reg |}).
  set (reg2 := remove_worker_from_index w reg1).
  assert (forall w', get_worker reg2 w' = if String.eqb w' w then None else get_worker reg w') as Hg.
  { intros w'. unfold get_worker. simpl. apply od_get_del, W. }
  assert (forall w', hashes_of reg2 w' = if String.eqb w' w then ∅ else hashes_of reg w') as Hh
    by (intros w'; exact (hashes_remove_index w reg1 w')).
  assert (wk_wf reg2) as W2.
  { constructor.
    - simpl. apply od_del_wf, W.
    - apply W.
    - intros h w'. change (holders_of reg2 h) with (holders_of (remove_worker_from_index w reg) h).
      rewrite remove_index_holders by done. rewrite Hh, (wf_index _ W).
      destruct (String.eqb_spec w' w); [set_solver|tauto].
    - apply (remove_index_no_empty w reg W).
    - intros w'. rewrite Hg. simpl. destruct (String.eqb_spec w' w) as [->|].
      + rewrite lookup_delete_eq. split; by intros [? ?].
      + rewrite lookup_delete_ne by congruence. apply W.
    - intros w' i'. rewrite Hg, Hh. destruct (String.eqb w' w); [done|apply W].
    - intros w' h. rewrite Hh. destruct (String.eqb w' w); [set_solver|apply W].
    - intros w' i'. rewrite Hg. destruct (String.eqb w' w); [done|apply W].
    - intros w'. rewrite Hg. destruct (String.eqb w' w); [by intros [? ?]|apply W]. }
  change (get_health_record reg2 w) with (get_health_record reg w).
  destruct (get_health_record reg w) as [r|] eqn:Hr.
  2: { assert (is_Some (get_health_record reg w)) as [? ?] by (apply (wf_tracked _ W); by rewrite Hi). congruence. }
  split_and!; [by apply set_health_wf|done|exact Hg|exact Hh| |].
  - intros w'. rewrite andb_true_r. unfold get_health_record, set_health. simpl. rewrite od_get_set.
    by destruct (String.eqb w' w).
  - intros k. apply od_keys_del_subset.
Qed.

Lemma strip_idemp_id raw w : validate_worker_id raw = Ok w -> validate_worker_id w = Ok w.
Proof.
  unfold validate_worker_id. destruct (_ && _) eqn:E; [|done]. intros [= <-].
  rewrite (strip_nospace (strip raw)).
  - by rewrite E.
  - apply andb_true_iff in E as [_ E]. eapply str_forallb_impl; [|exact E].
    intros c. by destruct c as [[] [] [] [] [] [] [] []].
Qed.

Lemma register_worker_spec now info reg w :
  wk_wf reg -> validate_worker_id (wi_worker_id info) = Ok w ->
  let p := register_worker now info reg in
  let norm := normalize_hashes (elements (wi_inventory_hashes info)) in
  wk_wf (fst p) /\
  (forall w', hashes_of (fst p) w' = if String.eqb w' w then norm else hashes_of reg w') /\
  (forall w', w' <> w -> get_worker (fst p) w' = get_worker reg w') /\
  get_worker (fst p) w =
    Some (wi_set_inventory norm (if fle (wi_last_heartbeat_utc info) f0 then wi_set_heartbeat now info else info)) /\
  (forall w', get_health_record (fst p) w' =
     if String.eqb w' w then Some (register_health now w (get_health_record reg w)) else get_health_record reg w').
Proof.
  intros W Hw p norm. unfold p, register_worker. rewrite Hw.
  set (copy := if fle (wi_last_heartbeat_utc info) f0 then wi_set_heartbeat now info else info).
  assert (wi_inventory_hashes copy = wi_inventory_hashes info) as -> by (unfold copy; by destruct (fle _ _)).
  set (reg1 := if bool_decide (is_Some (wk_worker_hashes reg !! w)) then remove_worker_from_index w reg else reg).
  assert ((forall h w', w' ∈ holders_of reg1 h <-> w' <> w /\ w' ∈ holders_of reg h) /\
          no_empty (wk_hash_index reg1) /\ wk_workers reg1 = wk_workers reg /\ wk_health reg1 = wk_health reg /\
          forall w', w' <> w -> wk_worker_hashes reg1 !! w' = wk_worker_hashes reg !! w') as (R1 & R2 & R3 & R4 & R5).
  { unfold reg1. case_bool_decide as Hs.
    - split_and!; [intros; by apply remove_index_holders|by apply remove_index_no_empty|done|done|].
      intros w' Hne. simpl. by rewrite lookup_delete_ne by congruence.
    - split_and!; [|apply W|done|done|done]. intros h w'. split; [|by intros [_ ?]].
      intros Hin. split; [|done]. intros ->. apply (wf_index _ W) in Hin. apply Hs.
      unfold hashes_of, idx_get in Hin. destruct (wk_worker_hashes reg !! w); [done|]. set_solver. }
  destruct (register_hashes_loop_spec w (elements (wi_inventory_hashes info)) (wk_hash_index reg1) ∅) as (A1 & A2 & A3).
  destruct (register_hashes_loop _ _ _ _) as [idx nm]. cbn [fst snd] in A1, A2, A3.
  assert (nm = norm) as -> by (rewrite A1; apply union_empty_r_L). clear A1.
  set (reg2 := {| wk_workers := od_set w _ (wk_workers reg1); wk_hash_index := idx; wk_worker_hashes := _;
                  wk_health := _; wk_store := _ |}).
  pose proof (persist_worker_same w (wi_set_inventory norm copy) reg2) as Hsame.
  assert (forall w', hashes_of reg2 w' = if String.eqb w' w then norm else hashes_of reg w') as Hh.
  { intros w'. unfold hashes_of at 1. simpl. rewrite idx_get_insert.
    destruct (String.eqb_spec w' w); [done|]. unfold hashes_of, idx_get. by rewrite R5. }
  assert (forall w', get_worker reg2 w' = if String.eqb w' w then Some (wi_set_inventory norm copy) else get_worker reg w') as Hg.
  { intros w'. unfold get_worker at 1. simpl. rewrite od_get_set, R3. done. }
  assert (forall w', get_health_record reg2 w' =
    if String.eqb w' w then Some (register_health now w (get_health_record reg w)) else get_health_record reg w') as Hr.
  { intros w'. unfold get_health_record at 1. simpl. rewrite od_get_set. unfold get_health_record. by rewrite R4. }
  assert (wk_wf reg2) as W2.
  { constructor.
    - simpl. rewrite R3. apply od_set_wf, W.
    - simpl. rewrite R4. apply od_set_wf, W.
    - intros h w'. unfold holders_of. simpl. rewrite A2. change (idx_get h (wk_hash_index reg1)) with (holders_of reg1 h).
      rewrite R1, Hh, (wf_index _ W). destruct (String.eqb_spec w' w) as [->|]; naive_solver.
    - apply A3, R2.
    - intros w'. rewrite Hg. simpl. destruct (String.eqb_spec w' w) as [->|].
      + rewrite lookup_insert_eq. split; intros _; by eexists.
      + rewrite lookup_insert_ne by congruence. rewrite R5 by done. apply W.
    - intros w' i'. rewrite Hg, Hh. destruct (String.eqb w' w); [by intros [= <-]|apply W].
    - intros w' h. rewrite Hh. destruct (String.eqb w' w); [apply normalize_sha|apply W].
    - intros w' i'. rewrite Hg. destruct (String.eqb_spec w' w) as [->|]; [|apply W]. intros [= <-].
      simpl. unfold copy. by destruct (fle _ _).
    - intros w'. rewrite Hg, Hr. destruct (String.eqb w' w); [done|apply W]. }
  split_and!.
  - by eapply same_but_store_wf.
  - intros w'. rewrite (same_hashes _ _ _ Hsame). apply Hh.
  - intros w' Hne. rewrite (same_get _ _ _ Hsame), Hg. by destruct (String.eqb_spec w' w).
  - by rewrite (same_get _ _ _ Hsame), Hg, String.eqb_refl.
  - intros w'. rewrite (same_health _ _ _ Hsame). apply Hr.
Qed.

(** ** Heartbeats *)

Lemma persist_worker_wf {B} w (b : B) reg : wk_wf reg -> wk_wf (fst (persist_worker w b reg)).
Proof. apply same_but_store_wf, persist_worker_same. Qed.

Lemma hashes_alter_worker w f reg w' : hashes_of (alter_worker w f reg) w' = hashes_of reg w'.
Proof. unfold hashes_of. by rewrite (proj1 (proj2 (alter_worker_rest w f reg))). Qed.

Lemma od_mem_worker w reg : od_mem w (wk_workers reg) = bool_decide (is_Some (get_worker reg w)).
Proof. unfold od_mem, get_worker. destruct (od_get w (wk_workers reg)); [by rewrite bool_decide_eq_true_2|by rewrite bool_decide_eq_false_2 by (by intros [? ?])]. Qed.

(** The worker after the payload of a heartbeat. *)
Definition payload_inventory (p : heartbeat_payload) (inv : gset string) : gset string :=
  (normalize_hashes (elements (hb_inventory_delta_added p)) ∪ inv)
    ∖ normalize_hashes (elements (hb_inventory_delta_removed p)).

Definition payload_worker (now : float) (p : heartbeat_payload) (i : worker_info) : worker_info :=
  let i' := wi_set_inventory (payload_inventory p (wi_inventory_hashes i)) (heartbeat_payload_fields p i) in
  wi_set_profile (received_profile now (hb_resource_profile p) i') i'.

Lemma normalize_empty : normalize_hashes (elements (∅ : gset string)) = ∅.
Proof. by rewrite elements_empty. Qed.

(** Adding or removing an optional delta. *)
Lemma delta_added_spec w (d : gset string) reg i :
  wk_wf reg -> get_worker reg w = Some i ->
  let reg' := if bool_decide (d = ∅) then reg else fst (add_worker_hashes_locked w (elements d) reg) in
  wk_wf reg' /\ (forall w', w' <> w -> get_worker reg' w' = get_worker reg w') /\
  get_worker reg' w = Some (wi_set_inventory (normalize_hashes (elements d) ∪ wi_inventory_hashes i) i) /\
  wk_health reg' = wk_health reg.
Proof.
  intros W Hi reg'. unfold reg'. case_bool_decide as Hd.
  - subst d. rewrite normalize_empty, union_empty_l_L. split_and!; try done. rewrite Hi. by destruct i.
  - destruct (add_locked_spec w (elements d) reg W) as (W' & _ & Hg & Hh & _). split_and!; [done| | |done].
    + intros w' Hne. rewrite Hg. by destruct (String.eqb_spec w' w).
    + rewrite Hg, String.eqb_refl, Hi. simpl. by rewrite (wf_inventory _ W w i Hi).
Qed.

Lemma delta_removed_spec w (d : gset string) reg i :
  wk_wf reg -> get_worker reg w = Some i ->
  let reg' := if bool_decide (d = ∅) then reg else fst (remove_worker_hashes_locked w (elements d) reg) in
  wk_wf reg' /\ (forall w', w' <> w -> get_worker reg' w' = get_worker reg w') /\
  get_worker reg' w = Some (wi_set_inventory (wi_inventory_hashes i ∖ normalize_hashes (elements d)) i) /\
  wk_health reg' = wk_health reg.
Proof.
  intros W Hi reg'. unfold reg'. case_bool_decide as Hd.
  - subst d. rewrite normalize_empty, difference_empty_L. split_and!; try done. rewrite Hi. by destruct i.
  - destruct (remove_locked_spec w (elements d) reg W) as (W' & _ & Hg & Hh & _). split_and!; [done| | |done].
    + intros w' Hne. rewrite Hg. by destruct (String.eqb_spec w' w).
    + rewrite Hg, String.eqb_refl, Hi. simpl. by rewrite (wf_inventory _ W w i Hi).
Qed.

Lemma alter_worker_spec w f reg i :
  keeps_inventory f -> wk_wf reg -> get_worker reg w = Some i ->
  wk_wf (alter_worker w f reg) /\ (forall w', w' <> w -> get_worker (alter_worker w f reg) w' = get_worker reg w') /\
  get_worker (alter_worker w f reg) w = Some (f i) /\ wk_health (alter_worker w f reg) = wk_health reg.
Proof.
  intros Hf W Hi. split_and!; [by apply alter_worker_wf| | |apply alter_worker_rest].
  - intros w' Hne. rewrite get_alter_worker. by destruct (String.eqb_spec w' w).
  - by rewrite get_alter_worker, String.eqb_refl, Hi.
Qed.

Lemma apply_payload_spec now w p reg i :
  wk_wf reg -> get_worker reg w = Some i ->
  let reg' := heartbeat_apply_payload now w p reg in
  wk_wf reg' /\ (forall w', w' <> w -> get_worker reg' w' = get_worker reg w') /\
  get_worker reg' w = Some (payload_worker now p i) /\ wk_health reg' = wk_health reg.
Proof.
  intros W Hi reg'. unfold reg', heartbeat_apply_payload.
  destruct (alter_worker_spec w (heartbeat_payload_fields p) reg i ltac:(done) W Hi) as (W1 & O1 & G1 & H1').
  destruct (delta_added_spec w (hb_inventory_delta_added p) _ _ W1 G1) as (W2 & O2 & G2 & H2').
  destruct (delta_removed_spec w (hb_inventory_delta_removed p) _ _ W2 G2) as (W3 & O3 & G3 & H3').
  destruct (alter_worker_spec w (fun w => wi_set_profile (received_profile now (hb_resource_profile p) w) w)
    _ _ ltac:(done) W3 G3) as (W4 & O4 & G4 & H4').
  split_and!; [exact W4| |rewrite G4; done|congruence].
  intros w' Hne. by rewrite O4, O3, O2, O1.
Qed.

(** The worker after a heartbeat. *)
Definition beaten_worker (now : float) (payload : option heartbeat_payload) (i : worker_info) : worker_info :=
  heartbeat_revive
    (match payload with Some p => payload_worker now p (wi_beat now i) | None => wi_beat now i end).

Lemma record_heartbeat_spec now w payload reg i :
  wk_wf reg -> get_worker reg w = Some i ->
  let p := record_heartbeat now w payload reg in
  wk_wf (fst p) /\ (forall w', w' <> w -> get_worker (fst p) w' = get_worker reg w') /\
  get_worker (fst p) w = Some (beaten_worker now payload i) /\
  (forall w', get_health_record (fst p) w' =
     if String.eqb w' w then option_map heartbeat_revive_health (get_health_record reg w)
     else get_health_record reg w').
Proof.
  intros W Hi p. unfold p, record_heartbeat. rewrite Hi, (set_worker_alter w i (wi_beat now) reg Hi).
  destruct (alter_worker_spec w (wi_beat now) reg i ltac:(done) W Hi) as (W1 & O1 & G1 & H1').
  set (reg1 := alter_worker w (wi_beat now) reg) in *.
  set (i2 := match payload with Some p => payload_worker now p (wi_beat now i) | None => wi_beat now i end).
  assert (exists reg2, reg2 = match payload with Some p => heartbeat_apply_payload now w p reg1 | None => reg1 end /\
    wk_wf reg2 /\ (forall w', w' <> w -> get_worker reg2 w' = get_worker reg w') /\
    get_worker reg2 w = Some i2 /\ wk_health reg2 = wk_health reg) as (reg2 & <- & W2 & O2 & G2 & H2').
  { eexists. split; [reflexivity|]. destruct payload as [pl|]; [|done].
    destruct (apply_payload_spec now w pl reg1 _ W1 G1) as (Wp & Op & Gp & Hp). split_and!; [done| |done|congruence].
    intros w' Hne. by rewrite Op, O1. }
  set (reg3 := alter_health w heartbeat_revive_health reg2).
  assert (wk_wf reg3) as W3 by by apply alter_health_wf.
  assert (forall w', get_worker reg3 w' = get_worker reg2 w') as G3
    by (intros w'; unfold reg3, alter_health; by destruct (get_health_record reg2 w)).
  assert (get_worker reg3 w = Some i2) as G3w by by rewrite G3.
  assert (keeps_inventory heartbeat_revive) as Hk.
  { intros i0. unfold heartbeat_revive. by destruct (bool_decide (wi_status i0 = WS_OFFLINE)). }
  destruct (alter_worker_spec w heartbeat_revive reg3 i2 Hk W3 G3w) as (W4 & O4 & G4 & H4').
  pose proof (persist_worker_same w true (alter_worker w heartbeat_revive reg3)) as Hsame.
  split_and!.
  - by apply persist_worker_wf.
  - intros w' Hne. by rewrite (same_get _ _ _ Hsame), O4, G3, O2.
  - rewrite (same_get _ _ _ Hsame), G4. done.
  - intros w'. rewrite (same_health _ _ _ Hsame). unfold get_health_record at 1. rewrite H4'.
    unfold reg3, alter_health.
    assert (forall w'', get_health_record reg2 w'' = get_health_record reg w'') as Hs
      by (intros; unfold get_health_record; by rewrite H2').
    rewrite Hs. destruct (get_health_record reg w) as [r|] eqn:Er.
    + simpl. rewrite od_get_set. destruct (String.eqb w' w); [done|]. apply Hs.
    + change (od_get w' (wk_health reg2)) with (get_health_record reg2 w'). rewrite Hs.
      by destruct (String.eqb_spec w' w) as [->|].
Qed.

(** ** Eviction *)

Lemma unregister_all_spec ids reg :
  wk_wf reg ->
  let p := unregister_all ids reg in
  wk_wf (fst p) /\
  (forall w, get_worker (fst p) w = if bool_decide (w ∈ ids) then None else get_worker reg w) /\
  (forall w, hashes_of (fst p) w = if bool_decide (w ∈ ids) then ∅ else hashes_of reg w) /\
  (NoDup ids -> (forall w, w ∈ ids -> is_Some (get_worker reg w)) -> snd p = ids).
Proof.
  revert reg. induction ids as [|w ids IH]; intros reg W; simpl; [by split_and!|].
  destruct (unregister_locked_spec w reg W) as (W1 & E1 & G1 & H1' & _).
  destruct (unregister_worker_locked w reg) as [reg1 o]. simpl in *. subst o.
  destruct (IH reg1 W1) as (W2 & G2 & H2' & E2). destruct (unregister_all ids reg1) as [reg2 ev]. simpl in *.
  split_and!; [done| | |].
  - intros w'. rewrite G2, G1. destruct (String.eqb_spec w' w) as [->|Hne].
    + rewrite (bool_decide_eq_true_2 (w ∈ w :: ids)) by left. by case_bool_decide.
    + erewrite (bool_decide_ext (w' ∈ w :: ids)); [done|]. rewrite elem_of_cons. tauto.
  - intros w'. rewrite H2', H1'. destruct (String.eqb_spec w' w) as [->|Hne].
    + rewrite (bool_decide_eq_true_2 (w ∈ w :: ids)) by left. by case_bool_decide.
    + erewrite (bool_decide_ext (w' ∈ w :: ids)); [done|]. rewrite elem_of_cons. tauto.
  - intros [Hnin Hnd]%NoDup_cons Hall. destruct (Hall w) as [i Hi]; [left|]. rewrite Hi. f_equal.
    apply E2; [done|]. intros w' Hw'. rewrite G1. destruct (String.eqb_spec w' w) as [->|]; [done|].
    apply Hall. by right.
Qed.

Lemma expired_elem cutoff reg w :
  wk_wf reg ->
  w ∈ expired_ids cutoff reg <-> exists i, get_worker reg w = Some i /\ flt (wi_last_heartbeat_utc i) cutoff = true.
Proof.
  intros W. unfold expired_ids. rewrite list_elem_of_In, in_map_iff. setoid_rewrite filter_In. split.
  - intros ([k i] & <- & Hin & Hf). exists i. split; [|done]. apply od_get_elem; [apply W|]. by apply list_elem_of_In.
  - intros (i & Hi & Hf). exists (w, i). split_and!; [done| |done]. apply list_elem_of_In. by apply od_get_Some_elem.
Qed.

Lemma expired_NoDup cutoff reg : wk_wf reg -> NoDup (expired_ids cutoff reg).
Proof.
  intros W. unfold expired_ids. pose proof (wf_workers _ W) as Hnd. unfold od_wf, od_keys in Hnd. revert Hnd.
  generalize (wk_workers reg) as d. induction d as [|[k i] d IH]; simpl; [done|].
  intros [Hk Hnd]%NoDup_cons. destruct (flt (wi_last_heartbeat_utc i) cutoff); simpl; [|auto].
  apply NoDup_cons; split; [|auto]. rewrite !list_elem_of_In, !in_map_iff in *.
  intros (x & Hx & Hin%filter_In). naive_solver.
Qed.

(** ** Health *)

Variable cfg : registry_config.

Definition score_update (w : string) (r : health_record) reg : workers S :=
  alter_worker w (wi_set_penalty (hr_penalty_score r)) (set_health w r reg).

Lemma score_update_wf w r p reg : wk_wf reg -> wk_wf (alter_worker w (wi_set_penalty p) (set_health w r reg)).
Proof. intros W. apply alter_worker_wf; [done|]. by apply set_health_wf. Qed.

Lemma record_success_wf now w bytes reg : wk_wf reg -> wk_wf (record_success cfg now w bytes reg).
Proof.
  intros W. unfold record_success. destruct (get_health_record reg w) as [r|]; [|done].
  destruct (flt _ _ && _); [apply transition_wf|]; by apply score_update_wf.
Qed.

Lemma record_failure_wf now w penalty reg : wk_wf reg -> wk_wf (record_failure cfg now w penalty reg).
Proof.
  intros W. unfold record_failure. destruct (get_health_record reg w) as [r|]; [|done].
  destruct (fge _ _); [|destruct (fge _ _)]; repeat apply transition_wf; by apply score_update_wf.
Qed.

Lemma remove_worker_hashes_wf w raw reg : wk_wf reg -> wk_wf (fst (remove_worker_hashes w raw reg)).
Proof.
  intros W. unfold remove_worker_hashes. destruct (remove_locked_spec w raw reg W) as (W' & _).
  destruct (remove_worker_hashes_locked w raw reg). by apply persist_worker_wf.
Qed.

Lemma add_worker_hashes_wf w raw reg : wk_wf reg -> wk_wf (fst (add_worker_hashes w raw reg)).
Proof.
  intros W. unfold add_worker_hashes. destruct (add_locked_spec w raw reg W) as (W' & _).
  destruct (add_worker_hashes_locked w raw reg). by apply persist_worker_wf.
Qed.

Lemma record_corruption_wf now w sha penalty reg :
  wk_wf reg -> wk_wf (fst (record_corruption cfg now w sha penalty reg)).
Proof.
  intros W. unfold record_corruption. destruct (get_health_record reg w) as [r|]; [|done].
  assert (wk_wf (record_failure cfg now w penalty (set_health w (hr_corrupted r) reg))) as W1
    by by apply record_failure_wf, set_health_wf.
  destruct (validate_sha256_hex sha) as [h|]; [|done].
  pose proof (remove_worker_hashes_wf w [h] _ W1) as W2. by destruct (remove_worker_hashes w [h] _).
Qed.

Variable py_exp : float -> res float.
Variable py_log2 : float.

Lemma decay_one_wf now w reg reg' :
  wk_wf reg -> decay_one cfg py_exp py_log2 now reg w = Ok reg' -> wk_wf reg'.
Proof.
  intros W. unfold decay_one. destruct (get_health_record reg w) as [r|]; [|by intros [= <-]].
  destruct (fle _ _); [by intros [= <-]|]. intros (q & _ & (f & _ & Hr)%res_bind_ok)%res_bind_ok.
  injection Hr as <-. destruct (flt _ _ && _); [|destruct (flt _ _ && _)]; repeat apply transition_wf;
    by apply score_update_wf.
Qed.

Lemma decay_loop_wf now ws reg : wk_wf reg -> wk_wf (fst (decay_loop cfg py_exp py_log2 now ws reg)).
Proof.
  revert reg. induction ws as [|w ws IH]; intros reg W; simpl; [done|].
  destruct (decay_one _ _ _ _ _ _) as [reg'|e] eqn:E; [|done]. by eapply IH, decay_one_wf.
Qed.

Lemma set_worker_status_wf w st reg : wk_wf reg -> wk_wf (fst (set_worker_status w st reg)).
Proof.
  intros W. unfold set_worker_status. destruct (get_worker reg w) as [i|] eqn:Hi; [|done].
  case_bool_decide; [done|]. apply persist_worker_wf. rewrite (set_worker_alter w i (wi_set_status st) reg Hi).
  by apply alter_worker_wf.
Qed.

(** ** Synchronising an inventory *)

Lemma sync_spec w inv reg i :
  wk_wf reg -> get_worker reg w = Some i ->
  let p := sync_worker_inventory w inv reg in
  let target := normalize_hashes (elements inv) in
  wk_wf (fst p) /\
  (forall w', hashes_of (fst p) w' = if String.eqb w' w then target else hashes_of reg w') /\
  (forall w', w' <> w -> get_worker (fst p) w' = get_worker reg w') /\
  (snd p = Ok (Z.of_nat (size (target ∖ hashes_of reg w)), Z.of_nat (size (hashes_of reg w ∖ target))) \/
   snd p = Err StoreError).
Proof.
  intros W Hi p target. unfold p, sync_worker_inventory. rewrite Hi. fold target.
  assert (od_mem w (wk_workers reg) = true) as Hm by (rewrite od_mem_worker, bool_decide_eq_true; by rewrite Hi).
  destruct (add_locked_spec w (elements (target ∖ hashes_of reg w)) reg W) as (W1 & H1' & G1 & _ & N1).
  rewrite Hm in H1'. specialize (N1 Hm).
  destruct (add_worker_hashes_locked w _ reg) as [reg1 added]. simpl in *.
  assert (od_mem w (wk_workers reg1) = true) as Hm1
    by (rewrite od_mem_worker, bool_decide_eq_true; rewrite G1, String.eqb_refl, Hi; done).
  destruct (remove_locked_spec w (elements (hashes_of reg w ∖ target)) reg1 W1) as (W2 & H2' & G2 & _ & N2).
  rewrite Hm1 in H2'. specialize (N2 Hm1).
  destruct (remove_worker_hashes_locked w _ reg1) as [reg2 removed]. simpl in *.
  assert (normalize_hashes (elements (target ∖ hashes_of reg w)) = target ∖ hashes_of reg w) as En1.
  { apply normalize_sha_id. intros h [Hh _]%elem_of_difference. by eapply normalize_sha. }
  assert (normalize_hashes (elements (hashes_of reg w ∖ target)) = hashes_of reg w ∖ target) as En2.
  { apply normalize_sha_id. intros h [Hh _]%elem_of_difference. by eapply (wf_sha _ W). }
  rewrite En1 in *. rewrite En2 in *.
  assert (hashes_of reg1 w = target ∪ hashes_of reg w) as Hw1.
  { rewrite H1', String.eqb_refl. simpl. clear. apply set_eq. intros x. destruct (decide (x ∈ hashes_of reg w)); set_solver. }
  pose proof (persist_worker_same w (added, removed) reg2) as Hsame.
  split_and!.
  - by apply persist_worker_wf.
  - intros w'. rewrite (same_hashes _ _ _ Hsame), H2'. destruct (String.eqb_spec w' w) as [->|Hne]; simpl.
    + rewrite Hw1. clear. apply set_eq. intros x. destruct (decide (x ∈ target)); set_solver.
    + rewrite H1'. by destruct (String.eqb_spec w' w).
  - intros w' Hne. rewrite (same_get _ _ _ Hsame), G2. destruct (String.eqb_spec w' w); [done|].
    rewrite G1. by destruct (String.eqb_spec w' w).
  - assert (added = Z.of_nat (size (target ∖ hashes_of reg w))) as ->.
    { rewrite N1. do 2 f_equal. clear. set_solver. }
    assert (removed = Z.of_nat (size (hashes_of reg w ∖ target))) as ->.
    { rewrite N2, Hw1. do 2 f_equal. clear. set_solver. }
    unfold persist_worker. destruct (get_worker reg2 w) as [i2|]; [|by left]. simpl.
    unfold persist_result, persist. destruct (wk_store reg2) as [s|]; [|by left].
    destruct (store_save s i2); [by left|by right].
Qed.

(** ** Histories *)

Inductive wk_call :=
| KRegister (info : worker_info) | KUnregister (w : string) | KStatus (w : string) (st : worker_status)
| KAdd (w : string) (raw : list string) | KRemove (w : string) (raw : list string)
| KSync (w : string) (inv : gset string) | KHeartbeat (w : string) (p : option heartbeat_payload)
| KEvict (timeout : option float) | KSuccess (w : string) (bytes : Z) | KFailure (w : string) (penalty : float)
| KCorruption (w sha : string) (penalty : float) | KDecay | KClear.

Definition wk_step (now : float) (c : wk_call) reg : workers S :=
  match c with
  | KRegister info => fst (register_worker now info reg)
  | KUnregister w => fst (unregister_worker w reg)
  | KStatus w st => fst (set_worker_status w st reg)
  | KAdd w raw => fst (add_worker_hashes w raw reg)
  | KRemove w raw => fst (remove_worker_hashes w raw reg)
  | KSync w inv => fst (sync_worker_inventory w inv reg)
  | KHeartbeat w p => fst (record_heartbeat now w p reg)
  | KEvict t => fst (evict_expired_workers cfg now t reg)
  | KSuccess w b => record_success cfg now w b reg
  | KFailure w p => record_failure cfg now w p reg
  | KCorruption w sha p => fst (record_corruption cfg now w sha p reg)
  | KDecay => fst (decay_penalties cfg py_exp py_log2 now reg)
  | KClear => clear_workers reg
  end.

Definition wk_run (h : list (float * wk_call)) reg : workers S :=
  fold_left (fun reg '(now, c) => wk_step now c reg) h reg.

Lemma unregister_worker_wf w reg : wk_wf reg -> wk_wf (fst (unregister_worker w reg)).
Proof.
  intros W. unfold unregister_worker. destruct (unregister_locked_spec w reg W) as (W1 & _).
  destruct (unregister_worker_locked w reg) as [reg1 [i|]]; [|done].
  eapply same_but_store_wf; [apply delete_persisted_same|done].
Qed.

Lemma evict_wf now t reg : wk_wf reg -> wk_wf (fst (evict_expired_workers cfg now t reg)).
Proof.
  intros W. unfold evict_expired_workers.
  destruct (unregister_all_spec (expired_ids (fsub now (default (rc_heartbeat_timeout cfg) t)) reg) reg W) as (W1 & _).
  destruct (unregister_all _ reg) as [reg1 ev]. pose proof (delete_rows_same ev reg1) as Hs.
  destruct (delete_rows ev reg1) as [reg2 r]. by eapply same_but_store_wf.
Qed.

Lemma wk_step_wf now c reg : wk_wf reg -> wk_wf (wk_step now c reg).
Proof.
  intros W. destruct c; simpl.
  - destruct (validate_worker_id (wi_worker_id info)) as [w|] eqn:E; [by eapply register_worker_spec|].
    unfold register_worker. by rewrite E.
  - by apply unregister_worker_wf.
  - by apply set_worker_status_wf.
  - by apply add_worker_hashes_wf.
  - by apply remove_worker_hashes_wf.
  - destruct (get_worker reg w) as [i|] eqn:E; [by eapply sync_spec|]. unfold sync_worker_inventory. by rewrite E.
  - destruct (get_worker reg w) as [i|] eqn:E; [by eapply record_heartbeat_spec|]. unfold record_heartbeat. by rewrite E.
  - by apply evict_wf.
  - by apply record_success_wf.
  - by apply record_failure_wf.
  - by apply record_corruption_wf.
  - by apply decay_loop_wf.
  - apply wk_wf_empty.
Qed.

Lemma wk_run_wf h reg : wk_wf reg -> wk_wf (wk_run h reg).
Proof.
  unfold wk_run. revert reg. induction h as [|[now c] h IH]; intros reg W; simpl; [done|].
  by apply IH, wk_step_wf.
Qed.
End worker_registry_proofs.

(** ** Properties *)

Section worker_registry_properties.
Context {S : Type} `{RecordStore S worker_info} `{RecordDelete S}.
Variable cfg : registry_config.
Implicit Types reg : workers S.

(** C4: the inverted index is exact.  After any history of calls, failed
    writes included, asking who holds a hash answers exactly the registered
    workers whose inventory has it; the indexed hashes are exactly those some
    worker holds; every inventory hash is a normalised digest; and every
    registered worker has a health record. *)
Theorem inverted_index_exact (py_exp : float -> res float) (py_log2 : float) h reg :
  wk_wf reg ->
  let reg' := wk_run cfg py_exp py_log2 h reg in
  (forall raw d w, validate_sha256_hex raw = Ok d ->
     w ∈ get_workers_for_hash raw reg' <->
     exists i, get_worker reg' w = Some i /\ d ∈ wi_inventory_hashes i) /\
  (forall d, d ∈ get_all_indexed_hashes reg' <->
     exists w i, get_worker reg' w = Some i /\ d ∈ wi_inventory_hashes i) /\
  (forall w i d, get_worker reg' w = Some i -> d ∈ wi_inventory_hashes i -> is_sha256 d = true) /\
  (forall w, is_Some (get_worker reg' w) -> is_Some (get_health_record reg' w)).
Proof.
  intros W0 reg'. assert (wk_wf reg') as W by by apply wk_run_wf.
  assert (forall d w, w ∈ holders_of reg' d <-> exists i, get_worker reg' w = Some i /\ d ∈ wi_inventory_hashes i) as Hh.
  { intros d w. rewrite (wf_index _ W). split.
    - intros Hd. assert (is_Some (get_worker reg' w)) as [i Hi].
      { apply (wf_dom _ W). unfold hashes_of, idx_get in Hd.
        destruct (wk_worker_hashes reg' !! w) as [s|]; [by eexists|]. simpl in Hd. set_solver. }
      exists i. by rewrite (wf_inventory _ W w i Hi).
    - intros (i & Hi & Hd). by rewrite (wf_inventory _ W w i Hi) in Hd. }
  split_and!.
  - intros raw d w Hv. unfold get_workers_for_hash. rewrite Hv. apply Hh.
  - intros d. unfold get_all_indexed_hashes. rewrite elem_of_dom. split.
    + intros [s Hs]. destruct (set_choose_or_empty s) as [[w Hw]|He].
      * exists w. apply Hh. unfold holders_of, idx_get. by rewrite Hs.
      * apply leibniz_equiv in He. by destruct (wf_nonempty _ W d s Hs).
    + intros (w & Hi%Hh). unfold holders_of, idx_get in Hi. destruct (wk_hash_index reg' !! d); [by eexists|].
      simpl in Hi. set_solver.
  - intros w i d Hi Hd. rewrite (wf_inventory _ W w i Hi) in Hd. by eapply (wf_sha _ W).
  - apply W.
Qed.

(** Synchronising an inventory.  For a known worker the inventory becomes
    exactly the valid hashes of the given set, normalised; the counts are the
    sizes of the two differences (or the write failed); and no other worker's
    record or inventory changes. *)
Theorem sync_inventory_exact w inv reg i :
  wk_wf reg -> get_worker reg w = Some i ->
  let p := sync_worker_inventory w inv reg in
  let target := normalize_hashes (elements inv) in
  (exists i', get_worker (fst p) w = Some i' /\ wi_inventory_hashes i' = target) /\
  (forall d, w ∈ holders_of (fst p) d <-> d ∈ target) /\
  (forall w', w' <> w -> get_worker (fst p) w' = get_worker reg w' /\
     forall d, w' ∈ holders_of (fst p) d <-> w' ∈ holders_of reg d) /\
  (snd p = Ok (Z.of_nat (size (target ∖ wi_inventory_hashes i)), Z.of_nat (size (wi_inventory_hashes i ∖ target))) \/
   snd p = Err StoreError).
Proof.
  intros W Hi p target. destruct (sync_spec w inv reg i W Hi) as (W' & Hh & Ho & Hr). fold p in W', Hh, Ho, Hr.
  fold target in Hh, Hr.
  assert (is_Some (get_worker (fst p) w)) as [i' Hi'].
  { apply (wf_dom _ W'). destruct (decide (is_Some (wk_worker_hashes (fst p) !! w))) as [|Hn]; [done|].
    exfalso. unfold p, sync_worker_inventory in Hn. rewrite Hi in Hn. revert Hn.
    destruct (add_locked_spec w (elements (normalize_hashes (elements inv) ∖ hashes_of reg w)) reg W) as (W1 & _ & G1 & _).
    destruct (add_worker_hashes_locked _ _ _) as [reg1 a]. simpl in *.
    destruct (remove_locked_spec w (elements (hashes_of reg w ∖ normalize_hashes (elements inv))) reg1 W1) as (W2 & _ & G2 & _).
    destruct (remove_worker_hashes_locked _ _ _) as [reg2 b]. simpl in *. intros Hn. apply Hn.
    destruct (persist_worker_same w (a, b) reg2) as (_ & _ & -> & _). apply (wf_dom _ W2).
    by rewrite G2, String.eqb_refl, G1, String.eqb_refl, Hi. }
  split_and!.
  - exists i'. split; [done|]. by rewrite (wf_inventory _ W' w i' Hi'), Hh, String.eqb_refl.
  - intros d. by rewrite (wf_index _ W'), Hh, String.eqb_refl.
  - intros w' Hne. split; [by apply Ho|]. intros d. rewrite (wf_index _ W'), (wf_index _ W), Hh.
    by destruct (String.eqb_spec w' w).
  - by rewrite (wf_inventory _ W w i Hi).
Qed.

(** Eviction.  [evict_expired_workers] unregisters exactly the workers
    whose last heartbeat is before now minus the timeout, returns them in
    registration order (unless deleting a row fails), leaves the others
    unchanged, and removes the evicted ones, and only them, from the index. *)
Theorem eviction_exact now timeout reg :
  wk_wf reg ->
  let cutoff := fsub now (default (rc_heartbeat_timeout cfg) timeout) in
  let p := evict_expired_workers cfg now timeout reg in
  let expired w := match get_worker reg w with Some i => flt (wi_last_heartbeat_utc i) cutoff | None => false end in
  (forall w, get_worker (fst p) w = if expired w then None else get_worker reg w) /\
  (forall w d, w ∈ holders_of (fst p) d <-> w ∈ holders_of reg d /\ expired w = false) /\
  (forall l, snd p = Ok l -> l = List.filter expired (od_keys (wk_workers reg))).
Proof.
  intros W cutoff p expired. unfold p, evict_expired_workers. fold cutoff.
  assert (forall w, bool_decide (w ∈ expired_ids cutoff reg) = expired w) as Hexp.
  { intros w. apply eq_true_iff_eq. rewrite bool_decide_eq_true, (expired_elem cutoff reg w W). unfold expired.
    destruct (get_worker reg w); naive_solver. }
  destruct (unregister_all_spec (expired_ids cutoff reg) reg W) as (W1 & G1 & H1' & E1).
  destruct (unregister_all _ reg) as [reg1 ev]. pose proof (delete_rows_same ev reg1) as Hs.
  destruct (delete_rows ev reg1) as [reg2 r]. simpl in *. split_and!.
  - intros w. by rewrite (same_get _ _ w Hs), G1, Hexp.
  - intros w d. rewrite (same_holders _ _ d Hs), (wf_index _ W1), H1', Hexp, (wf_index _ W).
    destruct (expired w); [|tauto]. clear. set_solver.
  - intros l Hl. destruct r; [|done]. injection Hl as <-. rewrite E1.
    + unfold expired_ids, od_keys. pose proof (wf_workers _ W) as Hnd.
      assert (forall x, In x (wk_workers reg) -> flt (wi_last_heartbeat_utc (snd x)) cutoff = expired (fst x)) as Hx.
      { intros [k i] Hin. unfold expired, get_worker. simpl. rewrite (od_get_elem _ k i Hnd); [done|].
        by apply list_elem_of_In. }
      revert Hx. generalize (wk_workers reg) as d. induction d as [|x d IH]; intros Hx; simpl; [done|].
      rewrite (Hx x) by by left. destruct (expired (fst x)); simpl; rewrite IH; auto; intros; apply Hx; by right.
    + by apply expired_NoDup.
    + intros w Hw. apply expired_elem in Hw as (i & Hi & _); [|done]. by eexists.
Qed.

(** A heartbeat.  For a known worker it records the receipt time, resets
    the failure count, revives OFFLINE workers (and only them) and DEAD health,
    applies the inventory deltas (removals last), and leaves every other worker
    alone.  The hardware profile kept is the one received, re-stamped with the
    receipt time and the coordinator's own identity, status and inventory, or
    none when the payload has no timestamped profile. *)
Theorem heartbeat_effect now w payload reg i :
  wk_wf reg -> get_worker reg w = Some i ->
  let p := record_heartbeat now w payload reg in
  (forall w', w' <> w -> get_worker (fst p) w' = get_worker reg w') /\
  exists i', get_worker (fst p) w = Some i' /\
    wi_last_heartbeat_utc i' = now /\ wi_consecutive_heartbeat_failures i' = 0 /\
    wi_status i' = (if bool_decide (wi_status i = WS_OFFLINE) then WS_ACTIVE else wi_status i) /\
    wi_inventory_hashes i' =
      match payload with Some pl => payload_inventory pl (wi_inventory_hashes i) | None => wi_inventory_hashes i end /\
    (forall d, w ∈ holders_of (fst p) d <-> d ∈ wi_inventory_hashes i') /\
    match wi_resource_profile i', payload with
    | Some rp, Some pl =>
        rp_timestamp_utc rp = Some now /\ rp_status rp = wi_status i' /\
        rp_worker_id rp = wi_worker_id i /\ rp_local_cached_hashes rp = wi_inventory_hashes i' /\
        exists rp0, hb_resource_profile pl = Some rp0 /\ rp_timestamp_utc rp0 <> None
    | None, Some pl => match hb_resource_profile pl with Some rp0 => rp_timestamp_utc rp0 = None | None => True end
    | Some rp, None => rp_status rp = wi_status i' /\ wi_resource_profile i <> None
    | None, None => wi_resource_profile i = None
    end.
Proof.
  intros W Hi p. destruct (record_heartbeat_spec now w payload reg i W Hi) as (W' & Ho & Hg & _).
  fold p in W', Ho, Hg. split; [done|]. exists (beaten_worker now payload i). split; [done|].
  assert (forall d, w ∈ holders_of (fst p) d <-> d ∈ wi_inventory_hashes (beaten_worker now payload i)) as Hh.
  { intros d. by rewrite (wf_index _ W'), (wf_inventory _ W' w _ Hg). }
  unfold beaten_worker in *. destruct payload as [pl|].
  - unfold payload_worker, received_profile, heartbeat_revive in *. simpl in *.
    destruct (bool_decide (wi_status i = WS_OFFLINE)); simpl in *;
      destruct (hb_resource_profile pl) as [rp0|]; simpl in *; try (by split_and!);
      destruct (rp_timestamp_utc rp0) eqn:Et; simpl in *; split_and!; try done; exists rp0; by rewrite Et.
  - unfold heartbeat_revive in *. simpl in *.
    destruct (bool_decide (wi_status i = WS_OFFLINE)); simpl in *;
      destruct (wi_resource_profile i); simpl in *; by split_and!.
Qed.

(** ** Penalties *)

Lemma get_health_set w r reg w' :
  get_health_record (set_health w r reg) w' = if String.eqb w' w then Some r else get_health_record reg w'.
Proof. apply od_get_set. Qed.

Lemma get_health_alter_worker w f reg w' :
  get_health_record (alter_worker w f reg) w' = get_health_record reg w'.
Proof. unfold get_health_record. by rewrite (proj2 (proj2 (alter_worker_rest w f reg))). Qed.

Lemma get_worker_alter_health w f reg w' : get_worker (alter_health w f reg) w' = get_worker reg w'.
Proof. unfold alter_health. by destruct (get_health_record reg w). Qed.

(** A score update followed by an optional transition, seen from outside. *)
Definition moved (w : string) (r : health_record) (score : float) (t : option (worker_health * worker_status)) reg : workers S :=
  let reg1 := alter_worker w (wi_set_penalty score) (set_health w r reg) in
  match t with Some (h, st) => transition w h st reg1 | None => reg1 end.

Lemma moved_health w r score t reg w' :
  get_health_record (moved w r score t reg) w' =
  if String.eqb w' w
  then Some (match t with Some (h, _) => hr_with_status h (hr_consecutive_failures r) r | None => r end)
  else get_health_record reg w'.
Proof.
  unfold moved. destruct t as [[h st]|].
  - unfold transition. rewrite get_health_alter_worker. unfold alter_health.
    rewrite get_health_alter_worker, get_health_set, String.eqb_refl, get_health_set, get_health_alter_worker,
      get_health_set. by destruct (String.eqb w' w).
  - by rewrite get_health_alter_worker, get_health_set.
Qed.

Lemma moved_worker w r score t reg w' :
  get_worker (moved w r score t reg) w' =
  if String.eqb w' w
  then option_map (fun i => match t with Some (_, st) => wi_set_status st (wi_set_penalty score i)
                                       | None => wi_set_penalty score i end) (get_worker reg w)
  else get_worker reg w'.
Proof.
  unfold moved. destruct t as [[h st]|].
  - unfold transition. rewrite get_alter_worker, !get_worker_alter_health, !get_alter_worker, String.eqb_refl.
    change (get_worker (set_health w r reg)) with (get_worker reg).
    by destruct (String.eqb w' w), (get_worker reg w).
  - rewrite get_alter_worker. done.
Qed.

Definition penalty_after_failure (r : health_record) (penalty : float) : float :=
  fadd (hr_penalty_score r) (fmax f0 penalty).
Definition penalty_after_success (r : health_record) : float :=
  fmax f0 (fsub (hr_penalty_score r) (flit 5 1)).

(** Where a failure and a success move the health. *)
Definition failure_move (score : float) : option (worker_health * worker_status) :=
  if fge score (rc_suspect_threshold cfg) then Some (WH_SUSPECT, WS_UNHEALTHY)
  else if fge score (rc_degraded_threshold cfg) then Some (WH_DEGRADED, WS_DEGRADED) else None.
Definition success_move (score : float) (h : worker_health) : option (worker_health * worker_status) :=
  match h with
  | WH_DEGRADED => if flt score (rc_degraded_threshold cfg) then Some (WH_HEALTHY, WS_ACTIVE) else None
  | _ => None
  end.

Lemma record_failure_moved now w penalty reg r :
  get_health_record reg w = Some r ->
  record_failure cfg now w penalty reg =
  moved w (hr_failure now penalty r) (penalty_after_failure r penalty) (failure_move (penalty_after_failure r penalty)) reg.
Proof.
  intros Hr. unfold record_failure, moved, failure_move. rewrite Hr.
  change (hr_penalty_score (hr_failure now penalty r)) with (penalty_after_failure r penalty).
  destruct (fge _ (rc_suspect_threshold cfg)); [done|]. by destruct (fge _ (rc_degraded_threshold cfg)).
Qed.

Lemma record_success_moved now w bytes reg r :
  get_health_record reg w = Some r ->
  record_success cfg now w bytes reg =
  moved w (hr_success now bytes r) (penalty_after_success r)
    (success_move (penalty_after_success r) (hr_health_status r)) reg.
Proof.
  intros Hr. unfold record_success, moved, success_move. rewrite Hr.
  change (hr_penalty_score (hr_success now bytes r)) with (penalty_after_success r).
  change (hr_health_status (hr_success now bytes r)) with (hr_health_status r).
  destruct (hr_health_status r); eval_decide; rewrite ?andb_false_r, ?andb_true_r; try done.
  by destruct (flt _ _).
Qed.

(** Penalties.  A failure adds its (non-negative) penalty and moves the
    health up to SUSPECT or DEGRADED when the new score reaches the threshold,
    never down; a success takes half a point off, never below zero, and only
    brings a DEGRADED worker back to HEALTHY, so a SUSPECT one stays SUSPECT
    however many transfers succeed.  The registered worker gets the same score
    and the matching status; nothing else changes. *)
Theorem penalty_state_machine now w reg r :
  get_health_record reg w = Some r ->
  (forall penalty, let reg' := record_failure cfg now w penalty reg in
     let score := penalty_after_failure r penalty in
     exists r', get_health_record reg' w = Some r' /\ hr_penalty_score r' = score /\
       hr_consecutive_failures r' = hr_consecutive_failures r + 1 /\
       hr_health_status r' = default (hr_health_status r) (option_map fst (failure_move score)) /\
       forall i, get_worker reg w = Some i -> exists i', get_worker reg' w = Some i' /\
         wi_penalty_score i' = score /\ wi_status i' = default (wi_status i) (option_map snd (failure_move score))) /\
  (forall bytes, let reg' := record_success cfg now w bytes reg in
     let score := penalty_after_success r in
     exists r', get_health_record reg' w = Some r' /\ hr_penalty_score r' = score /\
       fle f0 score = true /\ hr_consecutive_failures r' = 0 /\
       hr_health_status r' = default (hr_health_status r) (option_map fst (success_move score (hr_health_status r))) /\
       (hr_health_status r = WH_SUSPECT -> hr_health_status r' = WH_SUSPECT) /\
       forall i, get_worker reg w = Some i -> exists i', get_worker reg' w = Some i' /\
         wi_penalty_score i' = score /\
         wi_status i' = default (wi_status i) (option_map snd (success_move score (hr_health_status r)))) /\
  (forall penalty bytes w', w' <> w ->
     get_worker (record_failure cfg now w penalty reg) w' = get_worker reg w' /\
     get_worker (record_success cfg now w bytes reg) w' = get_worker reg w' /\
     get_health_record (record_failure cfg now w penalty reg) w' = get_health_record reg w' /\
     get_health_record (record_success cfg now w bytes reg) w' = get_health_record reg w').
Proof.
  intros Hr. split_and!.
  - intros penalty reg' score. unfold reg'. rewrite (record_failure_moved now w penalty reg r Hr). fold score.
    setoid_rewrite moved_health. setoid_rewrite moved_worker. rewrite String.eqb_refl.
    eexists. split; [reflexivity|]. split_and!; try (by destruct (failure_move score) as [[]|]).
    intros i ->. eexists. split; [reflexivity|]. by destruct (failure_move score) as [[]|].
  - intros bytes reg' score. unfold reg'. rewrite (record_success_moved now w bytes reg r Hr). fold score.
    setoid_rewrite moved_health. setoid_rewrite moved_worker. rewrite String.eqb_refl.
    eexists. split; [reflexivity|].
    split_and!; try (by destruct (success_move score (hr_health_status r)) as [[]|]).
    + unfold score, penalty_after_success. by apply fmax_ge_l.
    + intros Hsus. rewrite Hsus. exact Hsus.
    + intros i ->. eexists. split; [reflexivity|]. by destruct (success_move score (hr_health_status r)) as [[]|].
  - intros penalty bytes w' Hne.
    rewrite (record_failure_moved now w penalty reg r Hr), (record_success_moved now w bytes reg r Hr).
    rewrite !moved_health, !moved_worker. by destruct (String.eqb_spec w' w).
Qed.
End worker_registry_properties.

(** ** Witnesses *)

#[export] Instance mem_worker_store : RecordStore (mem_store worker_info) worker_info := {
  store_key := wi_worker_id;
  store_view := fun w => w;
  store_row s k := od_get k (ms_rows s);
  store_save := ms_save wi_worker_id (fun w => w);
}.
#[export] Instance mem_worker_delete : RecordDelete (mem_store worker_info) := ms_delete.

Definition default_config : registry_config :=
  {| rc_heartbeat_timeout := f_of_Z 15; rc_degraded_threshold := f_of_Z 3; rc_suspect_threshold := f_of_Z 10;
     rc_penalty_half_life := f_of_Z 300 |}.

Definition digest_a : string := "aaaaaaaaaaaaaaaaaaaaaaaaaaaaaaaaaaaaaaaaaaaaaaaaaaaaaaaaaaaaaaaa".
Definition digest_b : string := "bbbbbbbbbbbbbbbbbbbbbbbbbbbbbbbbbbbbbbbbbbbbbbbbbbbbbbbbbbbbbbbb".

(** No decay happens in these histories, so any exponential does. *)
Definition no_exp (x : float) : res float := Ok f1.

Definition worker_history : list (float * wk_call) :=
  [(f1, KRegister (plain_worker "n1" (f_of_Z 100) {[digest_a]}));
   (f1, KRegister (plain_worker "n2" (f_of_Z 1) {[digest_a; digest_b]}))].
Definition witness_workers : workers (mem_store worker_info) :=
  wk_run default_config no_exp f1 worker_history (empty_workers (Some (Build_mem_store [] []))).

Lemma witness_workers_wf : wk_wf witness_workers.
Proof. apply wk_run_wf, wk_wf_empty. Defined.

Lemma inverted_index_witness :
  wk_wf witness_workers /\
  ("n2"%string ∈ get_workers_for_hash digest_b (wk_run default_config no_exp f1 [] witness_workers) <->
   exists i, get_worker (wk_run default_config no_exp f1 [] witness_workers) "n2" = Some i /\ digest_b ∈ wi_inventory_hashes i).
Proof.
  split; [exact witness_workers_wf|].
  apply (proj1 (inverted_index_exact default_config no_exp f1 [] witness_workers witness_workers_wf)).
  reflexivity.
Defined.

Lemma sync_inventory_witness :
  wk_wf witness_workers /\
  snd (sync_worker_inventory "n2" {[digest_b; "junk"%string]} witness_workers) = Ok (0, 1) /\
  exists i', get_worker (fst (sync_worker_inventory "n2" {[digest_b; "junk"%string]} witness_workers)) "n2" = Some i' /\
    wi_inventory_hashes i' = normalize_hashes (elements ({[digest_b; "junk"]} : gset string)).
Proof.
  split_and!; [exact witness_workers_wf|vm_compute; reflexivity|].
  exact (proj1 (sync_inventory_exact "n2" {[digest_b; "junk"%string]} witness_workers _ witness_workers_wf eq_refl)).
Defined.

Lemma eviction_witness :
  wk_wf witness_workers /\
  snd (evict_expired_workers default_config (f_of_Z 101) None witness_workers) = Ok ["n2"]%string /\
  get_worker (fst (evict_expired_workers default_config (f_of_Z 101) None witness_workers)) "n2" = None.
Proof.
  split_and!; [exact witness_workers_wf|vm_compute; reflexivity|].
  rewrite (proj1 (eviction_exact default_config (f_of_Z 101) None witness_workers witness_workers_wf)).
  vm_compute. reflexivity.
Defined.

Definition witness_heartbeat : heartbeat_payload :=
  {| hb_metrics := None; hb_resource_profile := Some (plain_profile "other" 8 16 ∅); hb_active_transfers := 2;
     hb_used_bytes := Some 20; hb_inventory_delta_added := {[digest_b]}; hb_inventory_delta_removed := {[digest_a]} |}.

Lemma heartbeat_witness :
  wk_wf witness_workers /\
  exists i', get_worker (fst (record_heartbeat (f_of_Z 120) "n1" (Some witness_heartbeat) witness_workers)) "n1" = Some i' /\
    wi_last_heartbeat_utc i' = f_of_Z 120.
Proof.
  split; [exact witness_workers_wf|].
  destruct (proj2 (heartbeat_effect (f_of_Z 120) "n1" (Some witness_heartbeat) witness_workers _
    witness_workers_wf eq_refl)) as (i' & Hg & Hn & _).
  exists i'. exact (conj Hg Hn).
Defined.

Lemma penalty_witness :
  exists r, get_health_record witness_workers "n1" = Some r /\
  exists r', get_health_record (record_failure default_config f1 "n1" (f_of_Z 4) witness_workers) "n1" = Some r' /\
    hr_health_status r' = default (hr_health_status r)
      (option_map fst (failure_move default_config (penalty_after_failure r (f_of_Z 4)))).
Proof.
  eexists. split; [reflexivity|].
  destruct (proj1 (penalty_state_machine default_config f1 "n1" witness_workers _ eq_refl) (f_of_Z 4))
    as (r' & Hr & _ & _ & Hh & _).
  exists r'. split; [exact Hr|exact Hh].
Defined.

(** A transfer success takes a DRAINING worker whose health was DEGRADED back to
    ACTIVE. *)
Example success_revives_draining :
  let reg := wk_run default_config no_exp f1
    [(f1, KFailure "n1" (f_of_Z 3)); (f1, KStatus "n1" WS_DRAINING); (f1, KSuccess "n1" 0)] witness_workers in
  option_map wi_status (get_worker reg "n1") = Some WS_ACTIVE.
Proof. vm_compute. reflexivity. Qed.

(** A worker registered as [" n3"] is filed as ["n3"], but its record and its
    row keep the blank: unregistering it leaves the row. *)
Example unclean_id_row_survives :
  let reg := wk_run default_config no_exp f1
    [(f1, KRegister (plain_worker " n3" f1 ∅)); (f1, KUnregister "n3")] witness_workers in
  get_worker reg "n3" = None /\
  option_map (fun s => od_mem " n3" (ms_rows s)) (wk_store reg) = Some true.
Proof. vm_compute. done. Qed.
