(* ===== verification/Placement.v ===== *)
(** * Placement ([distributed/placement.py])

    [evaluate] is [PlacementEngine.evaluate]: every profile gets its named
    checks, its rejection reasons and its locality; the eligible ones are
    scored and ranked, optionally re-ordered by the advisory layer, and the
    first is selected.  The engine's [last_evaluation] is part of the result.
    Diagnostic values that no code reads back (the numbers behind each check)
    are left out of the explanations.  The advisory layer is the interface
    [Advisory]; the weights are those of [PlacementEngine.__init__]. *)
From S2P Require Export Models.

(** What placement uses of the M7 bridge: total risks by worker, and the ids
    re-ordered by [adjust_ranking] (risk weight 0.5). *)
Class Advisory (B : Type) := {
  adv_risks : B -> workload_spec -> list worker_resource_profile -> odict float;
  adv_order : B -> odict float -> odict float -> list string;
}.
(** No layer configured. *)
#[export] Instance no_advisory : Advisory Empty_set := {
  adv_risks b := match b with end;
  adv_order b := match b with end;
}.

Record placement_env := {
  pe_worker_tags : odict (odict string);
  pe_group_workers : odict (gset string);
  pe_now : float;
  pe_predicted_duration : option float;
  pe_asset_sizes : odict Z;
}.

Definition STALE_PROFILE_SECONDS : float := f_of_Z 10.


(** ** Helpers *)

Definition capability_tuple (value : option string) : option (Z * Z) :=
  match value with
  | Some v =>
      if str_truthy v then
        match split_once "."%char v with
        | Some (major, minor) =>
            match py_int major, py_int minor with
            | Some a, Some b => Some (a, b)
            | _, _ => None
            end
        | None => None
        end
      else None
  | None => None
  end.

Definition pair_geb (a b : Z * Z) : bool := (fst b <? fst a) || ((fst a =? fst b) && (snd b <=? snd a)).

Definition tag_result (actual required : odict string) : bool :=
  forallb (fun '(k, v) => match od_get k actual with Some w => String.eqb w v | None => false end) required.

Definition locality_of (spec : workload_spec) (p : worker_resource_profile) (asset_sizes : odict Z) : locality :=
  let assets := ws_input_asset_hashes spec in
  let cached := assets ∩ rp_local_cached_hashes p in
  let n := Z.of_nat (size assets) in
  let count_fraction := if n =? 0 then f1 else fdivZ (Z.of_nat (size cached)) n in
  let known := List.filter (fun x => bool_decide (fst x ∈ assets)) asset_sizes in
  let known_total := sumZ (map snd known) in
  let known_cached := sumZ (map snd (List.filter (fun x => bool_decide (fst x ∈ cached)) known)) in
  let unknown := Z.of_nat (size (assets ∖ list_to_set (map fst known))) in
  let '(bytes, rank, basis) :=
    if (0 <? known_total) && (unknown =? 0) then
      let f := fdivZ known_cached known_total in (Some f, f, "known_bytes"%string)
    else if negb (n =? 0) then
      (if 0 <? known_total then Some (fdivZ known_cached known_total) else None, count_fraction,
       "asset_count_fallback_incomplete_or_zero_sizes"%string)
    else (Some f1, f1, "no_input_assets"%string) in
  {| lo_class := if feq count_fraction f1 then "all_local" else if fgt count_fraction f0 then "partial" else "none";
     lo_asset_count_fraction := count_fraction;
     lo_known_byte_fraction := bytes;
     lo_known_asset_count := Z.of_nat (length known);
     lo_unknown_size_count := unknown;
     lo_ranking_basis := basis;
     lo_ranking_fraction := rank |}.

(** ** The checks *)

Definition avail_cpu (p : worker_resource_profile) : float :=
  fmul (f_of_Z (rp_cpu_cores_total p)) (fsub f1 (fdiv (rp_cpu_utilization_percent p) (f_of_Z 100))).

Definition telemetry_fresh (now : float) (p : worker_resource_profile) : bool :=
  match rp_timestamp_utc p with
  | None => false
  | Some t =>
      let age := fsub now t in
      f_isfinite age && f_isfinite t && fle f0 age && fle age STALE_PROFILE_SECONDS
  end.

Definition wants_gpu (spec : workload_spec) : bool :=
  ws_requires_gpu spec || (0 <? ws_min_vram_bytes spec)
  || opt_truthy (ws_required_gpu_vendor spec) || opt_truthy (ws_required_gpu_model spec)
  || opt_truthy (ws_min_compute_capability spec) || opt_truthy (ws_required_driver_version spec)
  || opt_truthy (ws_required_runtime_compatibility spec).

Definition cost_ok (spec : workload_spec) (p : worker_resource_profile) : bool :=
  match ws_max_cost_per_hour spec with None => true | Some m => fle (rp_cost_per_hour p) m end.

Definition casefold_eq (a : option string) (b : option string) : bool :=
  match a, b with Some x, Some y => String.eqb (str_lower x) (str_lower y) | _, _ => false end.

(** [p.gpu_model or p.gpu_device_name]. *)
Definition gpu_name (p : worker_resource_profile) : option string :=
  if opt_truthy (rp_gpu_model p) then rp_gpu_model p else rp_gpu_device_name p.

Definition tags_of (env : placement_env) (wid : string) : odict string := od_get_default wid [] (pe_worker_tags env).

Definition previous_workers (env : placement_env) (spec : workload_spec) : gset string :=
  od_get_default (default ""%string (ws_affinity_group_id spec)) ∅ (pe_group_workers env).

(** The tag values of the workers of the group; a set, so equal values count
    once. *)
Definition prior_tags (env : placement_env) (spec : workload_spec) : gset string :=
  let key := default ""%string (ws_affinity_tag_key spec) in
  list_to_set (omap (fun w => od_get key (tags_of env w)) (elements (previous_workers env spec))).

Definition affinity_match (env : placement_env) (spec : workload_spec) (wid : string) : bool :=
  let prev := previous_workers env spec in
  if bool_decide (prev = ∅) then true
  else
    let actual := od_get (default ""%string (ws_affinity_tag_key spec)) (tags_of env wid) in
    let prior := prior_tags env spec in
    match ws_affinity_mode spec with
    | AF_NONE => true
    | AF_SAME_WORKER => bool_decide (wid ∈ prev)
    | AF_DIFFERENT_WORKER => negb (bool_decide (wid ∈ prev))
    | AF_SAME_TAG =>
        match actual with
        | Some t => Nat.eqb (size prior) (size prev) && Nat.eqb (size prior) 1 && bool_decide (t ∈ prior)
        | None => false
        end
    | AF_DIFFERENT_TAG =>
        match actual with
        | Some t => Nat.eqb (size prior) (size prev) && negb (bool_decide (t ∈ prior))
        | None => false
        end
    end.

(** The checks of one candidate, in the order they are tested. *)
Definition candidate_checks (env : placement_env) (spec : workload_spec) (p : worker_resource_profile) : odict bool :=
  let tags := tags_of env (rp_worker_id p) in
  let ram_ok := rp_ram_available_bytes p <=? rp_ram_total_bytes p in
  let vram_ok := rp_vram_available_bytes p <=? rp_vram_total_bytes p in
  let cpu_finite := f_isfinite (rp_cpu_utilization_percent p) in
  ([("status", bool_decide (rp_status p = WS_ACTIVE));
    ("health", bool_decide (rp_status p = WS_ACTIVE \/ rp_status p = WS_DEGRADED));
    ("can_execute_workloads", rp_can_execute_workloads p);
    ("cpu_telemetry_finite", cpu_finite);
    ("telemetry", telemetry_fresh (pe_now env) p);
    ("cpu", cpu_finite && fge_Z (avail_cpu p) (ws_min_cpu_cores spec));
    ("ram", ram_ok && Z.leb (ws_min_ram_bytes spec) (rp_ram_available_bytes p));
    ("ram_telemetry_consistency", ram_ok);
    ("gpu", negb (wants_gpu spec) || rp_gpu_available p);
    ("vram", vram_ok && Z.leb (ws_min_vram_bytes spec) (rp_vram_available_bytes p));
    ("vram_telemetry_consistency", vram_ok);
    ("concurrency", Z.ltb (rp_active_workload_count p) (rp_max_concurrent_workloads p));
    ("cost", cost_ok spec p)]%string
   ++ (if opt_truthy (ws_required_gpu_vendor spec)
       then [("gpu_vendor"%string, casefold_eq (rp_gpu_vendor p) (ws_required_gpu_vendor spec))] else [])
   ++ (if opt_truthy (ws_required_gpu_model spec)
       then [("gpu_model"%string, casefold_eq (gpu_name p) (ws_required_gpu_model spec))] else [])
   ++ (if opt_truthy (ws_min_compute_capability spec)
       then [("compute_capability"%string,
              match capability_tuple (rp_gpu_compute_capability p), capability_tuple (ws_min_compute_capability spec) with
              | Some a, Some r => pair_geb a r
              | _, _ => false
              end)] else [])
   ++ (if opt_truthy (ws_required_driver_version spec)
       then [("driver_version"%string, bool_decide (rp_gpu_driver_version p = ws_required_driver_version spec))] else [])
   ++ (if opt_truthy (ws_required_runtime_compatibility spec) then [("runtime_compatibility"%string, false)] else [])
   ++ (if bool_decide (ws_required_worker_tags spec = []) then []
       else [("required_worker_tags"%string, tag_result tags (ws_required_worker_tags spec))])
   ++ (if bool_decide (ws_affinity_mode spec = AF_NONE) then []
       else [("affinity"%string, affinity_match env spec (rp_worker_id p))])
   ++ (if bool_decide (ws_preferred_worker_tags spec = []) then []
       else [("preferred_worker_tags"%string, tag_result tags (ws_preferred_worker_tags spec))])).

Definition reason_map (name : string) (p : worker_resource_profile) : string :=
  (if String.eqb name "status" then "WORKER_NOT_ACTIVE"
   else if String.eqb name "can_execute_workloads" then "WORKER_CANNOT_EXECUTE"
   else if String.eqb name "telemetry" then
     match rp_timestamp_utc p with None => "MISSING_TELEMETRY" | Some _ => "STALE_TELEMETRY" end
   else if String.eqb name "cpu_telemetry_finite" then "INVALID_CPU_TELEMETRY"
   else if String.eqb name "cpu" then "INSUFFICIENT_CPU"
   else if String.eqb name "ram" then "INSUFFICIENT_RAM"
   else if String.eqb name "gpu" then "REQUIRED_GPU_UNAVAILABLE"
   else if String.eqb name "vram" then "INSUFFICIENT_VRAM"
   else if String.eqb name "concurrency" then "CONCURRENCY_LIMIT_REACHED"
   else if String.eqb name "gpu_vendor" then "GPU_VENDOR_MISMATCH"
   else if String.eqb name "gpu_model" then "GPU_MODEL_MISMATCH"
   else if String.eqb name "compute_capability" then "GPU_COMPUTE_CAPABILITY_UNKNOWN_OR_TOO_LOW"
   else if String.eqb name "driver_version" then "GPU_DRIVER_VERSION_MISMATCH_OR_UNKNOWN"
   else if String.eqb name "runtime_compatibility" then "GPU_RUNTIME_COMPATIBILITY_UNKNOWN"
   else if String.eqb name "required_worker_tags" then "REQUIRED_WORKER_TAG_MISMATCH"
   else "COST_EXCEEDS_BUDGET")%string.

(** The reason a failed check adds, if any. *)
Definition check_reason (p : worker_resource_profile) (name : string) (result : bool) : list string :=
  if result then []
  else if String.eqb name "affinity" || String.eqb name "preferred_worker_tags" then []
  else if String.eqb name "ram_telemetry_consistency" then ["INCONSISTENT_RAM_TELEMETRY_TELEMETRY"%string]
  else if String.eqb name "vram_telemetry_consistency" then ["INCONSISTENT_VRAM_TELEMETRY_TELEMETRY"%string]
  else if String.eqb name "ram" && (rp_ram_total_bytes p <? rp_ram_available_bytes p) then []
  else if String.eqb name "vram" && (rp_vram_total_bytes p <? rp_vram_available_bytes p) then []
  else if String.eqb name "health" then ["WORKER_UNHEALTHY"%string]
  else [reason_map name p].

Definition exec_base (spec : workload_spec) : string :=
  match ws_execution_spec spec with
  | Some e => if str_truthy (es_executable e) then str_lower (basename (es_executable e)) else ""%string
  | None => ""%string
  end.

Definition needs_live_ollama (spec : workload_spec) : bool :=
  match od_get "live_ollama" (ws_parameters spec) with Some j => json_truthy j | None => false end
  || match ws_execution_spec spec with
     | Some e => bool_decide (od_get "AIDAR_LLM_LIVE" (es_env e) = Some "1"%string)
     | None => false
     end.

Definition mem_str (s : string) (l : list string) : bool := existsb (String.eqb s) l.

(** Capability tags, read only when the worker advertises some. *)
Definition capability_reasons (spec : workload_spec) (tags : odict string) : list string :=
  if existsb (fun '(k, _) => starts_with "cap:"%string k) tags then
    let task := str_lower (ws_task_type spec) in
    let base := exec_base spec in
    let off name := bool_decide (od_get name tags = Some "false"%string) in
    ((if (mem_str task ["blender"; "blender_render"]%string || mem_str base ["blender"; "blender.exe"]%string) && off "cap:blender"%string
      then ["MISSING_CAPABILITY:blender"%string] else [])
     ++ (if (mem_str task ["ffmpeg"; "video_rendering"; "video_transcode"]%string || mem_str base ["ffmpeg"; "ffmpeg.exe"]%string)
            && off "cap:ffmpeg"%string then ["MISSING_CAPABILITY:ffmpeg"%string] else [])
     ++ (if mem_str task ["ml_training"; "pytorch"]%string && off "cap:pytorch"%string then ["MISSING_CAPABILITY:pytorch"%string] else [])
     ++ (if mem_str task ["llm"; "llm_inference"]%string && needs_live_ollama spec && off "cap:ollama"%string
         then ["MISSING_CAPABILITY:ollama"%string] else []))
  else [].

Definition rejection_reasons (env : placement_env) (spec : workload_spec) (p : worker_resource_profile) : list string :=
  (if bool_decide (ws_affinity_mode spec <> AF_NONE) && negb (affinity_match env spec (rp_worker_id p))
      && ws_affinity_hard spec
   then ["AFFINITY_CONSTRAINT_NOT_MET"%string] else [])
  ++ flat_map (fun '(name, result) => check_reason p name result) (candidate_checks env spec p)
  ++ capability_reasons spec (tags_of env (rp_worker_id p)).

(** ** Scores *)

Definition c_w (spec : workload_spec) (p : worker_resource_profile) : float :=
  fdiv (avail_cpu p) (f_of_Z (ws_min_cpu_cores spec)).

Definition m_w (spec : workload_spec) (p : worker_resource_profile) : float :=
  let avail := f_of_Z (rp_ram_available_bytes p) in
  if 0 <? ws_min_ram_bytes spec
  then fmax f0 (fmin (f_of_Z 2) (fdiv avail (f_of_Z (ws_min_ram_bytes spec))))
  else fmax f0 (fmin (f_of_Z 2) (fmul (fdiv avail (f_of_Z (Z.max 1 (rp_ram_total_bytes p)))) (f_of_Z 2))).

Definition g_w (spec : workload_spec) (p : worker_resource_profile) : float :=
  if ws_requires_gpu spec && rp_gpu_available p
  then fadd f1 (fdivZ (rp_vram_available_bytes p) (Z.max 1 (ws_min_vram_bytes spec)))
  else if ws_requires_gpu spec then f0 else f1.

Definition l_w (p : worker_resource_profile) : float := f_of_Z (rp_active_workload_count p).

Definition m6_score (spec : workload_spec) (p : worker_resource_profile) (loc : locality) : float :=
  fsub (fadd (fadd (fadd (fadd (fmul f1 (c_w spec p)) (fmul f1 (m_w spec p)))
                         (fmul (f_of_Z 2) (g_w spec p)))
                   (fmul (f_of_Z 2) (lo_asset_count_fraction loc)))
             (fmul f1 f0))
       (fmul (flit 5 1) (l_w p)).

Definition m11_rank_factors (env : placement_env) (spec : workload_spec) (p : worker_resource_profile)
    (loc : locality) : odict float :=
  ((if bool_decide (pe_asset_sizes env = []) then []
    else [("locality_weighting_adjustment"%string,
           fmul (fsub (lo_ranking_fraction loc) (lo_asset_count_fraction loc)) (f_of_Z 2))])
   ++ (if bool_decide (ws_preferred_worker_tags spec = []) then []
       else [("preferred_worker_tags"%string,
              if tag_result (tags_of env (rp_worker_id p)) (ws_preferred_worker_tags spec) then flit 25 2 else f0)])
   ++ (if bool_decide (ws_affinity_mode spec <> AF_NONE) && negb (ws_affinity_hard spec)
       then [("preferred_affinity"%string,
              if affinity_match env spec (rp_worker_id p) then flit 25 2 else fopp (flit 25 2))] else [])
   ++ (if fgt (rp_cost_per_hour p) f0 then [("cost_penalty"%string, fopp (rp_cost_per_hour p))] else [])).

Definition rank_score (env : placement_env) (spec : workload_spec) (p : worker_resource_profile) : float :=
  let loc := locality_of spec p (pe_asset_sizes env) in
  fadd (m6_score spec p loc) (fsum (od_values (m11_rank_factors env spec p loc))).

Definition score_breakdown (spec : workload_spec) (p : worker_resource_profile) (loc : locality) : odict float :=
  [("compute", c_w spec p); ("memory", m_w spec p); ("gpu", g_w spec p);
   ("locality", lo_asset_count_fraction loc); ("latency", f0); ("queue", l_w p)]%string.

(** ** Evaluation *)

Definition is_eligible (env : placement_env) (spec : workload_spec) (p : worker_resource_profile) : bool :=
  bool_decide (rejection_reasons env spec p = []).

Definition explain (env : placement_env) (spec : workload_spec) (p : worker_resource_profile) : candidate :=
  let loc := locality_of spec p (pe_asset_sizes env) in
  {| cd_worker_id := rp_worker_id p;
     cd_checks := candidate_checks env spec p;
     cd_locality := loc;
     cd_rejection_reasons := rejection_reasons env spec p;
     cd_scores := if is_eligible env spec p
                  then Some (m6_score spec p loc, rank_score env spec p, score_breakdown spec p loc) else None |}.

(** The dictionaries filled by the loop, keyed by worker id: the last profile
    of an id wins. *)
Definition score_table {A} (f : worker_resource_profile -> A) (l : list worker_resource_profile) : odict A :=
  fold_left (fun d p => od_set (rp_worker_id p) (f p) d) l [].

Record evaluation := { ev_eligible_worker_ids : list string; ev_candidates : list candidate }.

(** The sort key [(-rank, worker_id)]. *)
Definition rank_key_lt (ranks : odict float) (a b : worker_resource_profile) : bool :=
  let ra := fopp (od_get_default (rp_worker_id a) f0 ranks) in
  let rb := fopp (od_get_default (rp_worker_id b) f0 ranks) in
  if feq ra rb then str_lt (rp_worker_id a) (rp_worker_id b) else flt ra rb.

(** [{id: i for i, id in enumerate(ids, 1)}]. *)
Definition positions (ids : list string) : odict Z :=
  fold_left (fun d '(i, id) => od_set id i d) (combine (map Z.of_nat (seq 1 (length ids))) ids) [].

Definition position_key_lt (pos : odict Z) (a b : worker_resource_profile) : bool :=
  let n := Z.of_nat (length pos) in
  let ka := od_get_default (rp_worker_id a) (n + 1) pos in
  let kb := od_get_default (rp_worker_id b) (n + 1) pos in
  if ka =? kb then str_lt (rp_worker_id a) (rp_worker_id b) else ka <? kb.

(** [predicted_duration_seconds or spec.estimated_duration_seconds]. *)
Definition duration_used (env : placement_env) (spec : workload_spec) : float :=
  match pe_predicted_duration env with
  | Some d => if feq d f0 then ws_estimated_duration_seconds spec else d
  | None => ws_estimated_duration_seconds spec
  end.

Definition deadline_of (env : placement_env) (spec : workload_spec) : option (string * float) :=
  match ws_deadline_at_utc spec with
  | None => None
  | Some d =>
      let remaining := fsub d (pe_now env) in
      let slack := fsub remaining (duration_used env spec) in
      Some (if flt remaining f0 then "expired"%string
            else if fle slack f0 then "approaching"%string else "future"%string, slack)
  end.

Section engine.
Context {B : Type} `{Advisory B}.

(** The order before the advisory layer, then after it, with the rank
    movements it caused. *)
Definition rank_candidates (bridge : option B) (spec : workload_spec) (ranks : odict float)
    (eligible : list worker_resource_profile) : list worker_resource_profile * odict float :=
  let ranked := isort (rank_key_lt ranks) eligible in
  match bridge with
  | None => (ranked, [])
  | Some b =>
      let before := positions (map rp_worker_id ranked) in
      let pos := positions (adv_order b ranks (adv_risks b spec ranked)) in
      (isort (position_key_lt pos) ranked,
       map (fun '(wid, i) => (wid, f_of_Z (od_get_default wid i before - i))) pos)
  end.

Definition evaluate (bridge : option B) (env : placement_env) (spec : workload_spec)
    (profiles : list worker_resource_profile) : evaluation * option placement_decision :=
  let eligible := List.filter (is_eligible env spec) profiles in
  let explanations := map (explain env spec) profiles in
  let ev := {| ev_eligible_worker_ids := isort str_lt (map rp_worker_id eligible);
               ev_candidates := explanations |} in
  let ranks := score_table (rank_score env spec) eligible in
  match rank_candidates bridge spec ranks eligible with
  | ([], _) => (ev, None)
  | (selected :: _, adjustments) =>
      let wid := rp_worker_id selected in
      let sizes := pe_asset_sizes env in
      let scores := score_table (fun p => m6_score spec p (locality_of spec p sizes)) eligible in
      let breakdowns := score_table (fun p => score_breakdown spec p (locality_of spec p sizes)) eligible in
      let localities := score_table (fun p => locality_of spec p sizes) profiles in
      (ev,
       Some {| pd_workload_id := ws_workload_id spec; pd_selected_worker_id := wid;
               pd_placement_score := od_get_default wid f0 scores;
               pd_score_breakdown := od_get_default wid [] breakdowns;
               pd_missing_assets_on_worker := ws_input_asset_hashes spec ∖ rp_local_cached_hashes selected;
               pd_execution_tier := "lan";
               pd_decision_timestamp_utc := pe_now env;
               pd_candidate_explanations := explanations;
               pd_m7_ranking_adjustments := adjustments;
               pd_locality_details := Some (od_get_default wid (locality_of spec selected sizes) localities);
               pd_deadline_details := deadline_of env spec |})
  end.

(** [evaluate_group]: one decision after another on the profiles that remain;
    the result also says what [last_group_evaluation] records: the members
    selected so far, whether the group is complete, and all explanations. *)
Record group_evaluation := {
  ge_selected_worker_ids : list string;
  ge_complete : bool;
  ge_candidates : list candidate;
}.

Fixpoint group_loop (bridge : option B) (env : placement_env) (spec : workload_spec) (n : nat)
    (remaining : list worker_resource_profile) (decisions : list placement_decision) (cands : list candidate)
  : group_evaluation * option (list placement_decision) :=
  match n with
  | O => ({| ge_selected_worker_ids := map pd_selected_worker_id decisions; ge_complete := true;
             ge_candidates := cands |}, Some decisions)
  | Datatypes.S n =>
      match evaluate bridge env spec remaining with
      | (ev, None) =>
          ({| ge_selected_worker_ids := map pd_selected_worker_id decisions; ge_complete := false;
              ge_candidates := cands ++ ev_candidates ev |}, None)
      | (_, Some d) =>
          group_loop bridge env spec n
            (List.filter (fun p => negb (String.eqb (rp_worker_id p) (pd_selected_worker_id d))) remaining)
            (decisions ++ [d]) (cands ++ pd_candidate_explanations d)
      end
  end.

Definition evaluate_group (bridge : option B) (env : placement_env) (spec : workload_spec)
    (profiles : list worker_resource_profile) (worker_count : Z)
  : res (group_evaluation * option (list placement_decision)) :=
  if worker_count <? 2 then Err (ValueError "distributed execution groups require at least two workers")
  else Ok (group_loop bridge env spec (Z.to_nat worker_count) profiles [] []).
End engine.

(** ** Throughput *)

Definition GIB : float := f_of_Z (1024 ^ 3).

Definition compute_worker_throughput_score (p : worker_resource_profile) : float :=
  let cores := if negb (rp_cpu_cores_logical p =? 0) then rp_cpu_cores_logical p else rp_cpu_cores_total p in
  let ram_total_gb := fdiv (f_of_Z (rp_ram_total_bytes p)) GIB in
  let cpus :=
    if fle (f_of_Z cores) f0 then
      (if fgt ram_total_gb f0
       then fmax (f_of_Z 2) (fmin (f_of_Z 64) (f_of_Z (default 0 (f_round_int (fmul ram_total_gb (flit 85 2))))))
       else f_of_Z 4)
    else f_of_Z cores in
  let render_threads := if fge cpus (f_of_Z 8) then fmax f1 (fsub cpus (f_of_Z 2)) else fmax f1 (fsub cpus f1) in
  let freq := if feq (rp_cpu_freq_mhz p) f0 then f_of_Z 3000 else rp_cpu_freq_mhz p in
  let freq_factor := fmax (flit 6 1) (fmin (flit 18 1) (fdiv freq (f_of_Z 3000))) in
  let ram_avail_gb := fdiv (f_of_Z (rp_ram_available_bytes p)) GIB in
  let ram_factor := if flt ram_avail_gb (f_of_Z 3) then flit 75 2
                    else fadd f1 (fmin (flit 25 2) (fmul ram_avail_gb (flit 2 2))) in
  let cpu_score := fmul (fmul render_threads freq_factor) ram_factor in
  let vram_gb := fdiv (f_of_Z (rp_vram_available_bytes p)) GIB in
  let gpu_bonus := if rp_gpu_available p then fadd (f_of_Z 8) (fmul vram_gb (flit 15 1)) else f0 in
  fmax f1 (fadd cpu_score gpu_bonus).
