(* ===== verification/PlacementProps.v ===== *)
(** * Placement: eligibility, optimality and groups *)
From S2P Require Export Placement.

(** ** The hard constraints, stated apart from the checks *)

Record hard_eligible (env : placement_env) (spec : workload_spec) (p : worker_resource_profile) : Prop := {
  he_active : rp_status p = WS_ACTIVE;
  he_executes : rp_can_execute_workloads p = true;
  he_fresh : exists t, rp_timestamp_utc p = Some t /\ f_isfinite t = true /\
    f_isfinite (fsub (pe_now env) t) = true /\
    fle f0 (fsub (pe_now env) t) = true /\ fle (fsub (pe_now env) t) STALE_PROFILE_SECONDS = true;
  he_cpu : f_isfinite (rp_cpu_utilization_percent p) = true /\ fge_Z (avail_cpu p) (ws_min_cpu_cores spec) = true;
  he_ram : ws_min_ram_bytes spec <= rp_ram_available_bytes p <= rp_ram_total_bytes p;
  he_vram : ws_min_vram_bytes spec <= rp_vram_available_bytes p <= rp_vram_total_bytes p;
  he_gpu : wants_gpu spec = true -> rp_gpu_available p = true;
  he_concurrency : rp_active_workload_count p < rp_max_concurrent_workloads p;
  he_cost : forall m, ws_max_cost_per_hour spec = Some m -> fle (rp_cost_per_hour p) m = true;
  he_vendor : opt_truthy (ws_required_gpu_vendor spec) = true ->
    casefold_eq (rp_gpu_vendor p) (ws_required_gpu_vendor spec) = true;
  he_model : opt_truthy (ws_required_gpu_model spec) = true ->
    casefold_eq (gpu_name p) (ws_required_gpu_model spec) = true;
  he_capability : opt_truthy (ws_min_compute_capability spec) = true ->
    exists a r, capability_tuple (rp_gpu_compute_capability p) = Some a /\
      capability_tuple (ws_min_compute_capability spec) = Some r /\ pair_geb a r = true;
  he_driver : opt_truthy (ws_required_driver_version spec) = true ->
    rp_gpu_driver_version p = ws_required_driver_version spec;
  he_runtime : opt_truthy (ws_required_runtime_compatibility spec) = false;
  he_tags : tag_result (tags_of env (rp_worker_id p)) (ws_required_worker_tags spec) = true;
  he_affinity : ws_affinity_mode spec <> AF_NONE -> ws_affinity_hard spec = true ->
    affinity_match env spec (rp_worker_id p) = true;
  he_capabilities : capability_reasons spec (tags_of env (rp_worker_id p)) = [];
}.

Lemma check_reason_true p name : check_reason p name true = [].
Proof. done. Qed.

Lemma gated_check (c : bool) name r (p : worker_resource_profile) :
  check_reason p name false <> [] ->
  flat_map (fun '(name, result) => check_reason p name result) (if c then [(name, r)] else []) = [] <->
  (c = true -> r = true).
Proof.
  intros Hn. destruct c; simpl; [|naive_solver]. rewrite app_nil_r. destruct r; naive_solver.
Qed.

Lemma ungated_check (c : bool) name r (p : worker_resource_profile) :
  check_reason p name false = [] ->
  flat_map (fun '(name, result) => check_reason p name result) (if c then [(name, r)] else []) = [].
Proof. intros Hn. destruct c; simpl; [|done]. rewrite app_nil_r. by destruct r. Qed.

Lemma app_nil_iff {A} (l1 l2 : list A) : l1 ++ l2 = [] <-> l1 = [] /\ l2 = [].
Proof. split; [apply app_eq_nil|intros [-> ->]; done]. Qed.

Lemma if_nil_iff {A} (b : bool) (x : A) : (if b then [] else [x]) = [] <-> b = true.
Proof. destruct b; naive_solver. Qed.

Lemma flat_map_nil {A B} (f : A -> list B) l : flat_map f l = [] <-> Forall (fun x => f x = []) l.
Proof.
  induction l as [|x l IH]; simpl; [naive_solver|]. rewrite app_nil_iff, IH, Forall_cons. done.
Qed.

(** The thirteen unconditional checks. *)
Lemma basic_checks_iff env spec p :
  let ram_ok := rp_ram_available_bytes p <=? rp_ram_total_bytes p in
  let vram_ok := rp_vram_available_bytes p <=? rp_vram_total_bytes p in
  let cpu_finite := f_isfinite (rp_cpu_utilization_percent p) in
  Forall (fun x : string * bool => check_reason p (fst x) (snd x) = [])
   [("status", bool_decide (rp_status p = WS_ACTIVE));
    ("health", bool_decide (rp_status p = WS_ACTIVE \/ rp_status p = WS_DEGRADED));
    ("can_execute_workloads", rp_can_execute_workloads p);
    ("cpu_telemetry_finite", cpu_finite);
    ("telemetry", telemetry_fresh (pe_now env) p);
    ("cpu", cpu_finite && fge_Z (avail_cpu p) (ws_min_cpu_cores spec));
    ("ram", ram_ok && Z.leb (ws_min_ram_bytes spec) (rp_ram_available_bytes p));
    ("ram_telemetry_consistency", ram_ok);
    ("gpu", negb (wants_gpu spec) || rp_gpu_available p);
    ("vram", vram_ok && Z.leb (ws_min_vram_bytes spec) (rp_vram_available_bytes p));
    ("vram_telemetry_consistency", vram_ok);
    ("concurrency", Z.ltb (rp_active_workload_count p) (rp_max_concurrent_workloads p));
    ("cost", cost_ok spec p)]%string <->
  rp_status p = WS_ACTIVE /\ rp_can_execute_workloads p = true /\ telemetry_fresh (pe_now env) p = true /\
  (cpu_finite = true /\ fge_Z (avail_cpu p) (ws_min_cpu_cores spec) = true) /\
  ws_min_ram_bytes spec <= rp_ram_available_bytes p <= rp_ram_total_bytes p /\
  ws_min_vram_bytes spec <= rp_vram_available_bytes p <= rp_vram_total_bytes p /\
  (wants_gpu spec = true -> rp_gpu_available p = true) /\
  rp_active_workload_count p < rp_max_concurrent_workloads p /\ cost_ok spec p = true.
Proof.
  intros ram_ok vram_ok cpu_finite. rewrite !Forall_cons.
  unfold check_reason, reason_map. simpl.
  assert (forall (b : bool) (x : list string), x <> [] -> (if b then [] else x) = [] <-> b = true) as Hif
    by (intros [] x Hx; naive_solver).
  rewrite (Hif (bool_decide (rp_status p = WS_ACTIVE))) by done.
  rewrite (Hif (rp_can_execute_workloads p)), (Hif cpu_finite), (Hif (telemetry_fresh (pe_now env) p)),
    (Hif (cpu_finite && _)), (Hif ram_ok), (Hif (negb (wants_gpu spec) || rp_gpu_available p)), (Hif vram_ok),
    (Hif (Z.ltb (rp_active_workload_count p) (rp_max_concurrent_workloads p))), (Hif (cost_ok spec p)) by done.
  rewrite bool_decide_eq_true.
  assert (forall P Q : Prop, (P -> Q) -> P /\ Q <-> P) as Hdrop by tauto.
  unfold ram_ok, vram_ok.
  destruct (Z.leb_spec (rp_ram_available_bytes p) (rp_ram_total_bytes p)) as [Hr|Hr];
    [|split; [intros H; decompose [and] H; done|intros H; decompose [and] H; lia]].
  destruct (Z.leb_spec (rp_vram_available_bytes p) (rp_vram_total_bytes p)) as [Hv|Hv];
    [|split; [intros H; decompose [and] H; done|intros H; decompose [and] H; lia]].
  rewrite !(proj2 (Z.ltb_ge _ _)) by done. simpl.
  rewrite (Hif (Z.leb (ws_min_ram_bytes spec) _)), (Hif (Z.leb (ws_min_vram_bytes spec) _)) by done.
  rewrite !Z.leb_le, Z.ltb_lt, andb_true_iff, orb_true_iff, negb_true_iff.
  split.
  - intros H. decompose [and] H. split_and!; try done. intros Hw. destruct (rp_gpu_available p); naive_solver.
  - intros H. decompose [and] H. split_and!; try done.
    + rewrite bool_decide_eq_true_2 by auto. done.
    + destruct (wants_gpu spec); naive_solver.
Qed.

Lemma flat_map_checks (p : worker_resource_profile) (l : odict bool) :
  flat_map (fun '(name, result) => check_reason p name result) l = [] <->
  Forall (fun x => check_reason p (fst x) (snd x) = []) l.
Proof.
  rewrite flat_map_nil. induction l as [|[n r] l IH]; [done|]. by rewrite !Forall_cons, IH.
Qed.

Lemma forall_gated (c : bool) name r (p : worker_resource_profile) :
  check_reason p name false <> [] ->
  Forall (fun x : string * bool => check_reason p (fst x) (snd x) = []) (if c then [(name, r)] else []) <->
  (c = true -> r = true).
Proof. intros Hn. rewrite <- flat_map_checks. by apply gated_check. Qed.

Lemma forall_gated_neg (c : bool) name r (p : worker_resource_profile) :
  check_reason p name false <> [] ->
  Forall (fun x : string * bool => check_reason p (fst x) (snd x) = []) (if c then [] else [(name, r)]) <->
  (c = false -> r = true).
Proof. intros Hn. pose proof (forall_gated (negb c) name r p Hn). destruct c; simpl in *; naive_solver. Qed.

Lemma forall_ungated_neg (c : bool) name r (p : worker_resource_profile) :
  check_reason p name false = [] ->
  Forall (fun x : string * bool => check_reason p (fst x) (snd x) = []) (if c then [] else [(name, r)]) <-> True.
Proof. intros Hn. split; [done|]. intros _. destruct c; constructor; [by destruct r|constructor]. Qed.

Lemma telemetry_fresh_iff now p :
  telemetry_fresh now p = true <->
  exists t, rp_timestamp_utc p = Some t /\ f_isfinite t = true /\ f_isfinite (fsub now t) = true /\
    fle f0 (fsub now t) = true /\ fle (fsub now t) STALE_PROFILE_SECONDS = true.
Proof.
  unfold telemetry_fresh. destruct (rp_timestamp_utc p) as [t|]; [|naive_solver].
  rewrite !andb_true_iff. naive_solver.
Qed.

(** The reasons list is empty exactly for the profiles that satisfy every hard
    constraint. *)
Lemma is_eligible_iff env spec p : is_eligible env spec p = true <-> hard_eligible env spec p.
Proof.
  unfold is_eligible. rewrite bool_decide_eq_true. unfold rejection_reasons, candidate_checks.
  rewrite !app_nil_iff, flat_map_checks, !Forall_app.
  rewrite (forall_gated (opt_truthy (ws_required_gpu_vendor spec))), (forall_gated (opt_truthy (ws_required_gpu_model spec))),
    (forall_gated (opt_truthy (ws_min_compute_capability spec))), (forall_gated (opt_truthy (ws_required_driver_version spec))),
    (forall_gated (opt_truthy (ws_required_runtime_compatibility spec))),
    (forall_gated_neg (bool_decide (ws_required_worker_tags spec = []))), !forall_ungated_neg by done.
  pose proof (basic_checks_iff env spec p) as Hb. cbv zeta in Hb. rewrite Hb, telemetry_fresh_iff. clear Hb.
  assert ((if bool_decide (ws_affinity_mode spec <> AF_NONE) && negb (affinity_match env spec (rp_worker_id p)) && ws_affinity_hard spec
     then ["AFFINITY_CONSTRAINT_NOT_MET"%string] else []) = [] <->
    (ws_affinity_mode spec <> AF_NONE -> ws_affinity_hard spec = true -> affinity_match env spec (rp_worker_id p) = true)) as Haff.
  { case_bool_decide; destruct (affinity_match env spec (rp_worker_id p)), (ws_affinity_hard spec); naive_solver. }
  rewrite Haff. clear Haff.
  assert (cost_ok spec p = true <-> forall m, ws_max_cost_per_hour spec = Some m -> fle (rp_cost_per_hour p) m = true) as ->.
  { unfold cost_ok. destruct (ws_max_cost_per_hour spec); naive_solver. }
  assert ((bool_decide (ws_required_worker_tags spec = []) = false ->
      tag_result (tags_of env (rp_worker_id p)) (ws_required_worker_tags spec) = true) <->
    tag_result (tags_of env (rp_worker_id p)) (ws_required_worker_tags spec) = true) as ->.
  { case_bool_decide as Ht; [rewrite Ht; naive_solver|naive_solver]. }
  assert (forall x, (x = true -> false = true) <-> x = false) as -> by (intros []; naive_solver).
  rewrite bool_decide_eq_true.
  assert (match capability_tuple (rp_gpu_compute_capability p), capability_tuple (ws_min_compute_capability spec) with
          | Some a, Some r => pair_geb a r | _, _ => false end = true <->
    exists a r, capability_tuple (rp_gpu_compute_capability p) = Some a /\
      capability_tuple (ws_min_compute_capability spec) = Some r /\ pair_geb a r = true) as ->.
  { destruct (capability_tuple (rp_gpu_compute_capability p)), (capability_tuple (ws_min_compute_capability spec)); naive_solver. }
  split.
  - intros H. decompose [and] H. constructor; try assumption; try (split; assumption).
  - intros []. repeat split; try assumption; try apply he_cpu0; try apply he_ram0; try apply he_vram0.
Qed.

(** ** The score tables *)

Lemma score_table_get {A} (f : worker_resource_profile -> A) l p :
  NoDup (map rp_worker_id l) -> p ∈ l -> od_get (rp_worker_id p) (score_table f l) = Some (f p).
Proof.
  unfold score_table. generalize ([] : odict A) as d. induction l as [|q l IH]; intros d; simpl; [by inversion 2|].
  intros [Hq Hnd]%NoDup_cons [->|Hp]%elem_of_cons; [|by apply IH].
  assert (forall l d, rp_worker_id q ∉ map rp_worker_id l ->
    od_get (rp_worker_id q) (fold_left (fun d p => od_set (rp_worker_id p) (f p) d) l d) = od_get (rp_worker_id q) d) as Hkeep.
  { clear. intros l. induction l as [|x l IH]; intros d; simpl; [done|]. intros [Hne Hni]%not_elem_of_cons.
    rewrite IH by done. by rewrite od_get_set_ne. }
  rewrite Hkeep by done. apply od_get_set_eq.
Qed.

Lemma ids_filter (f : worker_resource_profile -> bool) l :
  NoDup (map rp_worker_id l) -> NoDup (map rp_worker_id (List.filter f l)).
Proof.
  induction l as [|x l IH]; simpl; [done|]. intros [Hx Hnd]%NoDup_cons.
  destruct (f x); simpl; [|auto]. apply NoDup_cons; split; [|auto].
  rewrite !list_elem_of_In, !in_map_iff in *. intros (y & Hy & Hin%filter_In). naive_solver.
Qed.

Lemma ids_inj l (p q : worker_resource_profile) :
  NoDup (map rp_worker_id l) -> p ∈ l -> q ∈ l -> rp_worker_id p = rp_worker_id q -> p = q.
Proof.
  induction l as [|x l IH]; simpl; intros Hnd Hp Hq Heq; [by inversion Hp|].
  apply NoDup_cons in Hnd as [Hx Hnd].
  apply elem_of_cons in Hp as [->|Hp]; apply elem_of_cons in Hq as [->|Hq]; auto.
  - destruct Hx. rewrite Heq. by apply (list_elem_of_fmap_2 rp_worker_id).
  - destruct Hx. rewrite <- Heq. by apply (list_elem_of_fmap_2 rp_worker_id).
Qed.

Lemma eligible_elem env spec profiles p :
  p ∈ List.filter (is_eligible env spec) profiles <-> p ∈ profiles /\ hard_eligible env spec p.
Proof. by rewrite list_elem_of_In, filter_In, <- list_elem_of_In, is_eligible_iff. Qed.

Section evaluation.
Context {B : Type} `{Advisory B}.

Lemma rank_candidates_perm (bridge : option B) spec ranks eligible :
  Permutation (fst (rank_candidates bridge spec ranks eligible)) eligible.
Proof.
  unfold rank_candidates. destruct bridge as [b|]; simpl; [|apply isort_perm]. by rewrite !isort_perm.
Qed.

(** What [evaluate] returns, in terms of the ranked list. *)
Lemma evaluate_cases (bridge : option B) env spec profiles :
  let eligible := List.filter (is_eligible env spec) profiles in
  let ranks := score_table (rank_score env spec) eligible in
  match fst (rank_candidates bridge spec ranks eligible) with
  | [] => eligible = [] /\ snd (evaluate bridge env spec profiles) = None
  | p :: _ => p ∈ eligible /\ exists d, snd (evaluate bridge env spec profiles) = Some d /\
      pd_selected_worker_id d = rp_worker_id p /\ pd_workload_id d = ws_workload_id spec /\
      pd_missing_assets_on_worker d = ws_input_asset_hashes spec ∖ rp_local_cached_hashes p /\
      pd_candidate_explanations d = map (explain env spec) profiles /\
      (NoDup (map rp_worker_id profiles) ->
       pd_placement_score d = m6_score spec p (locality_of spec p (pe_asset_sizes env)) /\
       pd_locality_details d = Some (locality_of spec p (pe_asset_sizes env)))
  end.
Proof.
  intros eligible ranks. unfold evaluate. fold eligible. fold ranks.
  pose proof (rank_candidates_perm bridge spec ranks eligible) as Hp.
  destruct (rank_candidates bridge spec ranks eligible) as [[|p l] adj]; simpl in *.
  - split; [|done]. by apply Permutation_nil.
  - assert (p ∈ eligible) as Hin by (rewrite <- Hp; left). split; [done|].
    eexists. split; [reflexivity|]. simpl. split_and!; [done..|]. intros Hnd. unfold od_get_default.
    rewrite (score_table_get (fun p => m6_score spec p (locality_of spec p (pe_asset_sizes env))) eligible p)
      by (done || by apply ids_filter).
    rewrite (score_table_get (fun p => locality_of spec p (pe_asset_sizes env)) profiles p); [done|done|].
    apply eligible_elem in Hin. by destruct Hin.
Qed.

(** C5: placement is safe and complete.  A decision is returned exactly when
    some profile satisfies every hard constraint, whatever the advisory layer
    does to the order; the selected worker is one of them; the missing assets
    are the workload's inputs the worker does not cache; and, with distinct
    worker ids, the score and locality reported are the selected worker's. *)
Theorem evaluate_safe_and_complete (bridge : option B) env spec profiles :
  match snd (evaluate bridge env spec profiles) with
  | None => forall p, p ∈ profiles -> ~ hard_eligible env spec p
  | Some d => exists p, p ∈ profiles /\ hard_eligible env spec p /\
      pd_selected_worker_id d = rp_worker_id p /\ pd_workload_id d = ws_workload_id spec /\
      pd_missing_assets_on_worker d = ws_input_asset_hashes spec ∖ rp_local_cached_hashes p /\
      (NoDup (map rp_worker_id profiles) ->
       pd_placement_score d = m6_score spec p (locality_of spec p (pe_asset_sizes env)) /\
       pd_locality_details d = Some (locality_of spec p (pe_asset_sizes env)))
  end.
Proof.
  pose proof (evaluate_cases bridge env spec profiles) as Hc. cbv zeta in Hc.
  destruct (fst (rank_candidates _ _ _ _)) as [|p l].
  - destruct Hc as [He ->]. intros p Hp Hh. assert (p ∈ List.filter (is_eligible env spec) profiles) as Hin
      by by apply eligible_elem. rewrite He in Hin. inversion Hin.
  - destruct Hc as (Hin & d & -> & Hsel & Hw & Hm & _ & Hs). apply eligible_elem in Hin as [Hp Hh].
    exists p. by split_and!.
Qed.
End evaluation.

(** The best worker wins.  Without the advisory layer, if the worker ids
    are distinct and no rank score is NaN, the selected worker's rank score is
    at least that of every eligible worker, and among equal scores its id is
    the smallest. *)
Theorem evaluate_selects_best env spec profiles d :
  NoDup (map rp_worker_id profiles) ->
  (forall p, p ∈ profiles -> hard_eligible env spec p -> notnan (rank_score env spec p)) ->
  snd (evaluate (B := Empty_set) None env spec profiles) = Some d ->
  exists p, p ∈ profiles /\ rp_worker_id p = pd_selected_worker_id d /\
    forall q, q ∈ profiles -> hard_eligible env spec q ->
      flt (rank_score env spec p) (rank_score env spec q) = false /\
      (feq (rank_score env spec p) (rank_score env spec q) = true ->
       q = p \/ str_lt (rp_worker_id p) (rp_worker_id q) = true).
Proof.
  intros Hnd Hnn Hd. pose proof (evaluate_cases (B := Empty_set) None env spec profiles) as Hc. cbv zeta in Hc.
  set (eligible := List.filter (is_eligible env spec) profiles) in *.
  set (ranks := score_table (rank_score env spec) eligible) in *. simpl in Hc.
  set (key := fun p => fopp (od_get_default (rp_worker_id p) f0 ranks)).
  assert (forall p, p ∈ eligible -> key p = fopp (rank_score env spec p)) as Hkey.
  { intros p Hp. unfold key, od_get_default. unfold ranks.
    rewrite (score_table_get (rank_score env spec) eligible p); [done|by apply ids_filter|done]. }
  assert (forall p, p ∈ eligible -> notnan (rank_score env spec p)) as Hnn'
    by (intros p [? ?]%eligible_elem; auto).
  change (isort (rank_key_lt ranks) eligible) with (isort (fkey_lt key rp_worker_id) eligible) in Hc.
  destruct (isort (fkey_lt key rp_worker_id) eligible) as [|p l] eqn:E; [destruct Hc; congruence|].
  destruct Hc as (Hin & d' & Hd' & Hsel & _). rewrite Hd in Hd'. injection Hd' as <-.
  exists p. split_and!; [by apply eligible_elem in Hin as [? _]|done|].
  intros q Hq Hh. assert (q ∈ eligible) as Hqe by by apply eligible_elem.
  assert (forall y, y ∈ eligible -> notnan (key y)) as Hkn
    by (intros y Hy; rewrite Hkey by done; apply fopp_notnan; auto).
  pose proof (isort_fkey_head key rp_worker_id eligible p l Hkn E q Hqe) as Hmin.
  assert (rank_lt (frank (key p)) (frank (key q)) <-> flt (rank_score env spec q) (rank_score env spec p) = true) as Hlt.
  { rewrite <- flt_rank by auto. rewrite !Hkey by done. rewrite fopp_lt by auto. done. }
  assert (frank (key p) = frank (key q) <-> feq (rank_score env spec p) (rank_score env spec q) = true) as Heq.
  { rewrite !Hkey by done.
    rewrite frank_opp_eq by auto. by rewrite feq_rank by auto. }
  unfold fkey_lexlt in Hmin. rewrite Hlt, Heq in Hmin. split.
  - destruct Hmin as [[Hf|[Hf _]]|[Hf _]]; [exact (flt_asym _ _ Hf)|exact (feq_flt _ _ Hf)..].
  - intros Hf. destruct Hmin as [[Hl|[_ Hs]]|[_ Hid]].
    + rewrite (feq_flt_sym _ _ Hf) in Hl. done.
    + by right.
    + left. symmetry. apply (ids_inj profiles p q Hnd); [by apply eligible_elem in Hin as [? _]|done|done].
Qed.

(** ** Groups *)

Lemma filter_comm {A} (f g : A -> bool) l : List.filter f (List.filter g l) = List.filter g (List.filter f l).
Proof.
  induction l as [|x l IH]; simpl; [done|].
  destruct (g x) eqn:Eg, (f x) eqn:Ef; simpl; rewrite ?Eg, ?Ef, IH; done.
Qed.

Lemma remove_id_length l p :
  NoDup (map rp_worker_id l) -> p ∈ l ->
  Datatypes.S (length (List.filter (fun q => negb (String.eqb (rp_worker_id q) (rp_worker_id p))) l)) = length l.
Proof.
  induction l as [|x l IH]; simpl; intros Hnd Hp; [by inversion Hp|].
  apply NoDup_cons in Hnd as [Hx Hnd]. apply elem_of_cons in Hp as [->|Hp].
  - rewrite String.eqb_refl. simpl. f_equal. clear IH Hnd. induction l as [|y l IH]; simpl; [done|].
    simpl in Hx. apply not_elem_of_cons in Hx as [Hne Hx].
    destruct (String.eqb_spec (rp_worker_id y) (rp_worker_id x)); [congruence|]. simpl. by rewrite IH.
  - destruct (String.eqb_spec (rp_worker_id x) (rp_worker_id p)) as [Heq|]; simpl; [|by rewrite IH].
    destruct Hx. rewrite Heq. by apply (list_elem_of_fmap_2 rp_worker_id).
Qed.

Section groups.
Context {B : Type} `{Advisory B}.

Definition eligible_count (env : placement_env) (spec : workload_spec) (l : list worker_resource_profile) : nat :=
  length (List.filter (is_eligible env spec) l).

Lemma group_loop_spec (bridge : option B) env spec n remaining decisions cands :
  NoDup (map rp_worker_id remaining) ->
  match group_loop bridge env spec n remaining decisions cands with
  | (ge, None) => ge_complete ge = false /\ (eligible_count env spec remaining < n)%nat
  | (ge, Some ds) => ge_complete ge = true /\ ge_selected_worker_ids ge = map pd_selected_worker_id ds /\
      exists new, ds = decisions ++ new /\ length new = n /\
        NoDup (map pd_selected_worker_id new) /\
        forall d, d ∈ new -> exists p, p ∈ remaining /\ hard_eligible env spec p /\ pd_selected_worker_id d = rp_worker_id p
  end.
Proof.
  revert remaining decisions cands. induction n as [|n IH]; intros remaining decisions cands Hnd; simpl.
  { split_and!; [done..|]. exists []. rewrite app_nil_r. split_and!; [done..|constructor|]. intros d Hd. inversion Hd. }
  pose proof (evaluate_cases bridge env spec remaining) as Hc. cbv zeta in Hc.
  destruct (evaluate bridge env spec remaining) as [ev o]. simpl in Hc.
  destruct (fst (rank_candidates _ _ _ _)) as [|p l].
  - destruct Hc as [He ->]. split; [done|]. unfold eligible_count. rewrite He. simpl. lia.
  - destruct Hc as (Hin & d & -> & Hsel & _). rewrite Hsel.
    set (rest := List.filter (fun q => negb (String.eqb (rp_worker_id q) (rp_worker_id p))) remaining).
    assert (NoDup (map rp_worker_id rest)) as Hnd' by by apply ids_filter.
    specialize (IH rest (decisions ++ [d]) (cands ++ pd_candidate_explanations d) Hnd').
    assert (Datatypes.S (eligible_count env spec rest) = eligible_count env spec remaining) as Hcount.
    { unfold eligible_count, rest. rewrite filter_comm. apply remove_id_length; [by apply ids_filter|done]. }
    assert (forall q, q ∈ rest -> q ∈ remaining /\ rp_worker_id q <> rp_worker_id p) as Hrest.
    { intros q Hq. unfold rest in Hq. rewrite list_elem_of_In in Hq. apply filter_In in Hq as [Hq Hne].
      rewrite list_elem_of_In. split; [done|]. intros Heq. by rewrite Heq, String.eqb_refl in Hne. }
    destruct (group_loop bridge env spec n rest _ _) as [ge [ds|]].
    + destruct IH as (? & ? & new & -> & Hl & Hn & Hall). split_and!; [done..|].
      exists (d :: new). rewrite <- app_assoc. simpl. split_and!; [done|by rewrite Hl| |].
      * apply NoDup_cons; split; [|done]. rewrite list_elem_of_fmap. intros (d' & Hd' & Hin').
        destruct (Hall d' Hin') as (q & Hq & _ & Hqs). apply Hrest in Hq as [_ Hne]. congruence.
      * intros d' [->|Hd']%elem_of_cons.
        -- apply eligible_elem in Hin as [Hp Hh]. by exists p.
        -- destruct (Hall d' Hd') as (q & Hq & Hh & Hqs). exists q. by apply Hrest in Hq as [? _].
    + destruct IH as [Hcm Hlt]. split; [done|]. lia.
Qed.

Lemma group_size_bound env spec profiles (ids : list string) :
  NoDup ids ->
  (forall w, w ∈ ids -> exists p, p ∈ profiles /\ hard_eligible env spec p /\ w = rp_worker_id p) ->
  (length ids <= eligible_count env spec profiles)%nat.
Proof.
  intros Hnd Hall. unfold eligible_count. rewrite <- (length_map rp_worker_id).
  apply submseteq_length, NoDup_submseteq; [done|]. intros w Hw. destruct (Hall w Hw) as (p & Hp & Hh & ->).
  apply (list_elem_of_fmap_2 rp_worker_id). by apply eligible_elem.
Qed.

(** Groups are all or nothing.  For two or more workers with distinct
    ids, [evaluate_group] returns exactly [worker_count] decisions for
    distinct workers that each satisfy the hard constraints, and it does so
    exactly when that many eligible workers exist; otherwise it returns no
    decision and records the group as incomplete.  A count below two raises. *)
Theorem evaluate_group_all_or_nothing (bridge : option B) env spec profiles n :
  NoDup (map rp_worker_id profiles) ->
  match evaluate_group bridge env spec profiles n with
  | Err e => n < 2
  | Ok (ge, None) => 2 <= n /\ ge_complete ge = false /\ Z.of_nat (eligible_count env spec profiles) < n
  | Ok (ge, Some ds) => 2 <= n /\ ge_complete ge = true /\ Z.of_nat (length ds) = n /\
      n <= Z.of_nat (eligible_count env spec profiles) /\
      ge_selected_worker_ids ge = map pd_selected_worker_id ds /\ NoDup (map pd_selected_worker_id ds) /\
      forall d, d ∈ ds -> exists p, p ∈ profiles /\ hard_eligible env spec p /\ pd_selected_worker_id d = rp_worker_id p
  end.
Proof.
  intros Hnd. unfold evaluate_group. destruct (Z.ltb_spec n 2) as [|Hn]; [done|].
  pose proof (group_loop_spec bridge env spec (Z.to_nat n) profiles [] [] Hnd) as Hg.
  destruct (group_loop _ _ _ _ _ _ _) as [ge [ds|]].
  - destruct Hg as (? & ? & new & -> & Hl & Hnd' & Hall). simpl in *. split_and!; try done; try lia.
    assert (length (map pd_selected_worker_id new) <= eligible_count env spec profiles)%nat as Hb; [|rewrite length_map in Hb; lia].
    apply group_size_bound; [done|]. intros w Hw. apply list_elem_of_fmap in Hw as (d & -> & Hd).
    destruct (Hall d Hd) as (p & Hp & Hh & Hs). by exists p.
  - destruct Hg as [? ?]. split_and!; [done|done|lia].
Qed.
End groups.

(** ** Following the advisory layer *)

(** The layer's promise: it re-orders the candidates it was given. *)
Class AdvisoryLaws (B : Type) `{Advisory B} := {
  adv_order_perm : forall b scores risks, Permutation (adv_order b scores risks) (od_keys scores);
}.

Lemma score_table_map {A} (f : worker_resource_profile -> A) l :
  NoDup (map rp_worker_id l) -> score_table f l = map (fun p => (rp_worker_id p, f p)) l.
Proof. intros Hnd. exact (od_set_all (fun p => (rp_worker_id p, f p)) l [] Hnd). Qed.

Lemma positions_get ids i wid :
  NoDup ids -> ids !! i = Some wid -> od_get wid (positions ids) = Some (Z.of_nat i + 1).
Proof.
  intros Hnd Hi. unfold positions.
  set (l := combine (map Z.of_nat (seq 1 (length ids))) ids).
  assert (map snd l = ids) as Hs.
  { unfold l. clear. generalize 1%nat. induction ids as [|x ids IH]; intros n; simpl; [done|]. by rewrite IH. }
  replace (fold_left (fun d '(i, id) => od_set id i d) l []) with (map (fun x => (snd x, fst x)) l).
  2: { symmetry. change (map (fun x => (snd x, fst x)) l) with ([] ++ map (fun x : Z * string => (snd x, fst x)) l).
       rewrite <- (od_set_all (fun x : Z * string => (snd x, fst x)) l []); [|rewrite <- Hs in Hnd; exact Hnd].
       clear. generalize ([] : odict Z) as d. induction l as [|[n x] l IH]; intros d; simpl; [done|]. apply IH. }
  assert (forall n, od_get wid (map (fun x => (snd x, fst x)) (combine (map Z.of_nat (seq n (length ids))) ids)) = Some (Z.of_nat (i + n))) as Hg;
    [|unfold l; rewrite Hg; f_equal; lia].
  clear l Hs. revert i Hi. induction ids as [|x ids IH]; intros [|i] Hi n; simpl in *; try done.
  - injection Hi as ->. by rewrite String.eqb_refl.
  - apply NoDup_cons in Hnd as [Hx Hnd]. destruct (String.eqb_spec wid x) as [->|].
    + destruct Hx. by eapply list_elem_of_lookup_2.
    + rewrite (IH Hnd i Hi). f_equal. lia.
Qed.

Section advice.
Context {B : Type} `{AdvisoryLaws B}.

(** With distinct candidates, the first one is the one the layer puts first. *)
Lemma advice_followed (b : B) spec ranks eligible p l :
  NoDup (map rp_worker_id eligible) -> Permutation (od_keys ranks) (map rp_worker_id eligible) ->
  fst (rank_candidates (Some b) spec ranks eligible) = p :: l ->
  exists rest, adv_order b ranks (adv_risks b spec (isort (rank_key_lt ranks) eligible)) = rp_worker_id p :: rest.
Proof.
  intros Hnd Hk. unfold rank_candidates. simpl.
  set (ranked := isort (rank_key_lt ranks) eligible).
  set (ids := adv_order b ranks (adv_risks b spec ranked)).
  assert (Permutation ranked eligible) as Hre by apply isort_perm.
  assert (Permutation ids (map rp_worker_id ranked)) as Hp.
  { unfold ids. rewrite adv_order_perm, Hre. exact Hk. }
  clearbody ids. assert (NoDup ids) as Hndi by (rewrite Hp, Hre; done).
  assert (NoDup (map rp_worker_id ranked)) as Hndr by (by rewrite Hre).
  clearbody ranked. clear Hre.
  set (key := fun q : worker_resource_profile => od_get_default (rp_worker_id q) (Z.of_nat (length (positions ids)) + 1) (positions ids)).
  assert (forall q, q ∈ ranked -> exists i, ids !! i = Some (rp_worker_id q) /\ key q = Z.of_nat i + 1) as Hkey.
  { intros q Hq. assert (rp_worker_id q ∈ ids) as Hin by (rewrite Hp; by apply (list_elem_of_fmap_2 rp_worker_id)).
    apply list_elem_of_lookup_1 in Hin as [i Hi]. exists i. split; [done|].
    unfold key, od_get_default. by rewrite (positions_get _ _ _ Hndi Hi). }
  intros Hs. rewrite (isort_ext _ (key_lt key)) in Hs.
  2: { intros x y Hx Hy. unfold position_key_lt, key_lt. fold (key x) (key y).
       destruct (Z.eqb_spec (key x) (key y)) as [E|E]; [|done]. rewrite E, Z.ltb_irrefl.
       destruct (Hkey x Hx) as (i & Hi & Kx), (Hkey y Hy) as (j & Hj & Ky).
       assert (i = j) as -> by lia. rewrite Hi in Hj. injection Hj as ->. apply str_lt_irrefl. }
  pose proof (isort_key_sorted key ranked) as Hsort. rewrite Hs in Hsort.
  assert (p ∈ ranked) as Hpr by (apply (isort_elem (key_lt key)); rewrite Hs; left).
  destruct (Hkey p Hpr) as (i & Hi & Kp). destruct ids as [|w ids]; [done|]. exists ids.
  destruct i as [|i]; [by injection Hi as ->|exfalso].
  assert (w ∈ map rp_worker_id ranked) as Hw by (rewrite <- Hp; left).
  apply list_elem_of_In, in_map_iff in Hw as (q & <- & Hq%list_elem_of_In).
  destruct (Hkey q Hq) as (j & Hj & Kq).
  assert (j = 0%nat) as -> by (eapply (NoDup_lookup _ _ _ _ Hndi); [exact Hj|done]).
  assert (q ∈ p :: l) as Hql by (rewrite <- Hs; by apply isort_elem).
  apply elem_of_cons in Hql as [->|Hql]; [lia|].
  apply StronglySorted_inv in Hsort as [_ Hf]. rewrite List.Forall_forall in Hf.
  specialize (Hf q (proj1 (list_elem_of_In _ _) Hql)). lia.
Qed.
End advice.

(** ** Witnesses and an affinity that cannot be met *)

Definition witness_env : placement_env :=
  {| pe_worker_tags := []; pe_group_workers := []; pe_now := f1; pe_predicted_duration := None; pe_asset_sizes := [] |}.
Definition witness_profiles : list worker_resource_profile :=
  [plain_profile "n1" 4 1024 ∅; plain_profile "n2" 8 1024 ∅; plain_profile "n3" 8 1024 ∅].

Lemma witness_profiles_distinct : NoDup (map rp_worker_id witness_profiles).
Proof. apply (bool_decide_eq_true_1 _). vm_compute. reflexivity. Defined.

Lemma witness_ranks_notnan p :
  p ∈ witness_profiles -> notnan (rank_score witness_env (plain_spec "w" "t" []) p).
Proof.
  intros Hp. unfold witness_profiles in Hp.
  repeat (apply elem_of_cons in Hp as [->|Hp]; [vm_compute; discriminate|]). inversion Hp.
Defined.

Lemma evaluate_selects_best_witness :
  exists d, snd (evaluate (B := Empty_set) None witness_env (plain_spec "w" "t" []) witness_profiles) = Some d /\
    exists p, p ∈ witness_profiles /\ rp_worker_id p = pd_selected_worker_id d.
Proof.
  destruct (snd (evaluate (B := Empty_set) None witness_env (plain_spec "w" "t" []) witness_profiles)) as [d|] eqn:E;
    [|exfalso; vm_compute in E; discriminate].
  exists d. split; [reflexivity|].
  destruct (evaluate_selects_best witness_env (plain_spec "w" "t" []) witness_profiles d
    witness_profiles_distinct (fun p Hp _ => witness_ranks_notnan p Hp) E) as (p & Hp & Hid & _).
  exists p. exact (conj Hp Hid).
Defined.

Example best_of_three :
  option_map pd_selected_worker_id
    (snd (evaluate (B := Empty_set) None witness_env (plain_spec "w" "t" []) witness_profiles)) = Some "n2"%string.
Proof. vm_compute. reflexivity. Qed.

Lemma evaluate_group_witness :
  NoDup (map rp_worker_id witness_profiles) /\
  match evaluate_group (B := Empty_set) None witness_env (plain_spec "w" "t" []) witness_profiles 2 with
  | Ok (_, Some ds) => map pd_selected_worker_id ds = ["n2"; "n3"]%string
  | _ => False
  end /\ NoDup ["n2"; "n3"]%string.
Proof.
  split_and!; [exact witness_profiles_distinct|vm_compute; reflexivity|].
  pose proof (evaluate_group_all_or_nothing (B := Empty_set) None witness_env (plain_spec "w" "t" [])
    witness_profiles 2 witness_profiles_distinct) as Hg.
  destruct (evaluate_group None witness_env (plain_spec "w" "t" []) witness_profiles 2) as [[ge [ds|]]|e] eqn:E;
    [|exfalso; vm_compute in E; discriminate..].
  assert (map pd_selected_worker_id ds = ["n2"; "n3"]%string) as <-
    by (vm_compute in E; injection E as _ <-; reflexivity).
  exact (proj1 (proj2 (proj2 (proj2 (proj2 (proj2 Hg)))))).
Defined.

(** Two workers of the group carry the same tag value, so the set of their
    values has one element while the group has two: a third worker with that
    very value is rejected. *)
Definition same_tag_spec : workload_spec :=
  let s := plain_spec "w" "t" [] in
  {| ws_workload_id := ws_workload_id s; ws_job_id := ws_job_id s; ws_task_type := ws_task_type s;
     ws_input_asset_hashes := ws_input_asset_hashes s; ws_min_cpu_cores := ws_min_cpu_cores s;
     ws_min_ram_bytes := ws_min_ram_bytes s; ws_requires_gpu := ws_requires_gpu s;
     ws_min_vram_bytes := ws_min_vram_bytes s; ws_estimated_duration_seconds := ws_estimated_duration_seconds s;
     ws_priority := ws_priority s; ws_deadline_at_utc := ws_deadline_at_utc s;
     ws_required_gpu_vendor := ws_required_gpu_vendor s; ws_required_gpu_model := ws_required_gpu_model s;
     ws_min_compute_capability := ws_min_compute_capability s;
     ws_required_driver_version := ws_required_driver_version s;
     ws_required_runtime_compatibility := ws_required_runtime_compatibility s;
     ws_required_worker_tags := ws_required_worker_tags s; ws_preferred_worker_tags := ws_preferred_worker_tags s;
     ws_affinity_group_id := Some "g"%string; ws_affinity_mode := AF_SAME_TAG;
     ws_affinity_tag_key := Some "rack"%string; ws_affinity_hard := true;
     ws_max_cost_per_hour := ws_max_cost_per_hour s; ws_depends_on := ws_depends_on s;
     ws_parameters := ws_parameters s; ws_execution_spec := ws_execution_spec s |}.

Example same_tag_unsatisfiable :
  let rack v := [("rack", v)]%string in
  let env := {| pe_worker_tags := [("n1", rack "r1"); ("n2", rack "r1"); ("n3", rack "r1")]%string;
                pe_group_workers := [("g"%string, {["n1"; "n2"]})]; pe_now := f1;
                pe_predicted_duration := None; pe_asset_sizes := [] |} in
  rejection_reasons env same_tag_spec (plain_profile "n3" 8 1024 ∅) = ["AFFINITY_CONSTRAINT_NOT_MET"%string].
Proof. vm_compute. reflexivity. Qed.
