(* ===== verification/Sizing.v ===== *)
(** * Cluster sizing ([distributed/sizing.py])

    [size_cluster] is [ClusterSizer.size_cluster]: eligibility is delegated to
    [Placement.evaluate] through a probe specification, eligible workers are
    sorted by their single-worker time, groups of size 1, 2, ... are projected,
    and a policy picks a size.  The explanation text is left out.  The probe
    specification passes the validators of [WorkloadSpec]; the bound on the
    encoded size of [parameters] is not modelled. *)
From S2P Require Export Placement.

Inductive sizing_policy :=
| SINGLE_WORKER_SUFFICIENT | DEADLINE_DRIVEN_MINIMAL | EFFICIENCY_THROUGHPUT
| TRANSFER_OVERHEAD_HALT | DIMINISHING_RETURNS | NON_PARTITIONABLE.
#[export] Instance sizing_policy_eq_dec : EqDecision sizing_policy.
Proof. solve_decision. Defined.

Inductive sizing_feasibility := FEASIBLE | INFEASIBLE_DEADLINE | UNSCHEDULABLE_CONSTRAINTS | UNKNOWN_ESTIMATE.
#[export] Instance sizing_feasibility_eq_dec : EqDecision sizing_feasibility.
Proof. solve_decision. Defined.

Record sizing_request := {
  sq_request_id : string;
  sq_task_type : string;
  sq_total_units : Z;
  sq_unit_workload_seconds : option float;
  sq_deadline_seconds : option float;
  sq_deadline_at_utc : option float;
  sq_partitionable : bool;
  sq_min_units_per_worker : Z;
  sq_max_workers_limit : option Z;
  sq_min_cpu_cores : Z;
  sq_min_ram_bytes : option Z;
  sq_requires_gpu : bool;
  sq_min_vram_bytes : Z;
  sq_required_gpu_vendor : option string;
  sq_required_gpu_model : option string;
  sq_min_compute_capability : option string;
  sq_required_driver_version : option string;
  sq_required_runtime_compatibility : option string;
  sq_required_tags : odict string;
  sq_required_worker_tags : odict string;
  sq_preferred_worker_tags : odict string;
  sq_execution_spec : option execution_spec;
  sq_parameters : odict json;
  sq_affinity_group_id : option string;
  sq_affinity_mode : affinity_mode;
  sq_affinity_tag_key : option string;
  sq_affinity_hard : bool;
  sq_max_cost_per_hour : option float;
  sq_input_asset_hashes : gset string;
  sq_asset_sizes_bytes : odict Z;
  sq_worker_speed_multipliers : odict float;
  sq_network_bandwidth : option float;
  sq_coordination_overhead : option float;
  sq_marginal_benefit_threshold : option float;
}.

Record worker_sizing_detail := {
  sd_worker_id : string;
  sd_relative_speed : float;
  sd_missing_asset_bytes : Z;
  sd_transfer_time_seconds : float;
  sd_allocated_units : Z;
  sd_estimated_compute_seconds : float;
  sd_estimated_total_seconds : float;
}.

Record group_sizing_evaluation := {
  gz_group_size : Z;
  gz_worker_ids : list string;
  gz_aggregate_speed : float;
  gz_max_transfer_seconds : float;
  gz_compute_seconds : float;
  gz_coordination_seconds : float;
  gz_wall_clock_seconds : float;
  gz_speedup_over_single : float;
  gz_marginal_speedup : float;
  gz_meets_deadline : bool;
}.

Record sizing_decision := {
  zd_request_id : string;
  zd_policy_applied : sizing_policy;
  zd_feasibility_status : sizing_feasibility;
  zd_recommended_worker_count : Z;
  zd_selected_worker_ids : list string;
  zd_spare_worker_ids : list string;
  zd_estimated_wall_clock_seconds : float;
  zd_deadline_seconds : option float;
  zd_deadline_achievable : bool;
  zd_confidence_score : float;
  zd_worker_details : list worker_sizing_detail;
  zd_evaluations_by_group_size : list group_sizing_evaluation;
  zd_rejection_diagnostics : odict (list string);
  zd_evaluated_at_utc : float;
}.

(** [ClusterSizer.__init__]. *)
Record cluster_sizer := {
  cz_default_network_bandwidth : float;
  cz_default_coordination_overhead : float;
  cz_marginal_benefit_threshold : float;
  cz_safety_margin : float;
}.
Definition default_sizer : cluster_sizer :=
  {| cz_default_network_bandwidth := f_of_Z (50 * 1024 * 1024);
     cz_default_coordination_overhead := f1;
     cz_marginal_benefit_threshold := flit 15 2;
     cz_safety_margin := flit 10 2 |}.

Definition build_probe_spec (request : sizing_request) (now : float) : res workload_spec :=
  let deadline :=
    match sq_deadline_at_utc request, sq_deadline_seconds request with
    | Some d, _ => Some d
    | None, Some s => Some (fadd now s)
    | None, None => None
    end in
  let est_duration :=
    match sq_unit_workload_seconds request with
    | Some u => fmax (flit 1 1) (fmul (f_of_Z (sq_total_units request)) u)
    | None => f_of_Z 10
    end in
  let! hashes := validate_hashes (elements (sq_input_asset_hashes request)) in
  validate_affinity
    {| ws_workload_id := ("probe-" +:+ sq_request_id request)%string;
       ws_job_id := None;
       ws_task_type := sq_task_type request;
       ws_input_asset_hashes := hashes;
       ws_min_cpu_cores := sq_min_cpu_cores request;
       ws_min_ram_bytes := default 1 (sq_min_ram_bytes request);
       ws_requires_gpu := sq_requires_gpu request;
       ws_min_vram_bytes := sq_min_vram_bytes request;
       ws_estimated_duration_seconds := est_duration;
       ws_priority := 5;
       ws_deadline_at_utc := deadline;
       ws_required_gpu_vendor := sq_required_gpu_vendor request;
       ws_required_gpu_model := sq_required_gpu_model request;
       ws_min_compute_capability := sq_min_compute_capability request;
       ws_required_driver_version := sq_required_driver_version request;
       ws_required_runtime_compatibility := sq_required_runtime_compatibility request;
       ws_required_worker_tags := od_merge (sq_required_worker_tags request) (sq_required_tags request);
       ws_preferred_worker_tags := sq_preferred_worker_tags request;
       ws_affinity_group_id := sq_affinity_group_id request;
       ws_affinity_mode := sq_affinity_mode request;
       ws_affinity_tag_key := sq_affinity_tag_key request;
       ws_affinity_hard := sq_affinity_hard request;
       ws_max_cost_per_hour := sq_max_cost_per_hour request;
       ws_depends_on := [];
       ws_parameters := sq_parameters request;
       ws_execution_spec := sq_execution_spec request |}.

(** ** Integer allocation by largest remainder *)

(** Add one unit to the workers at the given indices. *)
Definition bump (floored : list Z) (idxs : list nat) : list Z :=
  fold_left (fun l i => match l !! i with Some v => <[i := v + 1]> l | None => l end) idxs floored.

(** Indices sorted by fraction, largest first; equal fractions keep their
    order. *)
Definition by_fraction (fractions : list (float * nat)) : list nat :=
  map snd (isort (fun a b => flt (fst b) (fst a)) fractions).

(** [math.floor] raises on infinities and NaN; indexing past the end of
    [fractions] raises [IndexError]. *)
Definition allocate (total : Z) (quotas : list float) : res (list Z) :=
  match mapM f_floor quotas with
  | None => Err (ValueError "cannot convert float to integer")
  | Some floored =>
      let remainder := total - sumZ floored in
      let fractions := imap (fun i q => (fsub q (f_of_Z (nth i floored 0)), i)) quotas in
      if Z.of_nat (length fractions) <? remainder then Err IndexError
      else Ok (bump floored (take (Z.to_nat remainder) (by_fraction fractions)))
  end.

Section sizer.
Variable request : sizing_request.
Variables bandwidth coord_overhead marginal_thresh unit_seconds : float.
Variable effective_deadline : option float.

Definition worker_missing_bytes (p : worker_resource_profile) : Z :=
  sumZ (map (fun h => od_get_default h 0 (sq_asset_sizes_bytes request))
            (elements (sq_input_asset_hashes request ∖ rp_local_cached_hashes p))).

Definition worker_transfer_time (p : worker_resource_profile) : float :=
  if fle bandwidth f0 then f0 else fdiv (f_of_Z (worker_missing_bytes p)) bandwidth.

Definition worker_speed (p : worker_resource_profile) : float :=
  fmax (flit 1 2) (od_get_default (rp_worker_id p) f1 (sq_worker_speed_multipliers request)).

Definition total_work : float := fmul (f_of_Z (sq_total_units request)) unit_seconds.

Definition single_worker_time (p : worker_resource_profile) : float :=
  fadd (worker_transfer_time p) (fdiv total_work (worker_speed p)).

Definition sorted_profiles (eligible : list worker_resource_profile) : list worker_resource_profile :=
  isort (fkey_lt single_worker_time rp_worker_id) eligible.

Definition meets (wall : float) : bool :=
  match effective_deadline with None => true | Some d => fle wall d end.

(** [max(list)] of a non-empty list. *)
Definition fmax_list (l : list float) : float :=
  match l with [] => f0 | x :: l => fold_left fmax l x end.

Definition member_detail (p : worker_resource_profile) (units : Z) : worker_sizing_detail :=
  let t_trans := worker_transfer_time p in
  let t_comp := if 0 <? units then fdiv (fmul (f_of_Z units) unit_seconds) (worker_speed p) else f0 in
  {| sd_worker_id := rp_worker_id p; sd_relative_speed := worker_speed p;
     sd_missing_asset_bytes := worker_missing_bytes p; sd_transfer_time_seconds := t_trans;
     sd_allocated_units := units; sd_estimated_compute_seconds := t_comp;
     sd_estimated_total_seconds := fadd t_trans t_comp |}.

(** One turn of the loop over [k]; [wall1] and [prev] are the walls of size 1
    and of the previous size. *)
Definition evaluate_size (k : nat) (sub : list worker_resource_profile) (wall1 prev : option float)
  : res (group_sizing_evaluation * list worker_sizing_detail) :=
  let speeds := map worker_speed sub in
  let total_speed := fsum speeds in
  let quotas := map (fun s => fmul (f_of_Z (sq_total_units request)) (fdiv s total_speed)) speeds in
  let! units := allocate (sq_total_units request) quotas in
  let details := zip_with member_detail sub units in
  let t_coord := fmul (f_of_Z (Z.of_nat k - 1)) coord_overhead in
  let wall := fadd (fmax_list (map sd_estimated_total_seconds details)) t_coord in
  let '(speedup, marginal) :=
    match wall1, prev with
    | Some w1, Some pw =>
        (if fgt wall f0 then fdiv w1 wall else f1,
         if fgt pw f0 then fdiv (fsub pw wall) pw else f0)
    | _, _ => (f1, f0)
    end in
  Ok ({| gz_group_size := Z.of_nat k; gz_worker_ids := map rp_worker_id sub;
         gz_aggregate_speed := total_speed;
         gz_max_transfer_seconds := fmax_list (map sd_transfer_time_seconds details);
         gz_compute_seconds := fmax_list (map sd_estimated_compute_seconds details);
         gz_coordination_seconds := t_coord; gz_wall_clock_seconds := wall;
         gz_speedup_over_single := speedup; gz_marginal_speedup := marginal;
         gz_meets_deadline := meets wall |}, details).

(** Sizes [k], [k+1], ..., [n] of them. *)
Fixpoint evaluate_sizes (n k : nat) (sorted : list worker_resource_profile) (wall1 prev : option float)
  : res (list (group_sizing_evaluation * list worker_sizing_detail)) :=
  match n with
  | O => Ok []
  | S n =>
      let! e := evaluate_size k (take k sorted) wall1 prev in
      let w := gz_wall_clock_seconds (fst e) in
      let! rest := evaluate_sizes n (S k) sorted (match wall1 with Some _ => wall1 | None => Some w end) (Some w) in
      Ok (e :: rest)
  end.

(** ** Choosing a size *)

Definition first_within (target : float) (evals : list group_sizing_evaluation) : option Z :=
  option_map gz_group_size (List.find (fun ev => fle (gz_wall_clock_seconds ev) target) evals).

(** [min(evaluations, key=wall)]: the first of the smallest. *)
Fixpoint min_wall (best : group_sizing_evaluation) (evals : list group_sizing_evaluation) : group_sizing_evaluation :=
  match evals with
  | [] => best
  | ev :: evals =>
      min_wall (if flt (gz_wall_clock_seconds ev) (gz_wall_clock_seconds best) then ev else best) evals
  end.

(** The efficiency loop over the evaluations after the first. *)
Fixpoint efficiency_loop (prev_wall : float) (chosen : Z) (evals : list group_sizing_evaluation) : Z * sizing_policy :=
  match evals with
  | [] => (chosen, EFFICIENCY_THROUGHPUT)
  | ev :: evals =>
      if fge (gz_wall_clock_seconds ev) prev_wall then (chosen, TRANSFER_OVERHEAD_HALT)
      else if flt (gz_marginal_speedup ev) marginal_thresh then (chosen, DIMINISHING_RETURNS)
      else efficiency_loop (gz_wall_clock_seconds ev) (gz_group_size ev) evals
  end.

(** Size, policy and whether the deadline is achievable; [first] is the
    evaluation of size 1. *)
Definition choose_size (safety_margin : float) (first : group_sizing_evaluation) (rest : list group_sizing_evaluation)
  : Z * sizing_policy * bool :=
  let evals := first :: rest in
  match effective_deadline with
  | Some d =>
      let safety_target := fmul d (fsub f1 safety_margin) in
      if fle (gz_wall_clock_seconds first) safety_target then (1, SINGLE_WORKER_SUFFICIENT, true)
      else
        match first_within safety_target evals with
        | Some k => (k, DEADLINE_DRIVEN_MINIMAL, true)
        | None =>
            match first_within d evals with
            | Some k => (k, DEADLINE_DRIVEN_MINIMAL, true)
            | None => (gz_group_size (min_wall first rest), DEADLINE_DRIVEN_MINIMAL, false)
            end
        end
  | None => (efficiency_loop (gz_wall_clock_seconds first) 1 rest, true)
  end.

(** The last adjustment of the policy's name. *)
Definition final_policy (chosen : Z) (policy : sizing_policy) (first : group_sizing_evaluation)
    (rest : list group_sizing_evaluation) : sizing_policy :=
  match rest with
  | second :: _ =>
      if (chosen =? 1) && fge (gz_wall_clock_seconds second) (gz_wall_clock_seconds first)
         && negb (bool_decide (policy = SINGLE_WORKER_SUFFICIENT \/ policy = NON_PARTITIONABLE))
      then TRANSFER_OVERHEAD_HALT else policy
  | [] => policy
  end.

(** [min(len, max(1, total // min_units))], then the limit, at least 1. *)
Definition max_possible_k (n : Z) : Z :=
  let k := Z.min n (Z.max 1 (sq_total_units request / sq_min_units_per_worker request)) in
  Z.max 1 (match sq_max_workers_limit request with Some l => Z.min k l | None => k end).
End sizer.

Definition feasibility (achievable has_estimate : bool) : sizing_feasibility :=
  if negb achievable then INFEASIBLE_DEADLINE else if negb has_estimate then UNKNOWN_ESTIMATE else FEASIBLE.

Definition diagnostics (cands : list candidate) : odict (list string) :=
  fold_left (fun d c => if str_truthy (cd_worker_id c) && negb (cd_eligible c)
                        then od_set (cd_worker_id c) (cd_rejection_reasons c) d else d) cands [].

Section size_cluster.
Context {B : Type} `{Advisory B}.

Definition probe_env (request : sizing_request) (worker_tags : odict (odict string))
    (group_workers : odict (gset string)) (now : float) : placement_env :=
  {| pe_worker_tags := worker_tags; pe_group_workers := group_workers; pe_now := now;
     pe_predicted_duration := None; pe_asset_sizes := sq_asset_sizes_bytes request |}.

Definition deadline_in_force (request : sizing_request) (now : float) : option float :=
  match sq_deadline_seconds request, sq_deadline_at_utc request with
  | Some s, _ => Some s
  | None, Some d => Some (fmax f0 (fsub d now))
  | None, None => None
  end.

Definition size_cluster (sizer : cluster_sizer) (bridge : option B) (request : sizing_request)
    (profiles : list worker_resource_profile) (worker_tags : odict (odict string))
    (group_workers : odict (gset string)) (now : float) : res sizing_decision :=
  let bandwidth := default (cz_default_network_bandwidth sizer) (sq_network_bandwidth request) in
  let coord := default (cz_default_coordination_overhead sizer) (sq_coordination_overhead request) in
  let thresh := default (cz_marginal_benefit_threshold sizer) (sq_marginal_benefit_threshold request) in
  let deadline := deadline_in_force request now in
  let! probe := build_probe_spec request now in
  let ev := fst (evaluate bridge (probe_env request worker_tags group_workers now) probe profiles) in
  let diag := diagnostics (ev_candidates ev) in
  let eligible := List.filter (fun p => bool_decide (rp_worker_id p ∈ ev_eligible_worker_ids ev)) profiles in
  let has_estimate := match sq_unit_workload_seconds request with Some _ => true | None => false end in
  let confidence := if has_estimate then f1 else flit 5 1 in
  let unit_seconds := default (f_of_Z 10) (sq_unit_workload_seconds request) in
  let decision policy feas count sel spare wall achievable conf details evals :=
    Ok {| zd_request_id := sq_request_id request; zd_policy_applied := policy; zd_feasibility_status := feas;
          zd_recommended_worker_count := count; zd_selected_worker_ids := sel; zd_spare_worker_ids := spare;
          zd_estimated_wall_clock_seconds := wall; zd_deadline_seconds := deadline;
          zd_deadline_achievable := achievable; zd_confidence_score := conf; zd_worker_details := details;
          zd_evaluations_by_group_size := evals; zd_rejection_diagnostics := diag; zd_evaluated_at_utc := now |} in
  match sorted_profiles request bandwidth unit_seconds eligible with
  | [] => decision SINGLE_WORKER_SUFFICIENT UNSCHEDULABLE_CONSTRAINTS 0 [] [] f0 false f1 [] []
  | best :: others =>
      if negb (sq_partitionable request) || (sq_total_units request <=? 1) then
        let transfer_t := worker_transfer_time request bandwidth best in
        let speed := worker_speed request best in
        let compute_t := fdiv (total_work request unit_seconds) speed in
        let total_t := fadd transfer_t compute_t in
        let ok := meets deadline total_t in
        let detail :=
          {| sd_worker_id := rp_worker_id best; sd_relative_speed := speed;
             sd_missing_asset_bytes := worker_missing_bytes request best; sd_transfer_time_seconds := transfer_t;
             sd_allocated_units := sq_total_units request; sd_estimated_compute_seconds := compute_t;
             sd_estimated_total_seconds := total_t |} in
        let group_eval :=
          {| gz_group_size := 1; gz_worker_ids := [rp_worker_id best]; gz_aggregate_speed := speed;
             gz_max_transfer_seconds := transfer_t; gz_compute_seconds := compute_t;
             gz_coordination_seconds := f0; gz_wall_clock_seconds := total_t; gz_speedup_over_single := f1;
             gz_marginal_speedup := f0; gz_meets_deadline := ok |} in
        decision NON_PARTITIONABLE (feasibility ok has_estimate) 1 [rp_worker_id best] (map rp_worker_id others)
          total_t ok confidence [detail] [group_eval]
      else
        let sorted := best :: others in
        let max_k := max_possible_k request (Z.of_nat (length sorted)) in
        let! results := evaluate_sizes request bandwidth coord unit_seconds deadline
                          (Z.to_nat max_k) 1 sorted None None in
        match map fst results with
        | [] => Err IndexError
        | first :: rest =>
            let '(chosen, policy, achievable) := choose_size thresh deadline (cz_safety_margin sizer) first rest in
            match nth_error results (Z.to_nat (chosen - 1)) with
            | None => Err IndexError
            | Some (ce, details) =>
                decision (final_policy chosen policy first rest) (feasibility achievable has_estimate) chosen
                  (gz_worker_ids ce)
                  (map rp_worker_id (List.filter (fun p => negb (bool_decide (rp_worker_id p ∈ gz_worker_ids ce))) sorted))
                  (gz_wall_clock_seconds ce) achievable confidence details (map fst results)
            end
        end
  end.
End size_cluster.
