(* ===== verification/SizingProps.v ===== *)
(** * Cluster sizing: allocation, partition and minimality *)
From S2P Require Export Sizing PlacementProps.

(** ** Allocation *)

Lemma sumZ_insert l i (v : Z) : l !! i = Some v -> sumZ (<[i := v + 1]> l) = sumZ l + 1.
Proof.
  revert i. induction l as [|x l IH]; intros [|i] H; simpl in *; try done.
  - injection H as ->. lia.
  - rewrite IH by done. lia.
Qed.

Lemma bump_lookup idxs l i :
  NoDup idxs ->
  bump l idxs !! i = option_map (fun v => if bool_decide (i ∈ idxs) then v + 1 else v) (l !! i).
Proof.
  unfold bump. revert l. induction idxs as [|j idxs IH]; intros l; simpl.
  { intros _. destruct (l !! i); done. }
  intros [Hj Hnd]%NoDup_cons. rewrite IH by done.
  destruct (l !! j) as [v|] eqn:E.
  - destruct (decide (i = j)) as [->|Hne].
    + rewrite list_lookup_insert_eq by (by eapply lookup_lt_Some). rewrite E. simpl. f_equal.
      rewrite bool_decide_eq_false_2 by done. by rewrite bool_decide_eq_true_2 by left.
    + rewrite list_lookup_insert_ne by done. destruct (l !! i); simpl; [|done]. f_equal.
      erewrite (bool_decide_ext (i ∈ j :: idxs)); [done|]. rewrite elem_of_cons. tauto.
  - destruct (l !! i) eqn:Ei; simpl; [|done]. f_equal.
    erewrite (bool_decide_ext (i ∈ j :: idxs)); [done|]. rewrite elem_of_cons. naive_solver.
Qed.

Lemma bump_sum idxs l :
  NoDup idxs -> (forall i, i ∈ idxs -> (i < length l)%nat) ->
  length (bump l idxs) = length l /\ sumZ (bump l idxs) = sumZ l + Z.of_nat (length idxs).
Proof.
  unfold bump. revert l. induction idxs as [|j idxs IH]; intros l; simpl; [intros _ _; lia|].
  intros [Hj Hnd]%NoDup_cons Hlt. destruct (lookup_lt_is_Some_2 l j) as [v Hv]; [apply Hlt; left|].
  rewrite Hv. destruct (IH (<[j := v + 1]> l) Hnd) as [-> ->].
  - intros i Hi. rewrite length_insert. apply Hlt. by right.
  - rewrite length_insert, (sumZ_insert _ _ _ Hv). lia.
Qed.

Lemma by_fraction_perm (fr : list (float * nat)) : Permutation (by_fraction fr) (map snd fr).
Proof. apply Permutation_map, isort_perm. Qed.

Lemma imap_snd {A} (g : nat -> A -> float) (l : list A) :
  map snd (imap (fun i q => (g i q, i)) l) = seq 0 (length l).
Proof.
  assert (forall k, map snd (imap (fun i q => (g (k + i)%nat q, (k + i)%nat)) l) = seq k (length l)) as Hk; [|apply (Hk 0%nat)].
  induction l as [|x l IH]; intros k; simpl; [done|]. rewrite Nat.add_0_r. f_equal.
  rewrite <- (IH (Datatypes.S k)). f_equal. apply imap_ext. intros i q _. simpl. by rewrite Nat.add_succ_r.
Qed.

(** The allocation gives every worker its floor or one more and adds up to the
    total, unless the floors alone exceed it. *)
Lemma allocate_spec total quotas units :
  allocate total quotas = Ok units ->
  exists floors, mapM f_floor quotas = Some floors /\ length units = length quotas /\
    sumZ units = Z.max total (sumZ floors) /\
    forall i u, units !! i = Some u -> exists f, floors !! i = Some f /\ f <= u <= f + 1.
Proof.
  unfold allocate. destruct (mapM f_floor quotas) as [fl|] eqn:Ef; [|done].
  set (fr := imap _ quotas). destruct (Z.ltb_spec (Z.of_nat (length fr)) (total - sumZ fl)) as [|Hle]; [done|].
  intros [= <-]. exists fl. split; [done|].
  assert (length fr = length quotas) as Hlen by apply length_imap.
  assert (length fl = length quotas) as Hfl by (by apply length_mapM in Ef).
  set (idxs := take (Z.to_nat (total - sumZ fl)) (by_fraction fr)).
  assert (Permutation (by_fraction fr) (seq 0 (length quotas))) as Hp.
  { rewrite by_fraction_perm. unfold fr. by rewrite imap_snd. }
  assert (NoDup (by_fraction fr)) as Hnd by (rewrite Hp; apply NoDup_seq).
  assert (NoDup idxs) as Hnd'.
  { rewrite <- (take_drop (Z.to_nat (total - sumZ fl)) (by_fraction fr)) in Hnd. by apply NoDup_app in Hnd as [? _]. }
  assert (forall i, i ∈ idxs -> (i < length fl)%nat) as Hlt.
  { intros i Hi. assert (i ∈ by_fraction fr) as Hj by (rewrite <- (take_drop (Z.to_nat (total - sumZ fl))); apply elem_of_app; by left).
    rewrite Hp in Hj. apply elem_of_seq in Hj. lia. }
  destruct (bump_sum idxs fl Hnd' Hlt) as [Hl Hs]. split_and!.
  - lia.
  - rewrite Hs. unfold idxs. rewrite length_take, (Permutation_length Hp), length_seq. lia.
  - intros i u Hu. rewrite bump_lookup in Hu by done. destruct (fl !! i) as [f|]; [|done]. simpl in Hu.
    injection Hu as <-. exists f. split; [done|]. case_bool_decide; lia.
Qed.

(** ** The evaluations by group size *)

Section sizes.
Variable request : sizing_request.
Variables bandwidth coord unit_seconds : float.
Variable deadline : option float.

Definition sized (sorted : list worker_resource_profile) (k : nat)
    (e : group_sizing_evaluation * list worker_sizing_detail) : Prop :=
  gz_group_size (fst e) = Z.of_nat k /\ gz_worker_ids (fst e) = map rp_worker_id (take k sorted) /\
  map sd_worker_id (snd e) = map rp_worker_id (take k sorted) /\
  exists floors, sumZ (map sd_allocated_units (snd e)) = Z.max (sq_total_units request) (sumZ floors) /\
    mapM f_floor (map (fun s => fmul (f_of_Z (sq_total_units request))
                                  (fdiv s (fsum (map (worker_speed request) (take k sorted)))))
                      (map (worker_speed request) (take k sorted))) = Some floors /\
    forall i d, snd e !! i = Some d -> exists f, floors !! i = Some f /\ f <= sd_allocated_units d <= f + 1.

Lemma zip_details sub units :
  length units = length sub ->
  map sd_worker_id (zip_with (member_detail request bandwidth unit_seconds) sub units) = map rp_worker_id sub /\
  map sd_allocated_units (zip_with (member_detail request bandwidth unit_seconds) sub units) = units.
Proof.
  revert units. induction sub as [|p sub IH]; intros [|u units]; simpl; try done.
  intros [= Hl]. destruct (IH units Hl) as [-> ->]. done.
Qed.

Lemma evaluate_size_sized sorted k wall1 prev e :
  evaluate_size request bandwidth coord unit_seconds deadline k (take k sorted) wall1 prev = Ok e -> sized sorted k e.
Proof.
  unfold evaluate_size. intros (units & Ha & He)%res_bind_ok.
  destruct (allocate_spec _ _ _ Ha) as (fl & Hfl & Hlen & Hsum & Hb). rewrite !length_map in Hlen.
  destruct (zip_details (take k sorted) units Hlen) as [Hids Hal].
  assert (e = (fst e, zip_with (member_detail request bandwidth unit_seconds) (take k sorted) units) /\
    gz_group_size (fst e) = Z.of_nat k /\ gz_worker_ids (fst e) = map rp_worker_id (take k sorted)) as (-> & Hk & Hw).
  { destruct wall1, prev; injection He as <-; done. }
  split_and!; simpl; [done..|]. exists fl. rewrite Hal. split_and!; [done|done|].
  intros i d Hd. apply (f_equal (option_map sd_allocated_units)) in Hd. simpl in Hd.
  change (option_map sd_allocated_units) with (fmap (M := option) sd_allocated_units) in Hd.
  rewrite <- list_lookup_fmap in Hd. change (fmap (M := list) sd_allocated_units) with (map sd_allocated_units) in Hd.
  rewrite Hal in Hd. by apply Hb.
Qed.

Lemma evaluate_sizes_sized n k sorted wall1 prev l :
  evaluate_sizes request bandwidth coord unit_seconds deadline n k sorted wall1 prev = Ok l ->
  length l = n /\ forall i e, l !! i = Some e -> sized sorted (k + i) e.
Proof.
  revert k wall1 prev l. induction n as [|n IH]; intros k wall1 prev l; simpl; [by intros [= <-]|].
  intros (e & He & (rest & Hr & Hl)%res_bind_ok)%res_bind_ok. injection Hl as <-.
  destruct (IH _ _ _ _ Hr) as [Hlen Hall]. split; [simpl; by rewrite Hlen|].
  intros [|i] e' He'; simpl in He'.
  - injection He' as <-. rewrite Nat.add_0_r. by eapply evaluate_size_sized.
  - rewrite Nat.add_succ_r. by apply (Hall i).
Qed.

Lemma evaluate_sizes_ok_Some n k sorted wall1 prev l i :
  evaluate_sizes request bandwidth coord unit_seconds deadline n k sorted wall1 prev = Ok l -> (i < n)%nat ->
  exists e, l !! i = Some e.
Proof.
  intros Hl Hi. apply evaluate_sizes_sized in Hl as [Hlen _]. apply lookup_lt_is_Some_2. lia.
Qed.
End sizes.

(** ** The chosen size *)

(** Evaluations listed by size from 1. *)
Definition by_size (evals : list group_sizing_evaluation) : Prop :=
  forall i ev, evals !! i = Some ev -> gz_group_size ev = Z.of_nat i + 1.

Lemma first_within_Some target evals k :
  by_size evals -> first_within target evals = Some k ->
  exists i ev, evals !! i = Some ev /\ k = Z.of_nat i + 1 /\ fle (gz_wall_clock_seconds ev) target = true /\
    forall j ev', evals !! j = Some ev' -> (j < i)%nat -> fle (gz_wall_clock_seconds ev') target = false.
Proof.
  unfold first_within. intros Hs.
  assert (forall off, (forall i ev, evals !! i = Some ev -> gz_group_size ev = Z.of_nat (off + i) + 1) ->
    option_map gz_group_size (List.find (fun ev => fle (gz_wall_clock_seconds ev) target) evals) = Some k ->
    exists i ev, evals !! i = Some ev /\ k = Z.of_nat (off + i) + 1 /\ fle (gz_wall_clock_seconds ev) target = true /\
      forall j ev', evals !! j = Some ev' -> (j < i)%nat -> fle (gz_wall_clock_seconds ev') target = false) as Hgen;
    [|exact (Hgen 0%nat Hs)].
  clear Hs. induction evals as [|ev evals IH]; intros off Hs; simpl; [done|].
  destruct (fle (gz_wall_clock_seconds ev) target) eqn:E.
  - intros [= <-]. exists 0%nat, ev. split_and!; [done|apply (Hs 0%nat); done|done|intros; lia].
  - intros Hk. destruct (IH (Datatypes.S off)) as (i & e & Hi & Hki & He & Hbefore); [|done|].
    + intros i e Hi. rewrite (Hs (Datatypes.S i) e Hi). lia.
    + exists (Datatypes.S i), e. split_and!; [done|lia|done|].
      intros [|j] e' Hj Hji; simpl in Hj; [by injection Hj as <-|]. eapply Hbefore; [done|lia].
Qed.

Lemma first_within_None target evals :
  first_within target evals = None ->
  forall i ev, evals !! i = Some ev -> fle (gz_wall_clock_seconds ev) target = false.
Proof.
  unfold first_within. destruct (List.find _ evals) eqn:E; [done|]. intros _ i ev Hi.
  apply list_elem_of_lookup_2, list_elem_of_In in Hi. by apply (List.find_none _ _ E) in Hi.
Qed.

Lemma min_wall_spec best evals :
  (forall ev, ev = best \/ ev ∈ evals -> notnan (gz_wall_clock_seconds ev)) ->
  (min_wall best evals = best \/ min_wall best evals ∈ evals) /\
  flt (gz_wall_clock_seconds best) (gz_wall_clock_seconds (min_wall best evals)) = false /\
  forall ev, ev ∈ evals -> flt (gz_wall_clock_seconds ev) (gz_wall_clock_seconds (min_wall best evals)) = false.
Proof.
  revert best. induction evals as [|e evals IH]; intros best Hnn; simpl.
  { split_and!; [by left|apply flt_irrefl|by inversion 1]. }
  assert (notnan (gz_wall_clock_seconds best)) as Hb by auto.
  assert (notnan (gz_wall_clock_seconds e)) as He by (apply Hnn; right; left).
  destruct (flt (gz_wall_clock_seconds e) (gz_wall_clock_seconds best)) eqn:E.
  - destruct (IH e) as (Hin & Hle & Hall).
    { intros ev [->|Hev]; apply Hnn; right; [left|by right]. }
    set (m := min_wall e evals) in *.
    assert (notnan (gz_wall_clock_seconds m)) as Hm.
    { apply Hnn. destruct Hin as [->|Hin]; right; [left|by right]. }
    split_and!.
    + right. apply elem_of_cons. destruct Hin; auto.
    + destruct (flt (gz_wall_clock_seconds best) (gz_wall_clock_seconds m)) eqn:E'; [|done].
      by rewrite (flt_trans _ _ _ E E') in Hle.
    + intros ev [->|Hev]%elem_of_cons; auto.
  - destruct (IH best) as (Hin & Hle & Hall).
    { intros ev [->|Hev]; [by apply Hnn; left|]. apply Hnn. right. by right. }
    set (m := min_wall best evals) in *.
    assert (notnan (gz_wall_clock_seconds m)) as Hm.
    { apply Hnn. destruct Hin as [->|Hin]; [by left|]. right. by right. }
    split_and!; [destruct Hin; [by left|right; by right]|done|].
    intros ev [->|Hev]%elem_of_cons; [|auto].
    destruct (flt (gz_wall_clock_seconds e) (gz_wall_clock_seconds m)) eqn:E'; [|done].
    apply flt_false_fle in E; [|done..]. apply flt_false_fle in Hle; [|done..].
    assert (fle (gz_wall_clock_seconds m) (gz_wall_clock_seconds e) = true) as Hme by exact (fle_trans _ _ _ Hb Hle E).
    apply flt_false_fle in Hme; [|done..]. congruence.
Qed.

(** The efficiency loop takes the longest prefix of improving sizes. *)
Definition improves (thresh prev_wall : float) (ev : group_sizing_evaluation) : Prop :=
  fge (gz_wall_clock_seconds ev) prev_wall = false /\ flt (gz_marginal_speedup ev) thresh = false.

Lemma efficiency_loop_spec thresh (prev : group_sizing_evaluation) (c : nat) evals :
  (forall i ev, evals !! i = Some ev -> gz_group_size ev = Z.of_nat (c + i) + 1) ->
  exists m : nat, (m <= length evals)%nat /\
    fst (efficiency_loop thresh (gz_wall_clock_seconds prev) (Z.of_nat c) evals) = Z.of_nat (c + m) /\
    (forall i ev ev', (prev :: evals) !! i = Some ev -> evals !! i = Some ev' -> (i < m)%nat ->
       improves thresh (gz_wall_clock_seconds ev) ev') /\
    (forall ev ev', (prev :: evals) !! m = Some ev -> evals !! m = Some ev' ->
       ~ improves thresh (gz_wall_clock_seconds ev) ev').
Proof.
  revert prev c. induction evals as [|e evals IH]; intros prev c Hs; simpl.
  { exists 0%nat. split_and!; [lia|simpl; lia|intros; lia|done]. }
  unfold improves.
  destruct (fge (gz_wall_clock_seconds e) (gz_wall_clock_seconds prev)) eqn:E1.
  { exists 0%nat. split_and!; [lia|simpl; lia|intros; lia|]. intros ev ev' [= <-] [= <-] [? _]. congruence. }
  destruct (flt (gz_marginal_speedup e) thresh) eqn:E2.
  { exists 0%nat. split_and!; [lia|simpl; lia|intros; lia|]. intros ev ev' [= <-] [= <-] [_ ?]. congruence. }
  assert (gz_group_size e = Z.of_nat (Datatypes.S c)) as Hg by (rewrite (Hs 0%nat e eq_refl); lia).
  rewrite Hg. destruct (IH e (Datatypes.S c)) as (m & Hm & Hf & Hb & Ha).
  { intros i ev Hi. rewrite (Hs (Datatypes.S i) ev Hi). lia. }
  exists (Datatypes.S m). split_and!; [lia|rewrite Hf; lia| |].
  - intros [|i] ev ev' Hev Hev' Hi; simpl in *; [by simplify_eq|]. eapply Hb; [done|done|lia].
  - intros ev ev' Hev Hev'. simpl in *. by apply (Ha ev ev').
Qed.

(** ** The whole decision *)

Definition least_within (target : float) (evals : list group_sizing_evaluation) (k : Z) : Prop :=
  exists i ev, evals !! i = Some ev /\ k = Z.of_nat i + 1 /\ fle (gz_wall_clock_seconds ev) target = true /\
    forall j ev', evals !! j = Some ev' -> (j < i)%nat -> fle (gz_wall_clock_seconds ev') target = false.
Definition none_within (target : float) (evals : list group_sizing_evaluation) : Prop :=
  forall i ev, evals !! i = Some ev -> fle (gz_wall_clock_seconds ev) target = false.

(** What the deadline branch promises. *)
Definition deadline_choice (dl target : float) (evals : list group_sizing_evaluation) (k : Z) (ok : bool) : Prop :=
  (ok = true /\ least_within target evals k) \/
  (ok = true /\ none_within target evals /\ least_within dl evals k) \/
  (ok = false /\ none_within target evals /\ none_within dl evals /\
   exists i ev, evals !! i = Some ev /\ k = Z.of_nat i + 1 /\
     ((forall ev', ev' ∈ evals -> notnan (gz_wall_clock_seconds ev')) ->
      forall ev', ev' ∈ evals -> flt (gz_wall_clock_seconds ev') (gz_wall_clock_seconds ev) = false)).

Lemma min_wall_in best evals : min_wall best evals ∈ best :: evals.
Proof.
  revert best. induction evals as [|e evals IH]; intros best; simpl; [left|].
  specialize (IH (if flt (gz_wall_clock_seconds e) (gz_wall_clock_seconds best) then e else best)).
  rewrite !elem_of_cons in *. destruct (flt _ _); tauto.
Qed.

Lemma choose_deadline thresh dl margin first rest k pol ok :
  by_size (first :: rest) -> choose_size thresh (Some dl) margin first rest = (k, pol, ok) ->
  deadline_choice dl (fmul dl (fsub f1 margin)) (first :: rest) k ok.
Proof.
  intros Hs. unfold choose_size. cbv zeta. set (target := fmul dl (fsub f1 margin)).
  destruct (fle (gz_wall_clock_seconds first) target) eqn:E1.
  { intros [= <- _ <-]. left. split; [done|]. exists 0%nat, first. split_and!; [done..|intros; lia]. }
  destruct (first_within target _) eqn:E2.
  { intros [= <- _ <-]. left. split; [done|]. by apply first_within_Some. }
  pose proof (first_within_None _ _ E2) as Hn2.
  destruct (first_within dl _) eqn:E3.
  { intros [= <- _ <-]. right. left. split_and!; [done..|]. by apply first_within_Some. }
  pose proof (first_within_None _ _ E3) as Hn3.
  intros [= <- _ <-]. right. right. split_and!; [done..|].
  destruct (list_elem_of_lookup_1 _ _ (min_wall_in first rest)) as [i Hi].
  exists i, (min_wall first rest). split_and!; [done|by rewrite (Hs _ _ Hi)|].
  intros Hnn. destruct (min_wall_spec first rest) as (_ & Hf & Hr).
  { intros ev [->|Hev]; apply Hnn; [left|by right]. }
  intros ev' [->|Hev]%elem_of_cons; auto.
Qed.

(** What the efficiency branch promises. *)
Definition efficiency_choice (thresh : float) (evals : list group_sizing_evaluation) (k : Z) : Prop :=
  exists m : nat, k = Z.of_nat m + 1 /\ (m < length evals)%nat /\
    (forall i ev ev', evals !! i = Some ev -> evals !! Datatypes.S i = Some ev' -> (i < m)%nat ->
       improves thresh (gz_wall_clock_seconds ev) ev') /\
    (forall ev ev', evals !! m = Some ev -> evals !! Datatypes.S m = Some ev' ->
       ~ improves thresh (gz_wall_clock_seconds ev) ev').

Lemma choose_efficiency thresh margin first rest k pol ok :
  by_size (first :: rest) -> choose_size thresh None margin first rest = (k, pol, ok) ->
  efficiency_choice thresh (first :: rest) k /\ ok = true.
Proof.
  intros Hs. unfold choose_size.
  destruct (efficiency_loop_spec thresh first 1 rest) as (m & Hm & Hf & Hb & Ha).
  { intros i ev Hi. rewrite (Hs (Datatypes.S i) ev Hi). lia. }
  change (Z.of_nat 1) with 1 in Hf.
  destruct (efficiency_loop _ _ _ _) as [k' p] eqn:E. intros [= <- _ <-]. split; [|done].
  simpl in Hf.
  exists m. split_and!; [lia|simpl; lia| |].
  - intros i ev ev' H1 H2. simpl in H2. by eapply Hb.
  - intros ev ev' H1 H2. simpl in H2. by eapply Ha.
Qed.

Lemma choose_in_range thresh dl margin first rest k pol ok :
  by_size (first :: rest) -> choose_size thresh dl margin first rest = (k, pol, ok) ->
  1 <= k <= Z.of_nat (length (first :: rest)).
Proof.
  intros Hs Hc. destruct dl as [dl|].
  - apply choose_deadline in Hc; [|done].
    destruct Hc as [(_ & i & ev & Hi & -> & _)|[(_ & _ & i & ev & Hi & -> & _)|(_ & _ & _ & i & ev & Hi & -> & _)]];
      apply lookup_lt_Some in Hi; lia.
  - apply choose_efficiency in Hc as [(m & -> & Hm & _) _]; [|done]. lia.
Qed.

Section cluster.
Context {B : Type} `{Advisory B}.

Definition hard_list request tags groups now probe profiles : list worker_resource_profile :=
  List.filter (is_eligible (probe_env request tags groups now) probe) profiles.

Lemma eligible_recovered (bridge : option B) env spec profiles :
  NoDup (map rp_worker_id profiles) ->
  List.filter (fun p => bool_decide (rp_worker_id p ∈ ev_eligible_worker_ids (fst (evaluate bridge env spec profiles)))) profiles =
  List.filter (is_eligible env spec) profiles.
Proof.
  intros Hnd. apply List.filter_ext_in. intros p Hp%list_elem_of_In.
  assert (ev_eligible_worker_ids (fst (evaluate bridge env spec profiles)) =
    isort str_lt (map rp_worker_id (List.filter (is_eligible env spec) profiles))) as ->.
  { unfold evaluate. by destruct (rank_candidates _ _ _ _) as [[|] ?]. }
  destruct (is_eligible env spec p) eqn:E.
  - apply bool_decide_eq_true_2. rewrite isort_perm. apply list_elem_of_In, in_map, list_elem_of_In.
    apply eligible_elem. split; [done|by apply is_eligible_iff].
  - apply bool_decide_eq_false_2. rewrite isort_perm. intros (q & Hq & Hin)%list_elem_of_In%in_map_iff.
    apply list_elem_of_In, eligible_elem in Hin as [Hqp Hh].
    rewrite (ids_inj profiles p q Hnd Hp Hqp) in E by done. apply is_eligible_iff in Hh. congruence.
Qed.

(** The parameters [size_cluster] derives from the sizer and the request. *)
Definition bw sizer request := default (cz_default_network_bandwidth sizer) (sq_network_bandwidth request).
Definition coord sizer request := default (cz_default_coordination_overhead sizer) (sq_coordination_overhead request).
Definition thresh sizer request := default (cz_marginal_benefit_threshold sizer) (sq_marginal_benefit_threshold request).
Definition unit_secs request := default (f_of_Z 10) (sq_unit_workload_seconds request).
Definition divisible request := sq_partitionable request && negb (sq_total_units request <=? 1).
Definition max_k request (n : nat) := Z.to_nat (max_possible_k request (Z.of_nat n)).

(** The three ways a decision comes about. *)
Inductive outcome (sizer : cluster_sizer) (request : sizing_request) (now : float)
    (sorted : list worker_resource_profile) (d : sizing_decision) : Prop :=
| no_worker :
    sorted = [] -> zd_recommended_worker_count d = 0 -> zd_selected_worker_ids d = [] ->
    zd_spare_worker_ids d = [] -> zd_worker_details d = [] ->
    zd_feasibility_status d = UNSCHEDULABLE_CONSTRAINTS -> outcome sizer request now sorted d
| one_worker best others dt achievable has :
    sorted = best :: others -> divisible request = false ->
    zd_recommended_worker_count d = 1 -> zd_selected_worker_ids d = [rp_worker_id best] ->
    zd_spare_worker_ids d = map rp_worker_id others -> zd_worker_details d = [dt] ->
    sd_worker_id dt = rp_worker_id best -> sd_allocated_units dt = sq_total_units request ->
    zd_feasibility_status d = feasibility achievable has -> outcome sizer request now sorted d
| sized_group results first rest policy achievable has ce details :
    sorted <> [] -> divisible request = true ->
    evaluate_sizes request (bw sizer request) (coord sizer request) (unit_secs request)
      (deadline_in_force request now) (max_k request (length sorted)) 1 sorted None None = Ok results ->
    map fst results = first :: rest ->
    choose_size (thresh sizer request) (deadline_in_force request now) (cz_safety_margin sizer) first rest =
      (zd_recommended_worker_count d, policy, achievable) ->
    nth_error results (Z.to_nat (zd_recommended_worker_count d - 1)) = Some (ce, details) ->
    zd_selected_worker_ids d = gz_worker_ids ce ->
    zd_spare_worker_ids d =
      map rp_worker_id (List.filter (fun p => negb (bool_decide (rp_worker_id p ∈ gz_worker_ids ce))) sorted) ->
    zd_worker_details d = details -> zd_evaluations_by_group_size d = first :: rest ->
    zd_estimated_wall_clock_seconds d = gz_wall_clock_seconds ce ->
    zd_deadline_achievable d = achievable ->
    zd_feasibility_status d = feasibility achievable has -> outcome sizer request now sorted d.

Lemma size_cluster_outcome sizer (bridge : option B) request profiles tags groups now d :
  NoDup (map rp_worker_id profiles) ->
  size_cluster sizer bridge request profiles tags groups now = Ok d ->
  exists probe, build_probe_spec request now = Ok probe /\
    outcome sizer request now
      (sorted_profiles request (bw sizer request) (unit_secs request)
         (hard_list request tags groups now probe profiles)) d.
Proof.
  intros Hnd. unfold size_cluster. intros (probe & Hp & Hd)%res_bind_ok. exists probe. split; [done|].
  rewrite (eligible_recovered bridge _ _ _ Hnd) in Hd.
  fold (hard_list request tags groups now probe profiles) in Hd.
  fold (bw sizer request) (coord sizer request) (thresh sizer request) (unit_secs request) in Hd.
  set (sorted := sorted_profiles _ _ _ _) in *. clearbody sorted. cbv zeta in Hd.
  destruct sorted as [|best others]; [injection Hd as <-; by apply no_worker|].
  destruct (negb (sq_partitionable request) || (sq_total_units request <=? 1)) eqn:Eo.
  { injection Hd as <-. eapply one_worker; [done| |done..].
    unfold divisible. rewrite <- (negb_involutive (sq_partitionable request)), <- negb_orb, Eo. done. }
  apply res_bind_ok in Hd as (results & Hr & Hd).
  destruct (map fst results) as [|first rest] eqn:Er; [done|].
  destruct (choose_size _ _ _ _ _) as [[chosen policy] achievable] eqn:Ec.
  destruct (nth_error results _) as [[ce details]|] eqn:En; [|done].
  injection Hd as <-. eapply sized_group; simpl; [done| |exact Hr|exact Er|exact Ec|exact En|done..].
  unfold divisible. rewrite <- (negb_involutive (sq_partitionable request)), <- negb_orb, Eo. done.
Qed.

Lemma results_by_size request b c u dl n sorted w pw results :
  evaluate_sizes request b c u dl n 1 sorted w pw = Ok results ->
  by_size (map fst results) /\ length results = n.
Proof.
  intros [Hl Hs]%evaluate_sizes_sized. split; [|done]. intros i ev Hi.
  change (map fst results) with (fst <$> results) in Hi. apply list_lookup_fmap_Some in Hi as (e & -> & He).
  destruct (Hs i e He) as [-> _]. lia.
Qed.

(** The chosen evaluation of a divisible request. *)
Lemma chosen_sized sizer request dl thr n sorted results first rest k policy ok ce details :
  evaluate_sizes request (bw sizer request) (coord sizer request) (unit_secs request) dl n 1 sorted None None = Ok results ->
  map fst results = first :: rest ->
  choose_size thr dl (cz_safety_margin sizer) first rest = (k, policy, ok) ->
  nth_error results (Z.to_nat (k - 1)) = Some (ce, details) ->
  1 <= k <= Z.of_nat n /\ by_size (first :: rest) /\
  (first :: rest) !! Z.to_nat (k - 1) = Some ce /\
  sized request sorted (Z.to_nat k) (ce, details).
Proof.
  intros Hr Hf Hc Hn. destruct (results_by_size _ _ _ _ _ _ _ _ _ _ Hr) as [Hs Hl]. rewrite Hf in Hs.
  pose proof (choose_in_range _ _ _ _ _ _ _ _ Hs Hc) as Hk.
  assert (length (first :: rest) = n) as Hlen by (by rewrite <- Hf, length_map).
  rewrite Hlen in Hk. rewrite nth_error_lookup in Hn. split_and!; [lia|lia|done| |].
  - rewrite <- Hf. change (map fst results) with (fst <$> results). by rewrite list_lookup_fmap, Hn.
  - destruct (evaluate_sizes_sized _ _ _ _ _ _ _ _ _ _ _ Hr) as [_ Ha].
    replace (Z.to_nat k) with (1 + Z.to_nat (k - 1))%nat by lia. by apply Ha.
Qed.

Lemma take_or_rest (l : list worker_resource_profile) k :
  NoDup (map rp_worker_id l) ->
  map rp_worker_id (take k l) ++
  map rp_worker_id (List.filter (fun p => negb (bool_decide (rp_worker_id p ∈ map rp_worker_id (take k l)))) l) =
  map rp_worker_id l.
Proof.
  intros Hnd. rewrite <- (take_drop k l), map_app in Hnd. apply NoDup_app in Hnd as (_ & Hd & _).
  rewrite <- map_app. f_equal.
  cut (List.filter (fun p => negb (bool_decide (rp_worker_id p ∈ map rp_worker_id (take k l)))) (take k l ++ drop k l) = drop k l).
  { rewrite take_drop. intros ->. by rewrite take_drop. }
  rewrite List.filter_app. revert Hd. generalize (take k l) as a. intros a Hd.
  assert (forall b, (forall x, x ∈ a -> x ∈ b) -> List.filter (fun p => negb (bool_decide (rp_worker_id p ∈ map rp_worker_id b))) a = []) as Ha.
  { induction a as [|x a IH]; intros b Hb; simpl; [done|].
    rewrite bool_decide_eq_true_2; [apply IH; [intros y Hy; apply Hd; by right|intros y Hy; apply Hb; by right]|].
    apply (list_elem_of_fmap_2 rp_worker_id), Hb. left. }
  rewrite Ha by done. simpl. clear Ha.
  induction (drop k l) as [|x r IH]; simpl; [done|].
  rewrite bool_decide_eq_false_2; simpl.
  - f_equal. apply IH. intros y Hy Hy'. apply (Hd y Hy). by right.
  - intros Hx. apply (Hd _ Hx). left.
Qed.

(** A sizing decision divides the hard-eligible workers.  Selected and
    spare workers are together exactly the workers that meet every hard
    constraint of the probe, none twice; the count is the number selected; a
    detail is given for each selected worker; the decision is unschedulable
    exactly when no worker is eligible, and otherwise selects at least one; and
    the count respects [max_workers_limit], the minimum of units per worker and
    the indivisibility of the request. *)
Theorem sizing_partition sizer (bridge : option B) request profiles tags groups now d :
  NoDup (map rp_worker_id profiles) ->
  size_cluster sizer bridge request profiles tags groups now = Ok d ->
  exists probe, build_probe_spec request now = Ok probe /\
    NoDup (zd_selected_worker_ids d ++ zd_spare_worker_ids d) /\
    (forall w, w ∈ zd_selected_worker_ids d ++ zd_spare_worker_ids d <->
       exists p, p ∈ profiles /\ rp_worker_id p = w /\
         hard_eligible (probe_env request tags groups now) probe p) /\
    zd_recommended_worker_count d = Z.of_nat (length (zd_selected_worker_ids d)) /\
    map sd_worker_id (zd_worker_details d) = zd_selected_worker_ids d /\
    (zd_feasibility_status d = UNSCHEDULABLE_CONSTRAINTS <-> zd_selected_worker_ids d = []) /\
    (zd_selected_worker_ids d = [] -> zd_spare_worker_ids d = []) /\
    zd_recommended_worker_count d <=
      (if divisible request then max_possible_k request (Z.of_nat (length profiles)) else 1).
Proof.
  intros Hnd Hd. destruct (size_cluster_outcome _ _ _ _ _ _ _ _ Hnd Hd) as (probe & Hp & Ho).
  exists probe. split; [done|].
  set (hard := hard_list request tags groups now probe profiles) in *.
  assert (Permutation (sorted_profiles request (bw sizer request) (unit_secs request) hard) hard) as Hperm by apply isort_perm.
  set (sorted := sorted_profiles _ _ _ hard) in *.
  assert (NoDup (map rp_worker_id sorted)) as Hns by (rewrite Hperm; by apply ids_filter).
  assert (length sorted <= length profiles)%nat as Hle.
  { rewrite (Permutation_length Hperm). apply List.filter_length_le. }
  assert (zd_selected_worker_ids d ++ zd_spare_worker_ids d = map rp_worker_id sorted /\
    zd_recommended_worker_count d = Z.of_nat (length (zd_selected_worker_ids d)) /\
    map sd_worker_id (zd_worker_details d) = zd_selected_worker_ids d /\
    (zd_feasibility_status d = UNSCHEDULABLE_CONSTRAINTS <-> zd_selected_worker_ids d = []) /\
    (zd_selected_worker_ids d = [] -> zd_spare_worker_ids d = []) /\
    zd_recommended_worker_count d <=
      (if divisible request then max_possible_k request (Z.of_nat (length profiles)) else 1))
    as (Hall & Hc & Hdt & Hf & Hsp & Hm).
  { clear Hd. clearbody sorted. assert (1 <= max_possible_k request (Z.of_nat (length profiles))) as H1
      by (unfold max_possible_k; lia).
    destruct Ho as [-> Hc Hse Hsp Hde Hfe|best others dt ok has -> Hdiv Hc Hse Hsp Hde Hid Hu Hfe
      |results first rest policy ok has ce details Hne Hdiv Hr Hf Hch Hn Hse Hsp Hde Hev Hw Hok Hfe].
    - rewrite Hc, Hse, Hsp, Hde, Hfe. split_and!; [done..|by destruct (divisible request); lia].
    - rewrite Hc, Hse, Hsp, Hde, Hfe, Hdiv. simpl. rewrite Hid.
      split_and!; [done|done|done|by destruct ok, has|done|lia].
    - destruct (chosen_sized _ _ _ _ _ _ _ _ _ _ _ _ _ _ Hr Hf Hch Hn) as (Hk & _ & _ & Hg & Hids & Hdi & _).
      rewrite Hse, Hsp, Hde, Hfe, Hdiv. simpl in Hg, Hids, Hdi.
      assert (length sorted <> 0%nat) as Hl by (by destruct sorted).
      assert (Z.of_nat (max_k request (length sorted)) <= max_possible_k request (Z.of_nat (length profiles)) /\
        max_possible_k request (Z.of_nat (length sorted)) <= Z.of_nat (length sorted)) as [Hmk Hms].
      { unfold max_k, max_possible_k. destruct (sq_max_workers_limit request); lia. }
      assert (Z.to_nat (zd_recommended_worker_count d) <= length sorted)%nat as Hkl by (unfold max_k in Hk; lia).
      rewrite Hids, Hdi, take_or_rest by done. rewrite length_map, length_take. split_and!; [done|lia|done| | |lia].
      + split; [by destruct ok, has|]. intros Hx%map_eq_nil. apply (f_equal length) in Hx.
        rewrite length_take in Hx. simpl in Hx. lia.
      + intros Hx%map_eq_nil. apply (f_equal length) in Hx. rewrite length_take in Hx. simpl in Hx. lia. }
  rewrite Hall. split_and!; [done| |done..].
  intros w. rewrite Hperm, list_elem_of_In, in_map_iff. split.
  - intros (p & Hw & Hin%list_elem_of_In). apply eligible_elem in Hin as [? ?]. by exists p.
  - intros (p & Hin & Hw & Hh). exists p. split; [done|]. by apply list_elem_of_In, eligible_elem.
Qed.

End cluster.

(** ** Witnesses *)

Definition sample_request (deadline : option float) : sizing_request :=
  {| sq_request_id := "r"; sq_task_type := "t"; sq_total_units := 10; sq_unit_workload_seconds := Some (f_of_Z 10);
     sq_deadline_seconds := deadline; sq_deadline_at_utc := None; sq_partitionable := true;
     sq_min_units_per_worker := 1; sq_max_workers_limit := None; sq_min_cpu_cores := 1; sq_min_ram_bytes := None;
     sq_requires_gpu := false; sq_min_vram_bytes := 0; sq_required_gpu_vendor := None; sq_required_gpu_model := None;
     sq_min_compute_capability := None; sq_required_driver_version := None;
     sq_required_runtime_compatibility := None; sq_required_tags := []; sq_required_worker_tags := [];
     sq_preferred_worker_tags := []; sq_execution_spec := None; sq_parameters := []; sq_affinity_group_id := None;
     sq_affinity_mode := AF_NONE; sq_affinity_tag_key := None; sq_affinity_hard := false;
     sq_max_cost_per_hour := None; sq_input_asset_hashes := ∅; sq_asset_sizes_bytes := [];
     sq_worker_speed_multipliers := []; sq_network_bandwidth := None; sq_coordination_overhead := None;
     sq_marginal_benefit_threshold := None |}.

Definition sample_sizing (deadline : option float) : res sizing_decision :=
  size_cluster (B := Empty_set) default_sizer None (sample_request deadline) witness_profiles [] [] f1.

(** 100 seconds of work: alone 100 s, two workers 51 s, three 42 s; a deadline
    of 60 s (target 54 s) needs two. *)
Example sample_deadline :
  res_map (fun d => (zd_recommended_worker_count d, zd_policy_applied d, zd_feasibility_status d,
                     map sd_allocated_units (zd_worker_details d)))
    (sample_sizing (Some (f_of_Z 60))) = Ok (2, DEADLINE_DRIVEN_MINIMAL, FEASIBLE, [5; 5]).
Proof. vm_compute. reflexivity. Qed.

Lemma sizing_partition_witness :
  exists d, sample_sizing None = Ok d /\ zd_recommended_worker_count d = 3 /\
    NoDup (zd_selected_worker_ids d ++ zd_spare_worker_ids d).
Proof.
  destruct (sample_sizing None) as [d|e] eqn:E; [|exfalso; vm_compute in E; discriminate].
  destruct (sizing_partition (B := Empty_set) _ _ _ _ _ _ _ _ witness_profiles_distinct E) as (probe & _ & Hnd & _).
  exists d. split_and!; [reflexivity|vm_compute in E; injection E as <-; reflexivity|exact Hnd].
Defined.

