(* ===== verification/Frames.v ===== *)
(** * Frame ranges of a render job
      ([adapters/blender/strategies/frame_scheduler.py], [adapters/blender/frame_coverage.py])

    The scheduler cuts a frame range into contiguous chunks, the coverage
    report says which frames of a job no completed chunk covers.  Frame numbers
    are integers; a range is the pair of its first and its last frame. *)
From S2P Require Export PyFloat.

(** ** [FrameScheduler] *)

Record chunking_config := {
  cc_default_overhead_seconds : float;
  cc_max_overhead_fraction : float;
  cc_target_chunks_per_worker : Z;
  cc_fallback_frame_duration_seconds : float;
  cc_min_frames_per_chunk : Z;
}.
Definition default_chunking : chunking_config :=
  {| cc_default_overhead_seconds := flit 25 1; cc_max_overhead_fraction := flit 1 1;
     cc_target_chunks_per_worker := 3; cc_fallback_frame_duration_seconds := f_of_Z 5;
     cc_min_frames_per_chunk := 5 |}.

Section scheduler.
Context (config : chunking_config).

(** The loop of [plan_adaptive_chunks], from [candidate_m = m] downwards. *)
Fixpoint shrink_chunks (total_frames : Z) (t_frame : float) (m : nat) : res Z :=
  match m with
  | O => Ok 0
  | S m' =>
      let candidate_m := Z.of_nat m in
      if candidate_m <=? 1 then Ok candidate_m
      else
        let chunk_frames := total_frames / candidate_m in
        if chunk_frames <? cc_min_frames_per_chunk config then shrink_chunks total_frames t_frame m'
        else
          let t_overhead := cc_default_overhead_seconds config in
          let t_work := fmul (f_of_Z chunk_frames) t_frame in
          let! ratio := py_truediv t_overhead (fadd t_work t_overhead) in
          if fgt ratio (cc_max_overhead_fraction config) then shrink_chunks total_frames t_frame m'
          else Ok candidate_m
  end.

Definition plan_adaptive_chunks (total_frames worker_count : Z) (estimated_frame_duration_seconds : option float)
  : res Z :=
  if total_frames <=? cc_min_frames_per_chunk config then Ok 1
  else
    let t_frame := match estimated_frame_duration_seconds with
                   | Some t => if fgt t f0 then t else cc_fallback_frame_duration_seconds config
                   | None => cc_fallback_frame_duration_seconds config
                   end in
    let candidate_m := Z.min total_frames (Z.max 1 worker_count * cc_target_chunks_per_worker config) in
    let! m := shrink_chunks total_frames t_frame (Z.to_nat candidate_m) in
    Ok (Z.max 1 m).

(** The ranges [schedule] hands to [_build_chunk], in order. *)
Definition chunk_range (frame_start total_frames num_chunks i : Z) : Z * Z :=
  (frame_start + i * total_frames / num_chunks, frame_start + (i + 1) * total_frames / num_chunks - 1).

Definition chunk_number (total_frames worker_count : Z) (chunk_count : option Z)
    (estimated_frame_duration_seconds : option float) (adaptive : bool) : res Z :=
  match chunk_count with
  | Some n => if n <? 1 then Err (ValueError "chunk_count must be at least 1") else Ok (Z.min n total_frames)
  | None =>
      if adaptive then plan_adaptive_chunks total_frames worker_count estimated_frame_duration_seconds
      else Ok (Z.min worker_count total_frames)
  end.

Definition schedule_ranges (frame_start frame_end worker_count : Z) (chunk_count : option Z)
    (estimated_frame_duration_seconds : option float) (adaptive : bool) : res (list (Z * Z)) :=
  if worker_count <? 1 then Err (ValueError "worker_count must be at least 1")
  else if frame_end <? frame_start then Err (ValueError "frame_end must be >= frame_start")
  else
    let total_frames := frame_end - frame_start + 1 in
    let! num_chunks := chunk_number total_frames worker_count chunk_count estimated_frame_duration_seconds adaptive in
    Ok (map (chunk_range frame_start total_frames num_chunks) (seqZ 0 num_chunks)).
End scheduler.

(** ** [compute_frame_coverage] *)

Record chunk_coverage := {
  ch_workload_id : string;
  ch_frame_start : Z;
  ch_frame_end : Z;
  ch_is_complete : bool;
}.

Record frame_coverage_report := {
  fr_job_frame_start : Z;
  fr_job_frame_end : Z;
  fr_missing_ranges : list (Z * Z);
  fr_overlapping_ranges : list (Z * Z);
  fr_incomplete_chunk_workload_ids : list string;
}.
Definition fr_is_complete (r : frame_coverage_report) : bool :=
  bool_decide (fr_missing_ranges r = []) && bool_decide (fr_incomplete_chunk_workload_ids r = []).

(** The order of Python pairs. *)
Definition range_lt (a b : Z * Z) : bool :=
  (fst a <? fst b) || ((fst a =? fst b) && (snd a <? snd b)).

(** The merging loop; [merged] is kept with its last range first. *)
Fixpoint merge_ranges (ranges rev_merged overlaps : list (Z * Z)) : list (Z * Z) * list (Z * Z) :=
  match ranges with
  | [] => (rev rev_merged, overlaps)
  | (start, end_) :: ranges =>
      match rev_merged with
      | (s, e) :: before =>
          if start <=? e + 1 then
            merge_ranges ranges ((s, Z.max e end_) :: before)
              (if start <=? e then overlaps ++ [(start, Z.min end_ e)] else overlaps)
          else merge_ranges ranges ((start, end_) :: rev_merged) overlaps
      | [] => merge_ranges ranges [(start, end_)] overlaps
      end
  end.

(** The gap loop, with the final gap after it. *)
Fixpoint find_missing (job_end cursor : Z) (merged : list (Z * Z)) : list (Z * Z) :=
  match merged with
  | [] => if cursor <=? job_end then [(cursor, job_end)] else []
  | (start, end_) :: merged =>
      let gap := if cursor <? start then [(cursor, Z.min (start - 1) job_end)] else [] in
      let cursor' := Z.max cursor (end_ + 1) in
      gap ++ (if job_end <? cursor' then [] else find_missing job_end cursor' merged)
  end.

Definition compute_frame_coverage (job_frame_start job_frame_end : Z) (chunks : list chunk_coverage)
  : frame_coverage_report :=
  let complete_ranges :=
    isort range_lt (map (fun c => (ch_frame_start c, ch_frame_end c)) (List.filter ch_is_complete chunks)) in
  let '(merged, overlaps) := merge_ranges complete_ranges [] [] in
  {| fr_job_frame_start := job_frame_start; fr_job_frame_end := job_frame_end;
     fr_missing_ranges :=
       List.filter (fun '(s, e) => s <=? e) (find_missing job_frame_end job_frame_start merged);
     fr_overlapping_ranges := overlaps;
     fr_incomplete_chunk_workload_ids :=
       map ch_workload_id (List.filter (fun c => negb (ch_is_complete c)) chunks) |}.

(** ** Chunks partition their range *)

Definition frames_of (r : Z * Z) : list Z := seqZ (fst r) (snd r - fst r + 1).

Lemma chunk_bounds total n i :
  0 < n -> n <= total -> 0 <= i -> i < n ->
  total / n <= (i + 1) * total / n - i * total / n <= total / n + 1.
Proof.
  intros Hn Ht Hi Hin.
  pose proof (Z.div_mod (i * total) n ltac:(lia)). pose proof (Z.mod_pos_bound (i * total) n ltac:(lia)).
  pose proof (Z.div_mod ((i + 1) * total) n ltac:(lia)). pose proof (Z.mod_pos_bound ((i + 1) * total) n ltac:(lia)).
  pose proof (Z.div_mod total n ltac:(lia)). pose proof (Z.mod_pos_bound total n ltac:(lia)).
  set (q := total / n) in *. set (a := i * total / n) in *. set (b := (i + 1) * total / n) in *.
  assert (n * (b - a) = n * q + total mod n + (i * total) mod n - ((i + 1) * total) mod n) as E by lia.
  nia.
Qed.

Lemma chunks_concat start total n (k : nat) :
  0 < n -> n <= total -> Z.of_nat k <= n ->
  flat_map frames_of (map (chunk_range start total n) (seqZ 0 (Z.of_nat k))) = seqZ start (Z.of_nat k * total / n).
Proof.
  intros Hn Ht. induction k as [|k IH]; intros Hk.
  { change (Z.of_nat 0) with 0. rewrite Z.mul_0_l, Z.div_0_l by lia. done. }
  rewrite Nat2Z.inj_succ, <- Z.add_1_r. rewrite (seqZ_app 0 (Z.of_nat k) 1) by lia.
  rewrite map_app, flat_map_app, IH by lia.
  assert (forall x, seqZ x 1 = [x]) as -> by done. rewrite Z.add_0_l.
  cbn [map flat_map]. rewrite app_nil_r. unfold frames_of, chunk_range. cbn [fst snd].
  pose proof (chunk_bounds total n (Z.of_nat k) Hn Ht ltac:(lia) ltac:(lia)) as Hb.
  assert (0 < total / n) by (apply Z.div_str_pos; lia).
  assert (0 <= Z.of_nat k * total / n) by (apply Z.div_pos; nia).
  set (a := Z.of_nat k * total / n) in *. set (b := (Z.of_nat k + 1) * total / n) in *.
  replace b with (a + (b - a)) by lia. rewrite (seqZ_app start a (b - a)) by lia.
  do 2 f_equal. lia.
Qed.

(** The number of chunks is at least one and at most the number of frames. *)
Lemma shrink_chunks_bounds config total t m n :
  shrink_chunks config total t m = Ok n -> 0 <= n <= Z.of_nat m.
Proof.
  revert n. induction m as [|m IH]; intros n H; cbn [shrink_chunks] in H; [injection H as <-; lia|].
  assert (forall n, shrink_chunks config total t m = Ok n -> 0 <= n <= Z.of_nat (S m)) as IH'
    by (intros n' H'; apply IH in H'; lia).
  destruct (Z.leb_spec (Z.of_nat (S m)) 1); [injection H as <-; lia|].
  destruct (_ <? _); [auto|]. apply res_bind_ok in H as (ratio & _ & H).
  destruct (fgt _ _); [auto|]. injection H as <-. lia.
Qed.

Lemma chunk_number_bounds config total workers count est adaptive n :
  0 < total -> 0 < workers -> chunk_number config total workers count est adaptive = Ok n -> 1 <= n <= total.
Proof.
  intros Ht Hw. unfold chunk_number. destruct count as [c|].
  { destruct (Z.ltb_spec c 1); [done|]. intros [= <-]. lia. }
  destruct adaptive; [|intros [= <-]; lia]. unfold plan_adaptive_chunks.
  destruct (_ <=? _); [intros [= <-]; lia|].
  intros H. apply res_bind_ok in H as (m & Hm & H). injection H as <-.
  apply shrink_chunks_bounds in Hm. lia.
Qed.

(** A schedule covers its frames exactly once.  The chunks of a schedule,
    read in order, list the frames of the requested range in order, without a
    gap or a repetition; none is empty, there are as many as
    [chunk_number] says (the requested number, or the worker count, cut to the
    number of frames) and their lengths differ by at most one. *)
Theorem schedule_partitions_frames config first last workers count est adaptive ranges :
  schedule_ranges config first last workers count est adaptive = Ok ranges ->
  let total := last - first + 1 in
  flat_map frames_of ranges = seqZ first total /\
  chunk_number config total workers count est adaptive = Ok (Z.of_nat (length ranges)) /\
  1 <= Z.of_nat (length ranges) <= total /\
  (forall s e, (s, e) ∈ ranges ->
     first <= s <= e /\ e <= last /\
     total / Z.of_nat (length ranges) <= e - s + 1 <= total / Z.of_nat (length ranges) + 1).
Proof.
  unfold schedule_ranges. destruct (Z.ltb_spec workers 1); [done|]. destruct (Z.ltb_spec last first); [done|].
  intros H'. apply res_bind_ok in H' as (n & Hn & [= <-]). remember (last - first + 1) as total eqn:Et.
  destruct (chunk_number_bounds config total workers count est adaptive n ltac:(lia) ltac:(lia) Hn) as [H1 H2].
  rewrite length_map, length_seqZ, Z2Nat.id by lia. split_and!; [|done..|].
  - pose proof (chunks_concat first total n (Z.to_nat n) ltac:(lia) H2 ltac:(lia)) as E.
    rewrite Z2Nat.id in E by lia. rewrite E. f_equal. rewrite Z.mul_comm. apply Z.div_mul. lia.
  - intros s e Hin. apply list_elem_of_fmap in Hin as (i & [= -> ->] & Hi%elem_of_seqZ).
    pose proof (chunk_bounds total n i ltac:(lia) H2 ltac:(lia) ltac:(lia)) as Hb.
    assert (0 < total / n) by (apply Z.div_str_pos; lia).
    assert (0 <= i * total / n) by (apply Z.div_pos; nia).
    assert ((i + 1) * total / n <= total) by (apply Z.div_le_upper_bound; nia). lia.
Qed.

Lemma schedule_partitions_witness :
  schedule_ranges default_chunking 1 10 3 None None false = Ok [(1, 3); (4, 6); (7, 10)] /\
  flat_map frames_of [(1, 3); (4, 6); (7, 10)] = seqZ 1 (10 - 1 + 1).
Proof.
  assert (schedule_ranges default_chunking 1 10 3 None None false = Ok [(1, 3); (4, 6); (7, 10)]) as H
    by (vm_compute; reflexivity).
  split; [exact H|]. exact (proj1 (schedule_partitions_frames _ _ _ _ _ _ _ _ H)).
Defined.

(** ** What the coverage report says *)

Definition inside (f : Z) (r : Z * Z) : Prop := fst r <= f <= snd r.
Definition covered (f : Z) (l : list (Z * Z)) : Prop := exists r, r ∈ l /\ inside f r.

Lemma covered_nil f : ~ covered f [].
Proof. intros (r & Hr & _). by apply not_elem_of_nil in Hr. Qed.
Lemma covered_cons f r l : covered f (r :: l) <-> inside f r \/ covered f l.
Proof.
  unfold covered. setoid_rewrite elem_of_cons. naive_solver.
Qed.
Lemma covered_app f l l' : covered f (l ++ l') <-> covered f l \/ covered f l'.
Proof. unfold covered. setoid_rewrite elem_of_app. naive_solver. Qed.
Lemma covered_perm f l l' : Permutation l l' -> covered f l <-> covered f l'.
Proof. intros Hp. unfold covered. by setoid_rewrite Hp. Qed.

Definition starts_sorted : list (Z * Z) -> Prop := StronglySorted (fun a b => fst a <= fst b).

Lemma complete_ranges_sorted l : starts_sorted (isort range_lt l).
Proof.
  assert (StronglySorted (not_gt range_lt) (isort range_lt l)) as Hs
    by (apply isort_strongly_sorted; unfold not_gt, range_lt; intros [] []; simpl; intros; lia).
  unfold starts_sorted. induction Hs as [|a r _ IH Hf]; constructor; [done|].
  eapply List.Forall_impl; [|exact Hf]. unfold not_gt, range_lt. intros []; destruct a; simpl; lia.
Qed.

(** Merging keeps the covered frames, and the order of the starts. *)
Lemma merge_ranges_covered ranges rev_merged overlaps f :
  (forall r, r ∈ rev_merged -> forall x, x ∈ ranges -> fst r <= fst x) -> starts_sorted ranges ->
  covered f (fst (merge_ranges ranges rev_merged overlaps)) <-> covered f (rev_merged ++ ranges).
Proof.
  revert rev_merged overlaps. induction ranges as [|[start end_] ranges IH]; intros rm ov Hrm Hs; cbn [merge_ranges].
  { simpl. rewrite app_nil_r. apply covered_perm. symmetry. apply Permutation_rev. }
  apply StronglySorted_inv in Hs as [Hs Hf]. rewrite List.Forall_forall in Hf.
  assert (forall x, x ∈ ranges -> start <= fst x) as Hst by (intros x Hx; apply (Hf x); by apply list_elem_of_In).
  destruct rm as [|[s e] before].
  { rewrite IH; [done| |done]. intros r ->%list_elem_of_singleton. done. }
  assert (s <= start) by (apply (Hrm (s, e) ltac:(left) (start, end_)); left).
  destruct (Z.leb_spec start (e + 1)).
  - rewrite IH; [|intros r [->|Hr]%elem_of_cons x Hx; [apply (Hrm (s, e)); [left|by right]|apply (Hrm r); by right]|done].
    rewrite !covered_app, !covered_cons. unfold inside. simpl.
    assert (s <= f <= Z.max e end_ <-> s <= f <= e \/ start <= f <= end_) by lia. tauto.
  - rewrite IH; [|intros r [->|Hr]%elem_of_cons x Hx; [exact (Hst x Hx)|apply (Hrm r Hr); by right]|done].
    rewrite !covered_app, !covered_cons. tauto.
Qed.

Lemma merge_ranges_sorted ranges rm ov :
  (forall r, r ∈ rm -> forall x, x ∈ ranges -> fst r <= fst x) -> starts_sorted ranges ->
  StronglySorted (fun a b => fst b <= fst a) rm -> starts_sorted (fst (merge_ranges ranges rm ov)).
Proof.
  revert rm ov. induction ranges as [|[start end_] ranges IH]; intros rm ov Hrm Hs Hrs; cbn [merge_ranges].
  { unfold starts_sorted. simpl. clear -Hrs. induction Hrs as [|a l _ IH Hf]; [constructor|]. simpl.
    apply StronglySorted_app_2; [|done|repeat constructor].
    intros x y Hx ->%list_elem_of_singleton. rewrite <- Permutation_rev in Hx.
    rewrite List.Forall_forall in Hf. apply Hf. by apply list_elem_of_In. }
  apply StronglySorted_inv in Hs as [Hs Hf]. rewrite List.Forall_forall in Hf.
  assert (forall x, x ∈ ranges -> start <= fst x) as Hst by (intros x Hx; apply (Hf x); by apply list_elem_of_In).
  destruct rm as [|[s e] before].
  { apply IH; [|done|repeat constructor]. intros r ->%list_elem_of_singleton. done. }
  destruct (Z.leb_spec start (e + 1)).
  - apply IH; [|done|].
    + intros r [->|Hr]%elem_of_cons x Hx; [apply (Hrm (s, e)); [left|by right]|apply (Hrm r); by right].
    + apply StronglySorted_inv in Hrs as [Hrs Hf']. by constructor.
  - apply IH; [|done|].
    + intros r [->|Hr]%elem_of_cons x Hx; [exact (Hst x Hx)|apply (Hrm r Hr); by right].
    + constructor; [done|]. apply List.Forall_forall. intros r Hr%list_elem_of_In. apply (Hrm r Hr (start, end_)). left.
Qed.

(** The gap loop, from a cursor. *)
Lemma find_missing_iff job_end cursor merged f :
  starts_sorted merged -> f <= job_end ->
  covered f (find_missing job_end cursor merged) <-> cursor <= f /\ ~ covered f merged.
Proof.
  intros Hs Hf. revert cursor. induction Hs as [|[start end_] merged Hs IH Hall]; intros cursor; cbn [find_missing].
  { destruct (Z.leb_spec cursor job_end); rewrite ?covered_cons; unfold inside; simpl;
      pose proof (covered_nil f); intuition lia. }
  rewrite List.Forall_forall in Hall.
  assert (covered f merged -> start <= f) as Hlater.
  { intros (r & Hr%list_elem_of_In & Hin). specialize (Hall r Hr). simpl in Hall. unfold inside in Hin. lia. }
  rewrite covered_app, covered_cons. unfold inside at 1. cbn [fst snd].
  assert (covered f (if cursor <? start then [(cursor, Z.min (start - 1) job_end)] else []) <->
          cursor <= f < start) as ->.
  { destruct (Z.ltb_spec cursor start); rewrite ?covered_cons; unfold inside; simpl;
      pose proof (covered_nil f); intuition lia. }
  assert (covered f (if job_end <? Z.max cursor (end_ + 1) then []
                     else find_missing job_end (Z.max cursor (end_ + 1)) merged) <->
          Z.max cursor (end_ + 1) <= f /\ ~ covered f merged) as ->.
  { destruct (Z.ltb_spec job_end (Z.max cursor (end_ + 1))); [|apply IH].
    pose proof (covered_nil f). intuition lia. }
  destruct (Z_lt_ge_dec f start); intuition lia.
Qed.

Lemma filter_nonempty_covered l f :
  covered f (List.filter (fun '(s, e) => s <=? e) l) <-> covered f l.
Proof.
  induction l as [|[s e] l IH]; simpl; [done|].
  destruct (Z.leb_spec s e); rewrite !covered_cons, ?IH; [done|]. unfold inside. simpl. intuition lia.
Qed.

(** A list of non-empty ranges is empty exactly when it covers nothing. *)
Lemma no_ranges l lo hi :
  (forall r, r ∈ l -> lo <= fst r <= snd r /\ snd r <= hi) ->
  l = [] <-> forall f, lo <= f <= hi -> ~ covered f l.
Proof.
  intros Hl. split; [intros -> f _; apply covered_nil|]. intros Hn. destruct l as [|[s e] l]; [done|].
  destruct (Hl (s, e) ltac:(left)) as [H1 H2]. simpl in *. destruct (Hn s ltac:(lia)).
  apply covered_cons. left. unfold inside. simpl. lia.
Qed.

Lemma find_missing_range job_end cursor merged r lo :
  lo <= cursor -> r ∈ find_missing job_end cursor merged -> lo <= fst r /\ snd r <= job_end.
Proof.
  revert cursor. induction merged as [|[start end_] merged IH]; intros cursor Hlo; cbn [find_missing].
  { destruct (_ <=? _); [intros ->%list_elem_of_singleton; simpl; lia|by intros ?%not_elem_of_nil]. }
  rewrite elem_of_app. intros [Hr|Hr].
  - destruct (_ <? _); [|by apply not_elem_of_nil in Hr]. apply list_elem_of_singleton in Hr as ->. simpl. lia.
  - destruct (_ <? _); [by apply not_elem_of_nil in Hr|]. apply (IH (Z.max cursor (end_ + 1))); [lia|done].
Qed.

Definition completed_frame (chunks : list chunk_coverage) (f : Z) : Prop :=
  exists c, c ∈ chunks /\ ch_is_complete c = true /\ ch_frame_start c <= f <= ch_frame_end c.

#[export] Instance completed_frame_dec chunks f : Decision (completed_frame chunks f).
Proof.
  refine (cast_if (decide (Exists (fun c => ch_is_complete c = true /\ ch_frame_start c <= f <= ch_frame_end c) chunks)));
    unfold completed_frame; by rewrite <- Exists_exists.
Defined.

Lemma completed_frame_covered chunks f :
  covered f (isort range_lt (map (fun c => (ch_frame_start c, ch_frame_end c)) (List.filter ch_is_complete chunks)))
  <-> completed_frame chunks f.
Proof.
  rewrite (covered_perm f _ _ (isort_perm range_lt _)). unfold covered, completed_frame, inside.
  setoid_rewrite list_elem_of_fmap. setoid_rewrite list_elem_of_In. setoid_rewrite filter_In. split.
  - intros (r & (c & -> & Hc & Ht) & Hin). by exists c.
  - intros (c & Hc & Ht & Hin). eauto 10.
Qed.

(** The coverage report is exact.  A frame of the job lies in a missing
    range exactly when no completed chunk contains it, however the chunks
    overlap, nest or are ordered; every missing range is a non-empty part of
    the job's range; and the report is complete exactly when every chunk is completed and every frame of
    the job belongs to one of them. *)
Lemma coverage_exact first last chunks :
  let report := compute_frame_coverage first last chunks in
  (forall f, first <= f <= last -> covered f (fr_missing_ranges report) <-> ~ completed_frame chunks f) /\
  (forall r, r ∈ fr_missing_ranges report -> first <= fst r <= snd r /\ snd r <= last) /\
  (fr_is_complete report = true <->
     (forall c, c ∈ chunks -> ch_is_complete c = true) /\
     forall f, first <= f <= last -> completed_frame chunks f).
Proof.
  unfold compute_frame_coverage.
  pose proof (fun f => completed_frame_covered chunks f) as Hcf.
  set (complete := isort _ _) in *.
  assert (starts_sorted complete) as Hs by apply complete_ranges_sorted.
  assert (starts_sorted (fst (merge_ranges complete [] []))) as Hms
    by (apply merge_ranges_sorted; [by intros r Hr%not_elem_of_nil|done|constructor]).
  assert (forall f, covered f (fst (merge_ranges complete [] [])) <-> completed_frame chunks f) as Hm.
  { intros f. rewrite <- Hcf. apply merge_ranges_covered; [by intros r Hr%not_elem_of_nil|done]. }
  destruct (merge_ranges complete [] []) as [merged overlaps]. cbn [fst fr_missing_ranges] in *.
  set (missing := List.filter _ _).
  assert (forall f, first <= f <= last -> covered f missing <-> ~ completed_frame chunks f) as H1.
  { intros f Hf. unfold missing. rewrite filter_nonempty_covered, find_missing_iff, Hm by (done || lia). intuition lia. }
  assert (forall r, r ∈ missing -> first <= fst r <= snd r /\ snd r <= last) as H2.
  { intros [s e] Hr. apply list_elem_of_In, filter_In in Hr as [Hr Hse]. apply list_elem_of_In in Hr.
    apply (find_missing_range _ _ _ _ first) in Hr; [|lia]. simpl in *. lia. }
  split_and!; [exact H1|exact H2|].
  unfold fr_is_complete. cbn [fr_missing_ranges fr_incomplete_chunk_workload_ids].
  rewrite andb_true_iff, !bool_decide_eq_true, (no_ranges missing first last H2).
  assert (map ch_workload_id (List.filter (fun c => negb (ch_is_complete c)) chunks) = [] <->
          forall c, c ∈ chunks -> ch_is_complete c = true) as ->.
  { clear. induction chunks as [|c chunks IH]; simpl.
    { split; [|done]. by intros _ c Hc%not_elem_of_nil. }
    destruct (ch_is_complete c) eqn:E; simpl.
    - rewrite IH. setoid_rewrite elem_of_cons. naive_solver.
    - split; [done|]. intros H. specialize (H c ltac:(left)). congruence. }
  split.
  - intros [Hn Hc]. split; [done|]. intros f Hf. destruct (decide (completed_frame chunks f)) as [|Hd]; [done|].
    by destruct (Hn f Hf); apply H1.
  - intros [Hc Hn]. split; [|done]. intros f Hf Hcov. by apply (H1 f Hf) in Hcov; apply Hcov, Hn.
Qed.

