(* ===== verification/IpAddr.v ===== *)
(** * IP addresses as the standard library reads them

    What [ipaddress.ip_address] and [ipaddress.ip_network] do with a string:
    dotted-quad IPv4 without leading zeros, IPv6 with one [::], an embedded
    IPv4 tail and a scope id.  The special ranges are those of CPython 3.10 to
    3.12 with the IANA tables of their current patch releases. *)
From S2P Require Export PyStr.

Inductive ip_addr := IPv4 (ip : Z) | IPv6 (ip : Z) (scope_id : option string).
#[export] Instance ip_addr_eq_dec : EqDecision ip_addr.
Proof. solve_decision. Defined.

Definition same_version (a b : ip_addr) : bool :=
  match a, b with IPv4 _, IPv4 _ | IPv6 _ _, IPv6 _ _ => true | _, _ => false end.

(** ** Reading an address *)

Definition hex_val (c : ascii) : Z :=
  if is_digit c then digit_val c
  else if in_range 97 102 c then Z.of_N (N_of_ascii c) - 87 else Z.of_N (N_of_ascii c) - 55.

Fixpoint digits_val (base : Z) (val : ascii -> Z) (acc : Z) (s : string) : Z :=
  match s with EmptyString => acc | String c s => digits_val base val (acc * base + val c) s end.

Definition parse_octet (s : string) : option Z :=
  if String.eqb s "" then None
  else if negb (str_forallb is_digit s) then None
  else if Z.ltb 3 (str_len s) then None
  else if negb (String.eqb s "0") && starts_with "0" s then None
  else let v := digits_val 10 digit_val 0 s in if Z.ltb 255 v then None else Some v.

Definition ipv4_of_string (s : string) : option Z :=
  match mapM parse_octet (split_on "."%char s) with
  | Some [a; b; c; d] => Some (((a * 256 + b) * 256 + c) * 256 + d)
  | _ => None
  end.

(** A part of an IPv6 literal: text, or a hextet of the embedded IPv4 tail. *)
Inductive hextet := HText (s : string) | HNum (n : Z).
Definition hextet_empty (h : hextet) : bool := match h with HText s => String.eqb s "" | HNum _ => false end.
Definition parse_hextet (h : hextet) : option Z :=
  match h with
  | HNum n => Some n
  | HText s =>
      if String.eqb s "" then None
      else if negb (str_forallb is_hex s) then None
      else if Z.ltb 4 (str_len s) then None else Some (digits_val 16 hex_val 0 s)
  end.

(** The parts after the IPv4 tail has been replaced by two hextets. *)
Definition ipv6_parts (s : string) : option (list hextet) :=
  let parts := split_on ":"%char s in
  let lst := List.last parts ""%string in
  if (length parts <? 3)%nat then None
  else if negb (no_char "."%char lst) then
    match ipv4_of_string lst with
    | Some ip => Some (map HText (removelast parts) ++ [HNum (Z.land (Z.shiftr ip 16) 65535); HNum (Z.land ip 65535)])
    | None => None
    end
  else Some (map HText parts).

(** Indices of the empty parts strictly inside. *)
Definition inner_empty (parts : list hextet) : list nat :=
  List.filter (fun i => match parts !! i with Some h => hextet_empty h | None => false end)
    (seq 1 (length parts - 2)).

(** [parts_hi], [parts_lo] and [parts_skipped]. *)
Definition ipv6_layout (parts : list hextet) : option (nat * nat * nat) :=
  let n := length parts in
  let empty i := match parts !! i with Some h => hextet_empty h | None => false end in
  if (9 <? n)%nat then None
  else
    match inner_empty parts with
    | [] => if negb (n =? 8)%nat || empty 0%nat || empty (n - 1)%nat then None else Some (n, 0%nat, 0%nat)
    | [k] =>
        let lo := (n - k - 1)%nat in
        if empty 0%nat && negb (k - 1 =? 0)%nat then None
        else if empty (n - 1)%nat && negb (lo - 1 =? 0)%nat then None
        else
          let hi := if empty 0%nat then (k - 1)%nat else k in
          let lo := if empty (n - 1)%nat then (lo - 1)%nat else lo in
          if (8 <? hi + lo + 1)%nat then None else Some (hi, lo, (8 - (hi + lo))%nat)
    | _ => None
    end.

Definition join_hextets (acc : Z) (l : list Z) : Z := fold_left (fun a h => Z.lor (Z.shiftl a 16) h) l acc.

Definition ipv6_of_string (s : string) : option Z :=
  match ipv6_parts s with
  | None => None
  | Some parts =>
      match ipv6_layout parts with
      | None => None
      | Some (hi, lo, skipped) =>
          match mapM parse_hextet (take hi parts), mapM parse_hextet (drop (length parts - lo) parts) with
          | Some h, Some l => Some (join_hextets (Z.shiftl (join_hextets 0 h) (16 * Z.of_nat skipped)) l)
          | _, _ => None
          end
      end
  end.

(** [str.partition("%")] and the checks of [_split_scope_id]. *)
Definition split_scope_id (s : string) : option (string * option string) :=
  match split_once "%"%char s with
  | None => Some (s, None)
  | Some (addr, scope) => if String.eqb scope "" || negb (no_char "%"%char scope) then None else Some (addr, Some scope)
  end.

(** [ipaddress.ip_address(s)]; [None] where it raises [ValueError]. *)
Definition ip_address (s : string) : option ip_addr :=
  if negb (no_char "/"%char s) then None
  else
    match ipv4_of_string s with
    | Some ip => Some (IPv4 ip)
    | None =>
        match split_scope_id s with
        | None => None
        | Some (addr, scope) => option_map (fun ip => IPv6 ip scope) (ipv6_of_string addr)
        end
    end.

(** ** Networks and special ranges *)

Definition netmask (width prefix : Z) : Z := Z.shiftl (Z.ones prefix) (width - prefix).

(** [ip_network(f"{addr}/{prefix}", strict=False).network_address]: the address
    itself, scope id included, when its host bits are zero. *)
Definition network_address (width prefix : Z) (a : ip_addr) : ip_addr :=
  match a with
  | IPv4 ip => IPv4 (Z.land ip (netmask width prefix))
  | IPv6 ip scope =>
      let n := Z.land ip (netmask width prefix) in IPv6 n (if n =? ip then scope else None)
  end.

Definition in_net (width : Z) (ip : Z) (net : Z * Z) : bool :=
  Z.land ip (netmask width (snd net)) =? fst net.

Definition quad (a b c d : Z) : Z := ((a * 256 + b) * 256 + c) * 256 + d.

Definition private_networks : list (Z * Z) :=
  [(quad 0 0 0 0, 8); (quad 10 0 0 0, 8); (quad 127 0 0 0, 8); (quad 169 254 0 0, 16); (quad 172 16 0 0, 12);
   (quad 192 0 0 0, 24); (quad 192 0 0 170, 31); (quad 192 0 2 0, 24); (quad 192 168 0 0, 16);
   (quad 198 18 0 0, 15); (quad 198 51 100 0, 24); (quad 203 0 113 0, 24); (quad 240 0 0 0, 4);
   (quad 255 255 255 255, 32)].
Definition private_exceptions : list (Z * Z) := [(quad 192 0 0 9, 32); (quad 192 0 0 10, 32)].

Definition ipv4_is_private (ip : Z) : bool :=
  existsb (in_net 32 ip) private_networks && forallb (fun n => negb (in_net 32 ip n)) private_exceptions.
Definition is_loopback (a : ip_addr) : bool :=
  match a with IPv4 ip => in_net 32 ip (quad 127 0 0 0, 8) | IPv6 ip _ => ip =? 1 end.
(** [fe80::/10] and [fc00::/7]. *)
Definition ipv6_is_link_local (ip : Z) : bool := in_net 128 ip (Z.shiftl 65152 112, 10).
Definition ipv6_is_ula (ip : Z) : bool := in_net 128 ip (Z.shiftl 64512 112, 7).

Example ip_examples :
  ip_address "192.168.1.20" = Some (IPv4 3232235796) /\ ip_address "192.168.01.20" = None /\
  ip_address "256.1.1.1" = None /\ ip_address "::1" = Some (IPv6 1 None) /\
  ip_address "fe80::1%eth0" = Some (IPv6 (Z.shiftl 65152 112 + 1) (Some "eth0"%string)) /\
  ip_address "::ffff:10.0.0.1" = Some (IPv6 (65535 * 2 ^ 32 + 167772161) None) /\
  ip_address "1:2:3:4:5:6:7:8" = ip_address "1:2:3:4:5:6:0.7.0.8" /\
  ip_address "1::2::3" = None /\ ip_address "1:2:3" = None /\ ip_address ":1::" = None /\
  ip_address "::" = Some (IPv6 0 None) /\ ip_address "localhost" = None /\ ip_address "" = None.
Proof. vm_compute. split_and!; reflexivity. Qed.

Example range_examples :
  ipv4_is_private (quad 10 1 2 3) = true /\ ipv4_is_private (quad 192 0 0 9) = false /\
  ipv4_is_private (quad 8 8 8 8) = false /\ ipv6_is_link_local (Z.shiftl 65152 112 + 5) = true /\
  ipv6_is_ula (Z.shiftl 64768 112) = true.
Proof. vm_compute. split_and!; reflexivity. Qed.
