(* ===== verification/Prioritizer.v ===== *)
(** * Candidate prioritizer ([distributed/prioritizer.py])

    Locality classification, the latency tracker and the ranking of the peers
    that can serve an asset.  [lru_cache] is left out: it returns what the
    cached function returns. *)
From S2P Require Export IpAddr PySort Models.
#[local] Open Scope string_scope.

Definition normalize_ip (ip_or_host : string) : string :=
  if String.eqb ip_or_host "" then "127.0.0.1"
  else
    let cleaned := str_lower (strip ip_or_host) in
    if String.eqb cleaned "localhost" || String.eqb cleaned "127.0.0.1" then "127.0.0.1"
    else if String.eqb cleaned "ip6-localhost" || String.eqb cleaned "ip6-loopback" || String.eqb cleaned "::1"
    then "::1"
    else
      match cleaned with
      | String "["%char inner =>
          let n := String.length inner in
          if String.eqb (substring (n - 1) 1 inner) "]" && (0 <? n)%nat then substring 0 (n - 1) inner else cleaned
      | _ => cleaned
      end.

#[local] Close Scope string_scope.

(** Both addresses private: RFC 1918 and the other private IPv4 ranges, or
    unique-local and link-local IPv6. *)
Definition both_lan (a b : ip_addr) : bool :=
  match a, b with
  | IPv4 x, IPv4 y => ipv4_is_private x && ipv4_is_private y
  | IPv6 x _, IPv6 y _ => (ipv6_is_ula x || ipv6_is_link_local x) && (ipv6_is_ula y || ipv6_is_link_local y)
  | _, _ => false
  end.

Definition same_subnet (prefix4 prefix6 : Z) (a b : ip_addr) : bool :=
  match a, b with
  | IPv4 _, IPv4 _ => bool_decide (network_address 32 prefix4 a = network_address 32 prefix4 b)
  | IPv6 _ _, IPv6 _ _ => bool_decide (network_address 128 prefix6 a = network_address 128 prefix6 b)
  | _, _ => false
  end.

(** [ip_network] raises on a prefix out of range. *)
Definition prefix_ok (prefix4 prefix6 : Z) (a : ip_addr) : bool :=
  match a with IPv4 _ => (0 <=? prefix4) && (prefix4 <=? 32) | IPv6 _ _ => (0 <=? prefix6) && (prefix6 <=? 128) end.

Definition classify_locality (requester_ip candidate_ip : string) (prefix4 prefix6 : Z) : res locality_tier :=
  match ip_address (normalize_ip requester_ip), ip_address (normalize_ip candidate_ip) with
  | Some a, Some b =>
      if negb (same_version a b) then Ok WAN
      else if bool_decide (a = b) then Ok LOOPBACK
      else if is_loopback a && is_loopback b then Ok LOOPBACK
      else if negb (prefix_ok prefix4 prefix6 a) then Err (ValueError "prefix")
      else if same_subnet prefix4 prefix6 a b then Ok SUBNET
      else if both_lan a b then Ok LAN else Ok WAN
  | _, _ => Ok WAN
  end.

Definition measure_ping_rtt (client_timestamp_utc now : float) : float :=
  f_round (fmax (flit 1 2) (fmul (fsub now client_timestamp_utc) (f_of_Z 1000))) 3.

(** ** [LatencyTracker] *)

Record latency_tracker := { lt_alpha : float; lt_rtt_map : odict float }.

Definition update_rtt (worker_id : string) (sample : float) (alpha : option float) (t : latency_tracker)
  : latency_tracker * float :=
  let smoothing := default (lt_alpha t) alpha in
  let clamped := fmax (flit 1 2) sample in
  let current := od_get_default worker_id f0 (lt_rtt_map t) in
  let smoothed := f_round (if fle current f0 then clamped
                           else fadd (fmul smoothing clamped) (fmul (fsub f1 smoothing) current)) 3 in
  ({| lt_alpha := lt_alpha t; lt_rtt_map := od_set worker_id smoothed (lt_rtt_map t) |}, smoothed).

Definition get_rtt (worker_id : string) (dflt : float) (t : latency_tracker) : float :=
  od_get_default worker_id dflt (lt_rtt_map t).
Definition remove_rtt (worker_id : string) (t : latency_tracker) : latency_tracker :=
  {| lt_alpha := lt_alpha t; lt_rtt_map := od_del worker_id (lt_rtt_map t) |}.
Definition clear_rtt (t : latency_tracker) : latency_tracker := {| lt_alpha := lt_alpha t; lt_rtt_map := [] |}.

(** ** [CandidatePrioritizer] *)

Record candidate_source := {
  cs_worker_id : string;
  cs_endpoint_url : string;
  cs_ip_address : string;
  cs_port : Z;
  cs_locality_tier : locality_tier;
  cs_estimated_rtt_ms : float;
  cs_load_factor : float;
  cs_penalty_score : float;
  cs_priority_score : float;
  cs_can_serve : bool;
}.

Definition TIER_BASE_SCORES (t : locality_tier) : float :=
  match t with LOOPBACK => f_of_Z 10000 | SUBNET => f_of_Z 5000 | LAN => f_of_Z 2000 | WAN => f_of_Z 500 end.

Record prioritizer := {
  pr_latency_tracker : latency_tracker;
  pr_weight_rtt : float;
  pr_weight_load : float;
  pr_weight_error : float;
  pr_error_counts : odict Z;
}.

Definition with_errors (errors : odict Z) (p : prioritizer) : prioritizer :=
  {| pr_latency_tracker := pr_latency_tracker p; pr_weight_rtt := pr_weight_rtt p;
     pr_weight_load := pr_weight_load p; pr_weight_error := pr_weight_error p; pr_error_counts := errors |}.
Definition record_error (worker_id : string) (p : prioritizer) : prioritizer :=
  with_errors (od_set worker_id (od_get_default worker_id 0 (pr_error_counts p) + 1) (pr_error_counts p)) p.
Definition clear_errors (worker_id : string) (p : prioritizer) : prioritizer :=
  with_errors (od_del worker_id (pr_error_counts p)) p.
Definition get_error_count (worker_id : string) (p : prioritizer) : Z :=
  od_get_default worker_id 0 (pr_error_counts p).

Definition load_factor_of (w : worker_info) : float :=
  f_round (fdivZ (wi_active_transfers w) (Z.max (cap_max_concurrent_streams (wi_capabilities w)) 1)) 3.

Definition candidate_rtt (p : prioritizer) (w : worker_info) : float :=
  get_rtt (wi_worker_id w) (if fgt (wi_estimated_rtt_ms w) f0 then wi_estimated_rtt_ms w else f_of_Z 5)
    (pr_latency_tracker p).

Definition candidate_score (p : prioritizer) (tier : locality_tier) (w : worker_info) : float :=
  fsub (fsub (fsub (fsub (TIER_BASE_SCORES tier) (fmul (candidate_rtt p w) (pr_weight_rtt p)))
                   (fmul (load_factor_of w) (pr_weight_load p)))
             (fmul (f_of_Z (get_error_count (wi_worker_id w) p)) (pr_weight_error p)))
       (fmul (wi_penalty_score w) (f_of_Z 100)).

(** The error counts are read from the prioritizer, which is also what
    [rank_candidates] snapshots.  The model validation of [CandidateSource]
    refuses negative and NaN measures; the worker's URL, address and port were
    validated when its [WorkerInfo] was built. *)
Definition evaluate_candidate (p : prioritizer) (requester_ip : string) (w : worker_info)
  : res (float * candidate_source) :=
  let! tier := classify_locality requester_ip (wi_ip_address w) 24 64 in
  let rtt := candidate_rtt p w in
  let load := load_factor_of w in
  let score := candidate_score p tier w in
  if fge rtt f0 && fge load f0 && fge (wi_penalty_score w) f0 then
    Ok (score,
        {| cs_worker_id := wi_worker_id w; cs_endpoint_url := wi_endpoint_url w; cs_ip_address := wi_ip_address w;
           cs_port := wi_port w; cs_locality_tier := tier; cs_estimated_rtt_ms := rtt; cs_load_factor := load;
           cs_penalty_score := wi_penalty_score w; cs_priority_score := f_round score 3;
           cs_can_serve := cap_can_serve_cas (wi_capabilities w) |})
  else Err (ValueError "CandidateSource").

Definition skipped (exclude : option string) (include_degraded : bool) (w : worker_info) : bool :=
  (match exclude with Some e => str_truthy e && String.eqb (wi_worker_id w) e | None => false end)
  || bool_decide (wi_status w = WS_OFFLINE)
  || (negb include_degraded && (bool_decide (wi_status w = WS_DEGRADED) || bool_decide (wi_status w = WS_UNHEALTHY))).

Fixpoint evaluate_all (p : prioritizer) (requester_ip : string) (exclude : option string) (include_degraded : bool)
    (candidates : list worker_info) : res (list (float * candidate_source)) :=
  match candidates with
  | [] => Ok []
  | w :: candidates =>
      if skipped exclude include_degraded w then evaluate_all p requester_ip exclude include_degraded candidates
      else
        let! e := evaluate_candidate p requester_ip w in
        let! rest := evaluate_all p requester_ip exclude include_degraded candidates in
        Ok (e :: rest)
  end.

(** [sort(key=score, reverse=True)] keeps the order of equal scores. *)
Definition by_score : float * candidate_source -> float * candidate_source -> bool := desc_lt fst.

Definition rank_sources (p : prioritizer) (requester_ip : string) (candidates : list worker_info)
    (exclude : option string) (include_degraded : bool) (max_candidates : option Z) : res (list candidate_source) :=
  let! scored := evaluate_all p requester_ip exclude include_degraded candidates in
  let ordered := map snd (isort by_score scored) in
  Ok (match max_candidates with
      | Some n => if 0 <? n then take (Z.to_nat n) ordered else ordered
      | None => ordered
      end).

(** ** Locality *)

Lemma same_version_sym a b : same_version a b = same_version b a.
Proof. by destruct a, b. Qed.
Lemma both_lan_sym a b : both_lan a b = both_lan b a.
Proof. destruct a, b; simpl; try done; apply andb_comm. Qed.
Lemma same_subnet_sym p4 p6 a b : same_subnet p4 p6 a b = same_subnet p4 p6 b a.
Proof. destruct a, b; simpl; try done; apply bool_decide_ext; naive_solver. Qed.
Lemma prefix_ok_version p4 p6 a b : same_version a b = true -> prefix_ok p4 p6 a = prefix_ok p4 p6 b.
Proof. by destruct a, b. Qed.

(** The locality of two addresses does not depend on who asks, and its
    tiers mean what they say.  Unreadable addresses and addresses of different
    families are WAN; LOOPBACK is exactly equal addresses or two loopback
    addresses; SUBNET needs equal network addresses; LAN needs different
    networks and two private addresses; no other answer is given, and with the
    default prefixes there is always one. *)
Theorem classify_locality_correct requester candidate p4 p6 :
  classify_locality requester candidate p4 p6 = classify_locality candidate requester p4 p6 /\
  match ip_address (normalize_ip requester), ip_address (normalize_ip candidate) with
  | Some a, Some b =>
      let r := classify_locality requester candidate p4 p6 in
      (same_version a b = false -> r = Ok WAN) /\
      (r = Ok LOOPBACK <-> a = b \/ (same_version a b = true /\ is_loopback a = true /\ is_loopback b = true)) /\
      (r = Ok SUBNET <-> r <> Ok LOOPBACK /\ prefix_ok p4 p6 a = true /\ same_subnet p4 p6 a b = true) /\
      (r = Ok LAN <-> r <> Ok LOOPBACK /\ prefix_ok p4 p6 a = true /\ same_subnet p4 p6 a b = false /\
                      both_lan a b = true)
  | _, _ => classify_locality requester candidate p4 p6 = Ok WAN
  end /\
  is_ok (classify_locality requester candidate 24 64) = true.
Proof.
  unfold classify_locality.
  destruct (ip_address (normalize_ip requester)) as [a|], (ip_address (normalize_ip candidate)) as [b|];
    [|by split_and!..].
  rewrite (same_version_sym b a), (both_lan_sym b a), (same_subnet_sym p4 p6 b a).
  rewrite (bool_decide_ext (b = a) (a = b)) by naive_solver. rewrite (andb_comm (is_loopback b)).
  destruct (same_version a b) eqn:Ev; simpl.
  - rewrite <- (prefix_ok_version p4 p6 a b Ev). case_bool_decide as Hab; simpl.
    + subst. split_and!; [done|done|naive_solver|naive_solver|naive_solver|done].
    + destruct (is_loopback a) eqn:E1, (is_loopback b) eqn:E2; simpl;
        destruct (prefix_ok p4 p6 a) eqn:E3; simpl; destruct (same_subnet p4 p6 a b) eqn:E4; simpl;
        destruct (both_lan a b) eqn:E5; simpl;
        (split_and!; [done|done|naive_solver|naive_solver|naive_solver|]);
        destruct a; simpl; repeat case_match; done.
  - assert (a <> b) by (intros ->; by destruct b). assert (same_subnet p4 p6 a b = false) as -> by (by destruct a, b).
    assert (both_lan a b = false) as -> by (by destruct a, b).
    split_and!; [done|done|naive_solver|naive_solver|naive_solver|done].
Qed.

(** ** Ranking *)

Lemma evaluate_all_spec p requester exclude incl candidates scored :
  evaluate_all p requester exclude incl candidates = Ok scored ->
  Forall2 (fun w e => evaluate_candidate p requester w = Ok e)
    (List.filter (fun w => negb (skipped exclude incl w)) candidates) scored.
Proof.
  revert scored. induction candidates as [|w l IH]; simpl; intros scored; [intros [= <-]; constructor|].
  destruct (skipped exclude incl w); simpl; [apply IH|].
  intros (e & He & (rest & Hr & Hs)%res_bind_ok)%res_bind_ok. injection Hs as <-. constructor; auto.
Qed.

(** Ranking peers.  A successful ranking scores exactly the peers that are
    neither excluded, offline nor (on request) degraded, orders them by falling
    score with equal scores in their given order, and returns the first
    [max_candidates] of them; an excluded or offline peer is never offered. *)
Theorem rank_sources_correct p requester candidates exclude incl limit out :
  rank_sources p requester candidates exclude incl limit = Ok out ->
  exists scored full,
    Forall2 (fun w e => evaluate_candidate p requester w = Ok e)
      (List.filter (fun w => negb (skipped exclude incl w)) candidates) scored /\
    Permutation full scored /\
    ((forall e, e ∈ scored -> notnan (fst e)) ->
       StronglySorted (fun a b => fle (fst b) (fst a) = true) full) /\
    (forall s, notnan s -> List.filter (fun e => feq (fst e) s) full = List.filter (fun e => feq (fst e) s) scored) /\
    out = (match limit with Some n => if 0 <? n then take (Z.to_nat n) (map snd full) else map snd full
           | None => map snd full end) /\
    forall c, c ∈ out -> exists w, w ∈ candidates /\ cs_worker_id c = wi_worker_id w /\
      wi_status w <> WS_OFFLINE /\ (exclude <> Some "" %string -> exclude <> Some (cs_worker_id c)).
Proof.
  unfold rank_sources. intros (scored & Hs & Ho)%res_bind_ok. injection Ho as Hout.
  apply evaluate_all_spec in Hs. exists scored, (isort by_score scored).
  split_and!; [done|apply isort_perm|apply (isort_desc_sorted fst)| |by rewrite <- Hout|].
  - apply isort_desc_stable.
  - intros c Hc. assert (c ∈ map snd (isort by_score scored)) as Hin.
    { rewrite <- Hout in Hc. destruct limit as [n|]; [destruct (0 <? n)|]; [|done..].
      rewrite <- (take_drop (Z.to_nat n)). apply elem_of_app. by left. }
    apply list_elem_of_In, in_map_iff in Hin as (e & <- & He%list_elem_of_In%isort_elem).
    apply list_elem_of_lookup_1 in He as [i Hi].
    destruct (Forall2_lookup_r _ _ _ _ _ Hs Hi) as (w & Hw & He).
    apply list_elem_of_lookup_2, list_elem_of_In, filter_In in Hw as [Hw Hsk]. apply list_elem_of_In in Hw.
    unfold evaluate_candidate in He. apply res_bind_ok in He as (tier & _ & He).
    destruct (_ && _) in He; [|done]. injection He as <-. exists w. simpl.
    unfold skipped in Hsk. rewrite negb_true_iff, !orb_false_iff in Hsk. destruct Hsk as [[Hx Hoff] _].
    apply bool_decide_eq_false in Hoff. split_and!; [done|done|done|].
    intros Hne Heq. rewrite Heq in Hx, Hne. unfold str_truthy in Hx. simpl in Hx.
    rewrite String.eqb_refl, andb_true_r in Hx. apply negb_false_iff, String.eqb_eq in Hx. simpl in Hne. congruence.
Qed.

(** ** Witness *)

Definition sample_prioritizer : prioritizer :=
  {| pr_latency_tracker := {| lt_alpha := flit 3 1; lt_rtt_map := [] |}; pr_weight_rtt := f1;
     pr_weight_load := f_of_Z 500; pr_weight_error := f_of_Z 1000; pr_error_counts := [("w2"%string, 3)] |}.

Lemma rank_sources_witness :
  exists out (full : list (float * candidate_source)), rank_sources sample_prioritizer "10.0.0.1" [plain_worker "w1" f1 ∅; plain_worker "w2" f1 ∅] None true None = Ok out /\
    out = map snd full /\ map cs_worker_id out = ["w1"; "w2"]%string.
Proof.
  destruct (rank_sources sample_prioritizer "10.0.0.1" [plain_worker "w1" f1 ∅; plain_worker "w2" f1 ∅] None true None)
    as [out|e] eqn:E; [|exfalso; vm_compute in E; discriminate].
  destruct (rank_sources_correct _ _ _ _ _ _ _ E) as (scored & full & _ & _ & _ & _ & Ho & _).
  exists out, full. split_and!; [reflexivity|exact Ho|vm_compute in E; injection E as <-; reflexivity].
Defined.
