(* ===== verification/SingleFlight.v ===== *)
(** * Coalescing concurrent calls ([distributed/singleflight.py])

    Callers of [run_shared] are coroutines that interleave at their awaits: the
    lock, the future of another caller, the operation.  The state holds the
    flight table, the futures and the point each caller has reached; an event
    is one uninterrupted run of one caller from an await to the next.  The lock
    is held over stretches without an await, so a locked section is one step.
    An operation may end with any outcome at any time, and a caller may be
    cancelled wherever it waits. *)
From S2P Require Export Prelude.

Section single_flight.
Context {V : Type}.

Inductive outcome := Result (v : V) | Raised (msg : string) | Cancelled.
Inductive future := Pending | Resolved (o : outcome).
Definition fut_done (f : future) : bool := match f with Pending => false | Resolved _ => true end.

(** Where a caller is.  [Returned] keeps the future whose outcome was handed
    out, which the code does not. *)
Inductive phase :=
| Calling (key : string)                               (* before the lock of [run_shared] *)
| Waiting (key : string) (fut : nat)                   (* at [await asyncio.shield(fut)] *)
| Executing (key : string) (fut : nat)                 (* at [await operation()] *)
| Cleaning (key : string) (fut : nat) (o : outcome)    (* in the [finally], before the lock *)
| Returned (o : outcome) (is_shared : bool) (fut : option nat).

Record flights := {
  sf_flights : gmap string nat;
  sf_futures : list future;
  sf_callers : list phase;
}.
Definition no_flights : flights := {| sf_flights := ∅; sf_futures := []; sf_callers := [] |}.

Definition move (i : nat) (p : phase) (s : flights) : flights :=
  {| sf_flights := sf_flights s; sf_futures := sf_futures s; sf_callers := <[i := p]> (sf_callers s) |}.
Definition set_table (m : gmap string nat) (s : flights) : flights :=
  {| sf_flights := m; sf_futures := sf_futures s; sf_callers := sf_callers s |}.
Definition set_futures (l : list future) (s : flights) : flights :=
  {| sf_flights := sf_flights s; sf_futures := l; sf_callers := sf_callers s |}.

Definition is_done (s : flights) (f : nat) : bool :=
  match sf_futures s !! f with Some fut => fut_done fut | None => false end.

(** The locked section of [run_shared]: join the flight of the key or start one. *)
Definition join_or_start (i : nat) (key : string) (s : flights) : flights :=
  match sf_flights s !! key with
  | Some f =>
      if is_done s f then
        let n := length (sf_futures s) in
        move i (Executing key n) (set_table (<[key := n]> (sf_flights s)) (set_futures (sf_futures s ++ [Pending]) s))
      else move i (Waiting key f) s
  | None =>
      let n := length (sf_futures s) in
      move i (Executing key n) (set_table (<[key := n]> (sf_flights s)) (set_futures (sf_futures s ++ [Pending]) s))
  end.

(** [fut.set_result], [fut.set_exception] or [fut.cancel], unless it is done. *)
Definition resolve (f : nat) (o : outcome) (s : flights) : flights :=
  if is_done s f then s else set_futures (<[f := Resolved o]> (sf_futures s)) s.

(** [_execute] after the operation, up to the lock of the [finally]. *)
Definition operation_ends (i : nat) (key : string) (f : nat) (o : outcome) (s : flights) : flights :=
  move i (Cleaning key f o) (resolve f o s).

(** The locked section of the [finally], then the return or the raise. *)
Definition clean_up (i : nat) (key : string) (f : nat) (o : outcome) (s : flights) : flights :=
  move i (Returned o false (Some f))
    (if bool_decide (sf_flights s !! key = Some f) then set_table (delete key (sf_flights s)) s else s).

Inductive event :=
| Arrive (key : string)
| TakeLock (i : nat)
| OperationEnds (i : nat) (o : outcome)
| Wake (i : nat)
| CleanUp (i : nat)
| Cancel (i : nat).

(** One event; [None] where it is not enabled.  A cancelled follower leaves the
    shielded future alone; a caller cancelled while it waits for the lock of
    the [finally] leaves its entry in the table. *)
Definition sf_step (s : flights) (e : event) : option flights :=
  match e with
  | Arrive key =>
      Some {| sf_flights := sf_flights s; sf_futures := sf_futures s; sf_callers := sf_callers s ++ [Calling key] |}
  | TakeLock i =>
      match sf_callers s !! i with Some (Calling key) => Some (join_or_start i key s) | _ => None end
  | OperationEnds i o =>
      match sf_callers s !! i with Some (Executing key f) => Some (operation_ends i key f o s) | _ => None end
  | Wake i =>
      match sf_callers s !! i with
      | Some (Waiting key f) =>
          match sf_futures s !! f with
          | Some (Resolved o) => Some (move i (Returned o true (Some f)) s)
          | _ => None
          end
      | _ => None
      end
  | CleanUp i =>
      match sf_callers s !! i with Some (Cleaning key f o) => Some (clean_up i key f o s) | _ => None end
  | Cancel i =>
      match sf_callers s !! i with
      | Some (Calling _) | Some (Waiting _ _) | Some (Cleaning _ _ _) => Some (move i (Returned Cancelled false None) s)
      | Some (Executing key f) => Some (operation_ends i key f Cancelled s)
      | _ => None
      end
  end.

Fixpoint sf_run (s : flights) (l : list event) : option flights :=
  match l with [] => Some s | e :: l => match sf_step s e with Some s' => sf_run s' l | None => None end end.

(** ** Invariant *)

Definition caller_ok (s : flights) (i : nat) (p : phase) : Prop :=
  match p with
  | Calling _ => True
  | Waiting k f => (f < length (sf_futures s))%nat /\ (sf_futures s !! f = Some Pending -> sf_flights s !! k = Some f)
  | Executing k f => sf_futures s !! f = Some Pending /\ sf_flights s !! k = Some f
  | Cleaning _ f o => sf_futures s !! f = Some (Resolved o)
  | Returned o shared (Some f) => sf_futures s !! f = Some (Resolved o)
  | Returned o shared None => o = Cancelled
  end.

Record sf_inv (s : flights) : Prop := {
  inv_callers : forall i p, sf_callers s !! i = Some p -> caller_ok s i p;
  inv_owner : forall i j k k' f,
    sf_callers s !! i = Some (Executing k f) -> sf_callers s !! j = Some (Executing k' f) -> i = j;
  inv_table : forall k f, sf_flights s !! k = Some f ->
    (f < length (sf_futures s))%nat /\
    (sf_futures s !! f = Some Pending -> exists i, sf_callers s !! i = Some (Executing k f));
  inv_pending : forall f, sf_futures s !! f = Some Pending ->
    exists i k, sf_callers s !! i = Some (Executing k f);
}.

Lemma lookup_move s i p j q :
  sf_callers (move i p s) !! j = Some q ->
  (j = i /\ q = p /\ is_Some (sf_callers s !! i)) \/ (j <> i /\ sf_callers s !! j = Some q).
Proof.
  simpl. destruct (decide (j = i)) as [->|Hne].
  - destruct (sf_callers s !! i) eqn:E.
    + rewrite list_lookup_insert_eq by (by eapply lookup_lt_Some). intros [= <-]. left. eauto.
    + rewrite list_insert_ge by (by apply lookup_ge_None). congruence.
  - rewrite list_lookup_insert_ne by done. auto.
Qed.

Lemma lookup_move_ne s i p j q :
  sf_callers s !! j = Some q -> j <> i -> sf_callers (move i p s) !! j = Some q.
Proof. intros. simpl. by rewrite list_lookup_insert_ne. Qed.

Lemma lookup_move_eq s i p q : sf_callers s !! i = Some q -> sf_callers (move i p s) !! i = Some p.
Proof. intros H. simpl. apply list_lookup_insert_eq. by eapply lookup_lt_Some. Qed.

(** A caller moves to a phase that owns no running operation, from one that
    owned none. *)
Lemma inv_move s i q p :
  sf_inv s -> sf_callers s !! i = Some q -> (forall k f, q <> Executing k f) -> (forall k f, p <> Executing k f) ->
  caller_ok s i p -> sf_inv (move i p s).
Proof.
  intros [Hc Ho Ht Hp] Hq Hnq Hnp Hok. split.
  - intros j r Hr. apply lookup_move in Hr as [(-> & -> & _)|[_ Hr]]; [done|]. exact (Hc j r Hr).
  - intros a b k k' f Ha Hb. apply lookup_move in Ha as [(_ & Ha & _)|[_ Ha]]; [by destruct (Hnp k f)|].
    apply lookup_move in Hb as [(_ & Hb & _)|[_ Hb]]; [by destruct (Hnp k' f)|]. eauto.
  - intros k f Hf. destruct (Ht k f Hf) as [Hl He]. split; [done|]. intros Hpe.
    destruct (He Hpe) as [j Hj]. exists j. apply lookup_move_ne; [done|]. intros ->. rewrite Hq in Hj. injection Hj as ->. by destruct (Hnq k f).
  - intros f Hf. destruct (Hp f Hf) as (j & k & Hj). exists j, k. apply lookup_move_ne; [done|].
    intros ->. rewrite Hq in Hj. injection Hj as ->. by destruct (Hnq k f).
Qed.

(** Starting a flight: allowed when the key has no unfinished one. *)
Lemma inv_start s i key :
  sf_inv s -> sf_callers s !! i = Some (Calling key) ->
  (forall f, sf_flights s !! key = Some f -> sf_futures s !! f <> Some Pending) ->
  let n := length (sf_futures s) in
  sf_inv (move i (Executing key n)
    (set_table (<[key := n]> (sf_flights s)) (set_futures (sf_futures s ++ [Pending]) s))).
Proof.
  intros [Hc Ho Ht Hp] Hi Hfree n.
  assert (forall f x, sf_futures s !! f = Some x -> (sf_futures s ++ [Pending]) !! f = Some x) as Hold.
  { intros f x Hx. rewrite lookup_app_l; [done|]. by eapply lookup_lt_Some. }
  split.
  - intros j r Hr. apply lookup_move in Hr as [(-> & -> & _)|[Hj Hr]]; simpl in *.
    + split; [by rewrite lookup_app_r, Nat.sub_diag by (unfold n; lia)|by rewrite lookup_insert_eq].
    + specialize (Hc j r Hr). destruct r as [k|k f|k f|k f o|o sh [f|]]; simpl in *; auto.
      * destruct Hc as [H1 H2]. split; [rewrite length_app; lia|]. rewrite lookup_app_l by done.
        intros Hpe. rewrite lookup_insert_ne; [auto|]. intros <-. apply (Hfree f); auto.
      * destruct Hc as [H1 H2]. split; [by apply Hold|]. rewrite lookup_insert_ne; [done|].
        intros <-. by apply (Hfree f).
  - intros a b k k' f Ha Hb.
    apply lookup_move in Ha as [(-> & Ha & _)|[_ Ha]], Hb as [(-> & Hb & _)|[_ Hb]]; simpl in *; [done| | |eauto].
    + injection Ha as <- ->. destruct (Hc _ _ Hb) as [H1 _]. apply lookup_lt_Some in H1. unfold n in H1. lia.
    + injection Hb as <- ->. destruct (Hc _ _ Ha) as [H1 _]. apply lookup_lt_Some in H1. unfold n in H1. lia.
  - intros k f. simpl. rewrite length_app. simpl. destruct (decide (k = key)) as [->|Hne].
    + rewrite lookup_insert_eq. intros [= <-]. split; [unfold n; lia|]. intros _. exists i. by apply (lookup_move_eq s _ _ _ Hi).
    + rewrite lookup_insert_ne by done. intros Hf. destruct (Ht k f Hf) as [Hl He]. split; [lia|].
      rewrite lookup_app_l by done. intros Hpe. destruct (He Hpe) as [j Hj]. exists j.
      apply (lookup_move_ne s); [done|]. intros ->. congruence.
  - intros f. simpl. intros Hf. apply lookup_app_Some in Hf as [Hf|[Hge Hf]].
    + destruct (Hp f Hf) as (j & k & Hj). exists j, k. apply (lookup_move_ne s); [done|]. intros ->. congruence.
    + exists i, key. replace f with n; [by apply (lookup_move_eq s _ _ _ Hi)|].
      apply lookup_lt_Some in Hf. unfold n. simpl in Hf. lia.
Qed.

(** The operation of a flight ends: its future is resolved with its outcome. *)
Lemma inv_operation_ends s i key f o :
  sf_inv s -> sf_callers s !! i = Some (Executing key f) -> sf_inv (operation_ends i key f o s).
Proof.
  intros [Hc Ho Ht Hp] Hi. destruct (Hc _ _ Hi) as [Hpe Hfl].
  unfold operation_ends, resolve, is_done. rewrite Hpe. simpl.
  assert (f < length (sf_futures s))%nat as Hlt by (by eapply lookup_lt_Some).
  assert (forall g x, g <> f -> sf_futures s !! g = Some x -> <[f:=Resolved o]> (sf_futures s) !! g = Some x) as Hold
    by (intros; by rewrite list_lookup_insert_ne).
  split.
  - intros j r Hr. apply lookup_move in Hr as [(-> & -> & _)|[Hj Hr]]; simpl in *.
    + by rewrite list_lookup_insert_eq.
    + pose proof (Hc j r Hr) as Hr'. destruct r as [k|k g|k g|k g o'|o' sh [g|]]; simpl in *; auto.
      * destruct Hr' as [H1 H2]. split; [by rewrite length_insert|].
        destruct (decide (g = f)) as [->|Hne]; [by rewrite list_lookup_insert_eq|]. by rewrite list_lookup_insert_ne.
      * destruct Hr' as [H1 H2]. split; [|done]. apply Hold; [|done]. intros ->. by apply Hj, (Ho j i k key f).
      * apply Hold; [|done]. intros ->. congruence.
      * apply Hold; [|done]. intros ->. congruence.
  - intros a b k k' g Ha Hb. apply lookup_move in Ha as [(_ & Ha & _)|[_ Ha]]; [done|].
    apply lookup_move in Hb as [(_ & Hb & _)|[_ Hb]]; [done|]. simpl in *. eauto.
  - intros k g. simpl. rewrite length_insert. intros Hg. destruct (Ht k g Hg) as [Hl He]. split; [done|].
    destruct (decide (g = f)) as [->|Hne]; [by rewrite list_lookup_insert_eq|].
    rewrite list_lookup_insert_ne by done. intros Hpg. destruct (He Hpg) as [j Hj]. exists j.
    apply (lookup_move_ne s); [done|]. intros ->. congruence.
  - intros g. simpl. destruct (decide (g = f)) as [->|Hne]; [by rewrite list_lookup_insert_eq|].
    rewrite list_lookup_insert_ne by done. intros Hg. destruct (Hp g Hg) as (j & k & Hj). exists j, k.
    apply (lookup_move_ne s); [done|]. intros ->. congruence.
Qed.

Lemma inv_delete s key f : sf_inv s -> sf_flights s !! key = Some f -> sf_futures s !! f <> Some Pending ->
  sf_inv (set_table (delete key (sf_flights s)) s).
Proof.
  intros [Hc Ho Ht Hp] Hf Hd. split; simpl; [|done| |done].
  - intros j r Hr. specialize (Hc j r Hr). destruct r as [k|k g|k g|k g o'|o' sh [g|]]; simpl in *; auto.
    + destruct Hc as [H1 H2]. split; [done|]. intros Hpe. rewrite lookup_delete_ne; [auto|].
      intros <-. specialize (H2 Hpe). congruence.
    + destruct Hc as [H1 H2]. split; [done|]. rewrite lookup_delete_ne; [done|]. intros <-. congruence.
  - intros k g Hg. apply lookup_delete_Some in Hg as [_ Hg]. eauto.
Qed.

Lemma inv_step s e s' : sf_inv s -> sf_step s e = Some s' -> sf_inv s'.
Proof.
  intros Hi. pose proof Hi as [Hc Ho Ht Hp]. destruct e as [key|i|i o|i|i|i]; simpl.
  - intros [= <-]. split; simpl; [| |intros k f Hf; destruct (Ht k f Hf) as [Hl He]; split; [done|]; intros Hpe;
      destruct (He Hpe) as [j Hj]; exists j; by apply lookup_app_l_Some
      |intros f Hf; destruct (Hp f Hf) as (j & k & Hj); exists j, k; by apply lookup_app_l_Some].
    + intros j p Hj. apply lookup_app_Some in Hj as [Hj|[_ Hj]]; [exact (Hc j p Hj)|].
      by apply list_lookup_singleton_Some in Hj as [_ <-].
    + intros a b k k' f Ha Hb. apply lookup_app_Some in Ha as [Ha|[_ Ha]];
        [|by apply list_lookup_singleton_Some in Ha as [_ ?]].
      apply lookup_app_Some in Hb as [Hb|[_ Hb]]; [eauto|by apply list_lookup_singleton_Some in Hb as [_ ?]].
  - destruct (sf_callers s !! i) as [[key|?|?|?|?]|] eqn:E; try done. intros [= <-]. unfold join_or_start, is_done.
    destruct (sf_flights s !! key) as [f|] eqn:Ef; [|apply inv_start; [done|done|congruence]].
    destruct (Ht key f Ef) as [Hl _]. destruct (lookup_lt_is_Some_2 _ _ Hl) as [fu Hfu]. rewrite Hfu.
    destruct fu; simpl; [by eapply inv_move|]. apply inv_start; [done|done|]. congruence.
  - destruct (sf_callers s !! i) as [[?|?|key f|?|?]|] eqn:E; try done. intros [= <-]. by apply inv_operation_ends.
  - destruct (sf_callers s !! i) as [[?|key f|?|?|?]|] eqn:E; try done.
    destruct (sf_futures s !! f) as [[|o]|] eqn:Ef; try done. intros [= <-]. by eapply inv_move.
  - destruct (sf_callers s !! i) as [[?|?|?|key f o|?]|] eqn:E; try done. intros [= <-]. unfold clean_up.
    pose proof (Hc _ _ E) as Hr. simpl in Hr. case_bool_decide as Hb.
    + eapply inv_move; [apply (inv_delete _ _ f)|..]; try done. congruence.
    + by eapply inv_move.
  - destruct (sf_callers s !! i) as [[key|key f|key f|key f o|?]|] eqn:E; try done; intros [= <-];
      [by eapply inv_move|by eapply inv_move|by apply inv_operation_ends|by eapply inv_move].
Qed.

Lemma inv_empty : sf_inv no_flights.
Proof. split; simpl; intros; simplify_map_eq. Qed.

Lemma inv_run l s s' : sf_inv s -> sf_run s l = Some s' -> sf_inv s'.
Proof.
  revert s. induction l as [|e l IH]; simpl; intros s Hs; [by intros [= <-]|].
  destruct (sf_step s e) eqn:E; [|done]. apply IH. by eapply inv_step.
Qed.

(** ** The table is emptied *)

(** No caller was cancelled while it waited for the lock of the [finally]. *)
Definition gentle_event (s : flights) (e : event) : Prop :=
  match e with
  | Cancel i => match sf_callers s !! i with Some (Cleaning _ _ _) => False | _ => True end
  | _ => True
  end.

Fixpoint gentle (s : flights) (l : list event) : Prop :=
  match l with
  | [] => True
  | e :: l => gentle_event s e /\ match sf_step s e with Some s' => gentle s' l | None => True end
  end.

Definition owns (p : phase) (k : string) (f : nat) : Prop :=
  p = Executing k f \/ exists o, p = Cleaning k f o.
Definition owned (s : flights) : Prop :=
  forall k f, sf_flights s !! k = Some f -> exists i p, sf_callers s !! i = Some p /\ owns p k f.

(** A caller that owns no entry moves. *)
Lemma owned_move s i p :
  owned s -> (forall q k f, sf_callers s !! i = Some q -> sf_flights s !! k = Some f -> owns q k f -> owns p k f) ->
  owned (move i p s).
Proof.
  intros Ho Hi k f Hf. destruct (Ho k f Hf) as (j & q & Hj & Hq).
  destruct (decide (j = i)) as [->|Hne].
  - exists i, p. split; [by eapply lookup_move_eq|]. eapply Hi; eauto.
  - exists j, q. split; [by apply lookup_move_ne|done].
Qed.

Lemma owned_start s i key n :
  owned s -> sf_callers s !! i = Some (Calling key) ->
  owned (move i (Executing key n) (set_table (<[key := n]> (sf_flights s)) (set_futures (sf_futures s ++ [Pending]) s))).
Proof.
  intros Ho Hi k f. simpl. destruct (decide (k = key)) as [->|Hne].
  - rewrite lookup_insert_eq. intros [= <-]. exists i, (Executing key n).
    split; [by apply (lookup_move_eq s _ _ _ Hi)|by left].
  - rewrite lookup_insert_ne by done. intros Hf. destruct (Ho k f Hf) as (j & q & Hj & Hq). exists j, q.
    split; [|done]. apply (lookup_move_ne s); [done|]. intros ->. rewrite Hi in Hj. injection Hj as <-.
    by destruct Hq as [|[? ?]].
Qed.

Lemma owned_ends s i key f o :
  owned s -> sf_callers s !! i = Some (Executing key f) -> owned (operation_ends i key f o s).
Proof.
  intros Ho Hi. unfold operation_ends, resolve.
  assert (owned (move i (Cleaning key f o) s)) as H.
  { apply owned_move; [done|]. intros q k g Hq _. rewrite Hi in Hq. injection Hq as <-.
    intros [[= <- <-]|[? ?]]; [|done]. right. eauto. }
  destruct (is_done s f); exact H.
Qed.

Lemma owned_step s e s' : owned s -> gentle_event s e -> sf_step s e = Some s' -> owned s'.
Proof.
  intros Ho Hg. destruct e as [key|i|i o|i|i|i]; simpl in *.
  - intros [= <-] k f Hf. destruct (Ho k f Hf) as (j & q & Hj & Hq). exists j, q. split; [|done].
    simpl. by apply lookup_app_l_Some.
  - destruct (sf_callers s !! i) as [[key|?|?|?|?]|] eqn:E; try done. intros [= <-]. unfold join_or_start.
    destruct (sf_flights s !! key) as [f|] eqn:Ef; [|by apply owned_start].
    destruct (is_done s f); [by apply owned_start|]. apply owned_move; [done|].
    intros q k g Hq _ [->|[? ->]]; congruence.
  - destruct (sf_callers s !! i) as [[?|?|key f|?|?]|] eqn:E; try done. intros [= <-]. by apply owned_ends.
  - destruct (sf_callers s !! i) as [[?|key f|?|?|?]|] eqn:E; try done.
    destruct (sf_futures s !! f) as [[|o]|]; try done. intros [= <-]. apply owned_move; [done|].
    intros q k g Hq _ [->|[? ->]]; congruence.
  - destruct (sf_callers s !! i) as [[?|?|?|key f o|?]|] eqn:E; try done. intros [= <-]. unfold clean_up.
    case_bool_decide as Hb; apply owned_move.
    + intros k g Hd. simpl in Hd. apply lookup_delete_Some in Hd as [_ Hd]. exact (Ho k g Hd).
    + intros q k g Hq Hd. simpl in *. apply lookup_delete_Some in Hd as [Hne Hd].
      intros [->|[? ->]]; congruence.
    + done.
    + intros q k g Hq Hd [->|[? ->]]; congruence.
  - destruct (sf_callers s !! i) as [[key|key f|key f|key f o|?]|] eqn:E; try done; intros [= <-].
    + apply owned_move; [done|]. intros q k g Hq _ [->|[? ->]]; congruence.
    + apply owned_move; [done|]. intros q k g Hq _ [->|[? ->]]; congruence.
    + by apply owned_ends.
Qed.

Lemma owned_run l s s' : owned s -> gentle s l -> sf_run s l = Some s' -> owned s'.
Proof.
  revert s. induction l as [|e l IH]; simpl; intros s Ho; [by intros _ [= <-]|].
  intros [Hg Hl]. destruct (sf_step s e) eqn:E; [|done]. apply IH; [|done]. by eapply owned_step.
Qed.

(** C7: duplicate suppression.  After any interleaving of arrivals, ends of
    operations and cancellations: (1) at most one operation per key runs; (2) a
    coalesced caller is handed the very outcome of the future it joined, which
    is also the owner's; (3) nobody waits for nothing: a waiting caller's future
    is resolved or its operation is still running for the same key, and every
    other caller that has not returned can go on; (4) if no caller was cancelled
    inside the final cleanup, the table is empty once everyone has returned. *)
Theorem single_flight_correct (l : list event) (s : flights) :
  sf_run no_flights l = Some s ->
  (forall i j k f g, sf_callers s !! i = Some (Executing k f) -> sf_callers s !! j = Some (Executing k g) -> i = j) /\
  (forall i j f o o' b b', sf_callers s !! i = Some (Returned o b (Some f)) ->
     sf_callers s !! j = Some (Returned o' b' (Some f)) -> o = o') /\
  (forall i p, sf_callers s !! i = Some p ->
     match p with
     | Waiting k f => is_Some (sf_step s (Wake i)) \/ exists j, sf_callers s !! j = Some (Executing k f)
     | Calling _ => is_Some (sf_step s (TakeLock i))
     | Executing _ _ => forall o, is_Some (sf_step s (OperationEnds i o))
     | Cleaning _ _ _ => is_Some (sf_step s (CleanUp i))
     | Returned _ _ _ => True
     end) /\
  (gentle no_flights l -> (forall i p, sf_callers s !! i = Some p -> exists o b f, p = Returned o b f) ->
     sf_flights s = ∅).
Proof.
  intros Hrun. pose proof (inv_run _ _ _ inv_empty Hrun) as [Hc Ho Ht Hp]. split_and!.
  - intros i j k f g Hi Hj. destruct (Hc _ _ Hi) as [_ H1], (Hc _ _ Hj) as [_ H2].
    rewrite H1 in H2. injection H2 as <-. eauto.
  - intros i j f o o' b b' Hi Hj. apply Hc in Hi, Hj. simpl in *. congruence.
  - intros i p Hi. pose proof (Hc i p Hi) as Hok. destruct p as [k|k f|k f|k f o|o b f]; simpl in *; rewrite ?Hi; eauto.
    destruct Hok as [Hl Hk]. destruct (lookup_lt_is_Some_2 _ _ Hl) as [[|o] Hf]; rewrite Hf; [|eauto].
    right. apply Ht; auto.
  - intros Hg Hret. apply map_empty. intros k. destruct (sf_flights s !! k) as [f|] eqn:E; [|done].
    assert (owned s) as How by (eapply (owned_run l no_flights s); [by intros ? ?|done|done]).
    destruct (How k f E) as (i & p & Hi & Hpo). destruct (Hret i p Hi) as (o & b & g & ->).
    by destruct Hpo as [|[? ?]].
Qed.
End single_flight.

(** Two callers share a flight; a third comes after it has ended. *)
Definition sample_events : list (event (V := Z)) :=
  [Arrive "k"; Arrive "k"; TakeLock 0; TakeLock 1; OperationEnds 0 (Result 7); Arrive "k"; TakeLock 2;
   CleanUp 0; Wake 1; OperationEnds 2 (Result 8); CleanUp 2]%string.

Lemma single_flight_witness :
  exists s, sf_run no_flights sample_events = Some s /\
    sf_callers s = [Returned (Result 7) false (Some 0%nat); Returned (Result 7) true (Some 0%nat);
                    Returned (Result 8) false (Some 1%nat)] /\
    sf_flights s = ∅.
Proof.
  destruct (sf_run no_flights sample_events) as [s|] eqn:E; [|exfalso; vm_compute in E; discriminate].
  assert (sf_callers s = [Returned (Result 7) false (Some 0%nat); Returned (Result 7) true (Some 0%nat);
                    Returned (Result 8) false (Some 1%nat)]) as Hc by (vm_compute in E; injection E as <-; reflexivity).
  exists s. split_and!; [reflexivity|exact Hc|].
  apply (single_flight_correct sample_events s E).
  - vm_compute. repeat split.
  - intros i p Hi. rewrite Hc in Hi. destruct i as [|[|[|i]]]; simpl in Hi; try discriminate; injection Hi as <-; eauto.
Defined.
