(* ===== verification/M7.v ===== *)
(** * The advisory layer ([m7/])

    Temporal memory ([telemetry.py]), feature vectors ([features.py]),
    behaviour inference ([behavior.py]), prediction ([prediction.py]), risk
    ([risk.py], [contracts.py]), anomalies ([anomaly.py]), the adaptive policy
    ([policy.py]) and the bridge placement calls ([controller.py]).
    Explanation texts are left out, and so are the fields no code reads. *)
From S2P Require Export PySort Models Placement.

(** ** Telemetry *)

Record ema := { ema_value : float; ema_alpha : float; ema_initialized : bool }.
Definition new_ema (alpha : float) : ema := {| ema_value := f0; ema_alpha := alpha; ema_initialized := false |}.
Definition ema_update (x : float) (e : ema) : ema :=
  {| ema_value := if ema_initialized e
                  then fadd (fmul (ema_alpha e) x) (fmul (fsub f1 (ema_alpha e)) (ema_value e)) else x;
     ema_alpha := ema_alpha e; ema_initialized := true |}.

Record worker_temporal_state := {
  wt_worker_id : string;
  wt_cpu_utilization_ema : ema;
  wt_ram_utilization_ema : ema;
  wt_latency_ema : ema;
  wt_failure_rate_ema : ema;
  wt_last_updated_utc : float;
}.
Definition new_worker_temporal (wid : string) : worker_temporal_state :=
  {| wt_worker_id := wid; wt_cpu_utilization_ema := new_ema (flit 15 2); wt_ram_utilization_ema := new_ema (flit 15 2);
     wt_latency_ema := new_ema (flit 3 1); wt_failure_rate_ema := new_ema (flit 1 1); wt_last_updated_utc := f0 |}.

Record workload_temporal_state := {
  lt_workload_type : string;
  lt_duration_ema : ema;
  lt_ram_peak_ema : ema;
  lt_failure_rate_ema : ema;
  lt_last_executed_utc : float;
}.
Definition new_workload_temporal (ty : string) : workload_temporal_state :=
  {| lt_workload_type := ty; lt_duration_ema := new_ema (flit 2 1); lt_ram_peak_ema := new_ema (flit 2 1);
     lt_failure_rate_ema := new_ema (flit 1 1); lt_last_executed_utc := f0 |}.

(** [get_trend]; [None] for a metric without an average ([AttributeError]). *)
Definition trend_ema (metric : string) (s : worker_temporal_state) : option ema :=
  if String.eqb metric "cpu_utilization" then Some (wt_cpu_utilization_ema s)
  else if String.eqb metric "ram_utilization" then Some (wt_ram_utilization_ema s)
  else if String.eqb metric "latency" then Some (wt_latency_ema s)
  else if String.eqb metric "failure_rate" then Some (wt_failure_rate_ema s) else None.
Definition get_trend (metric : string) (current : float) (s : worker_temporal_state) : option float :=
  option_map (fun e => if negb (ema_initialized e) || feq (ema_value e) f0 then f1 else fdiv current (ema_value e))
    (trend_ema metric s).

Record telemetry_memory := {
  tm_workers : odict worker_temporal_state;
  tm_workloads : odict workload_temporal_state;
  tm_event_ids : gset string;
}.
Definition empty_memory : telemetry_memory := {| tm_workers := []; tm_workloads := []; tm_event_ids := ∅ |}.
Definition reset_workload_history (m : telemetry_memory) : telemetry_memory :=
  {| tm_workers := tm_workers m; tm_workloads := []; tm_event_ids := ∅ |}.

Definition fail_sample (failed : bool) : float := if failed then f1 else f0.

Definition ingest_worker_metrics (now : float) (wid : string) (cpu_ratio ram_ratio latency : float) (failed : bool)
    (m : telemetry_memory) : telemetry_memory :=
  let s := od_get_default wid (new_worker_temporal wid) (tm_workers m) in
  let s' := {| wt_worker_id := wt_worker_id s;
               wt_cpu_utilization_ema := ema_update cpu_ratio (wt_cpu_utilization_ema s);
               wt_ram_utilization_ema := ema_update ram_ratio (wt_ram_utilization_ema s);
               wt_latency_ema := ema_update latency (wt_latency_ema s);
               wt_failure_rate_ema := ema_update (fail_sample failed) (wt_failure_rate_ema s);
               wt_last_updated_utc := now |} in
  {| tm_workers := od_set wid s' (tm_workers m); tm_workloads := tm_workloads m; tm_event_ids := tm_event_ids m |}.

Definition measured (ok : float -> bool) (o : option float) (e : ema) : ema :=
  match o with Some x => if ok x then ema_update x e else e | None => e end.

Definition ingest_workload_result (now : float) (ty : string) (duration ram_peak : option float) (failed : bool)
    (event_id : option string) (m : telemetry_memory) : telemetry_memory :=
  if match event_id with Some e => bool_decide (e ∈ tm_event_ids m) | None => false end then m
  else
    let s := od_get_default ty (new_workload_temporal ty) (tm_workloads m) in
    let s' := {| lt_workload_type := lt_workload_type s;
                 lt_duration_ema := if failed then lt_duration_ema s
                                    else measured (fun x => fgt x f0) duration (lt_duration_ema s);
                 lt_ram_peak_ema := if failed then lt_ram_peak_ema s
                                    else measured (fun x => fge x f0) ram_peak (lt_ram_peak_ema s);
                 lt_failure_rate_ema := ema_update (fail_sample failed) (lt_failure_rate_ema s);
                 lt_last_executed_utc := now |} in
    {| tm_workers := tm_workers m; tm_workloads := od_set ty s' (tm_workloads m);
       tm_event_ids := match event_id with Some e => {[e]} ∪ tm_event_ids m | None => tm_event_ids m end |}.

Definition get_worker_state (wid : string) (m : telemetry_memory) : option worker_temporal_state := od_get wid (tm_workers m).
Definition get_workload_state (ty : string) (m : telemetry_memory) : option workload_temporal_state :=
  od_get ty (tm_workloads m).

(** [TelemetryIngestor.on_worker_heartbeat]. *)
Definition on_worker_heartbeat (now : float) (wid : string) (cpu_utilization_percent : float) (ram_total ram_available : Z)
    (failed : bool) (latency_ms : float) (m : telemetry_memory) : telemetry_memory :=
  let cpu_ratio := fmax f0 (fsub f1 (fdiv cpu_utilization_percent (f_of_Z 100))) in
  let ratio := if 0 <? ram_total then fdivZ ram_available ram_total else f_of_Z ram_available in
  ingest_worker_metrics now wid cpu_ratio (fmax f0 ratio) latency_ms failed m.
Definition on_workload_completed (now : float) (ty : string) (duration ram_peak : float) (failed : bool)
    (m : telemetry_memory) : telemetry_memory :=
  ingest_workload_result now ty (Some duration) (Some ram_peak) failed None m.

(** ** Features *)

Record worker_features := {
  wf_cpu_available_ratio : float;
  wf_ram_available_ratio : float;
  wf_vram_available_ratio : float;
  wf_has_gpu : float;
  wf_active_workload_ratio : float;
  wf_cache_locality_ratio : float;
  wf_heartbeat_stability : float;
  wf_recent_failure_rate : float;
  wf_recent_latency_normalized : float;
  wf_throughput_normalized : float;
}.
Record workload_features := {
  lf_required_cpu_ratio : float;
  lf_required_ram_ratio : float;
  lf_required_vram_ratio : float;
  lf_requires_gpu : float;
  lf_dependency_count_normalized : float;
  lf_dependency_bytes_normalized : float;
  lf_priority_normalized : float;
  lf_estimated_duration_normalized : float;
}.

Definition clamp01 (x : float) : float := fmin f1 (fmax f0 x).
(** [max(0.0, min(1.0, x))]. *)
Definition clamp01' (x : float) : float := fmax f0 (fmin f1 x).
Definition ratio_of (num den : Z) : float := if 0 <? den then fdivZ num den else f_of_Z num.
(** [num / (den or 1.0)]. *)
Definition ratio_or (num den : Z) : float := if den =? 0 then f_of_Z num else fdivZ num den.
Definition bool_float (b : bool) : float := if b then f1 else f0.

Definition extract_worker_features (p : worker_resource_profile) (temporal : option worker_temporal_state)
    (spec : workload_spec) : worker_features :=
  let cpu0 := fmax f0 (fsub f1 (fdiv (rp_cpu_utilization_percent p) (f_of_Z 100))) in
  let ram0 := ratio_of (rp_ram_available_bytes p) (rp_ram_total_bytes p) in
  let ema_ratio e dflt := if ema_initialized e then clamp01' (fsub f1 (ema_value e)) else dflt in
  let required := ws_input_asset_hashes spec in
  {| wf_cpu_available_ratio := match temporal with Some t => ema_ratio (wt_cpu_utilization_ema t) cpu0 | None => cpu0 end;
     wf_ram_available_ratio := match temporal with Some t => ema_ratio (wt_ram_utilization_ema t) ram0 | None => ram0 end;
     wf_vram_available_ratio := ratio_of (rp_vram_available_bytes p) (rp_vram_total_bytes p);
     wf_has_gpu := bool_float (rp_gpu_available p);
     wf_active_workload_ratio := fmin f1 (fdivZ (rp_active_workload_count p) (rp_max_concurrent_workloads p));
     wf_cache_locality_ratio :=
       if bool_decide (required = ∅) then f1
       else fdivZ (Z.of_nat (size (required ∩ rp_local_cached_hashes p))) (Z.of_nat (size required));
     wf_heartbeat_stability := f1;
     wf_recent_failure_rate := match temporal with Some t => clamp01 (ema_value (wt_failure_rate_ema t)) | None => f0 end;
     wf_recent_latency_normalized :=
       match temporal with Some t => clamp01 (fdiv (ema_value (wt_latency_ema t)) (f_of_Z 1000)) | None => f0 end;
     wf_throughput_normalized := f0 |}.

Definition extract_workload_features (spec : workload_spec) (max_ram max_cpu dependency_bytes : Z) : workload_features :=
  {| lf_required_cpu_ratio := fmin f1 (ratio_or (ws_min_cpu_cores spec) max_cpu);
     lf_required_ram_ratio := fmin f1 (ratio_or (ws_min_ram_bytes spec) max_ram);
     lf_required_vram_ratio := fmin f1 (ratio_or (ws_min_vram_bytes spec) max_ram);
     lf_requires_gpu := bool_float (ws_requires_gpu spec);
     lf_dependency_count_normalized :=
       fmin f1 (fdiv (f_of_Z (Z.of_nat (size (ws_input_asset_hashes spec)))) (f_of_Z 100));
     lf_dependency_bytes_normalized := fmin f1 (fdivZ dependency_bytes (50 * 1024 * 1024 * 1024));
     lf_priority_normalized := clamp01 (fdiv (f_of_Z (ws_priority spec)) (f_of_Z 100));
     lf_estimated_duration_normalized := fmin f1 (fdiv (ws_estimated_duration_seconds spec) (f_of_Z 3600)) |}.

(** ** Behaviour *)

Inductive m7_worker_state := MW_STABLE | MW_DEGRADED | MW_ERRATIC | MW_OVERLOADED | MW_RECOVERING | MW_UNKNOWN.
Inductive m7_workload_state :=
| ML_CPU_BOUND | ML_MEMORY_BOUND | ML_GPU_BOUND | ML_IO_BOUND | ML_NETWORK_BOUND | ML_MIXED | ML_UNKNOWN.
#[export] Instance m7_worker_state_eq_dec : EqDecision m7_worker_state.
Proof. solve_decision. Defined.
#[export] Instance m7_workload_state_eq_dec : EqDecision m7_workload_state.
Proof. solve_decision. Defined.

Definition infer_worker_behavior (f : worker_features) : m7_worker_state * float :=
  let cpu := wf_cpu_available_ratio f in
  let ram := wf_ram_available_ratio f in
  if flt cpu (flit 15 2) && flt ram (flit 15 2) then
    (MW_OVERLOADED, fmin f1 (fmax (flit 5 1) (fsub f1 (fdiv (fmax cpu ram) (flit 15 2)))))
  else if fgt (wf_recent_failure_rate f) (flit 3 1) then
    (MW_ERRATIC, fmin f1 (fmul (wf_recent_failure_rate f) (f_of_Z 2)))
  else if flt (wf_heartbeat_stability f) (flit 8 1) then (MW_DEGRADED, fsub f1 (wf_heartbeat_stability f))
  else if fgt (wf_recent_latency_normalized f) (flit 7 1) then (MW_DEGRADED, wf_recent_latency_normalized f)
  else (MW_STABLE, fmin f1 (fmax (flit 1 1) (fmul (wf_heartbeat_stability f) (fsub f1 (wf_recent_failure_rate f))))).

(** [x or 0.01]. *)
Definition or_cent (x : float) : float := if feq x f0 then flit 1 2 else x.
Definition dominates (x y : float) : bool := fgt x (fmul y (flit 15 1)) && fgt x (flit 1 1).
Definition dominance_confidence (x y : float) : float :=
  fmax (flit 5 1) (fmin f1 (fmul (fdiv x (or_cent y)) (flit 2 1))).

Definition infer_workload_behavior (f : workload_features) : m7_workload_state * float :=
  let cpu := lf_required_cpu_ratio f in
  let ram := lf_required_ram_ratio f in
  if fgt (lf_requires_gpu f) (flit 5 1) then (ML_GPU_BOUND, flit 9 1)
  else if fgt (lf_dependency_count_normalized f) (flit 5 1) || fgt (lf_dependency_bytes_normalized f) (flit 5 1) then
    (ML_IO_BOUND, fmin f1 (fmax (lf_dependency_count_normalized f) (lf_dependency_bytes_normalized f)))
  else if dominates cpu ram then (ML_CPU_BOUND, dominance_confidence cpu ram)
  else if dominates ram cpu then (ML_MEMORY_BOUND, dominance_confidence ram cpu)
  else (ML_MIXED, flit 6 1).

(** ** Prediction *)

Record prediction := {
  pn_duration_seconds : float;
  pn_ram_peak_bytes : Z;
  pn_failure_probability : float;
  pn_confidence : float;
}.

(** [int(x)] raises on infinities and NaN. *)
Definition py_int_of_float (x : float) : res Z :=
  match f_trunc x with Some n => Ok n | None => Err (ValueError "cannot convert float to integer") end.

Definition failure_probability (wf : worker_features) (ws : m7_worker_state) (ls : m7_workload_state)
    (history : option workload_temporal_state) : float :=
  let p := wf_recent_failure_rate wf in
  let p := match history with
           | Some t => if ema_initialized (lt_failure_rate_ema t) then fmax p (ema_value (lt_failure_rate_ema t)) else p
           | None => p
           end in
  let p := if bool_decide (ls = ML_MEMORY_BOUND) && flt (wf_ram_available_ratio wf) (flit 2 1)
           then fmin f1 (fadd p (flit 3 1)) else p in
  let p := if bool_decide (ls = ML_GPU_BOUND) && flt (wf_has_gpu wf) (flit 5 1)
           then fmin f1 (fadd p (flit 9 1)) else p in
  if bool_decide (ws = MW_ERRATIC) then fmin f1 (fadd p (flit 4 1))
  else if bool_decide (ws = MW_OVERLOADED) then fmin f1 (fadd p (flit 5 1)) else p.

Definition duration_multiplier (wf : worker_features) (ls : m7_workload_state) : float :=
  if bool_decide (ls = ML_CPU_BOUND) then fdiv f1 (fmax (flit 1 1) (wf_cpu_available_ratio wf))
  else if bool_decide (ls = ML_IO_BOUND) then fsub f1 (fmul (wf_cache_locality_ratio wf) (flit 5 1))
  else f1.

Definition predict (wf : worker_features) (wb : m7_worker_state * float) (lb : m7_workload_state * float)
    (history : option workload_temporal_state) : res prediction :=
  let known := match history with Some t => ema_initialized (lt_duration_ema t) | None => false end in
  let! base := match history with
               | Some t => if known then
                             let! ram := py_int_of_float (ema_value (lt_ram_peak_ema t)) in
                             Ok (ema_value (lt_duration_ema t), ram)
                           else Ok (f_of_Z 10, 1024 * 1024 * 1024)
               | None => Ok (f_of_Z 10, 1024 * 1024 * 1024)
               end in
  let ram_multiplier := if bool_decide (fst lb = ML_MEMORY_BOUND) then flit 12 1 else f1 in
  let! ram := py_int_of_float (fmul (f_of_Z (snd base)) ram_multiplier) in
  let confidence :=
    if negb known then flit 3 1
    else
      let c := fmul (fmul (snd wb) (snd lb)) (wf_heartbeat_stability wf) in
      if bool_decide (fst wb = MW_UNKNOWN \/ fst lb = ML_UNKNOWN) then fmul c (flit 5 1) else c in
  Ok {| pn_duration_seconds := fmul (fst base) (duration_multiplier wf (fst lb));
        pn_ram_peak_bytes := ram;
        pn_failure_probability := failure_probability wf (fst wb) (fst lb) history;
        pn_confidence := clamp01 confidence |}.

(** ** Risk and anomalies *)

Record risk_score := {
  rk_p_failure : float;
  rk_u_prediction : float;
  rk_p_resource_exhaustion : float;
  rk_p_deadline_miss : float;
  rk_total_risk : float;
}.

Definition calculate_risk (p_failure u_prediction p_exhaust p_deadline : float) : risk_score :=
  let total := fadd (fadd (fadd (fmul p_failure (flit 4 1)) (fmul u_prediction (flit 2 1)))
                          (fmul p_exhaust (flit 3 1))) (fmul p_deadline (flit 1 1)) in
  {| rk_p_failure := p_failure; rk_u_prediction := u_prediction; rk_p_resource_exhaustion := p_exhaust;
     rk_p_deadline_miss := p_deadline; rk_total_risk := clamp01 total |}.

Definition exhaustion_risk (predicted_ram max_ram : Z) : float :=
  if 0 <? max_ram then
    let ratio := fdivZ predicted_ram max_ram in
    if fgt ratio (flit 9 1) then flit 8 1 else if fgt ratio (flit 7 1) then flit 4 1 else f0
  else f0.

Definition deadline_risk (predicted : float) (deadline : option float) : float :=
  match deadline with
  | Some d =>
      if fgt d f0 then
        (if fgt predicted d then f1 else if fgt predicted (fmul d (flit 8 1)) then flit 5 1 else f0)
      else f0
  | None => f0
  end.

Definition evaluate_risk (p : prediction) (max_ram_available : Z) (deadline : option float) : risk_score :=
  calculate_risk (pn_failure_probability p) (fsub f1 (pn_confidence p))
    (exhaustion_risk (pn_ram_peak_bytes p) max_ram_available) (deadline_risk (pn_duration_seconds p) deadline).

Record anomaly_score := {
  an_deviation_magnitude : float;
  an_persistence : float;
  an_confidence : float;
  an_severity : float;
}.
Definition duration_ratio (expected observed : float) : float :=
  if fle expected f0 then f1 else fdiv observed expected.

Definition detect_anomaly (expected : prediction) (observed_duration : float) (observed_ram_peak : Z)
    (persistence_history : float) : anomaly_score :=
  let dr := if fgt (pn_duration_seconds expected) f0 then fdiv observed_duration (pn_duration_seconds expected) else f1 in
  let dd := if fgt dr (flit 15 1) then fmin f1 (fdiv (fsub dr (flit 15 1)) (f_of_Z 2)) else f0 in
  let rr := if 0 <? pn_ram_peak_bytes expected then fdivZ observed_ram_peak (pn_ram_peak_bytes expected) else f1 in
  let rd := if fgt rr (flit 12 1) then fmin f1 (fdiv (fsub rr (flit 12 1)) f1) else f0 in
  let magnitude := fmax dd rd in
  let persistence := fadd (fmul (flit 3 1) magnitude) (fmul (flit 7 1) persistence_history) in
  let severity := fmul (fadd (fmul magnitude (flit 4 1)) (fmul persistence (flit 6 1))) (pn_confidence expected) in
  {| an_deviation_magnitude := magnitude; an_persistence := persistence; an_confidence := pn_confidence expected;
     an_severity := clamp01 severity |}.
Definition is_significant (a : anomaly_score) : bool := fgt (an_severity a) (flit 75 2).

(** ** Policy *)

Record policy_weights := {
  pw_compute : float; pw_locality : float; pw_network : float; pw_risk : float; pw_queue : float;
}.
Definition default_weights : policy_weights :=
  {| pw_compute := flit 35 2; pw_locality := flit 20 2; pw_network := flit 15 2; pw_risk := flit 15 2; pw_queue := flit 15 2 |}.

(** The weights for high latency and for instability, then the division by the total. *)
Definition policy_for (slow unstable : bool) : policy_weights :=
  let w := default_weights in
  let w := if slow then {| pw_compute := flit 20 2; pw_locality := flit 40 2; pw_network := flit 10 2;
                           pw_risk := pw_risk w; pw_queue := pw_queue w |} else w in
  let w := if unstable then {| pw_compute := fmax (flit 5 2) (fsub (pw_compute w) (flit 15 2));
                               pw_locality := pw_locality w; pw_network := pw_network w; pw_risk := flit 40 2;
                               pw_queue := fmax (flit 5 2) (fsub (pw_queue w) (flit 10 2)) |} else w in
  let total := fadd (fadd (fadd (fadd (pw_compute w) (pw_locality w)) (pw_network w)) (pw_risk w)) (pw_queue w) in
  {| pw_compute := fdiv (pw_compute w) total; pw_locality := fdiv (pw_locality w) total;
     pw_network := fdiv (pw_network w) total; pw_risk := fdiv (pw_risk w) total; pw_queue := fdiv (pw_queue w) total |}.

Definition average (l : list float) : float := fdiv (fsum l) (f_of_Z (Z.of_nat (length l))).

Definition evaluate_environment (active : list worker_temporal_state) : policy_weights :=
  match active with
  | [] => default_weights
  | _ =>
      policy_for (fgt (average (map (fun w => ema_value (wt_latency_ema w)) active)) (f_of_Z 200))
                 (fgt (average (map (fun w => ema_value (wt_failure_rate_ema w)) active)) (flit 10 2))
  end.

(** ** The bridge *)

Definition evaluate_candidate_risk (m : telemetry_memory) (spec : workload_spec) (lf : workload_features)
    (p : worker_resource_profile) : res risk_score :=
  let temporal := get_worker_state (rp_worker_id p) m in
  let wf := extract_worker_features p temporal spec in
  let! pred := predict wf (infer_worker_behavior wf) (infer_workload_behavior lf)
                 (get_workload_state (ws_task_type spec) m) in
  Ok (evaluate_risk pred (rp_ram_available_bytes p)
        (Some (fmul (ws_estimated_duration_seconds spec) (flit 15 1)))).

Definition evaluate_candidates (m : telemetry_memory) (spec : workload_spec) (candidates : list worker_resource_profile)
  : res (odict risk_score) :=
  let lf := extract_workload_features spec (32 * 1024 * 1024 * 1024) 64 0 in
  res_fold (fun d p => let! r := evaluate_candidate_risk m spec lf p in Ok (od_set (rp_worker_id p) r d)) [] candidates.

(** [sorted(scores, key=scores.get, reverse=True)]. *)
Definition by_value_desc (scores : odict float) : list string :=
  map fst (isort (desc_lt snd) scores).

Definition effective_lambda (m : telemetry_memory) (risk_weight : float) : float :=
  fmul risk_weight (pw_risk (evaluate_environment (od_values (tm_workers m)))).

(** The penalised scores; [risks] maps a worker to its total risk. *)
Definition penalised (lambda : float) (scores risks : odict float) : odict float :=
  map (fun '(wid, s) => (wid, match od_get wid risks with Some r => fsub s (fmul lambda r) | None => s end)) scores.

Definition adjust_ranking (m : telemetry_memory) (scores risks : odict float) (risk_weight : float) : list string :=
  match risks with
  | [] => by_value_desc scores
  | _ => by_value_desc (penalised (effective_lambda m risk_weight) scores risks)
  end.

(** ** Ordering by descending values *)

Lemma by_value_desc_perm scores : Permutation (by_value_desc scores) (od_keys scores).
Proof. apply Permutation_map, isort_perm. Qed.

Lemma penalised_keys lambda scores risks : od_keys (penalised lambda scores risks) = od_keys scores.
Proof. unfold penalised, od_keys. rewrite map_map. by apply map_ext; intros [k v]. Qed.

Lemma adjust_ranking_perm m scores risks w : Permutation (adjust_ranking m scores risks w) (od_keys scores).
Proof.
  unfold adjust_ranking. destruct risks as [|r risks]; [apply by_value_desc_perm|].
  rewrite by_value_desc_perm. by rewrite penalised_keys.
Qed.
