(* ===== verification/M7Props.v ===== *)
(** * The advisory layer only advises

    The bridge discharges the interface [Advisory] of the placement engine:
    whatever the telemetry, its risks are scores between 0 and 1 and its order
    is a re-ordering of the candidates. *)
From S2P Require Export M7 PlacementProps.

(** ** When prediction does not raise *)

(** The stored RAM average converts to an integer, scaled or not. *)
Definition ram_average_ok (t : workload_temporal_state) : bool :=
  match py_int_of_float (ema_value (lt_ram_peak_ema t)) with
  | Ok n => is_ok (py_int_of_float (fmul (f_of_Z n) f1)) && is_ok (py_int_of_float (fmul (f_of_Z n) (flit 12 1)))
  | Err _ => false
  end.
Definition memory_sound (m : telemetry_memory) : bool :=
  forallb (fun t => negb (ema_initialized (lt_duration_ema t)) || ram_average_ok t) (od_values (tm_workloads m)).

Lemma cold_start_ram (b : bool) :
  is_ok (py_int_of_float (fmul (f_of_Z (1024 * 1024 * 1024)) (if b then flit 12 1 else f1))) = true.
Proof. destruct b; vm_compute; reflexivity. Qed.

Lemma is_ok_Some {A} (m : res A) : is_ok m = true -> exists a, m = Ok a.
Proof. destruct m; [eauto|done]. Qed.

Lemma predict_ok wf wb lb history :
  match history with Some t => ema_initialized (lt_duration_ema t) = false \/ ram_average_ok t = true | None => True end ->
  is_ok (predict wf wb lb history) = true.
Proof.
  unfold predict. intros Hh.
  pose proof (cold_start_ram (bool_decide (fst lb = ML_MEMORY_BOUND))) as Hcold. apply is_ok_Some in Hcold as [n Hn].
  destruct history as [t|]; [|cbn [res_bind fst snd]; by rewrite Hn].
  destruct (ema_initialized (lt_duration_ema t)) eqn:E; [|cbn [res_bind fst snd]; by rewrite Hn].
  destruct Hh as [|Hr]; [done|]. unfold ram_average_ok in Hr.
  destruct (py_int_of_float (ema_value (lt_ram_peak_ema t))) as [k|]; [|done]. cbn [res_bind fst snd].
  apply andb_true_iff in Hr as [[a Ha]%is_ok_Some [c Hc]%is_ok_Some].
  by destruct (bool_decide _); rewrite ?Ha, ?Hc.
Qed.

Definition risk_features (spec : workload_spec) : workload_features :=
  extract_workload_features spec (32 * 1024 * 1024 * 1024) 64 0.

Lemma candidate_risk_ok m spec p :
  memory_sound m = true -> exists r, evaluate_candidate_risk m spec (risk_features spec) p = Ok r.
Proof.
  intros Hm. apply is_ok_Some. unfold evaluate_candidate_risk.
  match goal with |- context [predict ?a ?b ?c ?d] => assert (is_ok (predict a b c d) = true) as [q ->]%is_ok_Some end; [|done].
  apply predict_ok. unfold get_workload_state. destruct (od_get (ws_task_type spec) (tm_workloads m)) as [t|] eqn:E; [|done].
  unfold memory_sound in Hm. rewrite forallb_forall in Hm.
  specialize (Hm t). apply od_get_Some_elem in E. apply (list_elem_of_fmap_2 snd), list_elem_of_In in E.
  apply Hm, orb_true_iff in E as [E%negb_true_iff|E]; auto.
Qed.

(** ** The risks *)

Lemma clamp01_bounds x : fle f0 (clamp01 x) = true /\ fle (clamp01 x) f1 = true.
Proof. apply fclamp_bounds. vm_compute. reflexivity. Qed.

Lemma candidate_risk_bounds m spec lf p r :
  evaluate_candidate_risk m spec lf p = Ok r -> fle f0 (rk_total_risk r) = true /\ fle (rk_total_risk r) f1 = true.
Proof.
  unfold evaluate_candidate_risk. intros (q & _ & Hr)%res_bind_ok. injection Hr as <-. apply clamp01_bounds.
Qed.

(** The dictionary of risks, in the order of the candidates. *)
Lemma evaluate_candidates_list m spec l :
  memory_sound m = true -> NoDup (map rp_worker_id l) ->
  exists rs, evaluate_candidates m spec l = Ok rs /\ od_keys rs = map rp_worker_id l /\
    Forall2 (fun p kr => evaluate_candidate_risk m spec (risk_features spec) p = Ok (snd kr)) l rs.
Proof.
  intros Hm Hnd. unfold evaluate_candidates. fold (risk_features spec).
  enough (forall d, NoDup (od_keys d ++ map rp_worker_id l) ->
    exists rs, res_fold (fun d p => let! r := evaluate_candidate_risk m spec (risk_features spec) p in Ok (od_set (rp_worker_id p) r d)) d l = Ok (d ++ rs) /\
      od_keys rs = map rp_worker_id l /\
      Forall2 (fun p kr => evaluate_candidate_risk m spec (risk_features spec) p = Ok (snd kr)) l rs) as H
    by exact (H [] Hnd).
  clear Hnd. induction l as [|p l IH]; intros d Hnd; simpl in *.
  { exists []. by rewrite app_nil_r. }
  destruct (candidate_risk_ok m spec p Hm) as [r Hr]. rewrite Hr. simpl.
  rewrite od_set_fresh.
  2: { apply NoDup_app in Hnd as (_ & Hd & _). intros Hin. apply (Hd _ Hin). left. }
  destruct (IH (d ++ [(rp_worker_id p, r)])) as (rs & He & Hk & Hf).
  { unfold od_keys in *. rewrite map_app. simpl. by rewrite <- app_assoc. }
  exists ((rp_worker_id p, r) :: rs). rewrite He, <- app_assoc. simpl. split_and!; [done|by rewrite Hk|by constructor].
Qed.

Lemma risk_of_candidate m spec l rs q :
  memory_sound m = true -> NoDup (map rp_worker_id l) -> evaluate_candidates m spec l = Ok rs -> q ∈ l ->
  exists r, evaluate_candidate_risk m spec (risk_features spec) q = Ok r /\ od_get (rp_worker_id q) rs = Some r.
Proof.
  intros Hm Hnd He Hq. destruct (evaluate_candidates_list m spec l Hm Hnd) as (rs' & He' & Hk & Hf).
  rewrite He in He'. injection He' as <-. apply list_elem_of_lookup_1 in Hq as [i Hi].
  destruct (Forall2_lookup_l _ _ _ _ _ Hf Hi) as ([k r] & Hr & Hev). exists r. split; [done|].
  assert (k = rp_worker_id q) as ->.
  { apply (f_equal (fun l => l !! i)) in Hk. unfold od_keys in Hk.
    change (map fst rs) with (fst <$> rs) in Hk. change (map rp_worker_id l) with (rp_worker_id <$> l) in Hk.
    rewrite !list_lookup_fmap, Hr, Hi in Hk. by injection Hk. }
  apply od_get_elem; [unfold od_wf; by rewrite Hk|by eapply list_elem_of_lookup_2].
Qed.

(** ** The bridge as placement's advisory layer *)

Record m7_bridge := { br_memory : telemetry_memory; br_sound : memory_sound br_memory = true }.

Definition total_risks (rs : odict risk_score) : odict float := map (fun '(k, r) => (k, rk_total_risk r)) rs.

#[export] Instance m7_advisory : Advisory m7_bridge := {
  adv_risks b spec l := match evaluate_candidates (br_memory b) spec l with Ok rs => total_risks rs | Err _ => [] end;
  adv_order b scores risks := adjust_ranking (br_memory b) scores risks (flit 5 1);
}.
#[export] Instance m7_advisory_laws : AdvisoryLaws m7_bridge.
Proof. constructor. intros b scores risks. apply adjust_ranking_perm. Qed.

Lemma total_risks_get k rs : od_get k (total_risks rs) = option_map rk_total_risk (od_get k rs).
Proof. induction rs as [|[k' r] rs IH]; simpl; [done|]. by destruct (String.eqb k k'). Qed.

Lemma policy_risk_bounds slow unstable :
  fle f0 (pw_risk (policy_for slow unstable)) = true /\
  fle f0 (fmul (flit 5 1) (pw_risk (policy_for slow unstable))) = true /\
  fle (fmul (flit 5 1) (pw_risk (policy_for slow unstable))) (flit 2 1) = true.
Proof. destruct slow, unstable; vm_compute; split_and!; reflexivity. Qed.

(** The advisory layer stays within its bounds.  With distinct candidates
    and averages that convert to integers, every candidate gets exactly one
    risk, between 0 and 1; the weight of risk in the ranking is between 0 and
    0.2 whatever the telemetry; an anomaly's severity is between 0 and 1; and
    the order proposed is a re-ordering of the scored candidates, falling in
    the penalised score. *)
Theorem advice_bounded m spec l scores risks observed ram history expected :
  memory_sound m = true -> NoDup (map rp_worker_id l) ->
  (exists rs, evaluate_candidates m spec l = Ok rs /\ od_keys rs = map rp_worker_id l /\
     forall k r, od_get k rs = Some r -> fle f0 (rk_total_risk r) = true /\ fle (rk_total_risk r) f1 = true) /\
  (let lambda := effective_lambda m (flit 5 1) in
   fle f0 lambda = true /\ fle lambda (flit 2 1) = true /\
   Permutation (adjust_ranking m scores risks (flit 5 1)) (od_keys scores) /\
   (risks <> [] -> (forall k x, (k, x) ∈ penalised lambda scores risks -> notnan x) ->
    exists ranked, adjust_ranking m scores risks (flit 5 1) = map fst ranked /\
      Permutation ranked (penalised lambda scores risks) /\
      StronglySorted (fun a b => fle (snd b) (snd a) = true) ranked)) /\
  (let s := an_severity (detect_anomaly expected observed ram history) in fle f0 s = true /\ fle s f1 = true).
Proof.
  intros Hm Hnd. split; [|split; [|apply clamp01_bounds]].
  - destruct (evaluate_candidates_list m spec l Hm Hnd) as (rs & He & Hk & Hf). exists rs. split_and!; [done..|].
    intros k r Hr. apply od_get_Some_elem, list_elem_of_lookup_1 in Hr as [i Hi].
    destruct (Forall2_lookup_r _ _ _ _ _ Hf Hi) as (p & _ & Hp). by eapply candidate_risk_bounds.
  - intros lambda.
    assert (fle f0 lambda = true /\ fle lambda (flit 2 1) = true) as [H1 H2].
    { unfold lambda, effective_lambda, evaluate_environment.
      destruct (od_values (tm_workers m)); [vm_compute; split; reflexivity|apply policy_risk_bounds]. }
    split_and!; [done|done|apply adjust_ranking_perm|].
    intros Hr Hnn. exists (isort (desc_lt snd) (penalised lambda scores risks)).
    split_and!; [by destruct risks|apply isort_perm|apply isort_desc_sorted; intros [k x]; apply Hnn].
Qed.

(** The score placement ranks a worker by under the bridge. *)
Definition penalised_score (b : m7_bridge) (env : placement_env) (spec : workload_spec) (p : worker_resource_profile) : float :=
  match evaluate_candidate_risk (br_memory b) spec (risk_features spec) p with
  | Ok r => fsub (rank_score env spec p) (fmul (effective_lambda (br_memory b) (flit 5 1)) (rk_total_risk r))
  | Err _ => rank_score env spec p
  end.

(** Placement under the advisory layer.  With distinct worker ids and no
    NaN among the penalised scores, the selected worker is eligible and no
    eligible worker has a higher score after the penalty of its risk. *)
Theorem placement_follows_advice (b : m7_bridge) env spec profiles d :
  NoDup (map rp_worker_id profiles) ->
  (forall p, p ∈ profiles -> hard_eligible env spec p -> notnan (penalised_score b env spec p)) ->
  snd (evaluate (Some b) env spec profiles) = Some d ->
  exists p, p ∈ profiles /\ rp_worker_id p = pd_selected_worker_id d /\ hard_eligible env spec p /\
    forall q, q ∈ profiles -> hard_eligible env spec q ->
      fle (penalised_score b env spec q) (penalised_score b env spec p) = true.
Proof.
  intros Hnd Hnn Hd. pose proof (evaluate_cases (Some b) env spec profiles) as Hc. cbv zeta in Hc.
  set (eligible := List.filter (is_eligible env spec) profiles) in *.
  set (ranks := score_table (rank_score env spec) eligible) in *.
  assert (NoDup (map rp_worker_id eligible)) as Hnde by by apply ids_filter.
  assert (ranks = map (fun p => (rp_worker_id p, rank_score env spec p)) eligible) as Hranks by by apply score_table_map.
  destruct (fst (rank_candidates (Some b) spec ranks eligible)) as [|p l] eqn:Er; [destruct Hc; congruence|].
  destruct Hc as (Hin & d' & Hd' & Hsel & _). rewrite Hd in Hd'. injection Hd' as <-.
  apply eligible_elem in Hin as Hpe. exists p. split_and!; [tauto|done|tauto|].
  apply advice_followed in Er as [rest Hadv]; [|done|].
  2: { rewrite Hranks. unfold od_keys. by rewrite map_map. }
  set (ranked := isort (rank_key_lt ranks) eligible) in *.
  assert (Permutation ranked eligible) as Hre by apply isort_perm.
  assert (NoDup (map rp_worker_id ranked)) as Hndr by (by rewrite Hre).
  simpl in Hadv. destruct (evaluate_candidates_list (br_memory b) spec ranked (br_sound b) Hndr) as (rs & He & Hk & _).
  rewrite He in Hadv.
  assert (forall q, q ∈ eligible -> od_get (rp_worker_id q) (total_risks rs) <> None /\
    (rp_worker_id q, penalised_score b env spec q) ∈
      penalised (effective_lambda (br_memory b) (flit 5 1)) ranks (total_risks rs)) as Hpen.
  { intros q Hq. assert (q ∈ ranked) as Hqr by (by rewrite Hre).
    destruct (risk_of_candidate _ _ _ _ _ (br_sound b) Hndr He Hqr) as (r & Hr & Hg).
    rewrite total_risks_get, Hg. split; [done|]. unfold penalised_score. rewrite Hr.
    apply list_elem_of_In, in_map_iff. exists (rp_worker_id q, rank_score env spec q). split.
    - by rewrite total_risks_get, Hg.
    - rewrite Hranks. apply in_map_iff. exists q. split; [done|]. by apply list_elem_of_In. }
  assert (total_risks rs <> []) as Hne by (intros E; destruct (Hpen p Hin) as [Hg _]; by rewrite E in Hg).
  unfold adjust_ranking in Hadv. destruct (total_risks rs) as [|t0 ts] eqn:Et; [done|]. rewrite <- Et in *.
  clear Et t0 ts. set (pen := penalised _ _ _) in *. unfold by_value_desc in Hadv.
  assert (forall k x, (k, x) ∈ pen -> exists q, q ∈ eligible /\ k = rp_worker_id q /\ x = penalised_score b env spec q) as Hback.
  { intros k x Hkx. assert (k ∈ od_keys pen) as Hkp by (by apply (list_elem_of_fmap_2 fst) in Hkx).
    unfold pen in Hkp. rewrite penalised_keys, Hranks in Hkp. unfold od_keys in Hkp. rewrite map_map in Hkp.
    apply list_elem_of_In, in_map_iff in Hkp as (q & <- & Hq%list_elem_of_In). exists q. split_and!; [done..|].
    destruct (Hpen q Hq) as [_ Hx].
    assert (od_wf pen) as Hwf by (unfold od_wf, pen; rewrite penalised_keys, Hranks; unfold od_keys; by rewrite map_map).
    apply (od_get_elem _ _ _ Hwf) in Hkx. apply (od_get_elem _ _ _ Hwf) in Hx. simpl in *. congruence. }
  assert (StronglySorted (fun a b => fle (snd b) (snd a) = true) (isort (desc_lt snd) pen)) as Hs.
  { apply isort_desc_sorted. intros [k x] Hkx. destruct (Hback k x Hkx) as (q & Hq & _ & ->).
    apply eligible_elem in Hq as [? ?]. by apply Hnn. }
  destruct (isort (desc_lt snd) pen) as [|[k0 x0] tl] eqn:Ei; [done|]. injection Hadv as -> _.
  assert ((rp_worker_id p, x0) ∈ pen) as H0 by (apply (isort_elem (desc_lt snd)); rewrite Ei; left).
  destruct (Hback _ _ H0) as (p' & Hp' & Hid & ->).
  assert (p' = p) as ->.
  { apply (ids_inj profiles); [done|..|done]; [by apply eligible_elem in Hp' as [? _]|tauto]. }
  intros q Hq Hh. assert (q ∈ eligible) as Hqe by by apply eligible_elem.
  destruct (Hpen q Hqe) as [_ Hx]. apply (isort_elem (desc_lt snd)) in Hx. rewrite Ei in Hx.
  apply elem_of_cons in Hx as [[= _ <-]|Hx]; [apply fle_refl; apply Hnn; tauto|].
  apply StronglySorted_inv in Hs as [_ Hf]. rewrite List.Forall_forall in Hf.
  exact (Hf _ (proj1 (list_elem_of_In _ _) Hx)).
Qed.

(** ** Replaying history *)

Record workload_event := {
  ev_id : string; ev_type : string; ev_now : float;
  ev_duration : option float; ev_ram_peak : option float; ev_failed : bool;
}.
Definition ingest_event (m : telemetry_memory) (e : workload_event) : telemetry_memory :=
  ingest_workload_result (ev_now e) (ev_type e) (ev_duration e) (ev_ram_peak e) (ev_failed e) (Some (ev_id e)) m.

Lemma ingest_event_ids m e : tm_event_ids (ingest_event m e) = {[ev_id e]} ∪ tm_event_ids m.
Proof.
  unfold ingest_event, ingest_workload_result. case_bool_decide; [|done].
  apply leibniz_equiv. intros x. rewrite elem_of_union, elem_of_singleton. naive_solver.
Qed.

Lemma ingest_known m e : ev_id e ∈ tm_event_ids m -> ingest_event m e = m.
Proof. intros H. unfold ingest_event, ingest_workload_result. by rewrite bool_decide_eq_true_2. Qed.

Lemma ingest_all_ids l m x :
  x ∈ tm_event_ids (fold_left ingest_event l m) <-> x ∈ tm_event_ids m \/ x ∈ map ev_id l.
Proof.
  revert m. induction l as [|e l IH]; intros m; simpl; [rewrite elem_of_nil; tauto|].
  rewrite IH, ingest_event_ids, elem_of_union, elem_of_singleton, elem_of_cons. tauto.
Qed.

Lemma ingest_all_known l m : (forall e, e ∈ l -> ev_id e ∈ tm_event_ids m) -> fold_left ingest_event l m = m.
Proof.
  revert m. induction l as [|e l IH]; intros m H; simpl; [done|].
  rewrite ingest_known by (apply H; left). apply IH. intros e' He. apply H. by right.
Qed.

(** Durable history can be replayed.  After any history, replaying any of
    its events again, in any order and any number of times, changes nothing; a
    replay after [reset_workload_history] rebuilds the same workload averages
    as a fresh memory, whatever was ingested before. *)
Theorem history_replay (history replay : list workload_event) (m : telemetry_memory) :
  (forall e, e ∈ replay -> ev_id e ∈ map ev_id history) ->
  fold_left ingest_event replay (fold_left ingest_event history m) = fold_left ingest_event history m /\
  let rebuilt := fold_left ingest_event history (reset_workload_history (fold_left ingest_event replay m)) in
  let fresh := fold_left ingest_event history empty_memory in
  tm_workloads rebuilt = tm_workloads fresh /\ tm_event_ids rebuilt = tm_event_ids fresh.
Proof.
  intros Hr. split.
  - apply ingest_all_known. intros e He. apply ingest_all_ids. right. auto.
  - cbv zeta. generalize (fold_left ingest_event replay m). clear. intros m.
    enough (forall l m1 m2, tm_workloads m1 = tm_workloads m2 -> tm_event_ids m1 = tm_event_ids m2 ->
      tm_workloads (fold_left ingest_event l m1) = tm_workloads (fold_left ingest_event l m2) /\
      tm_event_ids (fold_left ingest_event l m1) = tm_event_ids (fold_left ingest_event l m2)) as H by (by apply H).
    induction l as [|e l IH]; intros m1 m2 Hw Hi; simpl; [done|].
    apply IH; unfold ingest_event, ingest_workload_result; rewrite Hw, Hi; case_bool_decide; done.
Qed.

(** ** Witnesses and a finding *)

Definition sample_event (id : string) (d : float) : workload_event :=
  {| ev_id := id; ev_type := "t"; ev_now := f1; ev_duration := Some d; ev_ram_peak := Some f1; ev_failed := false |}.

Lemma history_replay_witness :
  exists m, m = fold_left ingest_event [sample_event "a" f1; sample_event "b" (f_of_Z 3)] empty_memory /\
    fold_left ingest_event [sample_event "a" f1] m = m.
Proof.
  eexists. split; [reflexivity|].
  apply (history_replay [sample_event "a" f1; sample_event "b" (f_of_Z 3)] [sample_event "a" f1] empty_memory).
  intros e He. apply elem_of_cons in He as [->|He]; [left|inversion He].
Defined.

Definition sample_memory : telemetry_memory :=
  on_worker_heartbeat f1 "n2" f0 1000 1000 true (f_of_Z 900)
    (fold_left ingest_event [sample_event "a" (f_of_Z 40)] empty_memory).
Definition sample_bridge : m7_bridge :=
  {| br_memory := sample_memory; br_sound := ltac:(vm_compute; reflexivity) |}.

Lemma advice_bounded_witness :
  exists rs, evaluate_candidates sample_memory (plain_spec "w" "t" []) witness_profiles = Ok rs /\
    od_keys rs = ["n1"; "n2"; "n3"]%string.
Proof.
  destruct (proj1 (advice_bounded sample_memory (plain_spec "w" "t" []) witness_profiles [] [] f1 0 f0
    {| pn_duration_seconds := f1; pn_ram_peak_bytes := 1; pn_failure_probability := f0; pn_confidence := f1 |}
    (br_sound sample_bridge) witness_profiles_distinct)) as (rs & He & Hk & _).
  exists rs. exact (conj He Hk).
Defined.

Lemma sample_penalised_notnan p :
  p ∈ witness_profiles -> notnan (penalised_score sample_bridge witness_env (plain_spec "w" "t" []) p).
Proof.
  intros Hp. unfold witness_profiles in Hp.
  repeat (apply elem_of_cons in Hp as [->|Hp]; [vm_compute; discriminate|]). inversion Hp.
Defined.

Lemma placement_follows_advice_witness :
  exists d, snd (evaluate (Some sample_bridge) witness_env (plain_spec "w" "t" []) witness_profiles) = Some d /\
    pd_selected_worker_id d = "n3"%string /\
    exists p, p ∈ witness_profiles /\ rp_worker_id p = pd_selected_worker_id d.
Proof.
  destruct (snd (evaluate (Some sample_bridge) witness_env (plain_spec "w" "t" []) witness_profiles)) as [d|] eqn:E;
    [|exfalso; vm_compute in E; discriminate].
  exists d. split; [reflexivity|]. split; [vm_compute in E; injection E as <-; reflexivity|].
  destruct (placement_follows_advice sample_bridge witness_env (plain_spec "w" "t" []) witness_profiles d
    witness_profiles_distinct (fun p Hp _ => sample_penalised_notnan p Hp) E) as (p & Hp & Hid & _).
  exists p. exact (conj Hp Hid).
Defined.

(** [on_worker_heartbeat] feeds availabilities to the averages that
    [extract_worker_features] reads as utilisations: a worker at full load and
    without free memory is seen as idle, an idle one as full. *)
Example busy_worker_looks_idle :
  let seen cpu ram := extract_worker_features (plain_profile "n" 4 1024 ∅)
    (get_worker_state "n" (on_worker_heartbeat f1 "n" cpu 1024 ram false f0 empty_memory)) (plain_spec "w" "t" []) in
  wf_cpu_available_ratio (seen (f_of_Z 100) 0) = f1 /\ wf_ram_available_ratio (seen (f_of_Z 100) 0) = f1 /\
  wf_cpu_available_ratio (seen f0 1024) = f0 /\ fst (infer_worker_behavior (seen f0 1024)) = MW_OVERLOADED.
Proof. vm_compute. split_and!; reflexivity. Qed.
