(* ===== verification/Admission.v ===== *)
(** * Admission of queued workloads ([distributed/workload.py], the queue half of [WorkloadOrchestrator])

    [admission] is the state the admission loop shares with the calls that
    enqueue work: the workload registry, the sets [_queued_ids] and
    [_processing_ids], and the dispatch tasks.  A Python set is a list without
    duplicates, in the unspecified order in which it iterates; no theorem
    depends on that order.  One turn of [_admission_queue_loop] is [turn] up to
    its [await], and [refill] when the wait times out; a dispatch task is
    [Running] inside [_process_workload] and [Backoff] in the one-second sleep
    after it.  What [_process_workload] and other requests do to the registry
    is any change of it. *)
From S2P Require Export WorkloadRegistry M7.

Definition STARVATION_PREVENTION_SECONDS : float := f_of_Z 600.

(** ** Priorities *)

Section priorities.
(** [placement_engine.m7_bridge.memory], when there is one. *)
Context (memory : option telemetry_memory).

Definition predicted_duration (spec : workload_spec) : option float * float :=
  match memory ≫= get_workload_state (ws_task_type spec) with
  | Some st =>
      let e := lt_duration_ema st in
      if ema_initialized e && fgt (ema_value e) f0 then (Some (ema_value e), ema_value e)
      else (None, ws_estimated_duration_seconds spec)
  | None => (None, ws_estimated_duration_seconds spec)
  end.

Definition deadline_priority_bonus (spec : workload_spec) (now : float) : float :=
  match ws_deadline_at_utc spec with
  | None => f0
  | Some deadline =>
      let duration := snd (predicted_duration spec) in
      let slack := fsub (fsub deadline now) duration in
      if flt deadline now || fle slack f0 then f_of_Z 100
      else if fle slack (fmul (f_of_Z 10) duration)
           then fmax f0 (fsub (f_of_Z 100) (fmul (fdiv slack (fmax duration f1)) (f_of_Z 10)))
           else f0
  end.

Definition effective_priority (r : workload_record) (now : float) : float :=
  let age_minutes := fdiv (fmax f0 (fsub now (wr_submitted_at r))) (f_of_Z 60) in
  let normalized_priority := fmin (f_of_Z 100) (f_of_Z (ws_priority (wr_spec r))) in
  fadd (fadd normalized_priority (fmin (f_of_Z 100) (fmul age_minutes (f_of_Z 10))))
       (deadline_priority_bonus (wr_spec r) now).

Definition deadline_state (spec : workload_spec) (now : float) : string :=
  match ws_deadline_at_utc spec with
  | None => "none"
  | Some deadline =>
      if flt deadline now then "expired"
      else if fle (fsub deadline now) (snd (predicted_duration spec)) then "approaching" else "future"
  end.

Definition starved (now : float) (r : workload_record) : bool :=
  fge (fsub now (wr_submitted_at r)) STARVATION_PREVENTION_SECONDS.

(** The sort key of the loop: starved workloads oldest first, then the others
    by falling priority; ties by id. *)
Definition admission_key (now : float) (r : workload_record) : float :=
  if starved now r then wr_submitted_at r else fopp (effective_priority r now).
Definition admission_lt (now : float) : workload_record -> workload_record -> bool :=
  flag_lt (starved now) (admission_key now) wr_id.
End priorities.

(** ** The state *)

Inductive task_phase := Running | Backoff.
#[export] Instance task_phase_eq_dec : EqDecision task_phase.
Proof. solve_decision. Defined.

Definition set_add (x : string) (l : list string) : list string := if bool_decide (x ∈ l) then l else l ++ [x].
Definition set_discard (x : string) (l : list string) : list string := List.filter (fun y => negb (String.eqb y x)) l.

Inductive dep_state := D_READY | D_WAITING | D_FAILED.
#[export] Instance dep_state_eq_dec : EqDecision dep_state.
Proof. solve_decision. Defined.

Definition state_value (st : workload_state) : string :=
  match st with
  | SUBMITTED => "submitted" | VALIDATING => "validating" | PLACING => "placing" | PLACED => "placed"
  | SYNCING_ASSETS => "syncing_assets" | READY => "ready" | EXECUTING => "executing"
  | MIGRATING => "migrating" | INGESTING => "ingesting" | COMPLETED => "completed" | FAILED => "failed"
  | TIMEOUT => "timeout" | UNSCHEDULABLE => "unschedulable"
  | CANCELLATION_REQUESTED => "cancellation_requested" | CANCELLED => "cancelled"
  end.

Definition failing_states : list workload_state :=
  [FAILED; UNSCHEDULABLE; TIMEOUT; CANCELLED; CANCELLATION_REQUESTED].
Definition finished_states : list workload_state := [COMPLETED; FAILED; TIMEOUT; UNSCHEDULABLE].

Section admission.
Context {S : Type} `{RecordStore S workload_record}.

Record admission := {
  ad_registry : registry S;
  ad_queued : list string;
  ad_processing : list string;
  ad_tasks : list (string * task_phase);
}.

Definition with_registry (reg : registry S) (a : admission) : admission :=
  {| ad_registry := reg; ad_queued := ad_queued a; ad_processing := ad_processing a; ad_tasks := ad_tasks a |}.
Definition with_queued (q : list string) (a : admission) : admission :=
  {| ad_registry := ad_registry a; ad_queued := q; ad_processing := ad_processing a; ad_tasks := ad_tasks a |}.

(** ** Enqueueing *)

Definition enqueue_workload (wid : string) (a : admission) : admission :=
  if bool_decide (wid ∈ ad_processing a) then a
  else
    match get_workload (ad_registry a) wid with
    | None => a
    | Some r => if bool_decide (wr_state r ∈ finished_states) then a else with_queued (set_add wid (ad_queued a)) a
    end.

Definition submit_workload (now : float) (spec : workload_spec) (a : admission) : admission * res string :=
  match add_workload now spec (ad_registry a) with
  | (reg, Err e) => (with_registry reg a, Err e)
  | (reg, Ok _) => (enqueue_workload (ws_workload_id spec) (with_registry reg a), Ok (ws_workload_id spec))
  end.

Definition enqueue_recovered_workloads (ids : list string) (a : admission) : admission :=
  fold_left (fun a wid => enqueue_workload wid a) ids a.

(** ** Dependencies *)

(** The loop of [_dependency_state] over the dependencies of [wid]; [clock] is
    the reading [update_state] takes. *)
Fixpoint dependency_loop (clock : float) (wid : string) (deps : list string) (reg : registry S)
  : registry S * res dep_state :=
  match deps with
  | [] => (reg, Ok D_READY)
  | d :: deps =>
      match get_workload reg d with
      | None => (reg, Ok D_WAITING)
      | Some r =>
          if bool_decide (wr_state r ∈ failing_states) then
            let '(reg, out) :=
              update_state clock wid FAILED
                (Some ("Dependency " +:+ d +:+ " did not complete successfully (state=" +:+ state_value (wr_state r) +:+ ")"))
                reg in
            (reg, res_map (fun _ => D_FAILED) out)
          else if bool_decide (wr_state r = COMPLETED) then dependency_loop clock wid deps reg
          else (reg, Ok D_WAITING)
      end
  end.
Definition dependency_state (clock : float) (r : workload_record) (reg : registry S) : registry S * res dep_state :=
  dependency_loop clock (wr_id r) (ws_depends_on (wr_spec r)) reg.

(** [[r for r in pending if self._dependency_state(r) == "ready"]]. *)
Fixpoint ready_records (clock : float) (pending : list workload_record) (reg : registry S)
  : registry S * res (list workload_record) :=
  match pending with
  | [] => (reg, Ok [])
  | r :: pending =>
      match dependency_state clock r reg with
      | (reg, Err e) => (reg, Err e)
      | (reg, Ok d) =>
          let '(reg, rest) := ready_records clock pending reg in
          (reg, res_map (fun l => if bool_decide (d = D_READY) then r :: l else l) rest)
      end
  end.

(** [_spec_with_dependency_outputs]. *)
Definition add_inputs (hashes : gset string) (s : workload_spec) : workload_spec :=
  {| ws_workload_id := ws_workload_id s; ws_job_id := ws_job_id s; ws_task_type := ws_task_type s;
     ws_input_asset_hashes := ws_input_asset_hashes s ∪ hashes; ws_min_cpu_cores := ws_min_cpu_cores s;
     ws_min_ram_bytes := ws_min_ram_bytes s; ws_requires_gpu := ws_requires_gpu s;
     ws_min_vram_bytes := ws_min_vram_bytes s; ws_estimated_duration_seconds := ws_estimated_duration_seconds s;
     ws_priority := ws_priority s; ws_deadline_at_utc := ws_deadline_at_utc s;
     ws_required_gpu_vendor := ws_required_gpu_vendor s; ws_required_gpu_model := ws_required_gpu_model s;
     ws_min_compute_capability := ws_min_compute_capability s;
     ws_required_driver_version := ws_required_driver_version s;
     ws_required_runtime_compatibility := ws_required_runtime_compatibility s;
     ws_required_worker_tags := ws_required_worker_tags s;
     ws_preferred_worker_tags := ws_preferred_worker_tags s; ws_affinity_group_id := ws_affinity_group_id s;
     ws_affinity_mode := ws_affinity_mode s; ws_affinity_tag_key := ws_affinity_tag_key s;
     ws_affinity_hard := ws_affinity_hard s; ws_max_cost_per_hour := ws_max_cost_per_hour s;
     ws_depends_on := ws_depends_on s; ws_parameters := ws_parameters s;
     ws_execution_spec := ws_execution_spec s |}.

Definition spec_with_dependency_outputs (reg : registry S) (r : workload_record) : res workload_spec :=
  res_fold (fun spec d =>
              let missing := Err (ValueError ("Dependency " +:+ d +:+ " has no successful result")) in
              match get_workload reg d with
              | None => missing
              | Some dep =>
                  match wr_execution_result dep with
                  | Some x =>
                      if bool_decide (wr_state dep = COMPLETED) && er_success x
                      then Ok (add_inputs (er_output_asset_hashes x) spec) else missing
                  | None => missing
                  end
              end) (wr_spec r) (ws_depends_on (wr_spec r)).

(** ** One turn of the loop *)

Definition is_submitted (reg : registry S) (wid : string) : bool :=
  match get_workload reg wid with Some r => bool_decide (wr_state r = SUBMITTED) | None => false end.

Definition pending_records (a : admission) : list workload_record :=
  List.filter (fun r => bool_decide (wr_state r = SUBMITTED) && negb (bool_decide (wr_id r ∈ ad_processing a)))
    (omap (get_workload (ad_registry a)) (ad_queued a)).

(** The [while pending] loop: the ids dispatched, in order. *)
Fixpoint dispatch_loop (max_dispatch_tasks : Z) (pending : list workload_record) (a : admission)
  : admission * list string :=
  match pending with
  | [] => (a, [])
  | r :: pending =>
      if Z.of_nat (length (ad_processing a)) <? max_dispatch_tasks then
        let wid := wr_id r in
        let '(a, ids) :=
          dispatch_loop max_dispatch_tasks pending
            {| ad_registry := ad_registry a; ad_queued := set_discard wid (ad_queued a);
               ad_processing := set_add wid (ad_processing a); ad_tasks := ad_tasks a ++ [(wid, Running)] |} in
        (a, wid :: ids)
      else (a, [])
  end.

Definition turn (memory : option telemetry_memory) (max_dispatch_tasks : Z) (now clock : float) (a : admission)
  : admission * res (list string) :=
  if bool_decide (ad_queued a = []) && bool_decide (ad_processing a = []) then (a, Ok [])
  else
    match ready_records clock (pending_records a) (ad_registry a) with
    | (reg, Err e) => (with_registry reg a, Err e)
    | (reg, Ok pending) =>
        let a := {| ad_registry := reg; ad_queued := List.filter (is_submitted reg) (ad_queued a);
                    ad_processing := ad_processing a; ad_tasks := ad_tasks a |} in
        let '(a, ids) := dispatch_loop max_dispatch_tasks (isort (admission_lt memory now) pending) a in
        (a, Ok ids)
    end.

(** The timeout branch. *)
Definition refill (a : admission) : admission :=
  with_queued
    (fold_left (fun q r => if bool_decide (wr_state r = SUBMITTED) && negb (bool_decide (wr_id r ∈ ad_processing a))
                           then set_add (wr_id r) q else q)
       (list_workloads (ad_registry a)) (ad_queued a)) a.

(** ** Dispatch tasks: the [finally] of [_run_queued_workload] *)

Definition drop_task (wid : string) (a : admission) : admission :=
  {| ad_registry := ad_registry a; ad_queued := ad_queued a;
     ad_processing := set_discard wid (ad_processing a);
     ad_tasks := List.filter (fun t => negb (String.eqb (fst t) wid)) (ad_tasks a) |}.

Definition task_returns (wid : string) (cancelled : bool) (a : admission) : admission :=
  if is_submitted (ad_registry a) wid && negb cancelled then
    {| ad_registry := ad_registry a; ad_queued := set_add wid (ad_queued a); ad_processing := ad_processing a;
       ad_tasks := map (fun t => if String.eqb (fst t) wid then (wid, Backoff) else t) (ad_tasks a) |}
  else drop_task wid a.

Inductive aevent :=
| ASubmit (now : float) (spec : workload_spec)
| AEnqueue (wid : string)
| ATurn (now clock : float)
| ARefill
| AReturn (wid : string) (cancelled : bool)
| AWake (wid : string)
| ARegistry (reg : registry S).

(** One step; the ids it dispatched. *)
Definition astep (memory : option telemetry_memory) (max_dispatch_tasks : Z) (e : aevent) (a : admission)
  : option (admission * list string) :=
  match e with
  | ASubmit now spec => Some (fst (submit_workload now spec a), [])
  | AEnqueue wid => Some (enqueue_workload wid a, [])
  | ATurn now clock =>
      match turn memory max_dispatch_tasks now clock a with
      | (a, Ok ids) => Some (a, ids)
      | (a, Err _) => Some (a, [])
      end
  | ARefill => Some (refill a, [])
  | AReturn wid cancelled =>
      if bool_decide ((wid, Running) ∈ ad_tasks a) then Some (task_returns wid cancelled a, []) else None
  | AWake wid => if bool_decide ((wid, Backoff) ∈ ad_tasks a) then Some (drop_task wid a, []) else None
  | ARegistry reg => Some (with_registry reg a, [])
  end.

(** ** [queue_snapshot] *)

Record queue_row := {
  qr_workload_id : string;
  qr_dispatching : bool;
  qr_priority : Z;
  qr_normalized_priority : Z;
  qr_effective_priority : float;
  qr_deadline_priority_bonus : float;
  qr_submitted_at : float;
  qr_deadline_at_utc : option float;
  qr_deadline_state : string;
  qr_predicted_duration_seconds : option float;
  qr_starvation_override : bool;
  qr_queued : bool;
  qr_queue_position : option Z;
}.
(** [row["state"]]: ["dispatching"] or ["pending"]. *)
Definition qr_pending (row : queue_row) : bool := negb (qr_dispatching row).

Definition queue_row_of (memory : option telemetry_memory) (now : float) (a : admission) (r : workload_record)
  : queue_row :=
  let spec := wr_spec r in
  {| qr_workload_id := wr_id r; qr_dispatching := bool_decide (wr_id r ∈ ad_processing a);
     qr_priority := ws_priority spec; qr_normalized_priority := Z.min 100 (ws_priority spec);
     qr_effective_priority := effective_priority memory r now;
     qr_deadline_priority_bonus := deadline_priority_bonus memory spec now;
     qr_submitted_at := wr_submitted_at r; qr_deadline_at_utc := ws_deadline_at_utc spec;
     qr_deadline_state := deadline_state memory spec now;
     qr_predicted_duration_seconds := fst (predicted_duration memory spec);
     qr_starvation_override := starved now r; qr_queued := bool_decide (wr_id r ∈ ad_queued a);
     qr_queue_position := None |}.

(** [(0, submitted_at, id)] or [(1, -effective_priority, submitted_at, id)]. *)
Definition row_lt (a b : queue_row) : bool :=
  if Bool.eqb (qr_starvation_override a) (qr_starvation_override b) then
    let by_age := fkey_lt qr_submitted_at qr_workload_id a b in
    if qr_starvation_override a then by_age
    else let pa := fopp (qr_effective_priority a) in
         let pb := fopp (qr_effective_priority b) in
         if feq pa pb then by_age else flt pa pb
  else qr_starvation_override a.

Definition with_position (n : option Z) (row : queue_row) : queue_row :=
  {| qr_workload_id := qr_workload_id row; qr_dispatching := qr_dispatching row; qr_priority := qr_priority row;
     qr_normalized_priority := qr_normalized_priority row; qr_effective_priority := qr_effective_priority row;
     qr_deadline_priority_bonus := qr_deadline_priority_bonus row; qr_submitted_at := qr_submitted_at row;
     qr_deadline_at_utc := qr_deadline_at_utc row; qr_deadline_state := qr_deadline_state row;
     qr_predicted_duration_seconds := qr_predicted_duration_seconds row;
     qr_starvation_override := qr_starvation_override row; qr_queued := qr_queued row; qr_queue_position := n |}.

Fixpoint number_rows (pending_index : Z) (rows : list queue_row) : list queue_row :=
  match rows with
  | [] => []
  | row :: rows =>
      if qr_pending row then with_position (Some (pending_index + 1)) row :: number_rows (pending_index + 1) rows
      else with_position None row :: number_rows pending_index rows
  end.

Definition queue_snapshot (memory : option telemetry_memory) (now : float) (workload_id : option string)
    (a : admission) : list queue_row :=
  let shown r := bool_decide (wr_state r = SUBMITTED) || bool_decide (wr_id r ∈ ad_processing a) in
  let rows := map (queue_row_of memory now a) (List.filter shown (list_workloads (ad_registry a))) in
  List.filter (fun row => match workload_id with None => true | Some w => String.eqb (qr_workload_id row) w end)
    (number_rows 0 (isort row_lt rows)).
End admission.
Arguments admission S : clear implicits.

(** ** Sets as lists *)

Lemma set_add_elem x y l : y ∈ set_add x l <-> y = x \/ y ∈ l.
Proof. unfold set_add. case_bool_decide; [naive_solver|]. rewrite elem_of_app, list_elem_of_singleton. tauto. Qed.
Lemma set_add_NoDup x l : NoDup l -> NoDup (set_add x l).
Proof.
  unfold set_add. case_bool_decide as Hx; [done|]. intros Hn. apply NoDup_app. split_and!; [done| |apply NoDup_singleton].
  intros y Hy ->%list_elem_of_singleton. done.
Qed.
Lemma filter_NoDup {A} (p : A -> bool) l : NoDup l -> NoDup (List.filter p l).
Proof. intros Hn. apply NoDup_ListNoDup, List.NoDup_filter. by apply NoDup_ListNoDup. Qed.
Lemma set_discard_elem x y l : y ∈ set_discard x l <-> y ∈ l /\ y <> x.
Proof.
  unfold set_discard. rewrite !list_elem_of_In, filter_In. by destruct (String.eqb_spec y x); simpl; intuition congruence.
Qed.
Lemma set_discard_map {A} (x : string) (l : list (string * A)) :
  set_discard x (map fst l) = map fst (List.filter (fun t => negb (String.eqb (fst t) x)) l).
Proof.
  unfold set_discard. induction l as [|[y a] l IH]; [done|]. simpl.
  destruct (String.eqb y x); simpl; by rewrite ?IH.
Qed.
Lemma set_discard_length x l : (length (set_discard x l) <= length l)%nat.
Proof. apply filter_length_le. Qed.

(** ** Dependencies *)

Section admission_proofs.
Context {S : Type} `{RecordStore S workload_record}.
Implicit Types reg : registry S.
Implicit Types a : admission S.

Definition completed reg (wid : string) : Prop :=
  exists r, get_workload reg wid = Some r /\ wr_state r = COMPLETED.
Definition broken reg (wid : string) : Prop :=
  exists r, get_workload reg wid = Some r /\ wr_state r ∈ failing_states.
Definition ready reg (r : workload_record) : Prop := forall d, d ∈ ws_depends_on (wr_spec r) -> completed reg d.

#[export] Instance completed_dec reg wid : Decision (completed reg wid).
Proof.
  unfold completed. destruct (get_workload reg wid) as [r|]; [|right; naive_solver].
  destruct (decide (wr_state r = COMPLETED)); [left; eauto|right; naive_solver].
Defined.
#[export] Instance ready_dec reg r : Decision (ready reg r).
Proof.
  unfold ready. destruct (decide (Forall (completed reg) (ws_depends_on (wr_spec r)))) as [Hf|Hf];
    rewrite Forall_forall in Hf; [by left|by right].
Defined.

(** [reg'] is [reg] with one workload marked FAILED. *)
Definition fails_one reg reg' (wid : string) : Prop :=
  exists r r', get_workload reg wid = Some r /\
    wr_spec r' = wr_spec r /\ wr_submitted_at r' = wr_submitted_at r /\ wr_state r' = FAILED /\
    forall k, get_workload reg' k = if String.eqb k wid then Some r' else get_workload reg k.

Lemma update_state_fails now wid msg reg :
  wf reg -> is_Some (get_workload reg wid) -> fails_one reg (fst (update_state now wid FAILED msg reg)) wid.
Proof.
  intros [_ Hk] [r E]. exists r, (apply_state now FAILED msg r). split_and!; try done.
  intros k. unfold update_state, modify. rewrite E, get_workload_commit.
  assert (wr_id (apply_state now FAILED msg r) = wid) as -> by exact (Hk _ _ E). done.
Qed.

Lemma update_state_wf now wid st msg reg : wf reg -> wf (fst (update_state now wid st msg reg)).
Proof.
  intros Hwf. unfold update_state, modify. destruct (get_workload reg wid); [|done]. by apply commit_wf.
Qed.

(** The dependency loop either leaves the registry alone or, having met a
    broken dependency, marks the workload FAILED; it answers "ready" exactly
    when every dependency has completed. *)
Lemma dependency_loop_cases clock wid deps reg :
  wf reg -> is_Some (get_workload reg wid) ->
  let '(reg', out) := dependency_loop clock wid deps reg in
  (out = Ok D_READY <-> forall d, d ∈ deps -> completed reg d) /\ wf reg' /\
  (reg' = reg \/ (fails_one reg reg' wid /\ exists d, d ∈ deps /\ broken reg d)).
Proof.
  intros Hwf Hwid. induction deps as [|d deps IH]; cbn [dependency_loop].
  { split_and!; [|done|by left]. split; [|done]. by intros _ d Hd%not_elem_of_nil. }
  destruct (get_workload reg d) as [r|] eqn:E.
  2: { split_and!; [|done|by left]. split; [done|]. intros Hall.
       destruct (Hall d ltac:(left)) as (r & Hr & _). congruence. }
  case_bool_decide as Hfail.
  - set (msg := Some _).
    pose proof (update_state_fails clock wid msg reg Hwf Hwid) as Hf.
    pose proof (update_state_wf clock wid FAILED msg reg Hwf) as Hw.
    destruct (update_state _ _ _ _ _) as [reg' out]. simpl in Hf, Hw. split_and!; [|done|].
    + split; [destruct out; done|]. intros Hall.
      destruct (Hall d ltac:(left)) as (r' & Hr & Hst). simplify_eq. by rewrite Hst in Hfail; vm_compute in Hfail; set_solver.
    + right. split; [done|]. exists d. split; [left|by exists r].
  - case_bool_decide as Hcomp.
    + destruct (dependency_loop clock wid deps reg) as [reg' out]. destruct IH as (Hiff & Hw & Hreg).
      split_and!; [|done|].
      * rewrite Hiff. setoid_rewrite elem_of_cons. split; [|naive_solver]. intros Hall d' [->|Hd']; [by exists r|auto].
      * destruct Hreg as [->|(Hf & d' & Hd' & Hb)]; [by left|]. right. split; [done|]. exists d'. split; [by right|done].
    + split_and!; [|done|by left]. split; [done|]. intros Hall.
      destruct (Hall d ltac:(left)) as (r' & Hr & Hst). congruence.
Qed.

(** The pending list: filed, submitted, distinct. *)
Definition pending_ok reg (l : list workload_record) : Prop :=
  NoDup (map wr_id l) /\
  forall r, r ∈ l -> get_workload reg (wr_id r) = Some r /\ wr_state r = SUBMITTED.

Lemma fails_one_completed reg reg' wid k :
  fails_one reg reg' wid -> ~ completed reg wid -> completed reg' k <-> completed reg k.
Proof.
  intros (r & r' & Hr & _ & _ & Hst & Hget) Hn. unfold completed. rewrite Hget.
  destruct (String.eqb_spec k wid) as [->|]; [|done]. split; [naive_solver congruence|].
  intros Hc. by destruct Hn.
Qed.

(** What the ready filter did: it kept the ready workloads, in order, and
    marked FAILED only pending workloads. *)
Lemma ready_records_spec clock pending reg reg' l :
  wf reg -> pending_ok reg pending -> ready_records clock pending reg = (reg', Ok l) ->
  wf reg' /\ l = List.filter (fun r => bool_decide (ready reg r)) pending /\
  (forall k, completed reg' k <-> completed reg k) /\
  forall k, get_workload reg' k = get_workload reg k \/
    exists r r', r ∈ pending /\ wr_id r = k /\ ~ ready reg r /\
      get_workload reg' k = Some r' /\ wr_state r' = FAILED /\ wr_spec r' = wr_spec r.
Proof.
  revert reg reg' l. induction pending as [|r pending IH]; intros reg reg' l Hwf [Hnd Hp] E; cbn [ready_records] in E.
  { injection E as <- <-. split_and!; try done. intros k. by left. }
  apply NoDup_cons in Hnd as [Hnr Hnd]. destruct (Hp r ltac:(left)) as [Hr Hsub].
  pose proof (dependency_loop_cases clock (wr_id r) (ws_depends_on (wr_spec r)) reg Hwf (mk_is_Some _ _ Hr)) as Hd.
  unfold dependency_state in E. destruct (dependency_loop _ _ _ _) as [reg1 [d|e]]; [|done].
  destruct Hd as (Hiff & Hwf1 & Hreg).
  assert (~ completed reg (wr_id r)) as Hnc by (intros (r2 & Hr2 & Hst); congruence).
  assert (forall k, completed reg1 k <-> completed reg k) as Hc1.
  { intros k. destruct Hreg as [->|[Hf _]]; [done|]. by apply (fails_one_completed _ _ (wr_id r)). }
  assert (forall x, x ∈ pending -> get_workload reg1 (wr_id x) = get_workload reg (wr_id x)) as Hsame.
  { intros x Hx. destruct Hreg as [->|[(?&?&?&?&?&?&Hget) _]]; [done|]. rewrite Hget.
    destruct (String.eqb_spec (wr_id x) (wr_id r)) as [Heq|]; [|done].
    destruct Hnr. rewrite <- Heq. by apply list_elem_of_fmap_2. }
  assert (pending_ok reg1 pending) as Hp1.
  { split; [done|]. intros x Hx. rewrite Hsame by done. apply Hp. by right. }
  destruct (ready_records clock pending reg1) as [reg2 [l2|e]] eqn:E2; [|done]. injection E as <- <-.
  destruct (IH reg1 reg2 l2 Hwf1 Hp1 E2) as (Hwf2 & -> & Hc2 & Hget2).
  assert (forall x, ready reg1 x <-> ready reg x) as Hrdx by (intros x; unfold ready; by setoid_rewrite Hc1).
  assert (forall x, bool_decide (ready reg1 x) = bool_decide (ready reg x)) as Hrd
    by (intros x; by apply bool_decide_ext).
  assert (D_READY = d <-> ready reg r) as Hd by (unfold ready; rewrite <- Hiff; naive_solver).
  split_and!; [done| | |].
  - simpl. rewrite (List.filter_ext _ _ Hrd).
    destruct (decide (ready reg r)) as [Hy|Hn].
    + rewrite !bool_decide_eq_true_2 by (tauto || (symmetry; tauto)). done.
    + rewrite !bool_decide_eq_false_2 by (tauto || (intros ->; tauto)). done.
  - intros k. by rewrite Hc2.
  - intros k. destruct (Hget2 k) as [Hk|(x & x' & Hx & Hid & Hnrd & Hrest)].
    + rewrite Hk. destruct Hreg as [->|[(r0&r1&Hr0&Hsp&_&Hst&Hget) (d' & Hd' & rb & Hrb & Hbst)]]; [by left|].
      rewrite Hget. destruct (String.eqb_spec k (wr_id r)) as [->|]; [|by left]. right. exists r, r1.
      split_and!; [left|done| |done|done|congruence].
      intros Hrd'. destruct (Hrd' d' Hd') as (rb' & Hrb' & Hst'). simplify_eq. rewrite Hst' in Hbst.
      clear -Hbst. unfold failing_states in Hbst. set_solver.
    + right. exists x, x'. split_and!; [by right|done|by rewrite <- Hrdx|tauto..].
Qed.

(** ** Dispatching *)

Lemma set_add_fresh x l : x ∉ l -> set_add x l = l ++ [x].
Proof. intros Hx. unfold set_add. by rewrite bool_decide_eq_false_2. Qed.

(** The loop dispatches the first records of the list, one per free slot. *)
Lemma dispatch_loop_spec max pending a :
  NoDup (map wr_id pending) -> (forall r, r ∈ pending -> wr_id r ∉ ad_processing a) ->
  let '(a', ids) := dispatch_loop max pending a in
  ids = map wr_id (take (Z.to_nat (max - Z.of_nat (length (ad_processing a)))) pending) /\
  ad_registry a' = ad_registry a /\ ad_processing a' = ad_processing a ++ ids /\
  ad_tasks a' = ad_tasks a ++ map (fun wid => (wid, Running)) ids /\
  (forall wid, wid ∈ ad_queued a' <-> wid ∈ ad_queued a /\ wid ∉ ids) /\
  (NoDup (ad_queued a) -> NoDup (ad_queued a')).
Proof.
  revert a. induction pending as [|r pending IH]; intros a Hnd Hp; cbn [dispatch_loop].
  { rewrite take_nil. simpl. rewrite !app_nil_r. split_and!; try done. intros wid. set_solver. }
  apply NoDup_cons in Hnd as [Hnr Hnd].
  destruct (Z.ltb_spec (Z.of_nat (length (ad_processing a))) max) as [Hlt|Hge].
  2: { replace (Z.to_nat _) with 0%nat by lia. simpl. rewrite !app_nil_r. split_and!; try done. intros wid. set_solver. }
  assert (wr_id r ∉ ad_processing a) as Hfresh by (apply Hp; left).
  set (a1 := {| ad_registry := ad_registry a |}).
  specialize (IH a1 Hnd). destruct (dispatch_loop max pending a1) as [a2 ids].
  destruct IH as (Hids & Hreg & Hproc & Htasks & Hq & Hnq).
  { intros x Hx. simpl. rewrite set_add_elem. intros [Heq|Hin].
    - apply Hnr. rewrite <- Heq. by apply list_elem_of_fmap_2.
    - by apply (Hp x); [right|]. }
  simpl in Hids, Hreg, Hproc, Htasks, Hq, Hnq. rewrite set_add_fresh in * by done.
  rewrite length_app in Hids. simpl in Hids.
  destruct (Z.to_nat (max - Z.of_nat (length (ad_processing a)))) as [|n] eqn:En; [lia|].
  replace (Z.to_nat _) with n in Hids by lia. rewrite Hids in *. simpl.
  split_and!; [done..| | | |].
  - by rewrite Hproc, <- app_assoc.
  - by rewrite Htasks, <- app_assoc.
  - intros wid. rewrite Hq, set_discard_elem, not_elem_of_cons. tauto.
  - intros Hn. by apply Hnq, filter_NoDup.
Qed.

(** The invariant of the loop's state. *)
Definition admission_inv (max : Z) a : Prop :=
  wf (ad_registry a) /\ NoDup (ad_queued a) /\ NoDup (ad_processing a) /\
  ad_processing a = map fst (ad_tasks a) /\ Z.of_nat (length (ad_processing a)) <= max.

Lemma omap_filed reg l : (forall k r, get_workload reg k = Some r -> wr_id r = k) -> NoDup l ->
  NoDup (map wr_id (omap (get_workload reg) l)) /\
  forall r, r ∈ omap (get_workload reg) l -> get_workload reg (wr_id r) = Some r /\ wr_id r ∈ l.
Proof.
  intros Hk Hnd.
  assert (forall r, r ∈ omap (get_workload reg) l -> get_workload reg (wr_id r) = Some r /\ wr_id r ∈ l) as Hel.
  { intros r (k & Hin & Hr)%list_elem_of_omap. pose proof (Hk _ _ Hr) as Hid. subst k. done. }
  split; [|done]. induction Hnd as [|k l Hn Hnd IH]; [constructor|]. cbn [omap list_omap] in *.
  destruct (get_workload reg k) as [r|] eqn:E.
  - simpl. apply NoDup_cons. split.
    + rewrite (Hk _ _ E). intros Hin. apply list_elem_of_fmap in Hin as (x & -> & Hx).
      apply Hn. apply list_elem_of_omap in Hx as (k' & Hk' & Hx). by rewrite (Hk _ _ Hx).
    + apply IH. intros x (k' & Hin & Hx)%list_elem_of_omap. rewrite (Hk _ _ Hx). done.
  - apply IH. intros x (k' & Hin & Hx)%list_elem_of_omap. rewrite (Hk _ _ Hx). done.
Qed.

Lemma NoDup_map_filter {A B} (f : A -> B) (p : A -> bool) l : NoDup (map f l) -> NoDup (map f (List.filter p l)).
Proof.
  induction l as [|x l IH]; simpl; [done|]. intros [Hn Hnd]%NoDup_cons.
  destruct (p x); [|by apply IH]. simpl. apply NoDup_cons. split; [|by apply IH].
  intros Hin. apply Hn. apply list_elem_of_fmap in Hin as (y & -> & Hy).
  apply list_elem_of_fmap_2. apply list_elem_of_In, filter_In in Hy as [Hy _]. by apply list_elem_of_In.
Qed.

Lemma pending_records_ok max a :
  admission_inv max a ->
  pending_ok (ad_registry a) (pending_records a) /\
  forall r, r ∈ pending_records a -> (wr_id r ∉ ad_processing a) /\ wr_id r ∈ ad_queued a.
Proof.
  intros ([_ Hk] & Hnq & _). destruct (omap_filed _ _ Hk Hnq) as [Hnd Hel]. unfold pending_records.
  assert (forall r, r ∈ List.filter (fun r => bool_decide (wr_state r = SUBMITTED) && negb (bool_decide (wr_id r ∈ ad_processing a)))
            (omap (get_workload (ad_registry a)) (ad_queued a)) ->
          r ∈ omap (get_workload (ad_registry a)) (ad_queued a) /\ wr_state r = SUBMITTED /\ wr_id r ∉ ad_processing a) as Hf.
  { intros r Hr. apply list_elem_of_In, filter_In in Hr as [Hr Hb]. apply list_elem_of_In in Hr.
    apply andb_true_iff in Hb as [Hs Hn]. apply negb_true_iff in Hn.
    split_and!; [done|by apply bool_decide_eq_true in Hs|by apply bool_decide_eq_false in Hn]. }
  split; [split|].
  - by apply NoDup_map_filter.
  - intros r (Hin & Hs & _)%Hf. split; [by apply Hel|done].
  - intros r (Hin & _ & Hn)%Hf. split; [done|by apply Hel].
Qed.

(** ** One turn *)

Lemma dependency_loop_wf clock wid deps reg : wf reg -> wf (fst (dependency_loop clock wid deps reg)).
Proof.
  intros Hwf. induction deps as [|d deps IH]; cbn [dependency_loop]; [done|].
  destruct (get_workload reg d); [|done]. case_bool_decide; [|by case_bool_decide].
  set (msg := Some _). pose proof (update_state_wf clock wid FAILED msg reg Hwf) as Hw.
  by destruct (update_state _ _ _ _ _).
Qed.

Lemma ready_records_wf clock pending reg : wf reg -> wf (fst (ready_records clock pending reg)).
Proof.
  revert reg. induction pending as [|r pending IH]; intros reg Hwf; cbn [ready_records]; [done|].
  pose proof (dependency_loop_wf clock (wr_id r) (ws_depends_on (wr_spec r)) reg Hwf) as Hw.
  unfold dependency_state. destruct (dependency_loop _ _ _ _) as [reg1 [d|e]]; [|done].
  specialize (IH reg1 Hw). by destruct (ready_records clock pending reg1).
Qed.

(** The ready workloads of a state, in the order of the loop. *)
Definition ready_queue (memory : option telemetry_memory) (now : float) a : list workload_record :=
  isort (admission_lt memory now) (List.filter (fun r => bool_decide (ready (ad_registry a) r)) (pending_records a)).
Definition free_slots (max : Z) a : nat := Z.to_nat (max - Z.of_nat (length (ad_processing a))).

Lemma ready_queue_elem memory now a r :
  r ∈ ready_queue memory now a <-> r ∈ pending_records a /\ ready (ad_registry a) r.
Proof.
  unfold ready_queue. rewrite isort_elem, list_elem_of_In, filter_In, <- list_elem_of_In, bool_decide_eq_true. done.
Qed.

Lemma ready_queue_NoDup memory now max a : admission_inv max a -> NoDup (map wr_id (ready_queue memory now a)).
Proof.
  intros Hinv. destruct (pending_records_ok _ _ Hinv) as [[Hnd _] _]. unfold ready_queue.
  rewrite (Permutation_map wr_id (isort_perm _ _)). by apply NoDup_map_filter.
Qed.

Lemma turn_spec memory max now clock a a' ids :
  admission_inv max a -> turn memory max now clock a = (a', Ok ids) ->
  ids = map wr_id (take (free_slots max a) (ready_queue memory now a)) /\
  wf (ad_registry a') /\ ad_processing a' = ad_processing a ++ ids /\
  ad_tasks a' = ad_tasks a ++ map (fun wid => (wid, Running)) ids /\ NoDup (ad_queued a').
Proof.
  intros Hinv. pose proof Hinv as (Hwf & Hnq & Hnp & Htasks & Hlen). unfold turn.
  case_bool_decide as Hq; [case_bool_decide as Hp|]; simpl.
  1: { intros [= <- <-]. assert (ready_queue memory now a = []) as ->.
       { unfold ready_queue, pending_records. by rewrite Hq. }
       rewrite take_nil. simpl. rewrite !app_nil_r. done. }
  all: destruct (pending_records_ok _ _ Hinv) as [Hpok Hpin];
    destruct (ready_records clock (pending_records a) (ad_registry a)) as [reg [pending|e]] eqn:E; [|done];
    destruct (ready_records_spec _ _ _ _ _ Hwf Hpok E) as (Hwf' & -> & _);
    fold (ready_queue memory now a); set (a1 := {| ad_registry := reg |});
    pose proof (dispatch_loop_spec max (ready_queue memory now a) a1 (ready_queue_NoDup memory now max a Hinv)) as Hd;
    destruct (dispatch_loop max (ready_queue memory now a) a1) as [a2 ids2]; intros [= <- <-];
    destruct Hd as (Hids & Hreg & Hproc & Ht & _ & Hnq2);
    [intros r [Hr _]%ready_queue_elem; by apply Hpin|];
    split_and!; [done|by rewrite Hreg|done|done|apply Hnq2; by apply filter_NoDup].
Qed.

Lemma turn_err memory max now clock a a' e :
  admission_inv max a -> turn memory max now clock a = (a', Err e) -> admission_inv max a'.
Proof.
  intros (Hwf & Hrest) E. unfold turn in E. destruct (_ && _); [done|].
  pose proof (ready_records_wf clock (pending_records a) (ad_registry a) Hwf) as Hw.
  destruct (ready_records _ _ _) as [reg [pending|e']]; [by destruct (dispatch_loop _ _ _)|].
  injection E as <- <-. by split.
Qed.

(** ** The invariant *)

Definition allowed (e : @aevent S) : Prop := match e with ARegistry reg => wf reg | _ => True end.

Inductive areach (memory : option telemetry_memory) (max : Z) : admission S -> Prop :=
| areach_start reg : wf reg ->
    areach memory max {| ad_registry := reg; ad_queued := []; ad_processing := []; ad_tasks := [] |}
| areach_step a e a' ids :
    areach memory max a -> allowed e -> astep memory max e a = Some (a', ids) -> areach memory max a'.

Lemma with_queued_inv max q a : admission_inv max a -> NoDup q -> admission_inv max (with_queued q a).
Proof. intros (?&?&?) ?. by split. Qed.

Lemma enqueue_inv max wid a : admission_inv max a -> admission_inv max (enqueue_workload wid a).
Proof.
  intros Hinv. unfold enqueue_workload. case_bool_decide; [done|]. destruct (get_workload _ _); [|done].
  case_bool_decide; [done|]. apply with_queued_inv; [done|]. by apply set_add_NoDup, Hinv.
Qed.

Lemma refill_inv max a : admission_inv max a -> admission_inv max (refill a).
Proof.
  intros Hinv. apply with_queued_inv; [done|]. pose proof (proj1 (proj2 Hinv)) as Hnd. revert Hnd.
  generalize (list_workloads (ad_registry a)) (ad_queued a). intros l. induction l as [|r l IH]; intros q Hq; simpl; [done|].
  apply IH. destruct (_ && _); [by apply set_add_NoDup|done].
Qed.

Lemma drop_task_inv max wid a : admission_inv max a -> admission_inv max (drop_task wid a).
Proof.
  intros (Hwf & Hq & Hp & Ht & Hl). unfold admission_inv. simpl. split_and!; [done|done|by apply filter_NoDup| |].
  - rewrite Ht. apply set_discard_map.
  - pose proof (set_discard_length wid (ad_processing a)). lia.
Qed.

Lemma turn_inv memory max now clock a a' ids :
  admission_inv max a -> turn memory max now clock a = (a', Ok ids) -> admission_inv max a'.
Proof.
  intros Hinv E. destruct (turn_spec _ _ _ _ _ _ _ Hinv E) as (Hids & Hwf & Hproc & Htasks & Hnq).
  pose proof Hinv as (_ & _ & Hnp & Ht & Hl). destruct (pending_records_ok _ _ Hinv) as [_ Hpin].
  pose proof (ready_queue_NoDup memory now max a Hinv) as Hnd.
  assert (NoDup ids) as Hni.
  { rewrite <- (take_drop (free_slots max a) (ready_queue memory now a)), map_app in Hnd.
    rewrite Hids. by apply NoDup_app in Hnd as [? _]. }
  assert (length ids <= free_slots max a)%nat as Hli
    by (rewrite Hids, length_map, length_take; lia).
  split_and!; [done|done| | |].
  - rewrite Hproc. apply NoDup_app. split_and!; [done| |done]. intros k Hk Hk'. rewrite Hids in Hk'.
    apply list_elem_of_fmap in Hk' as (r & -> & Hr). apply (subseteq_take _ _) in Hr.
    apply ready_queue_elem in Hr as [Hr _]. by apply (Hpin r Hr).
  - rewrite Hproc, Htasks, map_app, Ht. f_equal. rewrite map_map. by rewrite map_id.
  - rewrite Hproc, length_app. unfold free_slots in Hli. lia.
Qed.

Lemma astep_inv memory max e a a' ids :
  admission_inv max a -> allowed e -> astep memory max e a = Some (a', ids) -> admission_inv max a'.
Proof.
  intros Hinv Hal. destruct e as [now spec|wid|now clock| |wid c|wid|reg]; cbn [astep].
  - intros [= <- _]. unfold submit_workload.
    pose proof (add_workload_wf now spec (ad_registry a) (proj1 Hinv)) as Hw.
    destruct (add_workload _ _ _) as [reg [r|x]]; simpl; [apply enqueue_inv|]; split; (done || apply Hinv).
  - intros [= <- _]. by apply enqueue_inv.
  - destruct (turn memory max now clock a) as [a1 [ids1|x]] eqn:E; intros [= <- _]; [by eapply turn_inv|by eapply turn_err].
  - intros [= <- _]. by apply refill_inv.
  - case_bool_decide; [|done]. intros [= <- _]. unfold task_returns. destruct (_ && _); [|by apply drop_task_inv].
    destruct Hinv as (? & ? & ? & Ht & ?). unfold admission_inv. simpl. split_and!; [done|by apply set_add_NoDup|done| |done].
    rewrite Ht, map_map. apply map_ext. intros [k ph]. simpl. by destruct (String.eqb_spec k wid).
  - case_bool_decide; [|done]. intros [= <- _]. by apply drop_task_inv.
  - intros [= <- _]. split; [done|apply Hinv].
Qed.

Lemma areach_inv memory max a : 0 <= max -> areach memory max a -> admission_inv max a.
Proof.
  intros Hmax. induction 1 as [reg Hwf|a e a' ids _ IH Hal Hst]; [|by eapply astep_inv].
  split_and!; simpl; try done; constructor.
Qed.
End admission_proofs.
