(* ===== verification/StateStore.v ===== *)
(** * The coordinator's database ([distributed/state_store.py])

    One table per entity, a row per record, keyed by the record's id; each
    column has the type SQLite gives it.  A REAL column keeps every number but
    NaN, which becomes NULL (and is refused where the column is NOT NULL); an
    INTEGER column holds 64 bits, and a larger number raises.  Enumerations are
    stored as their text and looked up again on load.  The JSON a Pydantic model
    dumps is a parameter ([Pydantic]); the few texts written with [json.dumps]
    are kept as the value they denote, [None] standing for a text that does not
    decode.  A row that cannot be converted is skipped on load, alone.

    [updated_at] is written and never read, and is left out; so are the schema
    migrations, the file lock that keeps a second coordinator out, and the
    closed store, whose methods do nothing. *)
From S2P Require Export Redaction ArtifactRegistry JobRegistry AttemptRegistry WorkerRegistry WorkloadRegistry Admission.

(** ** Columns *)

(** [enum.value], and [Enum(text)], which raises for an unknown text. *)
Section enums.
Context {A : Type} (values : list A) (text : A -> string).
Definition enum_of (s : string) : option A := List.find (fun a => String.eqb (text a) s) values.
End enums.

Definition workload_states : list workload_state :=
  [SUBMITTED; VALIDATING; PLACING; PLACED; SYNCING_ASSETS; READY; EXECUTING; MIGRATING; INGESTING; COMPLETED; FAILED;
   TIMEOUT; UNSCHEDULABLE; CANCELLATION_REQUESTED; CANCELLED].
Definition policy_value (p : completion_policy) : string :=
  match p with
  | ALL_REQUIRED => "all_required" | ANY_SUCCESS => "any_success" | THRESHOLD => "threshold"
  | BEST_EFFORT => "best_effort"
  end.
Definition policies : list completion_policy := [ALL_REQUIRED; ANY_SUCCESS; THRESHOLD; BEST_EFFORT].
Definition shape_value (s : execution_shape) : string :=
  match s with
  | SINGLE_MACHINE => "single_machine" | TASK_SPLIT => "task_split" | PIPELINE => "pipeline"
  | DISTRIBUTED_NATIVE => "distributed_native"
  end.
Definition shapes : list execution_shape := [SINGLE_MACHINE; TASK_SPLIT; PIPELINE; DISTRIBUTED_NATIVE].
Definition lifecycle_value (s : lifecycle_state) : string :=
  match s with
  | AR_CREATED => "created" | AR_AVAILABLE => "available" | AR_GC_ELIGIBLE => "gc_eligible" | AR_DELETED => "deleted"
  end.
Definition lifecycles : list lifecycle_state := [AR_CREATED; AR_AVAILABLE; AR_GC_ELIGIBLE; AR_DELETED].
Definition status_value (s : attempt_status) : string :=
  match s with
  | QUEUED => "queued" | ASSIGNED => "assigned" | RUNNING => "running" | SUCCEEDED => "succeeded"
  | AT_FAILED => "failed" | LOST => "lost"
  end.
Definition statuses : list attempt_status := [QUEUED; ASSIGNED; RUNNING; SUCCEEDED; AT_FAILED; LOST].
Definition category_value (c : failure_category) : string :=
  match c with
  | WORKER_UNAVAILABLE => "worker_unavailable" | TEMPORARY_CAS_FAILURE => "temporary_cas_failure"
  | RESOURCE_EXHAUSTION => "resource_exhaustion" | EXECUTION_TIMEOUT => "execution_timeout"
  | ASSET_TRANSFER_FAILURE => "asset_transfer_failure" | ASSET_STAGING_FAILURE => "asset_staging_failure"
  | INVALID_INPUT => "invalid_input" | INVALID_DEPENDENCY => "invalid_dependency"
  | MISSING_EXECUTABLE => "missing_executable" | INVALID_WORKLOAD => "invalid_workload"
  | APPLICATION_ERROR => "application_error" | AUTHORIZATION_FAILURE => "authorization_failure"
  | MALFORMED_REQUEST => "malformed_request"
  | ARTIFACT_VERIFICATION_FAILURE => "artifact_verification_failure"
  | EXECUTION_FAILURE => "execution_failure"
  end.
Definition categories : list failure_category :=
  [WORKER_UNAVAILABLE; TEMPORARY_CAS_FAILURE; RESOURCE_EXHAUSTION; EXECUTION_TIMEOUT; ASSET_TRANSFER_FAILURE;
   ASSET_STAGING_FAILURE; INVALID_INPUT; INVALID_DEPENDENCY; MISSING_EXECUTABLE; INVALID_WORKLOAD; APPLICATION_ERROR;
   AUTHORIZATION_FAILURE; MALFORMED_REQUEST; ARTIFACT_VERIFICATION_FAILURE; EXECUTION_FAILURE].

Definition state_of : string -> option workload_state := enum_of workload_states state_value.
Definition policy_of : string -> option completion_policy := enum_of policies policy_value.
Definition shape_of : string -> option execution_shape := enum_of shapes shape_value.
Definition lifecycle_of : string -> option lifecycle_state := enum_of lifecycles lifecycle_value.
Definition status_of : string -> option attempt_status := enum_of statuses status_value.
Definition category_of : string -> option failure_category := enum_of categories category_value.

Lemma state_roundtrip a : state_of (state_value a) = Some a.
Proof. by destruct a. Qed.
Lemma policy_roundtrip a : policy_of (policy_value a) = Some a.
Proof. by destruct a. Qed.
Lemma shape_roundtrip a : shape_of (shape_value a) = Some a.
Proof. by destruct a. Qed.
Lemma lifecycle_roundtrip a : lifecycle_of (lifecycle_value a) = Some a.
Proof. by destruct a. Qed.
Lemma status_roundtrip a : status_of (status_value a) = Some a.
Proof. by destruct a. Qed.
Lemma category_roundtrip a : category_of (category_value a) = Some a.
Proof. by destruct a. Qed.

(** NULL for NaN; [real_not_null] is the NOT NULL check. *)
Definition real (x : float) : option float := if f_isnan x then None else Some x.
Definition int64 (n : Z) : option Z := if (- 2 ^ 63 <=? n) && (n <? 2 ^ 63) then Some n else None.
Definition int64_opt (n : option Z) : option (option Z) :=
  match n with None => Some None | Some n => option_map Some (int64 n) end.

(** ** Pydantic models in text columns *)

(** [model_json] are the texts; [json_empty] recognises the empty one. *)
Class Pydantic (A : Type) := {
  model_json : Type;
  model_dump_json : A -> model_json;
  model_validate_json : model_json -> option A;
  json_empty : model_json -> bool;
}.
Arguments model_json A {_}.
(** A dumped model is read back unchanged, and its text is not empty. *)
Class PydanticLaws (A : Type) `{Pydantic A} := {
  validate_dump : forall a, model_validate_json (model_dump_json a) = Some a;
  dump_not_empty : forall a, json_empty (model_dump_json a) = false;
}.

Definition dump_opt {A} `{Pydantic A} (a : option A) : option (model_json A) := option_map model_dump_json a.
(** [None] when the text does not validate. *)
Definition validate_opt {A} `{Pydantic A} (t : option (model_json A)) : option (option A) :=
  match t with None => Some None | Some t => option_map Some (model_validate_json t) end.
(** The variant that also takes an empty text for NULL. *)
Definition validate_truthy {A} `{Pydantic A} (t : option (model_json A)) : option (option A) :=
  match t with
  | None => Some None
  | Some t => if json_empty t then Some None else option_map Some (model_validate_json t)
  end.

Lemma validate_dump_opt {A} `{PydanticLaws A} (a : option A) : validate_opt (dump_opt a) = Some a.
Proof. destruct a as [a|]; [|done]. simpl. by rewrite validate_dump. Qed.
Lemma validate_dump_truthy {A} `{PydanticLaws A} (a : option A) : validate_truthy (dump_opt a) = Some a.
Proof. destruct a as [a|]; [|done]. simpl. by rewrite dump_not_empty, validate_dump. Qed.

(** ** Tables *)

(** The rows of an open database in insertion order. *)
Definition table (R : Type) := odict R.

(** [INSERT ... ON CONFLICT DO UPDATE]: [merge old new] is the updated row; a
    row that violates a constraint raises. *)
Definition upsert {R} (key : string) (row : option R) (merge : R -> R -> R) (t : table R) : option (table R) :=
  match row with
  | None => None
  | Some row => Some (od_set key (match od_get key t with Some old => merge old row | None => row end) t)
  end.
Definition replace {R} (old new : R) : R := new.

(** [_safe_reconstruct]. *)
Definition safe_reconstruct {R A} (convert : R -> option A) (t : table R) : list A := omap convert (od_values t).
Definition load_row {R A} (convert : R -> option A) (t : table R) (key : string) : option A :=
  od_get key t ≫= convert.

Lemma upsert_row {R A} (convert : R -> option A) key row merge (t t' : table R) k :
  upsert key row merge t = Some t' ->
  load_row convert t' k =
    if String.eqb k key
    then row ≫= (fun row => convert (match od_get key t with Some old => merge old row | None => row end))
    else load_row convert t k.
Proof.
  unfold upsert, load_row. destruct row as [row|]; [|done]. intros [= <-]. rewrite od_get_set.
  by destruct (String.eqb k key).
Qed.
Lemma upsert_replace_row {R A} (convert : R -> option A) key row (t t' : table R) k :
  upsert key row replace t = Some t' ->
  load_row convert t' k = if String.eqb k key then row ≫= convert else load_row convert t k.
Proof.
  intros Hu. rewrite (upsert_row _ _ _ _ _ _ _ Hu). destruct (String.eqb k key); [|done].
  destruct row; [|done]. simpl. by destruct (od_get key t).
Qed.

(** ** Workers *)

Section workers_table.
Context `{Pydantic worker_info}.

Record worker_row := { kr_worker_id : string; kr_info_json : model_json worker_info; kr_last_heartbeat_utc : float }.

Definition worker_to_row (w : worker_info) : option worker_row :=
  option_map (fun t => {| kr_worker_id := wi_worker_id w; kr_info_json := model_dump_json w; kr_last_heartbeat_utc := t |})
    (real (wi_last_heartbeat_utc w)).
Definition row_to_worker (r : worker_row) : option worker_info := model_validate_json (kr_info_json r).

Definition save_worker (w : worker_info) (t : table worker_row) : option (table worker_row) :=
  upsert (wi_worker_id w) (worker_to_row w) replace t.
Definition delete_worker (t : table worker_row) (worker_id : string) : option (table worker_row) :=
  Some (od_del worker_id t).
Definition load_workers (t : table worker_row) : list worker_info := safe_reconstruct row_to_worker t.

#[export] Instance worker_table : RecordStore (table worker_row) worker_info := {
  store_key := wi_worker_id; store_view := fun w => w; store_row := load_row row_to_worker;
  store_save t w := save_worker w t;
}.
#[export] Instance worker_delete : RecordDelete (table worker_row) := delete_worker.

Context `{!PydanticLaws worker_info}.
#[export] Instance worker_table_laws : RecordStoreLaws (table worker_row) worker_info.
Proof.
  exists (fun _ => True). intros t w t' k _ Hs. simpl in *. unfold save_worker in Hs.
  rewrite (upsert_replace_row _ _ _ _ _ _ Hs). destruct (String.eqb k (wi_worker_id w)); [|done].
  unfold upsert, worker_to_row in *. destruct (real (wi_last_heartbeat_utc w)); [|done].
  simpl. unfold row_to_worker. simpl. apply validate_dump.
Defined.
End workers_table.

(** ** Workloads *)

Section workloads_table.
Context `{Pydantic workload_spec} `{Pydantic placement_decision} `{Pydantic workload_execution_result}.

Record workload_row := {
  wl_workload_id : string;
  wl_spec_json : model_json workload_spec;
  wl_state : string;
  wl_placement_json : option (model_json placement_decision);
  wl_placement_explanation_json : option (option (odict json));
  wl_execution_result_json : option (model_json workload_execution_result);
  wl_error_message : option string;
  wl_submitted_at : float;
  wl_completed_at : option float;
}.

Definition workload_to_row (r : workload_record) : option workload_row :=
  option_map (fun t =>
    {| wl_workload_id := wr_id r; wl_spec_json := model_dump_json (redacted_spec (wr_spec r));
       wl_state := state_value (wr_state r); wl_placement_json := dump_opt (wr_placement_decision r);
       wl_placement_explanation_json := match wr_placement_explanation r with [] => None | e => Some (Some e) end;
       wl_execution_result_json := dump_opt (wr_execution_result r); wl_error_message := wr_error_message r;
       wl_submitted_at := t; wl_completed_at := wr_completed_at r ≫= real |}) (real (wr_submitted_at r)).

Definition row_to_workload_record (r : workload_row) : option workload_record :=
  match model_validate_json (wl_spec_json r), state_of (wl_state r), validate_opt (wl_placement_json r),
        validate_opt (wl_execution_result_json r), wl_placement_explanation_json r with
  | Some spec, Some st, Some d, Some x, (None | Some (Some _)) as e =>
      Some {| wr_spec := spec; wr_state := st; wr_submitted_at := wl_submitted_at r;
              wr_completed_at := wl_completed_at r; wr_placement_decision := d;
              wr_placement_explanation := match e with Some (Some e) => e | _ => [] end;
              wr_execution_result := x; wr_error_message := wl_error_message r |}
  | _, _, _, _, _ => None
  end.

Definition save_workload (r : workload_record) (t : table workload_row) : option (table workload_row) :=
  upsert (wr_id r) (workload_to_row r) replace t.
Definition load_workloads (t : table workload_row) : list workload_record := safe_reconstruct row_to_workload_record t.

(** What comes back: the specification with its credentials gone. *)
Definition workload_view (r : workload_record) : workload_record :=
  {| wr_spec := redacted_spec (wr_spec r); wr_state := wr_state r; wr_submitted_at := wr_submitted_at r;
     wr_completed_at := wr_completed_at r ≫= real; wr_placement_decision := wr_placement_decision r;
     wr_placement_explanation := wr_placement_explanation r; wr_execution_result := wr_execution_result r;
     wr_error_message := wr_error_message r |}.

#[export] Instance workload_table : RecordStore (table workload_row) workload_record := {
  store_key := wr_id; store_view := workload_view; store_row := load_row row_to_workload_record;
  store_save t r := save_workload r t;
}.

Context `{!PydanticLaws workload_spec} `{!PydanticLaws placement_decision} `{!PydanticLaws workload_execution_result}.

Lemma workload_row_roundtrip r row : workload_to_row r = Some row -> row_to_workload_record row = Some (workload_view r).
Proof.
  unfold workload_to_row, real at 2. destruct (f_isnan (wr_submitted_at r)); [done|]. intros [= <-].
  unfold row_to_workload_record. simpl. rewrite validate_dump, state_roundtrip, !validate_dump_opt.
  unfold workload_view. by destruct (wr_placement_explanation r).
Qed.

#[export] Instance workload_table_laws : RecordStoreLaws (table workload_row) workload_record.
Proof.
  exists (fun _ => True). intros t r t' k _ Hs. simpl in *. unfold save_workload in Hs.
  rewrite (upsert_replace_row _ _ _ _ _ _ Hs). destruct (String.eqb k (wr_id r)); [|done].
  unfold upsert in Hs. destruct (workload_to_row r) as [row|] eqn:E; [|done]. simpl. by apply workload_row_roundtrip.
Defined.
End workloads_table.

(** ** Jobs *)

Record job_row := {
  jl_job_id : string;
  jl_workload_ids_json : option (list string);
  jl_completion_policy : string;
  jl_threshold : option Z;
  jl_execution_shape : string;
  jl_required_worker_count : Z;
  jl_selected_worker_ids_json : option (option (list string));
  jl_spare_worker_ids_json : option (option (list string));
  jl_created_at : float;
}.

(** [json.dumps(ids) if ids else None], and its reading. *)
Definition ids_to_json (ids : option (list string)) : option (option (list string)) :=
  match ids with None | Some [] => None | Some l => Some (Some l) end.
Definition json_to_ids (t : option (option (list string))) : option (option (list string)) :=
  match t with None => Some None | Some None => None | Some (Some l) => Some (Some l) end.

Definition job_to_row (r : job_record) : option job_row :=
  match int64_opt (jr_threshold r), int64 (jr_required_worker_count r), real (jr_created_at r) with
  | Some th, Some n, Some t =>
      Some {| jl_job_id := jr_job_id r; jl_workload_ids_json := Some (isort str_lt (elements (jr_workload_ids r)));
              jl_completion_policy := policy_value (jr_completion_policy r); jl_threshold := th;
              jl_execution_shape := shape_value (jr_execution_shape r); jl_required_worker_count := n;
              jl_selected_worker_ids_json := ids_to_json (jr_selected_worker_ids r);
              jl_spare_worker_ids_json := ids_to_json (jr_spare_worker_ids r); jl_created_at := t |}
  | _, _, _ => None
  end.

(** The constructor's checks apply again. *)
Definition row_to_job_record (r : job_row) : option job_record :=
  match jl_workload_ids_json r, policy_of (jl_completion_policy r),
        (if str_truthy (jl_execution_shape r) then shape_of (jl_execution_shape r) else Some TASK_SPLIT),
        json_to_ids (jl_selected_worker_ids_json r), json_to_ids (jl_spare_worker_ids_json r) with
  | Some ids, Some policy, Some shape, Some selected, Some spare =>
      match new_job_record (jl_created_at r) (jl_job_id r) (list_to_set ids) policy (jl_threshold r) shape
              (jl_required_worker_count r) selected spare with
      | Ok j => Some j
      | Err _ => None
      end
  | _, _, _, _, _ => None
  end.

Definition with_shape (shape : execution_shape) (r : job_record) : job_record :=
  {| jr_job_id := jr_job_id r; jr_workload_ids := jr_workload_ids r; jr_completion_policy := jr_completion_policy r;
     jr_threshold := jr_threshold r; jr_execution_shape := shape;
     jr_required_worker_count := jr_required_worker_count r; jr_selected_worker_ids := jr_selected_worker_ids r;
     jr_spare_worker_ids := jr_spare_worker_ids r; jr_created_at := jr_created_at r |}.

(** The loop at the end of [load_jobs]. *)
Definition single_split (r : job_record) : job_record :=
  if bool_decide (jr_execution_shape r = TASK_SPLIT) && (Z.of_nat (size (jr_workload_ids r)) =? 1)
  then with_shape SINGLE_MACHINE r else r.
Definition load_job (r : job_row) : option job_record := option_map single_split (row_to_job_record r).

Definition save_job (r : job_record) (t : table job_row) : option (table job_row) :=
  upsert (jr_job_id r) (job_to_row r) replace t.
Definition load_jobs (t : table job_row) : list job_record := safe_reconstruct load_job t.

#[export] Instance job_table : RecordStore (table job_row) job_record := {
  store_key := jr_job_id; store_view := single_split; store_row := load_row load_job;
  store_save t r := save_job r t;
}.

Lemma int64_id n m : int64 n = Some m -> m = n.
Proof. unfold int64. destruct (_ && _); congruence. Qed.
Lemma int64_opt_id n m : int64_opt n = Some m -> m = n.
Proof. destruct n as [n|]; simpl; [|congruence]. destruct (int64 n) eqn:E; [|done]. apply int64_id in E. naive_solver. Qed.
Lemma real_id x y : real x = Some y -> y = x.
Proof. unfold real. destruct (f_isnan x); congruence. Qed.

Lemma isort_sorted_id {A} (ltb : A -> A -> bool) l : Sorted (not_gt ltb) l -> isort ltb l = l.
Proof.
  induction 1 as [|x l Hs IH Hx]; [done|]. simpl. rewrite IH. destruct Hx as [|y l Hyx]; [done|].
  simpl. unfold not_gt in Hyx. by rewrite Hyx.
Qed.

Lemma sorted_or_none_json ids :
  (forall l, ids = Some l -> l <> [] /\ Sorted (not_gt str_lt) l) ->
  exists j, json_to_ids (ids_to_json ids) = Some j /\ sorted_or_none j = ids.
Proof.
  intros Hids. destruct ids as [[|x l]|]; [by destruct (Hids [] eq_refl)| |by exists None].
  exists (Some (x :: l)). split; [done|]. destruct (Hids _ eq_refl) as [_ Hs].
  cbn [sorted_or_none]. by rewrite (isort_sorted_id _ _ Hs).
Qed.

Lemma valid_job_rebuilt r :
  valid_job r ->
  exists sel sp, json_to_ids (ids_to_json (jr_selected_worker_ids r)) = Some sel /\
    json_to_ids (ids_to_json (jr_spare_worker_ids r)) = Some sp /\
    new_job_record (jr_created_at r) (jr_job_id r) (jr_workload_ids r) (jr_completion_policy r) (jr_threshold r)
      (jr_execution_shape r) (jr_required_worker_count r) sel sp = Ok r.
Proof.
  intros (Hshape & Hthr & Hids).
  destruct (sorted_or_none_json (jr_selected_worker_ids r)) as (sel & Hsel & Esel); [auto|].
  destruct (sorted_or_none_json (jr_spare_worker_ids r)) as (sp & Hsp & Esp); [auto|].
  exists sel, sp. split_and!; [done..|]. unfold new_job_record. rewrite Esel, Esp.
  destruct (bool_decide (jr_completion_policy r = THRESHOLD) && _) eqn:Et.
  { apply andb_true_iff in Et as [Hp%bool_decide_eq_true Ht]. destruct (Hthr Hp) as (t & Ht' & Hne).
    rewrite Ht' in Ht. lia. }
  assert (Ok {| jr_job_id := jr_job_id r; jr_workload_ids := jr_workload_ids r;
                jr_completion_policy := jr_completion_policy r; jr_threshold := jr_threshold r;
                jr_execution_shape := jr_execution_shape r; jr_required_worker_count := jr_required_worker_count r;
                jr_selected_worker_ids := jr_selected_worker_ids r; jr_spare_worker_ids := jr_spare_worker_ids r;
                jr_created_at := jr_created_at r |} = Ok r) as Hr by by destruct r.
  rewrite Hr. clear Hr Et.
  destruct (jr_execution_shape r); eval_decide; cbn [andb].
  all: repeat match goal with |- context [if ?b then _ else _] => destruct b eqn:? end; try done; lia.
Qed.

#[export] Instance job_table_laws : RecordStoreLaws (table job_row) job_record.
Proof.
  exists valid_job. intros t r t' k Hv Hs. simpl in *. unfold save_job in Hs.
  rewrite (upsert_replace_row _ _ _ _ _ _ Hs). destruct (String.eqb k (jr_job_id r)); [|done].
  unfold upsert in Hs. destruct (job_to_row r) as [row|] eqn:E; [|done]. clear Hs. simpl.
  unfold job_to_row in E. destruct (int64_opt (jr_threshold r)) as [th|] eqn:Eth; [|done].
  destruct (int64 (jr_required_worker_count r)) as [n|] eqn:En; [|done].
  destruct (real (jr_created_at r)) as [t0|] eqn:Et; [|done]. injection E as <-.
  apply int64_opt_id in Eth as ->. apply int64_id in En as ->. apply real_id in Et as ->.
  unfold load_job, row_to_job_record. cbn [jl_workload_ids_json jl_completion_policy jl_execution_shape
    jl_selected_worker_ids_json jl_spare_worker_ids_json jl_created_at jl_job_id jl_threshold jl_required_worker_count].
  rewrite policy_roundtrip, shape_roundtrip.
  assert (str_truthy (shape_value (jr_execution_shape r)) = true) as -> by by destruct (jr_execution_shape r).
  destruct (valid_job_rebuilt r Hv) as (sel & sp & -> & -> & Hnew).
  assert (list_to_set (isort str_lt (elements (jr_workload_ids r))) = jr_workload_ids r) as ->.
  { apply set_eq. intros x. rewrite elem_of_list_to_set, isort_elem, elem_of_elements. done. }
  by rewrite Hnew.
Defined.

(** ** Artifacts *)

Record artifact_row := {
  fl_artifact_id : string;
  fl_content_hash : string;
  fl_producer_workload_id : string;
  fl_producer_job_id : option string;
  fl_created_at : float;
  fl_verification_state : string;
  fl_lifecycle_state : string;
  fl_storage_location : string;
  fl_size_bytes : option Z;
}.

Definition artifact_to_row (a : artifact) : option artifact_row :=
  match real (af_created_at a), int64_opt (af_size_bytes a) with
  | Some t, Some n =>
      Some {| fl_artifact_id := af_artifact_id a; fl_content_hash := af_content_hash a;
              fl_producer_workload_id := af_producer_workload_id a; fl_producer_job_id := af_producer_job_id a;
              fl_created_at := t; fl_verification_state := "verified";
              fl_lifecycle_state := lifecycle_value (af_lifecycle_state a);
              fl_storage_location := af_storage_location a; fl_size_bytes := n |}
  | _, _ => None
  end.
Definition row_to_artifact (r : artifact_row) : option artifact :=
  if String.eqb (fl_verification_state r) "verified" then
    option_map (fun st =>
      {| af_artifact_id := fl_artifact_id r; af_content_hash := fl_content_hash r;
         af_producer_workload_id := fl_producer_workload_id r; af_producer_job_id := fl_producer_job_id r;
         af_created_at := fl_created_at r; af_lifecycle_state := st; af_storage_location := fl_storage_location r;
         af_size_bytes := fl_size_bytes r |}) (lifecycle_of (fl_lifecycle_state r))
  else None.

Definition save_artifact (a : artifact) (t : table artifact_row) : option (table artifact_row) :=
  upsert (af_artifact_id a) (artifact_to_row a) replace t.
Definition delete_artifact (t : table artifact_row) (artifact_id : string) : option (table artifact_row) :=
  Some (od_del artifact_id t).
Definition load_artifacts (t : table artifact_row) : list artifact := safe_reconstruct row_to_artifact t.

#[export] Instance artifact_table : RecordStore (table artifact_row) artifact := {
  store_key := af_artifact_id; store_view := fun a => a; store_row := load_row row_to_artifact;
  store_save t a := save_artifact a t;
}.
#[export] Instance artifact_delete : RecordDelete (table artifact_row) := delete_artifact.

#[export] Instance artifact_table_laws : RecordStoreLaws (table artifact_row) artifact.
Proof.
  exists (fun _ => True). intros t a t' k _ Hs. simpl in *. unfold save_artifact in Hs.
  rewrite (upsert_replace_row _ _ _ _ _ _ Hs). destruct (String.eqb k (af_artifact_id a)); [|done].
  unfold upsert in Hs. destruct (artifact_to_row a) as [row|] eqn:E; [|done]. clear Hs. simpl.
  unfold artifact_to_row in E. destruct (real (af_created_at a)) as [t0|] eqn:Et; [|done].
  destruct (int64_opt (af_size_bytes a)) as [n|] eqn:En; [|done]. injection E as <-.
  apply int64_opt_id in En as ->. apply real_id in Et as ->.
  unfold row_to_artifact. cbn [fl_lifecycle_state fl_verification_state]. rewrite lifecycle_roundtrip. by destruct a.
Defined.

(** ** Attempts *)

Section attempts_table.
Context `{Pydantic workload_execution_result} `{Pydantic placement_decision} `{Pydantic execution_group}.

Record attempt_row := {
  tl_attempt_id : string;
  tl_workload_id : string;
  tl_attempt_number : Z;
  tl_status : string;
  tl_worker_id : option string;
  tl_queued_at : float;
  tl_assigned_at : option float;
  tl_started_at : option float;
  tl_finished_at : option float;
  tl_failure_category : option string;
  tl_failure_reason : option string;
  tl_execution_result_json : option (model_json workload_execution_result);
  tl_checkpoint_hash : option string;
  tl_checkpoint_runtime_type : option string;
  tl_checkpoint_format_version : option Z;
  tl_placement_decision_json : option (model_json placement_decision);
  tl_execution_group_json : option (model_json execution_group);
}.

Definition attempt_to_row (a : attempt_record) : option attempt_row :=
  match real (at_queued_at a), int64 (at_attempt_number a), int64_opt (at_checkpoint_format_version a) with
  | Some t, Some n, Some v =>
      Some {| tl_attempt_id := at_attempt_id a; tl_workload_id := at_workload_id a; tl_attempt_number := n;
              tl_status := status_value (at_status a); tl_worker_id := at_worker_id a; tl_queued_at := t;
              tl_assigned_at := at_assigned_at a ≫= real; tl_started_at := at_started_at a ≫= real;
              tl_finished_at := at_finished_at a ≫= real;
              tl_failure_category := option_map category_value (at_failure_category a);
              tl_failure_reason := at_failure_reason a;
              tl_execution_result_json := dump_opt (at_execution_result a);
              tl_checkpoint_hash := at_checkpoint_hash a;
              tl_checkpoint_runtime_type := at_checkpoint_runtime_type a;
              tl_checkpoint_format_version := v;
              tl_placement_decision_json := dump_opt (at_placement_decision a);
              tl_execution_group_json := dump_opt (at_execution_group a) |}
  | _, _, _ => None
  end.

(** The [DO UPDATE] clause: the workload, the number and the queueing time of
    the existing row stay. *)
Definition attempt_merge (old new : attempt_row) : attempt_row :=
  {| tl_attempt_id := tl_attempt_id old; tl_workload_id := tl_workload_id old;
     tl_attempt_number := tl_attempt_number old; tl_status := tl_status new; tl_worker_id := tl_worker_id new;
     tl_queued_at := tl_queued_at old; tl_assigned_at := tl_assigned_at new; tl_started_at := tl_started_at new;
     tl_finished_at := tl_finished_at new; tl_failure_category := tl_failure_category new;
     tl_failure_reason := tl_failure_reason new; tl_execution_result_json := tl_execution_result_json new;
     tl_checkpoint_hash := tl_checkpoint_hash new; tl_checkpoint_runtime_type := tl_checkpoint_runtime_type new;
     tl_checkpoint_format_version := tl_checkpoint_format_version new;
     tl_placement_decision_json := tl_placement_decision_json new;
     tl_execution_group_json := tl_execution_group_json new |}.

Definition category_opt (t : option string) : option (option failure_category) :=
  match t with None => Some None | Some t => option_map Some (category_of t) end.

Definition row_to_attempt (r : attempt_row) : option attempt_record :=
  match status_of (tl_status r), category_opt (tl_failure_category r), validate_opt (tl_execution_result_json r),
        validate_truthy (tl_placement_decision_json r), validate_truthy (tl_execution_group_json r) with
  | Some st, Some cat, Some x, Some d, Some g =>
      Some {| at_attempt_id := tl_attempt_id r; at_workload_id := tl_workload_id r;
              at_attempt_number := tl_attempt_number r; at_status := st; at_worker_id := tl_worker_id r;
              at_queued_at := tl_queued_at r; at_assigned_at := tl_assigned_at r; at_started_at := tl_started_at r;
              at_finished_at := tl_finished_at r; at_failure_category := cat;
              at_failure_reason := tl_failure_reason r; at_execution_result := x; at_placement_decision := d;
              at_execution_group := g; at_checkpoint_hash := tl_checkpoint_hash r;
              at_checkpoint_runtime_type := tl_checkpoint_runtime_type r;
              at_checkpoint_format_version := tl_checkpoint_format_version r |}
  | _, _, _, _, _ => None
  end.

Definition save_attempt (a : attempt_record) (t : table attempt_row) : option (table attempt_row) :=
  upsert (at_attempt_id a) (attempt_to_row a) attempt_merge t.
Definition load_attempts (t : table attempt_row) : list attempt_record := safe_reconstruct row_to_attempt t.

Definition attempt_view (a : attempt_record) : attempt_record :=
  {| at_attempt_id := at_attempt_id a; at_workload_id := at_workload_id a; at_attempt_number := at_attempt_number a;
     at_status := at_status a; at_worker_id := at_worker_id a; at_queued_at := at_queued_at a;
     at_assigned_at := at_assigned_at a ≫= real; at_started_at := at_started_at a ≫= real;
     at_finished_at := at_finished_at a ≫= real; at_failure_category := at_failure_category a;
     at_failure_reason := at_failure_reason a; at_execution_result := at_execution_result a;
     at_placement_decision := at_placement_decision a; at_execution_group := at_execution_group a;
     at_checkpoint_hash := at_checkpoint_hash a; at_checkpoint_runtime_type := at_checkpoint_runtime_type a;
     at_checkpoint_format_version := at_checkpoint_format_version a |}.

#[export] Instance attempt_table : RecordStore (table attempt_row) attempt_record := {
  store_key := at_attempt_id; store_view := attempt_view; store_row := load_row row_to_attempt;
  store_save t a := save_attempt a t;
}.

Context `{!PydanticLaws workload_execution_result} `{!PydanticLaws placement_decision} `{!PydanticLaws execution_group}.

Lemma category_opt_roundtrip c : category_opt (option_map category_value c) = Some c.
Proof. destruct c as [c|]; [|done]. simpl. by rewrite category_roundtrip. Qed.

Lemma attempt_row_roundtrip a row : attempt_to_row a = Some row -> row_to_attempt row = Some (attempt_view a).
Proof.
  unfold attempt_to_row. destruct (real (at_queued_at a)) as [t|] eqn:Et; [|done].
  destruct (int64 (at_attempt_number a)) as [n|] eqn:En; [|done].
  destruct (int64_opt (at_checkpoint_format_version a)) as [v|] eqn:Ev; [|done]. intros [= <-].
  apply real_id in Et as ->. apply int64_id in En as ->. apply int64_opt_id in Ev as ->.
  unfold row_to_attempt. simpl.
  by rewrite status_roundtrip, category_opt_roundtrip, validate_dump_opt, !validate_dump_truthy.
Qed.

(** The row after a save is the view of the attempt, unless a row was there
    with another workload, number or queueing time: those columns stay. *)
Definition same_origin (old new : attempt_row) : Prop :=
  tl_attempt_id old = tl_attempt_id new /\ tl_workload_id old = tl_workload_id new /\
  tl_attempt_number old = tl_attempt_number new /\ tl_queued_at old = tl_queued_at new.

Lemma attempt_merge_same old new : same_origin old new -> attempt_merge old new = new.
Proof. destruct old, new. unfold same_origin, attempt_merge. simpl. intros (-> & -> & -> & ->). done. Qed.

Lemma save_attempt_row a t t' k :
  save_attempt a t = Some t' ->
  (forall old row, od_get (at_attempt_id a) t = Some old -> attempt_to_row a = Some row -> same_origin old row) ->
  load_row row_to_attempt t' k =
    if String.eqb k (at_attempt_id a) then Some (attempt_view a) else load_row row_to_attempt t k.
Proof.
  intros Hs Hsame. unfold save_attempt in Hs. rewrite (upsert_row _ _ _ _ _ _ _ Hs).
  destruct (String.eqb k (at_attempt_id a)); [|done]. unfold upsert in Hs.
  destruct (attempt_to_row a) as [row|] eqn:E; [|done]. simpl.
  rewrite <- (attempt_row_roundtrip _ _ E). f_equal. destruct (od_get (at_attempt_id a) t) as [old|] eqn:Eo; [|done].
  by apply attempt_merge_same, Hsame.
Qed.
End attempts_table.
