(* ===== verification/AdmissionProps.v ===== *)
(** * Admission: properties

    What one turn of the admission loop serves, in which order, and what holds
    of the loop's state after any interleaving of submissions, turns, timeouts
    and task endings. *)
From S2P Require Export Admission.

Section admission_properties.
Context {S : Type} `{RecordStore S workload_record}.
Implicit Types a : admission S.

(** C12: dispatch is exclusive and bounded.  After any interleaving of
    submissions, enqueueings, turns of the loop, timeouts, endings of dispatch
    tasks and changes of the registry by others, the ids in [_processing_ids]
    are those of the live dispatch tasks, one task per workload, and at most
    [max_dispatch_tasks] of them.  Whatever a step dispatches was queued,
    SUBMITTED, without a live task, and had all its dependencies COMPLETED; it
    has a running task afterwards. *)
Theorem dispatch_exclusive memory max a e a' ids :
  0 <= max -> areach memory max a -> allowed e -> astep memory max e a = Some (a', ids) ->
  (ad_processing a' = map fst (ad_tasks a') /\ NoDup (map fst (ad_tasks a')) /\
   Z.of_nat (length (ad_tasks a')) <= max) /\
  NoDup ids /\
  forall wid, wid ∈ ids ->
    (wid, Running) ∈ ad_tasks a' /\ (wid ∉ map fst (ad_tasks a)) /\ wid ∈ ad_queued a /\
    exists r, get_workload (ad_registry a) wid = Some r /\ wr_state r = SUBMITTED /\
      forall d, d ∈ ws_depends_on (wr_spec r) ->
        exists rd, get_workload (ad_registry a) d = Some rd /\ wr_state rd = COMPLETED.
Proof.
  intros Hmax Hr Hal Hst. pose proof (areach_inv _ _ _ Hmax Hr) as Hinv.
  pose proof (astep_inv _ _ _ _ _ _ Hinv Hal Hst) as (_ & _ & Hnp & Ht & Hl).
  split; [by rewrite <- Ht, <- (length_map fst), <- Ht|].
  assert (ids = [] \/ exists now clock, turn memory max now clock a = (a', Ok ids)) as [->|(now & clock & E)].
  { destruct e; cbn [astep] in Hst; try (injection Hst as <- <-; by left);
      try (case_bool_decide; [|done]; injection Hst as <- <-; by left).
    destruct (turn memory max now clock a) as [a1 [ids1|x]] eqn:E; injection Hst as <- <-; [right; eauto|by left]. }
  { split; [constructor|]. by intros wid Hw%not_elem_of_nil. }
  destruct (turn_spec _ _ _ _ _ _ _ Hinv E) as (Hids & _ & Hproc & Htasks & _).
  pose proof Hinv as (_ & _ & Hnp0 & Ht0 & _).
  split; [rewrite Hproc in Hnp; by apply NoDup_app in Hnp as (_ & _ & ?)|].
  intros wid Hwid. rewrite <- Ht0.
  rewrite Hids in Hwid. apply list_elem_of_fmap in Hwid as Hwid2. destruct Hwid2 as (r & -> & Hin).
  apply (subseteq_take _ _), ready_queue_elem in Hin as [Hin Hrd].
  destruct (pending_records_ok _ _ Hinv) as [[_ Hpok] Hpin]. destruct (Hpok r Hin), (Hpin r Hin).
  split_and!; [|done|done|by exists r].
  rewrite Htasks, elem_of_app. right. apply list_elem_of_fmap. exists (wr_id r). by rewrite Hids.
Qed.

(** [d] may go before [w]: only a starved workload overtakes another one
    regardless of priority, and only if it is older than every starved one it
    passes; otherwise the higher effective priority goes first, ties by id. *)
Definition goes_before (memory : option telemetry_memory) (now : float) (d w : workload_record) : Prop :=
  match starved now d, starved now w with
  | true, false => True
  | false, true => False
  | true, true => fle (wr_submitted_at d) (wr_submitted_at w) = true
  | false, false => fle (effective_priority memory w now) (effective_priority memory d now) = true
  end.

Lemma fle_opp x y : notnan x -> notnan y -> fle (fopp x) (fopp y) = true -> fle y x = true.
Proof.
  intros Hx Hy Hle. apply flt_false_fle; [done..|]. rewrite <- fopp_lt by done.
  apply flt_false_fle; [by apply fopp_notnan..|done].
Qed.

Lemma sorted_goes_before memory now d w :
  notnan (wr_submitted_at d) -> notnan (wr_submitted_at w) ->
  notnan (effective_priority memory d now) -> notnan (effective_priority memory w now) ->
  not_gt (flag_ltb (starved now) (admission_key memory now) wr_id) d w -> goes_before memory now d w.
Proof.
  intros Hsd Hsw Hed Hew Hng. apply flag_not_gt in Hng. unfold goes_before.
  destruct Hng as [[-> ->]|[Heq Hng]]; [done|]. apply fkey_not_gt in Hng.
  assert (fle (admission_key memory now d) (admission_key memory now w) = true) as Hle.
  { assert (notnan (admission_key memory now d)) by (unfold admission_key; destruct (starved now d); [done|by apply fopp_notnan]).
    assert (notnan (admission_key memory now w)) by (unfold admission_key; destruct (starved now w); [done|by apply fopp_notnan]).
    apply fle_rank; [done..|]. destruct Hng as [[Hlt|[E _]]|[E _]]; try (rewrite E; apply rank_lt_irrefl).
    intros Hlt'. by eapply rank_lt_irrefl, rank_lt_trans. }
  unfold admission_key in Hle. rewrite <- Heq in *. destruct (starved now d); [done|].
  by apply fle_opp in Hle.
Qed.

(** C13: no turn idles and no turn overtakes.  With the clock readings and
    priorities not NaN, a turn that raises nothing dispatches as many ready
    workloads as there are free slots, or all of them if they are fewer (so it
    makes progress whenever a slot is free and a workload is ready), and every
    workload it dispatches may go before every ready workload it leaves: a
    workload that has waited ten minutes is never passed by a younger one,
    whatever its priority. *)
Theorem turn_serves_in_order memory max now clock a a' ids :
  admission_inv max a -> turn memory max now clock a = (a', Ok ids) ->
  (forall r, r ∈ pending_records a -> notnan (wr_submitted_at r) /\ notnan (effective_priority memory r now)) ->
  let ready := List.filter (fun r => bool_decide (ready (ad_registry a) r)) (pending_records a) in
  length ids = Nat.min (Z.to_nat (max - Z.of_nat (length (ad_processing a)))) (length ready) /\
  (forall d w, d ∈ ready -> w ∈ ready -> wr_id d ∈ ids -> wr_id w ∉ ids -> goes_before memory now d w) /\
  forall wid, wid ∈ ids -> exists r, r ∈ ready /\ wr_id r = wid.
Proof.
  intros Hinv E Hnn rdy. destruct (turn_spec _ _ _ _ _ _ _ Hinv E) as (Hids & _).
  fold (free_slots max a). set (n := free_slots max a) in *. set (q := ready_queue memory now a) in *.
  assert (forall r, r ∈ q <-> r ∈ rdy) as Hq by (intros r; apply isort_elem).
  split_and!.
  - rewrite Hids, length_map, length_take. f_equal. apply isort_length.
  - intros d w Hd Hw Hin Hout.
    assert (StronglySorted (not_gt (flag_ltb (starved now) (admission_key memory now) wr_id)) q) as Hs.
    { apply isort_flag_sorted. intros x Hx. apply list_elem_of_In, filter_In in Hx as [Hx _]. apply list_elem_of_In in Hx.
      destruct (Hnn x Hx). unfold admission_key. destruct (starved now x); [done|by apply fopp_notnan]. }
    assert (forall x, x ∈ rdy -> x ∈ pending_records a) as Hpend.
    { intros x Hx. apply list_elem_of_In, filter_In in Hx as [Hx _]. by apply list_elem_of_In. }
    assert (d ∈ take n q) as Hd'.
    { rewrite Hids in Hin. apply list_elem_of_fmap in Hin as (d' & Hid & Hd').
      pose proof (subseteq_take _ _ _ Hd') as Hd2. apply Hq, Hpend in Hd2. apply Hpend in Hd.
      destruct (pending_records_ok _ _ Hinv) as [[_ Hpok] _].
      destruct (Hpok d Hd) as [Hg _], (Hpok d' Hd2) as [Hg' _]. rewrite Hid in Hg. congruence. }
    assert (w ∈ drop n q) as Hw'.
    { apply Hq in Hw as Hwq. rewrite <- (take_drop n q), elem_of_app in Hwq. destruct Hwq as [Hwq|]; [|done].
      destruct Hout. rewrite Hids. by apply list_elem_of_fmap_2. }
    destruct (Hnn d (Hpend d Hd)), (Hnn w (Hpend w Hw)). apply sorted_goes_before; try done.
    rewrite <- (take_drop n q) in Hs. by apply (StronglySorted_app_1_elem_of _ _ _ _ _ Hs).
  - intros wid Hin. rewrite Hids in Hin. apply list_elem_of_fmap in Hin as (r & -> & Hr).
    exists r. split; [|done]. apply Hq. by apply (subseteq_take _ _) in Hr.
Qed.
End admission_properties.

(** ** Concrete runs *)

Definition spec_with_priority (wid : string) (p : Z) (deps : list string) : workload_spec :=
  let s := plain_spec wid "t" deps in
  {| ws_workload_id := ws_workload_id s; ws_job_id := ws_job_id s; ws_task_type := ws_task_type s;
     ws_input_asset_hashes := ws_input_asset_hashes s; ws_min_cpu_cores := ws_min_cpu_cores s;
     ws_min_ram_bytes := ws_min_ram_bytes s; ws_requires_gpu := ws_requires_gpu s;
     ws_min_vram_bytes := ws_min_vram_bytes s; ws_estimated_duration_seconds := ws_estimated_duration_seconds s;
     ws_priority := p; ws_deadline_at_utc := ws_deadline_at_utc s;
     ws_required_gpu_vendor := ws_required_gpu_vendor s; ws_required_gpu_model := ws_required_gpu_model s;
     ws_min_compute_capability := ws_min_compute_capability s;
     ws_required_driver_version := ws_required_driver_version s;
     ws_required_runtime_compatibility := ws_required_runtime_compatibility s;
     ws_required_worker_tags := ws_required_worker_tags s;
     ws_preferred_worker_tags := ws_preferred_worker_tags s; ws_affinity_group_id := ws_affinity_group_id s;
     ws_affinity_mode := ws_affinity_mode s; ws_affinity_tag_key := ws_affinity_tag_key s;
     ws_affinity_hard := ws_affinity_hard s; ws_max_cost_per_hour := ws_max_cost_per_hour s;
     ws_depends_on := ws_depends_on s; ws_parameters := ws_parameters s;
     ws_execution_spec := ws_execution_spec s |}.

Definition idle_admission : admission (mem_store workload_record) :=
  {| ad_registry := witness_registry; ad_queued := []; ad_processing := []; ad_tasks := [] |}.

(** An old workload, two urgent ones and one waiting for the first. *)
Definition arrivals : list (float * workload_spec) :=
  [(f_of_Z 0, spec_with_priority "old" 1 []); (f_of_Z 650, spec_with_priority "hot" 90 []);
   (f_of_Z 660, spec_with_priority "warm" 80 []); (f_of_Z 670, spec_with_priority "later" 100 ["old"])]%string.

Definition arrive (a : admission (mem_store workload_record)) (x : float * workload_spec) :=
  fst (submit_workload (fst x) (snd x) a).
Definition busy_admission : admission (mem_store workload_record) := fold_left arrive arrivals idle_admission.

Lemma busy_reachable : areach None 2 busy_admission.
Proof.
  unfold busy_admission. assert (areach None 2 idle_admission) as Hr by (apply areach_start, wf_empty).
  revert Hr. generalize idle_admission. induction arrivals as [|[now spec] l IH]; intros a Hr; simpl; [done|].
  apply IH. by apply (areach_step _ _ a (ASubmit now spec) _ []).
Qed.

Definition after_turn : admission (mem_store workload_record) :=
  fst (turn None 2 (f_of_Z 700) (f_of_Z 700) busy_admission).
Definition dispatched : list string := ["old"; "hot"]%string.

Lemma busy_step : astep None 2 (ATurn (f_of_Z 700) (f_of_Z 700)) busy_admission = Some (after_turn, dispatched).
Proof. vm_compute. reflexivity. Qed.
Lemma busy_turn : turn None 2 (f_of_Z 700) (f_of_Z 700) busy_admission = (after_turn, Ok dispatched).
Proof. vm_compute. reflexivity. Qed.

Lemma dispatch_exclusive_witness : NoDup dispatched /\ Z.of_nat (length (ad_tasks after_turn)) <= 2.
Proof.
  pose proof (dispatch_exclusive None 2 busy_admission (ATurn (f_of_Z 700) (f_of_Z 700)) after_turn dispatched ltac:(lia) busy_reachable I busy_step)
    as ((_ & _ & Hl) & Hn & _).
  split; [exact Hn|exact Hl].
Defined.

Lemma busy_not_nan r :
  r ∈ pending_records busy_admission ->
  notnan (wr_submitted_at r) /\ notnan (effective_priority None r (f_of_Z 700)).
Proof.
  intros Hr. cut (forallb (fun r => negb (f_isnan (wr_submitted_at r)) && negb (f_isnan (effective_priority None r (f_of_Z 700))))
                   (pending_records busy_admission) = true); [|vm_compute; reflexivity].
  rewrite forallb_forall. intros Hall. apply list_elem_of_In, Hall, andb_true_iff in Hr as [H1 H2].
  split; intros E; rewrite E in *; done.
Qed.

Definition busy_ready : list workload_record :=
  List.filter (fun r => bool_decide (ready (ad_registry busy_admission) r)) (pending_records busy_admission).

Lemma turn_serves_witness :
  length dispatched = Nat.min 2 (length busy_ready) /\
  forall d w, d ∈ busy_ready -> w ∈ busy_ready ->
    wr_id d ∈ dispatched -> wr_id w ∉ dispatched -> goes_before None (f_of_Z 700) d w.
Proof.
  pose proof (turn_serves_in_order None 2 (f_of_Z 700) (f_of_Z 700) busy_admission after_turn dispatched
    (areach_inv None 2 _ ltac:(lia) busy_reachable) busy_turn busy_not_nan) as (Hl & Hb & _).
  split; [exact Hl|exact Hb].
Defined.

(** The snapshot breaks ties of effective priority by submission time, the
    loop does not: the workload shown first is dispatched second. *)
Definition tied_admission : admission (mem_store workload_record) :=
  fold_left arrive [(f_of_Z 0, spec_with_priority "z" 5 []); (f_of_Z 60, spec_with_priority "a" 15 [])]%string idle_admission.
Example snapshot_order_differs :
  map qr_workload_id (queue_snapshot None (f_of_Z 60) None tied_admission) = ["z"; "a"]%string /\
  snd (turn None 1 (f_of_Z 60) (f_of_Z 60) tied_admission) = Ok ["a"]%string.
Proof. vm_compute. split; reflexivity. Qed.

(** [enqueue_workload] does not know CANCELLED: a cancelled workload is queued
    and only dropped by the next turn. *)
Example cancelled_is_queued :
  let reg := fst (update_state f0 "z" CANCELLED None (ad_registry tied_admission)) in
  ad_queued (enqueue_workload "z" {| ad_registry := reg; ad_queued := []; ad_processing := []; ad_tasks := [] |})
  = ["z"%string].
Proof. vm_compute. reflexivity. Qed.
