(* ===== verification/SubmitJob.v ===== *)
(** * Submitting jobs ([distributed/workload.py], [submit_job] and the profiles it builds)

    [submit_job] groups specifications under one job id, checks the execution
    shape, chooses the workers of the job (an explicit list, an explicit number
    or adaptive sizing), records the job and queues every workload.  It changes
    the job registry and the admission state; the workers, attempts and
    artifacts it only reads.  [now] is the one clock reading of the call, and
    [fresh_id] the job id it mints when the specifications carry none. *)
From S2P Require Export Admission JobGraph JobRegistry ArtifactRegistry AttemptRegistry WorkerRegistry Sizing.

Definition with_job_id (job_id : option string) (s : workload_spec) : workload_spec :=
  {| ws_workload_id := ws_workload_id s; ws_job_id := job_id; ws_task_type := ws_task_type s;
     ws_input_asset_hashes := ws_input_asset_hashes s; ws_min_cpu_cores := ws_min_cpu_cores s;
     ws_min_ram_bytes := ws_min_ram_bytes s; ws_requires_gpu := ws_requires_gpu s;
     ws_min_vram_bytes := ws_min_vram_bytes s; ws_estimated_duration_seconds := ws_estimated_duration_seconds s;
     ws_priority := ws_priority s; ws_deadline_at_utc := ws_deadline_at_utc s;
     ws_required_gpu_vendor := ws_required_gpu_vendor s; ws_required_gpu_model := ws_required_gpu_model s;
     ws_min_compute_capability := ws_min_compute_capability s;
     ws_required_driver_version := ws_required_driver_version s;
     ws_required_runtime_compatibility := ws_required_runtime_compatibility s;
     ws_required_worker_tags := ws_required_worker_tags s;
     ws_preferred_worker_tags := ws_preferred_worker_tags s; ws_affinity_group_id := ws_affinity_group_id s;
     ws_affinity_mode := ws_affinity_mode s; ws_affinity_tag_key := ws_affinity_tag_key s;
     ws_affinity_hard := ws_affinity_hard s; ws_max_cost_per_hour := ws_max_cost_per_hour s;
     ws_depends_on := ws_depends_on s; ws_parameters := ws_parameters s;
     ws_execution_spec := ws_execution_spec s |}.

Definition job_ids_present (specs : list workload_spec) : gset string :=
  list_to_set (omap (fun s => match ws_job_id s with
                              | Some j => if str_truthy j then Some j else None
                              | None => None
                              end) specs).

(** [spec if spec.job_id == job_id else spec.model_copy(...)]. *)
Definition stamp (job_id : string) (s : workload_spec) : workload_spec :=
  if bool_decide (ws_job_id s = Some job_id) then s else with_job_id (Some job_id) s.

(** ** Worker tags and profiles *)

Section views.
(** [str] of a float, a list or a dictionary inside [extra["capabilities"]]. *)
Context (repr_other : json -> string).

Definition json_str (j : json) : string :=
  match j with
  | JNull => "None" | JBool true => "True" | JBool false => "False"
  | JInt n => str_of_Z n
  | JStr s => s
  | _ => repr_other j
  end.

(** Iterating [extra.get("capabilities", [])]: a string iterates over its
    characters, a dictionary over its keys, a scalar raises. *)
Definition json_iter (j : json) : res (list string) :=
  match j with
  | JList l => Ok (map json_str l)
  | JStr s => Ok (map (fun c => String c EmptyString) (list_ascii_of_string s))
  | JObj o => Ok (map fst o)
  | _ => Err TypeError
  end.

Definition declared_capabilities (c : worker_capabilities) : res (list string) :=
  json_iter (od_get_default "capabilities" (JList []) (cap_extra c)).

Definition add_capability (tags : odict string) (cap : string) : odict string :=
  let cap_key := ("cap:" +:+ str_lower cap)%string in
  if od_mem cap_key tags then tags else od_set cap_key "true"%string tags.

Definition effective_worker_tags (workers : list worker_info) : res (odict (odict string)) :=
  res_fold (fun result w =>
              let! caps := declared_capabilities (wi_capabilities w) in
              Ok (od_set (wi_worker_id w) (fold_left add_capability caps (wi_tags w)) result))
           [] workers.
End views.

Section profiles.
Context {S SA : Type}.

Definition placed_on (wid : string) (r : workload_record) : bool :=
  bool_decide (wr_state r = PLACED \/ wr_state r = EXECUTING)
  && match wr_placement_decision r with
     | Some d => String.eqb (pd_selected_worker_id d) wid
     | None => false
     end.

Definition active_count (attempts_reg : option (attempts SA)) (reg : registry S) (wid : string) : Z :=
  match attempts_reg with
  | Some at_reg => Z.of_nat (length (list_running_attempts_for_worker at_reg wid))
  | None => Z.of_nat (length (List.filter (placed_on wid) (list_workloads reg)))
  end.

Definition with_active_count (n : Z) (p : worker_resource_profile) : worker_resource_profile :=
  {| rp_worker_id := rp_worker_id p; rp_endpoint_url := rp_endpoint_url p; rp_ip_address := rp_ip_address p;
     rp_cpu_cores_total := rp_cpu_cores_total p; rp_cpu_cores_logical := rp_cpu_cores_logical p;
     rp_cpu_cores_physical := rp_cpu_cores_physical p; rp_cpu_freq_mhz := rp_cpu_freq_mhz p;
     rp_cpu_utilization_percent := rp_cpu_utilization_percent p; rp_ram_total_bytes := rp_ram_total_bytes p;
     rp_ram_available_bytes := rp_ram_available_bytes p; rp_gpu_available := rp_gpu_available p;
     rp_gpu_device_name := rp_gpu_device_name p; rp_gpu_vendor := rp_gpu_vendor p; rp_gpu_model := rp_gpu_model p;
     rp_gpu_compute_capability := rp_gpu_compute_capability p; rp_gpu_driver_version := rp_gpu_driver_version p;
     rp_vram_total_bytes := rp_vram_total_bytes p; rp_vram_available_bytes := rp_vram_available_bytes p;
     rp_active_workload_count := n; rp_max_concurrent_workloads := rp_max_concurrent_workloads p;
     rp_status := rp_status p; rp_local_cached_hashes := rp_local_cached_hashes p;
     rp_cost_per_hour := rp_cost_per_hour p; rp_timestamp_utc := rp_timestamp_utc p;
     rp_can_execute_workloads := rp_can_execute_workloads p |}.

Definition worker_profile (attempts_reg : option (attempts SA)) (reg : registry S) (w : worker_info)
  : option worker_resource_profile :=
  match wi_resource_profile w with
  | None => None
  | Some telemetry =>
      Some (with_active_count (active_count attempts_reg reg (wi_worker_id w))
              (rp_overlay (wi_worker_id w) (wi_endpoint_url w) (wi_ip_address w) (wi_status w)
                 (wi_inventory_hashes w) (rp_timestamp_utc telemetry) (wi_can_execute_workloads w) telemetry))
  end.

Definition build_worker_profiles (attempts_reg : option (attempts SA)) (reg : registry S)
    (workers : list worker_info) : list worker_resource_profile :=
  omap (worker_profile attempts_reg reg) workers.
End profiles.

(** [_trusted_asset_sizes]; [verified] is the only verification state. *)
Definition trusted_asset_sizes {SX} (artifact_registry : option (artifacts SX)) (spec : workload_spec) : odict Z :=
  match artifact_registry with
  | None => []
  | Some reg =>
      fold_left (fun sizes x =>
                   match af_size_bytes x with
                   | Some n => if bool_decide (af_content_hash x ∈ ws_input_asset_hashes spec) && (0 <=? n)
                               then od_set (af_content_hash x) n sizes else sizes
                   | None => sizes
                   end) (list_artifacts reg) []
  end.

(** ** The sizing request of a job *)

Definition maxZ (l : list Z) : Z := match l with [] => 0 | x :: l => fold_left Z.max l x end.

Definition sizing_request_of (job_id : string) (shape : execution_shape) (limit : option Z) (sizes : odict Z)
    (sample : workload_spec) (specs : list workload_spec) : sizing_request :=
  {| sq_request_id := ("job-" +:+ job_id)%string; sq_task_type := ws_task_type sample;
     sq_total_units := Z.of_nat (length specs);
     sq_unit_workload_seconds := Some (ws_estimated_duration_seconds sample);
     sq_deadline_seconds := None; sq_deadline_at_utc := ws_deadline_at_utc sample;
     sq_partitionable := negb (bool_decide (shape = SINGLE_MACHINE)); sq_min_units_per_worker := 1;
     sq_max_workers_limit := limit; sq_min_cpu_cores := maxZ (map ws_min_cpu_cores specs);
     sq_min_ram_bytes := Some (maxZ (map ws_min_ram_bytes specs));
     sq_requires_gpu := existsb ws_requires_gpu specs; sq_min_vram_bytes := maxZ (map ws_min_vram_bytes specs);
     sq_required_gpu_vendor := None; sq_required_gpu_model := None; sq_min_compute_capability := None;
     sq_required_driver_version := None; sq_required_runtime_compatibility := None; sq_required_tags := [];
     sq_required_worker_tags := fold_left (fun tags s => od_merge tags (ws_required_worker_tags s)) specs [];
     sq_preferred_worker_tags := []; sq_execution_spec := ws_execution_spec sample;
     sq_parameters := ws_parameters sample; sq_affinity_group_id := None; sq_affinity_mode := AF_NONE;
     sq_affinity_tag_key := None; sq_affinity_hard := true; sq_max_cost_per_hour := None;
     sq_input_asset_hashes := ⋃ (map ws_input_asset_hashes specs); sq_asset_sizes_bytes := sizes;
     sq_worker_speed_multipliers := []; sq_network_bandwidth := None; sq_coordination_overhead := None;
     sq_marginal_benefit_threshold := None |}.

Definition positive (o : option float) : bool := match o with Some x => fgt x f0 | None => true end.
Definition at_least (n : Z) (o : option Z) : bool := match o with Some x => n <=? x | None => true end.

(** The field constraints of [SizingRequest] that the request above can break. *)
Definition validate_sizing_request (q : sizing_request) : res sizing_request :=
  if (1 <=? sq_total_units q) && positive (sq_unit_workload_seconds q) && positive (sq_deadline_at_utc q)
     && at_least 1 (sq_max_workers_limit q) && (1 <=? sq_min_cpu_cores q)
     && at_least 1 (sq_min_ram_bytes q) && (0 <=? sq_min_vram_bytes q)
  then Ok q else Err (ValueError "validation error").

(** ** [submit_job] *)

Section submit_job.
Context {S SJ SA SX B : Type} `{RecordStore S workload_record} `{RecordStore SJ job_record} `{Advisory B}.
Context (repr_other : json -> string) (recursion_limit : nat) (sizer : cluster_sizer) (bridge : option B).

(** What the call reads and does not change. *)
Record job_inputs := {
  ji_workers : list worker_info;
  ji_attempts : option (attempts SA);
  ji_artifacts : option (artifacts SX);
}.

Record orchestrator := {
  or_admission : admission S;
  or_jobs : option (jobs SJ);
}.

Definition infer_shape (specs : list workload_spec) : execution_shape :=
  if existsb (fun s => negb (bool_decide (ws_depends_on s = []))) specs then PIPELINE
  else if bool_decide (1 < length specs)%nat then TASK_SPLIT else SINGLE_MACHINE.

Definition check_shape (shape : execution_shape) (required_worker_count : Z) (specs : list workload_spec) : res unit :=
  let! _ :=
    if bool_decide (shape = PIPELINE) then check_pipeline recursion_limit "job" specs
    else if existsb (fun s => negb (bool_decide (ws_depends_on s = []))) specs then
      Err (ValueError "workload dependencies require PIPELINE execution shape")
    else if bool_decide (shape = SINGLE_MACHINE) && negb (bool_decide (length specs = 1%nat)) then
      Err (ValueError "SINGLE_MACHINE requires exactly one workload")
    else Ok tt in
  if bool_decide (shape = DISTRIBUTED_NATIVE) then
    if negb (bool_decide (length specs = 1%nat)) || (required_worker_count <? 2) then
      Err (ValueError "DISTRIBUTED_NATIVE requires one workload and at least two workers")
    else Ok tt
  else if negb (required_worker_count =? 1) then
    Err (ValueError "required_worker_count is only valid for DISTRIBUTED_NATIVE")
  else Ok tt.

(** [assigned_workers] and [spare_workers]. *)
Definition choose_workers (now : float) (inp : job_inputs) (reg : registry S) (job_id : string)
    (shape : execution_shape) (worker_count : option Z) (selected : option (list string))
    (specs : list workload_spec) : res (option (list string) * option (list string)) :=
  match sorted_or_none selected, specs with
  | Some ids, _ => Ok (Some ids, None)
  | None, [] => Ok (None, None)
  | None, sample :: _ =>
      if bool_decide (shape = DISTRIBUTED_NATIVE) then Ok (None, None)
      else
        let sizes := trusted_asset_sizes (ji_artifacts inp) sample in
        match worker_count with
        | Some n =>
            let! worker_tags := effective_worker_tags repr_other (ji_workers inp) in
            let profiles := build_worker_profiles (ji_attempts inp) reg (ji_workers inp) in
            let! request := validate_sizing_request (sizing_request_of job_id shape (Some n) sizes sample specs) in
            let! probe := build_probe_spec request now in
            let env := {| pe_worker_tags := worker_tags; pe_group_workers := []; pe_now := now;
                          pe_predicted_duration := None; pe_asset_sizes := sizes |} in
            let eligible_ids := isort str_lt (ev_eligible_worker_ids (fst (evaluate bridge env probe profiles))) in
            if Z.of_nat (length eligible_ids) <? n then Err JobSubmissionInfeasibleError
            else Ok (Some (take (Z.to_nat n) eligible_ids), Some (drop (Z.to_nat n) eligible_ids))
        | None =>
            let! request := validate_sizing_request (sizing_request_of job_id shape None sizes sample specs) in
            let! worker_tags := effective_worker_tags repr_other (ji_workers inp) in
            let profiles := build_worker_profiles (ji_attempts inp) reg (ji_workers inp) in
            let! decision := size_cluster sizer bridge request profiles worker_tags [] now in
            if 0 <? zd_recommended_worker_count decision
            then Ok (Some (zd_selected_worker_ids decision), Some (zd_spare_worker_ids decision))
            else Ok (Some [], Some [])
        end
  end.

(** [for spec in stamped_specs: await self.submit_workload(spec)]. *)
Fixpoint submit_all (now : float) (specs : list workload_spec) (a : admission S) : admission S * res unit :=
  match specs with
  | [] => (a, Ok tt)
  | s :: specs =>
      match submit_workload now s a with
      | (a, Err e) => (a, Err e)
      | (a, Ok _) => submit_all now specs a
      end
  end.

Definition with_admission (a : admission S) (o : orchestrator) : orchestrator :=
  {| or_admission := a; or_jobs := or_jobs o |}.

Definition submit_and_return (now : float) (specs : list workload_spec) (job_id : string) (o : orchestrator)
  : orchestrator * res string :=
  let '(a, out) := submit_all now specs (or_admission o) in
  (with_admission a o, res_map (fun _ => job_id) out).

Definition find_job (o : orchestrator) (job_id : string) : option job_record :=
  or_jobs o ≫= fun jreg => get_job jreg job_id.

(** [JobRegistry(self.workload_registry)]. *)
Definition jobs_or_new (o : orchestrator) : jobs SJ :=
  default {| jb_jobs := []; jb_store := None |} (or_jobs o).

Definition submit_job (now : float) (fresh_id : string) (inp : job_inputs) (specs : list workload_spec)
    (policy : completion_policy) (threshold : option Z) (execution_shape : option execution_shape)
    (required_worker_count : Z) (worker_count : option Z) (selected : option (list string))
    (o : orchestrator) : orchestrator * res string :=
  match specs with
  | [] => (o, Err (ValueError "submit_job() requires at least one WorkloadSpec"))
  | _ =>
      let present := elements (job_ids_present specs) in
      if bool_decide (1 < length present)%nat then
        (o, Err (ValueError "submit_job() specs must share a single job_id or have none set"))
      else
        let job_id := default fresh_id (head present) in
        let stamped := map (stamp job_id) specs in
        match find_job o job_id with
        | Some _ => submit_and_return now stamped job_id o
        | None =>
            let shape := default (infer_shape specs) execution_shape in
            match
              (let! _ := check_shape shape required_worker_count specs in
               choose_workers now inp (ad_registry (or_admission o)) job_id shape worker_count selected stamped)
            with
            | Err e => (o, Err e)
            | Ok (assigned, spare) =>
                let '(jreg, created) :=
                  create_job now job_id (list_to_set (map ws_workload_id stamped)) policy threshold shape
                    required_worker_count assigned spare (jobs_or_new o) in
                let o := {| or_admission := or_admission o; or_jobs := Some jreg |} in
                match created with
                | Err e => (o, Err e)
                | Ok _ => submit_and_return now stamped job_id o
                end
            end
        end
  end.

Definition submit_execution (now : float) (fresh_id : string) (inp : job_inputs) (d : execution_description)
    (policy : completion_policy) (threshold : option Z) (o : orchestrator) : orchestrator * res string :=
  submit_job now fresh_id inp (ed_workloads d) policy threshold (Some (ed_execution_shape d))
    (ed_required_worker_count d) None None o.

(** [_maybe_promote_spare_worker]: the job's record, the working copy of the
    selected ids, and whether a spare was promoted; persisting the job is the
    job registry's save. *)
Definition with_members (selected spare : option (list string)) (j : job_record) : job_record :=
  {| jr_job_id := jr_job_id j; jr_workload_ids := jr_workload_ids j;
     jr_completion_policy := jr_completion_policy j; jr_threshold := jr_threshold j;
     jr_execution_shape := jr_execution_shape j; jr_required_worker_count := jr_required_worker_count j;
     jr_selected_worker_ids := selected; jr_spare_worker_ids := spare; jr_created_at := jr_created_at j |}.

Definition promote_spare (j : job_record) (job_selected exhausted : gset string) (required_worker_count : Z)
  : option (job_record * gset string) :=
  match jr_spare_worker_ids j with
  | None | Some [] => None
  | Some spares =>
      if required_worker_count <=? Z.of_nat (size (job_selected ∖ exhausted)) then None
      else
        match List.filter (fun w => negb (bool_decide (w ∈ exhausted))) spares with
        | [] => None
        | promoted :: rest =>
            Some (with_members
                    (match jr_selected_worker_ids j with
                     | Some l => Some (if bool_decide (promoted ∈ l) then l else l ++ [promoted])
                     | None => None
                     end) (Some rest) j,
                  {[promoted]} ∪ job_selected)
        end
  end.

Definition maybe_promote_spare_worker (job_id : string) (job_selected exhausted : gset string)
    (required_worker_count : Z) (jreg : jobs SJ) : jobs SJ * gset string * res bool :=
  match get_job jreg job_id with
  | None => (jreg, job_selected, Ok false)
  | Some j =>
      match promote_spare j job_selected exhausted required_worker_count with
      | None => (jreg, job_selected, Ok false)
      | Some (j', sel) =>
          ({| jb_jobs := od_set job_id j' (jb_jobs jreg); jb_store := persist_store (jb_store jreg) j' |}, sel,
           persist_result (jb_store jreg) j' true)
      end
  end.
End submit_job.
Arguments orchestrator S SJ : clear implicits.
Arguments job_inputs SA SX : clear implicits.

(** ** What submitting does to the registry and the queue *)

Section submit_proofs.
Context {S : Type} `{RecordStore S workload_record}.
Implicit Types (a : admission S) (reg : registry S).

(** The workload of [s] is on file with that specification. *)
Definition filed reg (s : workload_spec) : Prop :=
  exists r, get_workload reg (ws_workload_id s) = Some r /\ (wr_spec r = s \/ spec_eqb (wr_spec r) s = true).

(** It will be looked at by the admission loop, is being processed, or is
    finished. *)
Definition scheduled a (wid : string) : Prop :=
  wid ∈ ad_queued a \/ wid ∈ ad_processing a \/
  exists r, get_workload (ad_registry a) wid = Some r /\ wr_state r ∈ finished_states.

Definition keeps reg reg' : Prop := forall k r, get_workload reg k = Some r -> get_workload reg' k = Some r.

Lemma keeps_filed reg reg' s : keeps reg reg' -> filed reg s -> filed reg' s.
Proof. intros Hk (r & Hr & Hs). exists r. split; [by apply Hk|done]. Qed.

Lemma enqueue_fields wid a :
  ad_registry (enqueue_workload wid a) = ad_registry a /\
  ad_processing (enqueue_workload wid a) = ad_processing a /\
  (forall x, x ∈ ad_queued a -> x ∈ ad_queued (enqueue_workload wid a)) /\
  (is_Some (get_workload (ad_registry a) wid) -> scheduled (enqueue_workload wid a) wid).
Proof.
  unfold enqueue_workload, scheduled. case_bool_decide; [split_and!; auto|].
  destruct (get_workload (ad_registry a) wid) as [r|] eqn:E; [|split_and!; try done; by intros [? ?]].
  case_bool_decide; [split_and!; eauto|]. simpl. split_and!; [done|done| |].
  - intros x Hx. apply set_add_elem. by right.
  - intros _. left. apply set_add_elem. by left.
Qed.

(** Later steps that keep the records keep a workload scheduled. *)
Lemma scheduled_mono a a' wid :
  keeps (ad_registry a) (ad_registry a') -> ad_processing a' = ad_processing a ->
  (forall x, x ∈ ad_queued a -> x ∈ ad_queued a') -> scheduled a wid -> scheduled a' wid.
Proof.
  intros Hk Hp Hq [Hs|[Hs|(r & Hr & Hs)]]; [left; auto|right; left; by rewrite Hp|].
  right; right. exists r. split; [by apply Hk|done].
Qed.

Lemma add_workload_effect now s reg reg' out :
  add_workload now s reg = (reg', out) -> wf reg ->
  wf reg' /\ keeps reg reg' /\
  match out with
  | Ok _ => filed reg' s
  | Err e => e = StoreError \/ e = WorkloadIdConflictError (ws_workload_id s)
  end.
Proof.
  intros E Hwf. pose proof (add_workload_wf now s reg Hwf) as Hw. rewrite E in Hw. split; [done|].
  unfold add_workload in E. destruct (get_workload reg (ws_workload_id s)) as [r|] eqn:Eg.
  - destruct (spec_eqb (wr_spec r) s) eqn:Es; injection E as <- <-; [|split; [by intros k x|by right]].
    split; [by intros k x|]. exists r. auto.
  - assert (reg' = fst (commit reg (new_workload_record now s) (new_workload_record now s))) as -> by (by rewrite E).
    assert (get_workload (fst (commit reg (new_workload_record now s) (new_workload_record now s))) (ws_workload_id s)
            = Some (new_workload_record now s)) as Hnew by (rewrite get_workload_commit; unfold wr_id; simpl; by rewrite String.eqb_refl).
    split.
    + intros k r Hr. rewrite get_workload_commit. unfold wr_id. simpl. str_case; congruence.
    + apply (f_equal snd) in E. simpl in E. unfold persist_result, persist in E. destruct out as [o|e].
      * exists (new_workload_record now s). auto.
      * left. destruct (reg_store reg); [|done]. destruct (store_save _ _); naive_solver.
Qed.

Lemma submit_workload_effect now s a a' out :
  submit_workload now s a = (a', out) -> wf (ad_registry a) ->
  wf (ad_registry a') /\ keeps (ad_registry a) (ad_registry a') /\ ad_processing a' = ad_processing a /\
  (forall x, x ∈ ad_queued a -> x ∈ ad_queued a') /\
  match out with
  | Ok _ => filed (ad_registry a') s /\ scheduled a' (ws_workload_id s)
  | Err e => e = StoreError \/ e = WorkloadIdConflictError (ws_workload_id s)
  end.
Proof.
  unfold submit_workload. intros E Hwf. destruct (add_workload now s (ad_registry a)) as [reg [r|e]] eqn:Ea;
    injection E as <- <-; destruct (add_workload_effect _ _ _ _ _ Ea Hwf) as (Hw & Hk & Hout); [|done].
  destruct (enqueue_fields (ws_workload_id s) (with_registry reg a)) as (Hreg & Hp & Hq & Hs).
  rewrite Hreg. simpl in *. split_and!; [done..|]. apply Hs. destruct Hout as (x & Hx & _). by rewrite Hx.
Qed.

Lemma submit_all_effect now specs a a' out :
  submit_all now specs a = (a', out) -> wf (ad_registry a) ->
  wf (ad_registry a') /\ keeps (ad_registry a) (ad_registry a') /\ ad_processing a' = ad_processing a /\
  (forall x, x ∈ ad_queued a -> x ∈ ad_queued a') /\
  match out with
  | Ok _ => forall s, s ∈ specs -> filed (ad_registry a') s /\ scheduled a' (ws_workload_id s)
  | Err e => e = StoreError \/ exists s, s ∈ specs /\ e = WorkloadIdConflictError (ws_workload_id s)
  end.
Proof.
  revert a. induction specs as [|s specs IH]; intros a E Hwf; cbn [submit_all] in E.
  { injection E as <- <-. split_and!; [done|by intros k x|done|done|]. by intros s Hs%not_elem_of_nil. }
  destruct (submit_workload now s a) as [a1 [w|e]] eqn:E1;
    destruct (submit_workload_effect _ _ _ _ _ E1 Hwf) as (Hw1 & Hk1 & Hp1 & Hq1 & Hout1).
  2: { injection E as <- <-. split_and!; try done. destruct Hout1; [by left|right; exists s; split; [left|done]]. }
  destruct (IH a1 E Hw1) as (Hw & Hk & Hp & Hq & Hout). destruct Hout1 as [Hf Hs].
  split_and!; [done|intros k r Hr; by apply Hk, Hk1|congruence|auto|].
  destruct out as [[]|e].
  - intros x [->|Hx]%elem_of_cons; [|auto]. split; [by apply (keeps_filed (ad_registry a1))|].
    by apply (scheduled_mono a1).
  - destruct Hout as [|(x & Hx & ->)]; [by left|]. right. exists x. split; [by right|done].
Qed.
End submit_proofs.

Section submit_job_properties.
Context {S SJ SA SX B : Type} `{RecordStore S workload_record} `{RecordStore SJ job_record} `{Advisory B}.
Context (repr_other : json -> string) (recursion_limit : nat) (sizer : cluster_sizer) (bridge : option B).
Implicit Types o : orchestrator S SJ.

Lemma create_job_keeps now id ids policy threshold shape n sel sp (reg reg' : jobs SJ) out :
  create_job now id ids policy threshold shape n sel sp reg = (reg', out) ->
  (forall k j, get_job reg k = Some j -> get_job reg' k = Some j) /\
  match out with
  | Ok j => get_job reg' id = Some j /\ (get_job reg id = None -> jr_workload_ids j = ids)
  | Err e => e = StoreError \/ reg' = reg
  end.
Proof.
  unfold create_job. destruct (get_job reg id) as [j|] eqn:E; [intros [= <- <-]; by rewrite E|].
  destruct (new_job_record _ _ _ _ _ _ _ _ _) as [r|e] eqn:Er; intros [= <- <-]; [|split; [done|by right]].
  unfold get_job in *. simpl. split.
  - intros k j Hj. rewrite od_get_set. str_case; congruence.
  - unfold persist_result, persist. destruct (jb_store reg); [destruct (store_save _ _)|]; simpl; [|by left|];
      (split; [by rewrite od_get_set_eq|]); intros _; unfold new_job_record in Er;
      repeat (match type of Er with context [if ?b then _ else _] => destruct b; [try done|try done] end);
      by injection Er as <-.
Qed.

Lemma find_job_new o id : get_job (jobs_or_new o) id = find_job o id.
Proof. unfold jobs_or_new, find_job. by destruct (or_jobs o). Qed.

(** What is promised of a submission of [specs] that took [o] to [o'].  *)
Definition job_submitted (specs : list workload_spec) o o' (job_id : string) : Prop :=
  (exists j, find_job o' job_id = Some j /\
     (find_job o job_id = None -> jr_workload_ids j = list_to_set (map ws_workload_id (map (stamp job_id) specs)))) /\
  forall s, s ∈ specs ->
    filed (ad_registry (or_admission o')) (stamp job_id s) /\
    scheduled (or_admission o') (ws_workload_id (stamp job_id s)).

Definition submit_outcome (specs : list workload_spec) o o' (out : res string) : Prop :=
  keeps (ad_registry (or_admission o)) (ad_registry (or_admission o')) /\
  (forall k j, find_job o k = Some j -> find_job o' k = Some j) /\
  match out with
  | Ok job_id => job_submitted specs o o' job_id
  | Err e =>
      e = StoreError \/ (exists wid, e = WorkloadIdConflictError wid) \/
      (or_admission o' = or_admission o /\ forall k, find_job o' k = find_job o k)
  end.

Lemma nothing_submitted specs o e : submit_outcome specs o o (Err e).
Proof. split; [by intros k r|]. split; [done|]. right; right. done. Qed.

Lemma submit_and_return_outcome now job_id specs o o1 o' out :
  wf (ad_registry (or_admission o)) -> or_admission o1 = or_admission o ->
  (forall k j, find_job o k = Some j -> find_job o1 k = Some j) ->
  (exists j, find_job o1 job_id = Some j /\
     (find_job o job_id = None -> jr_workload_ids j = list_to_set (map ws_workload_id (map (stamp job_id) specs)))) ->
  submit_and_return now (map (stamp job_id) specs) job_id o1 = (o', out) -> submit_outcome specs o o' out.
Proof.
  intros Hwf Ha Hj Hjob E. unfold submit_and_return in E.
  destruct (submit_all now (map (stamp job_id) specs) (or_admission o1)) as [a' out1] eqn:Ea.
  rewrite Ha in Ea. destruct (submit_all_effect _ _ _ _ _ Ea Hwf) as (_ & Hk & _ & _ & Hout).
  injection E as <- <-. unfold submit_outcome, job_submitted, find_job in *. simpl. split_and!; [done..|].
  destruct out1 as [[]|e]; simpl.
  - split; [exact Hjob|]. intros s Hs. apply Hout. by apply list_elem_of_fmap_2.
  - destruct Hout as [|(x & _ & ->)]; [by left|right; left; eauto].
Qed.

(** C14: a job submission files everything or says what went wrong.  Whatever
    the arguments, no workload or job already on record changes.  If
    [submit_job] returns a job id, that job is on record (with exactly the
    submitted workloads as members when it is new), and every specification is
    on file under its workload id, stamped with the job id, and queued,
    in process or already finished.  If it raises anything but a failed write
    or a conflicting workload id, neither a workload nor a job was added and
    nothing was queued. *)
Theorem submit_job_effect now fresh (inp : job_inputs SA SX) specs policy threshold shape required count selected o o' out :
  wf (ad_registry (or_admission o)) ->
  submit_job repr_other recursion_limit sizer bridge now fresh inp specs policy threshold shape required count selected o
    = (o', out) ->
  submit_outcome specs o o' out.
Proof.
  intros Hwf E. unfold submit_job in E.
  destruct specs as [|s0 rest]; [injection E as <- <-; apply nothing_submitted|]. set (specs := s0 :: rest) in *.
  destruct (bool_decide _); [injection E as <- <-; apply nothing_submitted|].
  set (job_id := default fresh _) in *. destruct (find_job o job_id) as [job|] eqn:Ej.
  { eapply (submit_and_return_outcome now job_id specs o o); [done..| |exact E]. exists job. by rewrite Ej. }
  destruct (res_bind _ _) as [[assigned spare]|e]; [|injection E as <- <-; apply nothing_submitted].
  destruct (create_job _ _ _ _ _ _ _ _ _ _) as [jreg created] eqn:Ec.
  destruct (create_job_keeps _ _ _ _ _ _ _ _ _ _ _ _ Ec) as [Hkeep Hout].
  setoid_rewrite find_job_new in Hkeep. rewrite find_job_new in Hout. destruct created as [j|e].
  - eapply (submit_and_return_outcome now job_id specs o {| or_admission := or_admission o; or_jobs := Some jreg |});
      [done|done|exact Hkeep| |exact E].
    destruct Hout as [Hj Hids]. exists j. split; [exact Hj|done].
  - injection E as <- <-. split; [by intros k r|]. split; [exact Hkeep|].
    destruct Hout as [|Hsame]; [by left|]. right; right.
    split; [done|]. intros k. rewrite <- (find_job_new o k), <- Hsame. done.
Qed.
End submit_job_properties.

(** ** Concrete submissions *)

Definition sample_worker (wid : string) : worker_info :=
  wi_set_profile (Some (plain_profile wid 4 (2 ^ 34) ∅)) (plain_worker wid f0 ∅).
Definition sample_inputs : job_inputs (mem_store attempt_record) (mem_store artifact) :=
  {| ji_workers := map sample_worker ["pc1"; "pc2"; "pc3"]%string; ji_attempts := None; ji_artifacts := None |}.

Definition sized_spec (wid : string) : workload_spec :=
  let s := plain_spec wid "render" [] in
  {| ws_workload_id := ws_workload_id s; ws_job_id := ws_job_id s; ws_task_type := ws_task_type s;
     ws_input_asset_hashes := ws_input_asset_hashes s; ws_min_cpu_cores := 1; ws_min_ram_bytes := 2 ^ 20;
     ws_requires_gpu := false; ws_min_vram_bytes := 0; ws_estimated_duration_seconds := f_of_Z 60;
     ws_priority := 5; ws_deadline_at_utc := None; ws_required_gpu_vendor := None; ws_required_gpu_model := None;
     ws_min_compute_capability := None; ws_required_driver_version := None;
     ws_required_runtime_compatibility := None; ws_required_worker_tags := []; ws_preferred_worker_tags := [];
     ws_affinity_group_id := None; ws_affinity_mode := AF_NONE; ws_affinity_tag_key := None;
     ws_affinity_hard := false; ws_max_cost_per_hour := None; ws_depends_on := []; ws_parameters := [];
     ws_execution_spec := None |}.

Definition no_jobs : orchestrator (mem_store workload_record) (mem_store job_record) :=
  {| or_admission := {| ad_registry := empty_registry (Some (Build_mem_store [] [])); ad_queued := [];
                        ad_processing := []; ad_tasks := [] |};
     or_jobs := None |}.

(** Two renders on two of the three machines. *)
Definition submit_two (count : option Z) :
    orchestrator (mem_store workload_record) (mem_store job_record) * res string :=
  submit_job (B := Empty_set) (fun _ => ""%string) 1000 default_sizer None f0 "job-fresh" sample_inputs
    [sized_spec "w1"; sized_spec "w2"] ALL_REQUIRED None None 1 count None no_jobs.

Example two_of_three :
  snd (submit_two (Some 2)) = Ok "job-fresh"%string /\
  option_map (fun j => (jr_selected_worker_ids j, jr_spare_worker_ids j)) (find_job (fst (submit_two (Some 2))) "job-fresh")
  = Some (Some ["pc1"; "pc2"], Some ["pc3"])%string.
Proof. vm_compute. split; reflexivity. Qed.

Example four_of_three : snd (submit_two (Some 4)) = Err JobSubmissionInfeasibleError.
Proof. vm_compute. reflexivity. Qed.

Lemma submit_job_witness : submit_outcome [sized_spec "w1"; sized_spec "w2"] no_jobs (fst (submit_two None)) (snd (submit_two None)).
Proof.
  eapply (submit_job_effect (B := Empty_set) (fun _ => ""%string) 1000 default_sizer None f0 "job-fresh" sample_inputs
    [sized_spec "w1"; sized_spec "w2"] ALL_REQUIRED None None 1 None None no_jobs).
  - apply wf_empty.
  - apply surjective_pairing.
Defined.

(** The sizing request has no field for a required GPU vendor: one worker is
    asked for, and the job is confined to one that can never run it, although
    ["pc2"] could. *)
Definition with_vendor (vendor : string) (p : worker_resource_profile) : worker_resource_profile :=
  {| rp_worker_id := rp_worker_id p; rp_endpoint_url := rp_endpoint_url p; rp_ip_address := rp_ip_address p;
     rp_cpu_cores_total := rp_cpu_cores_total p; rp_cpu_cores_logical := rp_cpu_cores_logical p;
     rp_cpu_cores_physical := rp_cpu_cores_physical p; rp_cpu_freq_mhz := rp_cpu_freq_mhz p;
     rp_cpu_utilization_percent := rp_cpu_utilization_percent p; rp_ram_total_bytes := rp_ram_total_bytes p;
     rp_ram_available_bytes := rp_ram_available_bytes p; rp_gpu_available := true;
     rp_gpu_device_name := Some "gpu"%string; rp_gpu_vendor := Some vendor; rp_gpu_model := None;
     rp_gpu_compute_capability := None; rp_gpu_driver_version := None;
     rp_vram_total_bytes := 2 ^ 33; rp_vram_available_bytes := 2 ^ 33;
     rp_active_workload_count := rp_active_workload_count p;
     rp_max_concurrent_workloads := rp_max_concurrent_workloads p;
     rp_status := rp_status p; rp_local_cached_hashes := rp_local_cached_hashes p;
     rp_cost_per_hour := rp_cost_per_hour p; rp_timestamp_utc := rp_timestamp_utc p;
     rp_can_execute_workloads := rp_can_execute_workloads p |}.
Definition vendor_spec : workload_spec :=
  let s := sized_spec "w1" in
  {| ws_workload_id := ws_workload_id s; ws_job_id := ws_job_id s; ws_task_type := ws_task_type s;
     ws_input_asset_hashes := ws_input_asset_hashes s; ws_min_cpu_cores := 1; ws_min_ram_bytes := 2 ^ 20;
     ws_requires_gpu := true; ws_min_vram_bytes := 0; ws_estimated_duration_seconds := f_of_Z 60;
     ws_priority := 5; ws_deadline_at_utc := None; ws_required_gpu_vendor := Some "NVIDIA"%string;
     ws_required_gpu_model := None; ws_min_compute_capability := None; ws_required_driver_version := None;
     ws_required_runtime_compatibility := None; ws_required_worker_tags := []; ws_preferred_worker_tags := [];
     ws_affinity_group_id := None; ws_affinity_mode := AF_NONE; ws_affinity_tag_key := None;
     ws_affinity_hard := false; ws_max_cost_per_hour := None; ws_depends_on := []; ws_parameters := [];
     ws_execution_spec := None |}.
Definition vendor_worker (wid vendor : string) : worker_info :=
  wi_set_profile (Some (with_vendor vendor (plain_profile wid 4 (2 ^ 34) ∅))) (plain_worker wid f0 ∅).
Definition vendor_workers : list worker_info := [vendor_worker "pc1" "AMD"; vendor_worker "pc2" "NVIDIA"].

Example vendor_ignored_by_sizing :
  let '(o, out) := submit_job (B := Empty_set) (fun _ => ""%string) 1000 default_sizer None f0 "job-fresh"
                     {| ji_workers := vendor_workers; ji_attempts := @None (attempts (mem_store attempt_record));
                        ji_artifacts := @None (artifacts (mem_store artifact)) |}
                     [vendor_spec] ALL_REQUIRED None None 1 (Some 1) None no_jobs in
  out = Ok "job-fresh"%string /\
  option_map jr_selected_worker_ids (find_job o "job-fresh") = Some (Some ["pc1"%string]) /\
  map (fun p => (rp_worker_id p, rejection_reasons {| pe_worker_tags := []; pe_group_workers := []; pe_now := f0; pe_predicted_duration := None;
                                                  pe_asset_sizes := [] |} vendor_spec p))
      (build_worker_profiles (@None (attempts (mem_store attempt_record))) (ad_registry (or_admission o)) vendor_workers)
  = [("pc1", ["GPU_VENDOR_MISMATCH"]); ("pc2", [])]%string.
Proof. vm_compute. split_and!; reflexivity. Qed.
