(* ===== verification/Polling.v ===== *)
(** * Submitting an execution and polling it ([distributed/workload.py], [_submit_and_await])

    What the coordinator does with one attempt on one worker, as a function of
    what the HTTP client answers.  A request either fails in transport or gets a
    status code and a body; the body is what the two Pydantic models make of it.
    One element of [polls] is one turn of the polling loop: the coordinator's
    own records as the turn reads them, and the reply to its status request.
    The result also lists the requests sent.  The pauses between polls and the
    log lines are left out. *)
From S2P Require Export WorkloadRegistry AttemptRegistry.

(** [ExecutionState]. *)
Inductive execution_state := X_ACCEPTED | X_RUNNING | X_SUCCEEDED | X_FAILED | X_CANCELLED.
#[export] Instance execution_state_eq_dec : EqDecision execution_state.
Proof. solve_decision. Defined.

(** The body of a reply: an [ExecutionStatus], a bare [WorkloadExecutionResult],
    or something neither model accepts, with the text of that error. *)
Inductive payload :=
| P_STATUS (st : execution_state) (result : option workload_execution_result)
| P_RESULT (result : workload_execution_result)
| P_INVALID (text : string).

(** [NO_REPLY] is an [httpx.RequestError] with its text. *)
Inductive http :=
| NO_REPLY (text : string)
| REPLY (status : Z) (body : payload).

(** The exceptions of the call; the last carries [str(exc)]. *)
Inductive dispatch_error :=
| SubmitUnavailable (text : string)
| RecordLost (text : string)
| OtherError (text : string).

Definition error_text (e : dispatch_error) : string :=
  match e with SubmitUnavailable t | RecordLost t | OtherError t => t end.

Inductive request := SUBMIT | RESOLVE | STATUS | CANCEL | ACK.
#[export] Instance request_eq_dec : EqDecision request.
Proof. solve_decision. Defined.

(** [raise_for_status] passes the 2xx codes only. *)
Definition is_success (code : Z) : bool := (200 <=? code) && (code <=? 299).
Definition is_auth (code : Z) : bool := (code =? 401) || (code =? 403).
Definition is_terminal (st : execution_state) : bool :=
  bool_decide (st = X_SUCCEEDED \/ st = X_FAILED \/ st = X_CANCELLED).

Record poll := {
  po_workload_state : option workload_state;
  po_attempt_status : option attempt_status;
  po_reply : http;
}.

Section polling.
(** The workload and worker ids of the call, and the text httpx gives a status
    error. *)
Context (workload_id worker_id : string) (status_error_text : Z -> string).

Definition failed_result (message : string) (category : failure_category) : workload_execution_result :=
  {| er_workload_id := workload_id; er_worker_id := worker_id; er_success := false;
     er_output_asset_hashes := ∅; er_output_asset_sizes := []; er_execution_duration_seconds := f0;
     er_error_message := Some message; er_was_checkpointed := false; er_checkpoint_hash := None;
     er_failure_category := Some category; er_checkpoint_runtime_type := None;
     er_checkpoint_format_version := None; er_staging_duration_seconds := f0;
     er_output_ingestion_duration_seconds := f0; er_verification_duration_seconds := f0;
     er_transfer_duration_seconds := f0; er_stdout_snippet := None; er_stderr_snippet := None |}.

Definition cancellation_result : workload_execution_result :=
  failed_result "Execution cancelled by request" EXECUTION_FAILURE.
Definition lost_result : workload_execution_result :=
  failed_result "Owning worker was lost before completion" WORKER_UNAVAILABLE.

Inductive progress :=
| Finished (r : workload_execution_result)
| Raised (e : dispatch_error)
| Polling (st : execution_state) (result : option workload_execution_result).

Definition auth_text (code : Z) : string :=
  ("worker rejected control-plane authentication (HTTP " +:+ str_of_Z code +:+ ")")%string.

(** The reply to the status request that resolves an ambiguous submit. *)
Definition resolve_submit (resolution : http) : progress :=
  match resolution with
  | NO_REPLY text => Raised (SubmitUnavailable ("worker execution submit could not be resolved: " +:+ text))
  | REPLY code body =>
      if code =? 404 then Raised (SubmitUnavailable "worker has no record of the submitted attempt")
      else if is_auth code then Raised (SubmitUnavailable (auth_text code))
      else if negb (is_success code) then Raised (OtherError (status_error_text code))
      else match body with
           | P_STATUS st r => Polling st r
           | P_RESULT _ => Raised (OtherError "validation error")
           | P_INVALID text => Raised (OtherError text)
           end
  end.

(** The submit request; [resolution] answers the second request if one is made. *)
Definition submit (reply resolution : http) : progress * list request :=
  match reply with
  | NO_REPLY _ => (resolve_submit resolution, [SUBMIT; RESOLVE])
  | REPLY code body =>
      if code =? 404 then
        (Raised (SubmitUnavailable "worker does not expose the M20 execution endpoint"), [SUBMIT])
      else if is_auth code then (Raised (SubmitUnavailable (auth_text code)), [SUBMIT])
      else if negb (is_success code) then (resolve_submit resolution, [SUBMIT; RESOLVE])
      else match body with
           | P_STATUS st r => (Polling st r, [SUBMIT])
           | P_RESULT r => (Finished r, [SUBMIT])
           | P_INVALID text => (Raised (OtherError text), [SUBMIT])
           end
  end.

Definition result_or_cancelled (r : option workload_execution_result) : workload_execution_result :=
  match r with Some r => r | None => cancellation_result end.

(** One turn of the [while True] loop; [Polling] means another turn. *)
Definition poll_once (p : poll) : progress * list request :=
  if bool_decide (po_workload_state p = Some CANCELLATION_REQUESTED \/ po_workload_state p = Some CANCELLED) then
    (Finished cancellation_result, [CANCEL])
  else if bool_decide (po_attempt_status p = Some LOST) then (Finished lost_result, [CANCEL])
  else
    match po_reply p with
    | NO_REPLY _ => (Polling X_RUNNING None, [STATUS])
    | REPLY code body =>
        if code =? 404 then (Raised (RecordLost "worker execution record disappeared"), [STATUS])
        else if negb (is_success code) then (Polling X_RUNNING None, [STATUS])
        else match body with
             | P_STATUS st r =>
                 if is_terminal st then (Finished (result_or_cancelled r), [STATUS; ACK])
                 else (Polling st r, [STATUS])
             | P_RESULT r => (Finished r, [STATUS])
             | P_INVALID text => (Raised (OtherError text), [STATUS])
             end
    end.

Fixpoint poll_loop (polls : list poll) : progress * list request :=
  match polls with
  | [] => (Polling X_RUNNING None, [])
  | p :: polls =>
      match poll_once p with
      | (Polling _ _, sent) => let '(out, sent') := poll_loop polls in (out, sent ++ sent')
      | done => done
      end
  end.

Definition submit_and_await (reply resolution : http) (polls : list poll) : progress * list request :=
  match submit reply resolution with
  | (Polling st r, sent) =>
      if is_terminal st then (Finished (result_or_cancelled r), sent ++ [ACK])
      else let '(out, sent') := poll_loop polls in (out, sent ++ sent')
  | done => done
  end.

(** ** Properties *)

(** A body that reports a result. *)
Definition reports (h : http) (r : workload_execution_result) : Prop :=
  exists code, is_success code = true /\
    (h = REPLY code (P_RESULT r) \/
     exists st, is_terminal st = true /\ h = REPLY code (P_STATUS st (Some r))).

(** A turn the loop survives: the coordinator still wants the attempt and the
    reply is a transport failure, an error status other than 404, or a status
    that is not terminal. *)
Definition transient (p : poll) : Prop :=
  (po_workload_state p <> Some CANCELLATION_REQUESTED /\ po_workload_state p <> Some CANCELLED /\
   po_attempt_status p <> Some LOST) /\
  match po_reply p with
  | NO_REPLY _ => True
  | REPLY code body =>
      code <> 404 /\
      (is_success code = true -> exists st r, body = P_STATUS st r /\ is_terminal st = false)
  end.

Lemma poll_once_transient p : transient p <-> exists st r, poll_once p = (Polling st r, [STATUS]).
Proof.
  unfold transient, poll_once. case_bool_decide as H1; [split; [intros ((? & ? & _) & _); tauto|by intros (?&?&?)]|].
  case_bool_decide as H2; [split; [intros ((_ & _ & ?) & _); done|by intros (?&?&?)]|].
  destruct (po_reply p) as [text|code body]; [split; [by eauto|intros _; split; [tauto|done]]|].
  destruct (Z.eqb_spec code 404); [split; [by intros (_ & ? & _)|by intros (?&?&?)]|].
  destruct (is_success code); simpl; [|split; [by eauto|intros _; split; [tauto|done]]].
  destruct body as [st r|r|text]; [destruct (is_terminal st) eqn:Et| |]; simpl;
    (split; [intros (_ & _ & Hb); destruct (Hb eq_refl) as (st' & r' & ? & ?); simplify_eq; first [congruence|by eauto]|]);
    intros (?&?&?); simplify_eq; split; [tauto|]; split; [done|]; by eauto.
Qed.

Lemma poll_once_polling p st r sent : poll_once p = (Polling st r, sent) -> transient p /\ sent = [STATUS].
Proof.
  intros E. assert (sent = [STATUS]) as ->; [|split; [|done]; apply poll_once_transient; eauto].
  revert E. unfold poll_once. repeat case_bool_decide; try done.
  destruct (po_reply p) as [|code body]; [naive_solver|]. destruct (_ =? _); [done|].
  destruct (negb _); [naive_solver|]. destruct body; try naive_solver. destruct (is_terminal _); naive_solver.
Qed.

Lemma poll_loop_done polls out sent :
  poll_loop polls = (out, sent) ->
  (Forall transient polls /\ out = Polling X_RUNNING None /\ sent = repeat STATUS (length polls)) \/
  exists before p after tail, polls = before ++ p :: after /\ Forall transient before /\ ~ transient p /\
    poll_once p = (out, tail) /\ sent = repeat STATUS (length before) ++ tail.
Proof.
  revert out sent. induction polls as [|p polls IH]; intros out sent E; cbn [poll_loop] in E.
  { injection E as <- <-. left. split; [constructor|done]. }
  destruct (poll_once p) as [[r|e|st r] tail] eqn:Ep.
  1,2: injection E as <- <-; right; exists [], p, polls, tail; split_and!; try done;
       rewrite poll_once_transient; intros (st & r' & Hp); congruence.
  destruct (poll_once_polling _ _ _ _ Ep) as [Ht ->].
  destruct (poll_loop polls) as [out' sent'] eqn:El. injection E as <- <-.
  destruct (IH _ _ eq_refl) as [(Hf & -> & ->)|(before & q & after & tail & -> & Hb & Hq & Hpq & ->)].
  - left. split_and!; [by constructor|done|done].
  - right. exists (p :: before), q, after, tail. split_and!; [done|by constructor|done|done|done].
Qed.

Lemma poll_once_result p r sent :
  poll_once p = (Finished r, sent) ->
  reports (po_reply p) r \/ r = cancellation_result \/ r = lost_result.
Proof.
  unfold poll_once. case_bool_decide; [intros [= <- _]; auto|]. case_bool_decide; [intros [= <- _]; auto|].
  destruct (po_reply p) as [|code body]; [done|]. destruct (_ =? _); [done|].
  destruct (is_success code) eqn:Es; simpl; [|done].
  destruct body as [st r'|r'|text]; [|intros [= <- _]; left; exists code; auto|done].
  destruct (is_terminal st) eqn:Et; [|done]. intros [= <- _].
  destruct r' as [r'|]; [left; exists code; eauto|auto].
Qed.

Lemma submit_requests reply resolution :
  snd (submit reply resolution) = [SUBMIT] \/ snd (submit reply resolution) = [SUBMIT; RESOLVE].
Proof.
  unfold submit. destruct reply as [|code body]; [by right|]. destruct (_ =? _); [by left|].
  destruct (is_auth code); [by left|]. destruct (negb _); [by right|]. destruct body; by left.
Qed.

Lemma poll_once_requests p : SUBMIT ∉ snd (poll_once p).
Proof.
  unfold poll_once. repeat case_bool_decide; simpl; try set_solver.
  destruct (po_reply p) as [|code body]; simpl; [set_solver|]. destruct (_ =? _); simpl; [set_solver|].
  destruct (negb _); simpl; [set_solver|]. destruct body; simpl; try set_solver. destruct (is_terminal _); simpl; set_solver.
Qed.

Lemma poll_loop_requests polls : SUBMIT ∉ snd (poll_loop polls).
Proof.
  induction polls as [|p polls IH]; cbn [poll_loop]; [simpl; set_solver|].
  pose proof (poll_once_requests p) as Hp. destruct (poll_once p) as [[r|e|st r] sent]; try done.
  destruct (poll_loop polls). simpl in *. set_solver.
Qed.

Lemma poll_loop_split before p after out sent :
  Forall transient before -> ~ transient p -> poll_loop (before ++ p :: after) = (out, sent) -> out = fst (poll_once p).
Proof.
  intros Hb Hp. revert out sent. induction Hb as [|q before Hq Hb IH]; intros out sent E; cbn [poll_loop app] in E.
  - destruct (poll_once p) as [[r|e|st r] tail] eqn:Ep; [by injection E as <- _..|].
    destruct Hp. apply poll_once_transient. apply poll_once_polling in Ep as [Ht _]. by apply poll_once_transient.
  - apply poll_once_transient in Hq as (st & r & Hq). rewrite Hq in E. destruct (poll_loop (before ++ p :: after)) as [o1 s1].
    injection E as <- _. by eapply IH.
Qed.

Lemma poll_loop_result polls r sent :
  poll_loop polls = (Finished r, sent) ->
  (exists p, p ∈ polls /\ reports (po_reply p) r) \/ r = cancellation_result \/ r = lost_result.
Proof.
  intros E. destruct (poll_loop_done _ _ _ E) as [(_ & ? & _)|(before & p & after & tail & -> & _ & _ & Hp & _)]; [done|].
  destruct (poll_once_result _ _ _ Hp) as [Hr|Hr]; [left|by right].
  exists p. split; [|done]. rewrite elem_of_app, elem_of_cons. auto.
Qed.

Lemma submit_finished reply resolution r :
  fst (submit reply resolution) = Finished r -> reports reply r.
Proof.
  unfold submit, resolve_submit.
  destruct reply as [t|code body]; [destruct resolution as [t'|c b]; repeat case_match; done|].
  destruct (code =? 404); [done|]. destruct (is_auth code); [done|].
  destruct (is_success code) eqn:E; simpl; [|destruct resolution as [t'|c b]; repeat case_match; done].
  destruct body as [st x|x|t]; try done. intros [= <-]. exists code. auto.
Qed.

Lemma resolve_submit_polling c b st r :
  resolve_submit (REPLY c b) = Polling st (Some r) ->
  exists code, is_success code = true /\ REPLY c b = REPLY code (P_STATUS st (Some r)).
Proof.
  unfold resolve_submit. destruct (c =? 404); [done|]. destruct (is_auth c); [done|].
  destruct (is_success c) eqn:E; simpl; [|done]. destruct b; try done. intros [= <- <-]. eauto.
Qed.

Lemma submit_polling reply resolution st r :
  fst (submit reply resolution) = Polling st (Some r) ->
  (exists code, is_success code = true /\ reply = REPLY code (P_STATUS st (Some r))) \/
  exists code, is_success code = true /\ resolution = REPLY code (P_STATUS st (Some r)).
Proof.
  unfold submit. destruct reply as [t|code body].
  { destruct resolution; [done|]; intros H; right; by apply resolve_submit_polling. }
  destruct (code =? 404); [done|]. destruct (is_auth code); [done|].
  destruct (is_success code) eqn:E; simpl.
  - destruct body as [st' x|x|t]; try done. intros [= <- <-]. left. eauto.
  - destruct resolution; [done|]; intros H; right; by apply resolve_submit_polling.
Qed.

Lemma poll_once_cancel p :
  po_workload_state p = Some CANCELLATION_REQUESTED \/ po_workload_state p = Some CANCELLED \/
    po_attempt_status p = Some LOST ->
  snd (poll_once p) = [CANCEL] /\ exists r, fst (poll_once p) = Finished r /\ er_success r = false.
Proof.
  intros Hp. unfold poll_once. case_bool_decide as H1; [split; [done|by eexists]|].
  rewrite bool_decide_eq_true_2 by tauto. split; [done|by eexists].
Qed.

End polling.

(** A flaky network: the submit is ambiguous, the worker knows the attempt, two
    polls fail, the third reports the result. *)
Example flaky_network :
  let ok := failed_result "w" "pc" "none" APPLICATION_ERROR in
  let p h := {| po_workload_state := Some EXECUTING; po_attempt_status := Some RUNNING; po_reply := h |} in
  submit_and_await "w" "pc" (fun _ => "") (NO_REPLY "timeout") (REPLY 200 (P_STATUS X_RUNNING None))
    [p (NO_REPLY "reset"); p (REPLY 503 (P_INVALID "")); p (REPLY 200 (P_STATUS X_FAILED (Some ok)))]
  = (Finished ok, [SUBMIT; RESOLVE; STATUS; STATUS; STATUS; ACK]).
Proof. vm_compute. reflexivity. Qed.
