(* ===== verification/Orchestrator.v ===== *)
(** * Driving one workload ([distributed/workload.py], [_process_workload])

    The coroutine that takes a queued workload through placement, dispatch,
    polling and retries.  Its Python body is a state-and-exception computation
    over the coordinator's registries ([coordinator]) and two local variables,
    the exhausted workers and the job's selected workers ([local]); [M] is that
    monad.  The one [await] that matters is the dispatch: the world then makes
    an [event], that is, other tasks change the registries in any way and every
    member of the execution returns what [submit_and_await] may return.  Each
    stretch of code between two awaits reads the clock once.

    Left out: log lines, the fire-and-forget HTTP cancellations of superseded
    attempts, the wait for a group drain to finish (the event covers it), the
    speculative clone started after a success (another task: [Cancellation]),
    the parsing of the members' endpoint URLs, and the path without an attempt
    registry, which the coordinator never takes. *)
From S2P Require Export SubmitJob Polling.

(** ** The state *)

Section state.
Context {S SJ SA SW SX : Type}.

Record coordinator := {
  co_admission : admission S;
  co_attempts : attempts SA;
  co_workers : workers SW;
  co_jobs : option (jobs SJ);
  co_artifacts : option (artifacts SX);
}.
Definition co_registry (c : coordinator) : registry S := ad_registry (co_admission c).

Record local := {
  lo_shared : coordinator;
  lo_exhausted : gset string;
  lo_selected : option (gset string);
}.

Definition M (A : Type) : Type := local -> local * res A.
Definition ret {A} (a : A) : M A := fun s => (s, Ok a).
Definition raise {A} (e : exn) : M A := fun s => (s, Err e).
Definition bind {A B} (m : M A) (f : A -> M B) : M B :=
  fun s => match m s with (s, Ok a) => f a s | (s, Err e) => (s, Err e) end.
Definition lift {A} (r : res A) : M A := fun s => (s, r).
Definition get_shared : M coordinator := fun s => (s, Ok (lo_shared s)).
Definition get_exhausted : M (gset string) := fun s => (s, Ok (lo_exhausted s)).
Definition get_selected : M (option (gset string)) := fun s => (s, Ok (lo_selected s)).

Definition with_shared (c : coordinator) (s : local) : local :=
  {| lo_shared := c; lo_exhausted := lo_exhausted s; lo_selected := lo_selected s |}.
Definition exhaust (ids : gset string) : M unit :=
  fun s => ({| lo_shared := lo_shared s; lo_exhausted := lo_exhausted s ∪ ids; lo_selected := lo_selected s |}, Ok tt).
Definition set_selected (sel : option (gset string)) : M unit :=
  fun s => ({| lo_shared := lo_shared s; lo_exhausted := lo_exhausted s; lo_selected := sel |}, Ok tt).

Definition set_admission (a : admission S) (c : coordinator) : coordinator :=
  {| co_admission := a; co_attempts := co_attempts c; co_workers := co_workers c; co_jobs := co_jobs c;
     co_artifacts := co_artifacts c |}.
Definition set_attempts (x : attempts SA) (c : coordinator) : coordinator :=
  {| co_admission := co_admission c; co_attempts := x; co_workers := co_workers c; co_jobs := co_jobs c;
     co_artifacts := co_artifacts c |}.
Definition set_workers (x : workers SW) (c : coordinator) : coordinator :=
  {| co_admission := co_admission c; co_attempts := co_attempts c; co_workers := x; co_jobs := co_jobs c;
     co_artifacts := co_artifacts c |}.
Definition set_jobs (x : option (jobs SJ)) (c : coordinator) : coordinator :=
  {| co_admission := co_admission c; co_attempts := co_attempts c; co_workers := co_workers c; co_jobs := x;
     co_artifacts := co_artifacts c |}.
Definition set_artifacts (x : option (artifacts SX)) (c : coordinator) : coordinator :=
  {| co_admission := co_admission c; co_attempts := co_attempts c; co_workers := co_workers c;
     co_jobs := co_jobs c; co_artifacts := x |}.

(** A call of a registry method, its result kept or dropped. *)
Definition on_registry {A} (f : registry S -> registry S * res A) : M A :=
  fun s => let c := lo_shared s in
           let '(reg, r) := f (co_registry c) in
           (with_shared (set_admission (with_registry reg (co_admission c)) c) s, r).
Definition on_admission (f : admission S -> admission S) : M unit :=
  fun s => let c := lo_shared s in (with_shared (set_admission (f (co_admission c)) c) s, Ok tt).
Definition on_attempts {A} (f : attempts SA -> attempts SA * res A) : M A :=
  fun s => let c := lo_shared s in
           let '(x, r) := f (co_attempts c) in (with_shared (set_attempts x c) s, r).
Definition on_workers {A} (f : workers SW -> workers SW * res A) : M A :=
  fun s => let c := lo_shared s in
           let '(x, r) := f (co_workers c) in (with_shared (set_workers x c) s, r).
Definition on_artifacts {A} (f : artifacts SX -> artifacts SX * res A) : M unit :=
  fun s => let c := lo_shared s in
           match co_artifacts c with
           | None => (s, Ok tt)
           | Some x => let '(x, r) := f x in (with_shared (set_artifacts (Some x) c) s, res_map (fun _ => tt) r)
           end.
End state.
Arguments coordinator S SJ SA SW SX : clear implicits.
Arguments local S SJ SA SW SX : clear implicits.
Arguments M S SJ SA SW SX A : clear implicits.

Declare Scope orch_scope.
Delimit Scope orch_scope with orch.
Notation "'let*' x ':=' m 'in' k" := (bind m (fun x => k))
  (at level 10, x pattern, m at level 100, k at level 200) : orch_scope.
Notation "m ';;*' k" := (bind m (fun _ => k)) (at level 100, k at level 200, right associativity) : orch_scope.
Open Scope orch_scope.

(** ** Group outcomes ([_dispatch_execution_group]) *)

Inductive member_outcome :=
| M_RESULT (r : workload_execution_result)
| M_ERROR (e : dispatch_error).

Definition er_fail (category : option failure_category) (message : option string) (r : workload_execution_result)
  : workload_execution_result :=
  {| er_workload_id := er_workload_id r; er_worker_id := er_worker_id r; er_success := false;
     er_output_asset_hashes := er_output_asset_hashes r; er_output_asset_sizes := er_output_asset_sizes r;
     er_execution_duration_seconds := er_execution_duration_seconds r; er_error_message := message;
     er_was_checkpointed := er_was_checkpointed r; er_checkpoint_hash := er_checkpoint_hash r;
     er_failure_category := category; er_checkpoint_runtime_type := er_checkpoint_runtime_type r;
     er_checkpoint_format_version := er_checkpoint_format_version r;
     er_staging_duration_seconds := er_staging_duration_seconds r;
     er_output_ingestion_duration_seconds := er_output_ingestion_duration_seconds r;
     er_verification_duration_seconds := er_verification_duration_seconds r;
     er_transfer_duration_seconds := er_transfer_duration_seconds r;
     er_stdout_snippet := er_stdout_snippet r; er_stderr_snippet := er_stderr_snippet r |}.

Definition er_not_checkpointed (r : workload_execution_result) : workload_execution_result :=
  {| er_workload_id := er_workload_id r; er_worker_id := er_worker_id r; er_success := er_success r;
     er_output_asset_hashes := er_output_asset_hashes r; er_output_asset_sizes := er_output_asset_sizes r;
     er_execution_duration_seconds := er_execution_duration_seconds r; er_error_message := er_error_message r;
     er_was_checkpointed := false; er_checkpoint_hash := er_checkpoint_hash r;
     er_failure_category := er_failure_category r; er_checkpoint_runtime_type := er_checkpoint_runtime_type r;
     er_checkpoint_format_version := er_checkpoint_format_version r;
     er_staging_duration_seconds := er_staging_duration_seconds r;
     er_output_ingestion_duration_seconds := er_output_ingestion_duration_seconds r;
     er_verification_duration_seconds := er_verification_duration_seconds r;
     er_transfer_duration_seconds := er_transfer_duration_seconds r;
     er_stdout_snippet := er_stdout_snippet r; er_stderr_snippet := er_stderr_snippet r |}.

Definition NO_GROUP_CHECKPOINT : string :=
  "Distributed execution groups require a coordinated checkpoint, which this runtime did not provide".

Definition member_results (outs : list (string * member_outcome)) : list (string * workload_execution_result) :=
  omap (fun '(w, o) => match o with M_RESULT r => Some (w, r) | M_ERROR _ => None end) outs.
Definition transport_unavailable (outs : list (string * member_outcome)) : gset string :=
  list_to_set (omap (fun '(w, o) => match o with M_ERROR _ => Some w | M_RESULT _ => None end) outs).
Definition reported_unavailable (outs : list (string * member_outcome)) : gset string :=
  list_to_set (map fst (List.filter (fun '(_, r) => negb (er_success r) && bool_decide (er_failure_category r = Some WORKER_UNAVAILABLE))
                          (member_results outs))).
Definition fmax_default (l : list float) : float :=
  match l with [] => f0 | x :: l => fold_left fmax l x end.

(** The aggregate, the unavailable members, and those whose dispatch raised. *)
Definition aggregate_group (repr_other : json -> string) (spec : workload_spec) (group : execution_group) (outs : list (string * member_outcome))
  : res (workload_execution_result * gset string * gset string) :=
  let worker_results := member_results outs in
  let results := map snd worker_results in
  let transport := transport_unavailable outs in
  let unavailable := transport ∪ reported_unavailable outs in
  let member_failure := List.find (fun '(_, r) => negb (er_success r) || er_was_checkpointed r) worker_results in
  let success := (Z.of_nat (length results) =? eg_required_worker_count group)
                 && bool_decide (unavailable = ∅) && match member_failure with None => true | Some _ => false end in
  let '(category, message) :=
    if negb (bool_decide (unavailable = ∅)) then
      (Some WORKER_UNAVAILABLE, Some "One or more distributed execution group members became unavailable"%string)
    else match member_failure with
         | Some (_, r) =>
             (Some (default APPLICATION_ERROR (er_failure_category r)),
              Some (if er_was_checkpointed r then NO_GROUP_CHECKPOINT
                    else "A distributed execution group member reported failure"%string))
         | None => (None, None)
         end in
  let aggregate :=
    {| er_workload_id := ws_workload_id spec; er_worker_id := default ""%string (head (eg_worker_ids group));
       er_success := success;
       er_output_asset_hashes := ⋃ (map er_output_asset_hashes results);
       er_output_asset_sizes := fold_left (fun d r => od_merge d (er_output_asset_sizes r)) results [];
       er_execution_duration_seconds := fmax_default (map er_execution_duration_seconds results);
       er_error_message := message; er_was_checkpointed := false; er_checkpoint_hash := None;
       er_failure_category := category; er_checkpoint_runtime_type := None; er_checkpoint_format_version := None;
       er_staging_duration_seconds := fmax_default (map er_staging_duration_seconds results);
       er_output_ingestion_duration_seconds := fmax_default (map er_output_ingestion_duration_seconds results);
       er_verification_duration_seconds := fmax_default (map er_verification_duration_seconds results);
       er_transfer_duration_seconds := f0; er_stdout_snippet := None; er_stderr_snippet := None |} in
  let n := Z.of_nat (size (er_output_asset_hashes aggregate)) in
  let expected := od_get "expected_output_count" (ws_parameters spec) in
  let! few := if success then too_few_outputs n expected else Ok false in
  Ok (if few then er_fail (Some APPLICATION_ERROR)
                    (Some ("Distributed output verification failed: expected at least "
                           +:+ json_str repr_other (default JNull expected) +:+ " output asset(s), found "
                           +:+ str_of_Z n +:+ ".")%string)
                    aggregate
      else aggregate, unavailable, transport).

(** ** The loop *)

(** What the first part of [_process_workload] leaves to the loop. *)
Record process_context := {
  px_spec : workload_spec;
  px_parent_job : option string;
  px_shape : execution_shape;
  px_required : Z;
}.

Record dispatch_plan := {
  dp_decision : placement_decision;
  dp_group : option execution_group;
  dp_attempt_id : string;
  dp_workers : list worker_info;
}.
Definition plan_ids (d : dispatch_plan) : list string :=
  match dp_group d with Some g => eg_worker_ids g | None => [pd_selected_worker_id (dp_decision d)] end.

Inductive verdict := V_RETRY | V_RETURN.
#[export] Instance verdict_eq_dec : EqDecision verdict.
Proof. solve_decision. Defined.

(** The failure categories that exclude the worker from further attempts. *)
Definition excluding_categories : list failure_category :=
  [WORKER_UNAVAILABLE; ASSET_STAGING_FAILURE; EXECUTION_TIMEOUT].
Definition excludes (c : option failure_category) : bool :=
  match c with Some c => bool_decide (c ∈ excluding_categories) | None => false end.

Definition checkpointed_success (a : attempt_record) : bool :=
  bool_decide (at_status a = SUCCEEDED)
  && match at_execution_result a with Some r => er_was_checkpointed r | None => false end.
Definition attempts_used (records : list attempt_record) : Z :=
  Z.of_nat (length (List.filter (fun a => negb (checkpointed_success a)) records)).

Definition exhausted_by (records : list attempt_record) : gset string :=
  list_to_set (omap (fun a => if excludes (at_failure_category a) && negb (bool_decide (at_status a = LOST))
                              then at_worker_id a else None) records)
  ∪ ⋃ (map (fun a => match at_execution_group a with
                     | Some g => if excludes (at_failure_category a) then eg_unavailable_worker_ids g else ∅
                     | None => ∅
                     end) records).

Definition all_exhausted (selected : option (gset string)) (exhausted : gset string) : bool :=
  match selected with
  | Some ids => negb (bool_decide (ids = ∅)) && bool_decide (ids ⊆ exhausted)
  | None => false
  end.

(** ** Explanations: verdict and reasons per worker *)

Definition explanation_entry (wid : string) (eligible : bool) (reasons : list string) : json :=
  JObj [("worker_id"%string, JStr wid); ("eligible"%string, JBool eligible);
        ("rejection_reasons"%string, JList (map JStr reasons))].

Definition missing_telemetry_reasons (w : worker_info) : list string :=
  ["MISSING_TELEMETRY"%string]
  ++ (if bool_decide (wi_status w = WS_ACTIVE) then [] else ["WORKER_NOT_ACTIVE"%string])
  ++ (if wi_is_healthy w then [] else ["WORKER_UNHEALTHY"%string])
  ++ (if wi_can_execute_workloads w then [] else ["WORKER_CANNOT_EXECUTE"%string]).

Definition unevaluated_entry (selected : option (gset string)) (exhausted evaluated : gset string) (w : worker_info)
  : option json :=
  let wid := wi_worker_id w in
  if bool_decide (wid ∈ evaluated) then None
  else if match selected with Some ids => negb (bool_decide (wid ∈ ids)) | None => false end then
    Some (explanation_entry wid false ["WORKER_NOT_IN_JOB_SELECTED_SET"%string])
  else if bool_decide (wid ∈ exhausted) then
    Some (explanation_entry wid false ["WORKER_PREVIOUSLY_FAILED_THIS_WORKLOAD"%string])
  else match wi_resource_profile w with
       | None => Some (explanation_entry wid false (missing_telemetry_reasons w))
       | Some _ => None
       end.

Definition explanation_of (selected : option (gset string)) (exhausted : gset string) (cands : list candidate)
    (all_workers : list worker_info) : odict json :=
  let evaluated := list_to_set (map cd_worker_id cands) in
  [("candidates"%string,
    JList (map (fun c => explanation_entry (cd_worker_id c) (cd_eligible c) (cd_rejection_reasons c)) cands
           ++ omap (unevaluated_entry selected exhausted evaluated) all_workers))].

(** The workers already holding a workload of the affinity group. *)
Definition group_workers_of {S} (reg : registry S) (workload_id : string) (spec : workload_spec)
  : odict (gset string) :=
  match ws_affinity_group_id spec with
  | Some g =>
      if str_truthy g then
        [(g, list_to_set
               (omap (fun r => if negb (String.eqb (wr_id r) workload_id)
                                  && bool_decide (ws_affinity_group_id (wr_spec r) = Some g)
                               then option_map pd_selected_worker_id (wr_placement_decision r) else None)
                  (list_workloads reg)))]
      else []
  | None => []
  end.

Section process.
Context {S SJ SA SW SX B : Type}.
Context `{RecordStore S workload_record} `{RecordStore SJ job_record} `{RecordStore SA attempt_record}.
Context `{RecordStore SW worker_info} `{RecordStore SX artifact} `{Advisory B}.
(** Configuration of the orchestrator; [new_execution_id] is the uuid of a
    group, [exn_text] is [str] of an exception. *)
Context (cfg : registry_config) (memory : option telemetry_memory) (bridge : option B) (repr_other : json -> string)
        (max_attempts : Z) (new_execution_id : Z -> string) (exn_text : exn -> string).
Context (workload_id : string).

Abbreviation P := (M S SJ SA SW SX).

Definition update (now : float) (st : workload_state) (message : option string) : P unit :=
  let* _ := on_registry (update_state now workload_id st message) in ret tt.
Definition explain_placement (e : odict json) : P unit :=
  let* _ := on_registry (set_placement_explanation workload_id e) in ret tt.
Definition place_on (d : option placement_decision) : P unit :=
  let* _ := on_registry (set_placement workload_id d) in ret tt.

(** Promote a spare when some worker is exhausted. *)
Definition promote (ctx : process_context) : P unit :=
  fun s =>
    match px_parent_job ctx, lo_selected s with
    | Some job_id, Some sel =>
        if bool_decide (lo_exhausted s = ∅) then (s, Ok tt)
        else match co_jobs (lo_shared s) with
             | None => (s, Ok tt)
             | Some jreg =>
                 let '(jreg, sel, r) := maybe_promote_spare_worker job_id sel (lo_exhausted s) (px_required ctx) jreg in
                 ({| lo_shared := set_jobs (Some jreg) (lo_shared s); lo_exhausted := lo_exhausted s;
                     lo_selected := Some sel |}, res_map (fun _ => tt) r)
             end
    | _, _ => (s, Ok tt)
    end.

(** [_process_workload] up to its loop. *)
Definition prepare (now : float) : P (option (process_context * Z)) :=
  let* c := get_shared in
  match get_workload (co_registry c) workload_id with
  | None => ret None
  | Some record =>
      if bool_decide (wr_state record = CANCELLATION_REQUESTED \/ wr_state record = CANCELLED) then ret None
      else
        let* dep := on_registry (dependency_state now record) in
        if negb (bool_decide (dep = D_READY)) then ret None
        else
          let* spec := lift (spec_with_dependency_outputs (co_registry c) record) in
          let job := match ws_job_id spec with
                     | Some j => if str_truthy j then co_jobs c ≫= fun jreg => get_job jreg j else None
                     | None => None
                     end in
          let ctx := {| px_spec := spec; px_parent_job := option_map (fun _ => default ""%string (ws_job_id spec)) job;
                        px_shape := match job with Some j => jr_execution_shape j | None => SINGLE_MACHINE end;
                        px_required := match job with Some j => jr_required_worker_count j | None => 1 end |} in
          update now VALIDATING None ;;*
          update now PLACING None ;;*
          let records := list_attempts_for_workload (co_attempts c) workload_id in
          let used := attempts_used records in
          exhaust (exhausted_by records) ;;*
          if (max_attempts <=? used) && (0 <? used) then
            update now FAILED (Some "Retry budget exhausted after prior execution attempts"%string) ;;* ret None
          else
            set_selected (job ≫= fun j => option_map list_to_set (jr_selected_worker_ids j)) ;;*
            promote ctx ;;*
            let* selected := get_selected in
            let* exhausted := get_exhausted in
            if all_exhausted selected exhausted then
              update now FAILED
                (Some "All assigned workers for this job have been exhausted by previous failed attempts"%string) ;;*
              ret None
            else ret (Some (ctx, used))
  end.

(** The placement decision of one attempt. *)
Definition decide_placement (now : float) (c : coordinator S SJ SA SW SX) (ctx : process_context)
    (selected : option (gset string)) (workers : list worker_info)
  : res (option placement_decision * option (list placement_decision) * list candidate) :=
  let spec := px_spec ctx in
  let profiles := build_worker_profiles (Some (co_attempts c)) (co_registry c) workers in
  let! tags := effective_worker_tags repr_other workers in
  let env := {| pe_worker_tags := tags; pe_group_workers := group_workers_of (co_registry c) workload_id spec;
                pe_now := now; pe_predicted_duration := fst (predicted_duration memory spec);
                pe_asset_sizes := trusted_asset_sizes (co_artifacts c) spec |} in
  let single profiles :=
    let '(ev, d) := evaluate bridge env spec profiles in (d, None, ev_candidates ev) in
  if bool_decide (px_shape ctx = DISTRIBUTED_NATIVE) then
    let! g := evaluate_group bridge env spec profiles (px_required ctx) in
    Ok (snd g ≫= head, snd g, ge_candidates (fst g))
  else if bool_decide (px_shape ctx = TASK_SPLIT)
          && match selected with Some ids => bool_decide (1 < size ids)%nat | None => false end then
    let idle := List.filter (fun p => rp_active_workload_count p =? 0) profiles in
    let busy := List.filter (fun p => 0 <? rp_active_workload_count p) profiles in
    if negb (bool_decide (idle = [])) && negb (bool_decide (busy = [])) then
      match single idle with
      | (Some d, g, cands) => Ok (Some d, g, cands)
      | (None, _, _) => Ok (single profiles)
      end
    else Ok (single profiles)
  else Ok (single profiles).

(** No worker can take the attempt. *)
Definition no_placement (now : float) (spec : workload_spec) (all_workers : list worker_info)
    (explanation : odict json) : P (option dispatch_plan) :=
  explain_placement explanation ;;*
  place_on None ;;*
  let* selected := get_selected in
  let* exhausted := get_exhausted in
  (if opt_truthy (ws_required_runtime_compatibility spec) then
     update now UNSCHEDULABLE
       (Some "Required GPU runtime compatibility cannot be reported by the current worker telemetry"%string)
   else if all_exhausted selected exhausted then
     update now FAILED (Some "All assigned workers for this job have been exhausted by previous failed attempts"%string)
   else if negb (bool_decide (all_workers = []))
           && forallb (fun w => bool_decide (wi_worker_id w ∈ exhausted)) all_workers then
     update now FAILED (Some "All available workers have been exhausted by previous failed attempts"%string)
   else update now SUBMITTED (Some "Waiting for an eligible worker; placement will be reconsidered"%string)) ;;*
  ret None.

Definition make_group (used : Z) (required : Z) (decisions : list placement_decision) : res execution_group :=
  if (required <? 2) || (64 <? required) then Err (ValueError "validation error")
  else validate_membership
    {| eg_execution_id := new_execution_id used; eg_worker_ids := map pd_selected_worker_id decisions;
       eg_required_worker_count := required; eg_state := GS_ASSIGNED; eg_unavailable_worker_ids := ∅;
       eg_placement_decisions := decisions |}.

(** The section under [_placement_lock]: [None] when the coroutine returns. *)
Definition place (now : float) (ctx : process_context) (used : Z) : P (option dispatch_plan) :=
  promote ctx ;;*
  let* c := get_shared in
  let* selected := get_selected in
  let* exhausted := get_exhausted in
  let all_workers := list_workers false (co_workers c) in
  let workers :=
    List.filter (fun w => match selected with Some ids => bool_decide (wi_worker_id w ∈ ids) | None => true end
                          && negb (bool_decide (wi_worker_id w ∈ exhausted))) all_workers in
  let* choice := lift (decide_placement now c ctx selected workers) in
  let '(decision, group_decisions, cands) := choice in
  match decision with
  | None => no_placement now (px_spec ctx) all_workers (explanation_of selected exhausted cands all_workers)
  | Some d =>
      place_on (Some d) ;;*
      explain_placement [] ;;*
      update now PLACED None ;;*
      let* group := match group_decisions with
                    | Some (g :: gs) => let* g := lift (make_group used (px_required ctx) (g :: gs)) in ret (Some g)
                    | _ => ret None
                    end in
      let* a := on_attempts (create_attempt now workload_id None (Some d) group) in
      let* _ := on_attempts (mark_assigned now (at_attempt_id a) (pd_selected_worker_id d)) in
      ret (Some {| dp_decision := d; dp_group := group; dp_attempt_id := at_attempt_id a; dp_workers := workers |})
  end.

(** [continue] while the budget lasts, else FAILED. *)
Definition retry_or_fail (now : float) (used : Z) (category : failure_category) (message : string) : P verdict :=
  if should_retry (Some category) used max_attempts then ret V_RETRY
  else update now FAILED (Some message) ;;* ret V_RETURN.

Definition record_failures (now : float) (ids : list string) : P unit :=
  on_workers (fun reg => (fold_left (fun reg w => record_failure cfg now w f1 reg) ids reg, Ok tt)).

(** Members of the plan that are not in the snapshot of workers. *)
Definition vanished (d : dispatch_plan) : list string :=
  List.filter (fun w => negb (bool_decide (w ∈ map wi_worker_id (dp_workers d)))) (plan_ids d).

Definition vanished_member (now : float) (used : Z) (d : dispatch_plan) : P verdict :=
  let missing := vanished d in
  let message := ("Selected worker group member(s) vanished before dispatch: " +:+ repr_other (JList (map JStr missing)))%string in
  let* _ := on_attempts (mark_lost now (dp_attempt_id d) message missing) in
  exhaust (list_to_set missing) ;;*
  retry_or_fail now used WORKER_UNAVAILABLE message.

(** ** After the dispatch *)

(** Other live attempts of the workload lose to the one that completed. *)
Definition superseded (a : attempt_record) (attempt_id : string) : bool :=
  negb (String.eqb (at_attempt_id a) attempt_id) && bool_decide (at_status a = ASSIGNED \/ at_status a = RUNNING).

Fixpoint fail_superseded (now : float) (reason : string) (l : list attempt_record) : P unit :=
  match l with
  | [] => ret tt
  | a :: l =>
      let* _ := on_attempts (mark_failed now (at_attempt_id a) (Some EXECUTION_FAILURE) (Some reason) None) in
      fail_superseded now reason l
  end.

Definition supersede_others (now : float) (reason attempt_id : string) : P unit :=
  let* c := get_shared in
  fail_superseded now reason
    (List.filter (fun a => superseded a attempt_id) (list_attempts_for_workload (co_attempts c) workload_id)).

(** [_record_artifacts]. *)
Definition record_outputs (now : float) (spec : workload_spec) (result : workload_execution_result) : P unit :=
  let hashes := elements (er_output_asset_hashes result) in
  if bool_decide (hashes = []) then ret tt
  else
    (if str_truthy (er_worker_id result) then
       let* _ := on_workers (add_worker_hashes (er_worker_id result) hashes) in ret tt
     else ret tt) ;;*
    on_artifacts (record_artifacts (fun _ => now) (ws_workload_id spec) (ws_job_id spec) hashes
                    (er_output_asset_sizes result) "cas").

Definition resume_spec (spec : workload_spec) (hash : string) : workload_spec :=
  let s := add_inputs {[hash]} spec in
  {| ws_workload_id := ws_workload_id s; ws_job_id := ws_job_id s; ws_task_type := ws_task_type s;
     ws_input_asset_hashes := ws_input_asset_hashes s; ws_min_cpu_cores := ws_min_cpu_cores s;
     ws_min_ram_bytes := ws_min_ram_bytes s; ws_requires_gpu := ws_requires_gpu s;
     ws_min_vram_bytes := ws_min_vram_bytes s; ws_estimated_duration_seconds := ws_estimated_duration_seconds s;
     ws_priority := ws_priority s; ws_deadline_at_utc := ws_deadline_at_utc s;
     ws_required_gpu_vendor := ws_required_gpu_vendor s; ws_required_gpu_model := ws_required_gpu_model s;
     ws_min_compute_capability := ws_min_compute_capability s;
     ws_required_driver_version := ws_required_driver_version s;
     ws_required_runtime_compatibility := ws_required_runtime_compatibility s;
     ws_required_worker_tags := ws_required_worker_tags s;
     ws_preferred_worker_tags := ws_preferred_worker_tags s; ws_affinity_group_id := ws_affinity_group_id s;
     ws_affinity_mode := ws_affinity_mode s; ws_affinity_tag_key := ws_affinity_tag_key s;
     ws_affinity_hard := ws_affinity_hard s; ws_max_cost_per_hour := ws_max_cost_per_hour s;
     ws_depends_on := ws_depends_on s;
     ws_parameters := od_set "resume_from_checkpoint" (JStr hash) (ws_parameters s);
     ws_execution_spec := ws_execution_spec s |}.

Definition checkpointed (now : float) (spec : workload_spec) (attempt_id : string)
    (result : workload_execution_result) : P verdict :=
  update now MIGRATING None ;;*
  let* _ := on_attempts (mark_succeeded now attempt_id result) in
  (match er_checkpoint_hash result with
   | Some h => if str_truthy h then let* _ := on_registry (update_spec (resume_spec spec h)) in ret tt else ret tt
   | None => ret tt
   end) ;;*
  place_on None ;;*
  explain_placement [] ;;*
  update now SUBMITTED None ;;*
  on_admission (enqueue_workload workload_id) ;;*
  ret V_RETURN.

Definition succeeded (now : float) (spec : workload_spec) (attempt_id : string)
    (result : workload_execution_result) : P verdict :=
  let* _ := on_registry (set_result now workload_id result) in
  update now COMPLETED None ;;*
  record_outputs now spec result ;;*
  supersede_others now "Superseded by primary completion" attempt_id ;;*
  let* _ := on_attempts (mark_succeeded now attempt_id result) in
  ret V_RETURN.

Definition failed (now : float) (used : Z) (d : dispatch_plan) (group_lost : bool) (unavailable : gset string)
    (result : workload_execution_result) : P verdict :=
  let* c := get_shared in
  let latest := get_attempt (co_attempts c) (dp_attempt_id d) in
  let lost := match latest with Some a => bool_decide (at_status a = LOST) | None => false end in
  let ids := isort str_lt (elements unavailable) in
  (if negb (bool_decide (unavailable = ∅)) || group_lost || lost then
     let reason := match latest with
                   | Some a => match at_failure_reason a with
                               | Some r => if str_truthy r then r else "worker lost before completion"%string
                               | None => "worker lost before completion"%string
                               end
                   | None => "worker lost before completion"%string
                   end in
     let* _ := on_attempts (mark_lost now (dp_attempt_id d) reason ids) in ret tt
   else
     let* _ := on_attempts (mark_failed now (dp_attempt_id d) (er_failure_category result) (er_error_message result)
                              (Some result)) in ret tt) ;;*
  (if negb (bool_decide (unavailable = ∅)) then record_failures now (elements unavailable) ;;* exhaust unavailable
   else if excludes (er_failure_category result) then exhaust {[pd_selected_worker_id (dp_decision d)]}
   else ret tt) ;;*
  if should_retry (er_failure_category result) used max_attempts then ret V_RETRY
  else
    let* _ := on_registry (set_result now workload_id result) in
    update now FAILED (er_error_message result) ;;* ret V_RETURN.

(** The body after the dispatch returned a result. *)
Definition conclude (now : float) (ctx : process_context) (used : Z) (d : dispatch_plan)
    (out : workload_execution_result * gset string * gset string) : P verdict :=
  let '(result, unavailable, transport) := out in
  let is_group := match dp_group d with Some _ => true | None => false end in
  let result := if er_was_checkpointed result && is_group
                then er_not_checkpointed (er_fail (Some APPLICATION_ERROR) (Some NO_GROUP_CHECKPOINT) result)
                else result in
  let* c := get_shared in
  if match get_workload (co_registry c) workload_id with
     | Some r => bool_decide (wr_state r = CANCELLATION_REQUESTED \/ wr_state r = CANCELLED)
     | None => false
     end
  then
    let* _ := on_attempts (mark_failed now (dp_attempt_id d) (Some EXECUTION_FAILURE)
                             (Some "Execution cancelled by request"%string) (Some result)) in
    update now CANCELLED (Some "Execution cancelled by user request"%string) ;;* ret V_RETURN
  else
    let group_lost := is_group && match get_attempt (co_attempts c) (dp_attempt_id d) with
                                  | Some a => bool_decide (at_status a = LOST)
                                  | None => false
                                  end in
    let unavailable :=
      if group_lost then
        match get_attempt (co_attempts c) (dp_attempt_id d) ≫= at_execution_group with
        | Some g => eg_unavailable_worker_ids g ∪ transport
        | None => unavailable
        end
      else unavailable in
    let result := if group_lost
                  then er_fail (Some WORKER_UNAVAILABLE)
                         (Some "A distributed execution group member was lost before completion"%string) result
                  else result in
    if er_was_checkpointed result then checkpointed now (px_spec ctx) (dp_attempt_id d) result
    else if er_success result then succeeded now (px_spec ctx) (dp_attempt_id d) result
    else failed now used d group_lost unavailable result.

(** The three exception handlers. *)
Definition record_lost (now : float) (used : Z) (d : dispatch_plan) (text : string) : P verdict :=
  record_failures now (plan_ids d) ;;*
  exhaust (list_to_set (plan_ids d)) ;;*
  let* _ := on_attempts (mark_lost now (dp_attempt_id d) text (plan_ids d)) in
  retry_or_fail now used WORKER_UNAVAILABLE text.

Definition submit_unavailable (now : float) (used : Z) (d : dispatch_plan) (text : string) : P verdict :=
  record_failures now (plan_ids d) ;;*
  exhaust (list_to_set (plan_ids d)) ;;*
  let* _ := on_attempts (mark_failed now (dp_attempt_id d) (Some WORKER_UNAVAILABLE) (Some text) None) in
  retry_or_fail now used WORKER_UNAVAILABLE text.

Definition dispatch_failed (now : float) (used : Z) (d : dispatch_plan) (text : string) : P verdict :=
  record_failures now (plan_ids d) ;;*
  exhaust (list_to_set (plan_ids d)) ;;*
  let* _ := (match dp_group d with
             | Some _ => on_attempts (mark_lost now (dp_attempt_id d) text (plan_ids d))
             | None => on_attempts (mark_failed now (dp_attempt_id d) (Some WORKER_UNAVAILABLE) (Some text) None)
             end) in
  retry_or_fail now used WORKER_UNAVAILABLE text.

(** [try: m except Exception]. *)
Definition catching (now : float) (used : Z) (d : dispatch_plan) (m : P verdict) : P verdict :=
  fun s => match m s with
           | (s, Ok v) => (s, Ok v)
           | (s, Err e) => dispatch_failed now used d (exn_text e) s
           end.

(** What the rest of the world does during one dispatch: the changes other
    tasks make, what each member returns, and the clock afterwards. *)
Record event := {
  ev_world : coordinator S SJ SA SW SX -> coordinator S SJ SA SW SX;
  ev_outcome : nat -> member_outcome;
  ev_now : float;
}.

Definition outcomes (d : dispatch_plan) (ev : event) : list (string * member_outcome) :=
  imap (fun rank w => (w, ev_outcome ev rank)) (plan_ids d).

Definition after_dispatch (ctx : process_context) (used : Z) (d : dispatch_plan) (ev : event) : P verdict :=
  let now := ev_now ev in
  match dp_group d with
  | Some g =>
      catching now used d
        (let* out := lift (aggregate_group repr_other (px_spec ctx) g (outcomes d ev)) in
         conclude now ctx used d out)
  | None =>
      match ev_outcome ev 0 with
      | M_RESULT r => catching now used d (conclude now ctx used d (r, ∅, ∅))
      | M_ERROR (RecordLost text) => record_lost now used d text
      | M_ERROR (SubmitUnavailable text) => submit_unavailable now used d text
      | M_ERROR (OtherError text) => dispatch_failed now used d text
      end
  end.

(** [mark_running], [EXECUTING], then the await; an exception before it is
    handled like one after it. *)
Definition begin_dispatch (now : float) (d : dispatch_plan) : P unit :=
  let* _ := on_attempts (mark_running now (dp_attempt_id d)) in
  update now EXECUTING None.

Inductive process_end :=
| E_RETURNED
| E_RAISED (e : exn)
| E_AWAITING
| E_FUEL.

(** The loop.  [used] counts the attempts including the current one; [log] is
    the plans dispatched so far; each turn takes one element of [events] for
    its dispatch and one unit of [fuel]. *)
Fixpoint process_loop (fuel : nat) (now : float) (ctx : process_context) (used : Z) (events : list event)
    (log : list dispatch_plan) (s : local S SJ SA SW SX)
  : local S SJ SA SW SX * list dispatch_plan * process_end :=
  match fuel with
  | O => (s, log, E_FUEL)
  | Datatypes.S fuel =>
      let used := used + 1 in
      match place now ctx used s with
      | (s, Err e) => (s, log, E_RAISED e)
      | (s, Ok None) => (s, log, E_RETURNED)
      | (s, Ok (Some d)) =>
          let again now events log (r : local S SJ SA SW SX * res verdict) :=
            match r with
            | (s, Ok V_RETURN) => (s, log, E_RETURNED)
            | (s, Ok V_RETRY) => process_loop fuel now ctx used events log s
            | (s, Err e) => (s, log, E_RAISED e)
            end in
          if negb (bool_decide (vanished d = [])) then again now events log (vanished_member now used d s)
          else
            match begin_dispatch now d s with
            | (s, Err e) => again now events log (dispatch_failed now used d (exn_text e) s)
            | (s, Ok _) =>
                match events with
                | [] => (s, log ++ [d], E_AWAITING)
                | ev :: events =>
                    again (ev_now ev) events (log ++ [d])
                      (after_dispatch ctx used d ev (with_shared (ev_world ev (lo_shared s)) s))
                end
            end
      end
  end.

Definition process_workload (fuel : nat) (now : float) (events : list event) (c : coordinator S SJ SA SW SX)
  : local S SJ SA SW SX * list dispatch_plan * process_end :=
  match prepare now {| lo_shared := c; lo_exhausted := ∅; lo_selected := None |} with
  | (s, Err e) => (s, [], E_RAISED e)
  | (s, Ok None) => (s, [], E_RETURNED)
  | (s, Ok (Some (ctx, used))) => process_loop fuel now ctx used events [] s
  end.
End process.
