(* ===== verification/OrchestratorProps.v ===== *)
(** * Properties of the loop that drives a workload

    A small Hoare logic for the monad of [Orchestrator] ([hoare], with its
    rules in the hint database [orch]); then three results: the retry budget
    bounds the loop, a worker whose dispatch raised gets no further attempt of
    the workload, and what every outcome of a dispatch does to the workload. *)
From S2P Require Export WorkerRegistryProps Orchestrator.

(** ** Triples *)

Section hoare.
Context {S SJ SA SW SX : Type}.
Abbreviation P := (M S SJ SA SW SX).
Abbreviation L := (local S SJ SA SW SX).

Definition hoare {A} (Pre : L -> Prop) (m : P A) (Post : A -> L -> Prop) (Exn : L -> Prop) : Prop :=
  forall s, Pre s -> match m s with (s', Ok a) => Post a s' | (s', Err _) => Exn s' end.

Lemma hoare_ret {A} (Pre : L -> Prop) (a : A) (Post : A -> L -> Prop) Exn :
  (forall s, Pre s -> Post a s) -> hoare Pre (ret a) Post Exn.
Proof. intros Hp s Hs. simpl. auto. Qed.

Lemma hoare_bind {A B} Pre (m : P A) (f : A -> P B) Mid Post Exn :
  hoare Pre m Mid Exn -> (forall a, hoare (Mid a) (f a) Post Exn) -> hoare Pre (bind m f) Post Exn.
Proof.
  intros Hm Hf s Hs. unfold bind. specialize (Hm s Hs). destruct (m s) as [s' [a|e]]; [|done].
  by apply Hf.
Qed.

Lemma hoare_weaken {A} (Pre Pre' : L -> Prop) (m : P A) Post (Post' : A -> L -> Prop) (Exn Exn' : L -> Prop) :
  hoare Pre' m Post' Exn' -> (forall s, Pre s -> Pre' s) -> (forall a s, Post' a s -> Post a s) ->
  (forall s, Exn' s -> Exn s) -> hoare Pre m Post Exn.
Proof.
  intros Hm H1 H2 H3 s Hs. specialize (Hm s (H1 s Hs)). destruct (m s) as [s' [a|e]]; auto.
Qed.

Lemma hoare_lift {A} (Pre : L -> Prop) (r : res A) : hoare Pre (lift r) (fun _ => Pre) Pre.
Proof. intros s Hs. unfold lift. by destruct r. Qed.
Lemma hoare_if {A} (b : bool) Pre (m1 m2 : P A) Post Exn :
  (b = true -> hoare Pre m1 Post Exn) -> (b = false -> hoare Pre m2 Post Exn) ->
  hoare Pre (if b then m1 else m2) Post Exn.
Proof. destruct b; auto. Qed.

Lemma hoare_pure {A} (φ : Prop) (Pre : L -> Prop) (m : P A) Post Exn :
  (φ -> hoare Pre m Post Exn) -> hoare (fun s => φ /\ Pre s) m Post Exn.
Proof. intros Hm s [Hφ Hs]. by apply Hm. Qed.

(** [stable I m]: [m] keeps the predicate [I], whether it returns or raises. *)
Definition stable {A} (I : L -> Prop) (m : P A) : Prop := hoare I m (fun _ => I) I.

Lemma stable_bind {A B} I (m : P A) (f : A -> P B) :
  stable I m -> (forall a, stable I (f a)) -> stable I (bind m f).
Proof. apply hoare_bind. Qed.
Lemma stable_ret {A} I (a : A) : stable I (ret a).
Proof. by apply hoare_ret. Qed.
Lemma stable_lift {A} I (r : res A) : stable I (lift r).
Proof. apply hoare_lift. Qed.
Lemma stable_if {A} I (b : bool) (m1 m2 : P A) :
  stable I m1 -> stable I m2 -> stable I (if b then m1 else m2).
Proof. by destruct b. Qed.
Lemma stable_get_shared I : stable I get_shared.
Proof. by intros s Hs. Qed.
Lemma stable_get_selected I : stable I get_selected.
Proof. by intros s Hs. Qed.
Lemma stable_get_exhausted I : stable I get_exhausted.
Proof. by intros s Hs. Qed.
End hoare.

Create HintDb orch.
#[export] Hint Resolve stable_ret stable_lift stable_get_shared stable_get_selected stable_get_exhausted : orch.

(** Step through binds, branches and matches of a body. *)
Ltac stable_step :=
  first
    [ solve [eauto 3 with orch]
    | apply stable_bind; [|intros ?]
    | apply stable_if
    | match goal with
      | |- stable _ (if ?b then _ else _) => destruct b
      | |- stable _ (match ?x with _ => _ end) => destruct x
      end ].
Ltac stable_body := repeat stable_step.

(** ** The invariant the proofs carry

    [Inv E Q]: the workers of [E] are exhausted and the workload registry
    satisfies [Q].  Only [on_registry] and [on_admission] can disturb [Q]. *)
Section invariant.
Context {S SJ SA SW SX B : Type}.
Context `{RecordStore S workload_record} `{RecordStore SJ job_record} `{RecordStore SA attempt_record}.
Context `{RecordStore SW worker_info} `{RecordStore SX artifact} `{Advisory B}.
Context (workload_id : string).
Abbreviation L := (local S SJ SA SW SX).
Abbreviation P := (M S SJ SA SW SX).

Definition Inv (E : gset string) (Q : registry S -> Prop) (s : L) : Prop :=
  E ⊆ lo_exhausted s /\ Q (co_registry (lo_shared s)).

(** The workload is on file and its record satisfies [φ]. *)
Definition has (φ : workload_record -> Prop) (reg : registry S) : Prop :=
  wf reg /\ exists r, get_workload reg workload_id = Some r /\ φ r.
Abbreviation present := (has (fun _ => True)).

Lemma has_mono (φ ψ : workload_record -> Prop) reg : (forall r, φ r -> ψ r) -> has φ reg -> has ψ reg.
Proof. intros Hm (Hwf & r & Hr & Hφ). split; [done|]. exists r. auto. Qed.
Lemma has_present φ reg : has φ reg -> present reg.
Proof. by apply has_mono. Qed.

Lemma Inv_mono E E' Q Q' s : E' ⊆ E -> (forall reg, Q reg -> Q' reg) -> Inv E Q s -> Inv E' Q' s.
Proof. intros HE HQ [Hx Hq]. split; [set_solver|auto]. Qed.

Lemma stable_on_attempts {A} E Q (f : attempts SA -> attempts SA * res A) : stable (Inv E Q) (on_attempts f : P A).
Proof. intros s Hs. unfold on_attempts. destruct (f _) as [x [a|e]]; exact Hs. Qed.
Lemma stable_on_workers {A} E Q (f : workers SW -> workers SW * res A) : stable (Inv E Q) (on_workers f : P A).
Proof. intros s Hs. unfold on_workers. destruct (f _) as [x [a|e]]; exact Hs. Qed.
Lemma stable_on_artifacts {A} E Q (f : artifacts SX -> artifacts SX * res A) : stable (Inv E Q) (on_artifacts f : P unit).
Proof. intros s Hs. unfold on_artifacts. destruct (co_artifacts _); [destruct (f _) as [x [y|e]]|]; exact Hs. Qed.
Lemma stable_set_selected E Q sel : stable (Inv E Q) (set_selected sel : P unit).
Proof. by intros s Hs. Qed.
Lemma hoare_exhaust E E' Q : hoare (Inv E Q) (exhaust E' : P unit) (fun _ => Inv (E ∪ E') Q) (Inv E Q).
Proof. intros s [Hs HQ]. split; simpl; [set_solver|done]. Qed.
Lemma stable_exhaust E E' Q : stable (Inv E Q) (exhaust E' : P unit).
Proof. intros s [Hs HQ]. split; simpl; [set_solver|done]. Qed.

Lemma stable_promote E Q ctx : stable (Inv E Q) (promote ctx : P unit).
Proof.
  intros s Hs. unfold promote.
  repeat case_match; simplify_eq; try exact Hs.
Qed.

(** A call of the registry, whether its write succeeds or not. *)
Lemma hoare_on_registry {A} E (Q Q' : registry S -> Prop) (f : registry S -> registry S * res A) :
  (forall reg, Q reg -> Q' (fst (f reg))) ->
  hoare (Inv E Q) (on_registry f : P A) (fun _ => Inv E Q') (Inv E Q').
Proof.
  intros Hf s [Hs HQ]. unfold on_registry. specialize (Hf _ HQ).
  destruct (f _) as [reg [a|e]]; by split.
Qed.

Lemma modify_has (φ ψ : workload_record -> Prop) wid f reg :
  (forall r, wr_id (f r) = wr_id r \/ wr_id (f r) = wid) ->
  (forall r, φ r -> ψ r \/ wid = workload_id) -> (forall r, φ r -> ψ (f r)) ->
  has φ reg -> has ψ (fst (modify wid f reg)).
Proof.
  intros Hid Hother Hf ((Hnd & Hk) & r & Hr & Hφ). unfold modify.
  destruct (get_workload reg wid) as [r0|] eqn:E0.
  - assert (wr_id (f r0) = wid) as Hw. { destruct (Hid r0) as [Hw|Hw]; [|done]. rewrite Hw. by apply Hk. }
    split; [by apply commit_wf|]. setoid_rewrite get_workload_commit. rewrite Hw.
    destruct (String.eqb_spec workload_id wid) as [->|Hne].
    + exists (f r0). split; [done|]. apply Hf. congruence.
    + exists r. split; [done|]. destruct (Hother r Hφ); congruence.
  - split; [done|]. exists r. split; [done|]. destruct (Hother r Hφ); [done|congruence].
Qed.

Lemma hoare_update E φ now st msg :
  hoare (Inv E (has φ)) (update workload_id now st msg : P unit)
    (fun _ => Inv E (has (fun r => wr_state r = st))) (Inv E present).
Proof.
  unfold update. eapply hoare_bind.
  - eapply hoare_weaken; [apply (hoare_on_registry E (has φ) (has (fun r => wr_state r = st)))|done|done|].
    + intros reg. apply modify_has; auto.
    + intros s. apply Inv_mono; [done|apply has_present].
  - intros b. by apply hoare_ret.
Qed.

(** [set_result], then a state: the result stays on record. *)
Lemma hoare_set_result E φ now result :
  hoare (Inv E (has φ)) (on_registry (set_result now workload_id result) : P bool)
    (fun _ => Inv E (has (fun r => wr_execution_result r = Some result))) (Inv E present).
Proof.
  eapply hoare_weaken; [apply (hoare_on_registry E (has φ) (has (fun r => wr_execution_result r = Some result)))|done|done|].
  - intros reg. apply modify_has; auto.
  - intros s. apply Inv_mono; [done|apply has_present].
Qed.

Lemma hoare_update_keeps E now st msg (χ : workload_record -> Prop) :
  (forall r, χ r -> χ (apply_state now st msg r)) ->
  hoare (Inv E (has χ)) (update workload_id now st msg : P unit)
    (fun _ => Inv E (has (fun r => wr_state r = st /\ χ r))) (Inv E present).
Proof.
  intros Hχ. unfold update. eapply hoare_bind.
  - eapply hoare_weaken; [apply (hoare_on_registry E (has χ) (has (fun r => wr_state r = st /\ χ r)))|done|done|].
    + intros reg. apply modify_has; auto.
    + intros s. apply Inv_mono; [done|apply has_present].
  - intros b. by apply hoare_ret.
Qed.

(** Calls that leave the state of the record alone. *)
Definition insensitive (φ : workload_record -> Prop) : Prop :=
  (forall d r, φ r -> φ (apply_placement d r)) /\ (forall e r, φ r -> φ (apply_explanation e r)) /\
  (forall sp r, φ r -> φ (apply_spec sp r)).

Lemma insensitive_true : insensitive (fun _ => True).
Proof. done. Qed.
Lemma insensitive_state (p : workload_state -> Prop) : insensitive (fun r => p (wr_state r)).
Proof. done. Qed.

Lemma stable_registry {A} E Q (f : registry S -> registry S * res A) :
  (forall reg, Q reg -> Q (fst (f reg))) -> stable (Inv E Q) (on_registry f : P A).
Proof. apply hoare_on_registry. Qed.

Lemma stable_place_on E φ d : insensitive φ -> stable (Inv E (has φ)) (place_on workload_id d : P unit).
Proof.
  intros (Hp & _ & _). apply stable_bind; [|intros b; apply stable_ret].
  apply stable_registry. intros reg. apply modify_has; auto.
Qed.
Lemma stable_explain E φ e : insensitive φ -> stable (Inv E (has φ)) (explain_placement workload_id e : P unit).
Proof.
  intros (_ & He & _). apply stable_bind; [|intros b; apply stable_ret].
  apply stable_registry. intros reg. apply modify_has; auto.
Qed.
Lemma stable_update_spec E φ sp : insensitive φ -> stable (Inv E (has φ)) (on_registry (update_spec sp) : P bool).
Proof. intros (_ & _ & Hs). apply stable_registry. intros reg. apply modify_has; auto. Qed.
Lemma stable_update E now st msg : stable (Inv E present) (update workload_id now st msg : P unit).
Proof.
  eapply hoare_weaken; [apply hoare_update|done| |done]. intros a s. apply Inv_mono; [done|apply has_present].
Qed.
Lemma stable_result E now result : stable (Inv E present) (on_registry (set_result now workload_id result) : P bool).
Proof.
  eapply hoare_weaken; [apply hoare_set_result|done| |done]. intros a s. apply Inv_mono; [done|apply has_present].
Qed.

Lemma stable_enqueue E Q wid : stable (Inv E Q) (on_admission (enqueue_workload wid) : P unit).
Proof.
  intros s [Hs HQ]. split; [done|]. unfold co_registry, on_admission in *. simpl.
  unfold enqueue_workload. repeat case_match; simpl; done.
Qed.
End invariant.
#[export] Hint Resolve stable_on_attempts stable_on_workers stable_on_artifacts stable_set_selected stable_exhaust
  stable_promote stable_place_on stable_explain stable_update_spec stable_update stable_result stable_enqueue
  insensitive_true insensitive_state : orch.

(** ** The parts of one turn *)
Section parts.
Context {S SJ SA SW SX B : Type}.
Context `{RecordStore S workload_record} `{RecordStore SJ job_record} `{RecordStore SA attempt_record}.
Context `{RecordStore SW worker_info} `{RecordStore SX artifact} `{Advisory B}.
Context (cfg : registry_config) (memory : option telemetry_memory) (bridge : option B)
        (repr_other : json -> string) (max_attempts : Z) (new_execution_id : Z -> string)
        (exn_text : exn -> string) (workload_id : string).
Abbreviation L := (local S SJ SA SW SX).
Abbreviation P := (M S SJ SA SW SX).
Abbreviation present := (has workload_id (fun _ => True)).
Abbreviation state_is := (fun st => has workload_id (fun r => wr_state r = st)).
Abbreviation Ev := (event (S := S) (SJ := SJ) (SA := SA) (SW := SW) (SX := SX)).
Implicit Types (s : L) (d : dispatch_plan) (E : gset string) (ev : Ev).

(** A verdict within the budget: another attempt is only asked for while the
    budget lasts, with the workers of [E] exhausted. *)
Definition within (used : Z) E (v : verdict) s : Prop :=
  match v with V_RETRY => used < max_attempts /\ Inv E present s | V_RETURN => Inv ∅ present s end.

Lemma within_return used E E' Q s : (forall reg, Q reg -> present reg) -> Inv E' Q s -> within used E V_RETURN s.
Proof. intros HQ. apply Inv_mono; [set_solver|done]. Qed.

Lemma should_retry_budget c used : should_retry c used max_attempts = true -> used < max_attempts.
Proof. unfold should_retry. destruct (is_retryable c); simpl; [lia|done]. Qed.

Lemma hoare_update_return E now st msg :
  hoare (Inv E present) (update workload_id now st msg ;;* ret V_RETURN : P verdict)
    (fun v s => v = V_RETURN /\ Inv E (state_is st) s) (Inv E present).
Proof. eapply hoare_bind; [apply hoare_update|]. intros []. by apply hoare_ret. Qed.

Lemma hoare_retry_or_fail E now used c msg :
  hoare (Inv E present) (retry_or_fail max_attempts workload_id now used c msg : P verdict) (within used E) (Inv E present).
Proof.
  unfold retry_or_fail. apply hoare_if; intros Hr.
  - apply hoare_ret. intros s Hs. split; [by eapply should_retry_budget|done].
  - eapply hoare_weaken; [apply (hoare_update_return E now)|done| |done].
    intros v s [-> Hs]. eapply within_return; [|exact Hs]. apply has_present.
Qed.

(** Every handler exhausts the workers it is given, then retries or fails. *)
Lemma hoare_handler E E' (m1 : P unit) (m3 : P (option attempt_record)) now used c msg :
  stable (Inv E present) m1 -> (forall E, stable (Inv E present) m3) ->
  hoare (Inv E present) (m1 ;;* exhaust E' ;;* (let* _ := m3 in retry_or_fail max_attempts workload_id now used c msg))
    (within used (E ∪ E')) (Inv E present).
Proof.
  intros Hm1 Hm3. eapply hoare_bind; [apply Hm1|]. intros []. eapply hoare_bind; [apply hoare_exhaust|]. intros [].
  eapply hoare_weaken; [eapply hoare_bind; [apply Hm3|intros a; apply hoare_retry_or_fail]|done|done|].
  intros s. apply Inv_mono; [set_solver|done].
Qed.

Lemma stable_record_failures E Q now ids : stable (Inv E Q) (record_failures cfg now ids : P unit).
Proof. apply stable_on_workers. Qed.

Lemma hoare_record_lost E now used d text :
  hoare (Inv E present) (record_lost cfg max_attempts workload_id now used d text : P verdict)
    (within used (E ∪ list_to_set (plan_ids d))) (Inv E present).
Proof. apply hoare_handler; eauto using stable_record_failures with orch. Qed.
Lemma hoare_submit_unavailable E now used d text :
  hoare (Inv E present) (submit_unavailable cfg max_attempts workload_id now used d text : P verdict)
    (within used (E ∪ list_to_set (plan_ids d))) (Inv E present).
Proof. apply hoare_handler; eauto using stable_record_failures with orch. Qed.
Lemma hoare_dispatch_failed E now used d text :
  hoare (Inv E present) (dispatch_failed cfg max_attempts workload_id now used d text : P verdict)
    (within used (E ∪ list_to_set (plan_ids d))) (Inv E present).
Proof.
  apply hoare_handler; [eauto using stable_record_failures with orch|].
  intros E0. destruct (dp_group d); eauto with orch.
Qed.

Lemma hoare_vanished E now used d :
  hoare (Inv E present) (vanished_member repr_other max_attempts workload_id now used d : P verdict) (within used E) (Inv E present).
Proof.
  unfold vanished_member. eapply hoare_bind; [apply stable_on_attempts|]. intros a.
  eapply hoare_bind; [apply stable_exhaust|]. intros []. apply hoare_retry_or_fail.
Qed.

Lemma hoare_catching Pre E (Post : verdict -> L -> Prop) Exn now used d (m : P verdict) :
  hoare Pre m Post (Inv E present) ->
  (forall v s, within used (E ∪ list_to_set (plan_ids d)) v s -> Post v s) -> (forall s, Inv E present s -> Exn s) ->
  hoare Pre (catching cfg max_attempts exn_text workload_id now used d m) Post Exn.
Proof.
  intros Hm Hpost Hexn s Hs. unfold catching. specialize (Hm s Hs). destruct (m s) as [s1 [v|e]]; [done|].
  pose proof (hoare_dispatch_failed E now used d (exn_text e) s1 Hm) as Hd.
  destruct (dispatch_failed _ _ _ _ _ _ _ s1) as [s2 [v|e2]]; auto.
Qed.

Lemma stable_fail_superseded E Q now reason l : stable (Inv E Q) (fail_superseded now reason l : P unit).
Proof. induction l as [|a l IH]; simpl; stable_body. Qed.
Lemma stable_supersede E Q now reason aid : stable (Inv E Q) (supersede_others workload_id now reason aid : P unit).
Proof. unfold supersede_others. apply stable_bind; [eauto with orch|]. intros c. apply stable_fail_superseded. Qed.
Lemma stable_record_outputs E Q now spec result : stable (Inv E Q) (record_outputs now spec result : P unit).
Proof. unfold record_outputs. stable_body. Qed.

Lemma hoare_checkpointed E now spec aid result :
  hoare (Inv E present) (checkpointed workload_id now spec aid result : P verdict)
    (fun v s => v = V_RETURN /\ Inv E (state_is SUBMITTED) s) (Inv E present).
Proof.
  unfold checkpointed. eapply hoare_bind; [apply stable_update|]. intros [].
  eapply hoare_bind; [apply stable_on_attempts|]. intros a.
  eapply (hoare_bind _ _ _ (fun _ => Inv E present)).
  { destruct (er_checkpoint_hash result) as [h|]; [destruct (str_truthy h)|]; try apply stable_ret.
    apply stable_bind; [by apply stable_update_spec|]. intros b. apply stable_ret. }
  intros [].
  eapply hoare_bind; [eapply stable_place_on; done|]. intros [].
  eapply hoare_bind; [eapply stable_explain; done|]. intros [].
  eapply hoare_bind; [apply hoare_update|]. intros [].
  apply (hoare_bind _ _ _ (fun _ => Inv E (state_is SUBMITTED))); [|intros []; by apply hoare_ret].
  eapply hoare_weaken; [apply (stable_enqueue E (state_is SUBMITTED))|done|done|].
  intros s. apply Inv_mono; [done|apply has_present].
Qed.

(** What a recorded success looks like. *)
Definition completed_with (result : workload_execution_result) (r : workload_record) : Prop :=
  wr_state r = COMPLETED /\ wr_execution_result r = Some result.

Lemma hoare_succeeded E now spec aid result :
  hoare (Inv E present) (succeeded workload_id now spec aid result : P verdict)
    (fun v s => v = V_RETURN /\ Inv E (has workload_id (completed_with result)) s) (Inv E present).
Proof.
  assert (forall s, Inv E (has workload_id (completed_with result)) s -> Inv E present s) as Hw.
  { intros s. apply Inv_mono; [done|apply has_present]. }
  unfold succeeded. eapply hoare_bind; [apply hoare_set_result|]. intros b.
  eapply hoare_bind; [by apply hoare_update_keeps|]. intros [].
  eapply hoare_bind; [eapply hoare_weaken; [apply (stable_record_outputs E (has workload_id (completed_with result)))|done|done|exact Hw]|]. intros [].
  eapply hoare_bind; [eapply hoare_weaken; [apply (stable_supersede E (has workload_id (completed_with result)))|done|done|exact Hw]|]. intros [].
  eapply hoare_bind; [eapply hoare_weaken; [apply (stable_on_attempts E (has workload_id (completed_with result)))|done|done|exact Hw]|]. intros a.
  by apply hoare_ret.
Qed.

(** The workers a failing result excludes. *)
Definition newly_exhausted d (unavailable : gset string) (result : workload_execution_result) : gset string :=
  if bool_decide (unavailable = ∅)
  then (if excludes (er_failure_category result) then {[pd_selected_worker_id (dp_decision d)]} else ∅)
  else unavailable.

Lemma hoare_failed E now used d lost unavailable result :
  hoare (Inv E present) (failed cfg max_attempts workload_id now used d lost unavailable result : P verdict)
    (fun v s => match v with
                | V_RETRY => should_retry (er_failure_category result) used max_attempts = true /\
                             Inv (E ∪ newly_exhausted d unavailable result) present s
                | V_RETURN => should_retry (er_failure_category result) used max_attempts = false /\
                              Inv E (state_is FAILED) s
                end) (Inv E present).
Proof.
  assert (forall s, Inv (E ∪ newly_exhausted d unavailable result) present s -> Inv E present s) as Hw.
  { intros s. apply Inv_mono; [set_solver|done]. }
  unfold failed. eapply hoare_bind; [apply stable_get_shared|]. intros c.
  eapply hoare_bind; [apply stable_if; stable_body|]. intros [].
  eapply (hoare_bind _ _ _ (fun _ => Inv (E ∪ newly_exhausted d unavailable result) present)).
  - unfold newly_exhausted. destruct (bool_decide (unavailable = ∅)); simpl.
    + apply hoare_if; intros Hx; rewrite Hx; [apply hoare_exhaust|].
      apply hoare_ret. intros s. apply Inv_mono; [set_solver|done].
    + eapply hoare_bind; [apply stable_record_failures|]. intros []. apply hoare_exhaust.
  - intros []. apply hoare_if; intros Hr.
    + by apply hoare_ret.
    + eapply hoare_bind; [eapply hoare_weaken; [apply (stable_result workload_id (E ∪ newly_exhausted d unavailable result))|done|done|exact Hw]|]. intros b.
      eapply hoare_weaken; [apply (hoare_update_return (E ∪ newly_exhausted d unavailable result) now)|done| |exact Hw].
      intros v s [-> Hs]. split; [done|]. eapply Inv_mono; [|done|exact Hs]. set_solver.
Qed.

(** ** One turn *)

Lemma hoare_no_placement E now spec all_workers e :
  hoare (Inv E present) (no_placement workload_id now spec all_workers e : P (option dispatch_plan))
    (fun o s => o = None /\ Inv E present s) (Inv E present).
Proof.
  unfold no_placement. eapply hoare_bind; [by apply stable_explain|]. intros [].
  eapply hoare_bind; [by apply stable_place_on|]. intros [].
  eapply hoare_bind; [apply stable_get_selected|]. intros selected.
  eapply hoare_bind; [apply stable_get_exhausted|]. intros exhausted.
  apply (hoare_bind _ _ _ (fun _ => Inv E present)); [|intros []; by apply hoare_ret].
  repeat apply stable_if; apply stable_update.
Qed.

(** The workers a plan can use are the registered ones the workload has not
    exhausted. *)
Lemma hoare_place E now ctx used :
  hoare (Inv E present)
    (place memory bridge repr_other new_execution_id workload_id now ctx used : P (option dispatch_plan))
    (fun o s => Inv E present s /\
       match o with Some d => forall w, w ∈ map wi_worker_id (dp_workers d) -> w ∉ E | None => True end)
    (Inv E present).
Proof.
  unfold place. eapply hoare_bind; [apply stable_promote|]. intros [].
  eapply hoare_bind; [apply stable_get_shared|]. intros c.
  eapply hoare_bind; [apply stable_get_selected|]. intros selected.
  eapply (hoare_bind _ _ _ (fun x s => E ⊆ x /\ Inv E present s)); [by intros s [Hx HQ]|]. intros exhausted.
  apply hoare_pure. intros Hx. eapply hoare_bind; [apply hoare_lift|]. intros [[[d|] gs] cands].
  2:{ eapply hoare_weaken; [apply hoare_no_placement| | |]; [intros s Hs; exact Hs| |intros s Hs; exact Hs].
      by intros o s [-> Hs]. }
  eapply hoare_bind; [by apply stable_place_on|]. intros [].
  eapply hoare_bind; [by apply stable_explain|]. intros [].
  eapply hoare_bind; [apply stable_update|]. intros [].
  eapply (hoare_bind _ _ _ (fun _ => Inv E present)).
  { destruct gs as [[|g gs]|]; [apply stable_ret| |apply stable_ret].
    apply stable_bind; [apply stable_lift|]. intros g'. apply stable_ret. }
  intros group. eapply hoare_bind; [apply stable_on_attempts|]. intros a.
  eapply hoare_bind; [apply stable_on_attempts|]. intros a'. apply hoare_ret.
  intros s Hs. split; [done|]. simpl. intros w (x & -> & Hin)%list_elem_of_fmap.
  apply list_elem_of_In, filter_In in Hin as [_ Hin]. apply andb_true_iff in Hin as [_ Hin].
  apply negb_true_iff, bool_decide_eq_false in Hin. set_solver.
Qed.

(** The workers whose dispatch raised, and the worker of a single dispatch that
    reported an excluding failure. *)
Definition given_up d (ev : Ev) : gset string :=
  transport_unavailable (outcomes d ev)
  ∪ match dp_group d, ev_outcome ev 0 with
    | None, M_RESULT r => if excludes (er_failure_category r) then {[pd_selected_worker_id (dp_decision d)]} else ∅
    | _, _ => ∅
    end.

Definition excluded_single d (result : workload_execution_result) : gset string :=
  match dp_group d with
  | None => if excludes (er_failure_category result) then {[pd_selected_worker_id (dp_decision d)]} else ∅
  | Some _ => ∅
  end.

Lemma hoare_conclude E now ctx used d result unavailable transport :
  transport ⊆ unavailable -> (dp_group d = None -> unavailable = ∅) ->
  hoare (Inv E present)
    (conclude cfg max_attempts workload_id now ctx used d (result, unavailable, transport) : P verdict)
    (within used (E ∪ (transport ∪ excluded_single d result))) (Inv E present).
Proof.
  intros Htr Hun. unfold conclude. eapply hoare_bind; [apply stable_get_shared|]. intros c.
  apply hoare_if; intros Hc.
  { eapply hoare_bind; [apply stable_on_attempts|]. intros a.
    eapply hoare_weaken; [apply (hoare_update_return E now)|done| |done].
    intros v s [-> Hs]. eapply within_return; [|exact Hs]. apply has_present. }
  set (unavailable' := if _ : bool then _ else unavailable).
  set (result' := if _ : bool then er_fail _ _ _ else _).
  assert (transport ∪ excluded_single d result ⊆ newly_exhausted d unavailable' result') as Hsub.
  { unfold newly_exhausted, excluded_single. destruct (dp_group d) as [g|] eqn:Eg.
    - assert (transport ⊆ unavailable') as Ht.
      { subst unavailable'. simpl. repeat case_match; set_solver. }
      case_bool_decide as Hu; [|set_solver]. rewrite Hu in Ht. repeat case_match; set_solver.
    - subst unavailable' result'. simpl. rewrite andb_false_r, (Hun eq_refl) in *. rewrite bool_decide_eq_true_2 by done. set_solver. }
  apply hoare_if; intros Hck.
  { eapply hoare_weaken; [apply hoare_checkpointed|done| |done].
    intros v s [-> Hs]. eapply within_return; [|exact Hs]. apply has_present. }
  apply hoare_if; intros Hok.
  { eapply hoare_weaken; [apply hoare_succeeded|done| |done].
    intros v s [-> Hs]. eapply within_return; [|exact Hs]. apply has_present. }
  eapply hoare_weaken; [apply hoare_failed|done| |done].
  intros [] s [Hr Hs].
  - split; [by eapply should_retry_budget|]. eapply Inv_mono; [|done|exact Hs]. set_solver.
  - eapply within_return; [|exact Hs]. apply has_present.
Qed.

Lemma aggregate_unavailable spec g outs agg unavailable transport :
  aggregate_group repr_other spec g outs = Ok (agg, unavailable, transport) ->
  transport = transport_unavailable outs /\ transport ⊆ unavailable.
Proof.
  unfold aggregate_group. intros E. destruct (if negb _ then _ else _) as [cat msg] in E.
  destruct (if _ : bool then too_few_outputs _ _ else _) as [few|e]; [|done].
  injection E as _ <- <-. split; [done|set_solver].
Qed.

Lemma within_mono used E E' v s : E' ⊆ E -> within used E v s -> within used E' v s.
Proof. destruct v; [|done]. intros HE [Hu Hs]. split; [done|]. by eapply Inv_mono. Qed.

Lemma member_of_plan d ev : transport_unavailable (outcomes d ev) ⊆ list_to_set (plan_ids d).
Proof.
  unfold transport_unavailable, outcomes. intros w Hw. apply elem_of_list_to_set in Hw.
  apply list_elem_of_omap in Hw as ([w' o] & Hin & Hw). apply elem_of_list_to_set.
  apply elem_of_lookup_imap in Hin as (i & x & [= -> ->] & Hx). destruct (ev_outcome ev i); [done|].
  injection Hw as ->. by eapply list_elem_of_lookup_2.
Qed.
Lemma given_up_plan d ev : given_up d ev ⊆ list_to_set (plan_ids d).
Proof.
  unfold given_up. apply union_least; [apply member_of_plan|].
  unfold plan_ids. repeat case_match; set_solver.
Qed.

Lemma hoare_after_dispatch E ctx used d ev :
  hoare (Inv E present)
    (after_dispatch cfg repr_other max_attempts exn_text workload_id ctx used d ev : P verdict)
    (within used (E ∪ given_up d ev)) (Inv E present).
Proof.
  assert (forall v s, within used (E ∪ list_to_set (plan_ids d)) v s -> within used (E ∪ given_up d ev) v s) as Hall.
  { intros v s. apply within_mono. pose proof (given_up_plan d ev). set_solver. }
  unfold after_dispatch. destruct (dp_group d) as [g|] eqn:Eg.
  - eapply hoare_catching; [|exact Hall|done]. intros s Hs. unfold bind, lift.
    destruct (aggregate_group _ _ _ _) as [[[agg unavailable] transport]|e] eqn:Ea; [|done].
    apply aggregate_unavailable in Ea as [-> Hsub].
    eapply hoare_weaken; [apply hoare_conclude; [exact Hsub|congruence]|done| |done|exact Hs].
    intros v s' Hv. eapply within_mono; [|exact Hv]. unfold given_up, excluded_single. rewrite Eg. set_solver.
  - destruct (ev_outcome ev 0) as [r|[text|text|text]] eqn:Eo.
    + eapply hoare_catching; [|exact Hall|done].
      eapply hoare_weaken; [apply hoare_conclude; [done|done]|done| |done].
      intros v s' Hv. eapply within_mono; [|exact Hv].
      unfold given_up, excluded_single, outcomes, plan_ids. rewrite Eg. simpl. rewrite Eo. set_solver.
    + eapply hoare_weaken; [apply hoare_submit_unavailable|done|exact Hall|done].
    + eapply hoare_weaken; [apply hoare_record_lost|done|exact Hall|done].
    + eapply hoare_weaken; [apply hoare_dispatch_failed|done|exact Hall|done].
Qed.

(** ** The loop *)

(** No other task deletes the workload. *)
Definition keeps_workload ev : Prop :=
  forall c, present (co_registry c) -> present (co_registry (ev_world ev c)).

(** A later plan uses none of the workers an earlier dispatch gave up. *)
Definition gives_up_for_good (events : list Ev) (plans : list dispatch_plan) : Prop :=
  forall i j di dj ev, (i < j)%nat -> plans !! i = Some di -> plans !! j = Some dj -> events !! i = Some ev ->
    forall w, w ∈ plan_ids dj -> w ∉ given_up di ev.

Definition loop_ok E (used : Z) (fuel : nat) (events : list Ev) (log : list dispatch_plan)
    (out : L * list dispatch_plan * process_end) : Prop :=
  exists plans, snd (fst out) = log ++ plans /\
    Z.of_nat (length plans) <= Z.max 1 (max_attempts - used) /\
    (forall d w, d ∈ plans -> w ∈ plan_ids d -> w ∉ E) /\
    gives_up_for_good events plans /\
    (Z.max 1 (max_attempts - used) <= Z.of_nat fuel -> snd out <> E_FUEL).

Lemma loop_ok_end E used fuel events log s e : e <> E_FUEL -> loop_ok E used fuel events log (s, log, e).
Proof.
  intros He. exists []. simpl. rewrite app_nil_r. split_and!; [done|lia|set_solver| |done].
  by intros i j di dj ev _ Hi.
Qed.

Lemma loop_ok_one E used fuel events log d s e :
  (forall w, w ∈ plan_ids d -> w ∉ E) -> e <> E_FUEL -> loop_ok E used fuel events log (s, log ++ [d], e).
Proof.
  intros Hd He. exists [d]. simpl. split_and!; [done|lia| | |done].
  - intros d' w ->%list_elem_of_singleton. apply Hd.
  - intros i j di dj ev Hij _ Hj. destruct j as [|[|j]]; [lia|done|done].
Qed.

Lemma loop_ok_retry E used fuel events log out :
  used + 1 < max_attempts -> loop_ok E (used + 1) fuel events log out ->
  loop_ok E used (Datatypes.S fuel) events log out.
Proof.
  intros Hu (plans & Hlog & Hlen & HE & Hgive & Hfuel). exists plans.
  split_and!; [done|lia|done|done|]. intros Hf. apply Hfuel. lia.
Qed.

Lemma loop_ok_cons E used fuel ev events log d out :
  used + 1 < max_attempts -> (forall w, w ∈ plan_ids d -> w ∉ E) ->
  loop_ok (E ∪ given_up d ev) (used + 1) fuel events (log ++ [d]) out ->
  loop_ok E used (Datatypes.S fuel) (ev :: events) log out.
Proof.
  intros Hu Hd (plans & Hlog & Hlen & HE & Hgive & Hfuel). exists (d :: plans).
  split_and!; [by rewrite Hlog, <- app_assoc|simpl; lia| | |intros Hf; apply Hfuel; lia].
  - intros d' w [->|Hin]%elem_of_cons; [apply Hd|]. intros Hw. specialize (HE d' w Hin Hw). set_solver.
  - intros [|i] [|j] di dj ev' Hij Hi Hj Hev w Hw; simpl in *; [lia| |lia|].
    + simplify_eq. specialize (HE dj w (list_elem_of_lookup_2 _ _ _ Hj) Hw). set_solver.
    + eapply (Hgive i j); eauto. lia.
Qed.

Lemma hoare_begin E now d : stable (Inv E present) (begin_dispatch workload_id now d : P unit).
Proof. unfold begin_dispatch. apply stable_bind; [apply stable_on_attempts|]. intros a. apply stable_update. Qed.

Lemma vanished_none d : vanished d = [] -> forall w, w ∈ plan_ids d -> w ∈ map wi_worker_id (dp_workers d).
Proof.
  unfold vanished. intros Hv w Hw. destruct (decide (w ∈ map wi_worker_id (dp_workers d))) as [|Hn]; [done|].
  assert (In w (List.filter (fun w => negb (bool_decide (w ∈ map wi_worker_id (dp_workers d)))) (plan_ids d))) as Hin.
  { apply filter_In. split; [by apply list_elem_of_In|]. by rewrite bool_decide_eq_false_2. }
  rewrite Hv in Hin. done.
Qed.

Abbreviation loop := (process_loop cfg memory bridge repr_other max_attempts new_execution_id exn_text workload_id).

Lemma process_loop_ok fuel now ctx used events log E s :
  Forall keeps_workload events -> Inv E present s ->
  loop_ok E used fuel events log (loop fuel now ctx used events log s).
Proof.
  revert now used events log E s. induction fuel as [|fuel IH]; intros now used events log E s Hev Hs.
  { exists []. simpl. rewrite app_nil_r. split_and!; [done|lia|set_solver|by intros i j di dj ev _ Hi|lia]. }
  cbn [process_loop]. pose proof (hoare_place E now ctx (used + 1) s Hs) as Hplace.
  destruct (place _ _ _ _ _ _ _ _ _) as [s1 [[d|]|e]]; [|by apply loop_ok_end..].
  destruct Hplace as [Hs1 Hd]. destruct (bool_decide (vanished d = [])) eqn:Hv; simpl.
  2:{ pose proof (hoare_vanished E now (used + 1) d s1 Hs1) as Hvan.
      destruct (vanished_member _ _ _ _ _ _ _) as [s2 [[]|e]]; [|by apply loop_ok_end..].
      destruct Hvan as [Hu Hs2]. by apply loop_ok_retry; [|apply IH]. }
  apply bool_decide_eq_true in Hv. assert (forall w, w ∈ plan_ids d -> w ∉ E) as Hplan.
  { intros w Hw. by apply Hd, vanished_none. }
  pose proof (hoare_begin E now d s1 Hs1) as Hbegin. destruct (begin_dispatch _ _ _ _) as [s2 [[]|e]].
  2:{ pose proof (hoare_dispatch_failed E now (used + 1) d (exn_text e) s2 Hbegin) as Hdf.
      destruct (dispatch_failed _ _ _ _ _ _ _ _) as [s3 [[]|e']]; [|by apply loop_ok_end..].
      destruct Hdf as [Hu Hs3]. apply loop_ok_retry; [done|]. apply IH; [done|].
      eapply Inv_mono; [|done|exact Hs3]. set_solver. }
  destruct events as [|ev events]; [by apply loop_ok_one|].
  apply Forall_cons in Hev as [Hev1 Hev].
  assert (Inv E present (with_shared (ev_world ev (lo_shared s2)) s2)) as Hw.
  { destruct Hbegin as [HE Hp]. split; [done|]. by apply Hev1. }
  pose proof (hoare_after_dispatch E ctx (used + 1) d ev _ Hw) as Ha.
  destruct (after_dispatch _ _ _ _ _ _ _ _ _ _) as [s3 [[]|e]]; [|by apply (loop_ok_one _ _ _ _ _ d)..].
  destruct Ha as [Hu Hs3]. by apply (loop_ok_cons _ _ _ _ _ _ d); [| |apply IH].
Qed.

(** ** Entering the loop *)

Lemma dependency_state_present now r reg : present reg -> present (fst (dependency_state now r reg)).
Proof.
  unfold dependency_state. generalize (wr_id r) (ws_depends_on (wr_spec r)). intros wid deps Hp.
  induction deps as [|d deps IH]; cbn [dependency_loop]; [done|].
  destruct (get_workload reg d) as [r'|]; [|done]. case_bool_decide; [|by case_bool_decide].
  set (msg := Some _). pose proof (modify_has workload_id (fun _ => True) (fun _ => True) wid (apply_state now FAILED msg) reg) as Hm.
  unfold update_state. destruct (modify _ _ _) as [reg' out]. apply Hm; auto.
Qed.

Definition entered (c : coordinator S SJ SA SW SX) (o : option (process_context * Z)) s : Prop :=
  match o with
  | None => True
  | Some (_, used) =>
      let records := list_attempts_for_workload (co_attempts c) workload_id in
      used = attempts_used records /\ (used < max_attempts \/ used = 0) /\ Inv (exhausted_by records) present s
  end.

Lemma hoare_prepare now c s :
  lo_shared s = c -> wf (co_registry c) ->
  match prepare max_attempts workload_id now s with (s', Ok o) => entered c o s' | (_, Err _) => True end.
Proof.
  intros Hc Hwf. revert s Hc.
  cut (hoare (fun s => lo_shared s = c) (prepare max_attempts workload_id now : P _) (entered c) (fun _ => True)).
  { intros Hh s Hs. exact (Hh s Hs). }
  unfold prepare. apply (hoare_bind _ _ _ (fun x s => x = c /\ lo_shared s = c)); [by intros s Hs|]. intros c'.
  apply hoare_pure. intros ->. destruct (get_workload (co_registry c) workload_id) as [record|] eqn:Hr.
  2:{ by apply hoare_ret. }
  apply hoare_if; intros Hcan; [by apply hoare_ret|].
  eapply hoare_weaken with (Pre' := Inv ∅ present) (Exn' := fun _ => True) (Post' := entered c); [|intros s <-|done|done].
  2:{ split; [set_solver|]. split; [done|]. by exists record. }
  assert (forall A (I : L -> Prop) (m : P A) Post, hoare I m Post I -> hoare I m Post (fun _ => True)) as Hx.
  { intros A I m Post Hm. by eapply hoare_weaken. }
  eapply hoare_bind; [apply Hx, stable_registry, dependency_state_present|]. intros dep.
  apply hoare_if; intros Hd; [by apply hoare_ret|].
  eapply hoare_bind; [apply Hx, hoare_lift|]. intros spec.
  eapply hoare_bind; [apply Hx, stable_update|]. intros [].
  eapply hoare_bind; [apply Hx, stable_update|]. intros [].
  set (records := list_attempts_for_workload (co_attempts c) workload_id).
  eapply hoare_bind; [apply Hx, hoare_exhaust|]. intros [].
  apply hoare_if; intros Hb.
  { eapply hoare_bind; [apply Hx, stable_update|]. intros []. by apply hoare_ret. }
  eapply hoare_bind; [apply Hx, stable_set_selected|]. intros [].
  eapply hoare_bind; [apply Hx, stable_promote|]. intros [].
  eapply hoare_bind; [apply Hx, stable_get_selected|]. intros sel.
  eapply hoare_bind; [apply Hx, stable_get_exhausted|]. intros ex.
  apply hoare_if; intros Ha.
  { eapply hoare_bind; [apply Hx, stable_update|]. intros []. by apply hoare_ret. }
  apply hoare_ret. intros s Hs. unfold entered. fold records. split; [done|]. split.
  - assert (0 <= attempts_used records) by (unfold attempts_used; lia). lia.
  - eapply Inv_mono; [|done|exact Hs]. set_solver.
Qed.

Abbreviation run := (process_workload cfg memory bridge repr_other max_attempts new_execution_id exn_text workload_id).

Lemma process_workload_ok fuel now events c :
  wf (co_registry c) -> Forall keeps_workload events ->
  let records := list_attempts_for_workload (co_attempts c) workload_id in
  let out := run fuel now events c in
  (snd (fst out) = [] /\ snd out <> E_FUEL) \/
  ((attempts_used records < max_attempts \/ attempts_used records = 0) /\
   loop_ok (exhausted_by records) (attempts_used records) fuel events [] out).
Proof.
  intros Hwf Hev records out. unfold out, process_workload.
  pose proof (hoare_prepare now c {| lo_shared := c; lo_exhausted := ∅; lo_selected := None |} eq_refl Hwf) as Hp.
  destruct (prepare _ _ _ _) as [s [[[ctx used]|]|e]]; [|by left..].
  destruct Hp as (-> & Hu & Hs). right. split; [done|]. by apply process_loop_ok.
Qed.



(** ** What an outcome does to the workload *)

Definition cancelling (st : workload_state) : bool := bool_decide (st = CANCELLATION_REQUESTED \/ st = CANCELLED).

(** The record after the coroutine settled result [r] of a single dispatch in
    state [st]. *)
Definition final_record (st : workload_state) (used : Z) (r : workload_execution_result) (w : workload_record) : Prop :=
  if cancelling st then wr_state w = CANCELLED
  else if er_was_checkpointed r then wr_state w = SUBMITTED
  else if er_success r then completed_with r w
  else wr_state w = FAILED /\ should_retry (er_failure_category r) used max_attempts = false.

Definition settled (st : workload_state) (used : Z) (r : workload_execution_result) (v : verdict) s : Prop :=
  match v with
  | V_RETURN => has workload_id (final_record st used r) (co_registry (lo_shared s))
  | V_RETRY => cancelling st = false /\ er_was_checkpointed r = false /\ er_success r = false /\
               should_retry (er_failure_category r) used max_attempts = true
  end.

Lemma hoare_conclude_single st now ctx used d r :
  dp_group d = None ->
  hoare (Inv ∅ (state_is st)) (conclude cfg max_attempts workload_id now ctx used d (r, ∅, ∅) : P verdict)
    (settled st used r) (Inv ∅ present).
Proof.
  intros Eg. unfold conclude. rewrite Eg, andb_false_r. cbn [andb].
  apply (hoare_bind _ _ _ (fun x s => state_is st (co_registry x) /\ Inv ∅ present s)).
  { intros s [HE Hs]. split; [done|]. split; [done|]. by eapply has_present. }
  intros c. apply hoare_pure. intros (_ & rec & Hrec & Hst). rewrite Hrec, Hst.
  change (bool_decide (st = CANCELLATION_REQUESTED \/ st = CANCELLED)) with (cancelling st).
  assert (forall (φ : workload_record -> Prop) s, (forall w, φ w -> final_record st used r w) ->
            Inv ∅ (has workload_id φ) s -> settled st used r V_RETURN s) as Hfin.
  { intros φ s Hφ [_ Hs]. by eapply has_mono. }
  unfold settled, final_record in *. apply hoare_if; intros Hc; rewrite Hc in *.
  { eapply hoare_bind; [apply stable_on_attempts|]. intros a.
    eapply hoare_weaken; [apply (hoare_update_return ∅ now)|done| |done].
    intros v s [-> Hs]. by apply (Hfin (fun w => wr_state w = CANCELLED)). }
  apply hoare_if; intros Hck; rewrite Hck in *.
  { eapply hoare_weaken; [apply hoare_checkpointed|done| |done].
    intros v s [-> Hs]. by apply (Hfin (fun w => wr_state w = SUBMITTED)). }
  apply hoare_if; intros Hok; rewrite Hok in *.
  { eapply hoare_weaken; [apply hoare_succeeded|done| |done].
    intros v s [-> Hs]. by apply (Hfin (completed_with r)). }
  eapply hoare_weaken; [apply hoare_failed|done| |done].
  intros [] s [Hr Hs]; [done|]. by apply (Hfin (fun w => wr_state w = FAILED)).
Qed.

End parts.

(** ** Concrete runs *)

Abbreviation MW := (mem_store workload_record).
Abbreviation MJ := (mem_store job_record).
Abbreviation MA := (mem_store attempt_record).
Abbreviation MK := (mem_store worker_info).
Abbreviation MX := (mem_store artifact).

(** Workload ["w1"] submitted to three idle machines; [artifact_writes] are
    the outcomes of the first writes of the artifact table. *)
Definition three_machines : workers MK :=
  {| wk_workers := map (fun w => (w, sample_worker w)) ["pc1"; "pc2"; "pc3"]%string;
     wk_hash_index := ∅; wk_worker_hashes := ∅; wk_health := []; wk_store := None |}.
Definition sample_cluster (artifact_writes : list bool) : coordinator MW MJ MA MK MX :=
  {| co_admission := fst (submit_workload f0 (sized_spec "w1") (or_admission no_jobs));
     co_attempts := empty_attempts (Some (Build_mem_store [] []));
     co_workers := three_machines; co_jobs := None;
     co_artifacts := Some {| ax_artifacts := []; ax_by_hash := []; ax_store := Some (Build_mem_store [] artifact_writes) |} |}.

Definition sample_result (ok : bool) (category : option failure_category) : workload_execution_result :=
  {| er_workload_id := "w1"; er_worker_id := "pc1"; er_success := ok; er_output_asset_hashes := if ok then {["aa"%string]} else ∅;
     er_output_asset_sizes := []; er_execution_duration_seconds := f1; er_error_message := None;
     er_was_checkpointed := false; er_checkpoint_hash := None; er_failure_category := category;
     er_checkpoint_runtime_type := None; er_checkpoint_format_version := None;
     er_staging_duration_seconds := f0; er_output_ingestion_duration_seconds := f0;
     er_verification_duration_seconds := f0; er_transfer_duration_seconds := f0;
     er_stdout_snippet := None; er_stderr_snippet := None |}.

Definition replies (world : coordinator MW MJ MA MK MX -> coordinator MW MJ MA MK MX) (o : member_outcome) : event :=
  {| ev_world := world; ev_outcome := fun _ => o; ev_now := f1 |}.
Definition refused : event := replies (fun c => c) (M_ERROR (SubmitUnavailable "refused")).
Definition done_ok : event := replies (fun c => c) (M_RESULT (sample_result true None)).

Definition sample_run (fuel : nat) (events : list event) (c : coordinator MW MJ MA MK MX) :=
  process_workload (B := Empty_set) default_config None None (fun _ => ""%string) 3 (fun _ => "x"%string)
    (fun _ => "store"%string) "w1" fuel f0 events c.
Definition dispatched_to (out : local MW MJ MA MK MX * list dispatch_plan * process_end) : list (list string) :=
  map plan_ids (snd (fst out)).
Definition state_after (out : local MW MJ MA MK MX * list dispatch_plan * process_end) : option workload_state :=
  option_map wr_state (get_workload (co_registry (lo_shared (fst (fst out)))) "w1").

(** The second machine finishes what the first refused. *)
Example refused_then_done :
  let out := sample_run 4 [refused; done_ok] (sample_cluster []) in
  dispatched_to out = [["pc1"]; ["pc2"]]%string /\ snd out = E_RETURNED /\ state_after out = Some COMPLETED.
Proof. vm_compute. split_and!; reflexivity. Qed.

(** Three refusals use the budget up. *)
Example refused_by_all :
  let out := sample_run 4 [refused; refused; refused; done_ok] (sample_cluster []) in
  dispatched_to out = [["pc1"]; ["pc2"]; ["pc3"]]%string /\ snd out = E_RETURNED /\ state_after out = Some FAILED.
Proof. vm_compute. split_and!; reflexivity. Qed.

(** The write of the artifact record fails after the workload is COMPLETED:
    the attempt of the worker that did the work is marked FAILED as if the
    worker were unavailable, and the completed workload runs a second time. *)
Example completed_then_rerun :
  let out := sample_run 4 [done_ok; done_ok] (sample_cluster [false]) in
  dispatched_to out = [["pc1"]; ["pc2"]]%string /\ state_after out = Some COMPLETED /\
  option_map (fun a => (at_status a, at_failure_category a))
    (get_attempt (co_attempts (lo_shared (fst (fst out)))) "w1#1")
  = Some (AT_FAILED, Some WORKER_UNAVAILABLE).
Proof. vm_compute. split_and!; reflexivity. Qed.

(** With a budget of one, the completed workload ends FAILED. *)
Example completed_then_failed :
  state_after (process_workload (B := Empty_set) default_config None None (fun _ => ""%string) 1 (fun _ => "x"%string)
                 (fun _ => "store"%string) "w1" 4 f0 [done_ok] (sample_cluster [false]))
  = Some FAILED.
Proof. vm_compute. reflexivity. Qed.

(** Cancelling while a machine that then turns out to be unreachable holds the
    workload: the handlers do not look at the state, so the cancelled workload
    is placed again and completes. *)
Definition cancelled_meanwhile : event :=
  replies (fun c => set_admission (with_registry (fst (update_state f1 "w1" CANCELLED None (co_registry c))) (co_admission c)) c)
    (M_ERROR (RecordLost "gone")).
Example cancelled_then_completed :
  let out := sample_run 4 [cancelled_meanwhile; done_ok] (sample_cluster []) in
  dispatched_to out = [["pc1"]; ["pc2"]]%string /\ state_after out = Some COMPLETED.
Proof. vm_compute. split; reflexivity. Qed.

(** ** Witnesses *)

Lemma sample_wf writes : wf (co_registry (sample_cluster writes)).
Proof.
  destruct (submit_workload f0 (sized_spec "w1") (or_admission no_jobs)) as [a out] eqn:E.
  unfold co_registry, sample_cluster. cbn [co_admission]. rewrite E.
  apply (submit_workload_effect _ _ _ _ _ E), wf_empty.
Qed.
Lemma replies_keep o : keeps_workload "w1" (replies (fun c => c) o).
Proof. by intros c. Qed.

Definition refusals : list (@event MW MJ MA MK MX) := [refused; refused; refused; done_ok].
Lemma refusals_keep : Forall (keeps_workload "w1") refusals.
Proof. repeat (apply Forall_cons; split; [apply replies_keep|]). apply Forall_nil; done. Qed.



(** A dispatch of ["w1"] to ["pc1"], and its success. *)
Definition sample_local : local MW MJ MA MK MX :=
  {| lo_shared := sample_cluster []; lo_exhausted := ∅; lo_selected := None |}.
Definition sample_plan : dispatch_plan :=
  {| dp_decision :=
       {| pd_workload_id := "w1"; pd_selected_worker_id := "pc1"; pd_placement_score := f1; pd_score_breakdown := [];
          pd_missing_assets_on_worker := ∅; pd_execution_tier := "lan"; pd_decision_timestamp_utc := f0;
          pd_candidate_explanations := []; pd_m7_ranking_adjustments := []; pd_locality_details := None;
          pd_deadline_details := None |};
     dp_group := None; dp_attempt_id := "w1#1"; dp_workers := [sample_worker "pc1"] |}.
Definition sample_context : process_context :=
  {| px_spec := sized_spec "w1"; px_parent_job := None; px_shape := SINGLE_MACHINE; px_required := 1 |}.

