(* ===== verification/Cancellation.v ===== *)
(** * Cancelling, draining and cloning ([distributed/workload.py])

    The coroutines that interfere with a workload another coroutine drives:
    [cancel_workload] and [cancel_job], [drain_worker], and the speculative
    clone of a straggler ([_maybe_speculative_steal_straggler],
    [_execute_speculative_attempt]).  Each is cut at its awaits: the stretch
    before an await gives the requests it sends, and the stretch after it runs
    in whatever state the other tasks left.  The group drain events of
    [drain_worker], which only delay [_process_workload], are left out, and so
    are the cancel requests sent to workers without waiting for them. *)
From S2P Require Export OrchestratorProps.

Section interference.
Context {S SJ SA SW SX : Type}.
Context `{RecordStore S workload_record} `{RecordStore SA attempt_record} `{RecordStore SX artifact}.
Context `{RecordStore SW worker_info}.
Abbreviation P := (M S SJ SA SW SX).
Abbreviation C := (coordinator S SJ SA SW SX).

Definition live (a : attempt_record) : bool := bool_decide (at_status a = ASSIGNED \/ at_status a = RUNNING).

(** A POST to a worker. *)
Record post := { po_worker : string; po_path : string }.

(** ** [cancel_workload] *)

(** [None]: the call returns at once, with the given answer. *)
Definition cancel_begin (now : float) (wid : string) : P (option post + bool) :=
  let* c := get_shared in
  match get_workload (co_registry c) wid with
  | None => ret (inr false)
  | Some r =>
      if bool_decide (wr_state r ∈ TERMINAL_WORKLOAD_STATES) then ret (inr true)
      else
        update wid now CANCELLATION_REQUESTED (Some "Cancellation requested by user"%string) ;;*
        ret (inl (match get_latest_attempt (co_attempts c) wid with
                  | Some a =>
                      match at_worker_id a with
                      | Some w => if live a && str_truthy w
                                  then option_map (fun _ => {| po_worker := w; po_path := at_attempt_id a |})
                                         (get_worker (co_workers c) w)
                                  else None
                      | None => None
                      end
                  | None => None
                  end))
  end.

Definition cancel_end (now : float) (wid : string) : P bool :=
  update wid now CANCELLED (Some "Execution cancelled by user request"%string) ;;*
  on_admission (fun a => with_queued (set_discard wid (ad_queued a)) a) ;;*
  ret true.

(** [world] is what happens while the request is out; the code awaits only
    when there is a request. *)
Definition cancel_workload (now later : float) (world : C -> C) (wid : string) : P bool :=
  let* b := cancel_begin now wid in
  match b with
  | inr answer => ret answer
  | inl None => cancel_end now wid
  | inl (Some _) => (fun s => (with_shared (world (lo_shared s)) s, Ok tt)) ;;* cancel_end later wid
  end.

Fixpoint cancel_members (now : float) (world : string -> C -> C) (l : list string) : P bool :=
  match l with
  | [] => ret true
  | wid :: l =>
      let* ok := cancel_workload now now (world wid) wid in
      let* all := cancel_members now world l in
      ret (ok && all)
  end.

Definition cancel_job (now : float) (world : string -> C -> C) (job_id : string) : P bool :=
  let* c := get_shared in
  match co_jobs c ≫= fun jreg => get_job jreg job_id with
  | None => ret false
  | Some j => cancel_members now world (elements (jr_workload_ids j))
  end.

(** ** [drain_worker] *)

Definition drain_reason (wid : string) : string :=
  ("execution group drained because worker " +:+ wid +:+ " is draining")%string.

Fixpoint drain_groups (now : float) (wid : string) (l : list attempt_record) : P unit :=
  match l with
  | [] => ret tt
  | a :: l =>
      let* _ := on_attempts (mark_lost now (at_attempt_id a) (drain_reason wid) [wid]) in
      drain_groups now wid l
  end.

(** The workloads the drained worker still holds: placed but not started, or
    executing on a worker that is OFFLINE. *)
Definition drained (c : C) (wid : string) (groups : gset string) (r : workload_record) : bool :=
  (bool_decide (wr_state r = PLACED)
   || (bool_decide (wr_state r = EXECUTING)
       && bool_decide (option_map wi_status (get_worker (co_workers c) wid) = Some WS_OFFLINE)))
  && match wr_placement_decision r with
     | Some d => String.eqb (pd_selected_worker_id d) wid
     | None => false
     end
  && negb (bool_decide (wr_id r ∈ groups)).

Definition checkpoint_post (c : C) (member wid : string) : option post :=
  option_map (fun _ => {| po_worker := member; po_path := wid |}) (get_worker (co_workers c) member).

(** The checkpoint requests: first to every member of each group, then for the
    worker's own workloads. *)
Definition drain_worker (now : float) (wid : string) : P (list post) :=
  let* c := get_shared in
  let groups := List.filter (fun a => bool_decide (is_Some (at_execution_group a)))
                  (list_running_attempts_for_worker (co_attempts c) wid) in
  drain_groups now wid groups ;;*
  let members := concat (map (fun a => match at_execution_group a with
                                       | Some g => map (fun m => (m, at_workload_id a)) (eg_worker_ids g)
                                       | None => []
                                       end) groups) in
  let own := List.filter (drained c wid (list_to_set (map at_workload_id groups))) (list_workloads (co_registry c)) in
  ret (omap (fun '(m, w) => checkpoint_post c m w) (members ++ map (fun r => (wid, wr_id r)) own)).

(** ** Speculative clones *)

(** [cloned] are the records marked [_speculative_cloned]. *)
Definition straggling (c : C) (idle : string) (cloned : gset string) (wid : string) : bool :=
  match get_workload (co_registry c) wid with
  | Some r =>
      bool_decide (wr_state r = EXECUTING)
      && match List.filter live (list_attempts_for_workload (co_attempts c) wid) with
         | [a] => negb (bool_decide (at_worker_id a = Some idle))
         | _ => false
         end
      && negb (bool_decide (wid ∈ cloned))
  | None => false
  end.

(** The straggler an idle worker takes over; [members] is the iteration order
    of the job's workloads. *)
Definition steal_straggler (c : C) (idle job_id : string) (cloned : gset string) (members : list string)
  : option string * gset string :=
  match co_jobs c, get_worker (co_workers c) idle with
  | Some jreg, Some w =>
      if wi_is_healthy w && bool_decide (wi_status w = WS_ACTIVE)
         && bool_decide (list_running_attempts_for_worker (co_attempts c) idle = [])
         && bool_decide (is_Some (get_job jreg job_id))
      then match List.find (straggling c idle cloned) members with
           | Some wid => (Some wid, {[wid]} ∪ cloned)
           | None => (None, cloned)
           end
      else (None, cloned)
  | _, _ => (None, cloned)
  end.

Definition clone_decision (now : float) (target : string) (w : worker_info) (spec : workload_spec) (wid : string) : placement_decision :=
  {| pd_workload_id := wid; pd_selected_worker_id := target; pd_placement_score := f1;
     pd_score_breakdown := [("compute"%string, f1); ("speculative"%string, f1)];
     pd_missing_assets_on_worker := ws_input_asset_hashes spec ∖ wi_inventory_hashes w;
     pd_execution_tier := "lan"; pd_decision_timestamp_utc := now; pd_candidate_explanations := [];
     pd_m7_ranking_adjustments := []; pd_locality_details := None; pd_deadline_details := None |}.

(** Up to the await: the attempt the clone runs as. *)
Definition clone_begin (now : float) (wid target : string) : P (option (string * workload_spec)) :=
  let* c := get_shared in
  match get_workload (co_registry c) wid, get_worker (co_workers c) target with
  | Some r, Some w =>
      if bool_decide (wr_state r = EXECUTING) then
        let* a := on_attempts (create_attempt now wid None (Some (clone_decision now target w (wr_spec r) wid)) None) in
        let* _ := on_attempts (mark_assigned now (at_attempt_id a) target) in
        let* _ := on_attempts (mark_running now (at_attempt_id a)) in
        ret (Some (at_attempt_id a, wr_spec r))
      else ret None
  | _, _ => ret None
  end.

Definition clone_body (now : float) (wid : string) (spec : workload_spec) (attempt_id : string)
    (result : workload_execution_result) : P unit :=
  if er_success result then
    let* c := get_shared in
    (if bool_decide (option_map wr_state (get_workload (co_registry c) wid) = Some EXECUTING) then
       let* _ := on_registry (set_result now wid result) in
       update wid now COMPLETED None ;;*
       record_outputs now spec result
     else ret tt) ;;*
    supersede_others wid now "Superseded by primary completion" attempt_id ;;*
    (if opt_truthy (ws_job_id spec) then
       let* _ := on_attempts (mark_succeeded now attempt_id result) in
       supersede_others wid now "Superseded by speculative completion" attempt_id
     else ret tt)
  else
    let* _ := on_attempts (mark_failed now attempt_id (er_failure_category result) (er_error_message result) (Some result)) in
    ret tt.

Definition clone_end (exn_text : exn -> string) (now : float) (wid : string) (spec : workload_spec) (attempt_id : string)
    (o : member_outcome) : P unit :=
  let failed text :=
    let* _ := on_attempts (mark_failed now attempt_id (Some EXECUTION_FAILURE) (Some text) None) in ret tt in
  match o with
  | M_RESULT r => fun s => match clone_body now wid spec attempt_id r s with
                           | (s, Ok u) => (s, Ok u)
                           | (s, Err e) => failed (exn_text e) s
                           end
  | M_ERROR (SubmitUnavailable text) | M_ERROR (RecordLost text) | M_ERROR (OtherError text) => failed text
  end.
End interference.

(** ** What they do to the workload *)

Section effects.
Context {S SJ SA SW SX : Type}.
Context `{RecordStore S workload_record} `{RecordStore SA attempt_record} `{RecordStore SX artifact}.
Context `{RecordStore SW worker_info}.
Context (wid : string).
Abbreviation P := (M S SJ SA SW SX).
Abbreviation C := (coordinator S SJ SA SW SX).
Abbreviation known := (fun φ s => has wid φ (co_registry (lo_shared s))).

(** Cancelling a workload that is on file.  If the call returns, it answers
    true, and the workload is as it was when it had reached a terminal state
    already, and otherwise CANCELLED and out of the queue, whatever the other
    tasks did while the request to the worker was out. *)
Definition cancelled_or_terminal (c : C) (answer : bool) (s : local S SJ SA SW SX) : Prop :=
  answer = true /\
  (lo_shared s = c /\ known (fun r => wr_state r ∈ TERMINAL_WORKLOAD_STATES) s \/
   known (fun r => wr_state r = CANCELLED) s /\ wid ∉ ad_queued (co_admission (lo_shared s))).

Lemma hoare_cancel_end E now :
  hoare (Inv E (has wid (fun _ => True))) (cancel_end now wid : P bool)
    (fun b s => b = true /\ known (fun r => wr_state r = CANCELLED) s /\ wid ∉ ad_queued (co_admission (lo_shared s)))
    (fun _ => True).
Proof.
  unfold cancel_end. eapply hoare_bind; [eapply hoare_weaken; [apply hoare_update|done|intros a s Hs; exact Hs|done]|].
  intros []. eapply (hoare_bind _ _ _ (fun _ s => known (fun r => wr_state r = CANCELLED) s /\
                        wid ∉ ad_queued (co_admission (lo_shared s)))).
  - intros s [_ Hs]. unfold on_admission. cbn [fst snd with_shared lo_shared set_admission co_admission].
    split; [exact Hs|]. simpl. rewrite set_discard_elem. tauto.
  - intros []. apply hoare_ret. tauto.
Qed.

Lemma cancel_workload_effect now later world c s' answer :
  has wid (fun _ => True) (co_registry c) ->
  (forall c, has wid (fun _ => True) (co_registry c) -> has wid (fun _ => True) (co_registry (world c))) ->
  cancel_workload now later world wid {| lo_shared := c; lo_exhausted := ∅; lo_selected := None |} = (s', Ok answer) ->
  cancelled_or_terminal c answer s'.
Proof.
  intros Hc Hworld. set (s := {| lo_shared := c; lo_exhausted := ∅; lo_selected := None |}).
  assert (Inv ∅ (has wid (fun _ => True)) s) as Hs by by split.
  destruct Hc as (Hwf & r & Hr & _). unfold cancel_workload, cancel_begin, bind, get_shared. cbn [s lo_shared].
  rewrite Hr. case_bool_decide as Hterm.
  { intros [= <- <-]. split; [done|]. left. split; [done|]. split; [done|]. by exists r. }
  pose proof (stable_update wid ∅ now CANCELLATION_REQUESTED (Some "Cancellation requested by user"%string) s Hs) as Hu.
  fold s. destruct (update _ _ _ _ s) as [s1 [[]|e]]; [|done]. cbn [ret].
  assert (forall t s2, Inv ∅ (has wid (fun _ => True)) s2 -> cancel_end t wid s2 = (s', Ok answer) ->
            cancelled_or_terminal c answer s') as Hend.
  { intros t s2 Hs2 E. pose proof (hoare_cancel_end ∅ t s2 Hs2) as Hh. rewrite E in Hh.
    destruct Hh as (-> & Hk). split; [done|]. by right. }
  match goal with |- context [match ?o with Some _ => _ | None => cancel_end _ _ end] => destruct o end.
  - apply Hend. destruct Hu as [HE Hu]. split; [done|]. by apply Hworld.
  - by apply Hend.
Qed.

(** A clone only changes the state of a workload that is still EXECUTING. *)
Lemma clone_respects_state exn_text E st now spec aid o :
  st <> EXECUTING ->
  stable (Inv E (has wid (fun r => wr_state r = st))) (clone_end exn_text now wid spec aid o : P unit).
Proof.
  intros Hst.
  assert (forall text, stable (Inv E (has wid (fun r => wr_state r = st)))
            (let* _ := on_attempts (mark_failed now aid (Some EXECUTION_FAILURE) (Some text) None) in ret tt : P unit)) as Hf.
  { intros text. stable_body. }
  unfold clone_end. destruct o as [r|[text|text|text]]; try apply Hf.
  assert (stable (Inv E (has wid (fun r => wr_state r = st))) (clone_body now wid spec aid r : P unit)) as Hb.
  { unfold clone_body. apply stable_if; [|stable_body].
    eapply (hoare_bind _ _ _ (fun c s => has wid (fun r => wr_state r = st) (co_registry c) /\
                                Inv E (has wid (fun r => wr_state r = st)) s)).
    { intros s [HE Hs]. by split_and!. }
    intros c. apply hoare_pure. intros (_ & rec & Hrec & Hrst). rewrite Hrec. cbn [option_map].
    rewrite bool_decide_eq_false_2 by congruence.
    apply stable_bind; [apply stable_ret|]. intros [].
    apply stable_bind; [apply stable_supersede|]. intros [].
    apply stable_if; [|apply stable_ret]. apply stable_bind; [apply stable_on_attempts|]. intros a. apply stable_supersede. }
  intros s Hs. specialize (Hb s Hs). destruct (clone_body _ _ _ _ _ s) as [s1 [u|e]]; [done|]. by apply Hf.
Qed.
End effects.

(** ** Concrete runs *)

Definition on_local {A} (m : M MW MJ MA MK MX A) (c : coordinator MW MJ MA MK MX) : coordinator MW MJ MA MK MX :=
  lo_shared (fst (m {| lo_shared := c; lo_exhausted := ∅; lo_selected := None |})).

(** While ["pc1"] runs ["w1"], an idle ["pc2"] runs a clone of it and wins. *)
Definition clone_wins : coordinator MW MJ MA MK MX -> coordinator MW MJ MA MK MX :=
  on_local (let* b := clone_begin f1 "w1" "pc2" in
            match b with
            | Some (aid, spec) => clone_end (fun _ => ""%string) f1 "w1" spec aid (M_RESULT (sample_result true None))
            | None => ret tt
            end).
Definition stopped : workload_execution_result := sample_result false (Some EXECUTION_FAILURE).

(** The clone's success is recorded; then the cancelled primary returns, its
    result is taken for the workload's, and the workload ends FAILED. *)
Example clone_success_lost :
  let won := clone_wins (lo_shared (fst (fst (sample_run 4 [] (sample_cluster []))))) in
  let out := sample_run 4 [replies clone_wins (M_RESULT stopped)] (sample_cluster []) in
  option_map wr_state (get_workload (co_registry won) "w1") = Some COMPLETED /\
  state_after out = Some FAILED /\
  option_map wr_execution_result (get_workload (co_registry (lo_shared (fst (fst out)))) "w1") = Some (Some stopped).
Proof. vm_compute. split_and!; reflexivity. Qed.

(** A worker put into DRAINING while it executes a workload: nothing is asked
    of it.  Only the same worker OFFLINE gets the checkpoint request. *)
Definition with_status (st : worker_status) (c : coordinator MW MJ MA MK MX) : coordinator MW MJ MA MK MX :=
  set_workers {| wk_workers := [("pc1"%string, wi_set_status st (sample_worker "pc1"))];
                 wk_hash_index := ∅; wk_worker_hashes := ∅; wk_health := []; wk_store := None |} c.
Definition drain_requests (st : worker_status) : res (list post) :=
  snd (drain_worker f1 "pc1" {| lo_shared := with_status st (lo_shared (fst (fst (sample_run 4 [] (sample_cluster [])))));
                                lo_exhausted := ∅; lo_selected := None |}).
Example drain_ignores_executing :
  drain_requests WS_DRAINING = Ok [] /\ drain_requests WS_OFFLINE = Ok [{| po_worker := "pc1"; po_path := "w1" |}].
Proof. vm_compute. split; reflexivity. Qed.

(** Cancelling the running workload asks its worker to stop it. *)
Example cancel_running :
  snd (cancel_begin f1 "w1" (fst (fst (sample_run 4 [] (sample_cluster [])))))
  = Ok (inl (Some {| po_worker := "pc1"; po_path := "w1#1" |})).
Proof. vm_compute. reflexivity. Qed.
