(* ===== verification/Recovery.v ===== *)
(** * Restarting the coordinator ([distributed/coordinator.py])

    [_restore_persisted_state] fills empty registries from the database, and
    [_redrive_recovered_workloads] puts every workload whose outcome is unknown
    back into the queue.  The registries share one database; its tables are
    disjoint, so each registry holds its own.  The rebuilding of the telemetry
    history (M7, M12) is left out. *)
From S2P Require Export StateStore Orchestrator OrchestratorProps.

Section recovery.
Context `{Pydantic worker_info} `{Pydantic workload_spec} `{Pydantic placement_decision}
        `{Pydantic workload_execution_result} `{Pydantic execution_group}.

Record database := {
  db_workers : table worker_row;
  db_workloads : table workload_row;
  db_jobs : table job_row;
  db_artifacts : table artifact_row;
  db_attempts : table attempt_row;
}.

Abbreviation C := (coordinator (table workload_row) (table job_row) (table attempt_row) (table worker_row) (table artifact_row)).
Abbreviation P := (M (table workload_row) (table job_row) (table attempt_row) (table worker_row) (table artifact_row)).

(** [CoordinatorService.__init__] with a state store. *)
Definition boot (db : database) : C :=
  {| co_admission := {| ad_registry := empty_registry (Some (db_workloads db)); ad_queued := []; ad_processing := [];
                        ad_tasks := [] |};
     co_attempts := empty_attempts (Some (db_attempts db));
     co_workers := empty_workers (Some (db_workers db));
     co_jobs := Some {| jb_jobs := []; jb_store := Some (db_jobs db) |};
     co_artifacts := Some {| ax_artifacts := []; ax_by_hash := []; ax_store := Some (db_artifacts db) |} |}.

(** A restored worker is OFFLINE until it is heard from again, and gets the
    grace period of a new one. *)
Definition unverified (now : float) (w : worker_info) : worker_info :=
  wi_set_heartbeat now (wi_set_status WS_OFFLINE w).

Fixpoint restore_workers (now : float) (l : list worker_info) : P unit :=
  match l with
  | [] => ret tt
  | w :: l => let* _ := on_workers (register_worker now (unverified now w)) in restore_workers now l
  end.

Definition on_coordinator (f : C -> C) : P unit := fun s => (with_shared (f (lo_shared s)) s, Ok tt).

Definition restore_jobs (l : list job_record) (c : C) : C :=
  set_jobs (option_map (fun jreg => fold_left (fun jreg j => restore_job j jreg) l jreg) (co_jobs c)) c.

Definition restore_workloads (l : list workload_record) (c : C) : C :=
  set_admission (with_registry (fold_left (fun reg r => restore_workload r reg) l (co_registry c)) (co_admission c)) c.
Definition pending_redrive (l : list workload_record) : list string :=
  map wr_id (List.filter (fun r => negb (bool_decide (wr_state r ∈ TERMINAL_WORKLOAD_STATES))) l).

Definition in_flight (a : attempt_record) : bool := bool_decide (at_status a = ASSIGNED \/ at_status a = RUNNING).
Definition group_lost (g : execution_group) : execution_group :=
  {| eg_execution_id := eg_execution_id g; eg_worker_ids := eg_worker_ids g;
     eg_required_worker_count := eg_required_worker_count g; eg_state := GS_LOST;
     eg_unavailable_worker_ids := eg_unavailable_worker_ids g;
     eg_placement_decisions := eg_placement_decisions g |}.

(** The outcome of an attempt in flight at the crash is unknown: LOST. *)
Definition lost_at_restart (now : float) (a : attempt_record) : attempt_record :=
  {| at_attempt_id := at_attempt_id a; at_workload_id := at_workload_id a; at_attempt_number := at_attempt_number a;
     at_status := LOST; at_worker_id := at_worker_id a; at_queued_at := at_queued_at a;
     at_assigned_at := at_assigned_at a; at_started_at := at_started_at a;
     at_finished_at := Some (match at_finished_at a with Some t => if feq t f0 then now else t | None => now end);
     at_failure_category := Some WORKER_UNAVAILABLE;
     at_failure_reason :=
       Some (match at_failure_reason a with
             | Some r => if str_truthy r then r else "coordinator restarted while this attempt was in flight"%string
             | None => "coordinator restarted while this attempt was in flight"%string
             end);
     at_execution_result := at_execution_result a; at_placement_decision := at_placement_decision a;
     at_execution_group := option_map group_lost (at_execution_group a);
     at_checkpoint_hash := at_checkpoint_hash a; at_checkpoint_runtime_type := at_checkpoint_runtime_type a;
     at_checkpoint_format_version := at_checkpoint_format_version a |}.

(** [state_store.save_attempt], outside the registry. *)
Definition write_attempt (a : attempt_record) (reg : attempts (table attempt_row))
  : attempts (table attempt_row) * res unit :=
  ({| ar_attempts := ar_attempts reg; ar_by_workload := ar_by_workload reg;
      ar_store := persist_store (ar_store reg) a |}, persist_result (ar_store reg) a tt).

Fixpoint restore_attempts (now : float) (l : list attempt_record) : P unit :=
  match l with
  | [] => ret tt
  | a :: l =>
      let a' := if in_flight a then lost_at_restart now a else a in
      (if in_flight a then on_attempts (write_attempt a') else ret tt) ;;*
      let* _ := on_attempts (fun reg => (restore_attempt a' reg, Ok tt)) in
      restore_attempts now l
  end.

Definition restore_artifacts (l : list artifact) (c : C) : C :=
  set_artifacts (option_map (fun reg => fold_left (fun reg a => restore_artifact a reg) l reg) (co_artifacts c)) c.

Definition restore_persisted_state (now : float) (db : database) : P (list string) :=
  restore_workers now (load_workers (db_workers db)) ;;*
  on_coordinator (restore_jobs (load_jobs (db_jobs db))) ;;*
  on_coordinator (restore_workloads (load_workloads (db_workloads db))) ;;*
  restore_attempts now (load_attempts (db_attempts db)) ;;*
  on_coordinator (restore_artifacts (load_artifacts (db_artifacts db))) ;;*
  ret (pending_redrive (load_workloads (db_workloads db))).

(** The workload goes back to SUBMITTED and into the queue. *)
Definition redrive_one (now : float) (wid : string) : P unit :=
  let* c := get_shared in
  match get_workload (co_registry c) wid with
  | Some r =>
      if bool_decide (wr_state r ∈ TERMINAL_WORKLOAD_STATES) then ret tt
      else
        place_on wid None ;;*
        explain_placement wid [] ;;*
        update wid now SUBMITTED None ;;*
        on_admission (enqueue_workload wid)
  | None => ret tt
  end.
Fixpoint redrive_recovered_workloads (now : float) (ids : list string) : P unit :=
  match ids with
  | [] => ret tt
  | wid :: ids => redrive_one now wid ;;* redrive_recovered_workloads now ids
  end.

(** What [start] does with the database before and after the loops start. *)
Definition restart (now : float) (db : database) : C * res (list string) :=
  let '(s, r) := (let* pending := restore_persisted_state now db in
                  redrive_recovered_workloads now pending ;;* ret pending)
                 {| lo_shared := boot db; lo_exhausted := ∅; lo_selected := None |} in
  (lo_shared s, r).
End recovery.
