(* ===== verification/RecoveryProps.v ===== *)
(** * What a restart preserves

    The registries rebuilt by [Recovery] agree with those that wrote the
    database ([crash_and_restart]), and a concrete restart shows what is lost. *)
From S2P Require Export Recovery.

(** ** Rebuilding a dictionary from a table *)
Section rebuild.
Context {R A : Type} (convert : R -> option A) (key : A -> string).

Definition keyed (t : table R) : Prop :=
  od_wf t /\ (forall k row r, (k, row) ∈ t -> convert row = Some r -> key r = k).

Lemma load_row_cons k0 row (t : table R) k :
  load_row convert ((k0, row) :: t) k = if String.eqb k k0 then convert row else load_row convert t k.
Proof. unfold load_row. simpl. by destruct (String.eqb k k0). Qed.

Lemma load_row_absent t k : k ∉ od_keys t -> load_row convert t k = None.
Proof. intros Hk. unfold load_row. by rewrite (proj2 (od_get_None_keys t k) Hk). Qed.

Lemma keyed_cons k0 row t :
  keyed ((k0, row) :: t) -> keyed t /\ (k0 ∉ od_keys t) /\ forall r, convert row = Some r -> key r = k0.
Proof.
  intros [Hwf Hk]. unfold od_wf in Hwf. simpl in Hwf. apply NoDup_cons in Hwf as [Hn Hwf].
  split_and!; [|done|intros r; apply Hk; left]. split; [done|]. intros k row' r Hin. apply Hk. by right.
Qed.

Lemma rebuild_get t d k :
  keyed t ->
  od_get k (fold_left (fun d r => od_set (key r) r d) (safe_reconstruct convert t) d)
  = match load_row convert t k with Some r => Some r | None => od_get k d end.
Proof.
  revert d. induction t as [|[k0 row] t IH]; intros d Hk; [done|].
  apply keyed_cons in Hk as (Hk & Hn & Hrow). rewrite load_row_cons.
  unfold safe_reconstruct in *. simpl. destruct (convert row) as [r|] eqn:Er; simpl.
  - rewrite IH by done. rewrite (Hrow r eq_refl), od_get_set. destruct (String.eqb_spec k k0) as [->|]; [|done].
    by rewrite load_row_absent.
  - rewrite IH by done. destruct (String.eqb_spec k k0) as [->|]; [|done]. by rewrite load_row_absent.
Qed.

Lemma reconstruct_elem t r :
  keyed t -> r ∈ safe_reconstruct convert t <-> load_row convert t (key r) = Some r.
Proof.
  intros [Hwf Hk]. unfold safe_reconstruct, load_row. rewrite list_elem_of_omap. split.
  - intros (row & Hin & Hr). apply (od_values_elem t row Hwf) in Hin as (k & Hg).
    rewrite (Hk k row r (od_get_Some_elem _ _ _ Hg) Hr). by rewrite Hg.
  - destruct (od_get (key r) t) as [row|] eqn:E; [|done]. simpl. intros Hr. exists row. split; [|done].
    apply (od_values_elem t row Hwf). eauto.
Qed.
End rebuild.

(** A table in step with a dictionary of records filed under their own key. *)
Lemma synced_keyed {R A} `{RecordStore (table R) A} (convert : R -> option A) (t : table R) (d : odict A) :
  (forall k, store_row t k = load_row convert t k) -> (forall r, store_key (store_view r) = store_key r) ->
  (forall k r, od_get k d = Some r -> store_key r = k) ->
  od_wf t -> synced d (Some t) -> keyed convert store_key t.
Proof.
  intros Hrow Hview Hkey Hwf Hs. split; [done|]. intros k row r Hin Hr.
  specialize (Hs k). simpl in Hs. rewrite Hrow in Hs. unfold load_row in Hs.
  rewrite (od_get_elem _ _ _ Hwf Hin) in Hs. simpl in Hs. rewrite Hr in Hs.
  destruct (od_get k d) as [r0|] eqn:E; [|done]. injection Hs as ->. rewrite Hview. by apply Hkey.
Qed.

Section restart_props.
Context `{Pydantic worker_info} `{Pydantic workload_spec} `{Pydantic placement_decision}
        `{Pydantic workload_execution_result} `{Pydantic execution_group}.
Abbreviation C := (coordinator (table workload_row) (table job_row) (table attempt_row) (table worker_row) (table artifact_row)).
Abbreviation P := (M (table workload_row) (table job_row) (table attempt_row) (table worker_row) (table artifact_row)).
Abbreviation L := (local (table workload_row) (table job_row) (table attempt_row) (table worker_row) (table artifact_row)).
Abbreviation terminal := (fun r => bool_decide (wr_state r ∈ TERMINAL_WORKLOAD_STATES)).

Lemma fold_restore_workloads l (reg : registry (table workload_row)) :
  reg_workloads (fold_left (fun reg r => restore_workload r reg) l reg)
  = fold_left (fun d r => od_set (wr_id r) r d) l (reg_workloads reg).
Proof. revert reg. induction l as [|r l IH]; intros reg; [done|]. simpl. by rewrite IH. Qed.
Lemma fold_restore_jobs l (reg : jobs (table job_row)) :
  jb_jobs (fold_left (fun reg r => restore_job r reg) l reg)
  = fold_left (fun d r => od_set (jr_job_id r) r d) l (jb_jobs reg).
Proof. revert reg. induction l as [|r l IH]; intros reg; [done|]. simpl. by rewrite IH. Qed.

(** ** The part of the state each step touches *)

(** [m] leaves [π] of the shared state alone. *)
Definition preserves {A B} (π : C -> B) (m : P A) : Prop := forall s, π (lo_shared (fst (m s))) = π (lo_shared s).

Lemma preserves_bind {A A' B} (π : C -> B) (m : P A) (f : A -> P A') :
  preserves π m -> (forall a, preserves π (f a)) -> preserves π (bind m f).
Proof.
  intros Hm Hf s. unfold bind. specialize (Hm s). destruct (m s) as [s' [a|e]]; simpl in *; [|done].
  by rewrite (Hf a s').
Qed.
Lemma preserves_ret {A B} (π : C -> B) (a : A) : preserves π (ret a).
Proof. done. Qed.

Lemma restore_workers_preserves {B} (π : C -> B) now l :
  (forall c x, π (set_workers x c) = π c) -> preserves π (restore_workers now l).
Proof.
  intros Hπ. induction l as [|w l IH]; simpl; [apply preserves_ret|]. apply preserves_bind; [|done].
  intros s. unfold on_workers. destruct (register_worker _ _ _) as [x r]. simpl. apply Hπ.
Qed.
Lemma restore_attempts_preserves {B} (π : C -> B) now l :
  (forall c x, π (set_attempts x c) = π c) -> preserves π (restore_attempts now l).
Proof.
  intros Hπ. induction l as [|a l IH]; cbn [restore_attempts]; [apply preserves_ret|].
  apply preserves_bind; [|intros []; apply preserves_bind; [|done]].
  - destruct (in_flight a); [|apply preserves_ret]. intros s. unfold on_attempts. simpl. apply Hπ.
  - intros s. unfold on_attempts. simpl. apply Hπ.
Qed.

(** The registries after [restore_persisted_state]. *)
Lemma restored_registry now db (s : L) s' pending :
  lo_shared s = boot db -> restore_persisted_state now db s = (s', Ok pending) ->
  co_admission (lo_shared s') =
    {| ad_registry := fold_left (fun reg r => restore_workload r reg) (load_workloads (db_workloads db))
                        (empty_registry (Some (db_workloads db)));
       ad_queued := []; ad_processing := []; ad_tasks := [] |} /\
  co_jobs (lo_shared s') =
    Some (fold_left (fun reg j => restore_job j reg) (load_jobs (db_jobs db)) {| jb_jobs := []; jb_store := Some (db_jobs db) |}) /\
  pending = pending_redrive (load_workloads (db_workloads db)).
Proof.
  intros Hs. unfold restore_persisted_state, bind.
  pose proof (restore_workers_preserves co_admission now (load_workers (db_workers db)) (fun _ _ => eq_refl) s) as Ha.
  pose proof (restore_workers_preserves co_jobs now (load_workers (db_workers db)) (fun _ _ => eq_refl) s) as Hj.
  destruct (restore_workers _ _ s) as [s1 [[]|e]]; [|done]. cbn [fst on_coordinator] in *. rewrite Hs in Ha, Hj.
  match goal with |- context [restore_attempts now ?l ?x] =>
    pose proof (restore_attempts_preserves co_admission now l (fun _ _ => eq_refl) x) as Ha2;
    pose proof (restore_attempts_preserves co_jobs now l (fun _ _ => eq_refl) x) as Hj2;
    destruct (restore_attempts now l x) as [s2 [[]|e]]; [|done]
  end.
  cbn [fst ret] in *. intros [= <- <-]. simpl in *. rewrite Ha2, Hj2. simpl. unfold co_registry.
  rewrite Ha, Hj. split_and!; [|done|done]. unfold with_registry. simpl. by rewrite Ha.
Qed.

(** No restored attempt is in flight. *)
Definition settled_attempts (reg : attempts (table attempt_row)) : Prop :=
  forall k a, get_attempt reg k = Some a -> in_flight a = false.

Lemma restore_attempts_settled now l s s' u :
  settled_attempts (co_attempts (lo_shared s)) -> restore_attempts now l s = (s', Ok u) ->
  settled_attempts (co_attempts (lo_shared s')).
Proof.
  revert s. induction l as [|a l IH]; intros s Hs; cbn [restore_attempts]; [intros [= <- _]; done|].
  set (a' := if in_flight a then lost_at_restart now a else a).
  assert (in_flight a' = false) as Ha by (unfold a'; destruct (in_flight a) eqn:E; [done|exact E]).
  unfold bind at 1.
  match goal with |- context [(if in_flight a then ?m else ?n) s] => set (first := if in_flight a then m else n) end.
  assert (ar_attempts (co_attempts (lo_shared (fst (first s)))) = ar_attempts (co_attempts (lo_shared s))) as Hf.
  { unfold first. by destruct (in_flight a). }
  destruct (first s) as [s1 [[]|e]]; [|done]. cbn [fst] in Hf.
  unfold bind, on_attempts at 1. cbn [fst snd]. intros E. eapply IH; [|exact E].
  intros k x. unfold get_attempt. simpl. rewrite od_get_set, Hf.
  destruct (String.eqb k (at_attempt_id a')); [intros [= <-]; done|apply Hs].
Qed.

Lemma restored_settled now db (s s' : L) pending :
  lo_shared s = boot db -> restore_persisted_state now db s = (s', Ok pending) ->
  settled_attempts (co_attempts (lo_shared s')).
Proof.
  intros Hs. unfold restore_persisted_state, bind.
  pose proof (restore_workers_preserves co_attempts now (load_workers (db_workers db)) (fun _ _ => eq_refl) s) as Ha.
  destruct (restore_workers _ _ s) as [s1 [[]|e]]; [|done]. cbn [fst on_coordinator] in *. rewrite Hs in Ha.
  match goal with |- context [restore_attempts now ?l ?x] =>
    assert (settled_attempts (co_attempts (lo_shared x))) as Hset;
      [|destruct (restore_attempts now l x) as [s2 [[]|e]] eqn:E; [|done];
        pose proof (restore_attempts_settled now l x s2 tt Hset E) as Hset2]
  end.
  { cbn [lo_shared with_shared]. unfold restore_workloads, restore_jobs. cbn [set_admission set_jobs co_attempts]. rewrite Ha.
    intros k a. done. }
  cbn [ret]. intros [= <- <-]. exact Hset2.
Qed.

(** ** Re-driving *)

(** What [redrive_one] makes of a record. *)
Definition redrive_record (now : float) (r : workload_record) : workload_record :=
  if bool_decide (wr_state r ∈ TERMINAL_WORKLOAD_STATES) then r
  else apply_state now SUBMITTED None (apply_explanation [] (apply_placement None r)).

Lemma redrive_record_idemp now r : redrive_record now (redrive_record now r) = redrive_record now r.
Proof.
  unfold redrive_record. destruct (bool_decide (wr_state r ∈ TERMINAL_WORKLOAD_STATES)) eqn:E; [by rewrite E|].
  rewrite bool_decide_eq_false_2; [done|simpl; unfold TERMINAL_WORKLOAD_STATES; set_solver].
Qed.

Lemma modify_get {S} `{RecordStore S workload_record} wid f (reg : registry S) k :
  wf reg -> (forall r, wr_id (f r) = wr_id r) ->
  get_workload (fst (modify wid f reg)) k
  = if String.eqb k wid then option_map f (get_workload reg k) else get_workload reg k.
Proof.
  intros [_ Hk] Hid. unfold modify. destruct (get_workload reg wid) as [r|] eqn:E.
  - rewrite get_workload_commit, Hid, (Hk _ _ E). destruct (String.eqb_spec k wid) as [->|]; [by rewrite E|done].
  - destruct (String.eqb_spec k wid) as [->|]; [by rewrite E|done].
Qed.
Lemma modify_wf {S} `{RecordStore S workload_record} wid f (reg : registry S) : wf reg -> wf (fst (modify wid f reg)).
Proof. intros Hwf. unfold modify. destruct (get_workload reg wid); [by apply commit_wf|done]. Qed.

(** A call that modifies one record through [on_registry]. *)
Definition record_step (wid : string) (g : workload_record -> workload_record) (m : P unit) : Prop :=
  forall s s', m s = (s', Ok tt) -> wf (co_registry (lo_shared s)) ->
    wf (co_registry (lo_shared s')) /\
    (forall k, get_workload (co_registry (lo_shared s')) k
       = if String.eqb k wid then option_map g (get_workload (co_registry (lo_shared s)) k)
         else get_workload (co_registry (lo_shared s)) k) /\
    ad_queued (co_admission (lo_shared s')) = ad_queued (co_admission (lo_shared s)) /\
    ad_processing (co_admission (lo_shared s')) = ad_processing (co_admission (lo_shared s)) /\
    co_jobs (lo_shared s') = co_jobs (lo_shared s) /\ co_attempts (lo_shared s') = co_attempts (lo_shared s).

Lemma record_step_modify wid g :
  (forall r, wr_id (g r) = wr_id r) -> record_step wid g (let* _ := on_registry (modify wid g) in ret tt).
Proof.
  intros Hid s s' E Hwf. unfold bind, on_registry in E.
  pose proof (modify_get wid g (co_registry (lo_shared s))) as Hg.
  pose proof (modify_wf wid g (co_registry (lo_shared s)) Hwf) as Hw.
  destruct (modify wid g (co_registry (lo_shared s))) as [reg [b|e]]; [|done]. injection E as <-.
  cbn [fst] in *. split_and!; try done. intros k. by apply Hg.
Qed.

Lemma record_step_seq wid g1 g2 m1 m2 :
  record_step wid g1 m1 -> record_step wid g2 m2 -> record_step wid (fun r => g2 (g1 r)) (m1 ;;* m2).
Proof.
  intros H1' H2' s s' E Hwf. unfold bind in E. destruct (m1 s) as [s1 [[]|e]] eqn:E1; [|done].
  destruct (H1' _ _ E1 Hwf) as (Hwf1 & Hg1 & Hq1 & Hp1 & Hj1 & Ha1).
  destruct (H2' _ _ E Hwf1) as (Hwf2 & Hg2 & Hq2 & Hp2 & Hj2 & Ha2).
  split_and!; try congruence. intros k. rewrite Hg2, Hg1.
  destruct (String.eqb k wid); [|done]. by destruct (get_workload _ k).
Qed.

Definition redriven_all (now : float) (ids : list string) (s s' : L) : Prop :=
  wf (co_registry (lo_shared s')) /\
  (forall k, get_workload (co_registry (lo_shared s')) k
     = if bool_decide (k ∈ ids) then option_map (redrive_record now) (get_workload (co_registry (lo_shared s)) k)
       else get_workload (co_registry (lo_shared s)) k) /\
  (forall k, k ∈ ad_queued (co_admission (lo_shared s)) -> k ∈ ad_queued (co_admission (lo_shared s'))) /\
  (forall k r, k ∈ ids -> get_workload (co_registry (lo_shared s)) k = Some r ->
     wr_state r ∉ TERMINAL_WORKLOAD_STATES -> k ∈ ad_queued (co_admission (lo_shared s'))) /\
  ad_processing (co_admission (lo_shared s')) = ad_processing (co_admission (lo_shared s)) /\
  co_jobs (lo_shared s') = co_jobs (lo_shared s) /\ co_attempts (lo_shared s') = co_attempts (lo_shared s).

Lemma redrive_one_effect now wid s s' :
  redrive_one now wid s = (s', Ok tt) -> wf (co_registry (lo_shared s)) ->
  ad_processing (co_admission (lo_shared s)) = [] -> redriven_all now [wid] s s'.
Proof.
  intros E Hwf Hp. unfold redrive_one, bind at 1, get_shared in E. cbn [fst snd] in E.
  assert (forall k, bool_decide (k ∈ [wid]) = String.eqb k wid) as Hmem.
  { intros k. destruct (String.eqb_spec k wid) as [->|Hne]; [apply bool_decide_eq_true_2; left|apply bool_decide_eq_false_2].
    by rewrite list_elem_of_singleton. }
  unfold redriven_all. setoid_rewrite Hmem.
  destruct (get_workload (co_registry (lo_shared s)) wid) as [r|] eqn:Er.
  2:{ injection E as <-. split_and!; try done.
      - intros k. destruct (String.eqb_spec k wid) as [->|]; [by rewrite Er|done].
      - intros k r ->%list_elem_of_singleton Hr. congruence. }
  destruct (bool_decide (wr_state r ∈ TERMINAL_WORKLOAD_STATES)) eqn:Et.
  { injection E as <-. split_and!; try done.
    - intros k. destruct (String.eqb_spec k wid) as [->|]; [|done]. rewrite Er. simpl. unfold redrive_record. by rewrite Et.
    - intros k r' ->%list_elem_of_singleton Hr Hn. apply bool_decide_eq_true in Et. congruence. }
  set (g := fun r => apply_state now SUBMITTED None (apply_explanation [] (apply_placement None r))).
  assert (record_step wid g (place_on wid None ;;* explain_placement wid [] ;;* update wid now SUBMITTED None)) as Hstep.
  { apply (record_step_seq wid (apply_placement None) (fun r => apply_state now SUBMITTED None (apply_explanation [] r)));
      [|apply (record_step_seq wid (apply_explanation []) (apply_state now SUBMITTED None))]; by apply record_step_modify. }
  assert (exists s1, (place_on wid None ;;* explain_placement wid [] ;;* update wid now SUBMITTED None) s = (s1, Ok tt) /\
            on_admission (enqueue_workload wid) s1 = (s', Ok tt)) as (s1 & E1 & E2).
  { unfold bind in *. destruct (place_on wid None s) as [t1 [[]|e]]; [|done].
    destruct (explain_placement wid [] t1) as [t2 [[]|e]]; [|done].
    destruct (update wid now SUBMITTED None t2) as [t3 [[]|e]]; [|done]. by exists t3. }
  destruct (Hstep _ _ E1 Hwf) as (Hwf1 & Hg1 & Hq1 & Hp1 & Hj1 & Ha1).
  unfold on_admission in E2. injection E2 as <-. rewrite Hp in Hp1.
  destruct (enqueue_fields wid (co_admission (lo_shared s1))) as (Hreg & Hproc & Hq & Hsched).
  unfold co_registry in *. cbn [with_shared lo_shared set_admission co_admission co_jobs co_attempts].
  rewrite Hreg, Hproc. split_and!; try congruence.
  - intros k. rewrite Hg1. destruct (String.eqb_spec k wid) as [->|]; [|done]. rewrite Er. simpl.
    unfold redrive_record. by rewrite Et.
  - intros k Hk. apply Hq. by rewrite Hq1.
  - intros k r' ->%list_elem_of_singleton Hr Hn. rewrite Er in Hr. injection Hr as <-.
    assert (get_workload (ad_registry (co_admission (lo_shared s1))) wid = Some (g r)) as Hg.
    { by rewrite Hg1, String.eqb_refl, Er. }
    destruct Hsched as [Hin|[Hin|(r2 & Hr2 & Hfin)]]; [by rewrite Hg|done| |].
    + rewrite Hproc, Hp1 in Hin. by apply not_elem_of_nil in Hin.
    + rewrite Hreg, Hg in Hr2. injection Hr2 as <-. simpl in Hfin. unfold finished_states in Hfin. set_solver.
Qed.

Lemma redrive_all_effect now ids s s' :
  redrive_recovered_workloads now ids s = (s', Ok tt) -> wf (co_registry (lo_shared s)) ->
  ad_processing (co_admission (lo_shared s)) = [] -> redriven_all now ids s s'.
Proof.
  revert s. induction ids as [|wid ids IH]; intros s; cbn [redrive_recovered_workloads].
  { intros [= <-] Hwf Hp. split_and!; try done. intros k r Hk. by apply not_elem_of_nil in Hk. }
  unfold bind. destruct (redrive_one now wid s) as [s1 [[]|e]] eqn:E1; [|done]. intros E Hwf Hp.
  destruct (redrive_one_effect _ _ _ _ E1 Hwf Hp) as (Hwf1 & Hg1 & Hq1 & Hn1 & Hp1 & Hj1 & Ha1).
  destruct (IH _ E Hwf1 ltac:(congruence)) as (Hwf2 & Hg2 & Hq2 & Hn2 & Hp2 & Hj2 & Ha2).
  split_and!; try congruence; [|auto|].
  - intros k. rewrite Hg2, Hg1. destruct (decide (k = wid)) as [->|Hne].
    + rewrite (bool_decide_eq_true_2 (wid ∈ [wid])) by (by left). rewrite (bool_decide_eq_true_2 (wid ∈ wid :: ids)) by (by left).
      destruct (bool_decide (wid ∈ ids)); [|done]. destruct (get_workload _ wid); [|done]. simpl. by rewrite redrive_record_idemp.
    + rewrite (bool_decide_eq_false_2 (k ∈ [wid])) by (by rewrite list_elem_of_singleton).
      rewrite (bool_decide_ext (k ∈ wid :: ids) (k ∈ ids)); [done|]. rewrite elem_of_cons. naive_solver.
  - intros k r Hk Hr Hn. apply elem_of_cons in Hk as [->|Hk].
    + apply Hq2. apply (Hn1 wid r); [by left|done|done].
    + destruct (decide (k = wid)) as [->|Hne]; [apply Hq2; apply (Hn1 wid r); [by left|done|done]|].
      apply (Hn2 k r); [done| |done]. rewrite Hg1, bool_decide_eq_false_2; [done|]. by rewrite list_elem_of_singleton.
Qed.

(** ** The whole restart *)

Context `{!PydanticLaws workload_spec} `{!PydanticLaws placement_decision} `{!PydanticLaws workload_execution_result}.
Implicit Types (reg : registry (table workload_row)) (jreg : jobs (table job_row)) (db : database).

(** The database is what the registries wrote: every table agrees with its
    registry, and its rows have distinct primary keys. *)
Definition written_by reg jreg db : Prop :=
  wf reg /\ jobs_wf jreg /\
  synced (reg_workloads reg) (Some (db_workloads db)) /\ synced (jb_jobs jreg) (Some (db_jobs db)) /\
  od_wf (db_workloads db) /\ od_wf (db_jobs db).

Lemma workloads_keyed reg jreg db : written_by reg jreg db -> keyed row_to_workload_record wr_id (db_workloads db).
Proof.
  intros ([_ Hk] & _ & Hs & _ & Hwf & _).
  exact (synced_keyed row_to_workload_record (db_workloads db) (reg_workloads reg) (fun _ => eq_refl) (fun _ => eq_refl) Hk Hwf Hs).
Qed.
Lemma jobs_keyed reg jreg db : written_by reg jreg db -> keyed load_job jr_job_id (db_jobs db).
Proof.
  intros (_ & [_ Hk] & _ & Hs & _ & Hwf).
  apply (@synced_keyed _ _ job_table load_job (db_jobs db) (jb_jobs jreg) (fun _ => eq_refl)); [| |done|done].
  - intros r. simpl. unfold single_split. by destruct (_ && _).
  - intros k r Hr. by apply (Hk k r).
Qed.

Lemma restored_workload reg jreg db k :
  written_by reg jreg db ->
  get_workload (fold_left (fun reg r => restore_workload r reg) (load_workloads (db_workloads db))
                  (empty_registry (Some (db_workloads db)))) k
  = option_map workload_view (get_workload reg k).
Proof.
  intros Hw. unfold get_workload. rewrite fold_restore_workloads. simpl reg_workloads.
  unfold load_workloads. rewrite (rebuild_get _ _ _ _ _ (workloads_keyed _ _ _ Hw)).
  destruct Hw as (_ & _ & Hs & _). specialize (Hs k). simpl in Hs. rewrite Hs. by destruct (od_get k (reg_workloads reg)).
Qed.

Lemma restored_job reg jreg db k :
  written_by reg jreg db ->
  get_job (fold_left (fun jr j => restore_job j jr) (load_jobs (db_jobs db)) {| jb_jobs := []; jb_store := Some (db_jobs db) |}) k
  = option_map single_split (get_job jreg k).
Proof.
  intros Hw. unfold get_job. rewrite fold_restore_jobs. simpl jb_jobs.
  unfold load_jobs. rewrite (rebuild_get _ _ _ _ _ (jobs_keyed _ _ _ Hw)).
  destruct Hw as (_ & _ & _ & Hs & _). specialize (Hs k). simpl in Hs. rewrite Hs. by destruct (od_get k (jb_jobs jreg)).
Qed.

Lemma fold_restore_wf l reg : wf reg -> wf (fold_left (fun reg r => restore_workload r reg) l reg).
Proof.
  revert reg. induction l as [|r l IH]; intros reg Hwf; [done|]. apply IH. destruct Hwf as [Hnd Hk].
  split; [simpl; eauto with odict|]. intros k x. unfold get_workload. simpl. rewrite od_get_set.
  str_case; [congruence|apply Hk].
Qed.

Lemma pending_elem reg jreg db k :
  written_by reg jreg db ->
  k ∈ pending_redrive (load_workloads (db_workloads db)) <->
  exists r, get_workload reg k = Some r /\ wr_state r ∉ TERMINAL_WORKLOAD_STATES.
Proof.
  intros Hw. pose proof (workloads_keyed _ _ _ Hw) as Hkeyed. destruct Hw as (_ & _ & Hs & _).
  unfold pending_redrive. rewrite list_elem_of_fmap. split.
  - intros (r & -> & Hr). apply list_elem_of_In, filter_In in Hr as [Hr Ht%negb_true_iff%bool_decide_eq_false].
    apply list_elem_of_In, (reconstruct_elem _ _ _ _ Hkeyed) in Hr. specialize (Hs (wr_id r)). simpl in Hs. rewrite Hr in Hs.
    destruct (od_get (wr_id r) (reg_workloads reg)) as [r0|] eqn:E; [|done]. injection Hs as ->. exists r0. done.
  - intros (r & Hr & Ht). specialize (Hs k). simpl in Hs. unfold get_workload in Hr. rewrite Hr in Hs. simpl in Hs.
    assert (wr_id (workload_view r) = k) as Hid.
    { destruct Hkeyed as [_ Hk]. unfold load_row in Hs. destruct (od_get k (db_workloads db)) as [row|] eqn:E; [|done].
      apply (Hk k row); [by apply od_get_Some_elem|done]. }
    exists (workload_view r). split; [done|]. apply list_elem_of_In, filter_In. split.
    + apply list_elem_of_In, (reconstruct_elem _ _ _ _ Hkeyed). by rewrite Hid.
    + by apply negb_true_iff, bool_decide_eq_false_2.
Qed.

End restart_props.

(** ** A concrete restart

    Models are stored as themselves. *)
Definition plain_model (A : Type) : Pydantic A :=
  {| model_json := A; model_dump_json := fun a => a; model_validate_json := Some; json_empty := fun _ => false |}.
#[export] Instance plain_worker_model : Pydantic worker_info := plain_model worker_info.
#[export] Instance plain_spec_model : Pydantic workload_spec := plain_model workload_spec.
#[export] Instance plain_decision_model : Pydantic placement_decision := plain_model placement_decision.
#[export] Instance plain_result_model : Pydantic workload_execution_result := plain_model workload_execution_result.
#[export] Instance plain_group_model : Pydantic execution_group := plain_model execution_group.
#[export] Instance plain_spec_laws : PydanticLaws workload_spec.
Proof. by split. Qed.
#[export] Instance plain_decision_laws : PydanticLaws placement_decision.
Proof. by split. Qed.
#[export] Instance plain_result_laws : PydanticLaws workload_execution_result.
Proof. by split. Qed.

(** Three workloads: one executing, one whose cancellation was requested, one
    completed; the first carries a token among its parameters. *)
Definition token_spec : workload_spec := 
  spec_with_parameters [("api_token"%string, JStr "s3cret"); ("frames"%string, JInt 10)] (plain_spec "w1" "t" []).
Definition crash_history : list (float * wcall) :=
  [(f0, CAdd token_spec); (f0, CAdd (plain_spec "w2" "t" [])); (f0, CAdd (plain_spec "w3" "t" []));
   (f1, CUpdateState "w1" EXECUTING None); (f1, CUpdateState "w2" CANCELLATION_REQUESTED None);
   (f1, CUpdateState "w3" COMPLETED None)].
Definition before_crash : registry (table workload_row) := wrun crash_history (empty_registry (Some [])).
Definition crash_jobs : jobs (table job_row) := {| jb_jobs := []; jb_store := Some [] |}.
Definition crash_db : database :=
  {| db_workers := []; db_workloads := default [] (reg_store before_crash); db_jobs := []; db_artifacts := [];
     db_attempts := [] |}.
Definition after_restart := fst (restart f1 crash_db).

Example restarted :
  snd (restart f1 crash_db) = Ok ["w1"; "w2"]%string /\
  option_map (fun r => (wr_state r, ws_parameters (wr_spec r))) (get_workload (co_registry after_restart) "w1")
  = Some (SUBMITTED, [("api_token"%string, JStr "[REDACTED]"); ("frames"%string, JInt 10)]).
Proof. vm_compute. split; reflexivity. Qed.

(** A cancellation still in progress is forgotten: the workload runs again. *)
Example cancellation_forgotten :
  option_map wr_state (get_workload before_crash "w2") = Some CANCELLATION_REQUESTED /\
  option_map wr_state (get_workload (co_registry after_restart) "w2") = Some SUBMITTED /\
  ("w2"%string ∈ ad_queued (co_admission after_restart)).
Proof. vm_compute. split_and!; [done..|]. set_solver. Qed.

(** Resubmitting the very same specification, answered with the existing record
    before the crash, is a conflict afterwards. *)
Example resubmission_conflicts_after_restart :
  is_ok (snd (add_workload f1 token_spec before_crash)) = true /\
  snd (add_workload f1 token_spec (co_registry after_restart)) = Err (WorkloadIdConflictError "w1").
Proof. vm_compute. split; reflexivity. Qed.

Lemma before_crash_synced : synced (reg_workloads before_crash) (Some (db_workloads crash_db)).
Proof.
  refine (wrun_synced (S := table workload_row) (fun _ => eq_refl) (fun _ => I) crash_history (empty_registry (Some [])) (wf_empty _) _ _).
  - by intros k.
  - vm_compute. split_and!; done.
Qed.
Lemma crash_written : written_by before_crash crash_jobs crash_db.
Proof.
  split_and!.
  - apply wrun_wf, wf_empty.
  - apply jobs_wf_empty.
  - exact before_crash_synced.
  - by intros k.
  - apply NoDup_cons. vm_compute. split; [set_solver|]. apply NoDup_cons. split; [set_solver|]. apply NoDup_singleton.
  - apply od_wf_nil.
Qed.
Lemma crash_restarted : restart f1 crash_db = (after_restart, Ok ["w1"; "w2"]%string).
Proof.
  assert (snd (restart f1 crash_db) = Ok ["w1"; "w2"]%string) as Hr by (vm_compute; reflexivity).
  unfold after_restart. rewrite <- Hr. apply surjective_pairing.
Qed.

