(* ===== verification/History.v ===== *)
(** * Observations of past attempts ([m12/history.py], [m12/models.py])

    [HistoricalObservationProjector.project] turns the attempts on record into
    observations, each with its quality, its validation errors and its outcome.
    The constant version and source fields are left out. *)
From Stdlib Require Import Floats.SpecFloat.
From S2P Require Export WorkloadRegistry AttemptRegistry PySort.

(** ** [models.py] *)

Inductive data_quality := DQ_VALID | DQ_INVALID | DQ_CENSORED | DQ_INSUFFICIENT_HISTORY | DQ_STALE | DQ_UNKNOWN.
#[export] Instance data_quality_eq_dec : EqDecision data_quality.
Proof. solve_decision. Defined.

Inductive outcome_semantics := OUT_SUCCESS | OUT_FAILURE | OUT_LOST | OUT_CHECKPOINTED | OUT_INCOMPLETE.
#[export] Instance outcome_semantics_eq_dec : EqDecision outcome_semantics.
Proof. solve_decision. Defined.

Record requested_resources := {
  rr_cpu_cores : Z; rr_ram_bytes : Z; rr_requires_gpu : bool; rr_vram_bytes : Z;
  rr_gpu_vendor : option string; rr_gpu_model : option string;
}.
#[export] Instance requested_resources_eq_dec : EqDecision requested_resources.
Proof. solve_decision. Defined.

(** The dictionary [policy_context]. *)
Record policy_context := {
  pc_priority : Z; pc_deadline_at_utc : option float; pc_affinity_group_id : option string; pc_affinity_mode : affinity_mode;
  pc_affinity_hard : bool;
}.
#[export] Instance policy_context_eq_dec : EqDecision policy_context.
Proof. solve_decision. Defined.

(** The dictionary [placement_context]; [None] is the empty one.  The candidate
    is the explanation of the selected worker. *)
Record placement_context := {
  xc_decision_timestamp_utc : float; xc_selected_worker_id : string; xc_placement_score : float; xc_score_breakdown : odict float;
  xc_m7_ranking_adjustments : odict float; xc_selected_candidate_explanation : option candidate;
  xc_locality_details : option locality; xc_deadline_details : option (string * float);
}.
#[export] Instance locality_eq_dec : EqDecision locality.
Proof. solve_decision. Defined.
#[export] Instance candidate_eq_dec : EqDecision candidate.
Proof. solve_decision. Defined.
#[export] Instance placement_context_eq_dec : EqDecision placement_context.
Proof. solve_decision. Defined.

Record observation := {
  ob_data_quality : data_quality;
  ob_validation_errors : list string;
  ob_observed_at_utc : option float;
  ob_workload_id : option string;
  ob_attempt_id : option string;
  ob_attempt_number : option Z;
  ob_task_type : option string;
  ob_worker_id : option string;
  ob_requested_resources : option requested_resources;
  ob_submitted_at_utc : option float;
  ob_queued_at_utc : option float;
  ob_assigned_at_utc : option float;
  ob_started_at_utc : option float;
  ob_finished_at_utc : option float;
  ob_duration_seconds : option float;
  ob_outcome : outcome_semantics;
  ob_failure_category : option failure_category;
  ob_failure_reason : option string;
  ob_retry_count : Z;
  ob_was_checkpointed : bool;
  ob_policy_context : option policy_context;
  ob_placement_context : option placement_context;
}.
#[export] Instance observation_eq_dec : EqDecision observation.
Proof. solve_decision. Defined.

Record projection := {
  pj_observations : list observation;
  pj_valid_count : Z;
  pj_invalid_count : Z;
  pj_censored_count : Z;
  pj_duplicate_count : Z;
}.

(** ** Time stamps *)

Definition valid_time (now v : float) : bool := f_isfinite v && flt f0 v && fle v now.

Definition _valid_timestamp (now : float) (value : option float) : bool :=
  match value with Some v => valid_time now v | None => false end.

Definition _timestamp_or_none (now : float) (value : option float) : option float :=
  if _valid_timestamp now value then value else None.

Definition minus_inf : float := S754_infinity true.

(** ** One attempt *)

(** [errors.append(msg)] when [b]. *)
Definition error_if (b : bool) (msg : string) : list string := if b then [msg] else [].

(** [Counter(a.attempt_id for a in attempts)]: the ids on record more than once. *)
Definition id_count (attempts : list attempt_record) (aid : string) : nat :=
  length (filter (fun a => at_attempt_id a = aid) attempts).
Definition duplicate_ids (attempts : list attempt_record) (aid : string) : bool := bool_decide (1 < id_count attempts aid)%nat.

Section project.
Context (now : float) (workload_by_id : odict workload_record) (attempts : list attempt_record).

Definition identity_errors (a : attempt_record) : list string :=
  error_if (negb (str_truthy (at_workload_id a))) "MISSING_WORKLOAD_ID"
  ++ error_if (negb (str_truthy (at_attempt_id a))) "MISSING_ATTEMPT_ID"
  ++ (if at_attempt_number a <? 1 then ["INVALID_ATTEMPT_NUMBER"%string]
      else error_if (negb (String.eqb (at_attempt_id a) (make_attempt_id (at_workload_id a) (at_attempt_number a)))) "ATTEMPT_IDENTITY_MISMATCH")
  ++ error_if (duplicate_ids attempts (at_attempt_id a)) "DUPLICATE_ATTEMPT_IDENTITY".

Definition workload_errors (record : option workload_record) (a : attempt_record) : list string :=
  match record with
  | None => ["MISSING_WORKLOAD_SPEC"%string]
  | Some r => error_if (negb (str_truthy (strip (ws_task_type (wr_spec r))))) "MISSING_TASK_TYPE"
  end
  ++ error_if (negb (valid_time now (at_queued_at a))) "INVALID_QUEUED_TIMESTAMP"
  ++ match record with Some r => error_if (negb (valid_time now (wr_submitted_at r))) "INVALID_SUBMITTED_TIMESTAMP" | None => [] end.

(** One turn of the loop over the timeline: the errors and [previous]. *)
Definition timeline_step (label : string) (value : option float) (s : list string * float) : list string * float :=
  let '(errors, previous) := s in
  match value with
  | None => (errors, previous)
  | Some v =>
      if negb (valid_time now v) then (errors ++ ["INVALID_" +:+ label +:+ "_TIMESTAMP"], previous)
      else if flt v previous then (errors ++ ["TIMESTAMP_ORDER_INVALID"%string], previous)
      else (errors, v)
  end.

Definition timeline_errors (a : attempt_record) : list string :=
  let previous := if valid_time now (at_queued_at a) then at_queued_at a else minus_inf in
  fst (timeline_step "FINISHED" (at_finished_at a)
        (timeline_step "STARTED" (at_started_at a)
          (timeline_step "ASSIGNED" (at_assigned_at a) ([], previous)))).

Definition terminal_errors (a : attempt_record) : list string :=
  if bool_decide (at_status a ∈ [SUCCEEDED; AT_FAILED; LOST]) then
    error_if (bool_decide (at_finished_at a = None)) "TERMINAL_ATTEMPT_MISSING_FINISHED_TIMESTAMP"
    ++ error_if (bool_decide (at_worker_id a = None)) "TERMINAL_ATTEMPT_MISSING_WORKER_ID"
  else [].

Definition bad_duration (r : workload_execution_result) : bool :=
  negb (f_isfinite (er_execution_duration_seconds r)) || flt (er_execution_duration_seconds r) f0.

Definition result_errors (a : attempt_record) : list string :=
  match at_execution_result a with
  | None => []
  | Some r =>
      error_if (bad_duration r) "INVALID_EXECUTION_DURATION"
      ++ error_if (negb (String.eqb (er_workload_id r) (at_workload_id a))) "RESULT_WORKLOAD_ID_MISMATCH"
      ++ match at_worker_id a with
         | Some w => error_if (str_truthy w && negb (String.eqb (er_worker_id r) w)) "RESULT_WORKER_ID_MISMATCH"
         | None => []
         end
  end.

Definition duration_of (a : attempt_record) : option float :=
  match at_execution_result a with
  | Some r => if bad_duration r then None else Some (er_execution_duration_seconds r)
  | None => None
  end.

(** The outcome, the quality and the errors the status decides. *)
Definition outcome_of (a : attempt_record) : outcome_semantics * data_quality * list string :=
  match at_status a with
  | LOST => (OUT_LOST, DQ_CENSORED, error_if (bool_decide (is_Some (at_execution_result a))) "LOST_ATTEMPT_HAS_OBSERVED_RESULT")
  | QUEUED | ASSIGNED | RUNNING => (OUT_INCOMPLETE, DQ_CENSORED, [])
  | SUCCEEDED =>
      match at_execution_result a with
      | None => (OUT_INCOMPLETE, DQ_CENSORED, ["SUCCEEDED_ATTEMPT_MISSING_RESULT"%string])
      | Some r =>
          if negb (er_success r) then (OUT_INCOMPLETE, DQ_CENSORED, ["SUCCEEDED_ATTEMPT_HAS_FAILED_RESULT"%string])
          else if er_was_checkpointed r || opt_truthy (at_checkpoint_hash a) then (OUT_CHECKPOINTED, DQ_CENSORED, [])
          else (OUT_SUCCESS, DQ_VALID,
                error_if (match duration_of a with Some d => fle d f0 | None => true end) "SUCCESS_DURATION_NOT_POSITIVE")
      end
  | AT_FAILED =>
      (OUT_FAILURE, DQ_VALID,
       error_if (match at_execution_result a with Some r => er_success r | None => false end) "FAILED_ATTEMPT_HAS_SUCCESS_RESULT"
       ++ error_if (bool_decide (at_failure_category a = None) && negb (opt_truthy (at_failure_reason a))
                    && bool_decide (at_execution_result a = None)) "FAILURE_WITHOUT_EXPLICIT_EVIDENCE")
  end.

Definition errors_of (record : option workload_record) (a : attempt_record) : list string :=
  identity_errors a ++ workload_errors record a ++ timeline_errors a ++ terminal_errors a ++ result_errors a ++ snd (outcome_of a).

Definition resources_of (s : workload_spec) : requested_resources :=
  {| rr_cpu_cores := ws_min_cpu_cores s; rr_ram_bytes := ws_min_ram_bytes s; rr_requires_gpu := ws_requires_gpu s;
     rr_vram_bytes := ws_min_vram_bytes s; rr_gpu_vendor := ws_required_gpu_vendor s; rr_gpu_model := ws_required_gpu_model s |}.

Definition policy_context_of (s : workload_spec) : policy_context :=
  {| pc_priority := ws_priority s; pc_deadline_at_utc := ws_deadline_at_utc s; pc_affinity_group_id := ws_affinity_group_id s;
     pc_affinity_mode := ws_affinity_mode s; pc_affinity_hard := ws_affinity_hard s |}.

Definition placement_context_of (p : placement_decision) : placement_context :=
  {| xc_decision_timestamp_utc := pd_decision_timestamp_utc p; xc_selected_worker_id := pd_selected_worker_id p;
     xc_placement_score := pd_placement_score p; xc_score_breakdown := pd_score_breakdown p;
     xc_m7_ranking_adjustments := pd_m7_ranking_adjustments p;
     xc_selected_candidate_explanation :=
       List.find (fun c => String.eqb (cd_worker_id c) (pd_selected_worker_id p)) (pd_candidate_explanations p);
     xc_locality_details := pd_locality_details p; xc_deadline_details := pd_deadline_details p |}.

Definition or_none (s : string) : option string := if str_truthy s then Some s else None.
Definition first_some {A} (a b : option A) : option A := match a with Some _ => a | None => b end.

Definition observe (a : attempt_record) : observation :=
  let record := od_get (at_workload_id a) workload_by_id in
  let spec := wr_spec <$> record in
  let '(outcome, quality, _) := outcome_of a in
  let errors := errors_of record a in
  let result := at_execution_result a in
  {| ob_data_quality := if bool_decide (errors = []) then quality else DQ_INVALID;
     ob_validation_errors := isort str_lt (elements (list_to_set errors : gset string));
     ob_observed_at_utc := first_some (_timestamp_or_none now (at_finished_at a)) (_timestamp_or_none now (Some (at_queued_at a)));
     ob_workload_id := or_none (at_workload_id a); ob_attempt_id := or_none (at_attempt_id a);
     ob_attempt_number := if 0 <? at_attempt_number a then Some (at_attempt_number a) else None;
     ob_task_type := ws_task_type <$> spec; ob_worker_id := at_worker_id a; ob_requested_resources := resources_of <$> spec;
     ob_submitted_at_utc := r ← record; _timestamp_or_none now (Some (wr_submitted_at r));
     ob_queued_at_utc := _timestamp_or_none now (Some (at_queued_at a)); ob_assigned_at_utc := _timestamp_or_none now (at_assigned_at a);
     ob_started_at_utc := _timestamp_or_none now (at_started_at a); ob_finished_at_utc := _timestamp_or_none now (at_finished_at a);
     ob_duration_seconds := duration_of a; ob_outcome := outcome;
     ob_failure_category := first_some (at_failure_category a) (r ← result; er_failure_category r);
     ob_failure_reason := match at_failure_reason a with
                          | Some t => if str_truthy t then Some t else r ← result; er_error_message r
                          | None => r ← result; er_error_message r
                          end;
     ob_retry_count := Z.max 0 (at_attempt_number a - 1); ob_was_checkpointed := bool_decide (outcome = OUT_CHECKPOINTED);
     ob_policy_context := policy_context_of <$> spec; ob_placement_context := placement_context_of <$> at_placement_decision a |}.
End project.

(** The order of the projection: by valid queue time, then by identifier. *)
Definition queue_key (now : float) (a : attempt_record) : float :=
  if valid_time now (at_queued_at a) then at_queued_at a else minus_inf.

Definition sort_attempts (now : float) (l : list attempt_record) : list attempt_record :=
  isort (fkey_lt (queue_key now) at_attempt_id) l.

Definition index_workloads (workloads : list workload_record) : odict workload_record :=
  fold_left (fun d r => od_set (wr_id r) r d) workloads [].

Definition quality_count (q : data_quality) (l : list observation) : Z :=
  Z.of_nat (length (filter (fun o => ob_data_quality o = q) l)).

(** [sum(n - 1 for n in counts.values() if n > 1)] *)
Definition duplicate_total (attempts : list attempt_record) : Z :=
  sumZ (map (fun aid => Z.of_nat (id_count attempts aid) - 1)
         (filter (fun aid => (1 < id_count attempts aid)%nat) (elements (list_to_set (map at_attempt_id attempts) : gset string)))).

Definition project (now : float) (workloads : list workload_record) (attempts : list attempt_record) : projection :=
  let observations := map (observe now (index_workloads workloads) attempts) (sort_attempts now attempts) in
  {| pj_observations := observations; pj_valid_count := quality_count DQ_VALID observations;
     pj_invalid_count := quality_count DQ_INVALID observations; pj_censored_count := quality_count DQ_CENSORED observations;
     pj_duplicate_count := duplicate_total attempts |}.
