(* ===== verification/Intelligence.v ===== *)
(** * Distributed intelligence ([m12/service.py])

    [DistributedIntelligence]: the history it keeps, what a restart replays,
    what a finished attempt adds, and the figures derived from it.  Clock
    readings are arguments; explanation texts, evidence texts and version fields
    are left out, and so is the identifier of an anomaly, a digest of its
    fields. *)
From Stdlib Require Import Floats.SpecFloat.
From S2P Require Export History M7 Placement WorkerRegistry.

Definition MIN_SAMPLES : Z := 3.
Definition ANOMALY_BASELINE : Z := 5.

Inductive confidence_level := CL_HIGH | CL_MEDIUM | CL_LOW | CL_UNKNOWN.
Inductive estimate_kind := PREDICTED | DECLARED_FALLBACK | INSUFFICIENT_DATA.
Inductive anomaly_category := RARE_FAILURE | DURATION_DEVIATION.

Record anomaly_record := {
  ano_category : anomaly_category;
  ano_score : float;
  ano_observed_value : float;
  ano_expected_value : float;
  ano_confidence : confidence_level;
  ano_support_count : Z;
  ano_workload_id : option string;
  ano_attempt_id : option string;
  ano_worker_id : option string;
  ano_observed_at_utc : float;
}.

Definition _confidence (n : Z) : confidence_level :=
  if 10 <=? n then CL_HIGH else if 5 <=? n then CL_MEDIUM else if 3 <=? n then CL_LOW else CL_UNKNOWN.

(** ** The state *)

Record intelligence := {
  di_memory : telemetry_memory;
  di_observations : list observation;
  di_by_attempt : odict observation;
  di_anomalies : list anomaly_record;
}.

Definition success (o : observation) : bool := bool_decide (ob_outcome o = OUT_SUCCESS).
Definition failure (o : observation) : bool := bool_decide (ob_outcome o = OUT_FAILURE).
Definition is_valid (o : observation) : bool := bool_decide (ob_data_quality o = DQ_VALID).

(** A valid observation of a success or a failure. *)
Definition countable (o : observation) : bool := is_valid o && (success o || failure o).

(** [x or d] on optional strings. *)
Definition text_or (d : string) (s : option string) : string := match s with Some t => if str_truthy t then t else d | None => d end.

(** [if x] on optional numbers. *)
Definition nonzero (x : option float) : option float := match x with Some v => if feq v f0 then None else Some v | None => None end.

Definition _replay_one (now : float) (o : observation) (m : telemetry_memory) : telemetry_memory :=
  if countable o then
    ingest_workload_result now (text_or "unknown" (ob_task_type o)) (if success o then ob_duration_seconds o else None) None (failure o)
      (ob_attempt_id o) m
  else m.

(** [(o.finished_at_utc or 0, o.attempt_id or "")] *)
Definition finish_key (o : observation) : float := default f0 (nonzero (ob_finished_at_utc o)).
Definition in_order (l : list observation) : list observation := isort (fkey_lt finish_key (fun o => text_or "" (ob_attempt_id o))) l.

(** ** Statistics *)

(** [statistics.median] of a list that is not empty. *)
Definition median (l : list float) : float :=
  let data := isort flt l in
  let n := length data in
  if Nat.odd n then nth (n / 2) data f0
  else fdiv (fadd (nth (n / 2 - 1) data f0) (nth (n / 2) data f0)) (f_of_Z 2).

Definition durations (rows : list observation) : list float :=
  omap (fun o => if success o then nonzero (ob_duration_seconds o) else None) rows.

Definition count (p : observation -> bool) (l : list observation) : Z := Z.of_nat (length (filter (fun o => p o = true) l)).

(** ** Anomalies *)

Definition _anomaly (category : anomaly_category) (now : float) (o : observation) (observed expected : float) (support : Z) (score : float)
    : anomaly_record :=
  {| ano_category := category; ano_score := clamp01' score; ano_observed_value := observed; ano_expected_value := expected;
     ano_confidence := _confidence support; ano_support_count := support; ano_workload_id := ob_workload_id o;
     ano_attempt_id := ob_attempt_id o; ano_worker_id := ob_worker_id o;
     ano_observed_at_utc := default now (nonzero (ob_observed_at_utc o)) |}.

(** What is remembered of a task type: durations of successes, [None] for a failure. *)
Abbreviation task_history := (odict (list (option float))).

Definition fabs (x : float) : float := SFabs x.

(** One turn of the loop of [_find_anomalies]: the history and what is found. *)
Definition anomaly_step (now : float) (o : observation) (h : task_history) : task_history * list anomaly_record :=
  let key := text_or "" (ob_task_type o) in
  let hist := od_get_default key [] h in
  match (if is_valid o && success o then nonzero (ob_duration_seconds o) else None) with
  | None =>
      if is_valid o && failure o then
        (od_set key (hist ++ [None]) h,
         if bool_decide (10 <= length hist)%nat && forallb (fun d => bool_decide (is_Some d)) hist
         then [_anomaly RARE_FAILURE now o f1 f0 (Z.of_nat (length hist)) f1] else [])
      else (h, [])
  | Some d =>
      let past := omap (fun x => x) hist in
      let expected := median past in
      let ratio := duration_ratio expected d in
      let unusual := fge ratio (flit 15 1) || fle ratio (flit 5 1) in
      (od_set key (hist ++ [Some d]) h,
       if (ANOMALY_BASELINE <=? Z.of_nat (length past)) && unusual
       then [_anomaly DURATION_DEVIATION now o d expected (Z.of_nat (length past)) (fmin f1 (fabs (fsub ratio f1)))] else [])
  end.

Fixpoint anomaly_loop (now : float) (rows : list observation) (h : task_history) : list anomaly_record :=
  match rows with
  | [] => []
  | o :: rows => let '(h, found) := anomaly_step now o h in found ++ anomaly_loop now rows h
  end.

Definition _find_anomalies (now : float) (rows : list observation) : list anomaly_record := anomaly_loop now rows [].

(** ** The history *)

Definition by_attempt (l : list observation) : odict observation :=
  fold_left (fun d o => match ob_attempt_id o with Some a => if str_truthy a then od_set a o d else d | None => d end) l [].

(** [rebuild_history] *)
Definition rebuild_history (now : float) (workloads : list workload_record) (attempts : list attempt_record) (d : intelligence)
    : intelligence :=
  let observations := pj_observations (project now workloads attempts) in
  let ordered := in_order observations in
  {| di_memory := fold_left (fun m o => _replay_one now o m) ordered (reset_workload_history (di_memory d));
     di_observations := observations; di_by_attempt := by_attempt observations; di_anomalies := _find_anomalies now ordered |}.

Definition conflicting (o : observation) : observation :=
  {| ob_data_quality := DQ_INVALID; ob_validation_errors := ob_validation_errors o ++ ["CONFLICTING_REPLAYED_ATTEMPT_IDENTITY"%string];
     ob_observed_at_utc := ob_observed_at_utc o; ob_workload_id := ob_workload_id o; ob_attempt_id := ob_attempt_id o;
     ob_attempt_number := ob_attempt_number o; ob_task_type := ob_task_type o; ob_worker_id := ob_worker_id o;
     ob_requested_resources := ob_requested_resources o; ob_submitted_at_utc := ob_submitted_at_utc o;
     ob_queued_at_utc := ob_queued_at_utc o; ob_assigned_at_utc := ob_assigned_at_utc o; ob_started_at_utc := ob_started_at_utc o;
     ob_finished_at_utc := ob_finished_at_utc o; ob_duration_seconds := ob_duration_seconds o; ob_outcome := ob_outcome o;
     ob_failure_category := ob_failure_category o; ob_failure_reason := ob_failure_reason o; ob_retry_count := ob_retry_count o;
     ob_was_checkpointed := ob_was_checkpointed o; ob_policy_context := ob_policy_context o;
     ob_placement_context := ob_placement_context o |}.

(** The first observation of the attempt is replaced. *)
Fixpoint replace_first (aid : option string) (o : observation) (l : list observation) : list observation :=
  match l with
  | [] => []
  | x :: l => if bool_decide (ob_attempt_id x = aid) then o :: l else x :: replace_first aid o l
  end.

(** [observe_attempt]; two equal dumps are equal observations. *)
Definition observe_attempt (now : float) (attempt : attempt_record) (workload : option workload_record) (all_attempts : list attempt_record)
    (d : intelligence) : intelligence :=
  match workload with
  | None => d
  | Some w =>
      if negb (bool_decide (at_status attempt ∈ TERMINAL_ATTEMPT_STATUSES)) then d
      else
        match List.find (fun o => bool_decide (ob_attempt_id o = Some (at_attempt_id attempt)))
                (pj_observations (project now [w] all_attempts)) with
        | None => d
        | Some o =>
            let record o observations :=
              {| di_memory := _replay_one now o (di_memory d); di_observations := observations;
                 di_by_attempt := od_set (at_attempt_id attempt) o (di_by_attempt d);
                 di_anomalies := _find_anomalies now (in_order observations) |} in
            match od_get (at_attempt_id attempt) (di_by_attempt d) with
            | None => record o (di_observations d ++ [o])
            | Some previous =>
                if bool_decide (previous = o) then d
                else record (conflicting o) (replace_first (ob_attempt_id o) (conflicting o) (di_observations d))
            end
        end
  end.

(** ** Figures *)

Definition _usable (task_type worker_id : option string) (d : intelligence) : list observation :=
  filter (fun o => (countable o && match task_type with Some t => bool_decide (ob_task_type o = Some t) | None => true end
                   && match worker_id with Some w => bool_decide (ob_worker_id o = Some w) | None => true end) = true)
    (di_observations d).

Inductive size_class := small | medium | large.
#[export] Instance size_class_eq_dec : EqDecision size_class.
Proof. solve_decision. Defined.

Definition resource_class (requires_gpu : bool) (cpu_cores ram_bytes : Z) : bool * size_class * size_class :=
  let ram_gib := fdivZ ram_bytes (1024 ^ 3) in
  (requires_gpu, if cpu_cores <=? 2 then small else if cpu_cores <=? 8 then medium else large,
   if fle ram_gib (f_of_Z 4) then small else if fle ram_gib (f_of_Z 16) then medium else large).

Record prediction_estimate := {
  pe_value : option float; pe_kind : estimate_kind; pe_confidence : confidence_level; pe_sample_count : Z; pe_fallback_value : option float;
}.

Definition same_class (spec : workload_spec) (o : observation) : bool :=
  match ob_requested_resources o with
  | Some r => bool_decide (resource_class (rr_requires_gpu r) (rr_cpu_cores r) (rr_ram_bytes r)
                           = resource_class (ws_requires_gpu spec) (ws_min_cpu_cores spec) (ws_min_ram_bytes spec))
  | None => false
  end.

(** The rows a duration is predicted from. *)
Definition selected_rows (spec : workload_spec) (d : intelligence) : list observation :=
  let rows := _usable (Some (ws_task_type spec)) None d in
  let signature_rows := filter (fun o => same_class spec o = true) rows in
  if MIN_SAMPLES <=? Z.of_nat (length signature_rows) then signature_rows else rows.

Definition _duration (spec : workload_spec) (d : intelligence) : prediction_estimate :=
  let successes := durations (selected_rows spec d) in
  let n := Z.of_nat (length successes) in
  if MIN_SAMPLES <=? n then
    {| pe_value := Some (median successes); pe_kind := PREDICTED; pe_confidence := _confidence n; pe_sample_count := n; pe_fallback_value := None |}
  else
    {| pe_value := None; pe_kind := DECLARED_FALLBACK; pe_confidence := CL_UNKNOWN; pe_sample_count := n;
       pe_fallback_value := Some (ws_estimated_duration_seconds spec) |}.

Record failure_prediction := { fp_probability : option float; fp_confidence : confidence_level; fp_sample_count : Z; fp_failure_count : Z }.

Definition _failure (rows : list observation) : failure_prediction :=
  let failures := count failure rows in
  let n := Z.of_nat (length rows) in
  {| fp_probability := if MIN_SAMPLES <=? n then Some (fdivZ failures n) else None; fp_confidence := _confidence n;
     fp_sample_count := n; fp_failure_count := failures |}.

Record behavior_classification := { bc_labels : list string; bc_confidence : confidence_level; bc_sample_count : Z }.

Definition duration_labels (m : option float) : list string :=
  match m with
  | Some v => if fge v (f_of_Z 60) then ["LONG_RUNNING"%string] else if fle v (f_of_Z 5) then ["SHORT_RUNNING"%string] else []
  | None => []
  end.

Definition stability_labels (rate : float) (n : Z) (m : option float) (successes : list float) : list string :=
  if fge rate (flit 3 1) then ["FAILURE_PRONE"%string]
  else match m with
  | Some v =>
      if (10 <=? n) && fle rate (flit 5 2) && fgt v f0 then
        if fle (fdiv (median (map (fun x => fabs (fsub x v)) successes)) v) (flit 2 1) then ["STABLE"%string] else []
      else []
  | None => []
  end.

Definition _behavior (rows : list observation) : behavior_classification :=
  let successes := durations rows in
  let n := Z.of_nat (length rows) in
  let m := if bool_decide (5 <= length successes)%nat then Some (median successes) else None in
  {| bc_labels := if 5 <=? n then duration_labels m ++ stability_labels (fdivZ (count failure rows) n) n m successes else [];
     bc_confidence := _confidence n; bc_sample_count := n |}.

Record workload_intelligence := {
  wl_data_quality : data_quality; wl_observation_count : Z; wl_invalid_observation_count : Z; wl_duration : prediction_estimate;
  wl_failure : failure_prediction; wl_behavior : behavior_classification; wl_anomalies : list anomaly_record;
}.

Definition workload_view (record : workload_record) (d : intelligence) : workload_intelligence :=
  let rows := filter (fun o => ob_workload_id o = Some (wr_id record)) (di_observations d) in
  let usable := _usable (Some (ws_task_type (wr_spec record))) None d in
  {| wl_data_quality := if 0 <? quality_count DQ_VALID rows then DQ_VALID else DQ_INSUFFICIENT_HISTORY;
     wl_observation_count := quality_count DQ_VALID rows; wl_invalid_observation_count := quality_count DQ_INVALID rows;
     wl_duration := _duration (wr_spec record) d; wl_failure := _failure usable; wl_behavior := _behavior usable;
     wl_anomalies := filter (fun a => ano_workload_id a = Some (wr_id record)) (di_anomalies d) |}.

(** The columns of the profile, the status of the worker and the age of the
    telemetry; [None] is the empty dictionary. *)
Record profile_data := { pf_profile : worker_resource_profile; pf_worker_status : worker_status; pf_telemetry_age_seconds : option float }.

Definition current_profile (now : float) (w : option worker_info) : option profile_data :=
  w ← w; p ← wi_resource_profile w;
  Some {| pf_profile := p; pf_worker_status := wi_status w;
          pf_telemetry_age_seconds := option_map (fun t => fmax f0 (fsub now t)) (rp_timestamp_utc p) |}.

Record worker_intelligence := {
  wk_current_profile : option profile_data;
  wk_data_quality : data_quality; wk_observation_count : Z; wk_failure : failure_prediction; wk_behavior : behavior_classification;
  wk_anomalies : list anomaly_record;
}.

Definition worker_view (now : float) (profile : option worker_info) (worker_id : string) (d : intelligence) : worker_intelligence :=
  let rows := _usable None (Some worker_id) d in
  {| wk_current_profile := current_profile now profile; wk_data_quality := if bool_decide (rows = []) then DQ_INSUFFICIENT_HISTORY else DQ_VALID; wk_observation_count := Z.of_nat (length rows);
     wk_failure := _failure rows; wk_behavior := _behavior rows;
     wk_anomalies := filter (fun a => ano_worker_id a = Some worker_id) (di_anomalies d) |}.

(** ** Capacity *)

Record demand := { dm_cpu_cores : float; dm_ram_bytes : float; dm_gpu : float; dm_vram_bytes : float }.

Definition requested_of (pending : list workload_record) : demand :=
  let total f := f_of_Z (sumZ (map (fun r => f (wr_spec r)) pending)) in
  {| dm_cpu_cores := total ws_min_cpu_cores; dm_ram_bytes := total ws_min_ram_bytes;
     dm_gpu := total (fun s => if ws_requires_gpu s then 1 else 0); dm_vram_bytes := total ws_min_vram_bytes |}.

Definition fresh_profile (now : float) (w : worker_info) : option worker_resource_profile :=
  if wi_can_execute_workloads w then
    p ← wi_resource_profile w; t ← rp_timestamp_utc p;
    let age := fsub now t in
    if fle f0 age && fle age STALE_PROFILE_SECONDS then Some p else None
  else None.

Definition add_profile (a : demand) (p : worker_resource_profile) : demand :=
  {| dm_cpu_cores := fadd (dm_cpu_cores a) (fmax f0 (fmul (f_of_Z (rp_cpu_cores_total p))
                       (fsub f1 (fdiv (rp_cpu_utilization_percent p) (f_of_Z 100)))));
     dm_ram_bytes := fadd (dm_ram_bytes a) (f_of_Z (rp_ram_available_bytes p));
     dm_gpu := fadd (dm_gpu a) (if rp_gpu_available p then f1 else f0);
     dm_vram_bytes := fadd (dm_vram_bytes a) (f_of_Z (rp_vram_available_bytes p)) |}.

Inductive pressure := PR_UNKNOWN | PR_HIGH | PR_NORMAL.
#[export] Instance pressure_eq_dec : EqDecision pressure.
Proof. solve_decision. Defined.
Inductive advice := ADD_CAPACITY | MONITOR | ADVICE_STABLE.

Record capacity_forecast := {
  cf_data_quality : data_quality; cf_queue_depth : Z; cf_arrivals_per_hour : option Z; cf_completions_per_hour : option Z;
  cf_projected_queue_growth_per_hour : option Z; cf_eligible_attempt_count : Z; cf_failure_rate : option float; cf_requested_demand : demand;
  cf_current_available : demand; cf_pressure : pressure; cf_confidence : confidence_level; cf_recommendation : advice;
}.

Definition within (now t : float) : bool := fle (fsub now (f_of_Z 3600)) t && fle t now.

Definition pressure_of (fresh : list worker_resource_profile) (requested available : demand) : pressure :=
  if bool_decide (fresh = []) then PR_UNKNOWN
  else if fgt (dm_cpu_cores requested) (dm_cpu_cores available) || fgt (dm_ram_bytes requested) (dm_ram_bytes available)
          || fgt (dm_gpu requested) (dm_gpu available) then PR_HIGH
  else PR_NORMAL.

(** [arrivals - completions] of counts is exact, so the rates are integers. *)
Definition capacity_view (now : float) (records : list workload_record) (workers : list worker_info) (d : intelligence) : capacity_forecast :=
  let pending := filter (fun r => wr_state r = SUBMITTED) records in
  let fresh := omap (fresh_profile now) workers in
  let requested := requested_of pending in
  let available := fold_left add_profile fresh {| dm_cpu_cores := f0; dm_ram_bytes := f0; dm_gpu := f0; dm_vram_bytes := f0 |} in
  let arrivals := Z.of_nat (length (filter (fun r => within now (wr_submitted_at r) = true) records)) in
  let completions := Z.of_nat (length (filter (fun r => match wr_completed_at r with Some t => within now t | None => false end = true) records)) in
  let valid_rows := filter (fun o => match nonzero (ob_observed_at_utc o) with Some t => within now t | None => false end = true) (_usable None None d) in
  let fail_n := Z.of_nat (length valid_rows) in
  let enough := (MIN_SAMPLES <=? arrivals + completions) && (MIN_SAMPLES <=? fail_n) in
  let p := pressure_of fresh requested available in
  let growth := arrivals - completions in
  {| cf_data_quality := if negb (bool_decide (workers = [])) && bool_decide (fresh = []) then DQ_STALE
                        else if enough then DQ_VALID else DQ_INSUFFICIENT_HISTORY;
     cf_queue_depth := Z.of_nat (length pending);
     cf_arrivals_per_hour := if MIN_SAMPLES <=? arrivals then Some arrivals else None;
     cf_completions_per_hour := if MIN_SAMPLES <=? completions then Some completions else None;
     cf_projected_queue_growth_per_hour := if enough then Some growth else None; cf_eligible_attempt_count := fail_n;
     cf_failure_rate := if MIN_SAMPLES <=? fail_n then Some (fdivZ (count failure valid_rows) fail_n) else None;
     cf_requested_demand := requested; cf_current_available := available; cf_pressure := p; cf_confidence := _confidence fail_n;
     cf_recommendation := if bool_decide (p = PR_HIGH) || (enough && (0 <? growth)) then ADD_CAPACITY
                          else if negb enough || bool_decide (p = PR_UNKNOWN) then MONITOR else ADVICE_STABLE |}.

(** ** Recommendations *)

Inductive proposed_change := CAPACITY (a : advice) | PLACEMENT_WEIGHTS (w : policy_weights).

Definition recommendations (now : float) (records : list workload_record) (workers : list worker_info) (d : intelligence)
    : list (proposed_change * confidence_level) :=
  let forecast := capacity_view now records workers d in
  (CAPACITY (cf_recommendation forecast), cf_confidence forecast)
  :: (if match tm_workers (di_memory d) with [] => true | _ => false end then []
      else [(PLACEMENT_WEIGHTS (evaluate_environment (od_values (tm_workers (di_memory d)))), CL_LOW)]).
