(* ===== verification/CacheIndex.v ===== *)
(** * Cache metadata index ([cache/models.py], [cache/index.py])

    The [entries] table is a dictionary from the lower-cased digest to its row,
    in row order; a closed connection, which turns every operation into a
    no-op, is not modelled.  The clock readings of the callers are arguments.
    SQL leaves the order of equal [created_at] open; rows keep theirs. *)
From S2P Require Export Models PySort.

Inductive cache_state := CS_ABSENT | CS_TRANSFERRING | CS_VERIFYING | CS_VALID | CS_CORRUPTED | CS_EVICTING.
#[export] Instance cache_state_eq_dec : EqDecision cache_state.
Proof. solve_decision. Defined.

Record cache_entry := {
  ce_sha256 : string;
  ce_size_bytes : Z;
  ce_asset_type : string;
  ce_original_name : string;
  ce_source_path : string;
  ce_created_at : float;
  ce_last_accessed_at : float;
  ce_access_count : Z;
  ce_state : cache_state;
  ce_relative_path : string;
  ce_metadata : odict json;
}.

(** [SHA256_HEX_PATTERN.match] and [SplitHashStorage.validate_hash]. *)
Definition validate_hash (sha : string) : res string :=
  if re_class_exact is_hex_lower 64 sha then Ok (str_lower sha) else Err InvalidHashError.

Definition entries := odict cache_entry.

Definition ce_with_state (st : cache_state) (e : cache_entry) : cache_entry :=
  {| ce_sha256 := ce_sha256 e; ce_size_bytes := ce_size_bytes e; ce_asset_type := ce_asset_type e;
     ce_original_name := ce_original_name e; ce_source_path := ce_source_path e; ce_created_at := ce_created_at e;
     ce_last_accessed_at := ce_last_accessed_at e; ce_access_count := ce_access_count e; ce_state := st;
     ce_relative_path := ce_relative_path e; ce_metadata := ce_metadata e |}.
Definition ce_touched (ts : float) (e : cache_entry) : cache_entry :=
  {| ce_sha256 := ce_sha256 e; ce_size_bytes := ce_size_bytes e; ce_asset_type := ce_asset_type e;
     ce_original_name := ce_original_name e; ce_source_path := ce_source_path e; ce_created_at := ce_created_at e;
     ce_last_accessed_at := ts; ce_access_count := ce_access_count e + 1; ce_state := ce_state e;
     ce_relative_path := ce_relative_path e; ce_metadata := ce_metadata e |}.
(** The row an upsert leaves: [created_at] of the first insertion, one more access. *)
Definition ce_row (key : string) (created : float) (count : Z) (e : cache_entry) : cache_entry :=
  {| ce_sha256 := key; ce_size_bytes := ce_size_bytes e; ce_asset_type := ce_asset_type e;
     ce_original_name := ce_original_name e; ce_source_path := ce_source_path e; ce_created_at := created;
     ce_last_accessed_at := ce_last_accessed_at e; ce_access_count := count; ce_state := ce_state e;
     ce_relative_path := ce_relative_path e; ce_metadata := ce_metadata e |}.

Definition put_entry (e : cache_entry) (ix : entries) : entries :=
  let key := str_lower (ce_sha256 e) in
  match od_get key ix with
  | Some old => od_set key (ce_row key (ce_created_at old) (ce_access_count old + 1) e) ix
  | None => od_set key (ce_row key (ce_created_at e) (ce_access_count e) e) ix
  end.

Definition get_entry (sha : string) (ix : entries) : option cache_entry := od_get (str_lower sha) ix.
Definition index_contains (sha : string) (ix : entries) : bool := od_mem (str_lower sha) ix.

Definition update_row (sha : string) (f : cache_entry -> cache_entry) (ix : entries) : entries :=
  match od_get (str_lower sha) ix with Some e => od_set (str_lower sha) (f e) ix | None => ix end.

Definition touch (sha : string) (ts : float) (ix : entries) : entries * bool :=
  (update_row sha (ce_touched ts) ix, od_mem (str_lower sha) ix).
Definition touch_batch (hashes : list string) (ts : float) (ix : entries) : entries * Z :=
  fold_left (fun '(ix, n) h => let '(ix, hit) := touch h ts ix in (ix, if hit then n + 1 else n)) hashes (ix, 0).
Definition remove_entry (sha : string) (ix : entries) : entries * bool :=
  (od_del (str_lower sha) ix, od_mem (str_lower sha) ix).

Definition valid_transitions (st : cache_state) : list cache_state :=
  match st with
  | CS_ABSENT => [CS_TRANSFERRING; CS_VERIFYING]
  | CS_TRANSFERRING => [CS_VERIFYING; CS_ABSENT]
  | CS_VERIFYING => [CS_VALID; CS_CORRUPTED; CS_ABSENT]
  | CS_VALID => [CS_EVICTING; CS_CORRUPTED; CS_ABSENT; CS_VERIFYING]
  | CS_CORRUPTED => [CS_ABSENT; CS_VERIFYING]
  | CS_EVICTING => [CS_ABSENT; CS_VALID]
  end.
Definition may_become (from to : cache_state) : bool :=
  bool_decide (to ∈ valid_transitions from) || bool_decide (from = to).

Definition update_status (sha : string) (status : cache_state) (ix : entries) : entries * res bool :=
  match od_get (str_lower sha) ix with
  | None => (ix, Ok false)
  | Some e =>
      if may_become (ce_state e) status then (update_row sha (ce_with_state status) ix, Ok true)
      else (ix, Err (ValueError "Invalid state transition"))
  end.
Definition mark_corrupted (sha : string) (ix : entries) : entries * res bool := update_status sha CS_CORRUPTED ix.

Definition lru_lt : cache_entry -> cache_entry -> bool := fkey_lt ce_last_accessed_at ce_sha256.
Definition lru_order (ix : entries) : list cache_entry := isort lru_lt (od_values ix).
Definition get_lru_candidates (limit : option Z) (ix : entries) : list cache_entry :=
  match limit with
  | Some n => if 0 <? n then take (Z.to_nat n) (lru_order ix) else lru_order ix
  | None => lru_order ix
  end.

Definition sizes (l : list cache_entry) : Z := sumZ (map ce_size_bytes l).
Definition get_total_size (ix : entries) : Z := sizes (od_values ix).
Definition get_count (ix : entries) : Z := Z.of_nat (length ix).
Definition index_hashes (ix : entries) : gset string := list_to_set (od_keys ix).
Definition get_verified_hashes (required : option (list string)) (ix : entries) : gset string :=
  let valid := list_to_set (map ce_sha256 (List.filter (fun e => bool_decide (ce_state e = CS_VALID)) (od_values ix))) in
  match required with
  | None => valid
  | Some req => valid ∩ list_to_set req
  end.
Definition get_all_entries (ix : entries) : list cache_entry := isort (desc_lt ce_created_at) (od_values ix).
Definition get_entries_by_hashes (hashes : list string) (ix : entries) : entries :=
  List.filter (fun '(k, _) => bool_decide (k ∈ map str_lower hashes)) ix.

(** ** Well-formed tables: one row per lower-case digest, filed under it *)

Definition ix_wf (ix : entries) : Prop :=
  od_wf ix /\ forall k e, od_get k ix = Some e -> ce_sha256 e = k /\ str_lower k = k.

Lemma od_set_same_keys {V} (d : odict V) k v : is_Some (od_get k d) -> od_keys (od_set k v d) = od_keys d.
Proof.
  induction d as [|[k1 v1] d IH]; simpl; [by intros [? ?]|].
  destruct (String.eqb_spec k k1); simpl; [done|]. intros H. by rewrite IH.
Qed.

Lemma ix_wf_set ix k e : ix_wf ix -> ce_sha256 e = k -> str_lower k = k -> ix_wf (od_set k e ix).
Proof.
  intros [Hwf Hk] He Hl. split; [by apply od_set_wf|]. intros k' e'. rewrite od_get_set.
  str_case; [|apply Hk]. naive_solver.
Qed.

Lemma ix_wf_del ix k : ix_wf ix -> ix_wf (od_del k ix).
Proof.
  intros [Hwf Hk]. split; [by apply od_del_wf|]. intros k' e'. rewrite od_get_del by done. str_case; [done|]. apply Hk.
Qed.

Lemma ix_wf_update ix sha f : ix_wf ix -> (forall e, ce_sha256 (f e) = ce_sha256 e) -> ix_wf (update_row sha f ix).
Proof.
  intros Hw Hf. unfold update_row. destruct (od_get _ ix) as [e|] eqn:E; [|done].
  destruct Hw as [Hwf Hk]. destruct (Hk _ _ E) as [He Hl]. apply ix_wf_set; [done|by rewrite Hf|done].
Qed.

Lemma ix_wf_put ix e : ix_wf ix -> ix_wf (put_entry e ix).
Proof.
  intros Hw. unfold put_entry. destruct (od_get _ ix) as [old|]; apply ix_wf_set; simpl; auto; apply str_lower_idemp.
Qed.

Lemma ix_wf_status ix sha st : ix_wf ix -> ix_wf (fst (update_status sha st ix)).
Proof.
  intros Hw. unfold update_status. destruct (od_get _ ix); [|done]. destruct (may_become _ _); [|done].
  by apply ix_wf_update.
Qed.

Create HintDb cache.
#[export] Hint Resolve ix_wf_set ix_wf_del ix_wf_update ix_wf_put ix_wf_status : cache.

Lemma ix_wf_entry ix e : ix_wf ix -> e ∈ od_values ix -> od_get (ce_sha256 e) ix = Some e /\ str_lower (ce_sha256 e) = ce_sha256 e.
Proof.
  intros [Hwf Hk] He. apply od_values_elem in He as [k He]; [|done]. by destruct (Hk _ _ He) as [-> ?].
Qed.

Lemma sizes_perm l l' : Permutation l l' -> sizes l = sizes l'.
Proof. intros H. apply sumZ_perm. by apply Permutation_map. Qed.

Lemma od_get_values_perm {V} (d : odict V) k v :
  od_get k d = Some v -> Permutation (od_values d) (v :: od_values (od_del k d)).
Proof.
  unfold od_values. induction d as [|[k1 v1] d IH]; simpl; [done|].
  destruct (String.eqb_spec k k1); [by intros [= ->]|]. intros H. simpl. rewrite (IH H). apply perm_swap.
Qed.

Lemma total_size_del ix k e : od_get k ix = Some e -> get_total_size ix = ce_size_bytes e + get_total_size (od_del k ix).
Proof. intros H. unfold get_total_size. by rewrite (sizes_perm _ _ (od_get_values_perm _ _ _ H)). Qed.

Lemma od_set_del_perm {V} (d : odict V) k v v' :
  od_get k d = Some v -> Permutation (od_values (od_set k v' d)) (v' :: od_values (od_del k d)).
Proof.
  unfold od_values. induction d as [|[k1 v1] d IH]; simpl; [done|].
  destruct (String.eqb_spec k k1); simpl; [by intros _|]. intros H. rewrite (IH H). apply perm_swap.
Qed.

Lemma total_size_update ix sha f :
  (forall e, ce_size_bytes (f e) = ce_size_bytes e) -> get_total_size (update_row sha f ix) = get_total_size ix.
Proof.
  intros Hf. unfold update_row. destruct (od_get _ ix) as [e|] eqn:E; [|done].
  rewrite (total_size_del ix _ e E). unfold get_total_size at 1.
  rewrite (sizes_perm _ _ (od_set_del_perm ix _ e (f e) E)). unfold sizes. simpl. by rewrite Hf.
Qed.

(** ** The state machine of an entry *)

(** A run of [update_status] calls on one entry: the states it goes through. *)
Inductive status_run : cache_state -> list cache_state -> cache_state -> Prop :=
| run_nil s : status_run s [] s
| run_step s t l u : may_become s t = true -> status_run t l u -> status_run s (t :: l) u.

Fixpoint update_all (sha : string) (l : list cache_state) (ix : entries) : option entries :=
  match l with
  | [] => Some ix
  | st :: l => match update_status sha st ix with (ix', Ok true) => update_all sha l ix' | _ => None end
  end.

Lemma update_row_get ix sha f e :
  od_get (str_lower sha) ix = Some e -> od_get (str_lower sha) (update_row sha f ix) = Some (f e).
Proof. intros H. unfold update_row. rewrite H. apply od_get_set_eq. Qed.

Lemma update_all_run sha l ix ix' e :
  od_get (str_lower sha) ix = Some e -> update_all sha l ix = Some ix' ->
  exists st, status_run (ce_state e) l st /\ od_get (str_lower sha) ix' = Some (ce_with_state st e).
Proof.
  revert ix e. induction l as [|t l IH]; intros ix e He; simpl.
  - intros [= <-]. exists (ce_state e). split; [constructor|]. rewrite He. by destruct e.
  - unfold update_status. rewrite He. destruct (may_become (ce_state e) t) eqn:E; [|done].
    intros H. destruct (IH _ (ce_with_state t e) (update_row_get _ _ _ _ He) H) as (st & Hr & Hg).
    exists st. split; [by econstructor|exact Hg].
Qed.

(** Untrusted content: what has not been verified. *)
Definition untrusted (st : cache_state) : bool :=
  bool_decide (st = CS_ABSENT \/ st = CS_TRANSFERRING \/ st = CS_CORRUPTED).

Lemma untrusted_run s l u : untrusted s = true -> status_run s l u -> CS_VERIFYING ∉ l -> untrusted u = true.
Proof.
  intros Hs Hr. induction Hr as [|s t l u Hst Hr IH]; [done|]. intros [Hv Hl]%not_elem_of_cons.
  apply IH; [|done]. destruct s; try done; destruct t; done.
Qed.

(** No entry becomes valid unverified.  Whatever calls of [update_status]
    succeed on an entry that is absent, being transferred or corrupted, if it
    ends up VALID (or EVICTING) then some call made it VERIFYING; a refused call
    changes nothing, and no other field or entry is touched. *)
Theorem valid_only_after_verifying sha l ix ix' e e' :
  od_get (str_lower sha) ix = Some e -> untrusted (ce_state e) = true ->
  update_all sha l ix = Some ix' -> od_get (str_lower sha) ix' = Some e' ->
  e' = ce_with_state (ce_state e') e /\
  (ce_state e' = CS_VALID \/ ce_state e' = CS_EVICTING -> CS_VERIFYING ∈ l) /\
  (forall k, k <> str_lower sha -> od_get k ix' = od_get k ix) /\
  (forall st, may_become (ce_state e') st = false -> fst (update_status sha st ix') = ix').
Proof.
  intros He Hu Hl He'. destruct (update_all_run _ _ _ _ _ He Hl) as (st & Hr & Hg).
  rewrite Hg in He'. injection He' as <-. simpl. split_and!; [done| | |].
  - intros Hst. destruct (decide (CS_VERIFYING ∈ l)) as [|Hn]; [done|].
    pose proof (untrusted_run _ _ _ Hu Hr Hn). destruct Hst; by subst.
  - intros k Hk. clear -Hl Hk. revert ix Hl. induction l as [|t l IH]; intros ix; simpl; [by intros [= <-]|].
    unfold update_status. destruct (od_get (str_lower sha) ix) as [e|] eqn:E; [|done].
    destruct (may_become _ _); [|done]. intros H. rewrite (IH _ H). unfold update_row. rewrite E.
    by apply od_get_set_ne.
  - intros st' Hst. unfold update_status. rewrite Hg. simpl. by rewrite Hst.
Qed.

Definition sample_entry (sha : string) (size : Z) (at_ : float) (st : cache_state) : cache_entry :=
  {| ce_sha256 := sha; ce_size_bytes := size; ce_asset_type := "unknown"; ce_original_name := ""; ce_source_path := "";
     ce_created_at := at_; ce_last_accessed_at := at_; ce_access_count := 1; ce_state := st; ce_relative_path := "";
     ce_metadata := [] |}.

Lemma valid_only_after_verifying_witness :
  exists ix', update_all "a" [CS_VERIFYING; CS_VALID] (put_entry (sample_entry "a" 3 f1 CS_TRANSFERRING) []) = Some ix' /\
    CS_VERIFYING ∈ [CS_VERIFYING; CS_VALID].
Proof.
  eexists. split; [vm_compute; reflexivity|].
  eapply (valid_only_after_verifying "a" [CS_VERIFYING; CS_VALID] (put_entry (sample_entry "a" 3 f1 CS_TRANSFERRING) []));
    [vm_compute; reflexivity|vm_compute; reflexivity|vm_compute; reflexivity|vm_compute; reflexivity|left; reflexivity].
Defined.
