(* ===== verification/CacheStorage.v ===== *)
(** * Content-addressed storage and hit/miss resolution
    ([cache/storage.py], [cache/resolver.py])

    The object directory is a map from the file's name, the digest its two path
    components spell, to its bytes.  [locked] is the set of files the system
    refuses to delete for the duration of a call.  A stream is its whole
    content: chunks only matter to the size limit, which is refused as soon as
    it is passed.  Staging files and empty directories are not modelled. *)
From S2P Require Export CacheIndex Sha256.

Abbreviation disk := (gmap string string).
Definition bytes_len (data : string) : Z := str_len data.

Definition relative_path (sha : string) : res string :=
  let! h := validate_hash sha in
  Ok ("objects/" +:+ substring 0 2 h +:+ "/" +:+ substring 2 (String.length h - 2) h)%string.

Definition storage_exists (sha : string) (d : disk) : bool :=
  match validate_hash sha with Ok h => bool_decide (is_Some (d !! h)) | Err _ => false end.
Definition storage_size (sha : string) (d : disk) : res Z :=
  let! h := validate_hash sha in
  match d !! h with Some data => Ok (bytes_len data) | None => Err CacheStorageError end.
Definition storage_delete (locked : gset string) (sha : string) (d : disk) : disk * res bool :=
  match validate_hash sha with
  | Err e => (d, Err e)
  | Ok h =>
      match d !! h with
      | None => (d, Ok false)
      | Some _ => if bool_decide (h ∈ locked) then (d, Err CacheStorageError) else (delete h d, Ok true)
      end
  end.
Definition storage_hashes (d : disk) : gset string := dom d.
Definition read_bytes (sha : string) (d : disk) : res string :=
  let! h := validate_hash sha in
  match d !! h with Some data => Ok data | None => Err CacheStorageError end.

(** [write_stream] up to [on_validated]: the size and digest it reports. *)
Definition stage_stream (data : string) (expected_sha : option string) (expected_size max_bytes : option Z) : res (Z * string) :=
  let n := bytes_len data in
  if match max_bytes with Some m => (0 <? n) && (m <? n) | None => false end then Err CacheStorageError
  else
    let computed := sha256 data in
    let! _ := match expected_sha with
              | Some s => let! h := validate_hash s in if String.eqb computed h then Ok tt else Err HashMismatchError
              | None => Ok tt
              end in
    if match expected_size with Some m => negb (n =? m) | None => false end then Err CacheStorageError
    else Ok (n, computed).

(** The atomic rename. *)
Definition commit_stream (data computed : string) (d : disk) : disk := <[computed := data]> d.

(** ** Resolution *)

Record resolution_result := {
  rr_hits : gset string;
  rr_misses : gset string;
  rr_total_requested_bytes : Z;
  rr_hit_bytes : Z;
  rr_miss_bytes : Z;
  rr_byte_hit_ratio : float;
  rr_network_saved_bytes : Z;
}.

Definition lower_set (l : list string) : gset string := list_to_set (map str_lower l).
Definition bytes_of_hashes (s : gset string) (sizes : odict Z) : Z :=
  sumZ (map (fun h => od_get_default h 0 sizes) (elements s)).

(** [HitMissResolver.resolve_hashes] with [cached_hashes] given. *)
Definition resolve_hashes (required cached : list string) (sizes : odict Z) : resolution_result :=
  let req := lower_set required in
  let norm_cached := lower_set cached in
  let hits := req ∩ norm_cached in
  let misses := req ∖ norm_cached in
  let hit_bytes := bytes_of_hashes hits sizes in
  let miss_bytes := bytes_of_hashes misses sizes in
  let total := hit_bytes + miss_bytes in
  {| rr_hits := hits; rr_misses := misses; rr_total_requested_bytes := total; rr_hit_bytes := hit_bytes;
     rr_miss_bytes := miss_bytes;
     rr_byte_hit_ratio := if 0 <? total then fdivZ hit_bytes total
                          else if bool_decide (misses = ∅) then f1 else f0;
     rr_network_saved_bytes := hit_bytes |}.

(** ** Lemmas *)

Lemma validate_is_sha256 h : is_sha256 h = true -> validate_hash h = Ok h.
Proof.
  unfold is_sha256. intros [Hl%Nat.eqb_eq Hf]%andb_true_iff. unfold validate_hash.
  rewrite re_class_exact_iff; [by rewrite str_lower_hex_lower|by intros c Hc ->|done|done].
Qed.

Lemma validate_sha256 data : validate_hash (sha256 data) = Ok (sha256 data).
Proof. apply validate_is_sha256, sha256_is_sha256. Qed.

Lemma stage_stream_ok data exp size max n h :
  stage_stream data exp size max = Ok (n, h) -> n = bytes_len data /\ h = sha256 data.
Proof.
  unfold stage_stream. destruct (match max with Some m => _ | None => _ end); [done|].
  intros (u & _ & Ho)%res_bind_ok. destruct (match size with Some m => _ | None => _ end); [done|].
  injection Ho as <- <-. done.
Qed.

Lemma storage_delete_cases locked sha d :
  let '(d', r) := storage_delete locked sha d in
  match r with
  | Ok _ => exists h, validate_hash sha = Ok h /\ d' = delete h d /\ d' !! h = None
  | Err _ => d' = d
  end.
Proof.
  unfold storage_delete. destruct (validate_hash sha) as [h|] eqn:E; [|done].
  destruct (d !! h) eqn:Ed; [case_bool_decide|]; simpl; [done|..].
  - exists h. split_and!; [done|done|apply lookup_delete_eq].
  - exists h. split_and!; [done|by rewrite delete_id|done].
Qed.
