(* ===== verification/Eviction.v ===== *)
(** * LRU eviction and the quota ([cache/eviction.py])

    [clock n] is the clock reading of the [n]-th access update of the call. *)
From S2P Require Export CacheStorage.

Record cache := { ca_index : entries; ca_disk : disk }.
Definition on_index (f : entries -> entries) (ca : cache) : cache := {| ca_index := f (ca_index ca); ca_disk := ca_disk ca |}.

Section eviction.
Variable locked : gset string.
Variable clock : nat -> float.

(** The [for] loop over a batch.  Returns the accesses updated, the bytes freed
    and whether an entry was evicted. *)
Fixpoint evict_batch (target : Z) (cands : list cache_entry) (n : nat) (freed : Z) (progress : bool) (ca : cache)
  : cache * res (nat * Z * bool) :=
  match cands with
  | [] => (ca, Ok (n, freed, progress))
  | e :: cands =>
      if target <=? freed then (ca, Ok (n, freed, progress))
      else
        let sha := ce_sha256 e in
        match update_status sha CS_EVICTING (ca_index ca) with
        | (_, Err _) => evict_batch target cands n freed progress ca
        | (ix1, Ok _) =>
            match storage_delete locked sha (ca_disk ca) with
            | (d, Ok _) =>
                evict_batch target cands n (freed + ce_size_bytes e) true
                  {| ca_index := fst (remove_entry sha ix1); ca_disk := d |}
            | (d, Err _) =>
                match update_status sha (ce_state e) ix1 with
                | (ix2, Err x) => ({| ca_index := ix2; ca_disk := d |}, Err x)
                | (ix2, Ok _) =>
                    evict_batch target cands (S n) freed progress
                      {| ca_index := fst (touch sha (clock n) ix2); ca_disk := d |}
                end
            end
        end
  end.

Definition batch_size : Z := 100.

(** The [while] loop; [None] when the fuel is spent. *)
Fixpoint evict_loop (fuel : nat) (target : Z) (n : nat) (freed : Z) (ca : cache) : option (cache * res Z) :=
  match fuel with
  | O => None
  | S fuel =>
      if target <=? freed then Some (ca, Ok freed)
      else
        match get_lru_candidates (Some batch_size) (ca_index ca) with
        | [] => Some (ca, Ok freed)
        | cands =>
            match evict_batch target cands n freed false ca with
            | (ca', Err x) => Some (ca', Err x)
            | (ca', Ok (n', freed', true)) => evict_loop fuel target n' freed' ca'
            | (ca', Ok (_, freed', false)) => Some (ca', Ok freed')
            end
        end
  end.

Definition evict_to_free (target : Z) (ca : cache) : cache * res Z :=
  if target <=? 0 then (ca, Ok 0)
  else default (ca, Ok 0) (evict_loop (S (length (ca_index ca))) target 0 0 ca).

Definition enforce_quota (quota : option Z) (incoming : Z) (ca : cache) : cache * res Z :=
  match quota with
  | None => (ca, Ok 0)
  | Some max =>
      if max <=? 0 then (ca, Ok 0)
      else if max <? incoming then (ca, Err CacheQuotaExceededError)
      else
        let required := get_total_size (ca_index ca) + incoming in
        if required <=? max then (ca, Ok 0)
        else
          match evict_to_free (required - max) ca with
          | (ca', Err x) => (ca', Err x)
          | (ca', Ok freed) =>
              if max <? get_total_size (ca_index ca') + incoming then (ca', Err CacheQuotaExceededError)
              else (ca', Ok freed)
          end
  end.

(** ** What a batch does *)

(** Relation between the cache before and after: rows and files are kept or
    evicted, nothing else. *)
Record evicted (ca ca' : cache) (bytes : Z) : Prop := {
  ev_wf : ix_wf (ca_index ca) -> ix_wf (ca_index ca');
  ev_bytes : get_total_size (ca_index ca') + bytes = get_total_size (ca_index ca);
  ev_kept : forall k e', od_get k (ca_index ca') = Some e' ->
    exists e, od_get k (ca_index ca) = Some e /\ ce_state e' = ce_state e /\ ce_size_bytes e' = ce_size_bytes e;
  ev_gone : forall k e, od_get k (ca_index ca) = Some e -> od_get k (ca_index ca') = None ->
    (ce_state e = CS_VALID \/ ce_state e = CS_EVICTING) /\ ca_disk ca' !! k = None /\
    (ca_disk ca !! k = None \/ k ∉ locked);
  ev_files : forall h, ca_disk ca' !! h = ca_disk ca !! h \/
    (ca_disk ca' !! h = None /\ is_Some (od_get h (ca_index ca)) /\ od_get h (ca_index ca') = None);
  ev_length : (length (ca_index ca') <= length (ca_index ca))%nat;
  ev_nonneg : (forall k e, od_get k (ca_index ca) = Some e -> 0 <= ce_size_bytes e) -> 0 <= bytes;
}.

Lemma evicted_refl ca : evicted ca ca 0.
Proof. split; [done|lia|eauto|congruence|auto|lia|lia]. Qed.

Lemma evicted_trans ca1 ca2 ca3 b1 b2 : evicted ca1 ca2 b1 -> evicted ca2 ca3 b2 -> evicted ca1 ca3 (b1 + b2).
Proof.
  intros [W1 B1 K1 G1 F1 L1 N1] [W2 B2 K2 G2 F2 L2 N2]. split.
  - auto.
  - lia.
  - intros k e3 H3. destruct (K2 k e3 H3) as (e2 & H2 & S2 & Z2). destruct (K1 k e2 H2) as (e1 & H1 & S1 & Z1).
    exists e1. split_and!; congruence.
  - intros k e1 H1 H3. destruct (od_get k (ca_index ca2)) as [e2|] eqn:H2.
    + destruct (K1 k e2 H2) as (e1' & H1' & S1 & _). destruct (G2 k e2 H2 H3) as (Hs & Hd & Hl).
      rewrite H1 in H1'. injection H1' as <-. rewrite <- S1. split_and!; [done..|].
      destruct (F1 k) as [<-|(_ & _ & Hn)]; [done|congruence].
    + destruct (G1 k e1 H1 H2) as (Hs & Hd & Hl). split_and!; [done| |done].
      destruct (F2 k) as [->|[-> _]]; done.
  - intros h. destruct (F2 h) as [E2|(E2 & [e2 I2] & G2')].
    + destruct (F1 h) as [E1|(E1 & I1 & G1')]; [left; congruence|]. right. split_and!; [congruence|done|].
      destruct (od_get h (ca_index ca3)) eqn:E; [|done]. destruct (K2 _ _ E) as (? & ? & _). congruence.
    + right. split_and!; [done| |done]. destruct (K1 h e2 I2) as (e1 & ? & _). eauto.
  - lia.
  - intros Hs. specialize (N1 Hs). enough (0 <= b2) by lia. apply N2. intros k e2 H2.
    destruct (K1 k e2 H2) as (e1 & H1 & _ & Z1). specialize (Hs _ _ H1). lia.
Qed.

Lemma od_set_length {V} (d : odict V) k v : is_Some (od_get k d) -> length (od_set k v d) = length d.
Proof. intros [v0 H]. by eapply od_set_same_length. Qed.

Lemma od_del_length {V} (d : odict V) k v : od_get k d = Some v -> length d = S (length (od_del k d)).
Proof. intros H. pose proof (Permutation_length (od_get_values_perm d k v H)) as Hp. unfold od_values in Hp. simpl in Hp. by rewrite !length_map in Hp. Qed.

(** A row and its file are removed. *)
Lemma evicted_remove ca e :
  ix_wf (ca_index ca) -> od_get (ce_sha256 e) (ca_index ca) = Some e -> may_become (ce_state e) CS_EVICTING = true ->
  ca_disk ca !! ce_sha256 e = None \/ ce_sha256 e ∉ locked ->
  evicted ca {| ca_index := od_del (ce_sha256 e) (ca_index ca); ca_disk := delete (ce_sha256 e) (ca_disk ca) |}
    (ce_size_bytes e).
Proof.
  intros Hw He Hm Hl. split; simpl.
  - intros _. by apply ix_wf_del.
  - rewrite (total_size_del _ _ _ He). lia.
  - intros k e'. rewrite od_get_del by apply Hw. str_case; [done|]. eauto.
  - intros k e0 H0. rewrite od_get_del by apply Hw. str_case; [|congruence]. intros _.
    split_and!; [|by rewrite lookup_delete_eq|done].
    destruct (ce_state _); try done; auto.
  - intros k. destruct (decide (k = ce_sha256 e)) as [->|Hne].
    + right. rewrite lookup_delete_eq, od_get_del_eq by apply Hw. eauto.
    + left. by rewrite lookup_delete_ne.
  - rewrite (od_del_length _ _ _ He). lia.
  - intros Hs. by specialize (Hs _ _ He).
Qed.

(** A row is touched and its state restored. *)
Lemma evicted_touch ca e e' :
  ix_wf (ca_index ca) -> od_get (ce_sha256 e) (ca_index ca) = Some e ->
  ce_sha256 e' = ce_sha256 e -> ce_state e' = ce_state e -> ce_size_bytes e' = ce_size_bytes e ->
  evicted ca {| ca_index := od_set (ce_sha256 e) e' (ca_index ca); ca_disk := ca_disk ca |} 0.
Proof.
  intros Hw He Hn Hs Hz. split; simpl.
  - intros _. destruct Hw as [Hwf Hk]. destruct (Hk _ _ He) as [_ Hl]. by apply ix_wf_set.
  - rewrite (total_size_del _ _ _ He). unfold get_total_size. rewrite (sizes_perm _ _ (od_set_del_perm _ _ _ e' He)).
    unfold sizes. simpl. lia.
  - intros k e0. rewrite od_get_set. str_case; [|eauto]. naive_solver.
  - intros k e0 H0. rewrite od_get_set. str_case; [done|congruence].
  - auto.
  - rewrite od_set_length by eauto. lia.
  - lia.
Qed.

(** What can be evicted now: a valid entry whose file, if any, is not locked. *)
Definition removable (ca : cache) (e : cache_entry) : Prop :=
  may_become (ce_state e) CS_EVICTING = true /\ is_ok (validate_hash (ce_sha256 e)) = true /\
  (ca_disk ca !! ce_sha256 e = None \/ ce_sha256 e ∉ locked).

Lemma od_del_set {V} k (v : V) d : is_Some (od_get k d) -> od_del k (od_set k v d) = od_del k d.
Proof.
  induction d as [|[k1 v1] d IH]; simpl; [by intros [? ?]|].
  destruct (String.eqb_spec k k1) as [->|]; simpl; [by rewrite String.eqb_refl|].
  destruct (String.eqb_spec k k1); [done|]. intros H. by rewrite IH.
Qed.

Lemma validate_hash_lower sha h : validate_hash sha = Ok h -> h = str_lower sha.
Proof. unfold validate_hash. destruct (re_class_exact _ _ _); [|done]. by intros [= <-]. Qed.

(** One candidate of a batch. *)
Lemma evict_batch_cons target e cands n freed p ca :
  ix_wf (ca_index ca) -> od_get (ce_sha256 e) (ca_index ca) = Some e -> freed < target ->
  exists ca1 n1 freed1 p1,
    evict_batch target (e :: cands) n freed p ca = evict_batch target cands n1 freed1 p1 ca1 /\
    evicted ca ca1 (freed1 - freed) /\
    (forall k, k <> ce_sha256 e -> od_get k (ca_index ca1) = od_get k (ca_index ca)) /\
    ((removable ca e /\ p1 = true /\ freed1 = freed + ce_size_bytes e /\
      ca_index ca1 = od_del (ce_sha256 e) (ca_index ca)) \/
     (~ removable ca e /\ p1 = p /\ freed1 = freed /\ ca_disk ca1 = ca_disk ca /\
      length (ca_index ca1) = length (ca_index ca))).
Proof.
  intros Hw He Hlt. destruct Hw as [Hwf Hk]. destruct (Hk _ _ He) as [_ Hlow]. simpl.
  destruct (Z.leb_spec target freed) as [|_]; [lia|]. unfold update_status at 1. rewrite Hlow, He.
  destruct (may_become (ce_state e) CS_EVICTING) eqn:Em.
  2: { exists ca, n, freed, p. split_and!; [done| |done|].
       - replace (freed - freed) with 0 by lia. apply evicted_refl.
       - right. split_and!; [|done..]. unfold removable. intros (? & _). congruence. }
  unfold update_row. rewrite Hlow, He. set (e1 := ce_with_state CS_EVICTING e).
  unfold storage_delete. destruct (validate_hash (ce_sha256 e)) as [h|x] eqn:Ev.
  2: { unfold update_status. rewrite Hlow, od_get_set_eq.
       assert (may_become (ce_state e1) (ce_state e) = true) as -> by (destruct (ce_state e); done).
       unfold touch, update_row. rewrite ?Hlow, ?od_get_set_eq. simpl. rewrite ?Hlow, ?od_get_set_eq.
       rewrite !od_set_twice. eexists _, _, freed, p. split_and!; [done| | |].
       - replace (freed - freed) with 0 by lia. by apply evicted_touch.
       - intros k Hne. simpl. by apply od_get_set_ne.
       - right. simpl. rewrite od_set_length by eauto. split_and!; [|done..].
         intros (_ & Ho & _). by rewrite Ev in Ho. }
  pose proof (validate_hash_lower _ _ Ev) as ->. rewrite Hlow in *.
  destruct (ca_disk ca !! ce_sha256 e) as [data|] eqn:Ed.
  - case_bool_decide as Hl.
    + unfold update_status. rewrite Hlow, od_get_set_eq.
      assert (may_become (ce_state e1) (ce_state e) = true) as -> by (destruct (ce_state e); done).
      unfold touch, update_row. rewrite ?Hlow, ?od_get_set_eq. simpl. rewrite ?Hlow, ?od_get_set_eq.
      rewrite !od_set_twice. eexists _, _, freed, p. split_and!; [done| | |].
      * replace (freed - freed) with 0 by lia. by apply evicted_touch.
      * intros k Hne. simpl. by apply od_get_set_ne.
      * right. simpl. rewrite od_set_length by eauto. split_and!; [|done..].
        intros (_ & _ & [Hx|Hx]); [congruence|done].
    + rewrite od_del_set by eauto.
      eexists _, _, _, true. split_and!; [done| | |].
      * replace (freed + ce_size_bytes e - freed) with (ce_size_bytes e) by lia. by apply evicted_remove; auto.
      * intros k Hne. simpl. by apply od_get_del_ne.
      * left. split_and!; [|done..]. split_and!; [done|by rewrite Ev|auto].
  - rewrite od_del_set by eauto.
    eexists _, _, _, true. split_and!; [done| | |].
    + replace (freed + ce_size_bytes e - freed) with (ce_size_bytes e) by lia.
      pose proof (evicted_remove ca e (conj Hwf Hk) He Em (or_introl Ed)) as Hr. by rewrite (delete_id _ _ Ed) in Hr.
    + intros k Hne. simpl. by apply od_get_del_ne.
    + left. split_and!; [|done..]. split_and!; [done|by rewrite Ev|auto].
Qed.

Lemma evict_batch_spec target cands n freed p ca :
  ix_wf (ca_index ca) -> NoDup (map ce_sha256 cands) ->
  (forall e, e ∈ cands -> od_get (ce_sha256 e) (ca_index ca) = Some e) ->
  exists ca' n' freed' p', evict_batch target cands n freed p ca = (ca', Ok (n', freed', p')) /\
    evicted ca ca' (freed' - freed) /\
    (p = true -> p' = true) /\
    (p' = true -> p = true \/ (length (ca_index ca') < length (ca_index ca))%nat) /\
    (p' = false -> freed' = freed /\ length (ca_index ca') = length (ca_index ca) /\ (freed < target -> forall e, e ∈ cands -> ~ removable ca e)).
Proof.
  revert n freed p ca. induction cands as [|e cands IH]; intros n freed p ca Hw Hnd Hin.
  { exists ca, n, freed, p. simpl. split_and!; [done|by rewrite Z.sub_diag; apply evicted_refl|done|by left|].
    intros _. split_and!; [done..|]. intros _ e He. inversion He. }
  destruct (decide (freed < target)) as [Hlt|Hge].
  2: { exists ca, n, freed, p. simpl. destruct (Z.leb_spec target freed) as [_|]; [|lia].
       split_and!; [done|by rewrite Z.sub_diag; apply evicted_refl|done|by left|]. intros _. split_and!; [done..|]. lia. }
  apply NoDup_cons in Hnd as [Hne Hnd].
  destruct (evict_batch_cons target e cands n freed p ca Hw (Hin e ltac:(left)) Hlt)
    as (ca1 & n1 & f1 & p1 & -> & Hev & Hother & Hcase).
  destruct (IH n1 f1 p1 ca1) as (ca' & n' & f' & p' & -> & Hev' & Hmono & Hp & Hf); [by apply Hev|done| |].
  { intros e' He'. rewrite Hother; [apply Hin; by right|]. intros Heq. apply Hne. rewrite <- Heq.
    by apply (list_elem_of_fmap_2 ce_sha256). }
  exists ca', n', f', p'. split_and!; [done| | | |].
  - replace (f' - freed) with ((f1 - freed) + (f' - f1)) by lia. by eapply evicted_trans.
  - intros ->. apply Hmono. by destruct Hcase as [(_ & -> & _)|(_ & -> & _)].
  - intros Hp'. pose proof (ev_length _ _ _ Hev'). destruct Hcase as [(_ & -> & _ & Hix)|(_ & -> & _ & _ & Hl)].
    + right. rewrite Hix in *. rewrite (od_del_length (ca_index ca) _ _ (Hin e ltac:(left))). lia.
    + destruct (Hp Hp') as [->|]; [by left|right; lia].
  - intros Hp'. destruct (Hf Hp') as (-> & Hl' & Hrem).
    destruct Hcase as [(_ & -> & _ & Hix)|(Hnr & -> & -> & Hd & Hl)].
    { by rewrite (Hmono eq_refl) in Hp'. }
    split_and!; [done|lia|]. intros _ e' [->|He']%elem_of_cons; [done|].
    intros Hr. apply (Hrem Hlt e' He'). unfold removable in *. by rewrite Hd.
Qed.

(** ** The candidates of the index *)

Lemma take_elem {A} n (l : list A) x : x ∈ take n l -> x ∈ l.
Proof. intros H. rewrite <- (take_drop n l). apply elem_of_app. by left. Qed.

Lemma candidates_rows limit ix e :
  ix_wf ix -> e ∈ get_lru_candidates limit ix -> od_get (ce_sha256 e) ix = Some e.
Proof.
  intros Hw He. apply ix_wf_entry; [done|]. unfold get_lru_candidates, lru_order in He.
  apply (isort_elem lru_lt). destruct limit as [n|]; [destruct (0 <? n)|]; [by apply take_elem in He|done..].
Qed.

Lemma values_nodup ix : ix_wf ix -> NoDup (map ce_sha256 (od_values ix)).
Proof.
  intros [Hwf Hk]. replace (map ce_sha256 (od_values ix)) with (od_keys ix); [done|].
  unfold od_keys, od_values. rewrite map_map. apply map_ext_in. intros [k e] Hin%list_elem_of_In.
  apply od_get_elem in Hin; [|done]. simpl. by destruct (Hk _ _ Hin) as [<- _].
Qed.

Lemma candidates_nodup limit ix : ix_wf ix -> NoDup (map ce_sha256 (get_lru_candidates limit ix)).
Proof.
  intros Hw. assert (NoDup (map ce_sha256 (lru_order ix))) as Hn.
  { unfold lru_order. rewrite (Permutation_map ce_sha256 (isort_perm lru_lt (od_values ix))). by apply values_nodup. }
  unfold get_lru_candidates. destruct limit as [n|]; [destruct (0 <? n)|]; try done.
  rewrite <- (take_drop (Z.to_nat n) (lru_order ix)), map_app in Hn. by apply NoDup_app in Hn as [? _].
Qed.

(** Nothing is left to evict among the entries the index offers. *)
Definition exhausted (ca : cache) : Prop :=
  Z.of_nat (length (ca_index ca)) <= batch_size -> forall k e, od_get k (ca_index ca) = Some e -> ~ removable ca e.

Lemma candidates_all ix e :
  ix_wf ix -> Z.of_nat (length ix) <= batch_size -> e ∈ od_values ix -> e ∈ get_lru_candidates (Some batch_size) ix.
Proof.
  intros Hw Hl He. unfold get_lru_candidates. change (0 <? batch_size) with true. cbv iota.
  rewrite take_ge; [by apply isort_elem|].
  unfold lru_order. rewrite isort_length. unfold od_values. rewrite length_map. lia.
Qed.

Lemma exhausted_batch ca ca' :
  ix_wf (ca_index ca) -> evicted ca ca' 0 -> length (ca_index ca') = length (ca_index ca) ->
  (forall e, e ∈ get_lru_candidates (Some batch_size) (ca_index ca) -> ~ removable ca e) -> exhausted ca'.
Proof.
  intros Hw Hev Hl Hnr Hb k e' He' Hr. destruct (ev_kept _ _ _ Hev k e' He') as (e & He & Hs & _).
  pose proof (ev_wf _ _ _ Hev Hw) as Hw'. destruct (proj2 Hw' _ _ He') as [Hk' _], (proj2 Hw _ _ He) as [Hk _].
  apply (Hnr e).
  - apply candidates_all; [done|lia|]. apply od_values_elem; [apply Hw|eauto].
  - unfold removable in *. rewrite Hs, Hk' in Hr. rewrite Hk. destruct Hr as (H1 & H2 & H3). split_and!; [done..|].
    destruct (ev_files _ _ _ Hev k) as [<-|(_ & _ & Hn)]; [done|congruence].
Qed.

Lemma evict_loop_spec fuel target n freed ca :
  ix_wf (ca_index ca) -> (length (ca_index ca) < fuel)%nat ->
  exists ca' freed', evict_loop fuel target n freed ca = Some (ca', Ok freed') /\
    evicted ca ca' (freed' - freed) /\ (freed' < target -> exhausted ca').
Proof.
  revert n freed ca. induction fuel as [|fuel IH]; intros n freed ca Hw Hf; [lia|]. cbn [evict_loop].
  destruct (Z.leb_spec target freed) as [Hle|Hlt].
  { exists ca, freed. split_and!; [done|rewrite Z.sub_diag; apply evicted_refl|lia]. }
  destruct (get_lru_candidates (Some batch_size) (ca_index ca)) as [|c cands] eqn:Ec.
  { exists ca, freed. split_and!; [done|rewrite Z.sub_diag; apply evicted_refl|]. intros _.
    apply (exhausted_batch ca ca); [exact Hw|apply evicted_refl|reflexivity|]. intros e. rewrite Ec. by inversion 1. }
  rewrite <- Ec. destruct (evict_batch_spec target (get_lru_candidates (Some batch_size) (ca_index ca)) n freed false ca)
    as (ca1 & n1 & f1 & p1 & -> & Hev & _ & Hp & Hnp); [done|by apply candidates_nodup|intros; by eapply candidates_rows|].
  destruct p1.
  - destruct (Hp eq_refl) as [|Hlen]; [done|].
    destruct (IH n1 f1 ca1) as (ca' & f' & -> & Hev' & Hrem); [by apply Hev|lia|].
    exists ca', f'. split_and!; [done| |done].
    replace (f' - freed) with ((f1 - freed) + (f' - f1)) by lia. by eapply evicted_trans.
  - destruct (Hnp eq_refl) as (-> & Hl & Hnr). exists ca1, freed. split_and!; [done|done|].
    intros _. eapply exhausted_batch; [done|by rewrite Z.sub_diag in Hev|done|auto].
Qed.

(** [evict_to_free] as a whole: it never raises and never runs out of fuel. *)
Lemma evict_to_free_spec target ca :
  ix_wf (ca_index ca) ->
  exists ca' freed, evict_to_free target ca = (ca', Ok freed) /\ evicted ca ca' freed /\
    (freed < target -> exhausted ca').
Proof.
  intros Hw. unfold evict_to_free. destruct (Z.leb_spec target 0).
  - exists ca, 0. split_and!; [done|apply evicted_refl|lia].
  - destruct (evict_loop_spec (S (length (ca_index ca))) target 0 0 ca Hw) as (ca' & f & -> & Hev & Hr); [lia|].
    exists ca', f. rewrite Z.sub_0_r in Hev. done.
Qed.

(** ** The reference order: oldest first, until enough is freed *)

(** Nothing stands in the way of eviction and no access time is NaN. *)
Definition unobstructed (ix : entries) : Prop :=
  forall k e, od_get k ix = Some e ->
    may_become (ce_state e) CS_EVICTING = true /\ is_ok (validate_hash k) = true /\ (k ∉ locked) /\
    notnan (ce_last_accessed_at e).

Definition drop_rows (l : list cache_entry) (ix : entries) : entries :=
  fold_left (fun ix e => od_del (ce_sha256 e) ix) l ix.

Lemma unobstructed_del k ix : ix_wf ix -> unobstructed ix -> unobstructed (od_del k ix).
Proof. intros [Hwf _] Hu k' e. rewrite od_get_del by done. str_case; [done|]. apply Hu. Qed.

Lemma rows_inj ix x y : ix_wf ix -> x ∈ od_values ix -> y ∈ od_values ix -> ce_sha256 x = ce_sha256 y -> x = y.
Proof.
  intros Hw Hx Hy Heq. apply ix_wf_entry in Hx as [Hx _]; [|done]. apply ix_wf_entry in Hy as [Hy _]; [|done].
  rewrite Heq in Hx. congruence.
Qed.

Lemma unobstructed_notnan ix e : ix_wf ix -> unobstructed ix -> e ∈ od_values ix -> notnan (ce_last_accessed_at e).
Proof. intros Hw Hu He. apply ix_wf_entry in He as [He _]; [|done]. by destruct (Hu _ _ He) as (_ & _ & _ & ?). Qed.

Lemma lru_order_del ix e r :
  ix_wf ix -> unobstructed ix -> lru_order ix = e :: r -> lru_order (od_del (ce_sha256 e) ix) = r.
Proof.
  intros Hw Hu Hl. assert (e ∈ od_values ix) as He by (apply (isort_elem lru_lt); unfold lru_order in Hl; rewrite Hl; left).
  destruct (ix_wf_entry _ _ Hw He) as [Hg _].
  pose proof (ix_wf_del _ (ce_sha256 e) Hw) as Hw'. pose proof (unobstructed_del (ce_sha256 e) _ Hw Hu) as Hu'.
  apply isort_fkey_unique.
  - intros y. by apply unobstructed_notnan.
  - intros x y. by apply rows_inj.
  - pose proof (isort_fkey_sorted ce_last_accessed_at ce_sha256 (od_values ix)) as Hs.
    change (isort _ (od_values ix)) with (lru_order ix) in Hs. rewrite Hl in Hs.
    eapply StronglySorted_inv, Hs. intros y. by apply unobstructed_notnan.
  - apply (Permutation_cons_inv (a := e)). rewrite <- Hl. unfold lru_order. rewrite isort_perm.
    symmetry. by apply od_get_values_perm.
Qed.

Lemma drop_rows_order ix p r :
  ix_wf ix -> unobstructed ix -> lru_order ix = p ++ r ->
  lru_order (drop_rows p ix) = r /\ ix_wf (drop_rows p ix) /\ unobstructed (drop_rows p ix).
Proof.
  revert ix. induction p as [|e p IH]; intros ix Hw Hu Hl; simpl; [done|].
  apply IH; [by apply ix_wf_del|by apply unobstructed_del|by apply (lru_order_del ix e (p ++ r))].
Qed.

(** The shortest prefix that frees the target, or everything. *)
Definition shortest (target freed : Z) (l : list cache_entry) (k : nat) : Prop :=
  (k <= length l)%nat /\ (target <= freed + sizes (take k l) \/ k = length l) /\
  forall j, (j < k)%nat -> freed + sizes (take j l) < target.

Lemma sizes_cons e l : sizes (e :: l) = ce_size_bytes e + sizes l. Proof. done. Qed.

Lemma evict_batch_prefix target cands n freed p ca :
  ix_wf (ca_index ca) -> unobstructed (ca_index ca) -> NoDup (map ce_sha256 cands) ->
  (forall e, e ∈ cands -> od_get (ce_sha256 e) (ca_index ca) = Some e) ->
  exists ca' n' k, evict_batch target cands n freed p ca = (ca', Ok (n', freed + sizes (take k cands), p || (0 <? k)%nat)) /\
    ca_index ca' = drop_rows (take k cands) (ca_index ca) /\ shortest target freed cands k.
Proof.
  revert n freed p ca. induction cands as [|e cands IH]; intros n freed p ca Hw Hu Hnd Hin.
  { exists ca, n, 0%nat. simpl. rewrite Z.add_0_r, orb_false_r. split_and!; [done..|].
    split_and!; [simpl; lia|by right|lia]. }
  destruct (decide (freed < target)) as [Hlt|Hge].
  2: { exists ca, n, 0%nat. simpl. destruct (Z.leb_spec target freed) as [_|]; [|lia].
       rewrite Z.add_0_r, orb_false_r. split_and!; [done..|]. split_and!; [lia|left; change (sizes (take 0 (e :: cands))) with 0; lia|lia]. }
  apply NoDup_cons in Hnd as [Hne Hnd].
  destruct (evict_batch_cons target e cands n freed p ca Hw (Hin e ltac:(left)) Hlt)
    as (ca1 & n1 & f1 & p1 & -> & Hev & Hother & Hcase).
  assert (removable ca e) as Hr.
  { destruct (Hu _ _ (Hin e ltac:(left))) as (H1 & H2 & H3 & _). split_and!; auto. }
  destruct Hcase as [(_ & -> & -> & Hix)|(Hnr & _)]; [|done].
  destruct (IH n1 (freed + ce_size_bytes e) true ca1) as (ca' & n' & k & -> & Hix' & Hk & Hend & Hmin).
  - by apply Hev.
  - rewrite Hix. by apply unobstructed_del.
  - done.
  - intros e' He'. rewrite Hother; [apply Hin; by right|]. intros Heq. apply Hne. rewrite <- Heq.
    by apply (list_elem_of_fmap_2 ce_sha256).
  - exists ca', n', (S k). cbn [take]. rewrite sizes_cons. split_and!.
    + by rewrite Z.add_assoc, orb_true_r.
    + by rewrite Hix', Hix.
    + split_and!; [simpl; lia| |].
      * destruct Hend as [He|He]; [left|right]; cbn [take length]; [rewrite sizes_cons; lia|lia].
      * intros [|j] Hj; cbn [take]; [change (sizes []) with 0; lia|]. rewrite sizes_cons. specialize (Hmin j). lia.
Qed.

Lemma sizes_app l l' : sizes (l ++ l') = sizes l + sizes l'.
Proof. unfold sizes. by rewrite map_app, sumZ_app. Qed.

Lemma shortest_app target freed l l' k :
  freed + sizes l < target -> shortest target (freed + sizes l) l' k ->
  (forall j, (j < length l)%nat -> freed + sizes (take j l) < target) ->
  shortest target freed (l ++ l') (length l + k).
Proof.
  intros Hlt (Hk & Hend & Hmin) Hl. split_and!.
  - rewrite length_app. lia.
  - rewrite take_app_add, sizes_app, length_app. destruct Hend; [left|right]; lia.
  - intros j Hj. destruct (decide (j < length l)%nat) as [Hj'|Hj'].
    + rewrite take_app_le by lia. by apply Hl.
    + replace j with (length l + (j - length l))%nat by lia. rewrite take_app_add, sizes_app.
      specialize (Hmin (j - length l)%nat). lia.
Qed.

Lemma evict_loop_prefix fuel target n freed ca :
  ix_wf (ca_index ca) -> unobstructed (ca_index ca) -> (length (ca_index ca) < fuel)%nat ->
  exists ca' k, evict_loop fuel target n freed ca = Some (ca', Ok (freed + sizes (take k (lru_order (ca_index ca))))) /\
    ca_index ca' = drop_rows (take k (lru_order (ca_index ca))) (ca_index ca) /\
    shortest target freed (lru_order (ca_index ca)) k.
Proof.
  revert n freed ca. induction fuel as [|fuel IH]; intros n freed ca Hw Hu Hf; [lia|]. cbn [evict_loop].
  set (L := lru_order (ca_index ca)).
  destruct (Z.leb_spec target freed) as [Hle|Hlt].
  { exists ca, 0%nat. simpl. rewrite Z.add_0_r. split_and!; [done..|]. split_and!; [lia|left; change (sizes (take 0 L)) with 0; lia|lia]. }
  set (cands := get_lru_candidates (Some batch_size) (ca_index ca)).
  assert (cands = take 100 L) as Ec by done.
  destruct L as [|c L0] eqn:EL.
  { rewrite Ec. simpl. exists ca, 0%nat. simpl. rewrite Z.add_0_r. split_and!; [done..|]. split_and!; [simpl; lia|by right|lia]. }
  rewrite <- EL in *. destruct cands as [|c' cs] eqn:Ecs; [by rewrite EL in Ec|]. rewrite <- Ecs in *.
  destruct (evict_batch_prefix target cands n freed false ca Hw Hu)
    as (ca1 & n1 & k1 & -> & Hix & Hk1 & Hend & Hmin);
    [by apply candidates_nodup|intros; by eapply candidates_rows|].
  assert (0 < k1)%nat as Hpos.
  { destruct k1; [|lia]. exfalso. destruct Hend as [Hend|Hend]; [change (sizes (take 0 cands)) with 0 in Hend; lia|]. by rewrite Ecs in Hend. }
  destruct (Nat.ltb_spec 0 k1) as [_|]; [|lia]. simpl.
  assert (take k1 cands = take k1 L) as Etk.
  { rewrite Ec, take_take. f_equal. rewrite Ec, length_take in Hk1. lia. }
  assert (L = take k1 L ++ drop k1 L) as Hsplit by (symmetry; apply take_drop).
  assert (k1 <= length L)%nat as Hk1L by (rewrite Ec, length_take in Hk1; lia).
  destruct (drop_rows_order (ca_index ca) _ _ Hw Hu Hsplit) as (Ho & Hw1 & Hu1).
  rewrite Etk in *. rewrite <- Hix in Ho, Hw1, Hu1.
  destruct (IH n1 (freed + sizes (take k1 L)) ca1 Hw1 Hu1) as (ca' & k2 & -> & Hix' & Hs).
  { assert (length (lru_order (ca_index ca1)) = length (ca_index ca1)) as Hl1
      by (unfold lru_order, od_values; by rewrite isort_length, length_map).
    assert (length L = length (ca_index ca)) as Hl by (unfold L, lru_order, od_values; by rewrite isort_length, length_map).
    rewrite Ho, length_drop in Hl1. lia. }
  rewrite Ho in *. exists ca', (k1 + k2)%nat.
  assert (take (k1 + k2) L = take k1 L ++ take k2 (drop k1 L)) as Etake by (by rewrite take_take_drop).
  rewrite Etake, sizes_app, Z.add_assoc. split_and!; [done| |].
  - unfold drop_rows. rewrite fold_left_app. fold (drop_rows (take k1 L) (ca_index ca)). by rewrite <- Hix, Hix'.
  - destruct (decide (target <= freed + sizes (take k1 L))) as [Hge|Hlt1].
    + assert (k2 = 0%nat) as ->.
      { destruct k2; [done|]. destruct Hs as (_ & _ & Hm). specialize (Hm 0%nat ltac:(lia)).
        change (sizes (take 0 (drop k1 L))) with 0 in Hm. lia. }
      rewrite Nat.add_0_r. split_and!; [done|by left|]. intros j Hj. specialize (Hmin j Hj).
      rewrite Ec, take_take in Hmin. replace (j `min` 100)%nat with j in Hmin; [done|]. rewrite Ec, length_take in Hk1. lia.
    + rewrite Hsplit at 1. replace k1 with (length (take k1 L)) at 3 by (rewrite length_take; lia).
      apply shortest_app; [lia|done|]. intros j Hj. rewrite length_take in Hj. rewrite take_take.
      replace (j `min` k1)%nat with j by lia. specialize (Hmin j ltac:(lia)).
      rewrite Ec, take_take in Hmin. replace (j `min` 100)%nat with j in Hmin; [done|]. rewrite Ec, length_take in Hk1. lia.
Qed.

(** Eviction is least recently used first, and accounts for every byte.
    On a well-formed index the call ends without raising; the bytes reported are
    exactly the bytes removed; only VALID (or already EVICTING) entries go, with
    their files, and no other row or file changes apart from access updates; if
    less than the target was freed, then (with at most a batch of entries left)
    nothing evictable is left.  When no entry is busy or locked, what goes is
    exactly the shortest prefix of the least-recently-used order that frees the
    target, and the remaining order is the rest. *)
Theorem evict_to_free_correct target ca :
  ix_wf (ca_index ca) ->
  exists ca' freed, evict_to_free target ca = (ca', Ok freed) /\ evicted ca ca' freed /\
    (freed < target -> exhausted ca') /\
    (unobstructed (ca_index ca) -> 0 < target ->
     exists k, shortest target 0 (lru_order (ca_index ca)) k /\
       freed = sizes (take k (lru_order (ca_index ca))) /\
       lru_order (ca_index ca') = drop k (lru_order (ca_index ca))).
Proof.
  intros Hw. destruct (evict_to_free_spec target ca Hw) as (ca' & freed & He & Hev & Hex).
  exists ca', freed. split_and!; [done..|]. intros Hu Ht. unfold evict_to_free in He.
  destruct (Z.leb_spec target 0); [lia|].
  destruct (evict_loop_prefix (S (length (ca_index ca))) target 0 0 ca Hw Hu) as (ca1 & k & Hl & Hix & Hs); [lia|].
  rewrite Hl in He. simpl in He. injection He as <- Hfreed. exists k. split_and!; [done|lia|].
  rewrite Hix. apply (drop_rows_order (ca_index ca) (take k (lru_order (ca_index ca)))); [done..|].
  symmetry. apply take_drop.
Qed.

Lemma enforce_quota_cases quota incoming ca :
  ix_wf (ca_index ca) ->
  let '(ca', r) := enforce_quota quota incoming ca in
  exists freed, evicted ca ca' freed /\
  match r with
  | Ok n => n = freed /\ (forall max, quota = Some max -> 0 < max -> get_total_size (ca_index ca') + incoming <= max)
  | Err x => x = CacheQuotaExceededError /\ exists max, quota = Some max /\ 0 < max /\
      (max < get_total_size (ca_index ca') + incoming \/ (max < incoming /\ ca' = ca))
  end.
Proof.
  intros Hw. unfold enforce_quota. destruct quota as [max|]; [|exists 0; split; [apply evicted_refl|done]].
  destruct (Z.leb_spec max 0); [exists 0; split; [apply evicted_refl|split; [done|intros ? [= <-]; lia]]|].
  destruct (Z.ltb_spec max incoming) as [Hmi|Hmi].
  { exists 0. split; [apply evicted_refl|]. split; [done|]. exists max. split_and!; [done|done|by right]. }
  destruct (Z.leb_spec (get_total_size (ca_index ca) + incoming) max).
  { exists 0. split; [apply evicted_refl|]. split; [done|]. by intros ? [= <-]. }
  destruct (evict_to_free_spec (get_total_size (ca_index ca) + incoming - max) ca Hw) as (ca' & freed & -> & Hev & _).
  destruct (Z.ltb_spec max (get_total_size (ca_index ca') + incoming)); exists freed; (split; [done|]).
  - split; [done|]. exists max. split_and!; [done|done|by left].
  - split; [done|]. by intros ? [= <-].
Qed.
End eviction.

(** ** Witness: the two oldest of three entries make room *)

Definition digest_of (c : ascii) : string := string_of_list_ascii (repeat c 64).
Definition sample_index : entries :=
  put_entry (sample_entry (digest_of "c") 30 (f_of_Z 3) CS_VALID)
    (put_entry (sample_entry (digest_of "a") 10 f1 CS_VALID)
      (put_entry (sample_entry (digest_of "b") 20 (f_of_Z 2) CS_VALID) [])).
Definition sample_cache : cache :=
  {| ca_index := sample_index; ca_disk := {[digest_of "a" := "aaaaaaaaaa"]} |}.

Lemma sample_index_wf : ix_wf sample_index.
Proof. unfold sample_index. repeat apply ix_wf_put. split; [apply od_wf_nil|done]. Defined.

Lemma sample_unobstructed : unobstructed ∅ sample_index.
Proof.
  intros k e He. apply od_get_Some_elem in He. unfold sample_index in He.
  repeat (apply elem_of_cons in He as [He|He];
    [injection He as -> ->; split_and!; [reflexivity|vm_compute; reflexivity|apply not_elem_of_empty|discriminate]|]).
  inversion He.
Defined.

Lemma evict_to_free_witness :
  exists ca', evict_to_free ∅ (fun _ => f1) 25 sample_cache = (ca', Ok 30) /\
    lru_order (ca_index ca') = [sample_entry (digest_of "c") 30 (f_of_Z 3) CS_VALID].
Proof.
  destruct (evict_to_free_correct ∅ (fun _ => f1) 25 sample_cache sample_index_wf)
    as (ca' & freed & He & _ & _ & Hl).
  destruct (Hl sample_unobstructed ltac:(lia)) as (k & _ & _ & Ho).
  assert (freed = 30) as -> by (apply (f_equal snd) in He; vm_compute in He; injection He as <-; reflexivity).
  exists ca'. split; [exact He|].
  assert (ca' = fst (evict_to_free ∅ (fun _ => f1) 25 sample_cache)) as -> by (rewrite He; reflexivity).
  vm_compute. reflexivity.
Defined.
