(* ===== verification/CacheStore.v ===== *)
(** * Integrity verifier and disk cache store ([cache/verifier.py], [cache/store.py])

    Every operation that writes runs under the process lock, so an operation is
    one step.  [now] is its clock reading, [clock] those of the accesses an
    eviction updates, [locked] the files that cannot be deleted meanwhile.  The
    report of [verify_all] keeps its lists in the order of the entries; the
    sets [reconcile] walks are taken in the order of their [elements]. *)
From S2P Require Export Eviction.

(** ** [IntegrityVerifier] *)

Section store.
Variable quota : option Z.
Variable locked : gset string.
Variable clock : nat -> float.
Variable now : float.

Definition set_status (sha : string) (st : cache_state) (ca : cache) : cache * res bool :=
  let '(ix, r) := update_status sha st (ca_index ca) in ({| ca_index := ix; ca_disk := ca_disk ca |}, r).
Definition drop_row (sha : string) (ca : cache) : cache := on_index (fun ix => fst (remove_entry sha ix)) ca.
(** [storage.delete], its failure ignored. *)
Definition try_delete (sha : string) (ca : cache) : cache :=
  {| ca_index := ca_index ca; ca_disk := fst (storage_delete locked sha (ca_disk ca)) |}.

(** What a failed check does: [gone] when there is no file to delete. *)
Definition reject (auto_evict gone : bool) (sha : string) (ca : cache) : cache * res bool :=
  if auto_evict then (drop_row sha (if gone then ca else try_delete sha ca), Ok false)
  else
    match set_status sha (if gone then CS_ABSENT else CS_CORRUPTED) ca with
    | (ca', Ok _) => (ca', Ok false)
    | (ca', Err x) => (ca', Err x)
    end.

(** Size and, for a deep check, digest of the file. *)
Definition content_ok (deep_check : bool) (sha : string) (size : Z) (data : string) : bool :=
  (bytes_len data =? size) && (negb deep_check || String.eqb (sha256 data) sha).

Definition verify_entry_locked (sha : string) (deep_check auto_evict : bool) (ca : cache) : cache * res bool :=
  let norm := str_lower sha in
  match od_get norm (ca_index ca) with
  | None => (ca, Ok false)
  | Some e =>
      match set_status norm CS_VERIFYING ca with
      | (ca, Err x) => (ca, Err x)
      | (ca, Ok _) =>
          if negb (storage_exists norm (ca_disk ca)) then reject auto_evict true norm ca
          else
            match ca_disk ca !! norm with
            | None => reject auto_evict true norm ca
            | Some data =>
                if content_ok deep_check norm (ce_size_bytes e) data then set_status norm CS_VALID ca
                else reject auto_evict false norm ca
            end
      end
  end.

Record verification_report := {
  vr_verified_count : Z;
  vr_corrupted_hashes : list string;
  vr_missing_hashes : list string;
}.
Definition is_healthy (r : verification_report) : bool :=
  match vr_corrupted_hashes r, vr_missing_hashes r with [], [] => true | _, _ => false end.

(** The loop of [verify_all] over the entries read at its start. *)
Fixpoint verify_loop (deep_check auto_evict : bool) (l : list cache_entry) (r : verification_report) (ca : cache)
  : cache * res verification_report :=
  match l with
  | [] => (ca, Ok r)
  | e :: l =>
      let sha := ce_sha256 e in
      if negb (storage_exists sha (ca_disk ca)) then
        let r' := {| vr_verified_count := vr_verified_count r; vr_corrupted_hashes := vr_corrupted_hashes r;
                     vr_missing_hashes := vr_missing_hashes r ++ [sha] |} in
        match reject auto_evict true sha ca with
        | (ca', Ok _) => verify_loop deep_check auto_evict l r' ca'
        | (ca', Err x) => (ca', Err x)
        end
      else if match ca_disk ca !! sha with
              | Some data => content_ok deep_check sha (ce_size_bytes e) data | None => false end then
        let r' := {| vr_verified_count := vr_verified_count r + 1; vr_corrupted_hashes := vr_corrupted_hashes r;
                     vr_missing_hashes := vr_missing_hashes r |} in
        match set_status sha CS_VALID ca with
        | (ca', Ok _) => verify_loop deep_check auto_evict l r' ca'
        | (ca', Err x) => (ca', Err x)
        end
      else
        let r' := {| vr_verified_count := vr_verified_count r; vr_corrupted_hashes := vr_corrupted_hashes r ++ [sha];
                     vr_missing_hashes := vr_missing_hashes r |} in
        match reject auto_evict false sha ca with
        | (ca', Ok _) => verify_loop deep_check auto_evict l r' ca'
        | (ca', Err x) => (ca', Err x)
        end
  end.
Definition verify_all (deep_check auto_evict : bool) (ca : cache) : cache * res verification_report :=
  verify_loop deep_check auto_evict (get_all_entries (ca_index ca))
    {| vr_verified_count := 0; vr_corrupted_hashes := []; vr_missing_hashes := [] |} ca.

(** ** [DiskCacheStore] *)

Definition is_cache_valid (sha : string) (ca : cache) : res bool :=
  let! norm := validate_hash sha in
  match get_entry norm (ca_index ca) with
  | None => Ok false
  | Some e =>
      if negb (bool_decide (ce_state e = CS_VALID)) then Ok false
      else if negb (storage_exists norm (ca_disk ca)) then Ok false
      else let! size := storage_size norm (ca_disk ca) in Ok (size =? ce_size_bytes e)
  end.

Definition touched (sha : string) (ca : cache) : cache := on_index (fun ix => fst (touch sha now ix)) ca.

Definition get_bytes (sha : string) (ca : cache) : cache * res (option string) :=
  match (let! norm := validate_hash sha in let! ok := is_cache_valid norm ca in Ok (norm, ok)) with
  | Err x => (ca, Err x)
  | Ok (_, false) => (ca, Ok None)
  | Ok (norm, true) => (touched norm ca, let! data := read_bytes norm (ca_disk ca) in Ok (Some data))
  end.
Definition get_path (sha : string) (ca : cache) : cache * res (option string) :=
  match (let! norm := validate_hash sha in let! ok := is_cache_valid norm ca in Ok (norm, ok)) with
  | Err x => (ca, Err x)
  | Ok (_, false) => (ca, Ok None)
  | Ok (norm, true) => (touched norm ca, let! p := relative_path norm in Ok (Some p))
  end.
(** The whole stream. *)
Definition get_stream (sha : string) (ca : cache) : cache * res string :=
  match get_bytes sha ca with
  | (ca', Err x) => (ca', Err x)
  | (ca', Ok None) => (ca', Err CacheEntryNotFoundError)
  | (ca', Ok (Some data)) => (ca', Ok data)
  end.

(** What a caller says of the content it stores. *)
Record put_info := { pi_original_name : string; pi_asset_type : string; pi_source_path : string; pi_metadata : odict json }.

Definition new_entry (info : put_info) (sha rel : string) (size : Z) : cache_entry :=
  {| ce_sha256 := sha; ce_size_bytes := size; ce_asset_type := pi_asset_type info;
     ce_original_name := pi_original_name info; ce_source_path := pi_source_path info; ce_created_at := now;
     ce_last_accessed_at := now; ce_access_count := 1; ce_state := CS_VALID; ce_relative_path := rel;
     ce_metadata := pi_metadata info |}.

(** [index.touch], then [index.get] of a duplicate. *)
Definition duplicate (sha : string) (ca : cache) : cache * res cache_entry :=
  let ca' := touched sha ca in
  (ca', match get_entry sha (ca_index ca') with Some e => Ok e | None => Err (KeyError sha) end).

(** The rename and the insertion of the row. *)
Definition store_object (info : put_info) (data sha : string) (size : Z) (ca : cache) : cache * res cache_entry :=
  match relative_path sha with
  | Err x => (ca, Err x)
  | Ok rel =>
      let e := new_entry info sha rel size in
      ({| ca_index := put_entry e (ca_index ca); ca_disk := commit_stream data sha (ca_disk ca) |}, Ok e)
  end.

(** [on_validated], then the rename and the row: duplicate, quota, store. *)
Definition admit_object (info : put_info) (data sha : string) (size : Z) (ca : cache) : cache * res cache_entry :=
  match is_cache_valid sha ca with
  | Err x => (ca, Err x)
  | Ok true => duplicate sha ca
  | Ok false =>
      match enforce_quota locked clock quota size ca with
      | (ca', Err x) => (ca', Err x)
      | (ca', Ok _) => store_object info data sha size ca'
      end
  end.

Definition put_bytes (info : put_info) (data : string) (sha : option string) (ca : cache) : cache * res cache_entry :=
  let actual := sha256 data in
  match (match sha with
         | Some s => let! norm := validate_hash s in if String.eqb actual norm then Ok tt else Err HashMismatchError
         | None => Ok tt
         end) with
  | Err x => (ca, Err x)
  | Ok _ => admit_object info data actual (bytes_len data) ca
  end.

(** The caller's digest already names a valid entry. *)
Definition known_duplicate (sha : option string) (ca : cache) : res (option string) :=
  match sha with
  | Some s => if str_truthy s then let! ok := is_cache_valid s ca in Ok (if ok then Some s else None) else Ok None
  | None => Ok None
  end.

(** [put_stream]; [put_file] when [max_bytes] is [None] and the size is the file's. *)
Definition put_staged (info : put_info) (data : string) (size max_bytes : option Z) (sha : option string) (ca : cache)
  : cache * res cache_entry :=
  match known_duplicate sha ca with
  | Err x => (ca, Err x)
  | Ok (Some s) => duplicate s ca
  | Ok None =>
      match stage_stream data sha size max_bytes with
      | Err x => (ca, Err x)
      | Ok (n, computed) => admit_object info data computed n ca
      end
  end.
Definition put_stream (info : put_info) (data : string) (size : option Z) (sha : option string) (ca : cache)
  : cache * res cache_entry := put_staged info data size quota sha ca.
(** [None]: the path is not a file. *)
Definition put_file (info : put_info) (file : option string) (sha : option string) (ca : cache) : cache * res cache_entry :=
  match file with
  | None => (ca, Err CacheStorageError)
  | Some data => put_staged info data (Some (bytes_len data)) None sha ca
  end.

Definition remove (sha : string) (ca : cache) : cache * res bool :=
  match validate_hash sha with
  | Err x => (ca, Err x)
  | Ok norm =>
      match storage_delete locked norm (ca_disk ca) with
      | (d, Err x) => ({| ca_index := ca_index ca; ca_disk := d |}, Err x)
      | (d, Ok on_disk) =>
          let '(ix, in_index) := remove_entry norm (ca_index ca) in
          ({| ca_index := ix; ca_disk := d |}, Ok (on_disk || in_index))
      end
  end.

Definition evict_lru (target : Z) (ca : cache) : cache * res Z := evict_to_free locked clock target ca.

(** [DiskCacheStore.resolve_hashes]: a hash counts as cached when its row is
    valid and its file has the row's size. *)
Definition physically_valid (h : string) (ca : cache) : bool :=
  match od_get h (ca_index ca) with
  | Some e => bool_decide (ce_state e = CS_VALID) && storage_exists h (ca_disk ca)
              && match storage_size h (ca_disk ca) with Ok n => n =? ce_size_bytes e | Err _ => false end
  | None => false
  end.
Definition resolve_in_store (required : list string) (hash_sizes : odict Z) (ca : cache) : resolution_result :=
  let cached := List.filter (fun h => physically_valid h ca) (map str_lower required) in
  let given := fold_left (fun d '(h, n) => od_set (str_lower h) n d) hash_sizes [] in
  let sizes := fold_left (fun d h => match od_get h (ca_index ca) with
                                     | Some e => od_set h (ce_size_bytes e) d | None => d end) cached given in
  resolve_hashes (map str_lower required) cached sizes.

(** ** [reconcile] *)

Definition remove_rows (hashes : list string) (ca : cache) : cache :=
  fold_left (fun ca h => drop_row h ca) hashes ca.

(** Orphans are deleted one by one; a failing deletion raises. *)
Fixpoint delete_orphans (hashes : list string) (ca : cache) : cache * res Z :=
  match hashes with
  | [] => (ca, Ok 0)
  | h :: hashes =>
      match storage_delete locked h (ca_disk ca) with
      | (d, Err x) => ({| ca_index := ca_index ca; ca_disk := d |}, Err x)
      | (d, Ok _) =>
          match delete_orphans hashes {| ca_index := ca_index ca; ca_disk := d |} with
          | (ca', Ok n) => (ca', Ok (n + 1))
          | (ca', Err x) => (ca', Err x)
          end
      end
  end.

(** The row and the file of an entry that failed the full check. *)
Definition purge (h : string) (ca : cache) : cache * res bool :=
  let ca := drop_row h ca in
  let '(d, r) := storage_delete locked h (ca_disk ca) in ({| ca_index := ca_index ca; ca_disk := d |}, r).

Fixpoint full_check (l : list cache_entry) (dangling : gset string) (corrupted verified : Z) (ca : cache)
  : cache * res (Z * Z) :=
  match l with
  | [] => (ca, Ok (corrupted, verified))
  | e :: l =>
      let h := ce_sha256 e in
      if bool_decide (h ∈ dangling) then full_check l dangling corrupted verified ca
      else
        match storage_size h (ca_disk ca) with
        | Err x => (ca, Err x)
        | Ok size =>
            let '(ca1, ok) :=
              if negb (size =? ce_size_bytes e) then (ca, false)
              else match verify_entry_locked h true false ca with (ca1, Ok b) => (ca1, b) | (ca1, Err _) => (ca1, false) end in
            if ok then full_check l dangling corrupted (verified + 1) ca1
            else
              match purge h ca1 with
              | (ca2, Err x) => (ca2, Err x)
              | (ca2, Ok _) => full_check l dangling (corrupted + 1) verified ca2
              end
        end
  end.

Record reconcile_report := { rc_dangling : Z; rc_orphans : Z; rc_corrupted : Z; rc_verified : Z }.

Definition reconcile (verify_hashes : bool) (ca : cache) : cache * res reconcile_report :=
  let indexed := get_all_entries (ca_index ca) in
  let indexed_hashes := list_to_set (map ce_sha256 indexed) : gset string in
  let physical := storage_hashes (ca_disk ca) in
  let dangling := indexed_hashes ∖ physical in
  let ca1 := remove_rows (elements dangling) ca in
  match delete_orphans (elements (physical ∖ indexed_hashes)) ca1 with
  | (ca2, Err x) => (ca2, Err x)
  | (ca2, Ok n) =>
      match (if verify_hashes then full_check indexed dangling 0 0 ca2 else (ca2, Ok (0, 0))) with
      | (ca3, Err x) => (ca3, Err x)
      | (ca3, Ok (c, v)) =>
          (ca3, Ok {| rc_dangling := Z.of_nat (size dangling); rc_orphans := n; rc_corrupted := c; rc_verified := v |})
      end
  end.
End store.

Record cache_stats := { st_total_entries : Z; st_total_size_bytes : Z; st_utilization_percent : float }.
Definition get_stats (quota : option Z) (ca : cache) : cache_stats :=
  let total := get_total_size (ca_index ca) in
  {| st_total_entries := get_count (ca_index ca); st_total_size_bytes := total;
     st_utilization_percent :=
       match quota with
       | Some q => if 0 <? q then f_round (fmul (fdivZ total q) (f_of_Z 100)) 2 else f0
       | None => f0
       end |}.
