(* ===== verification/CacheProps.v ===== *)
(** * What the disk cache guarantees

    The invariant of the store after any history of operations, the round trip
    of stored content, and what verification decides. *)
From S2P Require Export CacheStore.

(** ** The invariant *)

Record cache_inv (ca : cache) : Prop := {
  ci_wf : ix_wf (ca_index ca);
  ci_sizes : forall k e, od_get k (ca_index ca) = Some e -> 0 <= ce_size_bytes e;
  ci_content : forall h data, ca_disk ca !! h = Some data -> sha256 data = h;
}.
Definition total (ca : cache) : Z := get_total_size (ca_index ca).

(** An operation that keeps the invariant and stores nothing. *)
Definition keeps (ca ca' : cache) : Prop := cache_inv ca -> cache_inv ca' /\ total ca' <= total ca.

Lemma keeps_refl ca : keeps ca ca. Proof. by split. Qed.
Lemma keeps_trans ca1 ca2 ca3 : keeps ca1 ca2 -> keeps ca2 ca3 -> keeps ca1 ca3.
Proof. intros H1 H2 Hi. destruct (H1 Hi) as [Hi2 L1]. destruct (H2 Hi2) as [Hi3 L2]. split; [done|lia]. Qed.
#[export] Hint Resolve keeps_refl : cache.

Lemma keeps_update ca sha f :
  (forall e, ce_sha256 (f e) = ce_sha256 e /\ ce_size_bytes (f e) = ce_size_bytes e) ->
  keeps ca (on_index (update_row sha f) ca).
Proof.
  intros Hf [Hw Hs Hc]. split; [split; simpl|].
  - apply ix_wf_update; [done|]. intros e. apply Hf.
  - intros k e. unfold update_row. destruct (od_get (str_lower sha) (ca_index ca)) as [e0|] eqn:E; [|apply Hs].
    rewrite od_get_set. str_case; [|apply Hs]. intros [= <-]. destruct (Hf e0) as [_ ->]. by apply (Hs _ _ E).
  - done.
  - unfold total. simpl. rewrite total_size_update; [lia|]. intros e. apply Hf.
Qed.

Lemma od_del_missing {V} k (d : odict V) : od_get k d = None -> od_del k d = d.
Proof.
  induction d as [|[k1 v1] d IH]; simpl; [done|]. destruct (String.eqb k k1); [done|]. intros H. by rewrite IH.
Qed.

Lemma keeps_del ca k d :
  (forall h data, d !! h = Some data -> ca_disk ca !! h = Some data) ->
  keeps ca {| ca_index := od_del k (ca_index ca); ca_disk := d |}.
Proof.
  intros Hd [Hw Hs Hc]. split; [split; simpl|].
  - by apply ix_wf_del.
  - intros k' e. rewrite od_get_del by apply Hw. str_case; [done|]. apply Hs.
  - eauto.
  - unfold total. simpl. destruct (od_get k (ca_index ca)) as [e|] eqn:E.
    + rewrite (total_size_del _ _ _ E). specialize (Hs _ _ E). lia.
    + by rewrite od_del_missing.
Qed.

Lemma keeps_disk ca d :
  (forall h data, d !! h = Some data -> ca_disk ca !! h = Some data) ->
  keeps ca {| ca_index := ca_index ca; ca_disk := d |}.
Proof. intros Hd [Hw Hs Hc]. split; [split; simpl; eauto|done]. Qed.

Lemma storage_delete_sub locked sha d h data :
  fst (storage_delete locked sha d) !! h = Some data -> d !! h = Some data.
Proof.
  pose proof (storage_delete_cases locked sha d) as Hc. destruct (storage_delete locked sha d) as [d' [b|x]]; simpl.
  - destruct Hc as (k & _ & -> & _). rewrite lookup_delete_Some. tauto.
  - by subst.
Qed.

Lemma keeps_evicted locked ca ca' b : evicted locked ca ca' b -> keeps ca ca'.
Proof.
  intros [W B K G F L N] [Hw Hs Hc]. split; [split|].
  - auto.
  - intros k e' He'. destruct (K k e' He') as (e & He & _ & ->). eauto.
  - intros h data. destruct (F h) as [->|(-> & _)]; [apply Hc|done].
  - unfold total. specialize (N Hs). lia.
Qed.

Section steps.
Variable quota : option Z.
Variable locked : gset string.
Variable clock : nat -> float.
Variable now : float.

Lemma keeps_status ca sha st : keeps ca (fst (set_status sha st ca)).
Proof.
  unfold set_status, update_status.
  destruct (od_get (str_lower sha) (ca_index ca)) as [e|]; simpl; [|destruct ca; apply keeps_refl].
  destruct (may_become _ _); simpl; [|destruct ca; apply keeps_refl]. apply (keeps_update ca sha (ce_with_state st)). done.
Qed.
Lemma keeps_drop ca sha : keeps ca (drop_row sha ca).
Proof. by apply keeps_del. Qed.
Lemma keeps_try_delete ca sha : keeps ca (try_delete locked sha ca).
Proof. apply keeps_disk. intros h data. apply storage_delete_sub. Qed.
Lemma keeps_touched ca sha : keeps ca (touched now sha ca).
Proof. apply (keeps_update ca sha (ce_touched now)). done. Qed.

Lemma keeps_reject auto gone sha ca : keeps ca (fst (reject locked auto gone sha ca)).
Proof.
  unfold reject. destruct auto; simpl.
  - destruct gone; [apply keeps_drop|]. eapply keeps_trans; [apply keeps_try_delete|apply keeps_drop].
  - pose proof (keeps_status ca sha (if gone then CS_ABSENT else CS_CORRUPTED)) as H.
    destruct (set_status _ _ _) as [ca' [b|x]]; exact H.
Qed.

Lemma keeps_verify sha deep auto ca : keeps ca (fst (verify_entry_locked locked sha deep auto ca)).
Proof.
  unfold verify_entry_locked. destruct (od_get (str_lower sha) (ca_index ca)) as [e|]; [|apply keeps_refl].
  pose proof (keeps_status ca (str_lower sha) CS_VERIFYING) as H.
  destruct (set_status _ CS_VERIFYING ca) as [ca1 [b|x]]; [|exact H]. simpl in H. eapply keeps_trans; [exact H|].
  destruct (storage_exists _ _); simpl; [|apply keeps_reject].
  destruct (ca_disk ca1 !! _) as [data|]; [|apply keeps_reject].
  destruct (content_ok _ _ _ _); [apply keeps_status|apply keeps_reject].
Qed.

Lemma keeps_verify_loop deep auto l r ca : keeps ca (fst (verify_loop locked deep auto l r ca)).
Proof.
  revert r ca. induction l as [|e l IH]; intros r ca; simpl; [apply keeps_refl|].
  destruct (negb _); [|destruct (match ca_disk ca !! _ with Some _ => _ | None => _ end)].
  - pose proof (keeps_reject auto true (ce_sha256 e) ca) as H.
    destruct (reject _ _ _ _ ca) as [ca' [b|x]]; [eapply keeps_trans; [exact H|apply IH]|exact H].
  - pose proof (keeps_status ca (ce_sha256 e) CS_VALID) as H.
    destruct (set_status _ _ ca) as [ca' [b|x]]; [eapply keeps_trans; [exact H|apply IH]|exact H].
  - pose proof (keeps_reject auto false (ce_sha256 e) ca) as H.
    destruct (reject _ _ _ _ ca) as [ca' [b|x]]; [eapply keeps_trans; [exact H|apply IH]|exact H].
Qed.

Lemma keeps_get sha ca : keeps ca (fst (get_bytes now sha ca)).
Proof. unfold get_bytes. destruct (res_bind _ _) as [[norm []]|]; simpl; auto using keeps_refl, keeps_touched. Qed.
Lemma keeps_get_path sha ca : keeps ca (fst (get_path now sha ca)).
Proof. unfold get_path. destruct (res_bind _ _) as [[norm []]|]; simpl; auto using keeps_refl, keeps_touched. Qed.

Lemma keeps_remove sha ca : keeps ca (fst (remove locked sha ca)).
Proof.
  unfold remove. destruct (validate_hash sha) as [norm|]; [|apply keeps_refl].
  pose proof (fun h data => storage_delete_sub locked norm (ca_disk ca) h data) as Hs.
  destruct (storage_delete locked norm (ca_disk ca)) as [d [b|x]]; simpl in *; [by apply keeps_del|by apply keeps_disk].
Qed.

Lemma keeps_evict target ca : ix_wf (ca_index ca) -> keeps ca (fst (evict_lru locked clock target ca)).
Proof.
  intros Hw. unfold evict_lru. destruct (evict_to_free_spec locked clock target ca Hw) as (ca' & f & -> & He & _).
  by eapply keeps_evicted.
Qed.

Lemma keeps_delete_orphans l ca : keeps ca (fst (delete_orphans locked l ca)).
Proof.
  revert ca. induction l as [|h l IH]; intros ca; simpl; [apply keeps_refl|].
  pose proof (keeps_disk ca _ (fun k data => storage_delete_sub locked h (ca_disk ca) k data)) as Hd.
  destruct (storage_delete locked h (ca_disk ca)) as [d [b|x]]; simpl in *; [|exact Hd].
  specialize (IH {| ca_index := ca_index ca; ca_disk := d |}).
  destruct (delete_orphans locked l _) as [ca' [n|x]]; simpl in *; (eapply keeps_trans; [exact Hd|exact IH]).
Qed.

Lemma keeps_remove_rows l ca : keeps ca (remove_rows l ca).
Proof.
  revert ca. induction l as [|h l IH]; intros ca; simpl; [apply keeps_refl|].
  eapply keeps_trans; [apply keeps_drop|apply IH].
Qed.

Lemma keeps_purge h ca : keeps ca (fst (purge locked h ca)).
Proof.
  unfold purge. pose proof (keeps_try_delete (drop_row h ca) h) as Hd. unfold try_delete in Hd.
  destruct (storage_delete _ _ _) as [d r]. eapply keeps_trans; [apply (keeps_drop ca h)|exact Hd].
Qed.

Lemma keeps_full_check l dangling c v ca : keeps ca (fst (full_check locked l dangling c v ca)).
Proof.
  revert c v ca. induction l as [|e l IH]; intros c v ca; simpl; [apply keeps_refl|].
  case_bool_decide; [apply IH|]. destruct (storage_size _ _) as [n|]; [|apply keeps_refl].
  assert (forall ca1 b, keeps ca ca1 -> keeps ca
    (fst (if b : bool then full_check locked l dangling c (v + 1) ca1
          else match purge locked (ce_sha256 e) ca1 with
               | (ca2, Ok _) => full_check locked l dangling (c + 1) v ca2 | (ca2, Err x) => (ca2, Err x) end))) as Hk.
  { intros ca1 b H1. destruct b; [eapply keeps_trans; [exact H1|apply IH]|].
    pose proof (keeps_purge (ce_sha256 e) ca1) as H2. destruct (purge _ _ _) as [ca2 [b|x]]; simpl in *;
      (eapply keeps_trans; [exact H1|]); [eapply keeps_trans; [exact H2|apply IH]|exact H2]. }
  destruct (negb _); [apply (Hk ca false), keeps_refl|].
  pose proof (keeps_verify (ce_sha256 e) true false ca) as Hv.
  destruct (verify_entry_locked _ _ _ _ _) as [ca1 [b|x]]; [apply (Hk ca1 b Hv)|apply (Hk ca1 false Hv)].
Qed.

Lemma keeps_reconcile vh ca : keeps ca (fst (reconcile locked vh ca)).
Proof.
  unfold reconcile. cbv zeta.
  match goal with |- context [delete_orphans locked ?l2 (remove_rows ?l1 ca)] =>
    eapply keeps_trans; [apply (keeps_remove_rows l1)|]; pose proof (keeps_delete_orphans l2 (remove_rows l1 ca)) as Hd;
    destruct (delete_orphans locked l2 (remove_rows l1 ca)) as [ca2 [n|x]] end; [|exact Hd].
  eapply keeps_trans; [exact Hd|].
  destruct vh; [|apply keeps_refl].
  match goal with |- context [full_check ?a ?b ?c ?d ?e ?f] => pose proof (keeps_full_check b c d e f) as Hf;
    destruct (full_check a b c d e f) as [ca3 [[c0 v0]|x]] end; exact Hf.
Qed.

(** ** Storing *)

Definition within (q : option Z) (ca : cache) : Prop := forall max, q = Some max -> 0 < max -> total ca <= max.

(** A step that keeps the invariant and, if it held, the quota. *)
Definition safe_step (ca ca' : cache) : Prop :=
  cache_inv ca -> cache_inv ca' /\ (within quota ca -> within quota ca').

Lemma keeps_safe ca ca' : keeps ca ca' -> safe_step ca ca'.
Proof. intros H Hi. destruct (H Hi) as [Hi' Hl]. split; [done|]. intros Hw max Hq Hm. specialize (Hw max Hq Hm). lia. Qed.

Lemma put_entry_total e ix : 
  (forall k e0, od_get k ix = Some e0 -> 0 <= ce_size_bytes e0) ->
  get_total_size (put_entry e ix) <= get_total_size ix + ce_size_bytes e.
Proof.
  intros Hs. unfold put_entry. destruct (od_get (str_lower (ce_sha256 e)) ix) as [old|] eqn:E.
  - specialize (Hs _ _ E). rewrite (total_size_del _ _ _ E). unfold get_total_size at 1.
    rewrite (sizes_perm _ _ (od_set_del_perm _ _ _ (ce_row (str_lower (ce_sha256 e)) (ce_created_at old) (ce_access_count old + 1) e) E)).
    unfold sizes, get_total_size, sizes. simpl. lia.
  - rewrite od_set_fresh by (by apply od_get_None_keys). unfold get_total_size, sizes, od_values.
    rewrite !map_app, sumZ_app. simpl. lia.
Qed.

Lemma put_entry_get e ix :
  exists row, od_get (str_lower (ce_sha256 e)) (put_entry e ix) = Some row /\
    ce_size_bytes row = ce_size_bytes e /\ ce_state row = ce_state e.
Proof. unfold put_entry. destruct (od_get _ ix); rewrite od_get_set_eq; eexists; done. Qed.

Lemma put_entry_get_ne e ix k : k <> str_lower (ce_sha256 e) -> od_get k (put_entry e ix) = od_get k ix.
Proof. intros H. unfold put_entry. destruct (od_get (str_lower (ce_sha256 e)) ix); by rewrite od_get_set_ne. Qed.

Lemma relative_path_sha data : exists rel, relative_path (sha256 data) = Ok rel.
Proof. unfold relative_path. rewrite validate_sha256. simpl. eauto. Qed.

Lemma bytes_len_nonneg data : 0 <= bytes_len data.
Proof. unfold bytes_len, str_len. lia. Qed.

Lemma store_object_inv info data ca :
  cache_inv ca ->
  let '(ca', r) := store_object now info data (sha256 data) (bytes_len data) ca in
  cache_inv ca' /\ total ca' <= total ca + bytes_len data.
Proof.
  intros [Hw Hs Hc]. unfold store_object. destruct (relative_path_sha data) as [rel ->].
  split; [split; simpl|].
  - by apply ix_wf_put.
  - set (e := new_entry now info (sha256 data) rel (bytes_len data)). intros k row Hrow.
    destruct (decide (k = str_lower (ce_sha256 e))) as [->|Hne].
    + destruct (put_entry_get e (ca_index ca)) as (row' & Hg & Hz & _). rewrite Hg in Hrow. injection Hrow as <-.
      rewrite Hz. apply bytes_len_nonneg.
    + rewrite put_entry_get_ne in Hrow by done. eauto.
  - intros h d. unfold commit_stream. intros [[<- <-]|[_ Hd]]%lookup_insert_Some; eauto.
  - unfold total. simpl. by apply (put_entry_total (new_entry now info (sha256 data) rel (bytes_len data))).
Qed.

Lemma safe_admit info data ca :
  safe_step ca (fst (admit_object quota locked clock now info data (sha256 data) (bytes_len data) ca)).
Proof.
  intros Hi. unfold admit_object. destruct (is_cache_valid (sha256 data) ca) as [[]|x]; [|..|done].
  - apply keeps_safe; [|done]. apply keeps_touched.
  - pose proof (enforce_quota_cases locked clock quota (bytes_len data) ca (ci_wf _ Hi)) as Hq.
    destruct (enforce_quota locked clock quota (bytes_len data) ca) as [ca1 [n|x]]; destruct Hq as (freed & Hev & Hq).
    + destruct (keeps_evicted _ _ _ _ Hev Hi) as [Hi1 Hl1].
      pose proof (store_object_inv info data ca1 Hi1) as Hst. destruct (store_object _ _ _ _ _ ca1) as [ca2 r]. simpl.
      destruct Hst as [Hi2 Hl2]. split; [done|]. intros _ max Hm Hpos. destruct Hq as [_ Hq].
      specialize (Hq max Hm Hpos). unfold total in *. lia.
    + apply keeps_safe; [by eapply keeps_evicted|done].
Qed.

Lemma safe_duplicate sha ca : safe_step ca (fst (duplicate now sha ca)).
Proof. apply keeps_safe, keeps_touched. Qed.

Lemma safe_put_bytes info data sha ca : safe_step ca (fst (put_bytes quota locked clock now info data sha ca)).
Proof.
  unfold put_bytes. destruct (match sha with Some _ => _ | None => _ end); [apply safe_admit|apply keeps_safe, keeps_refl].
Qed.

Lemma safe_put_staged info data size max sha ca :
  safe_step ca (fst (put_staged quota locked clock now info data size max sha ca)).
Proof.
  unfold put_staged. destruct (known_duplicate sha ca) as [[s|]|x]; [apply safe_duplicate| |apply keeps_safe, keeps_refl].
  destruct (stage_stream data sha size max) as [[n h]|x] eqn:E; [|apply keeps_safe, keeps_refl].
  apply stage_stream_ok in E as [-> ->]. apply safe_admit.
Qed.
End steps.

(** ** Histories *)

Inductive cache_call :=
| PutBytes (info : put_info) (data : string) (sha : option string)
| PutFile (info : put_info) (file : option string) (sha : option string)
| PutStream (info : put_info) (data : string) (size : option Z) (sha : option string)
| GetBytes (sha : string)
| GetPath (sha : string)
| GetStream (sha : string)
| Remove (sha : string)
| EvictLru (target : Z)
| VerifyEntry (sha : string) (deep_check auto_evict : bool)
| VerifyAll (deep_check auto_evict : bool)
| Reconcile (verify_hashes : bool).

(** The environment of a call. *)
Record call_env := { env_locked : gset string; env_clock : nat -> float; env_now : float }.

Definition cache_step (quota : option Z) (ca : cache) (ec : call_env * cache_call) : cache :=
  let '(env, c) := ec in
  let locked := env_locked env in
  let clock := env_clock env in
  let now := env_now env in
  match c with
  | PutBytes info data sha => fst (put_bytes quota locked clock now info data sha ca)
  | PutFile info file sha => fst (put_file quota locked clock now info file sha ca)
  | PutStream info data size sha => fst (put_stream quota locked clock now info data size sha ca)
  | GetBytes sha => fst (get_bytes now sha ca)
  | GetPath sha => fst (get_path now sha ca)
  | GetStream sha => fst (get_stream now sha ca)
  | Remove sha => fst (remove locked sha ca)
  | EvictLru target => fst (evict_lru locked clock target ca)
  | VerifyEntry sha deep auto => fst (verify_entry_locked locked sha deep auto ca)
  | VerifyAll deep auto => fst (verify_all locked deep auto ca)
  | Reconcile vh => fst (reconcile locked vh ca)
  end.

Lemma safe_cache_step quota ca ec : safe_step quota ca (cache_step quota ca ec).
Proof.
  destruct ec as [env c]; destruct c; simpl.
  - apply safe_put_bytes.
  - destruct file; [apply safe_put_staged|apply keeps_safe, keeps_refl].
  - apply safe_put_staged.
  - apply keeps_safe, keeps_get.
  - apply keeps_safe, keeps_get_path.
  - unfold get_stream. pose proof (keeps_safe quota _ _ (keeps_get (env_now env) sha ca)) as H.
    destruct (get_bytes _ _ _) as [ca' [[data|]|x]]; exact H.
  - apply keeps_safe, keeps_remove.
  - intros Hi. apply keeps_safe; [|done]. apply keeps_evict, Hi.
  - apply keeps_safe, keeps_verify.
  - apply keeps_safe, keeps_verify_loop.
  - apply keeps_safe, keeps_reconcile.
Qed.

(** C8: the store is content-addressed and within its quota for ever.  From
    an empty cache, after any history of stores, reads, removals, evictions,
    verifications and reconciliations, in any environment of locked files and
    clock readings, every file holds content of the digest it is named after,
    the table is well-formed with non-negative sizes, and the indexed bytes do
    not exceed a positive quota. *)
Theorem cache_history quota (l : list (call_env * cache_call)) :
  let ca := fold_left (cache_step quota) l {| ca_index := []; ca_disk := ∅ |} in
  cache_inv ca /\ within quota ca.
Proof.
  assert (forall ca, cache_inv ca -> within quota ca ->
    cache_inv (fold_left (cache_step quota) l ca) /\ within quota (fold_left (cache_step quota) l ca)) as H.
  { induction l as [|ec l IH]; intros ca Hi Hw; simpl; [done|].
    destruct (safe_cache_step quota ca ec Hi) as [Hi' Hw']. auto. }
  apply H.
  - split; simpl; [split; [apply od_wf_nil|done]|done|]. intros h data Hd. by rewrite lookup_empty in Hd.
  - intros max _ Hm. unfold total. simpl. change (get_total_size []) with 0. lia.
Qed.

(** ** Stored content comes back *)

Lemma storage_exists_sha h d : is_sha256 h = true -> storage_exists h d = bool_decide (is_Some (d !! h)).
Proof. intros H. unfold storage_exists. by rewrite (validate_is_sha256 h H). Qed.

Lemma is_cache_valid_spec h ca :
  is_sha256 h = true ->
  exists b, is_cache_valid h ca = Ok b /\
    (b = true <-> exists e data, od_get h (ca_index ca) = Some e /\ ce_state e = CS_VALID /\
                    ca_disk ca !! h = Some data /\ bytes_len data = ce_size_bytes e).
Proof.
  intros Hh. unfold is_cache_valid, storage_size, get_entry. rewrite (validate_is_sha256 h Hh). cbn [res_bind].
  rewrite (validate_is_sha256 h Hh), (storage_exists_sha h _ Hh), (is_sha256_lower h Hh). cbn [res_bind].
  destruct (od_get h (ca_index ca)) as [e|]; [|exists false; split; [done|split; [done|naive_solver]]].
  case_bool_decide as Hs; simpl; [|exists false; split; [done|split; [done|naive_solver]]].
  destruct (ca_disk ca !! h) as [data|] eqn:Ed; simpl;
    [|exists false; split; [done|split; [done|naive_solver]]].
  eexists. split; [done|].
  rewrite Z.eqb_eq. split; [eauto 8|]. naive_solver.
Qed.

Lemma get_bytes_valid now h ca :
  is_sha256 h = true -> is_cache_valid h ca = Ok true ->
  exists data, ca_disk ca !! h = Some data /\ snd (get_bytes now h ca) = Ok (Some data).
Proof.
  intros Hh Hv. destruct (is_cache_valid_spec h ca Hh) as (b & Hb & Hiff). rewrite Hv in Hb. injection Hb as <-.
  destruct (proj1 Hiff eq_refl) as (e & data & _ & _ & Hd & _). exists data. split; [done|].
  unfold get_bytes. rewrite (validate_is_sha256 h Hh). simpl. rewrite Hv. simpl.
  unfold read_bytes. rewrite (validate_is_sha256 h Hh). simpl. by rewrite Hd.
Qed.

(** A valid entry, seen from the table and the disk. *)
Definition holds (h : string) (size : Z) (data : string) (ca : cache) : Prop :=
  exists e, od_get h (ca_index ca) = Some e /\ ce_state e = CS_VALID /\ ce_size_bytes e = size /\
    ca_disk ca !! h = Some data /\ bytes_len data = size.

Lemma holds_valid h size data ca : is_sha256 h = true -> holds h size data ca -> is_cache_valid h ca = Ok true.
Proof.
  intros Hh (e & He & Hs & Hz & Hd & Hl). destruct (is_cache_valid_spec h ca Hh) as (b & Hb & Hiff). rewrite Hb. f_equal.
  apply Hiff. exists e, data. split_and!; congruence.
Qed.

Lemma store_object_holds now info data ca ca' e :
  store_object now info data (sha256 data) (bytes_len data) ca = (ca', Ok e) ->
  ce_sha256 e = sha256 data /\ ce_size_bytes e = bytes_len data /\ holds (sha256 data) (bytes_len data) data ca'.
Proof.
  unfold store_object. destruct (relative_path_sha data) as [rel ->]. intros [= <- <-]. split_and!; [done..|].
  destruct (put_entry_get (new_entry now info (sha256 data) rel (bytes_len data)) (ca_index ca)) as (row & Hg & Hz & Hs).
  simpl in Hg. rewrite (is_sha256_lower _ (sha256_is_sha256 data)) in Hg. exists row.
  split_and!; [done|done|done|unfold commit_stream; simpl; by rewrite lookup_insert_eq|done].
Qed.

Lemma duplicate_holds now h ca ca' e :
  cache_inv ca -> is_sha256 h = true -> is_cache_valid h ca = Ok true -> duplicate now h ca = (ca', Ok e) ->
  ce_sha256 e = h /\ exists data, ca_disk ca !! h = Some data /\ holds h (ce_size_bytes e) data ca'.
Proof.
  intros Hi Hh Hv. destruct (is_cache_valid_spec h ca Hh) as (b & Hb & Hiff). rewrite Hv in Hb. injection Hb as <-.
  destruct (proj1 Hiff eq_refl) as (e0 & data & He & Hs & Hd & Hl).
  unfold duplicate, touched, touch, get_entry, on_index. simpl. unfold update_row.
  rewrite (is_sha256_lower h Hh), He, od_get_set_eq. intros [= <- <-]. destruct (proj2 (ci_wf _ Hi) _ _ He) as [Hn _].
  split; [done|]. exists data. split; [done|]. exists (ce_touched now e0). simpl. rewrite od_get_set_eq. split_and!; done.
Qed.


(** ** Verification *)

(** What a verified entry satisfies. *)
Definition intact (deep : bool) (h : string) (e : cache_entry) (ca : cache) : Prop :=
  storage_exists h (ca_disk ca) = true /\ exists data, ca_disk ca !! h = Some data /\
    bytes_len data = ce_size_bytes e /\ (deep = true -> sha256 data = h).

Lemma content_ok_iff deep h size data :
  content_ok deep h size data = true <-> bytes_len data = size /\ (deep = true -> sha256 data = h).
Proof.
  unfold content_ok. rewrite andb_true_iff, Z.eqb_eq, orb_true_iff, negb_true_iff, String.eqb_eq.
  destruct deep; naive_solver.
Qed.

Lemma set_status_some h st e ca :
  od_get h (ca_index ca) = Some e -> str_lower h = h -> may_become (ce_state e) st = true ->
  set_status h st ca = ({| ca_index := od_set h (ce_with_state st e) (ca_index ca); ca_disk := ca_disk ca |}, Ok true).
Proof. intros He Hl Hm. unfold set_status, update_status, update_row. by rewrite Hl, He, Hm. Qed.

(** Verification decides intactness.  For an entry that is not being
    evicted, [verify_entry] answers true exactly when the file exists, has the
    entry's size and (for a deep check) content of the entry's digest, and then
    marks it VALID; otherwise it removes the row and tries the file when asked
    to evict, and else marks the row ABSENT or CORRUPTED and keeps the file; an
    entry being evicted makes it raise; no other row is touched. *)
Theorem verify_entry_correct locked sha deep auto ca :
  ix_wf (ca_index ca) ->
  let h := str_lower sha in
  let '(ca', r) := verify_entry_locked locked sha deep auto ca in
  (forall k, k <> h -> od_get k (ca_index ca') = od_get k (ca_index ca)) /\
  match od_get h (ca_index ca) with
  | None => ca' = ca /\ r = Ok false
  | Some e =>
      if bool_decide (ce_state e = CS_EVICTING) then r = Err (ValueError "Invalid state transition")
      else exists b, r = Ok b /\ (b = true <-> intact deep h e ca) /\
        (if b then od_get h (ca_index ca') = Some (ce_with_state CS_VALID e) /\ ca_disk ca' = ca_disk ca
         else if auto then od_get h (ca_index ca') = None
         else ca_disk ca' = ca_disk ca /\ exists st, od_get h (ca_index ca') = Some (ce_with_state st e) /\
                st = (if storage_exists h (ca_disk ca) then CS_CORRUPTED else CS_ABSENT))
  end.
Proof.
  intros Hw h. unfold verify_entry_locked. fold h. assert (str_lower h = h) as Hl by apply str_lower_idemp.
  destruct (od_get h (ca_index ca)) as [e|] eqn:He; [|by split_and!].
  case_bool_decide as Hs.
  { unfold set_status, update_status. rewrite Hl, He, Hs. simpl. split; [done|done]. }
  rewrite (set_status_some h CS_VERIFYING e ca He Hl) by (destruct (ce_state e); done). simpl.
  set (ca1 := {| ca_index := _; ca_disk := ca_disk ca |}). set (e1 := ce_with_state CS_VERIFYING e).
  assert (od_get h (ca_index ca1) = Some e1) as He1 by apply od_get_set_eq.
  assert (forall k, k <> h -> od_get k (ca_index ca1) = od_get k (ca_index ca)) as Hk1
    by (intros k Hk; by apply od_get_set_ne).
  assert (forall gone, storage_exists h (ca_disk ca) = negb gone ->
    let '(ca', r) := reject locked auto gone h ca1 in
    (forall k, k <> h -> od_get k (ca_index ca') = od_get k (ca_index ca)) /\ r = Ok false /\
    (if auto then od_get h (ca_index ca') = None
     else ca_disk ca' = ca_disk ca /\ exists st, od_get h (ca_index ca') = Some (ce_with_state st e) /\
            st = (if storage_exists h (ca_disk ca) then CS_CORRUPTED else CS_ABSENT))) as Hrej.
  { intros gone Hg. unfold reject. destruct auto.
    - assert (od_wf (ca_index ca1)) as Hwf1 by (apply od_set_wf, Hw).
      assert (forall k, od_get k (ca_index (drop_row h (if gone then ca1 else try_delete locked h ca1))) =
        od_get k (od_del h (ca_index ca1))) as Hdrop.
      { intros k. destruct gone; unfold drop_row, on_index, remove_entry; simpl; by rewrite Hl. }
      split_and!; [|done|by rewrite Hdrop, od_get_del_eq].
      intros k Hk. rewrite Hdrop, od_get_del_ne by done. by apply Hk1.
    - rewrite (set_status_some h _ e1 ca1 He1 Hl) by (by destruct gone). simpl. split_and!; [|done|done|].
      + intros k Hk. rewrite !od_get_set_ne by done. done.
      + eexists. rewrite od_get_set_eq. split; [done|]. rewrite Hg. by destruct gone. }
  change (ca_disk ca1) with (ca_disk ca).
  destruct (storage_exists h (ca_disk ca)) eqn:Ex; simpl.
  2: { specialize (Hrej true eq_refl). destruct (reject _ _ _ _ _) as [ca' r]. destruct Hrej as (Hk & -> & Hr).
       split; [done|]. exists false. split_and!; [done| |done]. unfold intact. rewrite Ex. naive_solver. }
  destruct (ca_disk ca !! h) as [data|] eqn:Ed.
  2: { exfalso. unfold storage_exists in Ex. destruct (validate_hash h) as [n|] eqn:En; [|done].
       apply validate_hash_lower in En as ->. rewrite Hl, Ed in Ex. by apply bool_decide_eq_true in Ex as [? ?]. }
  destruct (content_ok deep h (ce_size_bytes e) data) eqn:Ec.
  - rewrite (set_status_some h CS_VALID e1 ca1 He1 Hl) by done. simpl. split; [intros k Hk; rewrite !od_get_set_ne by done; done|].
    exists true. split_and!; [done| |by rewrite od_get_set_eq|done]. split; [|done]. intros _.
    apply content_ok_iff in Ec. split; [done|]. eauto.
  - specialize (Hrej false eq_refl). destruct (reject _ _ _ _ _) as [ca' r]. destruct Hrej as (Hk & -> & Hr).
    split; [done|]. exists false. split_and!; [done| |done]. split; [done|]. intros (_ & d & Hd & Hc).
    rewrite Ed in Hd. injection Hd as <-. apply content_ok_iff in Hc. congruence.
Qed.

(** ** Witnesses and findings *)

Definition no_info : put_info :=
  {| pi_original_name := ""; pi_asset_type := "unknown"; pi_source_path := ""; pi_metadata := [] |}.
Definition empty_cache : cache := {| ca_index := []; ca_disk := ∅ |}.
Definition no_clock : nat -> float := fun _ => f1.

Lemma empty_inv : cache_inv empty_cache.
Proof.
  split; simpl; [split; [apply od_wf_nil|discriminate]|discriminate|].
  intros h data Hd. rewrite lookup_empty in Hd. discriminate.
Defined.


(** A cache with the entry "abc" stored and marked [st]. *)
Definition marked (st : cache_state) : cache :=
  {| ca_index := put_entry (sample_entry (sha256 "abc") 3 f1 st) []; ca_disk := {[sha256 "abc" := "abc"%string]} |}.

Lemma marked_wf st : ix_wf (ca_index (marked st)).
Proof. apply ix_wf_put. split; [apply od_wf_nil|discriminate]. Qed.

Lemma verify_entry_witness :
  snd (verify_entry_locked ∅ (sha256 "abc") true false (marked CS_CORRUPTED)) = Ok true /\
  exists e, od_get (str_lower (sha256 "abc")) (ca_index (marked CS_CORRUPTED)) = Some e /\
    intact true (str_lower (sha256 "abc")) e (marked CS_CORRUPTED).
Proof.
  pose proof (verify_entry_correct ∅ (sha256 "abc") true false (marked CS_CORRUPTED)
    (marked_wf CS_CORRUPTED)) as H.
  assert (snd (verify_entry_locked ∅ (sha256 "abc") true false (marked CS_CORRUPTED)) = Ok true) as E
    by (vm_compute; reflexivity).
  split; [exact E|].
  destruct (verify_entry_locked ∅ (sha256 "abc") true false (marked CS_CORRUPTED)) as [ca' r]. simpl in E. subst r.
  destruct H as [_ H].
  destruct (od_get (str_lower (sha256 "abc")) (ca_index (marked CS_CORRUPTED))) as [e|] eqn:Eg;
    [|exfalso; vm_compute in Eg; discriminate].
  exists e. split; [reflexivity|].
  assert (bool_decide (ce_state e = CS_EVICTING) = false) as Hs
    by (vm_compute in Eg; injection Eg as <-; vm_compute; reflexivity).
  rewrite Hs in H. destruct H as (b & Hb & Hi & _). apply Hi. injection Hb as <-. reflexivity.
Defined.

(** [verify_all] raises on an entry that is marked corrupted and intact again,
    where [verify_entry] repairs its state. *)
Example verify_all_raises :
  snd (verify_all ∅ true true (marked CS_CORRUPTED)) = Err (ValueError "Invalid state transition") /\
  snd (verify_entry_locked ∅ (sha256 "abc") true false (marked CS_CORRUPTED)) = Ok true.
Proof. vm_compute. split; reflexivity. Qed.

(** A quota of zero means no quota to [put_bytes] and refuses every stream. *)
Example zero_quota :
  is_ok (snd (put_bytes (Some 0) ∅ no_clock f1 no_info "abc" None empty_cache)) = true /\
  snd (put_stream (Some 0) ∅ no_clock f1 no_info "abc" None None empty_cache) = Err CacheStorageError.
Proof. vm_compute. split; reflexivity. Qed.

(** Eviction gives up when the hundred oldest entries are busy, though an
    entry after them could go. *)
Definition busy_cache : cache :=
  {| ca_index := put_entry (sample_entry (digest_of "a") 50 (f_of_Z 2) CS_VALID)
       (map (fun i => let k := str_of_Z (Z.of_nat i) in (k, sample_entry k 1 f1 CS_TRANSFERRING)) (seq 100 100));
     ca_disk := ∅ |}.
Example eviction_gives_up :
  snd (evict_to_free ∅ no_clock 10 busy_cache) = Ok 0 /\
  removable ∅ busy_cache (sample_entry (digest_of "a") 50 (f_of_Z 2) CS_VALID).
Proof. split; [vm_compute; reflexivity|]. split_and!; [reflexivity|reflexivity|left; reflexivity]. Qed.

(** An expected digest with a trailing newline passes validation. *)
Example newline_digest : is_ok (validate_hash (sha256 "abc" +:+ String nl "")%string) = true.
Proof. vm_compute. reflexivity. Qed.
