(* ===== verification/Cas.v ===== *)
(** * The worker's object store ([distributed/cas_adapter.py])

    [LocalCASAdapter]: the object directory is a map from the shard directory to
    its files, the staging directory a map from the file name to content and
    modification time.  Files are byte strings; reading a file in chunks is
    reading it.  Which system calls fail is the argument [io], and
    [io_partial] what a failed write leaves of its data.  The random part of a
    staging name and the clock readings are arguments. *)
From S2P Require Export Sha256 PyFloat.

Inductive io_call :=
| IO_STAGING_DIR | IO_OPEN | IO_READ | IO_WRITE | IO_MKDIR | IO_REPLACE | IO_UNLINK (name : string) | IO_STAT (name : string).

Record io := { io_fails : io_call -> bool; io_partial : string -> string }.
Definition io_ok : io := {| io_fails := fun _ => false; io_partial := fun s => s |}.

Record staged := { sg_content : string; sg_mtime : float }.

Record local_cas := {
  lc_objects : gmap string (gmap string string);
  lc_staging : gmap string staged;
}.

Definition empty_cas : local_cas := {| lc_objects := ∅; lc_staging := ∅ |}.

Definition with_objects (o : gmap string (gmap string string)) (c : local_cas) : local_cas :=
  {| lc_objects := o; lc_staging := lc_staging c |}.
Definition with_staging (s : gmap string staged) (c : local_cas) : local_cas :=
  {| lc_objects := lc_objects c; lc_staging := s |}.

Definition shard_of (h : string) : string := substring 0 2 h.

Definition get_path_for_hash (sha256_hex : string) : res (string * string) :=
  let! normalized := validate_sha256_hex sha256_hex in
  Ok (shard_of normalized, normalized).

(** The file at a path of the object directory. *)
Definition object_at (path : string * string) (c : local_cas) : option string :=
  files ← lc_objects c !! path.1; files !! path.2.
Definition is_file (path : string * string) (c : local_cas) : bool := bool_decide (is_Some (object_at path c)).

Definition has_asset (sha256_hex : string) (c : local_cas) : bool :=
  match get_path_for_hash sha256_hex with Ok p => is_file p c | Err _ => false end.

Definition get_asset_path (sha256_hex : string) (c : local_cas) : option (string * string) :=
  match get_path_for_hash sha256_hex with Ok p => if is_file p c then Some p else None | Err _ => None end.

Definition get_asset_size (i : io) (sha256_hex : string) (c : local_cas) : option Z :=
  p ← get_asset_path sha256_hex c;
  if io_fails i (IO_STAT p.2) then None else str_len <$> object_at p c.

(** Every file of every shard whose name is a digest, whatever shard it is in. *)
Definition get_inventory_hashes (c : local_cas) : gset string :=
  list_to_set
    (s ← map_to_list (lc_objects c);
     f ← map_to_list s.2;
     match validate_sha256_hex f.1 with Ok norm => [norm] | Err _ => [] end).

Fixpoint split_candidates (required_hashes : list string) (valid_candidates missing : gset string)
    : gset string * gset string :=
  match required_hashes with
  | [] => (valid_candidates, missing)
  | raw :: rest =>
      match validate_sha256_hex raw with
      | Ok norm => split_candidates rest ({[norm]} ∪ valid_candidates) missing
      | Err _ => split_candidates rest valid_candidates ({[str_lower (strip raw)]} ∪ missing)
      end
  end.

(** More than 32 candidates are compared with the inventory, fewer are looked up
    one by one. *)
Definition get_missing_hashes (required_hashes : list string) (c : local_cas) : gset string :=
  let '(valid_candidates, missing) := split_candidates required_hashes ∅ ∅ in
  if Nat.ltb 32 (size valid_candidates) then
    missing ∪ (valid_candidates ∖ get_inventory_hashes c)
  else
    missing ∪ filter (fun norm => is_file (shard_of norm, norm) c = false) valid_candidates.

(** The bytes the returned handle is positioned on. *)
Definition open_asset_stream (sha256_hex : string) (offset : Z) (c : local_cas) : res string :=
  match get_asset_path sha256_hex c with
  | None => Err FileNotFoundError
  | Some p =>
      let content := default "" (object_at p c) in
      let total_size := str_len content in
      if offset <? 0 then Err (ValueError "Offset cannot be negative")
      else if total_size <? offset then Err IndexError
      else Ok (str_drop (Z.to_nat offset) content)
  end.

Definition create_staging_file (sha256_hex : option string) (prefix uuid : string) : string :=
  let tag :=
    match sha256_hex with
    | Some h =>
        if str_truthy h then
          match validate_sha256_hex h with Ok n => "_" +:+ substring 0 16 n | Err _ => "_obj" end
        else "_obj"
    | None => "_obj"
    end in
  prefix +:+ tag +:+ "_" +:+ uuid +:+ ".tmp".

(** [unlink(missing_ok=True)] of a staging file. *)
Definition unlink_staged (i : io) (name : string) (c : local_cas) : local_cas * res unit :=
  match lc_staging c !! name with
  | None => (c, Ok tt)
  | Some _ =>
      if io_fails i (IO_UNLINK name) then (c, Err (OSError "unlink"))
      else (with_staging (delete name (lc_staging c)) c, Ok tt)
  end.

(** Delete the staged file and answer [False]. *)
Definition discard_staged (i : io) (name : string) (c : local_cas) : local_cas * res bool :=
  let '(c, r) := unlink_staged i name c in
  (c, let! _ := r in Ok false).

Definition make_shard (shard : string) (c : local_cas) : local_cas :=
  with_objects (<[shard := default ∅ (lc_objects c !! shard)]> (lc_objects c)) c.

(** [os.replace] of the staged file onto its path. *)
Definition replace_staged (name : string) (content : string) (p : string * string) (c : local_cas) : local_cas :=
  {| lc_objects := <[p.1 := <[p.2 := content]> (default ∅ (lc_objects c !! p.1))]> (lc_objects c);
     lc_staging := delete name (lc_staging c) |}.

Definition commit_staged_file (i : io) (name expected_sha256 : string) (c : local_cas) : local_cas * res bool :=
  match lc_staging c !! name with
  | None => (c, Ok false)
  | Some f =>
      match validate_sha256_hex expected_sha256 with
      | Err _ => discard_staged i name c
      | Ok norm_expected =>
          if io_fails i IO_READ then discard_staged i name c
          else if negb (String.eqb (sha256 (sg_content f)) norm_expected) then discard_staged i name c
          else
            match get_path_for_hash norm_expected with
            | Err e => (c, Err e)
            | Ok p =>
                if io_fails i IO_MKDIR then discard_staged i name c
                else
                  let c := make_shard p.1 c in
                  if is_file p c then
                    match unlink_staged i name c with
                    | (c, Ok _) => (c, Ok true)
                    | (c, Err _) => discard_staged i name c
                    end
                  else if io_fails i IO_REPLACE then discard_staged i name c
                  else (replace_staged name (sg_content f) p c, Ok true)
            end
      end
  end.

(** Write [data] to a staging file. *)
Definition write_staged (i : io) (name data : string) (now : float) (c : local_cas) : local_cas * res unit :=
  if io_fails i IO_WRITE then
    (with_staging (<[name := {| sg_content := io_partial i data; sg_mtime := now |}]> (lc_staging c)) c, Err (OSError "write"))
  else (with_staging (<[name := {| sg_content := data; sg_mtime := now |}]> (lc_staging c)) c, Ok tt).

Definition store_bytes (i : io) (uuid : string) (now : float) (data : string) (c : local_cas) : local_cas * res string :=
  let sha256_hex := sha256 data in
  let name := create_staging_file (Some sha256_hex) "store" uuid in
  match write_staged i name data now c with
  | (c, Err e) => (c, Err e)
  | (c, Ok _) =>
      let '(c, success) := commit_staged_file i name sha256_hex c in
      (c, let! b := success in
          if negb b then Err (RuntimeError "Failed to commit to CAS") else Ok sha256_hex)
  end.

(** [src] is the content of the source file; [None] if it is not a file. *)
Definition store_file (i : io) (uuid : string) (now : float) (src : option string) (expected_sha256 : option string)
    (c : local_cas) : local_cas * res string :=
  match src with
  | None => (c, Err FileNotFoundError)
  | Some data =>
      if io_fails i IO_OPEN then (c, Err (OSError "open")) else
      let name := create_staging_file expected_sha256 "import" uuid in
      match write_staged i name data now c with
      | (c, Err e) => match unlink_staged i name c with (c, Ok _) => (c, Err e) | (c, Err e') => (c, Err e') end
      | (c, Ok _) =>
          let computed_hash := sha256 data in
          let expected := e ← expected_sha256; if str_truthy e then Some e else None in
          let target_hash := match expected with Some e => str_lower e | None => computed_hash end in
          if bool_decide (is_Some expected) && negb (String.eqb computed_hash target_hash) then
            let '(c, r) := unlink_staged i name c in
            (c, let! _ := r in Err (ValueError "Source file checksum mismatch"))
          else
            let '(c, success) := commit_staged_file i name target_hash c in
            (c, let! b := success in
                if negb b then Err (RuntimeError "Failed to commit file to CAS") else Ok target_hash)
      end
  end.

Definition prunable (i : io) (now : float) (max_age_seconds : option float) (f : string * staged) : bool :=
  match max_age_seconds with
  | Some age => negb (io_fails i (IO_STAT f.1)) && negb (flt (fsub now (sg_mtime f.2)) age)
  | None => true
  end && negb (io_fails i (IO_UNLINK f.1)).

Definition prune_staging (i : io) (now : float) (max_age_seconds : option float) (c : local_cas) : local_cas * Z :=
  let gone := filter (fun f => prunable i now max_age_seconds f = true) (lc_staging c) in
  (with_staging (lc_staging c ∖ gone) c, Z.of_nat (size gone)).

Definition delete_asset (i : io) (sha256_hex : string) (c : local_cas) : local_cas * bool :=
  match get_path_for_hash sha256_hex with
  | Err _ => (c, false)
  | Ok p =>
      match lc_objects c !! p.1 with
      | None => (c, false)
      | Some files =>
          match files !! p.2 with
          | None => (c, false)
          | Some _ =>
              if io_fails i (IO_UNLINK p.2) then (c, false)
              else
                let files := delete p.2 files in
                (with_objects
                   (if bool_decide (files = ∅) && negb (io_fails i (IO_UNLINK p.1)) then delete p.1 (lc_objects c)
                    else <[p.1 := files]> (lc_objects c)) c, true)
          end
      end
  end.

Record cas_stats := { st_total_assets : Z; st_total_bytes : Z }.

Definition get_cas_stats (c : local_cas) : cas_stats :=
  let files := s ← map_to_list (lc_objects c); map_to_list s.2 in
  {| st_total_assets := Z.of_nat (length files); st_total_bytes := sumZ (map (fun f => str_len f.2) files) |}.

(** ** Well-formed stores

    Every object lies in its shard, under the digest of its content. *)

Definition cas_ok (c : local_cas) : Prop :=
  forall p content, object_at p c = Some content -> p = (shard_of p.2, p.2) /\ sha256 content = p.2.

(** The content filed under a digest. *)
Definition object (h : string) (c : local_cas) : option string := object_at (shard_of h, h) c.
Definition holds (h : string) (c : local_cas) : bool := is_file (shard_of h, h) c.

Lemma get_path_spec h p : get_path_for_hash h = Ok p -> exists n, validate_sha256_hex h = Ok n /\ p = (shard_of n, n).
Proof. unfold get_path_for_hash. intros (n & Hn & [= <-])%res_bind_ok. by exists n. Qed.

Lemma get_path_valid n : is_sha256 n = true -> get_path_for_hash n = Ok (shard_of n, n).
Proof. intros H. unfold get_path_for_hash. by rewrite validate_sha256_hex_norm. Qed.

Lemma object_at_make_shard shard p c : object_at p (make_shard shard c) = object_at p c.
Proof.
  unfold object_at, make_shard. simpl. destruct (decide (p.1 = shard)) as [<-|Hne].
  - rewrite lookup_insert_eq. simpl. by destruct (lc_objects c !! p.1).
  - by rewrite lookup_insert_ne.
Qed.

Lemma object_at_replace name content q p c :
  object_at p (replace_staged name content q c) = if bool_decide (p = q) then Some content else object_at p c.
Proof.
  unfold object_at, replace_staged. simpl. destruct p as [s n], q as [s' n']. simpl.
  destruct (decide (s = s')) as [->|Hne].
  - rewrite lookup_insert_eq. simpl. destruct (decide (n = n')) as [->|Hn].
    + rewrite lookup_insert_eq, bool_decide_true by done. done.
    + rewrite lookup_insert_ne, bool_decide_false by (done || congruence). by destruct (lc_objects c !! s').
  - rewrite lookup_insert_ne, bool_decide_false by (done || congruence). done.
Qed.

Lemma unlink_staged_objects i name c : lc_objects (unlink_staged i name c).1 = lc_objects c.
Proof. unfold unlink_staged. repeat case_match; done. Qed.
Lemma discard_staged_objects i name c : lc_objects (discard_staged i name c).1 = lc_objects c.
Proof.
  unfold discard_staged. pose proof (unlink_staged_objects i name c) as H.
  destruct (unlink_staged i name c) as [c' r]. done.
Qed.
Lemma object_at_objects p c c' : lc_objects c' = lc_objects c -> object_at p c' = object_at p c.
Proof. unfold object_at. by intros ->. Qed.

Lemma unlink_staged_cases i name c :
  unlink_staged i name c =
    (if negb (io_fails i (IO_UNLINK name)) || bool_decide (lc_staging c !! name = None)
     then (with_staging (delete name (lc_staging c)) c, Ok tt) else (c, Err (OSError "unlink"))).
Proof.
  unfold unlink_staged. destruct (lc_staging c !! name) as [f|] eqn:E; simpl.
  - rewrite orb_false_r. by destruct (io_fails i (IO_UNLINK name)).
  - rewrite orb_true_r. destruct c as [o s]; unfold with_staging; simpl in *.
    by rewrite delete_id.
Qed.

(** What a commit may do to the objects: add the verified content under its
    digest, or nothing. *)
Definition adds_verified (norm content : string) (c c' : local_cas) : Prop :=
  sha256 content = norm /\ holds norm c = false /\
  forall p, object_at p c' = if bool_decide (p = (shard_of norm, norm)) then Some content else object_at p c.

Definition same_objects (c c' : local_cas) : Prop := forall p, object_at p c' = object_at p c.

Lemma same_objects_refl c : same_objects c c.
Proof. done. Qed.
Lemma same_objects_trans c1 c2 c3 : same_objects c1 c2 -> same_objects c2 c3 -> same_objects c1 c3.
Proof. intros H1 H2 p. by rewrite H2, H1. Qed.
Lemma discard_same i name c : same_objects c (discard_staged i name c).1.
Proof. intros p. apply object_at_objects, discard_staged_objects. Qed.
Lemma unlink_same i name c : same_objects c (unlink_staged i name c).1.
Proof. intros p. apply object_at_objects, unlink_staged_objects. Qed.

Lemma same_objects_ok c c' : same_objects c c' -> cas_ok c -> cas_ok c'.
Proof. intros Hs Hc p content. rewrite Hs. apply Hc. Qed.

Lemma adds_verified_ok norm content c c' : adds_verified norm content c c' -> cas_ok c -> cas_ok c'.
Proof.
  intros (Hh & _ & Hp) Hc p x. rewrite Hp. case_bool_decide as E; [|apply Hc].
  intros [= <-]. subst p. done.
Qed.

#[local] Hint Resolve same_objects_refl discard_same unlink_same : core.

Lemma discard_no_success i name c c' : discard_staged i name c <> (c', Ok true).
Proof. unfold discard_staged. destruct (unlink_staged i name c) as [? [[]|]]; simpl; congruence. Qed.

(** Every outcome of [commit_staged_file]. *)
Lemma commit_cases i name expected c c' r :
  commit_staged_file i name expected c = (c', r) ->
  (same_objects c c' /\
     (r <> Ok true \/
      exists f, lc_staging c !! name = Some f /\ validate_sha256_hex expected = Ok (sha256 (sg_content f)) /\
                holds (sha256 (sg_content f)) c = true)) \/
  (r = Ok true /\ exists f, lc_staging c !! name = Some f /\
     validate_sha256_hex expected = Ok (sha256 (sg_content f)) /\
     adds_verified (sha256 (sg_content f)) (sg_content f) c c').
Proof.
  unfold commit_staged_file. destruct (lc_staging c !! name) as [f|] eqn:Ef; [|intros [= <- <-]; left; split; [done|by left]].
  assert (forall c0, same_objects c c0 -> discard_staged i name c0 = (c', r) -> same_objects c c' /\ r <> Ok true) as Hd.
  { intros c0 H0 E. split.
    - eapply same_objects_trans; [done|]. rewrite <- (f_equal fst E : (discard_staged i name c0).1 = c'). done.
    - intros ->. by eapply discard_no_success. }
  destruct (validate_sha256_hex expected) as [norm|e] eqn:Ev; [|intros E; left; destruct (Hd c ltac:(done) E); auto].
  destruct (io_fails i IO_READ); [intros E; left; destruct (Hd c ltac:(done) E); auto|].
  destruct (String.eqb_spec (sha256 (sg_content f)) norm) as [Hh|]; simpl;
    [|intros E; left; destruct (Hd c ltac:(done) E); auto]. subst norm.
  rewrite get_path_valid by apply sha256_is_sha256. simpl.
  destruct (io_fails i IO_MKDIR); [intros E; left; destruct (Hd c ltac:(done) E); auto|].
  assert (same_objects c (make_shard (shard_of (sha256 (sg_content f))) c)) as Hm by (intros p; apply object_at_make_shard).
  destruct (is_file _ (make_shard _ c)) eqn:Efile.
  - assert (holds (sha256 (sg_content f)) c = true) as Hheld.
    { unfold holds. rewrite <- Efile. unfold is_file. by rewrite Hm. }
    destruct (unlink_staged i name _) as [c1 [u|e]] eqn:Eu.
    + intros [= <- <-]. left. split; [|right; by exists f].
      eapply same_objects_trans; [done|]. rewrite <- (f_equal fst Eu : (unlink_staged i name _).1 = c1). done.
    + intros E. left. destruct (Hd c1) as [? ?]; [|done|auto].
      eapply same_objects_trans; [done|]. rewrite <- (f_equal fst Eu : (unlink_staged i name _).1 = c1). done.
  - destruct (io_fails i IO_REPLACE); [intros E; left; destruct (Hd _ Hm E); auto|].
    intros [= <- <-]. right. split; [done|]. exists f. split_and!; [done|done|]. split; [done|].
    split; [unfold holds, is_file in *; by rewrite <- Hm|].
    intros p. rewrite object_at_replace. case_bool_decide; [done|]. apply Hm.
Qed.

Lemma commit_ok i name expected c : cas_ok c -> cas_ok (commit_staged_file i name expected c).1.
Proof.
  intros Hc. destruct (commit_staged_file i name expected c) as [c' r] eqn:E. simpl.
  destruct (commit_cases _ _ _ _ _ _ E) as [[Hs _]|(_ & f & _ & _ & Ha)].
  - by eapply same_objects_ok.
  - by eapply adds_verified_ok.
Qed.

(** ** Histories of a store

    Files appear in the staging directory from outside ([Staged]); everything
    else is an operation of the adapter, under any failure of the system. *)

Inductive cas_op :=
| Staged (name content : string) (now : float)
| Commit (i : io) (name expected_sha256 : string)
| StoreBytes (i : io) (uuid : string) (now : float) (data : string)
| StoreFile (i : io) (uuid : string) (now : float) (src expected_sha256 : option string)
| Prune (i : io) (now : float) (max_age_seconds : option float)
| Delete (i : io) (sha256_hex : string).

Definition stage (name content : string) (now : float) (c : local_cas) : local_cas :=
  with_staging (<[name := {| sg_content := content; sg_mtime := now |}]> (lc_staging c)) c.

Definition cas_step (c : local_cas) (op : cas_op) : local_cas :=
  match op with
  | Staged name content now => stage name content now c
  | Commit i name expected => (commit_staged_file i name expected c).1
  | StoreBytes i uuid now data => (store_bytes i uuid now data c).1
  | StoreFile i uuid now src expected => (store_file i uuid now src expected c).1
  | Prune i now age => (prune_staging i now age c).1
  | Delete i h => (delete_asset i h c).1
  end.

Definition cas_run (c : local_cas) (ops : list cas_op) : local_cas := fold_left cas_step ops c.

Lemma write_staged_same i name data now c : same_objects c (write_staged i name data now c).1.
Proof. unfold write_staged. by destruct (io_fails i IO_WRITE). Qed.

(** An operation other than a deletion changes the objects as a commit does. *)
Definition commit_effect (c c' : local_cas) : Prop :=
  same_objects c c' \/ exists content, adds_verified (sha256 content) content c c'.

Lemma commit_effect_pre c0 c c' : same_objects c0 c -> commit_effect c c' -> commit_effect c0 c'.
Proof.
  intros H0 [H|(content & Hh & Hf & Hp)]; [left; by eapply same_objects_trans|].
  right. exists content. split; [done|]. split; [unfold holds, is_file in *; by rewrite <- H0|].
  intros p. rewrite Hp. case_bool_decide; [done|]. apply H0.
Qed.

Lemma commit_effect_commit i name expected c : commit_effect c (commit_staged_file i name expected c).1.
Proof.
  destruct (commit_staged_file i name expected c) as [c' r] eqn:E. simpl.
  destruct (commit_cases _ _ _ _ _ _ E) as [[Hs _]|(_ & f & _ & _ & Ha)]; [by left|right; by eexists].
Qed.

Lemma commit_effect_store_bytes i uuid now data c : commit_effect c (store_bytes i uuid now data c).1.
Proof.
  unfold store_bytes. pose proof (write_staged_same i (create_staging_file (Some (sha256 data)) "store" uuid) data now c) as Hw.
  destruct (write_staged _ _ _ _ c) as [c1 [u|e]]; simpl in *; [|by left].
  apply (commit_effect_pre _ c1); [done|].
  pose proof (commit_effect_commit i (create_staging_file (Some (sha256 data)) "store" uuid) (sha256 data) c1) as H.
  by destruct (commit_staged_file _ _ _ c1).
Qed.

Lemma commit_effect_store_file i uuid now src expected c : commit_effect c (store_file i uuid now src expected c).1.
Proof.
  unfold store_file. destruct src as [data|]; [|by left]. destruct (io_fails i IO_OPEN); [by left|].
  set (name := create_staging_file expected "import" uuid).
  pose proof (write_staged_same i name data now c) as Hw.
  destruct (write_staged _ _ _ _ c) as [c1 [u|e]]; simpl in *.
  2:{ left. pose proof (unlink_same i name c1) as Hu. destruct (unlink_staged i name c1) as [c2 []]; simpl in *;
      by eapply same_objects_trans. }
  apply (commit_effect_pre _ c1); [done|].
  match goal with |- context [if ?b then _ else _] => destruct b end.
  - left. pose proof (unlink_same i name c1) as Hu. by destruct (unlink_staged i name c1) as [c2 []].
  - match goal with |- context [commit_staged_file i name ?h c1] => pose proof (commit_effect_commit i name h c1) as H;
      by destruct (commit_staged_file i name h c1) end.
Qed.

Lemma object_at_delete i h c :
  (delete_asset i h c).1 = c \/
  exists p, get_path_for_hash h = Ok p /\
    forall q, object_at q (delete_asset i h c).1 = if bool_decide (q = p) then None else object_at q c.
Proof.
  unfold delete_asset. destruct (get_path_for_hash h) as [p|]; [|by left].
  destruct (lc_objects c !! p.1) as [files|] eqn:E1; [|by left].
  destruct (files !! p.2) as [x|] eqn:E2; [|by left].
  destruct (io_fails i (IO_UNLINK p.2)); [by left|]. right. exists p. split; [done|].
  intros [s n]. destruct p as [s' n']. simpl in *. unfold object_at. simpl.
  case_match eqn:Eb; (destruct (decide (s = s')) as [->|Hs];
    [|rewrite ?lookup_delete_ne, ?lookup_insert_ne, bool_decide_false by (done || congruence); done]).
  - rewrite lookup_delete_eq. simpl. apply andb_true_iff in Eb as [He%bool_decide_eq_true _].
    case_bool_decide as Hn; [done|]. rewrite E1. simpl.
    rewrite <- (lookup_delete_ne files n' n) by congruence. by rewrite He.
  - clear Eb. rewrite lookup_insert_eq, E1. simpl. case_bool_decide as Hn.
    + injection Hn as ->. by rewrite lookup_delete_eq.
    + by rewrite lookup_delete_ne by congruence.
Qed.

Lemma cas_step_effect c op : commit_effect c (cas_step c op) \/
  exists i h p, op = Delete i h /\ get_path_for_hash h = Ok p /\
    forall q, object_at q (cas_step c op) = if bool_decide (q = p) then None else object_at q c.
Proof.
  destruct op as [name content now|i name e|i uuid now data|i uuid now src e|i now age|i h]; simpl.
  - left. by left.
  - left. apply commit_effect_commit.
  - left. apply commit_effect_store_bytes.
  - left. apply commit_effect_store_file.
  - left. by left.
  - destruct (object_at_delete i h c) as [->|(p & Hp & H)]; [left; by left|]. right. by exists i, h, p.
Qed.

Lemma cas_step_ok c op : cas_ok c -> cas_ok (cas_step c op).
Proof.
  intros Hc. destruct (cas_step_effect c op) as [[Hs|(x & Ha)]|(i & h & p & -> & _ & H)].
  - by eapply same_objects_ok.
  - by eapply adds_verified_ok.
  - intros q x. rewrite H. case_bool_decide; [done|apply Hc].
Qed.

Lemma cas_run_ok ops : forall c, cas_ok c -> cas_ok (cas_run c ops).
Proof. induction ops as [|op ops IH]; intros c Hc; simpl; [done|]. by apply IH, cas_step_ok. Qed.

Lemma empty_cas_ok : cas_ok empty_cas.
Proof. intros [s n] x. unfold object_at. simpl. by rewrite lookup_empty. Qed.

Lemma inventory_elem c h : cas_ok c -> h ∈ get_inventory_hashes c <-> is_Some (object h c).
Proof.
  intros Hc. unfold get_inventory_hashes, object, object_at. simpl.
  rewrite elem_of_list_to_set, list_elem_of_bind. split.
  - intros ([s files] & Hin & Hs). simpl in Hin. apply elem_of_map_to_list in Hs.
    apply list_elem_of_bind in Hin as ([n x] & Hn & Hf). apply elem_of_map_to_list in Hf. simpl in *.
    assert (object_at (s, n) c = Some x) as Ho by (unfold object_at; simpl; by rewrite Hs).
    destruct (Hc _ _ Ho) as [[= ->] Hh]. simpl in *. subst n.
    rewrite validate_sha256_hex_norm in Hn by apply sha256_is_sha256. apply list_elem_of_singleton in Hn as ->.
    rewrite Hs. simpl. by exists x.
  - intros [x Hx]. destruct (lc_objects c !! shard_of h) as [files|] eqn:Es; [|done]. simpl in Hx.
    exists (shard_of h, files). split; [|by apply elem_of_map_to_list]. simpl.
    apply list_elem_of_bind. exists (h, x). split; [|by apply elem_of_map_to_list]. simpl.
    assert (object_at (shard_of h, h) c = Some x) as Ho by (unfold object_at; simpl; by rewrite Es).
    destruct (Hc _ _ Ho) as [_ Hh]. simpl in Hh. subst h.
    rewrite validate_sha256_hex_norm by apply sha256_is_sha256. by apply list_elem_of_singleton.
Qed.

Definition deletes (h : string) (op : cas_op) : Prop :=
  match op with Delete _ h' => validate_sha256_hex h' = Ok h | _ => False end.

Lemma cas_step_keeps c op h x : object h c = Some x -> ~ deletes h op -> object h (cas_step c op) = Some x.
Proof.
  intros Ho Hd. unfold object in *. destruct (cas_step_effect c op) as [[Hs|(y & Hh & Hf & Hp)]|(i & h' & p & -> & Hp & H)].
  - by rewrite Hs.
  - rewrite Hp. case_bool_decide as E; [|done]. exfalso. injection E as _ ->.
    unfold holds, is_file in Hf. rewrite Ho in Hf. by rewrite bool_decide_true in Hf.
  - rewrite H. case_bool_decide as E; [|done]. exfalso. subst p.
    apply get_path_spec in Hp as (n & Hn & [= _ ->]). done.
Qed.

(** C22: integrity of the store: after any history of stagings, commits, stores,
    prunes and deletions, whatever system calls failed, every object is filed
    in its shard under the digest of its content, the inventory lists exactly
    the digests that have an object, and an object once present keeps its
    content through any further history that does not delete it. *)
Theorem store_integrity ops :
  let c := cas_run empty_cas ops in
  (forall p content, object_at p c = Some content -> p = (shard_of p.2, p.2) /\ sha256 content = p.2) /\
  (forall h, h ∈ get_inventory_hashes c <-> is_Some (object h c)) /\
  (forall h x more, object h c = Some x -> Forall (fun op => ~ deletes h op) more -> object h (cas_run c more) = Some x).
Proof.
  intros c. assert (cas_ok c) as Hc by apply cas_run_ok, empty_cas_ok.
  split; [exact Hc|]. split; [intros h; by apply inventory_elem|]. clear Hc.
  intros h x more. generalize c. induction more as [|op more IH]; intros c0 Hx Hd; simpl; [done|].
  apply Forall_cons in Hd as [Hop Hd]. apply IH; [by apply cas_step_keeps|done].
Qed.

(** ** The missing set *)

(** The reference: every request on its own, answered by a lookup. *)
Definition missing_of (c : local_cas) (raw : string) : gset string :=
  match validate_sha256_hex raw with
  | Ok norm => if holds norm c then ∅ else {[norm]}
  | Err _ => {[str_lower (strip raw)]}
  end.

Definition missing_reference (required_hashes : list string) (c : local_cas) : gset string :=
  ⋃ map (missing_of c) required_hashes.

Lemma split_candidates_elem req : forall valid missing v m,
  split_candidates req valid missing = (v, m) ->
  (forall h, h ∈ v <-> h ∈ valid \/ exists raw, raw ∈ req /\ validate_sha256_hex raw = Ok h) /\
  (forall h, h ∈ m <-> h ∈ missing \/ exists raw e, raw ∈ req /\ validate_sha256_hex raw = Err e /\ h = str_lower (strip raw)).
Proof.
  induction req as [|raw req IH]; intros valid missing v m; simpl.
  - intros [= <- <-]. split; intros h; split; auto.
    + intros [|(? & ?%elem_of_nil & _)]; done.
    + intros [|(? & ? & ?%elem_of_nil & _)]; done.
  - destruct (validate_sha256_hex raw) as [n|e] eqn:E; intros Hs; apply IH in Hs as [Hv Hm]; split; intros h.
    + rewrite Hv, elem_of_union, elem_of_singleton. setoid_rewrite elem_of_cons. split.
      * intros [[->|H]|(r & Hr & Hn)]; [right; exists raw; auto|auto|right; exists r; auto].
      * intros [H|(r & [->|Hr] & Hn)]; [auto|left; left; congruence|right; exists r; auto].
    + rewrite Hm. setoid_rewrite elem_of_cons. split.
      * intros [H|(r & e & Hr & Hn)]; [auto|right; exists r, e; tauto].
      * intros [H|(r & e & [->|Hr] & Hn & ->)]; [auto|congruence|right; exists r, e; auto].
    + rewrite Hv. setoid_rewrite elem_of_cons. split.
      * intros [H|(r & Hr & Hn)]; [auto|right; exists r; auto].
      * intros [H|(r & [->|Hr] & Hn)]; [auto|congruence|right; exists r; auto].
    + rewrite Hm, elem_of_union, elem_of_singleton. setoid_rewrite elem_of_cons. split.
      * intros [[->|H]|(r & e' & Hr & Hn)]; [right; exists raw, e; auto|auto|right; exists r, e'; tauto].
      * intros [H|(r & e' & [->|Hr] & Hn & ->)]; [auto|auto|right; exists r, e'; auto].
Qed.

Lemma holds_iff h c : holds h c = true <-> is_Some (object h c).
Proof. unfold holds, is_file. apply bool_decide_eq_true. Qed.

Lemma missing_elem req c h : cas_ok c ->
  h ∈ get_missing_hashes req c <->
  (exists raw, raw ∈ req /\ validate_sha256_hex raw = Ok h /\ holds h c = false) \/
  (exists raw e, raw ∈ req /\ validate_sha256_hex raw = Err e /\ h = str_lower (strip raw)).
Proof.
  intros Hc. unfold get_missing_hashes. destruct (split_candidates req ∅ ∅) as [v m] eqn:E.
  apply split_candidates_elem in E as [Hv Hm].
  assert (h ∈ v /\ holds h c = false <-> exists raw, raw ∈ req /\ validate_sha256_hex raw = Ok h /\ holds h c = false) as Hvh.
  { rewrite Hv. split.
    - intros [[H|(raw & Hr & Hn)] Hh]; [by apply elem_of_empty in H|]. by exists raw.
    - intros (raw & Hr & Hn & Hh). split; [|done]. right. by exists raw. }
  assert (h ∈ m <-> exists raw e, raw ∈ req /\ validate_sha256_hex raw = Err e /\ h = str_lower (strip raw)) as Hmh.
  { rewrite Hm. split; [intros [H|H]; [by apply elem_of_empty in H|done]|auto]. }
  rewrite <- Hvh, <- Hmh. clear Hvh Hmh Hv Hm. destruct (Nat.ltb 32 (size v)).
  - rewrite elem_of_union, elem_of_difference, inventory_elem, <- holds_iff, not_true_iff_false by done. tauto.
  - rewrite elem_of_union, elem_of_filter. unfold holds. tauto.
Qed.

(** The missing set of a well-formed store is exact: looking hashes up one
    by one and subtracting the whole inventory both give the requested digests
    that have no object, plus the lower-cased requests that are no digests. *)
Theorem missing_set_exact ops required_hashes :
  let c := cas_run empty_cas ops in
  get_missing_hashes required_hashes c = missing_reference required_hashes c.
Proof.
  intros c. apply set_eq. intros h. rewrite missing_elem by apply cas_run_ok, empty_cas_ok.
  unfold missing_reference. rewrite elem_of_union_list. setoid_rewrite list_elem_of_fmap. unfold missing_of. split.
  - intros [(raw & Hr & Hn & Hh)|(raw & e & Hr & Hn & ->)].
    + exists {[h]}. split; [|set_solver]. exists raw. by rewrite Hn, Hh.
    + exists {[str_lower (strip raw)]}. split; [|set_solver]. exists raw. by rewrite Hn.
  - intros (X & (raw & -> & Hr) & Hh). destruct (validate_sha256_hex raw) as [n|e] eqn:E.
    + destruct (holds n c) eqn:Eh; [by apply elem_of_empty in Hh|]. apply elem_of_singleton in Hh as ->.
      left. by exists raw.
    + apply elem_of_singleton in Hh as ->. right. by exists raw, e.
Qed.

(** ** Commits, stores and reads *)

Lemma commit_consumes i name expected c c' r :
  commit_staged_file i name expected c = (c', r) -> io_fails i (IO_UNLINK name) = false -> lc_staging c' !! name = None.
Proof.
  intros E Hu. revert E. unfold commit_staged_file.
  assert (forall c0 x, discard_staged i name c0 = (c', x) -> lc_staging c' !! name = None) as Hd.
  { intros c0 x. unfold discard_staged. rewrite unlink_staged_cases, Hu. intros [= <- _]. apply lookup_delete_eq. }
  destruct (lc_staging c !! name) as [f|] eqn:Ef; [|by intros [= <- _]].
  destruct (validate_sha256_hex expected) as [norm|e] eqn:Ev; [|apply Hd].
  destruct (io_fails i IO_READ); [apply Hd|]. destruct (negb _); [apply Hd|].
  rewrite get_path_valid by (by apply validate_sha256_hex_lemma in Ev as [? _]).
  destruct (io_fails i IO_MKDIR); [apply Hd|]. destruct (is_file _ _).
  - rewrite unlink_staged_cases. simpl. rewrite Hu. intros [= <- _]. apply lookup_delete_eq.
  - destruct (io_fails i IO_REPLACE); [apply Hd|]. intros [= <- _]. simpl. apply lookup_delete_eq.
Qed.

Lemma commit_accepts_iff i name expected c c' r :
  commit_staged_file i name expected c = (c', r) ->
  r = Ok true <->
  exists f, lc_staging c !! name = Some f /\ validate_sha256_hex expected = Ok (sha256 (sg_content f)) /\
    io_fails i IO_READ = false /\ io_fails i IO_MKDIR = false /\
    io_fails i (if holds (sha256 (sg_content f)) c then IO_UNLINK name else IO_REPLACE) = false.
Proof.
  unfold commit_staged_file. destruct (lc_staging c !! name) as [f|] eqn:Ef;
    [|intros [= <- <-]; split; [done|by intros (f & ? & _)]].
  assert (forall c0 (P : Prop), discard_staged i name c0 = (c', r) -> ~ P -> r = Ok true <-> P) as Hd.
  { intros c0 P E HP. split; [|by intros H]. intros ->. exfalso. by eapply discard_no_success. }
  destruct (validate_sha256_hex expected) as [norm|e] eqn:Ev;
    [|intros E; apply (Hd _ _ E); by intros (? & _ & ? & _)].
  destruct (io_fails i IO_READ) eqn:Er; [intros E; apply (Hd _ _ E); by intros (? & _ & _ & ? & _)|].
  destruct (String.eqb_spec (sha256 (sg_content f)) norm) as [Hh|Hh]; simpl;
    [|intros E; apply (Hd _ _ E); intros (? & [= <-] & [= ?] & _); congruence]. subst norm.
  rewrite get_path_valid by apply sha256_is_sha256.
  destruct (io_fails i IO_MKDIR) eqn:Em; [intros E; apply (Hd _ _ E); by intros (? & _ & _ & _ & ? & _)|].
  assert (is_file (shard_of (sha256 (sg_content f)), sha256 (sg_content f)) (make_shard (shard_of (sha256 (sg_content f))) c)
    = holds (sha256 (sg_content f)) c) as Hf by (unfold holds, is_file; by rewrite object_at_make_shard).
  simpl. rewrite Hf. destruct (holds (sha256 (sg_content f)) c) eqn:Eh.
  - rewrite unlink_staged_cases. simpl. rewrite Ef, (bool_decide_false (Some f = None)), orb_false_r by done.
    destruct (io_fails i (IO_UNLINK name)) eqn:Eu; simpl.
    + intros E. apply (Hd _ _ E). intros (? & [= <-] & _ & _ & _ & H). rewrite Eh in H. congruence.
    + intros [= <- <-]. split; [|done]. intros _. exists f. rewrite Eh. done.
  - destruct (io_fails i IO_REPLACE) eqn:Ep.
    + intros E. apply (Hd _ _ E). intros (? & [= <-] & _ & _ & _ & H). rewrite Eh in H. congruence.
    + intros [= <- <-]. split; [|done]. intros _. exists f. rewrite Eh. done.
Qed.

Lemma commit_holds i name expected c c' :
  commit_staged_file i name expected c = (c', Ok true) -> has_asset expected c' = true.
Proof.
  intros E. unfold has_asset, get_path_for_hash.
  destruct (commit_cases _ _ _ _ _ _ E) as [[Hs [H|(f & Hf & -> & Hh)]]|(_ & f & Hf & -> & _ & _ & Hp)]; [done|..]; simpl.
  - unfold is_file. rewrite Hs. apply Hh.
  - unfold is_file. rewrite Hp, (bool_decide_true (_ = _)) by done. done.
Qed.

(** ** Stores only grow *)

Definition grows (c c' : local_cas) : Prop := forall h x, object h c = Some x -> object h c' = Some x.

Lemma grows_refl c : grows c c.
Proof. by intros h x. Qed.
Lemma grows_trans c1 c2 c3 : grows c1 c2 -> grows c2 c3 -> grows c1 c3.
Proof. intros H1 H2 h x Hx. by apply H2, H1. Qed.
#[local] Hint Resolve grows_refl : core.

Lemma commit_effect_grows c c' : commit_effect c c' -> grows c c'.
Proof.
  intros [Hs|(y & _ & Hf & Hp)] h x Hx; unfold object in *; [by rewrite Hs|].
  rewrite Hp. case_bool_decide as E; [|done]. exfalso. injection E as _ ->.
  unfold holds, is_file in Hf. rewrite Hx in Hf. by rewrite bool_decide_true in Hf.
Qed.

Lemma commit_effect_ok c c' : commit_effect c c' -> cas_ok c -> cas_ok c'.
Proof. intros [Hs|(y & Ha)]; [by apply same_objects_ok|by apply adds_verified_ok with (sha256 y) y]. Qed.

Lemma grows_holds c c' h : grows c c' -> holds h c = true -> holds h c' = true.
Proof. rewrite !holds_iff. intros Hg [x Hx]. exists x. by apply Hg. Qed.

(** [c'] is a well-formed store that keeps everything of [c]. *)
Definition extends (c c' : local_cas) : Prop := (cas_ok c -> cas_ok c') /\ grows c c'.

Lemma extends_refl c : extends c c.
Proof. done. Qed.
Lemma extends_trans c1 c2 c3 : extends c1 c2 -> extends c2 c3 -> extends c1 c3.
Proof. intros [A1 G1] [A2 G2]. split; [auto|by eapply grows_trans]. Qed.
Lemma commit_effect_extends c c' : commit_effect c c' -> extends c c'.
Proof. intros H. split; [by apply commit_effect_ok|by apply commit_effect_grows]. Qed.
#[local] Hint Resolve extends_refl : core.

#[export] Instance extends_preorder : PreOrder extends.
Proof. split; [intros c; apply extends_refl|intros c1 c2 c3; apply extends_trans]. Qed.

(** A stored file is filed under its digest. *)
Lemma store_file_ok i uuid now src c c' h :
  store_file i uuid now src None c = (c', Ok h) -> exists data, src = Some data /\ h = sha256 data /\ holds h c' = true.
Proof.
  unfold store_file. destruct src as [data|]; [|done]. destruct (io_fails i IO_OPEN); [done|].
  destruct (write_staged _ _ _ _ c) as [c1 [u|e]]; [|by destruct (unlink_staged _ _ c1) as [? []]]. simpl.
  destruct (commit_staged_file i _ (sha256 data) c1) as [c2 r] eqn:E. intros [= <- H].
  apply res_bind_ok in H as (b & -> & H). destruct b; [|done]. injection H as <-. exists data. split_and!; [done|done|].
  apply commit_holds in E. unfold has_asset in E. by rewrite get_path_valid in E by apply sha256_is_sha256.
Qed.

Lemma commit_refused i name expected c c' r :
  commit_staged_file i name expected c = (c', r) -> r <> Ok true -> same_objects c c'.
Proof. intros E Hr. destruct (commit_cases _ _ _ _ _ _ E) as [[Hs _]|(-> & _)]; done. Qed.

(** A commit answers [True] exactly when the staged file exists, its content
    has the expected digest, it could be read and its shard made, and either the
    object was already there and the staged copy could be deleted or the rename
    went through; the object is then in the store.  Otherwise the objects are
    as they were.  Either way the staged file is gone unless the system refused
    to delete it. *)
Theorem commit_staged_correct i name expected c c' r :
  commit_staged_file i name expected c = (c', r) ->
  (r = Ok true <->
     exists f, lc_staging c !! name = Some f /\ validate_sha256_hex expected = Ok (sha256 (sg_content f)) /\
       io_fails i IO_READ = false /\ io_fails i IO_MKDIR = false /\
       io_fails i (if holds (sha256 (sg_content f)) c then IO_UNLINK name else IO_REPLACE) = false) /\
  (r = Ok true -> has_asset expected c' = true) /\
  (r <> Ok true -> forall p, object_at p c' = object_at p c) /\
  (io_fails i (IO_UNLINK name) = false -> lc_staging c' !! name = None).
Proof.
  intros E. split_and!.
  - apply (commit_accepts_iff _ _ _ _ _ _ E).
  - intros ->. by apply (commit_holds _ _ _ _ _ E).
  - by apply (commit_refused _ _ _ _ _ _ E).
  - intros Hu. by apply (commit_consumes _ _ _ _ _ _ E).
Qed.

(** Round trip: bytes stored without a failing system call are filed under
    their digest, and a stream opened at any offset within them reads exactly
    the rest of those bytes; an offset past the end raises [IndexError]. *)
Theorem store_open_roundtrip uuid now data c offset :
  (forall x, object (sha256 data) c = Some x -> x = data) ->
  let '(c', r) := store_bytes io_ok uuid now data c in
  r = Ok (sha256 data) /\
  (0 <= offset <= str_len data ->
     open_asset_stream (sha256 data) offset c' =
       Ok (str_drop (Z.to_nat offset) data)) /\
  (str_len data < offset -> open_asset_stream (sha256 data) offset c' = Err IndexError).
Proof.
  intros Hsame. unfold store_bytes. simpl.
  set (name := create_staging_file _ _ _). set (c1 := with_staging _ c).
  destruct (commit_staged_file io_ok name (sha256 data) c1) as [c' r] eqn:E.
  assert (r = Ok true /\ object (sha256 data) c' = Some data) as [-> Ho].
  { pose proof E as E'. unfold commit_staged_file in E'.
    assert (lc_staging c1 !! name = Some {| sg_content := data; sg_mtime := now |}) as Hst by apply lookup_insert_eq.
    rewrite Hst in E'. simpl in E'.
    rewrite validate_sha256_hex_norm, String.eqb_refl in E' by apply sha256_is_sha256. simpl in E'.
    rewrite get_path_valid in E' by apply sha256_is_sha256. simpl in E'.
    destruct (is_file _ (make_shard _ c1)) eqn:Ef.
    - rewrite unlink_staged_cases in E'. simpl in E'. injection E' as <- <-. split; [done|].
      unfold is_file in Ef. rewrite object_at_make_shard in Ef. apply bool_decide_eq_true in Ef as [x Hx].
      unfold object. transitivity (object_at (shard_of (sha256 data), sha256 data) c1).
      + erewrite (object_at_objects _ (make_shard (shard_of (sha256 data)) c1)) by done. apply object_at_make_shard.
      + rewrite Hx. f_equal. by apply Hsame.
    - injection E' as <- <-. split; [done|]. unfold object. rewrite object_at_replace. by rewrite bool_decide_true. }
  split; [done|]. unfold open_asset_stream, get_asset_path.
  rewrite get_path_valid by apply sha256_is_sha256.
  assert (is_file (shard_of (sha256 data), sha256 data) c' = true) as -> by (apply holds_iff; by exists data).
  change (object_at (shard_of (sha256 data), sha256 data) c') with (object (sha256 data) c').
  rewrite Ho. simpl. split.
  - intros [H1 H2]. destruct (Z.ltb_spec offset 0); [lia|]. destruct (Z.ltb_spec (str_len data) offset); [lia|done].
  - intros H. unfold str_len in *. destruct (Z.ltb_spec offset 0); [lia|].
    destruct (Z.ltb_spec (Z.of_nat (String.length data)) offset); [done|lia].
Qed.

(** ** Concrete stores *)

Lemma empty_object h : object h empty_cas = None.
Proof. unfold object, object_at. simpl. by rewrite lookup_empty. Qed.

Lemma store_open_witness :
  let '(c, r) := store_bytes io_ok "u1" f0 "abc" empty_cas in
  open_asset_stream (sha256 "abc") 1 c = Ok "bc"%string /\ open_asset_stream (sha256 "abc") 4 c = Err IndexError.
Proof.
  assert (forall x, object (sha256 "abc") empty_cas = Some x -> x = "abc"%string) as H
    by (intros x; rewrite empty_object; discriminate).
  pose proof (store_open_roundtrip "u1" f0 "abc" empty_cas 1 H) as H1.
  pose proof (store_open_roundtrip "u1" f0 "abc" empty_cas 4 H) as H4.
  destruct (store_bytes io_ok "u1" f0 "abc" empty_cas) as [c r].
  destruct H1 as (_ & H1 & _). destruct H4 as (_ & _ & H4). split.
  - rewrite H1; [reflexivity|split; [lia|vm_compute; discriminate]].
  - apply H4. reflexivity.
Defined.

(** A file staged under a wrong digest is refused and deleted. *)
Lemma commit_staged_witness :
  let c := stage "t" "abc" f0 empty_cas in
  exists c' r, commit_staged_file io_ok "t" (sha256 "abd") c = (c', r) /\
    (forall p, object_at p c' = object_at p c) /\ lc_staging c' !! "t"%string = None.
Proof.
  set (c := stage "t" "abc" f0 empty_cas).
  destruct (commit_staged_file io_ok "t" (sha256 "abd") c) as [c' r] eqn:E. exists c', r. split; [exact E|].
  destruct (commit_staged_correct io_ok "t" (sha256 "abd") c c' r E) as (_ & _ & H3 & H4).
  split; [|apply H4; reflexivity]. apply H3. intros ->.
  assert ((commit_staged_file io_ok "t" (sha256 "abd") c).2 = Ok true) as Ht by (rewrite E; reflexivity).
  vm_compute in Ht. discriminate Ht.
Defined.

Lemma store_integrity_witness :
  object (sha256 "abc") (cas_run (cas_run empty_cas [StoreBytes io_ok "u1" f0 "abc"]) [Prune io_ok f0 None]) = Some "abc"%string.
Proof.
  destruct (store_integrity [StoreBytes io_ok "u1" f0 "abc"]) as (_ & _ & H). apply H.
  - vm_compute. reflexivity.
  - constructor; [exact (fun x => x)|constructor].
Defined.

(** A file in the wrong shard is listed by the inventory and found by nobody:
    on such a store the two ways of computing the missing set disagree. *)
Example misfiled :
  let c := {| lc_objects := {["zz"%string := {[sha256 "abc" := "abc"%string]}]}; lc_staging := ∅ |} in
  get_inventory_hashes c = {[sha256 "abc"]} /\ has_asset (sha256 "abc") c = false.
Proof. split; vm_compute; reflexivity. Qed.
