(* ===== verification/Transfer.v ===== *)
(** * Binary transfers ([distributed/transfer.py])

    Range headers, bounded chunks, the streaming download into a staging file
    and the transfer with fail-over.  The HTTP client is the argument [peer]:
    what a GET of a URL with a Range header meets.  A reply is its status, its
    Content-Length header, the chunks of its body and, when the connection
    breaks, the error that follows them.  [io] says which system calls fail, as
    in [Cas].  The random part of a staging name and the clock readings are
    arguments.  Progress and error callbacks, whose exceptions are swallowed,
    are left out. *)
From S2P Require Export Cas Prioritizer.
#[local] Arguments flit : simpl never.

Definition DEFAULT_CHUNK_SIZE : Z := 1024 * 1024.

(** [str(exc)] *)
Definition exn_text (e : exn) : string :=
  match e with
  | ValueError m | OSError m | RuntimeError m | HTTPException _ m | WorkerHttpError _ m | StreamAbortError m
  | IntegrityError m | CASCommitError m | CandidateExhaustedError m | AttributeError m => m
  | KeyError k => "'" +:+ k +:+ "'"
  | _ => ""
  end.

(** ** Range headers *)

(** [^bytes=(\d+)-(\d+)?$] on a stripped string. *)
Definition match_range (s : string) : option (string * option string) :=
  if negb (starts_with "bytes=" s) then None
  else
    match split_once "-"%char (str_drop 6 s) with
    | None => None
    | Some (a, b) =>
        if negb (str_truthy a) || negb (str_forallb is_digit a) || negb (str_forallb is_digit b) then None
        else Some (a, if str_truthy b then Some b else None)
    end.

Definition decimal (s : string) : Z := default 0 (py_int s).

Definition parse_byte_range_header (range_header : option string) (total_size : Z) : res (Z * Z * Z * bool) :=
  match range_header with
  | Some header =>
      if str_truthy (strip header) then
        match match_range (strip header) with
        | None => Err (ValueError "Invalid Range header syntax")
        | Some (start_str, end_str) =>
            let start := decimal start_str in
            if total_size =? 0 then
              if start =? 0 then Ok (0, 0, 0, true) else Err IndexError
            else if (start <? 0) || (total_size <=? start) then Err IndexError
            else
              let! end_ :=
                match end_str with
                | Some e => let e := decimal e in if e <? start then Err IndexError else Ok (Z.min e (total_size - 1))
                | None => Ok (total_size - 1)
                end in
              Ok (start, end_, Z.max 0 (end_ - start + 1), true)
        end
      else Ok (0, if 0 <? total_size then Z.max 0 (total_size - 1) else 0, total_size, false)
  | None => Ok (0, if 0 <? total_size then Z.max 0 (total_size - 1) else 0, total_size, false)
  end.

(** The chunks a generator yields from a stream positioned on [stream]; every
    chunk but an empty one shortens what remains, so the bytes left bound the
    turns. *)
Fixpoint chunk_loop (fuel : nat) (chunk_size bytes_remaining : Z) (stream : string) : list string :=
  match fuel with
  | O => []
  | S fuel =>
      if bytes_remaining <=? 0 then []
      else
        let read_size := Z.to_nat (Z.min chunk_size bytes_remaining) in
        let chunk := str_take read_size stream in
        if negb (str_truthy chunk) then []
        else chunk :: chunk_loop fuel chunk_size (bytes_remaining - str_len chunk) (str_drop read_size stream)
  end.

Definition generate_bounded_chunks (stream : string) (bytes_to_send chunk_size : Z) : list string :=
  let chunk_size := Z.max 1024 chunk_size in
  let bytes_remaining := Z.max 0 bytes_to_send in
  chunk_loop (Z.to_nat bytes_remaining) chunk_size bytes_remaining stream.

(** ** The streaming download *)

Record response := {
  rp_status : Z;
  rp_content_length : option string;
  rp_chunks : list string;
  rp_broken : option string;
}.

Inductive http_reply :=
| Reply (r : response)
| RequestFailed (msg : string).

Definition peer := string -> option string -> http_reply.

(** One attempt: its system calls, the random part of the staging name, and the
    clock when the file is written and over the whole transfer. *)
Record attempt_env := { at_io : io; at_uuid : string; at_now : float; at_elapsed : float }.

Definition staging_path (norm uuid : string) : string := norm +:+ "_" +:+ uuid +:+ ".tmp".

Definition clean_url (endpoint_url : string) : string := rstrip_char "/"%char (strip endpoint_url).

Definition stream_url (endpoint_url norm : string) : string :=
  clean_url endpoint_url +:+ "/api/v1/assets/" +:+ norm +:+ "/stream".

(** Leaving the staging context by an exception: the file, if there is one, is
    deleted; a refusal of the system is swallowed.  [written] is what the
    staging file holds, [None] before it is opened. *)
Definition abandon (at_ : attempt_env) (name : string) (written : option string) (c : local_cas) (e : exn)
    : local_cas * res (string * string * Z) :=
  (match written with
   | Some data => if io_fails (at_io at_) (IO_UNLINK name) then stage name data (at_now at_) c
                  else with_staging (delete name (lc_staging c)) c
   | None => c
   end, Err e).

(** The bytes of a partial staging file a download may resume from. *)
Definition usable_prefix (offset : Z) (resume_staging_path : option string) : option string :=
  match resume_staging_path with
  | Some data => if (0 <? offset) && (str_len data =? offset) then Some data else None
  | None => None
  end.

Definition unexpected (endpoint_url msg : string) : exn :=
  StreamAbortError ("Unexpected error streaming from " +:+ endpoint_url +:+ ": " +:+ msg).

(** [async for chunk in response.aiter_bytes()]: the bytes hashed and written. *)
Fixpoint receive (chunks : list string) (hashed file : string) (bytes_received : Z) : string * string * Z :=
  match chunks with
  | [] => (hashed, file, bytes_received)
  | chunk :: chunks =>
      if negb (str_truthy chunk) then receive chunks hashed file bytes_received
      else receive chunks (hashed +:+ chunk) (file +:+ chunk) (bytes_received + str_len chunk)
  end.

Definition expected_bytes (r : response) : option Z :=
  match rp_content_length r with Some h => if str_truthy h then py_int h else None | None => None end.

(** From the reply to the verified staging file. *)
Definition receive_response (at_ : attempt_env) (endpoint_url norm name : string) (offset : Z)
    (prefix : option string) (r : response) (c : local_cas) : local_cas * res (string * string * Z) :=
  if rp_status r =? 404 then
    abandon at_ name prefix c (WorkerHttpError 404 ("Asset " +:+ norm +:+ " not found on peer " +:+ endpoint_url))
  else if negb ((rp_status r =? 200) || (rp_status r =? 206)) then
    abandon at_ name prefix c
      (WorkerHttpError (rp_status r) ("Peer " +:+ endpoint_url +:+ " returned HTTP " +:+ str_of_Z (rp_status r)))
  else
    let kept := if rp_status r =? 200 then None else prefix in
    let has_prefix_on_disk := bool_decide (is_Some kept) in
    let file := if (rp_status r =? 206) && has_prefix_on_disk then default "" prefix else "" in
    if io_fails (at_io at_) IO_WRITE then
      abandon at_ name (Some (io_partial (at_io at_) file)) c (unexpected endpoint_url "write")
    else
      let '(hashed, file, bytes_received) := receive (rp_chunks r) (default "" kept) file 0 in
      match rp_broken r with
      | Some msg =>
          abandon at_ name (Some file) c
            (StreamAbortError ("Network error streaming from " +:+ endpoint_url +:+ ": " +:+ msg))
      | None =>
          if match expected_bytes r with Some n => negb (bytes_received =? n) | None => false end then
            abandon at_ name (Some file) c
              (StreamAbortError ("Stream truncated: received " +:+ str_of_Z bytes_received +:+ " bytes, expected "
                                 +:+ str_of_Z (default 0 (expected_bytes r)) +:+ " bytes"))
          else
            let actual_hash := sha256 hashed in
            if ((offset =? 0) || has_prefix_on_disk || (rp_status r =? 200)) && negb (String.eqb actual_hash norm) then
              abandon at_ name (Some file) c
                (IntegrityError ("SHA-256 checksum mismatch: expected " +:+ norm +:+ ", got " +:+ actual_hash))
            else (stage name file (at_now at_) c, Ok (name, actual_hash, bytes_received))
      end.

Definition download_stream_to_staging (net : peer) (at_ : attempt_env) (endpoint_url sha : string) (offset : Z)
    (resume_staging_path : option string) (c : local_cas) : local_cas * res (string * string * Z) :=
  match validate_sha256_hex sha with
  | Err e => (c, Err e)
  | Ok norm =>
      let url := stream_url endpoint_url norm in
      let range := if 0 <? offset then Some ("bytes=" +:+ str_of_Z offset +:+ "-") else None in
      let name := staging_path norm (at_uuid at_) in
      if io_fails (at_io at_) IO_STAGING_DIR then (c, Err (OSError "mkdir"))
      else
        let prefix := usable_prefix offset resume_staging_path in
        if bool_decide (is_Some prefix) && io_fails (at_io at_) IO_WRITE then
          abandon at_ name (Some (io_partial (at_io at_) (default "" prefix))) c (unexpected endpoint_url "write")
        else
          match net url range with
          | RequestFailed msg =>
              abandon at_ name prefix c
                (StreamAbortError ("Network error streaming from " +:+ endpoint_url +:+ ": " +:+ msg))
          | Reply r => receive_response at_ endpoint_url norm name offset prefix r c
          end
  end.

(** ** Transfers *)

(** A committed path is kept as the shard and the file below [objects]. *)
Record transfer_result := {
  tr_sha256 : string;
  tr_success : bool;
  tr_bytes_transferred : Z;
  tr_total_bytes : Z;
  tr_verified_sha256 : option string;
  tr_committed_path : option (string * string);
  tr_source_worker_id : option string;
  tr_source_endpoint_url : option string;
  tr_resumed_bytes : Z;
  tr_retry_count : Z;
  tr_duration_seconds : float;
  tr_error_message : option string;
}.

(** The result of a local hit. *)
Definition local_hit (i : io) (norm : string) (c : local_cas) : transfer_result :=
  {| tr_sha256 := norm; tr_success := true; tr_bytes_transferred := 0;
     tr_total_bytes := default 0 (get_asset_size i norm c); tr_verified_sha256 := Some norm;
     tr_committed_path := get_asset_path norm c; tr_source_worker_id := Some "local_cas"%string;
     tr_source_endpoint_url := Some "local://cas"%string; tr_resumed_bytes := 0; tr_retry_count := 0;
     tr_duration_seconds := f0; tr_error_message := None |}.

Definition failed_transfer (norm : string) (source_worker_id source_endpoint_url : option string) (duration : float)
    (msg : string) : transfer_result :=
  {| tr_sha256 := norm; tr_success := false; tr_bytes_transferred := 0; tr_total_bytes := 0; tr_verified_sha256 := None;
     tr_committed_path := None; tr_source_worker_id := source_worker_id; tr_source_endpoint_url := source_endpoint_url;
     tr_resumed_bytes := 0; tr_retry_count := 0; tr_duration_seconds := duration; tr_error_message := Some msg |}.

(** The [except] of a candidate: the staged file is deleted if it is still there. *)
Definition candidate_failed (at_ : attempt_env) (norm worker_id endpoint_url : string) (stg_path : option string)
    (e : exn) (c : local_cas) : local_cas * transfer_result :=
  (match stg_path with Some name => (unlink_staged (at_io at_) name c).1 | None => c end,
   failed_transfer norm (Some worker_id) (Some endpoint_url) (fmax (flit 1 4) (at_elapsed at_)) (exn_text e)).

Definition transfer_asset_from_candidate (net : peer) (at_ : attempt_env) (candidate : candidate_source) (sha : string)
    (c : local_cas) : local_cas * res transfer_result :=
  let worker_id := cs_worker_id candidate in
  let endpoint_url := cs_endpoint_url candidate in
  match validate_sha256_hex sha with
  | Err e => (c, Err e)
  | Ok norm =>
      if has_asset norm c then (c, Ok (local_hit (at_io at_) norm c))
      else
        match download_stream_to_staging net at_ endpoint_url norm 0 None c with
        | (c, Err e) => let '(c, r) := candidate_failed at_ norm worker_id endpoint_url None e c in (c, Ok r)
        | (c, Ok (stg_path, verified_hash, bytes_transferred)) =>
            match commit_staged_file (at_io at_) stg_path norm c with
            | (c, Err e) => let '(c, r) := candidate_failed at_ norm worker_id endpoint_url (Some stg_path) e c in (c, Ok r)
            | (c, Ok false) =>
                let '(c, r) := candidate_failed at_ norm worker_id endpoint_url (Some stg_path)
                                 (CASCommitError ("CASAdapter failed to commit staged file for " +:+ norm)) c in (c, Ok r)
            | (c, Ok true) =>
                (c, Ok {| tr_sha256 := norm; tr_success := true; tr_bytes_transferred := bytes_transferred;
                          tr_total_bytes := bytes_transferred; tr_verified_sha256 := Some verified_hash;
                          tr_committed_path := get_asset_path norm c; tr_source_worker_id := Some worker_id;
                          tr_source_endpoint_url := Some endpoint_url; tr_resumed_bytes := 0; tr_retry_count := 0;
                          tr_duration_seconds := fmax (flit 1 4) (at_elapsed at_); tr_error_message := None |})
            end
        end
  end.

Fixpoint try_candidates (net : peer) (env : nat -> attempt_env) (n : nat) (norm : string) (total : Z)
    (candidates : list candidate_source) (last_error : option string) (c : local_cas) : local_cas * res transfer_result :=
  match candidates with
  | [] => (c, Err (CandidateExhaustedError ("All " +:+ str_of_Z total +:+ " candidates failed for asset " +:+ norm
                    +:+ ". Last error: " +:+ default "None"%string last_error)))
  | cand :: rest =>
      match transfer_asset_from_candidate net (env n) cand norm c with
      | (c, Err e) => (c, Err e)
      | (c, Ok result) =>
          if tr_success result then (c, Ok result)
          else try_candidates net env (S n) norm total rest (tr_error_message result) c
      end
  end.

Definition transfer_asset_with_failover (net : peer) (env : nat -> attempt_env) (candidates : list candidate_source)
    (sha : string) (c : local_cas) : local_cas * res transfer_result :=
  match validate_sha256_hex sha with
  | Err e => (c, Err e)
  | Ok norm =>
      if has_asset norm c then (c, Ok (local_hit (at_io (env 0%nat)) norm c))
      else if bool_decide (candidates = []) then
        (c, Err (CandidateExhaustedError ("No candidate sources provided for asset " +:+ norm)))
      else try_candidates net env 0 norm (Z.of_nat (length candidates)) candidates None c
  end.

(** ** Ranges and chunks *)

(** A range header is read safely: a span that is granted lies within the
    file, is its whole content when the reply is not partial, and is not empty
    unless the file is; [ValueError] is raised exactly for a header that does
    not have the range syntax, [IndexError] only for one that has. *)
Theorem parse_range_correct header total :
  0 <= total ->
  match parse_byte_range_header header total with
  | Ok (start, end_, n, partial) =>
      0 <= start /\ 0 <= n /\ start + n <= total /\ (0 < total -> 0 < n /\ end_ = start + n - 1) /\
      (partial = false -> start = 0 /\ n = total)
  | Err e =>
      exists h, header = Some h /\ str_truthy (strip h) = true /\
        ((match_range (strip h) = None /\ exists m, e = ValueError m) \/
         (match_range (strip h) <> None /\ e = IndexError))
  end.
Proof.
  intros Ht. unfold parse_byte_range_header. destruct header as [h|].
  2:{ destruct (Z.ltb_spec 0 total); split_and!; lia. }
  destruct (str_truthy (strip h)) eqn:E; [|destruct (Z.ltb_spec 0 total); split_and!; lia].
  destruct (match_range (strip h)) as [[a b]|] eqn:Em; [|exists h; split_and!; [done|done|]; left; eauto].
  assert (exists h0, Some h = Some h0 /\ str_truthy (strip h0) = true /\
        ((match_range (strip h0) = None /\ exists m, IndexError = ValueError m) \/
         (match_range (strip h0) <> None /\ IndexError = IndexError))) as Herr.
  { exists h. split_and!; [done|done|]. right. split; [congruence|done]. }
  destruct (Z.eqb_spec total 0) as [->|Hz].
  - destruct (Z.eqb_spec (decimal a) 0); [split_and!; lia|done].
  - destruct (Z.ltb_spec (decimal a) 0), (Z.leb_spec total (decimal a)); simpl; try done.
    destruct b as [b|]; simpl; [|split_and!; lia].
    destruct (Z.ltb_spec (decimal b) (decimal a)); simpl; [done|]. split_and!; lia.
Qed.

Lemma str_truthy_false s : str_truthy s = false -> s = EmptyString.
Proof. by destruct s. Qed.

Lemma chunk_loop_concat size : 0 < size -> forall fuel n s, (Z.to_nat n <= fuel)%nat ->
  str_concat (chunk_loop fuel size n s) = str_take (Z.to_nat n) s.
Proof.
  intros Hs. induction fuel as [|fuel IH]; intros n s Hf; cbn [chunk_loop].
  - assert (Z.to_nat n = 0%nat) as -> by lia. done.
  - destruct (Z.leb_spec n 0) as [Hn|Hn]; [assert (Z.to_nat n = 0%nat) as -> by lia; done|].
    set (k := Z.to_nat (Z.min size n)).
    destruct (str_truthy (str_take k s)) eqn:E; cbn [negb].
    + cbn [str_concat]. assert (str_len (str_take k s) = Z.of_nat (Nat.min k (String.length s))) as Hl
        by (unfold str_len; by rewrite str_take_length).
      assert (0 < str_len (str_take k s)) by (destruct (str_take k s); [done|unfold str_len; cbn; lia]).
      rewrite IH by lia.
      destruct (Nat.le_gt_cases k (String.length s)) as [Hk|Hk].
      * rewrite Hl, Nat.min_l by lia. replace (Z.to_nat n) with (k + Z.to_nat (n - Z.of_nat k))%nat by lia.
        by rewrite str_take_split.
      * assert (str_drop k s = EmptyString) as -> by (apply str_length_0; rewrite str_drop_length; lia).
        rewrite !(str_take_all _ s), (str_take_all _ EmptyString) by (simpl; lia). apply str_app_nil.
    + apply str_truthy_false in E. assert (s = EmptyString) as ->.
      { apply str_length_0. apply (f_equal String.length) in E. rewrite str_take_length in E. simpl in E. lia. }
      by destruct (Z.to_nat n).
Qed.

Lemma chunk_loop_bounded size fuel : forall n s,
  Forall (fun ch => ch <> EmptyString /\ str_len ch <= size) (chunk_loop fuel size n s) \/ size < 0.
Proof.
  induction fuel as [|fuel IH]; intros n s; cbn [chunk_loop]; [by left|].
  destruct (Z.leb_spec n 0); [by left|]. destruct (str_truthy _) eqn:E; cbn [negb]; [|by left].
  destruct (IH (n - str_len (str_take (Z.to_nat (Z.min size n)) s)) (str_drop (Z.to_nat (Z.min size n)) s)) as [H'|?]; [|by right].
  destruct (Z.ltb_spec size 0); [by right|]. left. constructor; [|done]. split; [by destruct (str_take _ s)|].
  unfold str_len. rewrite str_take_length. lia.
Qed.

(** The chunks of a bounded stream are the next [bytes_to_send] bytes of it
    (all of them when it is shorter), in order; the generator ends, no chunk is
    empty and none is longer than the chunk size, at least 1024. *)
Theorem bounded_chunks_exact stream bytes_to_send chunk_size :
  let l := generate_bounded_chunks stream bytes_to_send chunk_size in
  str_concat l = str_take (Z.to_nat bytes_to_send) stream /\
  Forall (fun ch => ch <> EmptyString /\ str_len ch <= Z.max 1024 chunk_size) l.
Proof.
  unfold generate_bounded_chunks. split.
  - rewrite chunk_loop_concat by lia. f_equal. lia.
  - edestruct (chunk_loop_bounded (Z.max 1024 chunk_size)) as [H|H]; [exact H|lia].
Qed.

(** ** The download *)

Lemma receive_spec chunks : forall h f n,
  receive chunks h f n = (h +:+ str_concat chunks, f +:+ str_concat chunks, n + str_len (str_concat chunks)).
Proof.
  induction chunks as [|ch chunks IH]; intros h f n; cbn [receive str_concat].
  - rewrite !str_app_nil. f_equal. unfold str_len. simpl. lia.
  - destruct (str_truthy ch) eqn:E; cbn [negb]; rewrite IH.
    + rewrite !str_app_assoc. f_equal. unfold str_len. rewrite str_app_length. lia.
    + apply str_truthy_false in E as ->. done.
Qed.

Lemma abandon_objects at_ name w c e : lc_objects (abandon at_ name w c e).1 = lc_objects c.
Proof. unfold abandon. simpl. by repeat case_match. Qed.

(** What an abandoned download leaves in the staging directory. *)
Definition cleaned (at_ : attempt_env) (name : string) (c c' : local_cas) : Prop :=
  lc_objects c' = lc_objects c /\
  (io_fails (at_io at_) (IO_UNLINK name) = false -> lc_staging c' = lc_staging c \/ lc_staging c' = delete name (lc_staging c)).

Lemma abandon_cleaned at_ name w c e : cleaned at_ name c (abandon at_ name w c e).1.
Proof.
  split; [apply abandon_objects|]. unfold abandon. simpl. intros Hu.
  destruct w; [rewrite Hu; by right|by left].
Qed.

(** The prefix that still counts once the status of the reply is known. *)
Definition kept_prefix (offset : Z) (resume : option string) (r : response) : option string :=
  if rp_status r =? 200 then None else usable_prefix offset resume.

(** What a finished download has done. *)
Definition downloaded (net : peer) (at_ : attempt_env) (endpoint sha : string) (offset : Z) (resume : option string)
    (c c' : local_cas) (name h : string) (n : Z) : Prop :=
  exists norm r,
    validate_sha256_hex sha = Ok norm /\ name = staging_path norm (at_uuid at_) /\
    net (stream_url endpoint norm) (if 0 <? offset then Some ("bytes=" +:+ str_of_Z offset +:+ "-") else None) = Reply r /\
    (rp_status r = 200 \/ rp_status r = 206) /\ rp_broken r = None /\
    c' = stage name (default "" (kept_prefix offset resume r) +:+ str_concat (rp_chunks r)) (at_now at_) c /\
    h = sha256 (default "" (kept_prefix offset resume r) +:+ str_concat (rp_chunks r)) /\
    n = str_len (str_concat (rp_chunks r)) /\ (forall k, expected_bytes r = Some k -> n = k) /\
    (offset = 0 \/ kept_prefix offset resume r <> None \/ rp_status r = 200 -> h = norm).

Lemma receive_response_cases at_ endpoint norm name offset prefix r c c' x :
  receive_response at_ endpoint norm name offset prefix r c = (c', x) ->
  let kept := if rp_status r =? 200 then None else prefix in
  match x with
  | Ok (name', h, n) =>
      name' = name /\ (rp_status r = 200 \/ rp_status r = 206) /\ rp_broken r = None /\
      c' = stage name (default "" kept +:+ str_concat (rp_chunks r)) (at_now at_) c /\
      h = sha256 (default "" kept +:+ str_concat (rp_chunks r)) /\
      n = str_len (str_concat (rp_chunks r)) /\ (forall k, expected_bytes r = Some k -> n = k) /\
      (offset = 0 \/ kept <> None \/ rp_status r = 200 -> h = norm)
  | Err _ => cleaned at_ name c c'
  end.
Proof.
  assert (forall w e, abandon at_ name w c e = (c', x) -> match x with Ok _ => False | Err _ => cleaned at_ name c c' end) as Ha.
  { intros w e E. pose proof (abandon_cleaned at_ name w c e) as H. rewrite E in H. simpl in H.
    unfold abandon in E. injection E as _ <-. done. }
  assert (forall w e, abandon at_ name w c e = (c', x) -> forall P : string * string * Z -> Prop,
     match x with Ok y => P y | Err _ => cleaned at_ name c c' end) as Hb.
  { intros w e E P. specialize (Ha _ _ E). by destruct x. }
  unfold receive_response.
  destruct (Z.eqb_spec (rp_status r) 404); [intros E; by apply (Hb _ _ E (fun '(_, _, _) => _))|].
  destruct ((rp_status r =? 200) || (rp_status r =? 206)) eqn:Es; simpl; [|intros E; by apply (Hb _ _ E (fun '(_, _, _) => _))].
  destruct (io_fails (at_io at_) IO_WRITE); [intros E; by apply (Hb _ _ E (fun '(_, _, _) => _))|].
  rewrite receive_spec. destruct (rp_broken r) eqn:Eb; [intros E; by apply (Hb _ _ E (fun '(_, _, _) => _))|].
  rewrite Z.add_0_l.
  destruct (match expected_bytes r with Some n => _ | None => _ end) eqn:Ee;
    [intros E; by apply (Hb _ _ E (fun '(_, _, _) => _))|].
  match goal with |- context [if ?b then _ else _] => destruct b eqn:Ei end; [intros E; by apply (Hb _ _ E (fun '(_, _, _) => _))|].
  intros [= <- <-]. apply orb_true_iff in Es. rewrite !Z.eqb_eq in Es. split_and!; [done|done|done| |done|done|..].
  - f_equal. f_equal. destruct (Z.eqb_spec (rp_status r) 200) as [H2|H2]; simpl.
    + by rewrite H2.
    + destruct Es as [|Hs]; [done|]. rewrite Hs. by destruct prefix.
  - intros k Hk. rewrite Hk in Ee. apply negb_false_iff, Z.eqb_eq in Ee. done.
  - intros Ho. apply andb_false_iff in Ei as [Ei|Ei]; [|by apply negb_false_iff, String.eqb_eq in Ei].
    exfalso. apply orb_false_iff in Ei as [[Ei1 Ei2]%orb_false_iff Ei3].
    apply Z.eqb_neq in Ei1, Ei3. apply bool_decide_eq_false in Ei2.
    destruct Ho as [|[Hk|]]; [done| |done]. apply Ei2. by apply not_eq_None_Some.
Qed.

Lemma download_cases net at_ endpoint sha offset resume c c' x :
  download_stream_to_staging net at_ endpoint sha offset resume c = (c', x) ->
  match x with
  | Ok (name, h, n) => downloaded net at_ endpoint sha offset resume c c' name h n
  | Err _ => c' = c \/ exists norm, validate_sha256_hex sha = Ok norm /\ cleaned at_ (staging_path norm (at_uuid at_)) c c'
  end.
Proof.
  unfold download_stream_to_staging. destruct (validate_sha256_hex sha) as [norm|e] eqn:Ev; [|intros [= <- <-]; by left].
  destruct (io_fails (at_io at_) IO_STAGING_DIR); [intros [= <- <-]; by left|].
  set (name := staging_path norm (at_uuid at_)).
  assert (forall w e, abandon at_ name w c e = (c', x) -> forall P : string * string * Z -> Prop,
     match x with Ok y => P y | Err _ => c' = c \/ exists norm0, Ok norm = Ok norm0 /\ cleaned at_ (staging_path norm0 (at_uuid at_)) c c' end) as Ha.
  { intros w e E P. pose proof (abandon_cleaned at_ name w c e) as H. rewrite E in H. simpl in H.
    unfold abandon in E. injection E as _ <-. right. by exists norm. }
  destruct (bool_decide _ && _); [intros E; by apply (Ha _ _ E (fun '(_, _, _) => _))|].
  destruct (net _ _) as [r|msg] eqn:En; [|intros E; by apply (Ha _ _ E (fun '(_, _, _) => _))].
  intros E%receive_response_cases. fold (kept_prefix offset resume r) in E. cbv zeta in E. destruct x as [[[name' h] n]|e].
  - destruct E as (-> & Hs & Hb & Hc & Hh & Hn & He & Hv). exists norm, r. split_and!; done.
  - right. by exists norm.
Qed.

(** A finished download is verified: the staging file then holds the bytes
    of the reply (after the resumed prefix, if one counts), the digest answered
    is theirs, and it is the requested one unless the transfer was resumed
    without the earlier bytes; the number of bytes agrees with the
    Content-Length; and the objects are untouched.  A failed one leaves the
    objects, and, unless the system refuses to delete, no file of its own. *)
Theorem download_verified net at_ endpoint sha offset resume c c' x :
  download_stream_to_staging net at_ endpoint sha offset resume c = (c', x) ->
  lc_objects c' = lc_objects c /\
  match x with
  | Ok (name, h, n) =>
      exists norm r body,
        validate_sha256_hex sha = Ok norm /\ name = staging_path norm (at_uuid at_) /\
        (rp_status r = 200 \/ rp_status r = 206) /\ rp_broken r = None /\
        body = default "" (kept_prefix offset resume r) +:+ str_concat (rp_chunks r) /\
        lc_staging c' = <[name := {| sg_content := body; sg_mtime := at_now at_ |}]> (lc_staging c) /\
        h = sha256 body /\ n = str_len (str_concat (rp_chunks r)) /\
        (forall k, expected_bytes r = Some k -> n = k) /\
        (offset = 0 \/ kept_prefix offset resume r <> None \/ rp_status r = 200 -> h = norm)
  | Err _ =>
      forall norm, validate_sha256_hex sha = Ok norm ->
      io_fails (at_io at_) (IO_UNLINK (staging_path norm (at_uuid at_))) = false ->
      lc_staging c !! staging_path norm (at_uuid at_) = None -> lc_staging c' = lc_staging c
  end.
Proof.
  intros E%download_cases. destruct x as [[[name h] n]|e].
  - destruct E as (norm & r & Hv & -> & _ & Hs & Hb & -> & -> & -> & He & Hh). split; [done|].
    exists norm, r. eexists. by split_and!.
  - destruct E as [->|(norm & Hv & Ho & Hst)]; [done|]. split; [done|].
    intros norm' Hv' Hu Hn. rewrite Hv in Hv'. injection Hv' as <-.
    destruct (Hst Hu) as [H|H]; rewrite H; [done|]. by apply delete_id.
Qed.

(** ** A candidate and the fail-over *)

Lemma with_staging_objects p s c : object_at p (with_staging s c) = object_at p c.
Proof. done. Qed.

Lemma commit_effect_transfer net at_ cand norm c :
  is_sha256 norm = true ->
  let '(c', x) := transfer_asset_from_candidate net at_ cand norm c in
  exists r, x = Ok r /\ tr_sha256 r = norm /\
    (if tr_success r then commit_effect c c' /\ holds norm c' = true /\ tr_verified_sha256 r = Some norm
     else same_objects c c').
Proof.
  intros Hn. unfold transfer_asset_from_candidate. rewrite validate_sha256_hex_norm by done.
  destruct (has_asset norm c) eqn:Eh.
  { exists (local_hit (at_io at_) norm c). split_and!; [done|done|]. simpl. split_and!; [by left| |done].
    unfold has_asset in Eh. by rewrite get_path_valid in Eh. }
  destruct (download_stream_to_staging net at_ (cs_endpoint_url cand) norm 0 None c) as [c1 x] eqn:E.
  apply download_cases in E. destruct x as [[[name h] n]|e].
  2:{ simpl. eexists. split; [done|]. split; [done|]. simpl.
      destruct E as [->|(? & _ & Ho & _)]; [done|]. intros p. by apply object_at_objects. }
  destruct E as (norm' & r & Hv & _ & _ & _ & _ & -> & -> & _ & _ & Hh).
  rewrite validate_sha256_hex_norm in Hv by done. injection Hv as <-. rewrite (Hh (or_introl eq_refl)). clear Hh.
  set (c1 := stage _ _ _ c). assert (same_objects c c1) as H1 by done.
  pose proof (commit_effect_commit (at_io at_) name norm c1) as He.
  destruct (commit_staged_file (at_io at_) name norm c1) as [c2 b] eqn:Ec. simpl in He.
  pose proof (commit_refused _ _ _ _ _ _ Ec) as H3.
  destruct b as [b|e]; [destruct b|]; simpl.
  - eexists. split_and!; [done|done|]. simpl. split_and!; [by eapply commit_effect_pre| |done].
    apply commit_holds in Ec. unfold has_asset in Ec. by rewrite get_path_valid in Ec.
  - eexists. split_and!; [done|done|]. simpl. eapply same_objects_trans; [done|].
    eapply same_objects_trans; [by apply H3|apply unlink_same].
  - eexists. split_and!; [done|done|]. simpl. eapply same_objects_trans; [done|].
    eapply same_objects_trans; [by apply H3|apply unlink_same].
Qed.

(** A candidate that delivers: its reply is the whole content of digest [norm],
    with an honest length, and nothing fails on this side. *)
Definition delivers (net : peer) (at_ : attempt_env) (endpoint norm : string) : Prop :=
  exists r, net (stream_url endpoint norm) None = Reply r /\ (rp_status r = 200 \/ rp_status r = 206) /\
    rp_broken r = None /\ sha256 (str_concat (rp_chunks r)) = norm /\
    (forall k, expected_bytes r = Some k -> k = str_len (str_concat (rp_chunks r))) /\
    (forall op, io_fails (at_io at_) op = false).

Lemma delivers_transfers net at_ cand norm c :
  is_sha256 norm = true -> delivers net at_ (cs_endpoint_url cand) norm ->
  exists r, (transfer_asset_from_candidate net at_ cand norm c).2 = Ok r /\ tr_success r = true.
Proof.
  intros Hn (r & Hr & Hs & Hb & Hh & Hl & Hio). unfold transfer_asset_from_candidate.
  rewrite validate_sha256_hex_norm by done. destruct (has_asset norm c) eqn:Eh; [by eexists|].
  unfold download_stream_to_staging. rewrite validate_sha256_hex_norm by done. rewrite Hio. simpl. rewrite Hr.
  unfold receive_response. destruct (Z.eqb_spec (rp_status r) 404); [lia|].
  assert ((rp_status r =? 200) || (rp_status r =? 206) = true) as -> by (apply orb_true_iff; rewrite !Z.eqb_eq; done).
  simpl. rewrite Hio, receive_spec, Hb, Z.add_0_l.
  assert ((match expected_bytes r with Some n => negb (str_len (str_concat (rp_chunks r)) =? n) | None => false end) = false) as ->.
  { destruct (expected_bytes r) as [k|]; [|done]. by rewrite (Hl k eq_refl), Z.eqb_refl. }
  assert (default "" (if rp_status r =? 200 then None else (None : option string)) = "") as -> by (by case_match).
  replace ("" +:+ str_concat (rp_chunks r)) with (str_concat (rp_chunks r)) by done.
  rewrite Hh, String.eqb_refl. simpl.
  destruct (commit_staged_file _ _ _ _) as [c2 b] eqn:Ec. pose proof (commit_accepts_iff _ _ _ _ _ _ Ec) as Hok.
  rewrite (proj2 Hok); [by eexists|].
  eexists. split; [apply lookup_insert_eq|]. simpl.
  replace (_ +:+ str_concat (rp_chunks r)) with (str_concat (rp_chunks r)) by (repeat case_match; done).
  rewrite Hh. split_and!; auto.
Qed.

Lemma try_candidates_effect net env norm total : is_sha256 norm = true -> forall cands n last c c' x,
  try_candidates net env n norm total cands last c = (c', x) ->
  match x with
  | Ok r => commit_effect c c' /\ holds norm c' = true /\ tr_success r = true /\ tr_sha256 r = norm /\
            tr_verified_sha256 r = Some norm
  | Err e => same_objects c c' /\ (exists m, e = CandidateExhaustedError m) /\
             (forall k cand, cands !! k = Some cand -> ~ delivers net (env (n + k)%nat) (cs_endpoint_url cand) norm)
  end.
Proof.
  intros Hn. induction cands as [|cand cands IH]; intros n last c c' x; simpl.
  { intros [= <- <-]. split_and!; [done|by eexists|done]. }
  pose proof (commit_effect_transfer net (env n) cand norm c Hn) as Ht.
  pose proof (delivers_transfers net (env n) cand norm c Hn) as Hd.
  destruct (transfer_asset_from_candidate net (env n) cand norm c) as [c1 y].
  destruct Ht as (r & -> & Hsha & Hr). simpl in Hd. destruct (tr_success r) eqn:Es.
  - intros [= <- <-]. destruct Hr as (He & Hh & Hv). by split_and!.
  - intros E. specialize (IH _ _ _ _ _ E). destruct x as [r'|e].
    + destruct IH as (He & H). split; [by eapply commit_effect_pre|done].
    + destruct IH as (Hs & Hm & Hall). split_and!; [by eapply same_objects_trans|done|].
      intros [|k] cand' Hk; simpl in Hk.
      * injection Hk as <-. rewrite Nat.add_0_r. intros Hdel. destruct (Hd Hdel) as (r' & [= ->] & Hs'). congruence.
      * rewrite Nat.add_succ_r. by apply (Hall k cand').
Qed.

(** C23: fail-over is safe and complete: on success the requested digest is in
    the store, filed under the digest of its content, and nothing else was
    added or changed; a transfer that raises on a valid digest has changed no
    object, and no candidate in the list delivered: one peer that sends the
    content of the digest, anywhere in the list, is enough, whatever the others
    send. *)
Theorem failover_safe_and_complete net env cands sha norm c c' x :
  cas_ok c -> validate_sha256_hex sha = Ok norm ->
  transfer_asset_with_failover net env cands sha c = (c', x) ->
  cas_ok c' /\ (forall h, h <> norm -> object h c' = object h c) /\
  match x with
  | Ok r => tr_success r = true /\ tr_sha256 r = norm /\ tr_verified_sha256 r = Some norm /\
            exists content, object norm c' = Some content /\ sha256 content = norm
  | Err e => (forall p, object_at p c' = object_at p c) /\ (exists m, e = CandidateExhaustedError m) /\
             has_asset norm c = false /\
             (forall k cand, cands !! k = Some cand -> ~ delivers net (env k) (cs_endpoint_url cand) norm)
  end.
Proof.
  intros Hc Hv E. assert (is_sha256 norm = true) as Hn by (by apply validate_sha256_hex_lemma in Hv as [? _]).
  unfold transfer_asset_with_failover in E. rewrite Hv in E.
  assert (forall c0 : local_cas, cas_ok c0 -> holds norm c0 = true ->
            exists content, object norm c0 = Some content /\ sha256 content = norm) as Hobj.
  { intros c0 H0 [y Hy]%holds_iff. exists y. split; [done|]. by destruct (H0 _ _ Hy). }
  destruct (has_asset norm c) eqn:Eh.
  { injection E as <- <-. split_and!; try done. apply Hobj; [done|].
    unfold has_asset in Eh. by rewrite get_path_valid in Eh. }
  case_bool_decide as Ecand.
  { injection E as <- <-. subst cands. split_and!; try done. by eexists. }
  apply try_candidates_effect in E; [|done]. destruct x as [r|e].
  - destruct E as (He & Hh & Hs & Hsha & Hver).
    assert (cas_ok c') as Hc' by (destruct He as [Hs'|(y & Ha)]; [by eapply same_objects_ok|by eapply adds_verified_ok]).
    split_and!; try done; [|by apply Hobj]. intros h Hne. unfold object.
    destruct He as [Hs'|(y & _ & Hf & Hp)]; [apply Hs'|]. rewrite Hp. case_bool_decide as Eq; [|done].
    exfalso. injection Eq as _ ->. apply Hne.
    (* the object added is the requested one: it was missing and is there now *)
    unfold holds, is_file in Hh. rewrite Hp in Hh.
    destruct (decide ((shard_of norm, norm) = (shard_of (sha256 y), sha256 y))) as [E2|E2]; [by injection E2|].
    rewrite (bool_decide_false (_ = _)) in Hh by done.
    unfold has_asset, get_path_for_hash in Eh. rewrite validate_sha256_hex_norm in Eh by done. simpl in Eh.
    unfold is_file in Eh. congruence.
  - destruct E as (Hs & Hm & Hall). split_and!; try done; [by eapply same_objects_ok|].
    intros h _. apply Hs.
Qed.

(** ** Concrete transfers *)

Definition sample_source (worker_id endpoint_url : string) : candidate_source :=
  {| cs_worker_id := worker_id; cs_endpoint_url := endpoint_url; cs_ip_address := "127.0.0.1"; cs_port := 8000;
     cs_locality_tier := LAN; cs_estimated_rtt_ms := f0; cs_load_factor := f0; cs_penalty_score := f0;
     cs_priority_score := f0; cs_can_serve := true |}.

Definition sample_env (i : io) (n : nat) : attempt_env :=
  {| at_io := i; at_uuid := str_of_Z (Z.of_nat n); at_now := f0; at_elapsed := f0 |}.

(** One peer sends other bytes, one breaks off, one delivers. *)
Definition sample_net : peer := fun url _ =>
  if starts_with "http://bad" url then
    Reply {| rp_status := 200; rp_content_length := Some "3"%string; rp_chunks := ["abd"%string]; rp_broken := None |}
  else if starts_with "http://cut" url then
    Reply {| rp_status := 200; rp_content_length := None; rp_chunks := ["a"%string]; rp_broken := Some "reset"%string |}
  else if starts_with "http://good" url then
    Reply {| rp_status := 200; rp_content_length := Some "3"%string; rp_chunks := ["ab"; ""; "c"]%string; rp_broken := None |}
  else RequestFailed "refused".

Definition sample_candidates : list candidate_source :=
  [sample_source "w1" "http://bad:8000"; sample_source "w2" "http://cut:8000"; sample_source "w3" "http://good:8000/"].

Lemma failover_witness :
  exists c' r, transfer_asset_with_failover sample_net (sample_env io_ok) sample_candidates (sha256 "abc") empty_cas = (c', Ok r) /\
    tr_source_worker_id r = Some "w3"%string /\
    exists content, object (sha256 "abc") c' = Some content /\ sha256 content = sha256 "abc".
Proof.
  destruct (transfer_asset_with_failover sample_net (sample_env io_ok) sample_candidates (sha256 "abc") empty_cas)
    as [c' [r|e]] eqn:E.
  - exists c', r. split; [reflexivity|].
    destruct (failover_safe_and_complete _ _ _ _ _ _ _ _ empty_cas_ok
      (validate_sha256_hex_norm _ (sha256_is_sha256 "abc")) E) as (_ & _ & _ & _ & _ & H). split; [|exact H].
    assert (match (transfer_asset_with_failover sample_net (sample_env io_ok) sample_candidates (sha256 "abc") empty_cas).2 with
            | Ok r => tr_source_worker_id r | Err _ => None end = Some "w3"%string) as Hr by (vm_compute; reflexivity).
    rewrite E in Hr. exact Hr.
  - exfalso.
    assert (is_ok (transfer_asset_with_failover sample_net (sample_env io_ok) sample_candidates (sha256 "abc") empty_cas).2 = true)
      as Hr by (vm_compute; reflexivity).
    rewrite E in Hr. discriminate Hr.
Defined.

Lemma parse_range_witness :
  parse_byte_range_header (Some "bytes=2-99"%string) 10 = Ok (2, 9, 8, true) /\ 2 + 8 <= 10.
Proof.
  pose proof (parse_range_correct (Some "bytes=2-99"%string) 10 ltac:(lia)) as H. split; [reflexivity|].
  destruct (parse_byte_range_header (Some "bytes=2-99"%string) 10) as [[[[s e] n] b]|] eqn:E.
  - vm_compute in E. injection E as <- <- <- <-. apply H.
  - exfalso. vm_compute in E. discriminate E.
Defined.

Lemma download_witness :
  exists c' name, download_stream_to_staging sample_net (sample_env io_ok 0) "http://good:8000" (sha256 "abc") 0 None empty_cas
    = (c', Ok (name, sha256 "abc", 3)) /\ lc_objects c' = ∅.
Proof.
  destruct (download_stream_to_staging sample_net (sample_env io_ok 0) "http://good:8000" (sha256 "abc") 0 None empty_cas)
    as [c' x] eqn:E.
  destruct (download_verified _ _ _ _ _ _ _ _ _ E) as [Ho _].
  assert ((download_stream_to_staging sample_net (sample_env io_ok 0) "http://good:8000" (sha256 "abc") 0 None empty_cas).2
          = Ok (staging_path (sha256 "abc") "0", sha256 "abc", 3)) as Hx by (vm_compute; reflexivity).
  rewrite E in Hx. cbn [snd] in Hx. subst x. exists c', (staging_path (sha256 "abc") "0"). split; [reflexivity|exact Ho].
Defined.

(** Resuming without the earlier bytes: any tail a peer answers 206 with is
    accepted under the requested digest, with the digest of the tail. *)
Example resumed_unverified :
  let net : peer := fun _ _ => Reply {| rp_status := 206; rp_content_length := None; rp_chunks := ["evil"%string]; rp_broken := None |} in
  (download_stream_to_staging net (sample_env io_ok 0) "http://peer" (sha256 "abc") 2 None empty_cas).2
    = Ok (staging_path (sha256 "abc") "0", sha256 "evil", 4).
Proof. vm_compute. reflexivity. Qed.
