(* ===== verification/Metrics.v ===== *)
(** * Transfer metrics ([distributed/metrics.py])

    The counters of [TransferMetricsTracker] and the figures derived from them.
    The time stamp of an event is left out. *)
From S2P Require Export PyFloat.

Record transfer_event := {
  te_sha256 : string;
  te_size_bytes : Z;
  te_is_cache_hit : bool;
  te_success : bool;
  te_bytes_transferred : Z;
  te_duration_seconds : float;
  te_resumed : bool;
  te_failed_over : bool;
  te_source_worker_id : option string;
}.

Definition te_throughput_mbps (e : transfer_event) : res float :=
  if fle (te_duration_seconds e) f0 || (te_bytes_transferred e <=? 0) then Ok f0
  else py_truediv (fmul (f_of_Z (te_bytes_transferred e)) (f_of_Z 8)) (fmul (te_duration_seconds e) (f_of_Z 1000000)).

Record metrics := {
  mx_total_requested_assets : Z;
  mx_local_cache_hits : Z;
  mx_network_transferred_assets : Z;
  mx_failed_transfers : Z;
  mx_total_requested_bytes : Z;
  mx_local_cache_hit_bytes : Z;
  mx_network_transferred_bytes : Z;
  mx_resumption_events : Z;
  mx_failover_events : Z;
  mx_total_transfer_duration : float;
  mx_events : list transfer_event;
}.

Definition new_metrics : metrics :=
  {| mx_total_requested_assets := 0; mx_local_cache_hits := 0; mx_network_transferred_assets := 0;
     mx_failed_transfers := 0; mx_total_requested_bytes := 0; mx_local_cache_hit_bytes := 0;
     mx_network_transferred_bytes := 0; mx_resumption_events := 0; mx_failover_events := 0;
     mx_total_transfer_duration := f0; mx_events := [] |}.

Definition record_cache_hit (sha : string) (size_bytes : Z) (m : metrics) : metrics :=
  {| mx_total_requested_assets := mx_total_requested_assets m + 1;
     mx_local_cache_hits := mx_local_cache_hits m + 1;
     mx_network_transferred_assets := mx_network_transferred_assets m;
     mx_failed_transfers := mx_failed_transfers m;
     mx_total_requested_bytes := mx_total_requested_bytes m + size_bytes;
     mx_local_cache_hit_bytes := mx_local_cache_hit_bytes m + size_bytes;
     mx_network_transferred_bytes := mx_network_transferred_bytes m;
     mx_resumption_events := mx_resumption_events m; mx_failover_events := mx_failover_events m;
     mx_total_transfer_duration := mx_total_transfer_duration m;
     mx_events := mx_events m ++
       [{| te_sha256 := sha; te_size_bytes := size_bytes; te_is_cache_hit := true; te_success := true;
           te_bytes_transferred := 0; te_duration_seconds := f0; te_resumed := false; te_failed_over := false;
           te_source_worker_id := None |}] |}.

Definition record_network_transfer (sha : string) (size_bytes bytes_transferred : Z) (duration_seconds : float)
    (source_worker_id : option string) (resumed failed_over : bool) (m : metrics) : metrics :=
  {| mx_total_requested_assets := mx_total_requested_assets m + 1;
     mx_local_cache_hits := mx_local_cache_hits m;
     mx_network_transferred_assets := mx_network_transferred_assets m + 1;
     mx_failed_transfers := mx_failed_transfers m;
     mx_total_requested_bytes := mx_total_requested_bytes m + size_bytes;
     mx_local_cache_hit_bytes := mx_local_cache_hit_bytes m;
     mx_network_transferred_bytes := mx_network_transferred_bytes m + bytes_transferred;
     mx_resumption_events := if resumed then mx_resumption_events m + 1 else mx_resumption_events m;
     mx_failover_events := if failed_over then mx_failover_events m + 1 else mx_failover_events m;
     mx_total_transfer_duration := fadd (mx_total_transfer_duration m) (fmax f0 duration_seconds);
     mx_events := mx_events m ++
       [{| te_sha256 := sha; te_size_bytes := size_bytes; te_is_cache_hit := false; te_success := true;
           te_bytes_transferred := bytes_transferred; te_duration_seconds := duration_seconds; te_resumed := resumed;
           te_failed_over := failed_over; te_source_worker_id := source_worker_id |}] |}.

Definition record_transfer_failure (sha : string) (size_bytes : Z) (source_worker_id : option string) (m : metrics)
    : metrics :=
  {| mx_total_requested_assets := mx_total_requested_assets m + 1;
     mx_local_cache_hits := mx_local_cache_hits m;
     mx_network_transferred_assets := mx_network_transferred_assets m;
     mx_failed_transfers := mx_failed_transfers m + 1;
     mx_total_requested_bytes :=
       if 0 <? size_bytes then mx_total_requested_bytes m + size_bytes else mx_total_requested_bytes m;
     mx_local_cache_hit_bytes := mx_local_cache_hit_bytes m;
     mx_network_transferred_bytes := mx_network_transferred_bytes m;
     mx_resumption_events := mx_resumption_events m; mx_failover_events := mx_failover_events m;
     mx_total_transfer_duration := mx_total_transfer_duration m;
     mx_events := mx_events m ++
       [{| te_sha256 := sha; te_size_bytes := size_bytes; te_is_cache_hit := false; te_success := false;
           te_bytes_transferred := 0; te_duration_seconds := f0; te_resumed := false; te_failed_over := false;
           te_source_worker_id := source_worker_id |}] |}.

Definition byte_hit_ratio (m : metrics) : float :=
  if mx_total_requested_bytes m <=? 0 then (if 0 <? mx_local_cache_hits m then f1 else f0)
  else f_round (fmin f1 (fmax f0 (fdivZ (mx_local_cache_hit_bytes m) (mx_total_requested_bytes m)))) 4.

Definition network_savings_percent (m : metrics) : float := f_round (fmul (byte_hit_ratio m) (f_of_Z 100)) 2.

Definition average_throughput_mbps (m : metrics) : res float :=
  if fle (mx_total_transfer_duration m) f0 || (mx_network_transferred_bytes m <=? 0) then Ok f0
  else
    let! mbps := py_truediv (fmul (f_of_Z (mx_network_transferred_bytes m)) (f_of_Z 8))
                            (fmul (mx_total_transfer_duration m) (f_of_Z 1000000)) in
    Ok (f_round mbps 2).

(** ** Accounts balance *)

Inductive metric_call :=
| Hit (sha : string) (size : Z)
| Transferred (sha : string) (size transferred : Z) (duration : float) (source : option string) (resumed failed_over : bool)
| Failed (sha : string) (size : Z) (source : option string).

Definition metric_step (m : metrics) (e : metric_call) : metrics :=
  match e with
  | Hit s n => record_cache_hit s n m
  | Transferred s n b d w r f => record_network_transfer s n b d w r f m
  | Failed s n w => record_transfer_failure s n w m
  end.

Definition metric_bytes (e : metric_call) : Z :=
  match e with Hit _ n | Transferred _ n _ _ _ _ _ => n | Failed _ n _ => Z.max 0 n end.
Definition metric_hit_bytes (e : metric_call) : Z := match e with Hit _ n => n | _ => 0 end.

Definition metrics_after (calls : list metric_call) : metrics := fold_left metric_step calls new_metrics.

(** After any calls every requested asset is a hit, a transfer or a failure and
    has its event; the requested bytes are the sum of their sizes, and the hit
    bytes of the sizes of the hits. *)
Theorem metrics_balance calls :
  let m := metrics_after calls in
  mx_total_requested_assets m = mx_local_cache_hits m + mx_network_transferred_assets m + mx_failed_transfers m /\
  Z.of_nat (length (mx_events m)) = mx_total_requested_assets m /\
  mx_total_requested_bytes m = sumZ (map metric_bytes calls) /\
  mx_local_cache_hit_bytes m = sumZ (map metric_hit_bytes calls).
Proof.
  unfold metrics_after. induction calls as [|e l IH] using rev_ind; [done|].
  rewrite fold_left_app, !map_app, !sumZ_app. simpl fold_left. cbn [map sumZ]. destruct IH as (H1 & H2 & H3 & H4).
  destruct e as [s n|s n b d w r f|s n w]; simpl; rewrite length_app; simpl; split_and!; try lia.
  destruct (Z.ltb_spec 0 n); lia.
Qed.
