(* ===== verification/DataPlane.v ===== *)
(** * Synchronising assets ([distributed/client.py], [distributed/worker.py])

    The client's downloads and the two [sync_assets], the client's and the
    worker's.  What the coordinator answers to a locate request is the argument
    [locate]; the transfers of one call run one after the other in the order of
    the answer, which is arbitrary, and each has its own attempts, [envs].  The
    flights of one call have distinct keys, so the single flight of the worker
    coalesces nothing within it (see [SingleFlight] for what it does between
    calls).  A result is validated as its model validates it. *)
From S2P Require Export Transfer Metrics.

Record locate_response := {
  lr_locations : odict (list candidate_source);
  lr_unresolved_hashes : list string;
}.

(** [TransferResult(sha256=h, success=False, error_message=msg)] *)
Definition failed_result (h msg : string) : res transfer_result :=
  let! n := validate_sha256_hex h in Ok (failed_transfer n None None f0 msg).

(** [LocateAssetsRequest]'s validator on the hashes of a request. *)
Definition validate_missing_hashes (v : list string) : res (list string) :=
  res_fold (fun acc h => let! n := validate_sha256_hex h in Ok (acc ++ [n])) [] v.

Section Client.
Context (net : peer) (envs : string -> nat -> attempt_env).
Context (locate : list string -> res locate_response).

Definition download_asset (sha : string) (candidates : list candidate_source) (c : local_cas)
    : local_cas * res transfer_result :=
  transfer_asset_with_failover net (envs sha) candidates sha c.

(** [asyncio.gather(..., return_exceptions=True)] *)
Fixpoint gather_downloads (locations : odict (list candidate_source)) (c : local_cas)
    : local_cas * list (string * res transfer_result) :=
  match locations with
  | [] => (c, [])
  | (sha, cands) :: rest =>
      let '(c, outcome) := download_asset sha cands c in
      let '(c, outcomes) := gather_downloads rest c in
      (c, (sha, outcome) :: outcomes)
  end.

Definition collect_outcome (results : odict transfer_result) (o : string * res transfer_result)
    : res (odict transfer_result) :=
  match snd o with
  | Ok r => Ok (od_set (fst o) r results)
  | Err e => let! r := failed_result (fst o) (exn_text e) in Ok (od_set (fst o) r results)
  end.

Definition download_missing_assets (locations : odict (list candidate_source)) (c : local_cas)
    : local_cas * res (odict transfer_result) :=
  let '(c, outcomes) := gather_downloads locations c in
  (c, res_fold collect_outcome [] outcomes).

(** The entries for what is already there. *)
Fixpoint local_hits (i : io) (required : list string) (missing : gset string) (c : local_cas)
    (results : odict transfer_result) : odict transfer_result :=
  match required with
  | [] => results
  | raw :: rest =>
      match validate_sha256_hex raw with
      | Err _ => local_hits i rest missing c results
      | Ok norm =>
          if bool_decide (norm ∈ missing) then local_hits i rest missing c results
          else local_hits i rest missing c (od_set norm (local_hit i norm c) results)
      end
  end.

Definition with_candidates (r : locate_response) : odict (list candidate_source) :=
  List.filter (fun e => negb (bool_decide (snd e = []))) (lr_locations r).

Definition mark_unresolved (results : odict transfer_result) (h : string) : res (odict transfer_result) :=
  if od_mem h results then Ok results
  else let! r := failed_result h ("No candidate sources holding asset " +:+ h) in Ok (od_set h r results).

(** The request a locate call sends, validated by its model. *)
Definition locate_assets (missing : list string) : res locate_response :=
  let! hashes := validate_missing_hashes missing in locate hashes.

(** [DistributedClient.sync_assets] *)
Definition client_sync_assets (i : io) (required_hashes : list string) (c : local_cas)
    : local_cas * res (odict transfer_result) :=
  let missing := get_missing_hashes required_hashes c in
  let results := local_hits i required_hashes missing c [] in
  if bool_decide (missing = ∅) then (c, Ok results)
  else
    match locate_assets (elements missing) with
    | Err e => (c, Err e)
    | Ok resp =>
        let resolved_locations := with_candidates resp in
        match (if bool_decide (resolved_locations = []) then (c, Ok []) else download_missing_assets resolved_locations c) with
        | (c, Err e) => (c, Err e)
        | (c, Ok transferred) =>
            (c, res_fold mark_unresolved (od_merge results transferred) (lr_unresolved_hashes resp))
        end
    end.

(** ** The worker's synchronisation, which keeps metrics *)

Fixpoint worker_hits (i : io) (required : list string) (missing : gset string) (c : local_cas)
    (m : metrics) (results : odict transfer_result) : metrics * odict transfer_result :=
  match required with
  | [] => (m, results)
  | raw :: rest =>
      match validate_sha256_hex raw with
      | Err _ => worker_hits i rest missing c m results
      | Ok norm =>
          if bool_decide (norm ∈ missing) then worker_hits i rest missing c m results
          else worker_hits i rest missing c
                 (record_cache_hit norm (default 0 (get_asset_size i norm c)) m)
                 (od_set norm (local_hit i norm c) results)
      end
  end.

(** [_do_download] *)
Definition do_download (i : io) (h : string) (cands : list candidate_source) (c : local_cas)
    : local_cas * res (option transfer_result) :=
  if has_asset h c then
    (c, let! n := validate_sha256_hex h in Ok (Some (local_hit i n c)))
  else
    let '(c, r) := download_missing_assets [(h, cands)] c in
    (c, let! res_map := r in Ok (od_get h res_map)).

(** [asyncio.gather( *tasks)]: an exception of a task ends the call. *)
Fixpoint gather_single (i : io) (targets : odict (list candidate_source)) (c : local_cas)
    : local_cas * res (list (option transfer_result)) :=
  match targets with
  | [] => (c, Ok [])
  | (h, cands) :: rest =>
      match do_download i h cands c with
      | (c, Err e) => (c, Err e)
      | (c, Ok r) => let '(c, rs) := gather_single i rest c in (c, let! rs := rs in Ok (r :: rs))
      end
  end.

Definition record_result (mr : metrics * odict transfer_result) (r : option transfer_result)
    : metrics * odict transfer_result :=
  match r with
  | None => mr
  | Some r =>
      (if tr_success r then
         record_network_transfer (tr_sha256 r) (tr_total_bytes r) (tr_bytes_transferred r) (tr_duration_seconds r)
           (tr_source_worker_id r) (0 <? tr_resumed_bytes r) (0 <? tr_retry_count r) (fst mr)
       else record_transfer_failure (tr_sha256 r) (tr_total_bytes r) (tr_source_worker_id r) (fst mr),
       od_set (tr_sha256 r) r (snd mr))
  end.

(** A failed entry and its metric; building the entry may raise. *)
Definition fail_entry (msg : string) (mr : metrics * odict transfer_result) (h : string)
    : res (metrics * odict transfer_result) :=
  let! r := failed_result h msg in
  Ok (record_transfer_failure h 0 None (fst mr), od_set h r (snd mr)).

Definition mark_unresolved_worker (mr : metrics * odict transfer_result) (h : string)
    : res (metrics * odict transfer_result) :=
  if od_mem h (snd mr) then Ok mr else fail_entry ("No candidate sources holding asset " +:+ h) mr h.

(** [DistributedWorker.sync_assets]; [coordinator] says whether a coordinator
    URL is configured.  The metrics are those of a call that returns. *)
Definition sync_assets (i : io) (coordinator : bool) (required_hashes : list string) (m : metrics) (c : local_cas)
    : local_cas * res (metrics * odict transfer_result) :=
  let missing := get_missing_hashes required_hashes c in
  let mr := worker_hits i required_hashes missing c m [] in
  if bool_decide (missing = ∅) then (c, Ok mr)
  else if negb coordinator then
    (c, res_fold (fail_entry "No coordinator URL configured to locate missing assets") mr (elements missing))
  else
    match locate_assets (elements missing) with
    | Err e => (c, Err e)
    | Ok resp =>
        match gather_single i (with_candidates resp) c with
        | (c, Err e) => (c, Err e)
        | (c, Ok transferred) =>
            (c, res_fold mark_unresolved_worker (fold_left record_result transferred mr) (lr_unresolved_hashes resp))
        end
    end.
End Client.

(** ** What a locate answer owes the worker

    Every digest asked for is answered with candidates or listed as
    unresolved. *)

Class LocateContract (locate : list string -> res locate_response) : Prop := {
  locate_covers : forall hashes resp, Forall (fun h => is_sha256 h = true) hashes -> locate hashes = Ok resp ->
    forall h, h ∈ hashes ->
    (exists cands, od_get h (lr_locations resp) = Some cands /\ cands <> []) \/ h ∈ lr_unresolved_hashes resp;
  locate_wf : forall hashes resp, locate hashes = Ok resp -> od_wf (lr_locations resp);
}.

#[local] Hint Resolve grows_refl extends_refl : core.

(** A successful result names a digest the store holds. *)
Definition delivered (c : local_cas) (r : transfer_result) : Prop :=
  tr_success r = true -> is_sha256 (tr_sha256 r) = true /\ holds (tr_sha256 r) c = true.

Lemma delivered_grows c c' r : grows c c' -> delivered c r -> delivered c' r.
Proof. intros Hg Hd H. destruct (Hd H). split; [done|]. by eapply grows_holds. Qed.

Lemma has_asset_holds h c : has_asset h c = true -> exists n, validate_sha256_hex h = Ok n /\ holds n c = true.
Proof.
  unfold has_asset. destruct (get_path_for_hash h) eqn:E; [|done]. intros H.
  apply get_path_spec in E as (n & Hn & ->). by exists n.
Qed.

Lemma validated_sha256 h n : validate_sha256_hex h = Ok n -> is_sha256 n = true.
Proof. intros H. by apply validate_sha256_hex_lemma in H as [? _]. Qed.

Lemma failover_effect net env cands sha c :
  let '(c', x) := transfer_asset_with_failover net env cands sha c in
  extends c c' /\
  (forall r, x = Ok r -> validate_sha256_hex sha = Ok (tr_sha256 r) /\ delivered c' r).
Proof.
  unfold transfer_asset_with_failover. destruct (validate_sha256_hex sha) as [norm|e] eqn:Ev; [|done].
  pose proof (validated_sha256 _ _ Ev) as Hn. destruct (has_asset norm c) eqn:Eh.
  { split; [done|]. intros r [= <-]. split; [done|]. intros _. split; [done|]. simpl.
    apply has_asset_holds in Eh as (n & Hv & Hh). rewrite validate_sha256_hex_norm in Hv by done. by injection Hv as ->. }
  case_bool_decide; [done|]. destruct (try_candidates _ _ _ _ _ _ _ _) as [c' x] eqn:E.
  apply try_candidates_effect in E; [|done]. destruct x as [r|e].
  - destruct E as (He & Hh & Hs & Hsha & _). split; [by apply commit_effect_extends|].
    intros r' [= <-]. rewrite Hsha. split; [done|]. intros _. by rewrite Hsha.
  - destruct E as (Hs & _). split; [apply commit_effect_extends; by left|done].
Qed.

Lemma failed_result_delivered h msg r c :
  failed_result h msg = Ok r -> validate_sha256_hex h = Ok (tr_sha256 r) /\ delivered c r /\ tr_success r = false.
Proof.
  unfold failed_result. by intros (n & Hn & [= <-])%res_bind_ok.
Qed.

(** The single download of the worker. *)
Lemma do_download_effect net envs i h cands c :
  let '(c', x) := do_download net envs i h cands c in
  extends c c' /\
  (forall r, x = Ok r -> exists r0, r = Some r0 /\ validate_sha256_hex h = Ok (tr_sha256 r0) /\ delivered c' r0).
Proof.
  unfold do_download. destruct (has_asset h c) eqn:Eh.
  - split; [done|]. intros r (n & Hn & [= <-])%res_bind_ok. eexists. split_and!; [done|done|].
    apply has_asset_holds in Eh as (n' & Hv & Hh). rewrite Hn in Hv. injection Hv as <-.
    intros _. split; [by eapply validated_sha256|done].
  - unfold download_missing_assets, gather_downloads, download_asset.
    pose proof (failover_effect net (envs h) cands h c) as Hf.
    destruct (transfer_asset_with_failover net (envs h) cands h c) as [c' x].
    destruct Hf as [He Hr]. split; [done|]. intros r (m & Hm & [= <-])%res_bind_ok.
    simpl in Hm. unfold collect_outcome in Hm. simpl in Hm. destruct x as [r0|e]; simpl in Hm.
    + injection Hm as <-. simpl. rewrite String.eqb_refl. exists r0. split; [done|]. by apply Hr.
    + apply res_bind_ok in Hm as (m1 & Hm & [= <-]). apply res_bind_ok in Hm as (r0 & Hr0 & [= <-]).
      simpl. rewrite String.eqb_refl. exists r0. split; [done|]. by apply (failed_result_delivered _ _ _ c') in Hr0 as (? & ? & _).
Qed.

Lemma gather_single_effect net envs i targets : forall c,
  let '(c', x) := gather_single net envs i targets c in
  extends c c' /\
  (forall rs, x = Ok rs ->
     Forall (fun r => exists r0, r = Some r0 /\ delivered c' r0) rs /\
     Forall2 (fun t r => exists r0, r = Some r0 /\ validate_sha256_hex (fst t) = Ok (tr_sha256 r0)) targets rs).
Proof.
  induction targets as [|[h cands] targets IH]; intros c; simpl.
  { split; [done|]. intros rs [= <-]. by split; constructor. }
  pose proof (do_download_effect net envs i h cands c) as Hd.
  destruct (do_download net envs i h cands c) as [c1 [r|e]]; destruct Hd as [He Hr]; [|done].
  specialize (IH c1). destruct (gather_single net envs i targets c1) as [c2 x]. destruct IH as [He2 Hx].
  split; [by eapply extends_trans|]. intros rs (rs0 & -> & [= <-])%res_bind_ok.
  destruct (Hx _ eq_refl) as [Hf Hf2]. destruct (Hr _ eq_refl) as (r0 & -> & Hv & Hdel). split.
  - constructor; [|done]. exists r0. split; [done|]. eapply delivered_grows; [apply He2|done].
  - constructor; [by exists r0|done].
Qed.

(** ** The entries of a synchronisation *)

Definition entries_ok (c : local_cas) (results : odict transfer_result) : Prop :=
  forall h r, od_get h results = Some r -> tr_success r = true -> tr_sha256 r = h /\ holds h c = true.

Lemma entries_ok_set c results r :
  entries_ok c results -> delivered c r -> entries_ok c (od_set (tr_sha256 r) r results).
Proof.
  intros He Hd h r'. rewrite od_get_set. destruct (String.eqb_spec h (tr_sha256 r)) as [->|]; [|apply He].
  intros [= <-] Hs. split; [done|]. by apply Hd.
Qed.

Lemma entries_ok_grows c c' results : grows c c' -> entries_ok c results -> entries_ok c' results.
Proof. intros Hg He h r H Hs. destruct (He _ _ H Hs) as [Ht Hd]. split; [done|]. by eapply grows_holds. Qed.

Lemma entries_ok_fail c results h r : entries_ok c results -> tr_success r = false -> entries_ok c (od_set h r results).
Proof. intros He Hf h' r'. rewrite od_get_set. str_case; [|apply He]. intros [= <-]. congruence. Qed.

Lemma covers_set (results : odict transfer_result) h h' r :
  is_Some (od_get h results) -> is_Some (od_get h (od_set h' r results)).
Proof. rewrite od_get_set. by str_case. Qed.

Lemma covers_set_same (results : odict transfer_result) h r : is_Some (od_get h (od_set h r results)).
Proof. rewrite od_get_set_eq. done. Qed.

#[local] Hint Resolve entries_ok_set covers_set covers_set_same : core.

(** [mr'] has the entries of [mr] and those of [P], all of them good. *)
Definition adds (c : local_cas) (P : string -> Prop) (mr mr' : metrics * odict transfer_result) : Prop :=
  (entries_ok c (snd mr) -> entries_ok c (snd mr')) /\
  (forall h, is_Some (od_get h (snd mr)) -> is_Some (od_get h (snd mr'))) /\
  (forall h, P h -> is_Some (od_get h (snd mr'))).

Lemma adds_trans c P Q mr1 mr2 mr3 :
  adds c P mr1 mr2 -> adds c Q mr2 mr3 -> adds c (fun h => P h \/ Q h) mr1 mr3.
Proof. intros (A1 & A2 & A3) (B1 & B2 & B3). split_and!; [auto|auto|]. intros h [H|H]; auto. Qed.

Lemma worker_hits_adds i required missing c : cas_ok c ->
  (forall raw norm, raw ∈ required -> validate_sha256_hex raw = Ok norm -> norm ∉ missing -> holds norm c = true) ->
  forall m results,
  adds c (fun h => exists raw, raw ∈ required /\ validate_sha256_hex raw = Ok h /\ h ∉ missing) (m, results)
    (worker_hits i required missing c m results).
Proof.
  intros Hc. induction required as [|raw required IH]; intros Hm m results; simpl.
  { split_and!; [done|done|]. by intros h (raw & ?%elem_of_nil & _). }
  assert (forall m0 results0, adds c (fun h => exists raw0, raw0 ∈ required /\ validate_sha256_hex raw0 = Ok h /\ h ∉ missing)
      (m0, results0) (worker_hits i required missing c m0 results0)) as IH'.
  { intros m0 r0. apply IH. intros raw' n' Hin. apply Hm, elem_of_cons. by right. }
  destruct (validate_sha256_hex raw) as [norm|e] eqn:E; [case_bool_decide as Hin|].
  - destruct (IH' m results) as (A1 & A2 & A3). split_and!; [done|done|].
    intros h (raw' & [->|H]%elem_of_cons & Hv & Hh); [congruence|]. apply A3. by exists raw'.
  - set (m1 := record_cache_hit _ _ m). set (r1 := od_set norm _ results).
    destruct (IH' m1 r1) as (A1 & A2 & A3). split_and!.
    + intros He. apply A1. apply (entries_ok_set c results (local_hit i norm c)); [done|].
      intros _. split; [by eapply validated_sha256|]. apply (Hm raw); [apply elem_of_cons; by left|done|done].
    + intros h Hh. apply A2. simpl. by apply covers_set.
    + intros h (raw' & [->|H]%elem_of_cons & Hv & Hh); [|apply A3; by exists raw'].
      rewrite E in Hv. injection Hv as ->. apply A2. simpl. apply covers_set_same.
  - destruct (IH' m results) as (A1 & A2 & A3). split_and!; [done|done|].
    intros h (raw' & [->|H]%elem_of_cons & Hv & Hh); [congruence|]. apply A3. by exists raw'.
Qed.

Lemma fail_entry_adds c msg mr h mr' : fail_entry msg mr h = Ok mr' -> adds c (eq h) mr mr'.
Proof.
  unfold fail_entry. intros (r & Hr & [= <-])%res_bind_ok.
  apply (failed_result_delivered _ _ _ c) in Hr as (_ & _ & Hf). split_and!; simpl; auto.
  - intros He. by apply entries_ok_fail.
  - by intros ? <-.
Qed.

Lemma record_result_adds c mr r : (exists r0, r = Some r0 /\ delivered c r0) ->
  adds c (fun h => exists r0, r = Some r0 /\ tr_sha256 r0 = h) mr (record_result mr r).
Proof.
  intros (r0 & -> & Hd). unfold record_result. split_and!; simpl; auto.
  intros h (r1 & [= <-] & <-). auto.
Qed.

Lemma record_results_adds c rs : forall mr, Forall (fun r => exists r0, r = Some r0 /\ delivered c r0) rs ->
  adds c (fun h => exists r0, Some r0 ∈ rs /\ tr_sha256 r0 = h) mr (fold_left record_result rs mr).
Proof.
  induction rs as [|r rs IH]; intros mr Hf; simpl.
  { split_and!; [done|done|]. by intros h (r0 & ?%elem_of_nil & _). }
  apply Forall_cons in Hf as [Hr Hf]. specialize (IH (record_result mr r) Hf).
  pose proof (adds_trans _ _ _ _ _ _ (record_result_adds c mr r Hr) IH) as (A1 & A2 & A3). split_and!; [done|done|].
  intros h (r0 & [<-|H]%elem_of_cons & Hh); apply A3; [left|right]; eauto.
Qed.

Lemma mark_unresolved_adds c l : forall mr mr',
  res_fold mark_unresolved_worker mr l = Ok mr' ->
  adds c (fun h => h ∈ l) mr mr'.
Proof.
  induction l as [|h l IH]; intros mr mr'; simpl.
  { intros [= <-]. split_and!; [done|done|]. by intros h ?%elem_of_nil. }
  intros (mr1 & H1 & H2)%res_bind_ok. specialize (IH _ _ H2).
  assert (adds c (eq h) mr mr1) as H.
  { unfold mark_unresolved_worker in H1. destruct (od_mem h (snd mr)) eqn:E.
    - injection H1 as <-. split_and!; [done|done|]. intros ? <-. by apply od_mem_get.
    - by eapply fail_entry_adds. }
  pose proof (adds_trans _ _ _ _ _ _ H IH) as (A1 & A2 & A3). split_and!; [done|done|].
  intros x [->|Hx]%elem_of_cons; apply A3; auto.
Qed.

Lemma fail_entries_adds c msg l : forall mr mr',
  res_fold (fail_entry msg) mr l = Ok mr' -> adds c (fun h => h ∈ l) mr mr'.
Proof.
  induction l as [|h l IH]; intros mr mr'; simpl.
  { intros [= <-]. split_and!; [done|done|]. by intros h ?%elem_of_nil. }
  intros (mr1 & H1 & H2)%res_bind_ok.
  pose proof (adds_trans _ _ _ _ _ _ (fail_entry_adds c _ _ _ _ H1) (IH _ _ H2)) as (A1 & A2 & A3).
  split_and!; [done|done|]. intros x [->|Hx]%elem_of_cons; apply A3; auto.
Qed.

Lemma validate_missing_ok v hashes : validate_missing_hashes v = Ok hashes ->
  Forall (fun h => is_sha256 h = true) hashes /\
  (forall raw, raw ∈ v -> exists n, validate_sha256_hex raw = Ok n /\ n ∈ hashes).
Proof.
  unfold validate_missing_hashes.
  assert (forall v acc hashes, res_fold (fun acc h => let! n := validate_sha256_hex h in Ok (acc ++ [n])) acc v = Ok hashes ->
    Forall (fun h => is_sha256 h = true) acc ->
    Forall (fun h => is_sha256 h = true) hashes /\ (forall h, h ∈ acc -> h ∈ hashes) /\
    (forall raw, raw ∈ v -> exists n, validate_sha256_hex raw = Ok n /\ n ∈ hashes)) as H.
  { induction v0 as [|raw v0 IH]; intros acc hs; simpl.
    - intros [= <-] Hf. split_and!; [done|done|]. by intros raw ?%elem_of_nil.
    - intros (acc' & (n & Hn & [= <-])%res_bind_ok & H)%res_bind_ok Hf.
      apply IH in H as (H1 & H2 & H3).
      + split_and!; [done|intros h Hh; apply H2, elem_of_app; by left|].
        intros raw' [->|Hr]%elem_of_cons; [|by apply H3]. exists n. split; [done|]. apply H2, elem_of_app. right. by apply list_elem_of_singleton.
      + apply Forall_app. split; [done|]. constructor; [by eapply validated_sha256|constructor]. }
  intros E. destruct (H _ _ _ E (Forall_nil_2 _)) as (H1 & _ & H3). done.
Qed.

(** ** Synchronisation is sound, and complete under the contract *)

Lemma missing_held required c raw norm : cas_ok c ->
  raw ∈ required -> validate_sha256_hex raw = Ok norm -> norm ∉ get_missing_hashes required c -> holds norm c = true.
Proof.
  intros Hc Hr Hv Hn. destruct (holds norm c) eqn:E; [done|]. exfalso. apply Hn, missing_elem; [done|]. left. by exists raw.
Qed.

(** Whatever it answers, a synchronisation only extends the store. *)
Lemma sync_assets_extends net envs locate i coordinator required m c :
  extends c (sync_assets net envs locate i coordinator required m c).1.
Proof.
  unfold sync_assets. case_bool_decide; [done|]. destruct coordinator; simpl; [|done].
  destruct (locate_assets locate _) as [resp|e]; [|done].
  pose proof (gather_single_effect net envs i (with_candidates resp) c) as Hg.
  destruct (gather_single net envs i (with_candidates resp) c) as [c1 [rs|e]]; by destruct Hg.
Qed.

(** Synchronising leaves a well-formed store that keeps every object; each
    successful entry names a digest the store then holds, filed under the
    digest of its content.  If the coordinator answers for every digest it is
    asked about, every required digest has an entry, so a digest without a
    successful entry is never taken for present. *)
Theorem sync_assets_sound_and_complete net envs locate `{!LocateContract locate} i coordinator required m c c' m' results :
  cas_ok c -> sync_assets net envs locate i coordinator required m c = (c', Ok (m', results)) ->
  cas_ok c' /\ (forall h x, object h c = Some x -> object h c' = Some x) /\
  (forall h r, od_get h results = Some r -> tr_success r = true ->
     tr_sha256 r = h /\ exists content, object h c' = Some content /\ sha256 content = h) /\
  (forall raw norm, raw ∈ required -> validate_sha256_hex raw = Ok norm -> is_Some (od_get norm results)).
Proof.
  intros Hc E.
  enough (extends c c' /\ entries_ok c' results /\
    (forall raw norm, raw ∈ required -> validate_sha256_hex raw = Ok norm -> is_Some (od_get norm results))) as ([Ho Hg] & He & Hcov).
  { specialize (Ho Hc). split_and!; [done|done| |done]. intros h r Hr Hs. destruct (He _ _ Hr Hs) as [Ht [x Hx]%holds_iff].
    split; [done|]. exists x. split; [done|]. by destruct (Ho _ _ Hx). }
  unfold sync_assets in E. set (missing := get_missing_hashes required c) in *.
  pose proof (worker_hits_adds i required missing c Hc (fun raw norm => missing_held required c raw norm Hc) m []) as (W1 & W2 & W3).
  destruct (worker_hits i required missing c m []) as [m1 r1]. simpl in *.
  assert (entries_ok c r1) as Her1 by (apply W1; intros h r; simpl; congruence).
  case_bool_decide as Hmis.
  { injection E as <- <- <-. split_and!; [done|done|]. intros raw norm Hr Hv. apply W3. exists raw. rewrite Hmis. set_solver. }
  assert (forall norm (P : string -> Prop) results0 m0, adds c' P (m1, r1) (m0, results0) -> extends c c' ->
    (forall raw, raw ∈ required -> validate_sha256_hex raw = Ok norm -> norm ∈ missing -> P norm) ->
    forall raw, raw ∈ required -> validate_sha256_hex raw = Ok norm -> is_Some (od_get norm results0)) as Hcov.
  { intros norm P r0 m0 (A1 & A2 & A3) _ HP raw Hr Hv. destruct (decide (norm ∈ missing)) as [Hin|Hin].
    - apply A3. by apply (HP raw).
    - apply A2. apply W3. by exists raw. }
  destruct coordinator; simpl in E.
  - destruct (locate_assets locate (elements missing)) as [resp|e] eqn:El; [|done].
    unfold locate_assets in El. apply res_bind_ok in El as (hashes & Hval & Hloc).
    apply validate_missing_ok in Hval as [Hh Hhas].
    pose proof (gather_single_effect net envs i (with_candidates resp) c) as Hgath.
    destruct (gather_single net envs i (with_candidates resp) c) as [c1 [rs|e]]; [|done].
    destruct Hgath as [Hext Hrs]. destruct (Hrs _ eq_refl) as [Hf Hf2]. injection E as <- Em.
    pose proof (adds_trans _ _ _ _ _ _ (record_results_adds c1 rs (m1, r1) Hf) (mark_unresolved_adds c1 _ _ _ Em)) as Hadds.
    split; [done|]. split.
    { destruct Hadds as (A1 & _ & _). apply A1. simpl. eapply entries_ok_grows; [apply Hext|done]. }
    intros raw norm. eapply (Hcov norm); [exact Hadds|done|]. intros raw' Hr Hv Hin.
    assert (norm ∈ hashes) as Hnh.
    { destruct (Hhas norm) as (n & Hn & Hin'); [by apply elem_of_elements|].
      rewrite validate_sha256_hex_norm in Hn by (by eapply validated_sha256). by injection Hn as ->. }
    destruct (locate_covers hashes resp Hh Hloc norm Hnh) as [(cands & Hget & Hne)|Hu]; [left|by right].
    assert ((norm, cands) ∈ with_candidates resp) as Hin2.
    { unfold with_candidates. rewrite list_elem_of_In, filter_In, <- list_elem_of_In. split; [by apply od_get_Some_elem|].
      simpl. by rewrite bool_decide_false. }
    apply list_elem_of_lookup in Hin2 as [k Hk]. destruct (Forall2_lookup_l _ _ _ _ _ Hf2 Hk) as (r & Hr2 & r0 & -> & Hv0).
    simpl in Hv0. rewrite validate_sha256_hex_norm in Hv0 by (by eapply validated_sha256). injection Hv0 as Hv0.
    exists r0. split; [|done]. by eapply list_elem_of_lookup_2.
  - injection E as <- E. pose proof (fail_entries_adds c _ _ _ _ E) as Hadds. split; [done|]. split.
    { destruct Hadds as (A1 & _ & _). by apply A1. }
    intros raw norm. eapply (Hcov norm); [exact Hadds|done|]. intros raw' Hr Hv Hin. by apply elem_of_elements.
Qed.

(** ** A concrete synchronisation *)

Definition sample_digest : string := Eval vm_compute in sha256 "abc".

Definition sample_locate (hashes : list string) : res locate_response :=
  Ok {| lr_locations := [(sample_digest, sample_candidates)];
        lr_unresolved_hashes := List.filter (fun h => negb (String.eqb h sample_digest)) hashes |}.

Lemma sample_locate_contract : LocateContract sample_locate.
Proof.
  split.
  - intros hashes resp _ [= <-] h Hh. cbn [lr_locations lr_unresolved_hashes]. destruct (String.eqb h sample_digest) eqn:E.
    + left. exists sample_candidates. apply String.eqb_eq in E. rewrite E. split; [reflexivity|discriminate].
    + right. rewrite list_elem_of_In, filter_In, E, <- list_elem_of_In. split; [exact Hh|reflexivity].
  - intros hashes resp [= <-]. unfold od_wf. cbn. apply NoDup_singleton.
Defined.

(** Two peers that fail, one that delivers, and a digest nobody holds. *)
Lemma sync_assets_witness :
  exists c' m' results,
    sync_assets sample_net (fun _ => sample_env io_ok) sample_locate io_ok true [sample_digest; sha256 "x"] new_metrics empty_cas
      = (c', Ok (m', results)) /\
    is_Some (od_get (sha256 "x") results) /\ mx_failover_events m' = 0 /\
    exists r, od_get sample_digest results = Some r /\ tr_success r = true.
Proof.
  destruct (sync_assets sample_net (fun _ => sample_env io_ok) sample_locate io_ok true [sample_digest; sha256 "x"] new_metrics empty_cas)
    as [c' x] eqn:E.
  assert (match snd (sync_assets sample_net (fun _ => sample_env io_ok) sample_locate io_ok true [sample_digest; sha256 "x"] new_metrics empty_cas) with
          | Ok (m, rs) => match od_get sample_digest rs with Some r => (mx_failover_events m =? 0) && tr_success r | None => false end
          | Err _ => false end = true) as Hr by (vm_compute; reflexivity).
  rewrite E in Hr. cbn [snd] in Hr. destruct x as [[m' results]|]; [|discriminate Hr].
  exists c', m', results. split; [reflexivity|].
  destruct (@sync_assets_sound_and_complete _ _ _ sample_locate_contract _ _ _ _ _ _ _ _ empty_cas_ok E) as (_ & _ & _ & Hcov).
  split.
  - apply (Hcov (sha256 "x")); [apply elem_of_cons; right; apply list_elem_of_singleton; reflexivity|vm_compute; reflexivity].
  - destruct (od_get sample_digest results) as [r|]; [|discriminate Hr]. apply andb_true_iff in Hr as [Hm Hs].
    split; [apply Z.eqb_eq, Hm|]. exists r. split; [reflexivity|exact Hs].
Defined.
