(* ===== verification/Coordinator.v ===== *)
(** * The coordinator's control plane ([distributed/coordinator.py])

    Registration, heartbeats, asset location, statistics and the background
    passes of [CoordinatorService], with the guards of their routes.  [service]
    is the state these handlers share; submission, cancellation and recovery
    have files of their own.  A refused request is an [HTTPException]; the
    random part of a credential and the clock are arguments. *)
From S2P Require Export Auth DataPlane WorkerRegistryProps AttemptRegistry M7.

Section coordinator.
Context {SW SA : Type} `{RecordStore SW worker_info} `{RecordDelete SW} `{RecordStore SA attempt_record}.
Context (cfg : registry_config).

Record service := {
  sv_workers : workers SW;
  sv_attempts : attempts SA;
  sv_credentials : credential_store;
  sv_guard : replay_guard;
  sv_memory : telemetry_memory;
  sv_prioritizer : prioritizer;
}.

Definition set_sv_workers (w : workers SW) (s : service) : service :=
  {| sv_workers := w; sv_attempts := sv_attempts s; sv_credentials := sv_credentials s; sv_guard := sv_guard s;
     sv_memory := sv_memory s; sv_prioritizer := sv_prioritizer s |}.
Definition set_sv_attempts (a : attempts SA) (s : service) : service :=
  {| sv_workers := sv_workers s; sv_attempts := a; sv_credentials := sv_credentials s; sv_guard := sv_guard s;
     sv_memory := sv_memory s; sv_prioritizer := sv_prioritizer s |}.
Definition set_sv_credentials (cs : credential_store) (s : service) : service :=
  {| sv_workers := sv_workers s; sv_attempts := sv_attempts s; sv_credentials := cs; sv_guard := sv_guard s;
     sv_memory := sv_memory s; sv_prioritizer := sv_prioritizer s |}.
Definition set_sv_guard (g : replay_guard) (s : service) : service :=
  {| sv_workers := sv_workers s; sv_attempts := sv_attempts s; sv_credentials := sv_credentials s; sv_guard := g;
     sv_memory := sv_memory s; sv_prioritizer := sv_prioritizer s |}.
Definition set_sv_memory (m : telemetry_memory) (s : service) : service :=
  {| sv_workers := sv_workers s; sv_attempts := sv_attempts s; sv_credentials := sv_credentials s;
     sv_guard := sv_guard s; sv_memory := m; sv_prioritizer := sv_prioritizer s |}.

(** ** Registration *)

Record registration_payload := {
  pl_worker_id : string;
  pl_endpoint_url : string;
  pl_ip_address : string;
  pl_port : Z;
  pl_hostname : option string;
  pl_capacity_bytes : Z;
  pl_used_bytes : Z;
  pl_resource_profile : option worker_resource_profile;
  pl_capabilities : worker_capabilities;
  pl_inventory_hashes : gset string;
  pl_tags : odict string;
  pl_cost_per_hour : float;
  pl_can_execute_workloads : bool;
}.

Record registration_response := {
  rr_worker_id : string;
  rr_registered_at_utc : float;
  rr_acknowledged_inventory_count : Z;
  rr_worker_credential : string;
}.

(** The profile of a registration, re-stamped by the coordinator. *)
Definition registered_profile (received_at : float) (p : registration_payload) : option worker_resource_profile :=
  match pl_resource_profile p with
  | Some prof =>
      match rp_timestamp_utc prof with
      | None => None
      | Some _ => Some (rp_overlay (pl_worker_id p) (pl_endpoint_url p) (pl_ip_address p) WS_ACTIVE
                          (pl_inventory_hashes p) (Some received_at) (pl_can_execute_workloads p) prof)
      end
  | None => None
  end.

(** [WorkerInfo(...)]: the fields that are not passed take their defaults. *)
Definition registered_info (received_at : float) (p : registration_payload) : worker_info :=
  {| wi_worker_id := pl_worker_id p; wi_endpoint_url := pl_endpoint_url p; wi_ip_address := pl_ip_address p;
     wi_port := pl_port p; wi_hostname := pl_hostname p; wi_status := WS_ACTIVE;
     wi_capacity_bytes := pl_capacity_bytes p; wi_used_bytes := pl_used_bytes p;
     wi_capabilities := pl_capabilities p; wi_inventory_hashes := pl_inventory_hashes p;
     wi_last_heartbeat_utc := received_at; wi_estimated_rtt_ms := f0; wi_active_transfers := 0;
     wi_consecutive_heartbeat_failures := 0; wi_penalty_score := f0; wi_registered_at_utc := received_at;
     wi_last_metrics := None; wi_resource_profile := registered_profile received_at p; wi_tags := pl_tags p;
     wi_cost_per_hour := f0; wi_can_execute_workloads := pl_can_execute_workloads p |}.

Definition register_worker_sync (received_at : float) (token : string) (p : registration_payload) (s : service)
    : service * res registration_response :=
  match register_worker received_at (registered_info received_at p) (sv_workers s) with
  | (w, Err e) => (set_sv_workers w s, Err e)
  | (w, Ok registered) =>
      let '(cs, issued) := issue_worker_credential (wi_worker_id registered) token (sv_credentials s) in
      (set_sv_credentials cs (set_sv_workers w s),
       Ok {| rr_worker_id := wi_worker_id registered; rr_registered_at_utc := wi_registered_at_utc registered;
             rr_acknowledged_inventory_count := Z.of_nat (size (wi_inventory_hashes registered));
             rr_worker_credential := issued |})
  end.

(** The dependencies of a route run before its handler. *)
Definition guarded {A} (r : res unit) (k : service * res A) (s : service) : service * res A :=
  match r with Err e => (s, Err e) | Ok _ => k end.

(** [except ValueError as exc: raise HTTPException(400)] *)
Definition bad_request {A} (r : res A) : res A :=
  match r with Err (ValueError m) => Err (HTTPException 400 m) | r => r end.

Definition register_route (now : float) (token : string) (authorization nonce : option string)
    (p : registration_payload) (s : service) : service * res registration_response :=
  guarded (require_bootstrap (sv_credentials s) authorization)
    (let '(g, r) := check_replay (sv_credentials s) nonce now (sv_guard s) in
     let s := set_sv_guard g s in
     guarded r (let '(s, r) := register_worker_sync now token p s in (s, bad_request r)) s) s.

(** ** Heartbeats and departures *)

Record heartbeat_response := { hr_status : string; hr_coordinator_time_utc : float; hr_re_register_required : bool }.

Definition re_register (now : float) : heartbeat_response :=
  {| hr_status := "re_register_required"; hr_coordinator_time_utc := now; hr_re_register_required := true |}.

Definition worker_heartbeat (now : float) (worker_id : string) (payload : option heartbeat_payload) (s : service)
    : service * res heartbeat_response :=
  if negb (bool_decide (is_Some (get_worker (sv_workers s) worker_id))) then (s, Ok (re_register now))
  else
    match record_heartbeat now worker_id payload (sv_workers s) with
    | (w, Err e) => (set_sv_workers w s, Err e)
    | (w, Ok false) => (set_sv_workers w s, Ok (re_register now))
    | (w, Ok true) =>
        let s := set_sv_workers w s in
        let s :=
          match i ← get_worker w worker_id; wi_resource_profile i with
          | Some p =>
              set_sv_memory (on_worker_heartbeat now worker_id (rp_cpu_utilization_percent p) (rp_ram_total_bytes p)
                               (rp_ram_available_bytes p) false f0 (sv_memory s)) s
          | None => s
          end in
        (s, Ok {| hr_status := "healthy"; hr_coordinator_time_utc := now; hr_re_register_required := false |})
    end.

Definition heartbeat_route (now : float) (worker_id : string) (authorization : option string)
    (payload : option heartbeat_payload) (s : service) : service * res heartbeat_response :=
  guarded (require_worker (sv_credentials s) worker_id authorization) (worker_heartbeat now worker_id payload s) s.

Definition not_registered (worker_id : string) : exn :=
  HTTPException 404 ("Worker '" +:+ worker_id +:+ "' is not registered.").

Definition unregister_route (worker_id : string) (authorization : option string) (s : service) : service * res string :=
  guarded (require_worker_or_admin (sv_credentials s) worker_id authorization)
    (match unregister_worker worker_id (sv_workers s) with
     | (w, Err e) => (set_sv_workers w s, Err e)
     | (w, Ok None) => (set_sv_workers w s, Err (not_registered worker_id))
     | (w, Ok (Some _)) => (set_sv_workers w s, Ok worker_id)
     end) s.

(** ** Asset location *)

Record locate_request := {
  lq_requester_worker_id : string;
  lq_missing_hashes : list string;
  lq_requester_ip : option string;
  lq_max_candidates_per_asset : Z;
  lq_include_degraded : bool;
}.

Definition requester_ip (reg : workers SW) (req : locate_request) (client_host : option string) : string :=
  match token_truthy (lq_requester_ip req) with
  | Some ip => ip
  | None =>
      match get_worker reg (lq_requester_worker_id req) with
      | Some w => wi_ip_address w
      | None => default "127.0.0.1"%string (token_truthy client_host)
      end
  end.

(** A worker of the map that is scored for this request. *)
Definition admitted (req : locate_request) (wid : string) (w : worker_info) : bool :=
  negb (str_truthy (lq_requester_worker_id req) && String.eqb wid (lq_requester_worker_id req))
  && negb (bool_decide (wi_status w = WS_OFFLINE))
  && negb (negb (lq_include_degraded req)
           && (bool_decide (wi_status w = WS_DEGRADED) || bool_decide (wi_status w = WS_UNHEALTHY))).

Fixpoint evaluated_candidates (p : prioritizer) (ip : string) (req : locate_request) (l : odict worker_info)
    : res (odict (float * candidate_source)) :=
  match l with
  | [] => Ok []
  | (wid, w) :: l =>
      if admitted req wid w then
        let! e := evaluate_candidate p ip w in
        let! rest := evaluated_candidates p ip req l in Ok ((wid, e) :: rest)
      else evaluated_candidates p ip req l
  end.

(** The candidates of one digest, best score first; the order of equal scores
    is that of the set of its holders. *)
Definition sources_of (evaluated : odict (float * candidate_source)) (max_cands : Z) (worker_ids : gset string)
    : list candidate_source :=
  let candidates := omap (fun wid => od_get wid evaluated) (elements worker_ids) in
  let ordered := isort by_score candidates in
  map snd (if 0 <? max_cands then take (Z.to_nat max_cands) ordered else ordered).

Definition locate_one (evaluated : odict (float * candidate_source)) (located : hindex) (max_cands : Z)
    (resp : locate_response) (raw_h : string) : locate_response :=
  let unresolved h :=
    {| lr_locations := od_set raw_h [] (lr_locations resp); lr_unresolved_hashes := lr_unresolved_hashes resp ++ [h] |} in
  match validate_sha256_hex raw_h with
  | Err _ => unresolved raw_h
  | Ok norm_h =>
      match located !! norm_h with
      | None => unresolved norm_h
      | Some worker_ids =>
          if bool_decide (omap (fun wid => od_get wid evaluated) (elements worker_ids) = []) then unresolved norm_h
          else {| lr_locations := od_set raw_h (sources_of evaluated max_cands worker_ids) (lr_locations resp);
                  lr_unresolved_hashes := lr_unresolved_hashes resp |}
      end
  end.

Definition locate_assets_sync (reg : workers SW) (p : prioritizer) (req : locate_request) (client_host : option string)
    : res locate_response :=
  let located_map := locate_hashes (lq_missing_hashes req) reg in
  let! evaluated := evaluated_candidates p (requester_ip reg req client_host) req (wk_workers reg) in
  Ok (fold_left (locate_one evaluated located_map (lq_max_candidates_per_asset req)) (lq_missing_hashes req)
        {| lr_locations := []; lr_unresolved_hashes := [] |}).

Definition locate_route (authorization client_host : option string) (req : locate_request) (s : service)
    : service * res locate_response :=
  guarded (require_admin_or_any_worker (sv_credentials s) authorization)
    (s, locate_assets_sync (sv_workers s) (sv_prioritizer s) req client_host) s.

(** ** Statistics *)

Record cluster_telemetry := {
  ct_uptime_seconds : float;
  ct_total_registered_workers : Z;
  ct_active_workers : Z;
  ct_degraded_workers : Z;
  ct_unhealthy_workers : Z;
  ct_offline_workers : Z;
  ct_unique_cached_assets_count : Z;
  ct_total_inventory_records : Z;
  ct_total_cluster_capacity_bytes : Z;
  ct_total_cluster_used_bytes : Z;
  ct_aggregate_active_transfers : Z;
}.

Definition count_status (st : worker_status) (l : list worker_info) : Z :=
  Z.of_nat (length (List.filter (fun w => bool_decide (wi_status w = st)) l)).

Definition get_cluster_stats_sync (now start_time_utc : float) (reg : workers SW) : cluster_telemetry :=
  let workers := list_workers false reg in
  let stats := get_cluster_stats reg in
  {| ct_uptime_seconds := f_round (fmax f0 (fsub now start_time_utc)) 2;
     ct_total_registered_workers := Z.of_nat (length workers);
     ct_active_workers := count_status WS_ACTIVE workers;
     ct_degraded_workers := count_status WS_DEGRADED workers;
     ct_unhealthy_workers := count_status WS_UNHEALTHY workers;
     ct_offline_workers := count_status WS_OFFLINE workers;
     ct_unique_cached_assets_count := cs_total_unique_hashes stats;
     ct_total_inventory_records := sumZ (map (fun w => Z.of_nat (size (wi_inventory_hashes w))) workers);
     ct_total_cluster_capacity_bytes := cs_total_capacity_bytes stats;
     ct_total_cluster_used_bytes := cs_total_used_bytes stats;
     ct_aggregate_active_transfers := sumZ (map wi_active_transfers workers) |}.

(** ** Background passes: one turn of each loop; an exception ends the turn. *)

Fixpoint lose_workers (now : float) (evicted : list string) (s : service) : service * res unit :=
  match evicted with
  | [] => (s, Ok tt)
  | wid :: rest =>
      match handle_worker_lost now wid (sv_attempts s) with
      | (a, Ok _) => lose_workers now rest (set_sv_attempts a s)
      | (a, Err e) => (set_sv_attempts a s, Err e)
      end
  end.

(** The turn of the eviction loop: the service and the time of the last decay. *)
Definition eviction_pass (py_exp : float -> res float) (py_log2 heartbeat_timeout_seconds penalty_decay_interval_seconds : float)
    (now last_decay_time : float) (s : service) : service * float * res unit :=
  match evict_expired_workers cfg now (Some heartbeat_timeout_seconds) (sv_workers s) with
  | (w, Err e) => (set_sv_workers w s, last_decay_time, Err e)
  | (w, Ok evicted) =>
      match lose_workers now evicted (set_sv_workers w s) with
      | (s, Err e) => (s, last_decay_time, Err e)
      | (s, Ok _) =>
          if fge (fsub now last_decay_time) penalty_decay_interval_seconds then
            match decay_penalties cfg py_exp py_log2 now (sv_workers s) with
            | (w, Ok _) => (set_sv_workers w s, now, Ok tt)
            | (w, Err e) => (set_sv_workers w s, last_decay_time, Err e)
            end
          else (s, last_decay_time, Ok tt)
      end
  end.

(** The features the health loop builds from the temporal state. *)
Definition health_features (t : worker_temporal_state) : worker_features :=
  {| wf_cpu_available_ratio := ema_value (wt_cpu_utilization_ema t);
     wf_ram_available_ratio := ema_value (wt_ram_utilization_ema t);
     wf_vram_available_ratio := f1; wf_has_gpu := f0; wf_active_workload_ratio := f0; wf_cache_locality_ratio := f0;
     wf_heartbeat_stability := f1; wf_recent_failure_rate := ema_value (wt_failure_rate_ema t);
     wf_recent_latency_normalized := fmin f1 (fdiv (ema_value (wt_latency_ema t)) (f_of_Z 100));
     wf_throughput_normalized := flit 5 1 |}.

(** The new status the loop gives a worker, if any. *)
Definition health_verdict (attempts : attempts SA) (t : worker_temporal_state) (w : worker_info) : option worker_status :=
  let features := health_features t in
  let state := fst (infer_worker_behavior features) in
  if bool_decide (state = MW_DEGRADED \/ state = MW_ERRATIC \/ state = MW_OVERLOADED) then
    if bool_decide (wi_status w = WS_ACTIVE)
       && bool_decide (list_running_attempts_for_worker attempts (wt_worker_id t) = [])
       && fgt (wf_recent_failure_rate features) (flit 5 1)
    then Some WS_DRAINING else None
  else if bool_decide (state = MW_STABLE) then
    if bool_decide (wi_status w = WS_DRAINING) then Some WS_ACTIVE else None
  else None.

(** The turn of the health loop and the workers whose drain it starts. *)
Fixpoint health_pass (active_workers : list worker_temporal_state) (s : service) : service * list string * res unit :=
  match active_workers with
  | [] => (s, [], Ok tt)
  | t :: rest =>
      let wid := wt_worker_id t in
      match w ← get_worker (sv_workers s) wid; health_verdict (sv_attempts s) t w with
      | None => health_pass rest s
      | Some st =>
          match set_worker_status wid st (sv_workers s) with
          | (w, Err e) => (set_sv_workers w s, [], Err e)
          | (w, Ok _) =>
              let '(s, drained, r) := health_pass rest (set_sv_workers w s) in
              (s, if bool_decide (st = WS_DRAINING) then wid :: drained else drained, r)
          end
      end
  end.

(** ** Requests *)

Definition MAX_SPECS_PER_JOB : Z := 1000.
Definition MAX_REQUEST_BODY_BYTES : Z := 4 * 1024 * 1024.

Definition limit_request_body_size (content_length : option string) : res unit :=
  match h ← content_length; py_int h with
  | Some declared_size => if MAX_REQUEST_BODY_BYTES <? declared_size then Err (HTTPException 413 "Request body exceeds maximum size of 4194304 bytes") else Ok tt
  | None => Ok tt
  end.

Definition validate_specs_count {A} (v : list A) : res (list A) :=
  if MAX_SPECS_PER_JOB <? Z.of_nat (length v) then Err (ValueError "job submission exceeds the maximum") else Ok v.

(** The status a failed submission is answered with. *)
Definition submission_error (e : exn) : exn :=
  match e with
  | JobSubmissionInfeasibleError => HTTPException 422 ""
  | WorkloadIdConflictError w => HTTPException 409 w
  | ValueError m => HTTPException 400 m
  | e => e
  end.

(** [items[offset:offset+limit]]: a negative bound counts from the end. *)
Definition slice_bound (n : nat) (k : Z) : nat :=
  Z.to_nat (if k <? 0 then Z.max 0 (k + Z.of_nat n) else Z.min k (Z.of_nat n)).
Definition py_slice {A} (a b : Z) (l : list A) : list A :=
  let i := slice_bound (length l) a in
  let j := slice_bound (length l) b in
  take (j - i) (drop i l).

Record page (A : Type) := { pg_items : list A; pg_total : Z; pg_has_more : bool }.
Definition paginate {A} (offset limit : Z) (l : list A) : page A :=
  {| pg_items := py_slice offset (offset + limit) l; pg_total := Z.of_nat (length l);
     pg_has_more := offset + limit <? Z.of_nat (length l) |}.
End coordinator.
Arguments service SW SA : clear implicits.
Arguments pg_items {A} p.
Arguments pg_total {A} p.
Arguments pg_has_more {A} p.

(** ** Asset location *)

Section location.
Context {SW : Type} `{RecordStore SW worker_info}.
Implicit Types reg : workers SW.

Lemma evaluated_candidates_get p ip req l ev wid :
  od_wf l -> evaluated_candidates p ip req l = Ok ev ->
  forall e, od_get wid ev = Some e <->
    exists w, od_get wid l = Some w /\ admitted req wid w = true /\ evaluate_candidate p ip w = Ok e.
Proof.
  revert ev. induction l as [|[k w] l IH]; simpl; intros ev Hwf.
  { intros [= <-] e. simpl. split; [done|by intros (? & ? & _)]. }
  apply NoDup_cons in Hwf as [Hk Hwf]. fold (od_keys l) in Hk.
  assert (od_get k l = None) as Hnone by (by apply od_get_None_keys).
  destruct (admitted req k w) eqn:Ea.
  - intros (e0 & He0 & (rest & Hr & [= <-])%res_bind_ok)%res_bind_ok e. simpl.
    destruct (String.eqb_spec wid k) as [->|Hne]; [|by apply IH]. split.
    + intros [= <-]. by exists w.
    + intros (w' & [= <-] & _ & He). congruence.
  - intros Hev e. rewrite (IH _ Hwf Hev). destruct (String.eqb_spec wid k) as [->|Hne]; [|done].
    rewrite Hnone. split; [by intros (? & ? & _)|]. intros (w' & [= <-] & Ha & _). congruence.
Qed.

Lemma locate_hashes_get raws reg h :
  h ∈ raws -> is_sha256 h = true -> locate_hashes raws reg !! h = wk_hash_index reg !! h.
Proof.
  intros Hin Hn. unfold locate_hashes.
  enough (forall acc : hindex, (acc !! h = None \/ acc !! h = wk_hash_index reg !! h) -> forall raws,
    h ∈ raws \/ acc !! h = wk_hash_index reg !! h ->
    fold_left (fun acc raw => match validate_sha256_hex raw with
      | Ok h => match wk_hash_index reg !! h with Some s => <[h := s]> acc | None => acc end
      | Err _ => acc end) raws acc !! h = wk_hash_index reg !! h) as Hall.
  { apply Hall; [left; apply lookup_empty|by left]. }
  clear Hin. intros acc Hacc raws0. revert acc Hacc. induction raws0 as [|raw raws0 IH]; intros acc Hacc Hin; simpl.
  { destruct Hin as [H0|H0]; [by apply elem_of_nil in H0|done]. }
  destruct (validate_sha256_hex raw) as [n|e] eqn:Ev.
  - destruct (wk_hash_index reg !! n) as [st|] eqn:Es.
    + destruct (decide (h = n)) as [<-|Hne].
      * apply IH; rewrite lookup_insert_eq; [by right|by right].
      * apply IH; rewrite lookup_insert_ne by done; [done|].
        destruct Hin as [[->|Hin]%elem_of_cons|Hin]; [|by left|by right].
        rewrite validate_sha256_hex_norm in Ev by done. by injection Ev as ->.
    + apply IH; [done|]. destruct Hin as [[->|Hin]%elem_of_cons|Hin]; [|by left|by right].
      rewrite validate_sha256_hex_norm in Ev by done. injection Ev as <-. right. rewrite Es in *. by destruct Hacc.
  - apply IH; [done|]. destruct Hin as [[->|Hin]%elem_of_cons|Hin]; [|by left|by right].
    by rewrite validate_sha256_hex_norm in Ev.
Qed.

(** The answer for one digest: its sources, or the entry it adds to the
    unresolved list. *)
Definition scored_holders (evaluated : odict (float * candidate_source)) (located : hindex) (h : string)
    : list (float * candidate_source) :=
  omap (fun wid => od_get wid evaluated) (elements (idx_get h located)).

Lemma locate_one_valid evaluated located k resp h : is_sha256 h = true ->
  locate_one evaluated located k resp h =
    {| lr_locations := od_set h (if bool_decide (scored_holders evaluated located h = []) then []
                                 else sources_of evaluated k (idx_get h located)) (lr_locations resp);
       lr_unresolved_hashes := lr_unresolved_hashes resp ++
         (if bool_decide (scored_holders evaluated located h = []) then [h] else []) |}.
Proof.
  intros Hn. unfold locate_one. rewrite validate_sha256_hex_norm by done.
  unfold scored_holders, idx_get. destruct (located !! h) as [ws|]; simpl.
  - case_bool_decide as E; [done|]. by rewrite app_nil_r.
  - rewrite elements_empty. simpl. done.
Qed.

Lemma locate_fold evaluated located k l : Forall (fun h => is_sha256 h = true) l -> forall resp,
  let r := fold_left (locate_one evaluated located k) l resp in
  (od_wf (lr_locations resp) -> od_wf (lr_locations r)) /\
  (forall h, h ∈ lr_unresolved_hashes r <->
     h ∈ lr_unresolved_hashes resp \/ (h ∈ l /\ scored_holders evaluated located h = [])) /\
  (forall h, h ∈ l -> od_get h (lr_locations r) =
     Some (if bool_decide (scored_holders evaluated located h = []) then [] else sources_of evaluated k (idx_get h located))) /\
  (forall h, h ∉ l -> od_get h (lr_locations r) = od_get h (lr_locations resp)).
Proof.
  induction l as [|x l IH]; intros Hf resp; simpl.
  { split_and!; [done| |by intros h ?%elem_of_nil|done].
    intros h. split; [by left|]. intros [|[?%elem_of_nil _]]; done. }
  apply Forall_cons in Hf as [Hx Hf]. rewrite locate_one_valid by done.
  match goal with |- context [fold_left _ l ?r0] => specialize (IH Hf r0); set (r1 := r0) in * end.
  cbv zeta in IH. destruct IH as (A1 & A2 & A3 & A4). split_and!.
  - intros Hw. apply A1. subst r1. simpl. by apply od_set_wf.
  - intros h. rewrite A2. subst r1. simpl. rewrite elem_of_app, elem_of_cons.
    case_bool_decide as E; [rewrite list_elem_of_singleton|rewrite elem_of_nil]; [naive_solver|].
    split; [naive_solver|]. intros [|[[->|] ?]]; [auto|done|auto].
  - intros h [->|Hh]%elem_of_cons; [|by apply A3].
    destruct (decide (x ∈ l)) as [Hin|Hin]; [by apply A3|]. rewrite A4 by done. subst r1. simpl. by rewrite od_get_set_eq.
  - intros h Hh. apply not_elem_of_cons in Hh as [Hne Hh]. rewrite A4 by done. subst r1. simpl. by rewrite od_get_set_ne.
Qed.

(** A worker that may serve [h] for this request. *)
Definition serves reg (req : locate_request) (h wid : string) (w : worker_info) : Prop :=
  get_worker reg wid = Some w /\ h ∈ wi_inventory_hashes w /\ admitted req wid w = true.

Section one_request.
Context reg (p : prioritizer) (req : locate_request) (host : option string).
Context (ev : odict (float * candidate_source)).
Hypothesis Hwf : wk_wf reg.
Hypothesis Hev : evaluated_candidates p (requester_ip reg req host) req (wk_workers reg) = Ok ev.
Let located := locate_hashes (lq_missing_hashes req) reg.

Lemma scored_holders_elem h e : h ∈ lq_missing_hashes req -> is_sha256 h = true ->
  e ∈ scored_holders ev located h <->
  exists wid w, serves reg req h wid w /\ evaluate_candidate p (requester_ip reg req host) w = Ok e.
Proof using All.
  intros Hin Hn. unfold scored_holders. rewrite list_elem_of_omap. setoid_rewrite elem_of_elements.
  assert (idx_get h located = holders_of reg h) as ->.
  { unfold idx_get, holders_of, idx_get. subst located. by rewrite locate_hashes_get. }
  setoid_rewrite (wf_index _ Hwf). split.
  - intros (wid & Hh & He). apply (evaluated_candidates_get _ _ _ _ _ _ (wf_workers _ Hwf) Hev) in He as (w & Hw & Ha & He).
    exists wid, w. split; [|done]. split_and!; [done| |done]. by rewrite (wf_inventory _ Hwf wid w Hw).
  - intros (wid & w & (Hw & Hi & Ha) & He). exists wid. split; [by rewrite <- (wf_inventory _ Hwf wid w Hw)|].
    apply (evaluated_candidates_get _ _ _ _ _ _ (wf_workers _ Hwf) Hev). by exists w.
Qed.

Lemma evaluated_all wid w : get_worker reg wid = Some w -> admitted req wid w = true ->
  exists e, evaluate_candidate p (requester_ip reg req host) w = Ok e.
Proof using All.
  clear located. revert Hev. unfold get_worker. generalize (wk_workers reg). intros l. revert ev.
  induction l as [|[k w0] l IH]; simpl; intros ev0; [done|].
  destruct (admitted req k w0) eqn:Ea.
  - intros (e0 & He0 & (rest & Hr & _)%res_bind_ok)%res_bind_ok.
    destruct (String.eqb_spec wid k) as [->|]; [intros [= <-] _; by exists e0|by apply (IH rest)].
  - intros Hr. destruct (String.eqb_spec wid k) as [->|]; [intros [= <-]; congruence|by apply (IH ev0)].
Qed.
End one_request.

(** Asset location is exact.  Every digest asked about is answered; it is
    reported unresolved, with no source, exactly when no admitted worker
    advertises it (the requester, OFFLINE workers and, on request, degraded
    ones are not admitted); otherwise its sources are the first
    [max_candidates_per_asset] of the scored holders, best score first. *)
Theorem locate_assets_exact reg p req host resp h :
  wk_wf reg -> 0 < lq_max_candidates_per_asset req ->
  Forall (fun x => is_sha256 x = true) (lq_missing_hashes req) ->
  locate_assets_sync reg p req host = Ok resp -> h ∈ lq_missing_hashes req ->
  exists full,
    (forall e, e ∈ full <-> exists wid w, serves reg req h wid w /\ evaluate_candidate p (requester_ip reg req host) w = Ok e) /\
    ((forall e, e ∈ full -> notnan (fst e)) -> StronglySorted (fun a b => fle (fst b) (fst a) = true) full) /\
    od_get h (lr_locations resp) = Some (map snd (take (Z.to_nat (lq_max_candidates_per_asset req)) full)) /\
    (h ∈ lr_unresolved_hashes resp <-> forall wid w, ~ serves reg req h wid w).
Proof.
  intros Hwf Hmax Hf. unfold locate_assets_sync. intros (ev & Hev & [= <-])%res_bind_ok Hh.
  assert (is_sha256 h = true) as Hn by (by eapply Forall_forall in Hf).
  set (located := locate_hashes _ reg).
  pose proof (locate_fold ev located (lq_max_candidates_per_asset req) _ Hf {| lr_locations := []; lr_unresolved_hashes := [] |})
    as (_ & A2 & A3 & _). cbv zeta in *.
  pose proof (scored_holders_elem reg p req host ev Hwf Hev h) as Hs. fold located in Hs.
  exists (isort by_score (scored_holders ev located h)). split_and!.
  - intros e. rewrite isort_elem. by apply Hs.
  - intros Hnn. apply (isort_desc_sorted fst). intros e He. apply Hnn. by apply isort_elem.
  - rewrite A3 by done. f_equal. case_bool_decide as E.
    + rewrite E. simpl. by destruct (Z.to_nat _).
    + unfold sources_of. fold (scored_holders ev located h). by rewrite (proj2 (Z.ltb_lt _ _) Hmax).
  - rewrite A2. simpl. rewrite elem_of_nil. split.
    + intros [[]|[_ Hnil]] wid w Hw. destruct Hw as (Hw & Hi & Ha).
      destruct (evaluated_all reg p req host ev Hwf Hev wid w Hw Ha) as [e He].
      assert (e ∈ scored_holders ev located h) as Hin by (apply Hs; [done|done|by exists wid, w]).
      rewrite Hnil in Hin. by apply elem_of_nil in Hin.
    + intros Hno. right. split; [done|]. destruct (scored_holders ev located h) as [|e l] eqn:E; [done|]. exfalso.
      destruct (proj1 (Hs e Hh Hn)) as (wid & w & Hw & _); [apply elem_of_cons; by left|]. by apply (Hno wid w).
Qed.
End location.

(** What the coordinator promises to the synchronising worker. *)
Section contract.
Context {SW : Type} `{RecordStore SW worker_info}.

Definition locate_request_for (requester : string) (ip : option string) (max_candidates : Z) (include_degraded : bool)
    (hashes : list string) : locate_request :=
  {| lq_requester_worker_id := requester; lq_missing_hashes := hashes; lq_requester_ip := ip;
     lq_max_candidates_per_asset := max_candidates; lq_include_degraded := include_degraded |}.

Definition coordinator_locate (reg : workers SW) (p : prioritizer) (requester : string) (ip : option string)
    (max_candidates : Z) (include_degraded : bool) (host : option string) (hashes : list string) : res locate_response :=
  locate_assets_sync reg p (locate_request_for requester ip max_candidates include_degraded hashes) host.

Lemma sources_nonempty ev located k h : 0 < k -> scored_holders ev located h <> [] ->
  sources_of ev k (idx_get h located) <> [].
Proof.
  intros Hk Hne. unfold sources_of. fold (scored_holders ev located h). rewrite (proj2 (Z.ltb_lt _ _) Hk).
  pose proof (isort_length by_score (scored_holders ev located h)) as Hl.
  destruct (isort by_score (scored_holders ev located h)) as [|e l]; [by destruct (scored_holders ev located h)|].
  destruct (Z.to_nat k) eqn:E; [lia|done].
Qed.

(** The answers never depend on the digests being normalised twice, so the
    contract is stated for digests as [LocateAssetsRequest] passes them. *)
Lemma coordinator_locate_covers reg p requester ip k incl host : 0 < k ->
  forall hashes resp, Forall (fun h => is_sha256 h = true) hashes ->
  coordinator_locate reg p requester ip k incl host hashes = Ok resp -> forall h, h ∈ hashes ->
  (exists cands, od_get h (lr_locations resp) = Some cands /\ cands <> []) \/ h ∈ lr_unresolved_hashes resp.
Proof.
  intros Hk hashes resp Hf (ev & Hev & [= <-])%res_bind_ok h Hh. simpl in *.
  destruct (locate_fold ev (locate_hashes hashes reg) k hashes Hf {| lr_locations := []; lr_unresolved_hashes := [] |})
    as (_ & A2 & A3 & _). cbv zeta in *.
  destruct (decide (scored_holders ev (locate_hashes hashes reg) h = [])) as [E|E].
  - right. apply A2. by right.
  - left. eexists. rewrite A3 by done. rewrite bool_decide_false by done. split; [done|]. by apply sources_nonempty.
Qed.

Lemma locate_one_wf ev located k resp raw : od_wf (lr_locations resp) -> od_wf (lr_locations (locate_one ev located k resp raw)).
Proof. intros Hw. unfold locate_one. repeat case_match; simpl; by apply od_set_wf. Qed.

#[export] Instance coordinator_contract reg p requester ip k incl host (Hk : 0 < k) :
  LocateContract (coordinator_locate reg p requester ip k incl host).
Proof.
  split; [by apply coordinator_locate_covers|].
  intros hashes resp (ev & _ & [= <-])%res_bind_ok. simpl.
  assert (od_wf (lr_locations {| lr_locations := []; lr_unresolved_hashes := [] |})) as Hw by apply od_wf_nil.
  revert Hw. generalize {| lr_locations := []; lr_unresolved_hashes := [] |}. generalize (locate_hashes hashes reg).
  intros located r0. revert r0. induction hashes as [|x l IH]; intros r0 Hw; simpl; [done|]. by apply IH, locate_one_wf.
Qed.
End contract.

(** ** The health loop *)

Section health.
Context {SW SA : Type} `{RecordStore SW worker_info} `{RecordStore SA attempt_record}.
Implicit Types s : service SW SA.

(** The only moves of the loop, and when it makes them. *)
Definition health_move s (t : worker_temporal_state) (from to : worker_status) : Prop :=
  (from = WS_ACTIVE /\ to = WS_DRAINING /\
     fst (infer_worker_behavior (health_features t)) <> MW_STABLE /\
     list_running_attempts_for_worker (sv_attempts s) (wt_worker_id t) = [] /\
     fgt (ema_value (wt_failure_rate_ema t)) (flit 5 1) = true) \/
  (from = WS_DRAINING /\ to = WS_ACTIVE /\ fst (infer_worker_behavior (health_features t)) = MW_STABLE).

Lemma health_verdict_move s t w st : health_verdict (sv_attempts s) t w = Some st -> health_move s t (wi_status w) st.
Proof.
  unfold health_verdict, health_move. case_bool_decide as Hr.
  - destruct (bool_decide (wi_status w = WS_ACTIVE)) eqn:E1; [|done].
    destruct (bool_decide (list_running_attempts_for_worker _ _ = [])) eqn:E2; [|done].
    simpl andb. cbn [wf_recent_failure_rate health_features]. destruct (fgt _ _) eqn:E3; [|done]. intros [= <-].
    apply bool_decide_eq_true in E1, E2. left. split_and!; [done|done| |done|done].
    intros Hs. rewrite Hs in Hr. destruct Hr as [|[|]]; done.
  - case_bool_decide as Hs; [|done]. case_bool_decide as Hd; [|done]. intros [= <-]. right. done.
Qed.

Lemma set_status_get wid st (reg : workers SW) w' wid' :
  get_worker (fst (set_worker_status wid st reg)) wid' = Some w' ->
  exists w, get_worker reg wid' = Some w /\ wi_status w' = (if String.eqb wid' wid then st else wi_status w).
Proof.
  unfold set_worker_status. destruct (get_worker reg wid) as [w|] eqn:E; simpl.
  - case_bool_decide as Hs; simpl.
    + intros Hw. exists w'. split; [done|]. destruct (String.eqb_spec wid' wid) as [->|]; [|done].
      rewrite E in Hw. by injection Hw as <-.
    + rewrite (same_get _ _ _ (persist_worker_same wid true (set_worker wid (wi_set_status st w) reg))).
      unfold get_worker, set_worker. simpl. rewrite od_get_set.
      destruct (String.eqb_spec wid' wid) as [->|]; [intros [= <-]; by exists w|intros Hw; by exists w'].
  - intros Hw. exists w'. split; [done|]. destruct (String.eqb_spec wid' wid) as [->|]; [congruence|done].
Qed.

Lemma set_status_keeps wid st (reg : workers SW) wid' :
  is_Some (get_worker (fst (set_worker_status wid st reg)) wid') <-> is_Some (get_worker reg wid').
Proof.
  unfold set_worker_status. destruct (get_worker reg wid) as [w|] eqn:E; simpl; [|done].
  case_bool_decide as Hs; simpl; [done|].
  rewrite (same_get _ _ _ (persist_worker_same wid true (set_worker wid (wi_set_status st w) reg))).
  unfold get_worker, set_worker in *. simpl. rewrite od_get_set.
  destruct (String.eqb_spec wid' wid) as [->|]; [|done]. by rewrite E.
Qed.

(** One turn of the health loop, even one cut short by a failing write,
    neither adds nor removes a worker and moves one only from ACTIVE to
    DRAINING (an idle worker whose behaviour is not stable and that fails more
    than half the time) or from DRAINING back to ACTIVE (once stable): an
    OFFLINE, UNHEALTHY or DEGRADED worker keeps its status.  Every drain it
    starts is of a worker it has just moved. *)
Theorem health_pass_moves l s s' drained r :
  NoDup (map wt_worker_id l) -> health_pass l s = (s', drained, r) ->
  (forall wid, is_Some (get_worker (sv_workers s') wid) <-> is_Some (get_worker (sv_workers s) wid)) /\
  (forall wid w w', get_worker (sv_workers s) wid = Some w -> get_worker (sv_workers s') wid = Some w' ->
     wi_status w' = wi_status w \/
     exists t, t ∈ l /\ wt_worker_id t = wid /\ health_move s t (wi_status w) (wi_status w')) /\
  (forall wid, wid ∈ drained -> exists w', get_worker (sv_workers s') wid = Some w' /\ wi_status w' = WS_DRAINING).
Proof.
  revert s s' drained r. induction l as [|t l IH]; intros s s' drained r; simpl.
  { intros _ [= <- <- <-]. split_and!; [done|intros wid w w' Hw Hw'; left; congruence|by intros wid ?%elem_of_nil]. }
  intros [Hnew Hnd]%NoDup_cons.
  destruct (w ← get_worker (sv_workers s) (wt_worker_id t); health_verdict (sv_attempts s) t w) as [st|] eqn:Ev.
  2:{ intros E. destruct (IH _ _ _ _ Hnd E) as (A1 & A2 & A3). split_and!; [done| |done].
      intros wid w w' Hw Hw'. destruct (A2 wid w w' Hw Hw') as [|(t' & Ht & H1)]; [by left|].
      right. exists t'. split; [apply elem_of_cons; by right|done]. }
  apply bind_Some in Ev as (w0 & Hw0 & Ev). apply health_verdict_move in Ev.
  pose proof (set_status_get (wt_worker_id t) st (sv_workers s)) as Hget.
  pose proof (set_status_keeps (wt_worker_id t) st (sv_workers s)) as Hkeep.
  destruct (set_worker_status (wt_worker_id t) st (sv_workers s)) as [ws [b|e]]; simpl in Hget, Hkeep.
  2:{ intros [= <- <- <-]. split_and!; [done| |by intros wid ?%elem_of_nil]. intros wid w w' Hw Hw'. simpl in Hw'.
      destruct (Hget _ _ Hw') as (w1 & Hw1 & Hst). rewrite Hw in Hw1. injection Hw1 as <-.
      destruct (String.eqb_spec wid (wt_worker_id t)) as [->|]; [|by left]. rewrite Hw in Hw0. injection Hw0 as ->.
      right. exists t. rewrite Hst. split_and!; [apply elem_of_cons; by left|done|done]. }
  destruct (health_pass l (set_sv_workers ws s)) as [[s1 d1] r1] eqn:E1. intros [= <- <- <-].
  destruct (IH _ _ _ _ Hnd E1) as (A1 & A2 & A3). simpl in A1, A2. split_and!.
  - intros wid. by rewrite A1.
  - intros wid w w' Hw Hw'.
    assert (is_Some (get_worker ws wid)) as [w1 Hw1] by (apply Hkeep; by rewrite Hw).
    destruct (Hget _ _ Hw1) as (w2 & Hw2 & Hst). rewrite Hw in Hw2. injection Hw2 as <-.
    destruct (A2 _ _ _ Hw1 Hw') as [Heq|(t' & Ht & Hid & Hm)].
    + destruct (String.eqb_spec wid (wt_worker_id t)) as [->|]; [|left; congruence].
      rewrite Hw in Hw0. injection Hw0 as ->. right. exists t. rewrite Heq, Hst.
      split_and!; [apply elem_of_cons; by left|done|done].
    + assert (wid <> wt_worker_id t) as Hne.
      { intros ->. apply Hnew. rewrite <- Hid. by apply list_elem_of_fmap_2. }
      rewrite (proj2 (String.eqb_neq _ _) Hne) in Hst. right. exists t'. rewrite <- Hst.
      split_and!; [apply elem_of_cons; by right|done|done].
  - intros wid Hd. assert (wid = wt_worker_id t /\ st = WS_DRAINING \/ wid ∈ d1) as [[-> ->]|Hin]; [|clear Hd|by apply A3].
    { case_bool_decide as Es; [|by right]. apply elem_of_cons in Hd as [->|]; [by left|by right]. }
    assert (is_Some (get_worker ws (wt_worker_id t))) as [w1 Hw1] by (apply Hkeep; by rewrite Hw0).
    destruct (Hget _ _ Hw1) as (w2 & Hw2 & Hst). rewrite String.eqb_refl in Hst.
    assert (is_Some (get_worker (sv_workers s1) (wt_worker_id t))) as [w' Hw'] by (apply A1; by rewrite Hw1).
    exists w'. split; [done|]. destruct (A2 _ _ _ Hw1 Hw') as [Heq|(t' & Ht & Hid & _)]; [congruence|].
    exfalso. apply Hnew. rewrite <- Hid. by apply list_elem_of_fmap_2.
Qed.
End health.

(** ** Concrete runs *)

Definition sample_request : locate_request := locate_request_for "n1" None 5 true [digest_b].

Lemma locate_witness :
  exists resp, locate_assets_sync witness_workers sample_prioritizer sample_request None = Ok resp /\
    exists full : list (float * candidate_source), od_get digest_b (lr_locations resp) = Some (map snd (take 5 full)) /\ full <> [].
Proof.
  destruct (locate_assets_sync witness_workers sample_prioritizer sample_request None) as [resp|e] eqn:E.
  2:{ exfalso. assert (is_ok (locate_assets_sync witness_workers sample_prioritizer sample_request None) = true) as Hr
        by (vm_compute; reflexivity). rewrite E in Hr. discriminate Hr. }
  exists resp. split; [reflexivity|].
  assert (Forall (fun x => is_sha256 x = true) (lq_missing_hashes sample_request)) as Hf
    by (repeat constructor; vm_compute; reflexivity).
  destruct (locate_assets_exact witness_workers sample_prioritizer sample_request None resp digest_b witness_workers_wf
              ltac:(reflexivity) Hf E ltac:(left)) as (full & _ & _ & Hget & _).
  exists full. split; [exact Hget|]. intros ->. simpl in Hget.
  assert (match locate_assets_sync witness_workers sample_prioritizer sample_request None with
          | Ok r => match od_get digest_b (lr_locations r) with Some (_ :: _) => true | _ => false end
          | Err _ => false end = true) as Hr by (vm_compute; reflexivity).
  rewrite E, Hget in Hr. discriminate Hr.
Defined.

(** A worker that fails every time, and one that recovered while it drained. *)
Definition sample_state (wid : string) (failure_rate : float) : worker_temporal_state :=
  {| wt_worker_id := wid; wt_cpu_utilization_ema := {| ema_value := f1; ema_alpha := f1; ema_initialized := true |};
     wt_ram_utilization_ema := {| ema_value := f1; ema_alpha := f1; ema_initialized := true |};
     wt_latency_ema := new_ema f1;
     wt_failure_rate_ema := {| ema_value := failure_rate; ema_alpha := f1; ema_initialized := true |};
     wt_last_updated_utc := f0 |}.

Definition sample_service : service (mem_store worker_info) (mem_store attempt_record) :=
  {| sv_workers := fst (set_worker_status "n2" WS_DRAINING witness_workers); sv_attempts := empty_attempts None;
     sv_credentials := new_credential_store [] None (Some "join"%string) None; sv_guard := new_replay_guard (f_of_Z 300);
     sv_memory := empty_memory; sv_prioritizer := sample_prioritizer |}.

Lemma health_pass_witness :
  exists s', health_pass [sample_state "n1" f1; sample_state "n2" f0] sample_service = (s', ["n1"%string], Ok tt) /\
    exists w, get_worker (sv_workers s') "n1" = Some w /\ wi_status w = WS_DRAINING.
Proof.
  destruct (health_pass [sample_state "n1" f1; sample_state "n2" f0] sample_service) as [[s' d] r] eqn:E.
  assert (NoDup (map wt_worker_id [sample_state "n1" f1; sample_state "n2" f0])) as Hnd.
  { simpl. apply NoDup_cons. split; [|apply NoDup_singleton]. intros H%list_elem_of_singleton. discriminate H. }
  destruct (health_pass_moves _ _ _ _ _ Hnd E) as (_ & _ & H3).
  assert ((health_pass [sample_state "n1" f1; sample_state "n2" f0] sample_service).1.2 = ["n1"%string] /\
          (health_pass [sample_state "n1" f1; sample_state "n2" f0] sample_service).2 = Ok tt) as [Hd Hr]
    by (split; vm_compute; reflexivity).
  rewrite E in Hd, Hr. cbn [fst snd] in Hd, Hr. rewrite Hd, Hr. exists s'. split; [reflexivity|].
  apply H3. rewrite Hd. apply list_elem_of_singleton. reflexivity.
Defined.

Definition sample_registration (wid : string) (cost : float) : registration_payload :=
  {| pl_worker_id := wid; pl_endpoint_url := "http://10.0.0.1:8000"; pl_ip_address := "10.0.0.1"; pl_port := 8000;
     pl_hostname := None; pl_capacity_bytes := 0; pl_used_bytes := 0; pl_resource_profile := None;
     pl_capabilities := plain_capabilities; pl_inventory_hashes := ∅; pl_tags := []; pl_cost_per_hour := cost;
     pl_can_execute_workloads := true |}.

Definition registered_sample (wid : string) (cost : float) : service (mem_store worker_info) (mem_store attempt_record) :=
  fst (register_worker_sync f1 "tok" (sample_registration wid cost) sample_service).

(** A registered worker's credential opens its heartbeat, and another's does not. *)
Example heartbeat_after_registration :
  let s := registered_sample "n9" f0 in
  res_map hr_status (snd (heartbeat_route f1 "n9" (Some "Bearer tok"%string) None s)) = Ok "healthy"%string /\
  snd (heartbeat_route f1 "n1" (Some "Bearer tok"%string) None s) = Err (HTTPException 401 "Invalid or missing worker credential").
Proof. split; vm_compute; reflexivity. Qed.

(** The cost a worker registers with is dropped. *)
Example registered_cost_dropped :
  option_map wi_cost_per_hour (get_worker (sv_workers (registered_sample "n9" (f_of_Z 3))) "n9") = Some f0.
Proof. vm_compute. reflexivity. Qed.

(** A worker id with spaces around it is filed without them, its credential is
    not: its heartbeats are told to register again for ever. *)
Example padded_id_never_heard :
  res_map hr_re_register_required
    (snd (heartbeat_route f1 " n9" (Some "Bearer tok"%string) None (registered_sample " n9" f0))) = Ok true.
Proof. vm_compute. reflexivity. Qed.

(** An evicted worker keeps a valid credential and is told to register again. *)
Example evicted_is_told :
  let '(s, _, _) := eviction_pass default_config no_exp f1 (f_of_Z 15) (f_of_Z 30) (f_of_Z 1000) f0 (registered_sample "n9" f0) in
  get_worker (sv_workers s) "n9" = None /\
  res_map hr_re_register_required (snd (heartbeat_route (f_of_Z 1000) "n9" (Some "Bearer tok"%string) None s)) = Ok true.
Proof. vm_compute. split; reflexivity. Qed.

Example page_ok : pg_items (paginate 1 2 [10; 20; 30; 40]) = [20; 30] /\ pg_has_more (paginate 1 2 [10; 20; 30; 40]) = true.
Proof. split; reflexivity. Qed.
(** A negative offset that reaches zero gives an empty page. *)
Example page_negative : pg_items (paginate (-2) 2 [10; 20; 30; 40]) = [] /\ pg_has_more (paginate (-2) 2 [10; 20; 30; 40]) = true.
Proof. split; reflexivity. Qed.
