(* ===== verification/Membership.v ===== *)
(** * A worker and its coordinator ([distributed/worker.py], [client.py], [coordinator.py])

    Registration and heartbeats between [DistributedWorker] and the routes of
    the coordinator: the worker reports the changes of its inventory since the
    last answer it received, the coordinator applies them.  A request or its
    answer may be lost ([delivery]).  What the worker measures for one call is a
    [snapshot]; JSON encoding and the timeouts of the HTTP client are left out. *)
From S2P Require Export Coordinator.

Inductive delivery := Delivered | RequestLost | ReplyLost.

Record snapshot := {
  sn_now : float;
  sn_inventory : gset string;
  sn_total_bytes : Z;
  sn_profile : worker_resource_profile;
}.

(** What the worker remembers: [_last_reported_inventory], the client's
    [_worker_credential], [_last_heartbeat_ack_utc], [node_metrics]. *)
Record member := {
  mb_reported : gset string;
  mb_credential : option string;
  mb_ack : float;
  mb_metrics : worker_metrics;
}.

Definition with_metrics (m : worker_metrics) (mb : member) : member :=
  {| mb_reported := mb_reported mb; mb_credential := mb_credential mb; mb_ack := mb_ack mb; mb_metrics := m |}.
Definition with_ack (now : float) (mb : member) : member :=
  {| mb_reported := mb_reported mb; mb_credential := mb_credential mb; mb_ack := now; mb_metrics := mb_metrics mb |}.
Definition with_reported (inv : gset string) (mb : member) : member :=
  {| mb_reported := inv; mb_credential := mb_credential mb; mb_ack := mb_ack mb; mb_metrics := mb_metrics mb |}.
Definition with_credential (c : string) (mb : member) : member :=
  {| mb_reported := mb_reported mb; mb_credential := if str_truthy c then Some c else mb_credential mb;
     mb_ack := mb_ack mb; mb_metrics := mb_metrics mb |}.

(** [_auth_headers] *)
Definition _auth_headers (token : option string) : option string :=
  t ← token_truthy token; Some ("Bearer " +:+ t).

(** The answer of a request that was delivered; the effect is the route's. *)
Definition over_network {A S} (d : delivery) (s : S) (k : S * res A) : S * res A :=
  match d with
  | RequestLost => (s, Err (RuntimeError "request"))
  | Delivered => k
  | ReplyLost => (fst k, Err (RuntimeError "reply"))
  end.

Section membership.
Context {SW SA : Type} `{RecordStore SW worker_info} `{RecordDelete SW} `{RecordStore SA attempt_record}.
Context (worker_id endpoint_url ip_address : string) (port capacity_bytes : Z) (capabilities : worker_capabilities).
Context (tags : odict string) (can_execute_workloads : bool) (bootstrap_secret : option string).
#[local] Abbreviation service := (service SW SA).

(** [100.0 * (total - available) / total] *)
Definition ram_percent (p : worker_resource_profile) : float :=
  if 0 <? rp_ram_total_bytes p then
    fdiv (fmul (f_of_Z 100) (f_of_Z (rp_ram_total_bytes p - rp_ram_available_bytes p))) (f_of_Z (rp_ram_total_bytes p))
  else f0.

Definition wm_measured (p : worker_resource_profile) (m : worker_metrics) : worker_metrics :=
  {| wm_active_transfers := wm_active_transfers m; wm_active_uploads := wm_active_uploads m;
     wm_active_downloads := wm_active_downloads m; wm_cpu_percent := rp_cpu_utilization_percent p; wm_ram_percent := ram_percent p;
     wm_used_bytes := wm_used_bytes m; wm_available_bytes := wm_available_bytes m;
     wm_total_bytes_sent := wm_total_bytes_sent m; wm_total_bytes_received := wm_total_bytes_received m;
     wm_transfer_error_count := wm_transfer_error_count m; wm_uptime_seconds := wm_uptime_seconds m |}.

Definition wm_stored (used : Z) (m : worker_metrics) : worker_metrics :=
  {| wm_active_transfers := wm_active_transfers m; wm_active_uploads := wm_active_uploads m;
     wm_active_downloads := wm_active_downloads m; wm_cpu_percent := wm_cpu_percent m; wm_ram_percent := wm_ram_percent m;
     wm_used_bytes := used; wm_available_bytes := Z.max 0 (capacity_bytes - used);
     wm_total_bytes_sent := wm_total_bytes_sent m; wm_total_bytes_received := wm_total_bytes_received m;
     wm_transfer_error_count := wm_transfer_error_count m; wm_uptime_seconds := wm_uptime_seconds m |}.

(** [get_resource_profile]: the monitor's snapshot with the worker's own
    status, which is always ACTIVE, and its inventory. *)
Definition get_resource_profile (sn : snapshot) (mb : member) : member * worker_resource_profile :=
  let p := sn_profile sn in
  (with_metrics (wm_measured p (mb_metrics mb)) mb,
   rp_overlay (rp_worker_id p) (rp_endpoint_url p) (rp_ip_address p) WS_ACTIVE (sn_inventory sn) (rp_timestamp_utc p)
     can_execute_workloads p).

Definition registration_of (sn : snapshot) (profile : worker_resource_profile) (used : Z) : registration_payload :=
  {| pl_worker_id := worker_id; pl_endpoint_url := endpoint_url; pl_ip_address := ip_address; pl_port := port;
     pl_hostname := None; pl_capacity_bytes := capacity_bytes; pl_used_bytes := used; pl_resource_profile := Some profile;
     pl_capabilities := capabilities; pl_inventory_hashes := sn_inventory sn; pl_tags := tags; pl_cost_per_hour := f0;
     pl_can_execute_workloads := can_execute_workloads |}.

(** [DistributedWorker.register]; [token] is the credential the coordinator draws. *)
Definition register (d : delivery) (now : float) (token : string) (sn : snapshot) (mb : member) (s : service)
    : member * service * res unit :=
  let '(mb, profile) := get_resource_profile sn mb in
  let payload := registration_of sn profile (wm_used_bytes (mb_metrics mb)) in
  match over_network d s (register_route now token (_auth_headers bootstrap_secret) None payload s) with
  | (s, Err e) => (mb, s, Err e)
  | (s, Ok resp) =>
      (with_reported (sn_inventory sn) (with_ack (sn_now sn) (with_credential (rr_worker_credential resp) mb)), s, Ok tt)
  end.

Definition heartbeat_of (sn : snapshot) (profile : worker_resource_profile) (mb : member) : heartbeat_payload :=
  {| hb_metrics := Some (mb_metrics mb); hb_resource_profile := Some profile;
     hb_active_transfers := wm_active_transfers (mb_metrics mb); hb_used_bytes := Some (sn_total_bytes sn);
     hb_inventory_delta_added := sn_inventory sn ∖ mb_reported mb;
     hb_inventory_delta_removed := mb_reported mb ∖ sn_inventory sn |}.

(** [DistributedWorker.send_heartbeat]; [again] are the delivery, the clock, the
    credential and the measurements of a registration that follows. *)
Definition send_heartbeat (d : delivery) (now : float) (sn : snapshot) (again : delivery * float * string * snapshot)
    (mb : member) (s : service) : member * service * res unit :=
  let mb := with_metrics (wm_stored (sn_total_bytes sn) (mb_metrics mb)) mb in
  let '(mb, profile) := get_resource_profile sn mb in
  match over_network d s (heartbeat_route now worker_id (_auth_headers (mb_credential mb)) (Some (heartbeat_of sn profile mb)) s) with
  | (s, Err e) => (mb, s, Err e)
  | (s, Ok resp) =>
      let mb := with_ack (sn_now sn) mb in
      if hr_re_register_required resp then
        let '(d', now', token, sn') := again in register d' now' token sn' mb s
      else (with_reported (sn_inventory sn) mb, s, Ok tt)
  end.

(** [stop]: the coordinator is told, whatever it answers. *)
Definition leave (d : delivery) (mb : member) (s : service) : service :=
  fst (over_network d s (unregister_route worker_id (_auth_headers (mb_credential mb)) s)).

(** ** Histories

    [Elsewhere] is whatever else the coordinator does. *)

Inductive membership_event :=
| Joins (d : delivery) (now : float) (token : string) (sn : snapshot)
| Beats (d : delivery) (now : float) (sn : snapshot) (again : delivery * float * string * snapshot)
| Elsewhere (f : service -> service).

(** The heartbeat loop swallows every exception of a beat. *)
Definition membership_step (ms : member * service) (e : membership_event) : member * service :=
  match e with
  | Joins d now token sn => fst (register d now token sn ms.1 ms.2)
  | Beats d now sn again => fst (send_heartbeat d now sn again ms.1 ms.2)
  | Elsewhere f => (ms.1, f ms.2)
  end.

Definition listed (s : service) : option (gset string) := wi_inventory_hashes <$> get_worker (sv_workers s) worker_id.

(** The coordinator's other work may drop the worker but not edit its inventory. *)
Definition keeps_listing (f : service -> service) : Prop :=
  forall s, wk_wf (sv_workers s) -> wk_wf (sv_workers (f s)) /\ (listed (f s) = None \/ listed (f s) = listed s).

Definition valid_snapshot (sn : snapshot) : Prop := forall h, h ∈ sn_inventory sn -> is_sha256 h = true.

Definition valid_event (e : membership_event) : Prop :=
  match e with
  | Joins _ _ _ sn => valid_snapshot sn
  | Beats _ _ sn (_, _, _, sn') => valid_snapshot sn /\ valid_snapshot sn'
  | Elsewhere f => keeps_listing f
  end.

(** The answer of the event, if it is one of the worker's. *)
Definition event_result (ms : member * service) (e : membership_event) : option (res unit) :=
  match e with
  | Joins d now token sn => Some (snd (register d now token sn ms.1 ms.2))
  | Beats d now sn again => Some (snd (send_heartbeat d now sn again ms.1 ms.2))
  | Elsewhere _ => None
  end.

(** A call that raises has changed nothing of the listing: no answer was lost
    after its request took effect. *)
Fixpoint no_lost_answer (ms : member * service) (es : list membership_event) : Prop :=
  match es with
  | [] => True
  | e :: es =>
      match event_result ms e with
      | Some (Err _) => listed (membership_step ms e).2 = listed ms.2
      | _ => True
      end /\ no_lost_answer (membership_step ms e) es
  end.

Definition membership_run (ms : member * service) (es : list membership_event) : member * service :=
  fold_left membership_step es ms.

Definition new_member (m : worker_metrics) : member :=
  {| mb_reported := ∅; mb_credential := None; mb_ack := f0; mb_metrics := m |}.
End membership.
