(* ===== verification/MembershipProps.v ===== *)
(** * What registration and heartbeats guarantee

    The coordinator's listing of a worker equals the worker's inventory after
    every answered call, as long as no answer is lost after its request took
    effect; two examples show what a lost answer does, and a theorem what a
    coordinator does to its workers that has lost their credentials. *)
From S2P Require Export Membership.

Section props.
Context {SW SA : Type} `{RecordStore SW worker_info} `{RecordDelete SW} `{RecordStore SA attempt_record}.
Context (worker_id endpoint_url ip_address : string) (port capacity_bytes : Z) (capabilities : worker_capabilities).
Context (tags : odict string) (can_execute_workloads : bool) (bootstrap_secret : option string).
#[local] Abbreviation service := (service SW SA).
#[local] Abbreviation register :=
  (register worker_id endpoint_url ip_address port capacity_bytes capabilities tags can_execute_workloads bootstrap_secret).
#[local] Abbreviation send_heartbeat :=
  (send_heartbeat worker_id endpoint_url ip_address port capacity_bytes capabilities tags can_execute_workloads bootstrap_secret).
#[local] Abbreviation membership_step :=
  (membership_step worker_id endpoint_url ip_address port capacity_bytes capabilities tags can_execute_workloads bootstrap_secret).
#[local] Abbreviation membership_run :=
  (membership_run worker_id endpoint_url ip_address port capacity_bytes capabilities tags can_execute_workloads bootstrap_secret).
#[local] Abbreviation event_result :=
  (event_result worker_id endpoint_url ip_address port capacity_bytes capabilities tags can_execute_workloads bootstrap_secret).
#[local] Abbreviation no_lost_answer :=
  (no_lost_answer worker_id endpoint_url ip_address port capacity_bytes capabilities tags can_execute_workloads bootstrap_secret).
#[local] Abbreviation listed := (listed (SW:=SW) (SA:=SA) worker_id).

Lemma normalize_valid (inv : gset string) :
  (forall h, h ∈ inv -> is_sha256 h = true) -> normalize_hashes (elements inv) = inv.
Proof.
  intros Hv. apply set_eq. intros h. unfold normalize_hashes. rewrite elem_of_list_to_set, list_elem_of_omap. split.
  - intros (x & Hx & Hn). apply elem_of_elements in Hx. rewrite validate_sha256_hex_norm in Hn by auto. by injection Hn as <-.
  - intros Hh. exists h. split; [by apply elem_of_elements|]. by rewrite validate_sha256_hex_norm by auto.
Qed.

Lemma register_route_spec now token auth p (s : service) s' r :
  validate_worker_id (pl_worker_id p) = Ok worker_id -> wk_wf (sv_workers s) ->
  register_route now token auth None p s = (s', r) ->
  wk_wf (sv_workers s') /\ (is_ok r = true -> listed s' = Some (normalize_hashes (elements (pl_inventory_hashes p)))).
Proof.
  intros Hid Hwf. unfold register_route, guarded. destruct (require_bootstrap _ _); [|by intros [= <- <-]]. simpl.
  unfold register_worker_sync.
  change (sv_workers (set_sv_guard (sv_guard s) s)) with (sv_workers s).
  pose proof (register_worker_spec now (registered_info now p) (sv_workers s) worker_id Hwf Hid) as (Hw & _ & _ & Hg & _).
  destruct (register_worker now (registered_info now p) (sv_workers s)) as [w [reg|e]]; simpl in *.
  - intros [= <- <-]. split; [exact Hw|]. intros _. unfold Membership.listed. simpl. rewrite Hg. by destruct (fle _ _).
  - intros [= <- <-]. split; [exact Hw|]. by destruct e.
Qed.

Lemma persist_worker_ok {B} wid (b b' : B) (reg reg' : workers SW) : persist_worker wid b reg = (reg', Ok b') -> b' = b.
Proof.
  intros E. apply (f_equal snd) in E. revert E. unfold persist_worker, persist_result.
  destruct (get_worker reg wid) as [w|]; simpl; [|congruence]. destruct (persist _ w); simpl; congruence.
Qed.

Lemma heartbeat_route_spec now auth pl (s : service) s' r :
  wk_wf (sv_workers s) -> heartbeat_route now worker_id auth (Some pl) s = (s', r) ->
  wk_wf (sv_workers s') /\
  forall resp, r = Ok resp ->
    if hr_re_register_required resp then s' = s
    else exists C, listed s = Some C /\ listed s' = Some (payload_inventory pl C).
Proof.
  intros Hwf. unfold heartbeat_route, guarded. destruct (require_worker _ _ _); [|by intros [= <- <-]]. unfold worker_heartbeat.
  destruct (get_worker (sv_workers s) worker_id) as [i|] eqn:Ei.
  2:{ rewrite bool_decide_false by (by intros [? ?]). simpl. intros [= <- <-]. split; [done|]. by intros resp [= <-]. }
  rewrite bool_decide_true by eauto. simpl.
  pose proof (record_heartbeat_spec now worker_id (Some pl) (sv_workers s) i Hwf Ei) as (Hw & _ & Hg & _).
  assert (forall w b, record_heartbeat now worker_id (Some pl) (sv_workers s) = (w, Ok b) -> b = true) as Hb.
  { intros w b. unfold record_heartbeat. rewrite Ei. apply persist_worker_ok. }
  destruct (record_heartbeat now worker_id (Some pl) (sv_workers s)) as [w [b|e]] eqn:E; simpl in Hw, Hg.
  2:{ intros [= <- <-]. by split. }
  rewrite (Hb _ _ eq_refl). intros [= <- <-]. split; [by destruct (i ← _; _)|]. intros resp [= <-]. simpl.
  exists (wi_inventory_hashes i). unfold Membership.listed. rewrite Ei. split; [done|].
  assert (forall o : option worker_resource_profile, sv_workers (match o with
      | Some p => set_sv_memory (on_worker_heartbeat now worker_id (rp_cpu_utilization_percent p) (rp_ram_total_bytes p)
                    (rp_ram_available_bytes p) false f0 (sv_memory (set_sv_workers w s))) (set_sv_workers w s)
      | None => set_sv_workers w s end) = w) as Hs by (by intros []).
  rewrite Hs, Hg. simpl. f_equal. unfold beaten_worker, heartbeat_revive. by destruct (bool_decide _).
Qed.

(** The coordinator lists the worker, if at all, with what it last acknowledged. *)
Definition synced (ms : member * service) : Prop :=
  wk_wf (sv_workers ms.2) /\ forall C, listed ms.2 = Some C -> C = mb_reported ms.1.

Hypothesis clean_id : validate_worker_id worker_id = Ok worker_id.

Lemma over_network_cases {A S} d (s : S) (k : S * res A) s' r :
  over_network d s k = (s', r) -> (s' = s /\ exists e, r = Err e) \/ (s' = fst k /\ ((exists e, r = Err e) \/ r = snd k)).
Proof. destruct d; simpl; [destruct k| |]; intros [= <- <-]; eauto. Qed.

Lemma register_sound d now token sn mb (s : service) :
  valid_snapshot sn -> wk_wf (sv_workers s) ->
  let '(mb', s', r) := register d now token sn mb s in
  wk_wf (sv_workers s') /\
  match r with
  | Ok _ => listed s' = Some (sn_inventory sn) /\ mb_reported mb' = sn_inventory sn
  | Err _ => mb_reported mb' = mb_reported mb
  end.
Proof.
  intros Hv Hwf. unfold Membership.register. simpl. set (p := registration_of _ _ _ _ _ _ _ _ _ _ _).
  destruct (register_route now token (_auth_headers bootstrap_secret) None p s) as [s1 r1] eqn:E.
  pose proof (register_route_spec _ _ _ p _ _ _ clean_id Hwf E) as [Hw Hl].
  destruct (over_network d s (s1, r1)) as [s' [resp|e]] eqn:En; apply over_network_cases in En;
    destruct En as [[-> [? ?]]|[-> [[? ?]|Hr]]]; try done. simpl in *. subst r1.
  split; [done|]. split; [|done]. rewrite Hl by done. f_equal. by apply normalize_valid.
Qed.

Lemma payload_converges (inv rep : gset string) pl :
  (forall h, h ∈ inv -> is_sha256 h = true) -> (forall h, h ∈ rep -> is_sha256 h = true) ->
  hb_inventory_delta_added pl = inv ∖ rep -> hb_inventory_delta_removed pl = rep ∖ inv -> payload_inventory pl rep = inv.
Proof.
  intros Hi Hr Ha Hd. unfold payload_inventory. rewrite Ha, Hd, !normalize_valid by set_solver.
  apply set_eq. intros h. destruct (decide (h ∈ inv)), (decide (h ∈ rep)); set_solver.
Qed.

Lemma heartbeat_sound d now sn again mb (s : service) :
  valid_snapshot sn -> valid_snapshot again.2 -> synced (mb, s) ->
  let '(mb', s', r) := send_heartbeat d now sn again mb s in
  wk_wf (sv_workers s') /\
  match r with
  | Ok _ => listed s' = Some (mb_reported mb') /\ (mb_reported mb' = sn_inventory sn \/ mb_reported mb' = sn_inventory again.2)
  | Err _ => mb_reported mb' = mb_reported mb
  end.
Proof.
  intros Hv Hv' [Hwf Hs]. simpl in Hs. unfold Membership.send_heartbeat. cbn [get_resource_profile].
  set (mb1 := with_metrics (wm_measured _ _) _). set (pl := heartbeat_of sn _ mb1).
  destruct (heartbeat_route now worker_id (_auth_headers (mb_credential mb1)) (Some pl) s) as [s1 r1] eqn:E.
  apply heartbeat_route_spec in E as [Hw Hr1]; [|done].
  destruct (over_network d s (s1, r1)) as [s' [resp|e]] eqn:En; apply over_network_cases in En;
    destruct En as [[-> [? ?]]|[-> [[? ?]|Hr]]]; try done. simpl in Hr. specialize (Hr1 resp (eq_sym Hr)). simpl.
  destruct (hr_re_register_required resp).
  - subst s1. destruct again as [[[d' now'] token] sn']. simpl in *.
    pose proof (register_sound d' now' token sn' (with_ack (sn_now sn) mb1) s Hv' Hwf) as Hreg.
    destruct (register d' now' token sn' _ s) as [[mb2 s2] r2]. destruct Hreg as [Hw2 Hreg]. split; [done|].
    destruct r2; [|done]. destruct Hreg as [-> ->]. auto.
  - destruct Hr1 as (C & HC & HC'). split; [done|]. simpl. rewrite HC'. split; [|by left]. f_equal.
    pose proof (Hs _ HC) as ->. apply payload_converges; [done| |done|done].
    intros h Hh. eapply (wf_sha _ Hwf worker_id). unfold Membership.listed in HC.
    destruct (get_worker (sv_workers s) worker_id) as [i|] eqn:Ei; [|done]. injection HC as HC.
    rewrite <- (wf_inventory _ Hwf _ _ Ei). by rewrite HC.
Qed.

Lemma step_synced ms e : valid_event worker_id e -> synced ms ->
  match event_result ms e with Some (Err _) => listed (membership_step ms e).2 = listed ms.2 | _ => True end ->
  synced (membership_step ms e).
Proof.
  intros Hv Hs Hno. destruct ms as [mb s], e as [d now token sn|d now sn again|f]; simpl in *.
  - destruct Hs as [Hwf Hs]. pose proof (register_sound d now token sn mb s Hv Hwf) as Hr.
    destruct (register d now token sn mb s) as [[mb' s'] [u|x]]; simpl in *; destruct Hr as [Hw Hr]; (split; [done|]); simpl.
    + destruct Hr as [-> ->]. by intros C [= <-].
    + rewrite Hr, Hno. apply Hs.
  - destruct again as [[[d' now'] token] sn'] eqn:Ea. destruct Hv as [Hv Hv'].
    pose proof (heartbeat_sound d now sn again mb s Hv ltac:(by subst again) Hs) as Hr. rewrite <- Ea in *.
    destruct (send_heartbeat d now sn again mb s) as [[mb' s'] [u|x]]; simpl in *; destruct Hr as [Hw Hr]; (split; [done|]); simpl.
    + destruct Hr as [-> _]. by intros C [= <-].
    + rewrite Hr, Hno. apply Hs.
  - destruct Hs as [Hwf Hs]. destruct (Hv s Hwf) as [Hw [Hl|Hl]]; (split; [done|]); simpl; rewrite Hl; [done|apply Hs].
Qed.

Lemma run_synced es : forall ms, synced ms -> Forall (valid_event worker_id) es -> no_lost_answer ms es ->
  synced (membership_run ms es).
Proof.
  induction es as [|e es IH]; intros ms Hs Hv Hno; simpl; [done|]. apply Forall_cons in Hv as [He Hv]. destruct Hno as [Hn Hno].
  apply IH; [by apply step_synced|done|done].
Qed.


(** ** A coordinator that has lost its credentials *)

Lemma unknown_credential now auth pl (s : service) :
  cs_insecure_mode (sv_credentials s) = false -> cs_worker_credential_hashes (sv_credentials s) !! worker_id = None ->
  heartbeat_route now worker_id auth pl s = (s, Err (HTTPException 401 "Invalid or missing worker credential")).
Proof.
  intros Hi Hc. unfold heartbeat_route, require_worker. rewrite Hi. unfold verify_worker_credential. rewrite Hc.
  by destruct (token_truthy _).
Qed.

(** A secure coordinator that has no credential of a worker, as after a restart,
    refuses every heartbeat of it: the loop never registers again, so however
    often it beats, the coordinator's state stays as it is. *)
Theorem lost_credentials_lock_out beats mb (s : service) :
  cs_insecure_mode (sv_credentials s) = false -> cs_worker_credential_hashes (sv_credentials s) !! worker_id = None ->
  (forall e, e ∈ beats -> match e with Beats _ _ _ _ => True | _ => False end) ->
  (membership_run (mb, s) beats).2 = s /\
  forall d now sn again, exists x, (send_heartbeat d now sn again (membership_run (mb, s) beats).1 s).2 = Err x.
Proof.
  intros Hi Hc. revert mb.
  assert (forall d now sn again mb, exists mb' x, send_heartbeat d now sn again mb s = (mb', s, Err x)) as Hstep.
  { intros d now sn again mb. unfold Membership.send_heartbeat. cbn [get_resource_profile].
    rewrite unknown_credential by done. destruct d; simpl; eauto. }
  induction beats as [|e beats IH]; intros mb Hb; simpl.
  { split; [done|]. intros d now sn again. destruct (Hstep d now sn again mb) as (mb' & x & ->). eauto. }
  pose proof (Hb e ltac:(apply elem_of_cons; by left)) as He. destruct e as [|d now sn again|]; [done| |done].
  simpl. destruct (Hstep d now sn again mb) as (mb' & x & E). simpl in E. rewrite E. simpl.
  apply IH. intros e' He'. apply Hb, elem_of_cons. by right.
Qed.
End props.

(** ** Concrete memberships *)

Definition digest_x : string := Eval vm_compute in sha256 "x".
Definition digest_y : string := Eval vm_compute in sha256 "y".

Definition measuring (inv : gset string) : snapshot :=
  {| sn_now := f1; sn_inventory := inv; sn_total_bytes := 1; sn_profile := plain_profile "n9" 4 1000 inv |}.

Definition blank_metrics : worker_metrics :=
  {| wm_active_transfers := 0; wm_active_uploads := 0; wm_active_downloads := 0; wm_cpu_percent := f0; wm_ram_percent := f0;
     wm_used_bytes := 0; wm_available_bytes := 0; wm_total_bytes_sent := 0; wm_total_bytes_received := 0;
     wm_transfer_error_count := 0; wm_uptime_seconds := f0 |}.

Definition sample_run (es : list (membership_event (SW:=mem_store worker_info) (SA:=mem_store attempt_record)))
    : member * service (mem_store worker_info) (mem_store attempt_record) :=
  membership_run "n9" "http://10.0.0.9:8000" "10.0.0.9" 8000 1000 plain_capabilities [] true (Some "join"%string)
    (new_member blank_metrics, sample_service) es.

Definition no_rejoin : delivery * float * string * snapshot := (RequestLost, f1, ""%string, measuring ∅).
Definition joins (inv : gset string) : membership_event (SW:=mem_store worker_info) (SA:=mem_store attempt_record) :=
  Joins Delivered f1 "tok" (measuring inv).
Definition beats (d : delivery) (inv : gset string) : membership_event (SW:=mem_store worker_info) (SA:=mem_store attempt_record) :=
  Beats d f1 (measuring inv) no_rejoin.

Lemma measuring_valid inv : (forall h, h ∈ inv -> is_sha256 h = true) -> valid_snapshot (measuring inv).
Proof. done. Qed.


(** A heartbeat whose answer is lost: an object deleted before the next one is
    listed for ever, and one deleted before and fetched again after it is
    missed for ever, although every later heartbeat is answered. *)
Example lost_answer_leaves_listing_wrong :
  listed "n9" (sample_run [joins ∅; beats ReplyLost {[digest_x]}; beats Delivered ∅; beats Delivered ∅]).2 = Some {[digest_x]} /\
  listed "n9" (sample_run [joins {[digest_x]}; beats ReplyLost ∅; beats Delivered {[digest_x]}; beats Delivered {[digest_x]}]).2 = Some ∅.
Proof. split; vm_compute; reflexivity. Qed.
