(* ===== verification/SceneGraph.v ===== *)
(** * The dependency graph of a scene ([adapters/blender])

    [intelligence/dependency_graph.py] builds the graph from a snapshot,
    [intelligence/integrity.py] reports dangling and unused nodes,
    [packaging/resolver.py] turns a requirement report into seeds and closes
    them over the edges, [strategies/frame_scheduler.py] prices a chunk by
    its closure.  A snapshot keeps the fields the builder reads. *)
From S2P Require Export PyStr Models.

(** ** Data *)

Record graph_node := { gn_identifier : string; gn_label : string; gn_kind : string }.
#[export] Instance graph_node_eq_dec : EqDecision graph_node.
Proof. solve_decision. Defined.

Record graph_edge := { ge_source : string; ge_target : string; ge_relationship : string }.
#[export] Instance graph_edge_eq_dec : EqDecision graph_edge.
Proof. solve_decision. Defined.

Record dependency_graph := { dg_nodes : list graph_node; dg_edges : list graph_edge }.

Record material_info := { mi_name : string; mi_image_textures : list string }.

(** [so_constraints] are the targets, [so_modifiers] the names, and
    [so_animation] is [is_animated] of an object that has an animation. *)
Record scene_object := {
  so_id : string;
  so_name : string;
  so_type : string;
  so_collection : option string;
  so_parent : option string;
  so_children : list string;
  so_constraints : list (option string);
  so_modifiers : list string;
  so_materials : list material_info;
  so_animation : option bool;
  so_referenced_assets : list string;
}.

Record collection_info := { ci_id : string; ci_name : string }.

(** The two keys of an image dictionary that are read. *)
Record image_dict := { im_name : option string; im_filepath : option string }.

Record scene_snapshot := {
  ss_name : string;
  ss_collections : list collection_info;
  ss_objects : list scene_object;
  ss_images : list image_dict;
}.

(** ** [DependencyGraph] *)

(** A later node with the same identifier replaces an earlier one. *)
Definition node_index (g : dependency_graph) : odict graph_node :=
  fold_left (fun d n => od_set (gn_identifier n) n d) (dg_nodes g) [].

Definition known_ids (g : dependency_graph) : list string := map gn_identifier (dg_nodes g).

Definition find_missing_targets (g : dependency_graph) : list string :=
  fst (fold_left (fun ms e => let '(missing, seen) := ms in
         if bool_decide (ge_target e ∉ known_ids g) && bool_decide (ge_target e ∉ seen)
         then (missing ++ [ge_target e], {[ge_target e]} ∪ seen) else (missing, seen))
       (dg_edges g) ([], ∅ : gset string)).

Definition find_unused_nodes (g : dependency_graph) (protected_kinds : list string) : list graph_node :=
  filter (fun n => (gn_identifier n ∉ map ge_target (dg_edges g)) /\ (gn_kind n ∉ protected_kinds)) (dg_nodes g).

Record integrity_report := { ir_missing_targets : list string; ir_unused_nodes : list graph_node }.

(** [IntegrityChecker.check] and [SceneEngine.check_integrity] *)
Definition check_integrity (g : dependency_graph) : integrity_report :=
  {| ir_missing_targets := find_missing_targets g; ir_unused_nodes := find_unused_nodes g ["object"] |}.

(** ** [DependencyGraphBuilder] *)

Record builder := { bd_nodes : odict graph_node; bd_edges : list graph_edge }.

(** The first writer wins. *)
Definition add_node (identifier label kind : string) (b : builder) : builder :=
  {| bd_nodes := od_setdefault identifier {| gn_identifier := identifier; gn_label := label; gn_kind := kind |} (bd_nodes b);
     bd_edges := bd_edges b |}.

(** The dictionary from triples to edges is the list of its edges in order. *)
Definition add_edge (source target relationship : string) (b : builder) : builder :=
  let e := {| ge_source := source; ge_target := target; ge_relationship := relationship |} in
  {| bd_nodes := bd_nodes b; bd_edges := if bool_decide (e ∈ bd_edges b) then bd_edges b else bd_edges b ++ [e] |}.

(** [for x in l: f(x)] *)
Definition for_each {A} (l : list A) (f : A -> builder -> builder) (b : builder) : builder :=
  fold_left (fun b x => f x b) l b.

Definition add_image (img : image_dict) (b : builder) : res builder :=
  match im_filepath img with
  | Some path =>
      if str_truthy path then
        match im_name img with
        | Some name => Ok (add_node ("image:" +:+ name) path "image" b)
        | None => Err (KeyError "name")
        end
      else Ok b
  | None => Ok b
  end.

(** [if x: add_edge(source, x, rel)] *)
Definition add_link (source : string) (x : option string) (rel : string) (b : builder) : builder :=
  match x with Some t => if str_truthy t then add_edge source t rel b else b | None => b end.

Definition add_texture (material_id texture_name : string) (b : builder) : builder :=
  let texture_id := "texture:" +:+ texture_name in
  let image_id := "image:" +:+ texture_name in
  add_edge texture_id image_id "image"
    (add_node image_id texture_name "image"
      (add_edge material_id texture_id "texture" (add_node texture_id texture_name "texture" b))).

Definition add_material (obj : scene_object) (material : material_info) (b : builder) : builder :=
  let material_id := "material:" +:+ mi_name material in
  for_each (mi_image_textures material) (add_texture material_id)
    (add_edge (so_id obj) material_id "material" (add_node material_id (mi_name material) "material" b)).

Definition add_modifier (obj : scene_object) (name : string) (b : builder) : builder :=
  let modifier_id := "modifier:" +:+ so_id obj +:+ ":" +:+ name in
  add_edge (so_id obj) modifier_id "modifier" (add_node modifier_id name "modifier" b).

Definition add_animation (obj : scene_object) (b : builder) : builder :=
  match so_animation obj with
  | Some true =>
      let action_id := "action:" +:+ so_id obj in
      add_edge (so_id obj) action_id "animation" (add_node action_id ("Action:" +:+ so_name obj) "action" b)
  | _ => b
  end.

Definition add_reference (obj : scene_object) (reference : string) (b : builder) : builder :=
  let asset_id := "asset:" +:+ reference in
  add_edge (so_id obj) asset_id "references" (add_node asset_id reference "asset" b).

Definition add_object (obj : scene_object) (b : builder) : builder :=
  let b := for_each (so_children obj) (fun c => add_edge (so_id obj) c "child") b in
  let b := for_each (so_constraints obj) (fun t => add_link (so_id obj) t "constraint") b in
  let b := for_each (so_modifiers obj) (add_modifier obj) b in
  let b := for_each (so_materials obj) (add_material obj) b in
  let b := add_animation obj b in
  for_each (so_referenced_assets obj) (add_reference obj) b.

Definition new_builder : builder := {| bd_nodes := []; bd_edges := [] |}.

Definition build_steps (snapshot : scene_snapshot) : res builder :=
  let b := for_each (ss_collections snapshot) (fun c => add_node (ci_id c) (ci_name c) "collection") new_builder in
  let! b := res_fold (fun b img => add_image img b) b (ss_images snapshot) in
  let b := for_each (ss_objects snapshot) (fun o => add_node (so_id o) (so_name o) "object") b in
  let b := for_each (ss_objects snapshot) (fun o => add_link (so_id o) (so_parent o) "parent") b in
  let b := for_each (ss_objects snapshot) (fun o => add_link (so_id o) (so_collection o) "collection") b in
  Ok (for_each (ss_objects snapshot) add_object b).

Definition build (snapshot : scene_snapshot) : res dependency_graph :=
  let! b := build_steps snapshot in
  Ok {| dg_nodes := od_values (bd_nodes b); dg_edges := bd_edges b |}.

(** ** [RequirementResolver] *)

Record requirement_report := {
  rq_objects : list string; rq_meshes : list string; rq_materials : list string; rq_textures : list string;
  rq_images : list string; rq_lights : list string; rq_cameras : list string; rq_libraries : list string;
  rq_simulation_caches : list string;
}.

(** [ids.add(f"{prefix}{name}"); ids.add(name)] for every name. *)
Definition prefixed (prefix : string) (names : list string) : gset string :=
  list_to_set (map (fun n => prefix +:+ n) names) ∪ list_to_set names.

Definition resolve_requirements (r : requirement_report) : gset string :=
  list_to_set (rq_objects r) ∪ list_to_set (rq_lights r) ∪ list_to_set (rq_cameras r)
  ∪ prefixed "material:" (rq_materials r) ∪ prefixed "texture:" (rq_textures r) ∪ prefixed "image:" (rq_images r)
  ∪ list_to_set (rq_meshes r) ∪ prefixed "asset:" (rq_libraries r) ∪ list_to_set (rq_simulation_caches r).

(** ** [DependencyClosureResolver] *)

Definition adjacency_of (g : dependency_graph) : odict (list string) :=
  fold_left (fun d e => od_set (ge_source e) (od_get_default (ge_source e) [] d ++ [ge_target e]) d) (dg_edges g) [].

Definition label_to_ids (g : dependency_graph) : odict (list string) :=
  fold_left (fun d n => od_set (gn_label n) (od_get_default (gn_label n) [] d ++ [gn_identifier n]) d) (dg_nodes g) [].

Definition expand_seed (g : dependency_graph) (seed : string) : gset string :=
  (if od_mem seed (node_index g) then {[seed]} else ∅) ∪ list_to_set (od_get_default seed [] (label_to_ids g)).

Definition expand_seeds (g : dependency_graph) (seeds : gset string) : gset string :=
  ⋃ (map (expand_seed g) (elements seeds)).

(** The [while queue] loop; [None] when the fuel is used up. *)
Fixpoint bfs (fuel : nat) (adjacency : odict (list string)) (queue : list string) (visited : gset string)
    : option (gset string) :=
  match fuel, queue with
  | _, [] => Some visited
  | O, _ :: _ => None
  | S fuel, current :: queue =>
      if bool_decide (current ∈ visited) then bfs fuel adjacency queue visited
      else
        let visited := {[current]} ∪ visited in
        bfs fuel adjacency (queue ++ filter (fun n => n ∉ visited) (od_get_default current [] adjacency)) visited
  end.

(** Every pushed identifier is the target of an edge or a seed. *)
Definition bfs_fuel (g : dependency_graph) (queue : list string) : nat := length queue + length (dg_edges g).

(** The set of expanded seeds is iterated in any order. *)
Definition compute_closure (g : dependency_graph) (seeds : gset string) : option (gset string) :=
  let queue := elements (expand_seeds g seeds) in
  bfs (bfs_fuel g queue) (adjacency_of g) queue ∅.

(** ** [FrameScheduler._build_chunk]: the assets a chunk has to move *)

Definition asset_nodes (g : dependency_graph) (closure : gset string) : list string :=
  omap (fun nid => n ← od_get nid (node_index g); if String.eqb (gn_kind n) "asset" then Some (gn_label n) else None)
    (elements closure).

Definition estimated_asset_bytes (g : dependency_graph) (closure : gset string) (asset_sizes : odict Z) : Z :=
  let known_labels := map gn_label (filter (fun n => gn_kind n = "asset"%string) (dg_nodes g)) in
  let reached_paths := asset_nodes g closure in
  sumZ (map snd (filter (fun e => (e.1 ∉ known_labels) \/ (e.1 ∈ reached_paths)) asset_sizes)).

(** ** The graph as a relation *)

Definition edge (g : dependency_graph) (a b : string) : Prop :=
  exists e, e ∈ dg_edges g /\ ge_source e = a /\ ge_target e = b.

(** A seed stands for the node of that identifier and for those of that label. *)
Definition seeded (g : dependency_graph) (seeds : gset string) (x : string) : Prop :=
  exists n, n ∈ dg_nodes g /\ gn_identifier n = x /\ (x ∈ seeds \/ gn_label n ∈ seeds).
