(* ===== verification/SceneGraphProps.v ===== *)
(** * The dependency closure of a scene is exact *)
From S2P Require Export SceneGraph.

(** ** Grouping a list by a key *)

Section group.
Context {A : Type} (k v : A -> string).
#[local] Abbreviation step := (fun d x => od_set (k x) (od_get_default (k x) [] d ++ [v x]) d).

Lemma group_get l d key :
  od_get_default key [] (fold_left step l d) = od_get_default key [] d ++ map v (filter (fun x => k x = key) l).
Proof.
  revert d. induction l as [|x l IH]; intros d; simpl; [by rewrite app_nil_r|].
  rewrite IH, filter_cons. unfold od_get_default at 1. rewrite od_get_set.
  destruct (String.eqb_spec key (k x)) as [->|Hne].
  - rewrite decide_True by done. simpl. by rewrite <- app_assoc.
  - by rewrite decide_False.
Qed.
End group.

Section graph.
Context (g : dependency_graph).

Lemma adjacency_get x :
  od_get_default x [] (adjacency_of g) = map ge_target (filter (fun e => ge_source e = x) (dg_edges g)).
Proof. unfold adjacency_of. by rewrite group_get. Qed.

Lemma adjacency_edge x y : y ∈ od_get_default x [] (adjacency_of g) <-> edge g x y.
Proof.
  rewrite adjacency_get. unfold edge. rewrite list_elem_of_fmap. split.
  - intros (e & -> & [Hs He]%list_elem_of_filter). eauto.
  - intros (e & He & <- & <-). exists e. split; [done|]. by apply list_elem_of_filter.
Qed.

Lemma node_index_keys l d x :
  od_mem x (fold_left (fun d n => od_set (gn_identifier n) n d) l d) = true <-> od_mem x d = true \/ x ∈ map gn_identifier l.
Proof.
  revert d. induction l as [|n l IH]; intros d; simpl; [set_solver|].
  rewrite IH, !od_mem_get, od_get_set. destruct (String.eqb_spec x (gn_identifier n)) as [->|Hne]; set_solver.
Qed.

Lemma node_index_mem x : od_mem x (node_index g) = true <-> x ∈ known_ids g.
Proof. unfold node_index. rewrite node_index_keys. unfold known_ids. split; [intros [H|H]; [done|done]|tauto]. Qed.

Lemma expand_seed_spec seed x :
  x ∈ expand_seed g seed <->
  exists n, n ∈ dg_nodes g /\ gn_identifier n = x /\ (x = seed \/ gn_label n = seed).
Proof.
  unfold expand_seed. rewrite elem_of_union, elem_of_list_to_set. unfold label_to_ids. rewrite group_get. simpl.
  rewrite list_elem_of_fmap. setoid_rewrite list_elem_of_filter.
  destruct (od_mem seed (node_index g)) eqn:E.
  - apply node_index_mem in E. unfold known_ids in E. apply list_elem_of_fmap in E as (n & -> & Hn).
    rewrite elem_of_singleton. split.
    + intros [->|(m & -> & <- & Hm)]; eauto 10.
    + intros (m & Hm & <- & [Heq|Hl]); [by left|right; eauto].
  - assert (seed ∉ known_ids g) as Hout by (intros H%node_index_mem; congruence).
    split.
    + intros [H|(m & -> & <- & Hm)]; [set_solver|eauto 10].
    + intros (m & Hm & <- & [Heq|Hl]); [|right; eauto].
      destruct Hout. rewrite <- Heq. unfold known_ids. apply list_elem_of_fmap. eauto.
Qed.

Lemma expand_seeds_spec seeds x : x ∈ expand_seeds g seeds <-> seeded g seeds x.
Proof.
  unfold expand_seeds, seeded. rewrite elem_of_union_list. setoid_rewrite list_elem_of_fmap. split.
  - intros (X & (s & -> & Hs%elem_of_elements) & (n & Hn & <- & H)%expand_seed_spec).
    exists n. split; [done|]. split; [done|]. destruct H as [<-|<-]; auto.
  - intros (n & Hn & <- & [H|H]).
    + exists (expand_seed g (gn_identifier n)). split; [eexists; by rewrite elem_of_elements|].
      apply expand_seed_spec. eauto.
    + exists (expand_seed g (gn_label n)). split; [eexists; by rewrite elem_of_elements|].
      apply expand_seed_spec. eauto.
Qed.

(** ** The search *)

(** The edges whose source has not been visited bound what is still pushed. *)
Definition unexplored (visited : gset string) : nat :=
  length (filter (fun e => ge_source e ∉ visited) (dg_edges g)).

Lemma unexplored_visit c visited :
  c ∉ visited ->
  (unexplored ({[c]} ∪ visited) + length (od_get_default c [] (adjacency_of g)) = unexplored visited)%nat.
Proof.
  intros Hc. rewrite adjacency_get, length_map. unfold unexplored.
  induction (dg_edges g) as [|e l IH]; [done|]. rewrite !filter_cons.
  destruct (decide (ge_source e = c)) as [Heq|Hne].
  - rewrite (decide_False (P:=_ ∉ _)) by set_solver. rewrite (decide_True (P:=_ ∉ visited)) by set_solver.
    simpl. lia.
  - destruct (decide (ge_source e ∈ visited)) as [Hin|Hout].
    + rewrite (decide_False (P:=_ ∉ _)) by set_solver. rewrite (decide_False (P:=_ ∉ visited)) by set_solver. done.
    + rewrite (decide_True (P:=_ ∉ _)) by set_solver. rewrite (decide_True (P:=_ ∉ visited)) by set_solver.
      simpl. lia.
Qed.

Lemma bfs_terminates fuel queue visited :
  (length queue + unexplored visited <= fuel)%nat -> is_Some (bfs fuel (adjacency_of g) queue visited).
Proof.
  revert queue visited. induction fuel as [|fuel IH]; intros [|c queue] visited; simpl; intros H; try lia; eauto.
  case_bool_decide as Hc; [apply IH; lia|].
  apply IH. rewrite length_app.
  pose proof (length_filter (fun n => n ∉ {[c]} ∪ visited) (od_get_default c [] (adjacency_of g))).
  pose proof (unexplored_visit c visited Hc). lia.
Qed.

Lemma bfs_sound fuel queue visited C :
  bfs fuel (adjacency_of g) queue visited = Some C ->
  (forall x y, x ∈ visited -> edge g x y -> y ∈ visited \/ y ∈ queue) ->
  visited ⊆ C /\ (forall x, x ∈ queue -> x ∈ C) /\ (forall x y, x ∈ C -> edge g x y -> y ∈ C)
  /\ (forall x, x ∈ C -> x ∈ visited \/ exists s, s ∈ queue /\ rtc (edge g) s x).
Proof.
  revert queue visited. induction fuel as [|fuel IH]; intros [|c queue] visited; simpl; intros Hrun Hcl; try done.
  1,2: injection Hrun as <-; split_and!; try done; [set_solver|intros x y Hx He; destruct (Hcl x y Hx He); set_solver|auto].
  case_bool_decide as Hc.
  - apply IH in Hrun as (H1 & H2 & H3 & H4).
    + split; [done|]. split; [set_solver|]. split; [done|]. intros x [Hx|(s & Hs & Hr)]%H4; [by left|right; set_solver].
    + intros x y Hx He. destruct (Hcl x y Hx He) as [H|[->|H]%elem_of_cons]; auto.
  - apply IH in Hrun as (H1 & H2 & H3 & H4).
    + split; [set_solver|]. split; [intros x [->|Hx]%elem_of_cons; [set_solver|apply H2; set_solver]|].
      split; [done|]. intros x [Hx|(s & Hs & Hr)]%H4.
      * apply elem_of_union in Hx as [->%elem_of_singleton|Hx]; [right|by left].
        exists c. split; [set_solver|done].
      * right. apply elem_of_app in Hs as [Hs|[_ Hs%adjacency_edge]%list_elem_of_filter]; [exists s; set_solver|].
        exists c. split; [set_solver|]. by eapply rtc_l.
    + intros x y Hx He. apply elem_of_union in Hx as [->%elem_of_singleton|Hx].
      * destruct (decide (y ∈ {[c]} ∪ visited)) as [H|H]; [by left|right].
        apply elem_of_app. right. apply list_elem_of_filter. split; [done|]. by apply adjacency_edge.
      * destruct (Hcl x y Hx He) as [H|[->|H]%elem_of_cons]; set_solver.
Qed.

Lemma bfs_exact queue :
  exists C, bfs (bfs_fuel g queue) (adjacency_of g) queue ∅ = Some C
    /\ forall x, x ∈ C <-> exists s, s ∈ queue /\ rtc (edge g) s x.
Proof.
  destruct (bfs_terminates (bfs_fuel g queue) queue ∅) as [C HC].
  { unfold bfs_fuel, unexplored. apply Nat.add_le_mono_l, length_filter. }
  exists C. split; [done|].
  destruct (bfs_sound _ _ _ _ HC) as (_ & H2 & H3 & H4); [set_solver|].
  intros x. split.
  - intros [Hx|H]%H4; [set_solver|done].
  - intros (s & Hs & Hr). apply H2 in Hs. clear -Hr Hs H3.
    induction Hr as [x|x y z Hxy Hr IH]; [done|]. apply IH. by eapply H3.
Qed.

Lemma closure_spec seeds :
  exists C, compute_closure g seeds = Some C
    /\ forall x, x ∈ C <-> exists s, seeded g seeds s /\ rtc (edge g) s x.
Proof.
  unfold compute_closure. destruct (bfs_exact (elements (expand_seeds g seeds))) as (C & HC & Hx).
  exists C. split; [done|]. intros x. rewrite Hx. by setoid_rewrite elem_of_elements; setoid_rewrite expand_seeds_spec.
Qed.

(** C33: The closure search always ends; it finds exactly the nodes that follow
    from a seed, a seed being matched by identifier or by label; the order in
    which the set of seeds is iterated does not matter; and the closure is the
    least set with the matched seeds that is closed under dependencies. *)
Theorem closure_exact seeds :
  (exists C, compute_closure g seeds = Some C
     /\ (forall x, x ∈ C <-> exists s, seeded g seeds s /\ rtc (edge g) s x)
     /\ (forall D : gset string, (forall s, seeded g seeds s -> s ∈ D) -> (forall x y, x ∈ D -> edge g x y -> y ∈ D) -> C ⊆ D))
  /\ (forall queue, (forall x, x ∈ queue <-> x ∈ expand_seeds g seeds) ->
        bfs (bfs_fuel g queue) (adjacency_of g) queue ∅ = compute_closure g seeds).
Proof.
  destruct (closure_spec seeds) as (C & HC & Hx). split.
  - exists C. split; [done|]. split; [done|]. intros D Hs Hd x (s & H%Hs & Hr)%Hx.
    induction Hr as [|x y z Hxy Hr IH]; eauto.
  - intros queue Hq. destruct (bfs_exact queue) as (C' & -> & Hx'). rewrite HC. f_equal. apply set_eq. intros x.
    rewrite Hx, Hx'. setoid_rewrite Hq. by setoid_rewrite expand_seeds_spec.
Qed.
End graph.

(** ** Building the graph *)

(** What every step of the builder preserves: identifiers are unique and file
    their own node, edges are unique and start at a node. *)
Record built (b : builder) : Prop := {
  bt_wf : od_wf (bd_nodes b);
  bt_ids : forall k n, (k, n) ∈ bd_nodes b -> gn_identifier n = k;
  bt_edges : NoDup (bd_edges b);
  bt_sources : forall e, e ∈ bd_edges b -> od_mem (ge_source e) (bd_nodes b) = true;
}.

(** Steps only add. *)
Definition grown (b b' : builder) : Prop :=
  (forall k n, od_get k (bd_nodes b) = Some n -> od_get k (bd_nodes b') = Some n)
  /\ (forall e, e ∈ bd_edges b -> e ∈ bd_edges b').

Definition has_node (b : builder) (k : string) : Prop := od_mem k (bd_nodes b) = true.
Definition has_edge (b : builder) (x y : string) : Prop :=
  exists e, e ∈ bd_edges b /\ ge_source e = x /\ ge_target e = y.

#[export] Instance grown_preorder : PreOrder grown.
Proof. split; [by split|]. intros b1 b2 b3 [H1 H2] [H3 H4]. split; eauto. Qed.

Lemma grown_node b b' k : grown b b' -> has_node b k -> has_node b' k.
Proof. unfold has_node. rewrite !od_mem_get. intros [H _] [n Hn]. eauto. Qed.
Lemma grown_edge b b' x y : grown b b' -> has_edge b x y -> has_edge b' x y.
Proof. intros [_ H] (e & He & Hx). exists e. eauto. Qed.

Lemma add_node_grown i l k b : grown b (add_node i l k b).
Proof.
  split; [|done]. intros k' n Hn. unfold add_node, od_setdefault. simpl.
  destruct (od_mem i (bd_nodes b)) eqn:E; [done|].
  rewrite od_get_set_ne; [done|]. intros ->. unfold od_mem in E. by rewrite Hn in E.
Qed.

Lemma add_node_has i l k b : has_node (add_node i l k b) i.
Proof.
  unfold has_node, add_node, od_setdefault. simpl. destruct (od_mem i (bd_nodes b)) eqn:E; [done|].
  apply od_mem_get. rewrite od_get_set_eq. eauto.
Qed.

Lemma add_edge_grown s t r b : grown b (add_edge s t r b).
Proof. split; [done|]. intros e He. unfold add_edge. simpl. case_bool_decide; set_solver. Qed.

Lemma add_edge_has s t r b : has_edge (add_edge s t r b) s t.
Proof.
  exists {| ge_source := s; ge_target := t; ge_relationship := r |}. split; [|done].
  unfold add_edge. simpl. case_bool_decide; [done|]. apply elem_of_app. right. by left.
Qed.

Lemma add_node_built i l k b : built b -> built (add_node i l k b).
Proof.
  intros [Hwf Hid Hnd Hs]. pose proof (add_node_grown i l k b) as Hg. split; [| |done|].
  - unfold add_node, od_setdefault. simpl. destruct (od_mem i (bd_nodes b)); [done|]. by apply od_set_wf.
  - intros k' n. unfold add_node, od_setdefault. simpl. destruct (od_mem i (bd_nodes b)) eqn:E; [apply Hid|].
    assert (i ∉ od_keys (bd_nodes b)) as Hi. { apply od_get_None_keys. unfold od_mem in E. by destruct (od_get _ _). }
    rewrite od_set_fresh by done. intros [H|H%list_elem_of_singleton]%elem_of_app; [by apply Hid|by injection H as -> ->].
  - intros e He. apply (grown_node b); [done|]. by apply Hs.
Qed.

Lemma add_edge_built s t r b : built b -> has_node b s -> built (add_edge s t r b).
Proof.
  intros [Hwf Hid Hnd Hs] Hn. split; [done|done| |].
  - unfold add_edge. simpl. case_bool_decide as Hin; [done|]. apply NoDup_app. split; [done|].
    split; [intros x Hx H%list_elem_of_singleton; by subst|apply NoDup_singleton].
  - intros e. unfold add_edge. simpl. case_bool_decide; [apply Hs|].
    intros [He|He%list_elem_of_singleton]%elem_of_app; [by apply Hs|by subst].
Qed.

(** A step that grows a sound builder and keeps it sound, where [P] holds. *)
Definition sound_when (P : builder -> Prop) (f : builder -> builder) : Prop :=
  forall b, built b -> P b -> built (f b) /\ grown b (f b).

(** The steps that start their edges at the node [k]. *)
Definition sound_at (k : string) : (builder -> builder) -> Prop := sound_when (fun b => has_node b k).

Section loops.
Context {A : Type} (P : builder -> Prop) (P_grown : forall b b', grown b b' -> P b -> P b').

Lemma sound_loop (l : list A) (f : A -> builder -> builder) :
  (forall x, x ∈ l -> sound_when P (f x)) -> sound_when P (for_each l f).
Proof.
  unfold for_each. induction l as [|x l IH]; intros H b Hb Hk; simpl; [done|].
  destruct (H x (ltac:(set_solver)) b Hb Hk) as [H1 H2].
  destruct (IH (fun y Hy => H y ltac:(set_solver)) (f x b) H1 (P_grown _ _ H2 Hk)) as [H3 H4].
  split; [done|]. by etrans.
Qed.

(** What one turn establishes survives the rest of the loop. *)
Lemma loop_reaches (l : list A) (f : A -> builder -> builder) (Q : builder -> Prop) x b :
  (forall y, y ∈ l -> sound_when P (f y)) -> (forall b b', grown b b' -> Q b -> Q b') ->
  x ∈ l -> (forall b, built b -> P b -> Q (f x b)) ->
  built b -> P b -> Q (for_each l f b).
Proof.
  intros Hs Hm Hx Hf. revert b. induction l as [|y l IH]; intros b Hb Hk; [set_solver|].
  change (for_each (y :: l) f b) with (for_each l f (f y b)).
  destruct (Hs y ltac:(set_solver) b Hb Hk) as [H1 H2]. pose proof (P_grown _ _ H2 Hk) as H3.
  apply elem_of_cons in Hx as [->|Hx].
  - refine (Hm (f y b) _ _ (Hf b Hb Hk)).
    exact (proj2 (sound_loop l f (fun z Hz => Hs z ltac:(set_solver)) (f y b) H1 H3)).
  - apply IH; try done. intros z Hz. apply Hs. set_solver.
Qed.
End loops.

Lemma has_node_grown k b b' : grown b b' -> has_node b k -> has_node b' k.
Proof. apply grown_node. Qed.

Definition sound_for_each {A} k l (f : A -> builder -> builder) := sound_loop (fun b => has_node b k) (has_node_grown k) l f.
Definition for_each_reaches {A} k l (f : A -> builder -> builder) := loop_reaches (fun b => has_node b k) (has_node_grown k) l f.

Lemma sound_node k i l kind : sound_at k (add_node i l kind).
Proof. intros b Hb _. split; [by apply add_node_built|apply add_node_grown]. Qed.

Lemma sound_edge k t r : sound_at k (add_edge k t r).
Proof. intros b Hb Hk. split; [by apply add_edge_built|apply add_edge_grown]. Qed.

Lemma sound_link k t r : sound_at k (add_link k t r).
Proof. intros b Hb Hk. unfold add_link. destruct t as [t|]; [destruct (str_truthy t)|]; try done. by apply sound_edge. Qed.

(** A node and an edge to it. *)
Lemma sound_linked_node k i l kind r : sound_at k (fun b => add_edge k i r (add_node i l kind b)).
Proof.
  intros b Hb Hk. pose proof (add_node_grown i l kind b) as G.
  destruct (sound_edge k i r (add_node i l kind b)) as [H1 H2]; [by apply add_node_built|by eapply grown_node|].
  split; [done|]. by etrans.
Qed.

Lemma sound_texture m t : sound_at m (add_texture m t).
Proof.
  intros b Hb Hm. unfold add_texture. set (tid := "texture:" +:+ t).
  destruct (sound_linked_node m tid t "texture" "texture" b Hb Hm) as [H1 G1]. cbv beta in H1, G1.
  assert (has_node (add_edge m tid "texture" (add_node tid t "texture" b)) tid) as Ht by apply add_node_has.
  destruct (sound_linked_node tid ("image:" +:+ t) t "image" "image" _ H1 Ht) as [H2 G2].
  split; [done|]. by etrans.
Qed.

Lemma sound_material o m : sound_at (so_id o) (add_material o m).
Proof.
  intros b Hb Ho. unfold add_material. set (mid := "material:" +:+ mi_name m).
  destruct (sound_linked_node (so_id o) mid (mi_name m) "material" "material" b Hb Ho) as [H1 G1]. cbv beta in H1, G1.
  destruct (sound_for_each mid (mi_image_textures m) (add_texture mid) (fun t _ => sound_texture mid t) _ H1) as [H2 G2];
    [apply add_node_has|]. split; [done|]. by etrans.
Qed.

Lemma sound_animation o : sound_at (so_id o) (add_animation o).
Proof.
  intros b Hb Ho. unfold add_animation. destruct (so_animation o) as [[]|]; [|done..].
  by apply sound_linked_node.
Qed.

(** The stages of [add_object]. *)
Definition object_stages (o : scene_object) : list (builder -> builder) :=
  [for_each (so_children o) (fun c => add_edge (so_id o) c "child");
   for_each (so_constraints o) (fun t => add_link (so_id o) t "constraint");
   for_each (so_modifiers o) (add_modifier o);
   for_each (so_materials o) (add_material o);
   add_animation o;
   for_each (so_referenced_assets o) (add_reference o)].

Lemma add_object_stages o b : add_object o b = for_each (object_stages o) (fun f => f) b.
Proof. done. Qed.

Lemma object_stage_sound o f : f ∈ object_stages o -> sound_at (so_id o) f.
Proof.
  unfold object_stages. rewrite !elem_of_cons. intros [->|[->|[->|[->|[->|[->|H]]]]]].
  - apply sound_for_each. intros c _. apply sound_edge.
  - apply sound_for_each. intros c _. apply sound_link.
  - apply sound_for_each. intros c _. apply sound_linked_node.
  - apply sound_for_each. intros c _. apply sound_material.
  - apply sound_animation.
  - apply sound_for_each. intros c _. apply sound_linked_node.
  - by apply not_elem_of_nil in H.
Qed.

Lemma sound_object o : sound_at (so_id o) (add_object o).
Proof. apply (sound_for_each (so_id o) (object_stages o) (fun f => f)). apply object_stage_sound. Qed.

(** What the scene says an object needs. *)
Inductive needed (o : scene_object) : string -> Prop :=
| needs_material m : m ∈ so_materials o -> needed o ("material:" +:+ mi_name m)
| needs_texture m t : m ∈ so_materials o -> t ∈ mi_image_textures m -> needed o ("texture:" +:+ t)
| needs_image m t : m ∈ so_materials o -> t ∈ mi_image_textures m -> needed o ("image:" +:+ t)
| needs_modifier n : n ∈ so_modifiers o -> needed o ("modifier:" +:+ so_id o +:+ ":" +:+ n)
| needs_action : so_animation o = Some true -> needed o ("action:" +:+ so_id o)
| needs_asset r : r ∈ so_referenced_assets o -> needed o ("asset:" +:+ r)
| needs_child c : c ∈ so_children o -> needed o c
| needs_constraint c : Some c ∈ so_constraints o -> str_truthy c = true -> needed o c
| needs_parent p : so_parent o = Some p -> str_truthy p = true -> needed o p
| needs_collection c : so_collection o = Some c -> str_truthy c = true -> needed o c.

(** [y] follows from [x] along edges of the builder. *)
Definition leads (b : builder) (x y : string) : Prop := rtc (has_edge b) x y.

#[export] Instance leads_trans b : Transitive (leads b).
Proof. intros x y z. unfold leads. intros H. induction H; eauto using rtc_l. Qed.

Lemma leads_grown b b' x y : grown b b' -> leads b x y -> leads b' x y.
Proof. intros Hg. unfold leads. induction 1 as [|x y z H _ IH]; [done|]. eapply rtc_l; [|done]. by eapply grown_edge. Qed.

Lemma link_leads s t r b : str_truthy t = true -> leads (add_link s (Some t) r b) s t.
Proof. intros H. unfold add_link. rewrite H. apply rtc_once, add_edge_has. Qed.

Lemma edge_leads s t r b : leads (add_edge s t r b) s t.
Proof. apply rtc_once, add_edge_has. Qed.

Lemma texture_leads m t b :
  leads (add_texture m t b) m ("texture:" +:+ t) /\ leads (add_texture m t b) m ("image:" +:+ t).
Proof.
  unfold add_texture. set (tid := "texture:" +:+ t). set (iid := "image:" +:+ t).
  assert (has_edge (add_edge tid iid "image" (add_node iid t "image" (add_edge m tid "texture" (add_node tid t "texture" b)))) m tid) as H.
  { eapply grown_edge; [apply add_edge_grown|]. eapply grown_edge; [apply add_node_grown|]. apply add_edge_has. }
  split; [by apply rtc_once|]. eapply rtc_l; [exact H|]. apply edge_leads.
Qed.

Lemma material_leads o m b :
  built b -> has_node b (so_id o) ->
  leads (add_material o m b) (so_id o) ("material:" +:+ mi_name m)
  /\ forall t, t ∈ mi_image_textures m ->
       leads (add_material o m b) (so_id o) ("texture:" +:+ t) /\ leads (add_material o m b) (so_id o) ("image:" +:+ t).
Proof.
  intros Hb Ho. unfold add_material. set (mid := "material:" +:+ mi_name m).
  destruct (sound_linked_node (so_id o) mid (mi_name m) "material" "material" b Hb Ho) as [H1 G1]. cbv beta in H1, G1.
  set (b1 := add_edge (so_id o) mid "material" (add_node mid (mi_name m) "material" b)) in *.
  assert (has_node b1 mid) as Hm by apply add_node_has.
  destruct (sound_for_each mid (mi_image_textures m) (add_texture mid) (fun t _ => sound_texture mid t) b1 H1 Hm) as [_ G2].
  assert (leads (for_each (mi_image_textures m) (add_texture mid) b1) (so_id o) mid) as Hl.
  { eapply leads_grown; [exact G2|]. apply edge_leads. }
  split; [done|]. intros t Ht.
  assert (forall x, (forall b, leads (add_texture mid t b) mid x) ->
            leads (for_each (mi_image_textures m) (add_texture mid) b1) mid x) as Hx.
  { intros x Hx. apply (for_each_reaches mid _ _ (fun b => leads b mid x) t); try done.
    - intros t' _. apply sound_texture.
    - intros b' b'' Hg. by apply leads_grown. }
  split; (etrans; [exact Hl|]); apply Hx; intros b'; apply texture_leads.
Qed.

Lemma stage_leads o f x b :
  f ∈ object_stages o -> (forall b, built b -> has_node b (so_id o) -> leads (f b) (so_id o) x) ->
  built b -> has_node b (so_id o) -> leads (add_object o b) (so_id o) x.
Proof.
  intros Hf Hx Hb Ho. rewrite add_object_stages.
  apply (for_each_reaches (so_id o) _ _ (fun b => leads b (so_id o) x) f); try done; [apply object_stage_sound|].
  intros b' b''. apply leads_grown.
Qed.

Lemma loop_leads {A} o (l : list A) f y x b :
  for_each l f ∈ object_stages o -> (forall z, z ∈ l -> sound_at (so_id o) (f z)) -> y ∈ l ->
  (forall b, built b -> has_node b (so_id o) -> leads (f y b) (so_id o) x) ->
  built b -> has_node b (so_id o) -> leads (add_object o b) (so_id o) x.
Proof.
  intros Hst Hs Hy Hx. apply (stage_leads o (for_each l f)); [done|]. intros b' Hb' Hk'.
  apply (for_each_reaches (so_id o) l f (fun b => leads b (so_id o) x) y); try done.
  intros b1 b2. apply leads_grown.
Qed.

Ltac stage := unfold object_stages; rewrite !elem_of_cons; auto 10.

Lemma object_leads o b x :
  built b -> has_node b (so_id o) -> needed o x ->
  leads (add_object o b) (so_id o) x
  \/ (so_parent o = Some x /\ str_truthy x = true) \/ (so_collection o = Some x /\ str_truthy x = true).
Proof.
  intros Hb Ho Hx.
  destruct Hx as [m Hm|m t Hm Ht|m t Hm Ht|n Hn|Ha|r Hr|c Hc|c Hc Ht|p Hp Ht|c Hc Ht]; [left..|right; by left|right; by right].
  1-3: apply (loop_leads o (so_materials o) (add_material o) m); try done; [stage|intros; apply sound_material|].
  1-3: intros b' Hb' Hk'; destruct (material_leads o m b' Hb' Hk') as [Q1 Q2]; try done; by apply Q2.
  - apply (loop_leads o (so_modifiers o) (add_modifier o) n); try done; [stage|intros; apply sound_linked_node|].
    intros. apply edge_leads.
  - apply (stage_leads o (add_animation o)); try done; [stage|]. intros b' _ _. unfold add_animation. rewrite Ha. apply edge_leads.
  - apply (loop_leads o (so_referenced_assets o) (add_reference o) r); try done; [stage|intros; apply sound_linked_node|].
    intros. apply edge_leads.
  - apply (loop_leads o (so_children o) (fun c => add_edge (so_id o) c "child") c); try done; [stage|intros; apply sound_edge|].
    intros. apply edge_leads.
  - apply (loop_leads o (so_constraints o) (fun t => add_link (so_id o) t "constraint") (Some c)); try done;
      [stage|intros; apply sound_link|]. intros. by apply link_leads.
Qed.

Definition objects_in (objects : list scene_object) (b : builder) : Prop := forall o, o ∈ objects -> has_node b (so_id o).

Lemma objects_in_grown objects b b' : grown b b' -> objects_in objects b -> objects_in objects b'.
Proof. intros Hg H o Ho. eapply grown_node; eauto. Qed.

(** A loop over the objects of the scene whose turns start at the object. *)
Lemma object_loop objects (f : scene_object -> builder -> builder) :
  (forall o, sound_at (so_id o) (f o)) -> forall o, o ∈ objects -> sound_when (objects_in objects) (f o).
Proof. intros H o Ho b Hb Hin. apply H; [done|]. by apply Hin. Qed.

Lemma new_builder_built : built new_builder.
Proof. split; [apply od_wf_nil|intros k n H|apply NoDup_nil_2|intros e H]; by apply not_elem_of_nil in H. Qed.

Definition nameless (img : image_dict) : Prop :=
  im_name img = None /\ exists p, im_filepath img = Some p /\ str_truthy p = true.

Lemma add_image_spec img b :
  (nameless img /\ add_image img b = Err (KeyError "name"))
  \/ (~ nameless img /\ exists b', add_image img b = Ok b' /\ (built b -> built b') /\ grown b b').
Proof.
  unfold add_image, nameless. destruct (im_filepath img) as [p|]; [|right; split; [intros (_ & p & [=] & _)|by eexists]].
  destruct (str_truthy p) eqn:Ep.
  - destruct (im_name img) as [n|]; [right|left; split; [split; [done|by exists p]|done]].
    split; [by intros [[=] _]|]. eexists. split; [done|]. split; [apply add_node_built|apply add_node_grown].
  - right. split; [|by eexists]. intros (_ & q & [= <-] & Hq). congruence.
Qed.

Lemma images_spec imgs b :
  built b ->
  match res_fold (fun b img => add_image img b) b imgs with
  | Ok b' => built b' /\ (forall img, img ∈ imgs -> ~ nameless img)
  | Err e => e = KeyError "name" /\ exists img, img ∈ imgs /\ nameless img
  end.
Proof.
  revert b. induction imgs as [|img imgs IH]; intros b Hb; simpl; [split; [done|intros i Hi; by apply not_elem_of_nil in Hi]|].
  destruct (add_image_spec img b) as [[Hn ->]|[Hn (b' & -> & Hb' & _)]]; simpl.
  - split; [done|]. exists img. split; [by left|done].
  - specialize (IH b' (Hb' Hb)). destruct (res_fold _ b' imgs).
    + destruct IH as [IH1 IH2]. split; [done|]. intros i [->|Hi]%elem_of_cons; auto.
    + destruct IH as (-> & i & Hi & Hni). split; [done|]. exists i. split; [by right|done].
Qed.

Definition with_collections (s : scene_snapshot) : builder :=
  for_each (ss_collections s) (fun c => add_node (ci_id c) (ci_name c) "collection") new_builder.
Definition with_objects (s : scene_snapshot) (b : builder) : builder :=
  for_each (ss_objects s) (fun o => add_node (so_id o) (so_name o) "object") b.
Definition with_links (s : scene_snapshot) (b : builder) : builder :=
  let b := for_each (ss_objects s) (fun o => add_link (so_id o) (so_parent o) "parent") b in
  for_each (ss_objects s) (fun o => add_link (so_id o) (so_collection o) "collection") b.

Lemma always_grown (b b' : builder) : grown b b' -> True -> True.
Proof. done. Qed.

Lemma collections_built s : built (with_collections s).
Proof.
  apply (sound_loop (fun _ => True) always_grown); [|apply new_builder_built|done].
  intros c _ b Hb _. split; [by apply add_node_built|apply add_node_grown].
Qed.

Lemma objects_built s b : built b -> built (with_objects s b) /\ objects_in (ss_objects s) (with_objects s b).
Proof.
  intros Hb.
  assert (forall o, o ∈ ss_objects s -> sound_when (fun _ => True) (add_node (so_id o) (so_name o) "object")) as Hs.
  { intros o _ b' Hb' _. split; [by apply add_node_built|apply add_node_grown]. }
  split; [by apply (sound_loop (fun _ => True) always_grown)|].
  intros o Ho. apply (loop_reaches (fun _ => True) always_grown _ _ (fun b => has_node b (so_id o)) o); try done.
  - intros b1 b2. apply grown_node.
  - intros b' _ _. apply add_node_has.
Qed.

Section objects.
Context (s : scene_snapshot) (b : builder) (Hb : built b) (Hin : objects_in (ss_objects s) b).

#[local] Abbreviation loop f := (sound_loop (objects_in (ss_objects s)) (objects_in_grown (ss_objects s)) (ss_objects s) f).

Lemma links_spec :
  built (with_links s b) /\ objects_in (ss_objects s) (with_links s b)
  /\ forall o x, o ∈ ss_objects s -> str_truthy x = true -> so_parent o = Some x \/ so_collection o = Some x ->
       leads (with_links s b) (so_id o) x.
Proof using Hb Hin.
  unfold with_links. set (b1 := for_each _ _ b).
  pose proof (object_loop (ss_objects s) (fun o => add_link (so_id o) (so_parent o) "parent") (fun o => sound_link _ _ _)) as S1.
  pose proof (object_loop (ss_objects s) (fun o => add_link (so_id o) (so_collection o) "collection") (fun o => sound_link _ _ _)) as S2.
  destruct (loop _ S1 b Hb Hin) as [H1 G1]. fold b1 in H1, G1. pose proof (objects_in_grown _ _ _ G1 Hin) as K1.
  destruct (loop _ S2 b1 H1 K1) as [H2 G2]. split; [done|]. split; [by eapply objects_in_grown|].
  intros o x Ho Hx [Hp|Hc].
  - apply (leads_grown b1); [exact G2|]. unfold b1.
    refine (loop_reaches (objects_in (ss_objects s)) (objects_in_grown _) _ _ (fun b => leads b (so_id o) x) o b S1 _ Ho _ Hb Hin).
    + intros ??. apply leads_grown.
    + intros b' _ _. rewrite Hp. by apply link_leads.
  - refine (loop_reaches (objects_in (ss_objects s)) (objects_in_grown _) _ _ (fun b => leads b (so_id o) x) o b1 S2 _ Ho _ H1 K1).
    + intros ??. apply leads_grown.
    + intros b' _ _. rewrite Hc. by apply link_leads.
Qed.
End objects.

(** The builder at the end of a successful [build]. *)
Lemma build_spec s g :
  build s = Ok g ->
  exists b, built b /\ dg_nodes g = od_values (bd_nodes b) /\ dg_edges g = bd_edges b
    /\ objects_in (ss_objects s) b /\ forall o x, o ∈ ss_objects s -> needed o x -> leads b (so_id o) x.
Proof.
  unfold build, build_steps. fold (with_collections s). intros Hg.
  pose proof (images_spec (ss_images s) _ (collections_built s)) as Hi.
  destruct (res_fold _ (with_collections s) (ss_images s)) as [b0|e]; [|done]. destruct Hi as [H0 _]. simpl in Hg.
  fold (with_objects s b0) in Hg. fold (with_links s (with_objects s b0)) in Hg.
  destruct (objects_built s b0 H0) as [H1 K1]. destruct (links_spec s _ H1 K1) as (H2 & K2 & L2).
  set (b2 := with_links s (with_objects s b0)) in *.
  pose proof (object_loop (ss_objects s) add_object sound_object) as S3.
  destruct (sound_loop _ (objects_in_grown (ss_objects s)) (ss_objects s) add_object S3 b2 H2 K2) as [H3 G3].
  injection Hg as <-. eexists. split; [exact H3|]. split; [done|]. split; [done|]. split; [by eapply objects_in_grown|].
  intros o x Ho Hx.
  assert (leads b2 (so_id o) x -> leads (for_each (ss_objects s) add_object b2) (so_id o) x) as Hkeep by (by apply leads_grown).
  destruct (decide (str_truthy x = true /\ (so_parent o = Some x \/ so_collection o = Some x))) as [[Ht Hs]|Hs].
  { by apply Hkeep, L2. }
  refine (loop_reaches _ (objects_in_grown (ss_objects s)) _ _ (fun b => leads b (so_id o) x) o b2 S3 _ Ho _ H2 K2).
  - intros ??. apply leads_grown.
  - intros b' Hb' Hk'. destruct (object_leads o b' x Hb' (Hk' o Ho) Hx) as [H|[[Hp Ht]|[Hp Ht]]]; [done|exfalso..]; auto.
Qed.

Lemma missing_targets_spec g x : x ∈ find_missing_targets g <-> x ∈ map ge_target (dg_edges g) /\ x ∉ known_ids g.
Proof.
  unfold find_missing_targets.
  assert (forall l m (seen : gset string), (forall y, y ∈ m <-> y ∈ seen) ->
    x ∈ fst (fold_left (fun ms e => let '(missing, seen) := ms in
         if bool_decide (ge_target e ∉ known_ids g) && bool_decide (ge_target e ∉ seen)
         then (missing ++ [ge_target e], {[ge_target e]} ∪ seen) else (missing, seen)) l (m, seen))
    <-> x ∈ m \/ (x ∈ map ge_target l /\ x ∉ known_ids g)) as H.
  { induction l as [|e l IH]; intros m seen Hm; simpl; [set_solver|].
    do 2 case_bool_decide; simpl; rewrite IH by set_solver; set_solver. }
  rewrite (H (dg_edges g) [] ∅) by set_solver. set_solver.
Qed.

Lemma leads_edge b g x y : dg_edges g = bd_edges b -> leads b x y -> rtc (edge g) x y.
Proof.
  intros He. unfold leads. induction 1 as [|x y z (e & Hin & Hs & Ht) _ IH]; [done|].
  eapply rtc_l; [|done]. exists e. rewrite He. auto.
Qed.

Lemma built_ids b g : built b -> dg_nodes g = od_values (bd_nodes b) -> known_ids g = od_keys (bd_nodes b).
Proof.
  intros Hb Hn. unfold known_ids. rewrite Hn. unfold od_values, od_keys. rewrite map_map. apply map_ext_in.
  intros [k n] Hin. simpl. apply (bt_ids b Hb). by apply list_elem_of_In.
Qed.

Lemma built_nodes b g x :
  built b -> dg_nodes g = od_values (bd_nodes b) -> has_node b x <-> x ∈ known_ids g.
Proof.
  intros Hb Hn. unfold has_node, od_mem. rewrite (built_ids b g Hb Hn).
  pose proof (od_get_None_keys (bd_nodes b) x) as H. destruct (od_get x (bd_nodes b)); [|set_solver].
  split; [|done]. intros _. destruct (decide (x ∈ od_keys (bd_nodes b))) as [|Hx]; [done|]. by apply H in Hx.
Qed.

(** The closure of the requirements holds what the required objects need. *)
Lemma closure_needs s g r C :
  build s = Ok g -> compute_closure g (resolve_requirements r) = Some C ->
  (forall o, o ∈ ss_objects s -> so_id o ∈ rq_objects r ++ rq_lights r ++ rq_cameras r -> so_id o ∈ C)
  /\ (forall o x, o ∈ ss_objects s -> so_id o ∈ C -> needed o x -> x ∈ C).
Proof.
  intros Hg HC. destruct (build_spec s g Hg) as (b & Hb & Hn & He & Hobj & Hneed).
  destruct (closure_spec g (resolve_requirements r)) as (C' & HC' & Hx). rewrite HC in HC'. injection HC' as <-. split.
  - intros o Ho Hr. apply Hx. exists (so_id o). split; [|done].
    apply (Hobj o), (built_nodes b g _ Hb Hn) in Ho. unfold known_ids in Ho. apply list_elem_of_fmap in Ho as (n & Hid & Hn').
    exists n. split; [done|]. split; [done|]. left. unfold resolve_requirements. set_solver.
  - intros o x Ho (st & Hst & Hr)%Hx Hnd. apply Hx. exists st. split; [done|]. etrans; [done|].
    apply (leads_edge b); [done|]. by apply Hneed.
Qed.

Lemma build_ok s : (forall img, img ∈ ss_images s -> ~ nameless img) -> exists g, build s = Ok g.
Proof.
  intros Himg. pose proof (images_spec (ss_images s) _ (collections_built s)) as Hi.
  unfold build, build_steps. fold (with_collections s).
  destruct (res_fold _ (with_collections s) (ss_images s)); [by eexists|]. destruct Hi as (_ & i & Hin & Hn). by destruct (Himg i Hin).
Qed.

(** A scene with a complete image list has a dependency graph, in which
    identifiers are unique and every edge starts at a node; of the objects a
    report requires the closure contains the nodes, whatever the scene says
    they need -- materials, textures, images, modifiers, actions, assets,
    children, constraint targets, parents, collections -- and in turn what
    those objects need; what is not a node of the scene is reported missing. *)
Theorem required_scene_closed s :
  (forall img, img ∈ ss_images s -> ~ nameless img) ->
  exists g, build s = Ok g /\ NoDup (known_ids g) /\ NoDup (dg_edges g)
    /\ (forall x y, edge g x y -> x ∈ known_ids g)
    /\ forall r, exists C, compute_closure g (resolve_requirements r) = Some C
         /\ (forall o, o ∈ ss_objects s -> so_id o ∈ rq_objects r ++ rq_lights r ++ rq_cameras r -> so_id o ∈ C)
         /\ (forall o x, o ∈ ss_objects s -> so_id o ∈ C -> needed o x -> x ∈ C)
         /\ (forall x, x ∈ C -> x ∈ known_ids g \/ x ∈ find_missing_targets g).
Proof.
  intros Himg. destruct (build_ok s Himg) as [g Hg]. exists g. split; [done|].
  destruct (build_spec s g Hg) as (b & Hb & Hn & He & Hobj & Hneed).
  split; [rewrite (built_ids b g Hb Hn); apply (bt_wf b Hb)|]. split; [rewrite He; apply (bt_edges b Hb)|]. split.
  { intros x y (e & Hin & <- & _). rewrite He in Hin. by apply (built_nodes b g _ Hb Hn), (bt_sources b Hb). }
  intros r. destruct (closure_spec g (resolve_requirements r)) as (C & HC & Hx).
  exists C. split; [done|]. destruct (closure_needs s g r C Hg HC) as [H1 H2]. split; [done|]. split; [done|].
  intros x (st & (n & Hn' & <- & _) & Hr)%Hx.
  assert (gn_identifier n ∈ known_ids g) as Hst by (unfold known_ids; apply list_elem_of_fmap; eauto).
  destruct (rtc_inv_r _ _ Hr) as [<-|(y & _ & e & Hin & _ & <-)]; [by left|].
  destruct (decide (ge_target e ∈ known_ids g)) as [|Hout]; [by left|right].
  apply missing_targets_spec. split; [|done]. apply list_elem_of_fmap. eauto.
Qed.

(** ** A concrete scene *)

Definition cube : scene_object :=
  {| so_id := "obj-1"; so_name := "Cube"; so_type := "MESH"; so_collection := Some "coll-1"%string; so_parent := Some "gone"%string;
     so_children := []; so_constraints := [None]; so_modifiers := ["Bevel"%string];
     so_materials := [{| mi_name := "Wood"; mi_image_textures := ["wood.png"%string] |}];
     so_animation := Some true; so_referenced_assets := ["//lib/tree.blend"%string] |}.

Definition lamp : scene_object :=
  {| so_id := "lamp-1"; so_name := "Wood"; so_type := "LIGHT"; so_collection := None; so_parent := None;
     so_children := []; so_constraints := []; so_modifiers := []; so_materials := []; so_animation := None;
     so_referenced_assets := ["//hdri/sky.hdr"%string] |}.

Definition small_scene : scene_snapshot :=
  {| ss_name := "Shot"; ss_collections := [{| ci_id := "coll-1"; ci_name := "Props" |}]; ss_objects := [cube; lamp];
     ss_images := [{| im_name := Some "wood.png"%string; im_filepath := Some "//tex/wood.png"%string |}] |}.

Definition small_graph : dependency_graph := Eval vm_compute in
  match build small_scene with Ok g => g | Err _ => {| dg_nodes := []; dg_edges := [] |} end.

Definition cube_report (caches materials : list string) : requirement_report :=
  {| rq_objects := ["obj-1"%string]; rq_meshes := []; rq_materials := materials; rq_textures := []; rq_images := []; rq_lights := [];
     rq_cameras := []; rq_libraries := []; rq_simulation_caches := caches |}.

Definition closure_list (r : requirement_report) : option (list string) :=
  isort str_lt ∘ elements <$> compute_closure small_graph (resolve_requirements r).

Lemma required_scene_witness :
  (build small_scene = Ok small_graph /\ find_missing_targets small_graph = ["gone"%string]
   /\ closure_list (cube_report [] []) =
        Some ["action:obj-1"; "asset://lib/tree.blend"; "coll-1"; "gone"; "image:wood.png"; "material:Wood"; "modifier:obj-1:Bevel";
              "obj-1"; "texture:wood.png"]%string)
  /\ exists g, build small_scene = Ok g /\ NoDup (known_ids g).
Proof.
  split; [vm_compute; done|].
  destruct (required_scene_closed small_scene) as (g & Hg & Hn & _).
  - intros img [->|H]%elem_of_cons; [by intros [[=] _]|by apply not_elem_of_nil in H].
  - exists g. split; [exact Hg|exact Hn].
Defined.

(** A requirement that is not a node of the graph is not in the closure,
    although the result is documented to include the original seeds: a
    simulation cache the render needs is never packaged. *)
Example unknown_seed_dropped :
  "cache/smoke.vdb"%string ∈ resolve_requirements (cube_report ["cache/smoke.vdb"%string] [])
  /\ closure_list (cube_report ["cache/smoke.vdb"%string] []) = closure_list (cube_report [] []).
Proof. split; [vm_compute|vm_compute; reflexivity]. done. Qed.

(** The bare name of a required material also matches objects of that name. *)
Example label_collision_pulls_objects :
  closure_list (cube_report [] ["Wood"%string]) =
    Some ["action:obj-1"; "asset://hdri/sky.hdr"; "asset://lib/tree.blend"; "coll-1"; "gone"; "image:wood.png"; "lamp-1";
          "material:Wood"; "modifier:obj-1:Bevel"; "obj-1"; "texture:wood.png"]%string.
Proof. vm_compute. reflexivity. Qed.
