(* ===== verification/Packaging.v ===== *)
(** * Smart packaging ([adapters/blender/packaging])

    [resolver.py] finds the files of a closure, [builder.py] plans, builds and
    publishes a package, [validator.py] checks it.  Paths are lists of
    components; [realpath] is the operating system's.  The project's files are
    a map from real paths to contents.  A package directory is a map from the
    paths below it to contents, with its manifest and its path mapping as the
    values their JSON texts stand for. *)
From S2P Require Export SceneGraph Sha256.

(** ** [models.py] *)

Inductive asset_type :=
| AT_SCENE | AT_MESH | AT_MATERIAL | AT_TEXTURE | AT_IMAGE | AT_HDRI | AT_LIGHT | AT_CAMERA | AT_LIBRARY
| AT_SIMULATION_CACHE | AT_GENERATED | AT_ACTION | AT_MODIFIER | AT_COLLECTION | AT_UNKNOWN.
#[export] Instance asset_type_eq_dec : EqDecision asset_type.
Proof. solve_decision. Defined.

Inductive asset_status := RESOLVED | EMBEDDED | MISSING | AS_GENERATED.
#[export] Instance asset_status_eq_dec : EqDecision asset_status.
Proof. solve_decision. Defined.

Inductive selection_reason := RENDER_REQUIRED | DEPENDENCY | UNKNOWN_DEPENDENCY.

Abbreviation path := (list string).

Record asset_record := {
  ar_asset_id : string;
  ar_asset_type : asset_type;
  ar_selection_reason : selection_reason;
  ar_source_path : option path;
  ar_relative_path : option string;
  ar_package_path : option string;
  ar_status : asset_status;
  ar_sha256 : option string;
  ar_size_bytes : Z;
  ar_embedded : bool;
  ar_conservative : bool;
  ar_dependencies : list string;
}.

Definition with_package_path (p : option string) (r : asset_record) : asset_record :=
  {| ar_asset_id := ar_asset_id r; ar_asset_type := ar_asset_type r; ar_selection_reason := ar_selection_reason r;
     ar_source_path := ar_source_path r; ar_relative_path := ar_relative_path r; ar_package_path := p;
     ar_status := ar_status r; ar_sha256 := ar_sha256 r; ar_size_bytes := ar_size_bytes r; ar_embedded := ar_embedded r;
     ar_conservative := ar_conservative r; ar_dependencies := ar_dependencies r |}.

(** ** Paths *)

Definition upper_ascii (c : ascii) : ascii := if is_lower c then ascii_of_N (N_of_ascii c - 32) else c.
Definition str_upper : string -> string := str_map upper_ascii.

(** The components of a path text; [Path] drops empty ones and dots. *)
Definition parts (s : string) : path := filter (fun c => c <> ""%string /\ c <> "."%string) (split_on "/"%char s).

Fixpoint lstrip_char (c : ascii) (s : string) : string :=
  match s with String d s' => if Ascii.eqb d c then lstrip_char c s' else s | EmptyString => EmptyString end.

(** [base / s]: an absolute text replaces the base. *)
Definition join_path (base : path) (s : string) : path := if starts_with "/" s then parts s else base ++ parts s.

Definition path_name (p : path) : string := default "" (last p).

(** [Path(name).suffix.lower() == suf] *)
Definition has_suffix (suf name : string) : bool :=
  ends_with suf (str_lower name) && bool_decide (String.length suf < String.length name)%nat.

(** [str(path)] of an absolute path. *)
Definition path_text (p : path) : string := "/" +:+ String.concat "/" p.

(** ** Classification ([classify_node], the branches of [resolve]) *)

Definition classify_node (kind : string) : asset_type :=
  od_get_default (str_lower kind) AT_UNKNOWN
    [("object", AT_UNKNOWN); ("material", AT_MATERIAL); ("texture", AT_TEXTURE); ("image", AT_IMAGE); ("modifier", AT_MODIFIER);
     ("action", AT_ACTION); ("asset", AT_LIBRARY); ("collection", AT_COLLECTION)]%string.

(** [partition_closure] *)
Definition partition_closure (closure : gset string) (g : dependency_graph) : list (asset_type * list string) :=
  let type_of nid := match od_get nid (node_index g) with Some n => classify_node (gn_kind n) | None => AT_UNKNOWN end in
  let file_under (d : list (asset_type * list string)) nid :=
    if bool_decide (type_of nid ∈ map fst d)
    then map (fun '(t, l) => (t, if bool_decide (t = type_of nid) then l ++ [nid] else l)) d
    else d ++ [(type_of nid, [nid])] in
  fold_left file_under (isort str_lt (elements closure)) [].

(** Later objects override earlier ones, and a name overrides an identifier. *)
Definition object_type_map (objects : list scene_object) : odict string :=
  fold_left (fun d o => od_set (so_name o) (so_type o) (od_set (so_id o) (so_type o) d)) objects [].

Definition object_asset_type (types : odict string) (n : graph_node) : asset_type :=
  let by_label := od_get_default (gn_label n) "MESH"%string types in
  let t := match od_get (gn_identifier n) types with Some t => if str_truthy t then t else by_label | None => by_label end in
  if String.eqb (str_upper t) "CAMERA" then AT_CAMERA
  else if String.eqb (str_upper t) "LIGHT" then AT_LIGHT
  else if String.eqb (str_upper t) "MESH" then AT_MESH
  else AT_UNKNOWN.

Definition ends_with_any (sufs : list string) (s : string) : bool := existsb (fun suf => ends_with suf s) sufs.

(** The type and, for an external asset, its raw path. *)
Definition classify_known (types : odict string) (n : graph_node) : asset_type * option string :=
  let kind := str_lower (gn_kind n) in
  let label := gn_label n in
  if String.eqb kind "object" then (object_asset_type types n, None)
  else if String.eqb kind "material" then (AT_MATERIAL, None)
  else if String.eqb kind "texture" then (AT_TEXTURE, Some label)
  else if String.eqb kind "image" then (AT_IMAGE, Some label)
  else if String.eqb kind "asset" then
    let l := str_lower label in
    (if ends_with_any [".hdr"; ".exr"] l then AT_HDRI
     else if ends_with_any [".png"; ".jpg"; ".jpeg"; ".tga"; ".dds"; ".tif"; ".tiff"] l then AT_TEXTURE
     else AT_LIBRARY, Some label)
  else if String.eqb kind "modifier" then (AT_MODIFIER, None)
  else if String.eqb kind "action" then (AT_ACTION, None)
  else if String.eqb kind "collection" then (AT_COLLECTION, None)
  else (classify_node kind, None).

(** An identifier that is not a node of the graph. *)
Definition classify_unknown (node_id : string) : asset_type * option string :=
  let l := str_lower node_id in
  if starts_with "material:" node_id then (AT_MATERIAL, None)
  else if starts_with "texture:" node_id then (AT_TEXTURE, Some (str_drop 8 node_id))
  else if starts_with "image:" node_id then (AT_IMAGE, Some (str_drop 6 node_id))
  else if starts_with "asset:" node_id then (AT_LIBRARY, Some (str_drop 6 node_id))
  else if ends_with_any [".blend"; ".png"; ".jpg"; ".jpeg"; ".hdr"; ".exr"; ".vdb"; ".abc"] l then
    (if ends_with ".blend" l then AT_LIBRARY else AT_TEXTURE, Some node_id)
  else (AT_UNKNOWN, None).

(** ** [PhysicalAssetResolver] *)

Section resolver.
Context (realpath : path -> path) (is_dir : path -> bool) (files : gmap path string) (search_paths : list path).

Definition exists_path (p : path) : bool := bool_decide (is_Some (files !! p)) || is_dir p.

(** A relative text is looked up below the base, then below the search paths. *)
Definition look_up (base : path) (clean_rel : string) : path :=
  let candidate := realpath (join_path base clean_rel) in
  if exists_path candidate then candidate
  else default candidate (List.find exists_path (map (fun sp => realpath (join_path sp clean_rel)) search_paths)).

Definition backslash : ascii := ascii_of_N 92.
Definition slashes (s : string) : string := str_map (fun c => if Ascii.eqb c backslash then "/"%char else c) s.

Definition candidate_of (raw : string) (base : path) : path * string :=
  let normalized := slashes raw in
  if starts_with "//" normalized then
    let clean_rel := lstrip_char "/" (str_drop 2 normalized) in (look_up base clean_rel, clean_rel)
  else if starts_with "/" normalized then (realpath (parts normalized), path_name (parts normalized))
  else (look_up base normalized, normalized).

Definition allowed_roots (base : path) : list path := realpath base :: map realpath search_paths.

Definition resolve_path (raw : string) (base : path) (enforce_project_boundary : bool) : res (path * string) :=
  let '(candidate, clean_rel) := candidate_of raw base in
  if enforce_project_boundary && negb (existsb (fun root => bool_decide (root `prefix_of` candidate)) (allowed_roots base)) then
    Err (ValueError ("Security violation: path " +:+ path_text candidate +:+ " escapes allowed project boundaries."))
  else Ok (candidate, clean_rel).

Section scene.
Context (g : dependency_graph) (base : path) (seed_ids : gset string) (types : odict string).

Definition selected_for (node_id : string) (node : option graph_node) : selection_reason :=
  if bool_decide (node_id ∈ seed_ids) || match node with Some n => bool_decide (gn_label n ∈ seed_ids) | None => false end
  then RENDER_REQUIRED else DEPENDENCY.

Definition node_dependencies (node_id : string) : list string :=
  isort str_lt (elements (list_to_set (od_get_default node_id [] (adjacency_of g)) : gset string)).

Definition resolve_node (node_id : string) : res asset_record :=
  let node := od_get node_id (node_index g) in
  let '(type, raw_path) := match node with Some n => classify_known types n | None => classify_unknown node_id end in
  let record source relative package status hash size embedded :=
    {| ar_asset_id := node_id; ar_asset_type := type; ar_selection_reason := selected_for node_id node;
       ar_source_path := source; ar_relative_path := relative; ar_package_path := package; ar_status := status;
       ar_sha256 := hash; ar_size_bytes := size; ar_embedded := embedded; ar_conservative := bool_decide (node = None);
       ar_dependencies := node_dependencies node_id |} in
  match raw_path with
  | None => Ok (record None None None EMBEDDED None 0 true)
  | Some raw =>
      let! found := resolve_path raw base true in
      let '(file, clean_rel) := found in
      match files !! file with
      | Some content =>
          let hash := sha256 content in
          let package := "assets/" +:+ str_take 8 hash +:+ "_" +:+ path_name file in
          Ok (record (Some file) (Some clean_rel) (Some package) RESOLVED (Some hash) (str_len content) false)
      | None => Ok (record (Some file) (Some clean_rel) None MISSING None 0 false)
      end
  end.

Definition resolve_all (ids : list string) : res (list asset_record) :=
  foldr (fun nid rest => let! r := resolve_node nid in let! rs := rest in Ok (r :: rs)) (Ok []) ids.

(** [PhysicalAssetResolver.resolve] *)
Definition resolve (closure : gset string) : res (list asset_record) := resolve_all (isort str_lt (elements closure)).
End scene.
End resolver.

(** ** [PackagePlanner] *)

Record package_statistics := {
  pst_total_assets : Z; pst_resolved_assets : Z; pst_embedded_assets : Z; pst_missing_assets : Z; pst_duplicate_assets : Z;
  pst_original_size_bytes : Z; pst_package_size_bytes : Z; pst_reduction_percent : float;
}.

Record package_plan := {
  pp_package_id : string; pp_scene_name : string; pp_camera : string; pp_frame_start : Z; pp_frame_end : Z;
  pp_all_assets : list asset_record; pp_deduplicated_assets : list asset_record; pp_missing_assets : list asset_record;
  pp_statistics : package_statistics;
}.

Definition asset_lt (a b : asset_record) : bool := str_lt (ar_asset_id a) (ar_asset_id b).
Definition of_status (s : asset_status) (l : list asset_record) : list asset_record := filter (fun r => ar_status r = s) l.

(** The loop over the resolved records: [seen] maps a digest to the package
    path of its canonical record.  A duplicate is the same object in
    [all_assets], so its new package path shows there. *)
Fixpoint deduplicate (seen : odict (option string)) (l : list asset_record) : list asset_record * list asset_record :=
  match l with
  | [] => ([], [])
  | r :: l =>
      if negb (bool_decide (ar_status r = RESOLVED)) then let '(all, kept) := deduplicate seen l in (r :: all, kept)
      else match ar_sha256 r with
      | None => let '(all, kept) := deduplicate seen l in (r :: all, r :: kept)
      | Some h =>
          match od_get h seen with
          | None => let '(all, kept) := deduplicate (od_set h (ar_package_path r) seen) l in (r :: all, r :: kept)
          | Some p => let '(all, kept) := deduplicate seen l in (with_package_path p r :: all, kept)
          end
      end
  end.

Definition total_size (l : list asset_record) : Z := sumZ (map ar_size_bytes l).

Definition statistics_of (all kept : list asset_record) : package_statistics :=
  let count s := Z.of_nat (length (of_status s all)) in
  let original := total_size (of_status RESOLVED all) in
  let package := total_size kept in
  {| pst_total_assets := Z.of_nat (length all); pst_resolved_assets := count RESOLVED; pst_embedded_assets := count EMBEDDED;
     pst_missing_assets := count MISSING; pst_duplicate_assets := count RESOLVED - Z.of_nat (length kept);
     pst_original_size_bytes := original; pst_package_size_bytes := package;
     pst_reduction_percent := if 0 <? original then fmul (fdivZ (original - package) original) (f_of_Z 100) else f0 |}.

Definition create_plan (asset_records : list asset_record) (package_id scene_name camera : string) (frame_start frame_end : Z)
    : package_plan :=
  let '(all, kept) := deduplicate [] (isort asset_lt asset_records) in
  {| pp_package_id := package_id; pp_scene_name := scene_name; pp_camera := camera; pp_frame_start := frame_start;
     pp_frame_end := frame_end; pp_all_assets := all; pp_deduplicated_assets := isort asset_lt kept;
     pp_missing_assets := isort asset_lt (of_status MISSING all); pp_statistics := statistics_of all kept |}.

(** ** Packages *)

Record package := {
  pk_files : gmap path string;
  pk_mapping : option (odict string);
  pk_manifest : option (list asset_record);
}.
Abbreviation dirs := (gmap string package).
Definition empty_package : package := {| pk_files := ∅; pk_mapping := None; pk_manifest := None |}.
Definition pack_file (p : path) (content : string) (pk : package) : package :=
  {| pk_files := <[p := content]> (pk_files pk); pk_mapping := pk_mapping pk; pk_manifest := pk_manifest pk |}.
Definition put_mapping (m : odict string) (pk : package) : package :=
  {| pk_files := pk_files pk; pk_mapping := Some m; pk_manifest := pk_manifest pk |}.
Definition put_manifest (m : list asset_record) (pk : package) : package :=
  {| pk_files := pk_files pk; pk_mapping := pk_mapping pk; pk_manifest := Some m |}.

(** The real path below the package directory [here], if it is below it. *)
Definition below (here p : path) : option path :=
  if bool_decide (here `prefix_of` p) then Some (drop (length here) p) else None.

(** What the system refuses while a package is built: the write of a path
    below the package, of the mapping, of the manifest. *)
Record build_env := {
  be_write : path -> option exn;
  be_mapping : option exn;
  be_manifest : option exn;
}.

(** The external program run with the remap script: the scene it leaves. *)
Definition blender := odict string -> string -> res string.

Section builder.
Context (realpath : path -> path) (is_dir : path -> bool) (files : gmap path string).

(** A package path below the directory, as the system resolves it. *)
Definition locate (here : path) (package_path : string) : option path :=
  below (realpath here) (realpath (join_path here package_path)).

Definition scene_path (here : path) (scene_name : string) : option path :=
  below (realpath here) (realpath (join_path (here ++ ["scene"%string]) (scene_name +:+ ".blend"))).

(** A write outside the package directory leaves the package as it is. *)
Definition write (e : build_env) (dst : option path) (content : string) (pk : package) : package * res unit :=
  match dst with
  | None => (pk, Ok tt)
  | Some p => match be_write e p with Some x => (pk, Err x) | None => (pack_file p content pk, Ok tt) end
  end.

Definition after_colon (s : string) : string := match split_once ":"%char s with Some (_, t) => t | None => s end.

Definition map_record (source : path) (package_path : string) (r : asset_record) (m : odict string) : odict string :=
  let new_path := "//../" +:+ package_path in
  let m := od_set (path_text (realpath source)) new_path m in
  let m := match ar_relative_path r with Some rel => od_set rel new_path (od_set (slashes rel) new_path m) | None => m end in
  od_set (after_colon (ar_asset_id r)) new_path m.

(** One turn of the copying loop. *)
Definition copy_record (e : build_env) (here : path) (r : asset_record) (s : package * odict string)
    : (package * odict string) * res unit :=
  let '(pk, m) := s in
  match ar_status r, ar_source_path r, ar_package_path r with
  | RESOLVED, Some src, Some pp =>
      if str_truthy pp then
        let m := map_record src pp r m in
        match files !! realpath src with
        | Some content => let '(pk, x) := write e (locate here pp) content pk in ((pk, m), x)
        | None => ((pk, m), Ok tt)
        end
      else (s, Ok tt)
  | _, _, _ => (s, Ok tt)
  end.

Fixpoint copy_records (e : build_env) (here : path) (l : list asset_record) (s : package * odict string)
    : (package * odict string) * res unit :=
  match l with
  | [] => (s, Ok tt)
  | r :: l => match copy_record e here r s with (s, Ok _) => copy_records e here l s | (s, Err x) => (s, Err x) end
  end.

(** The scene file is copied and remapped; another suffix is ignored. *)
Definition copy_scene (e : build_env) (here : path) (scene_name : string) (source : option path) (b : option blender)
    (m : odict string) (pk : package) : package * res unit :=
  match source with
  | None => (pk, Ok tt)
  | Some src =>
      if has_suffix ".blend" (path_name src) then
        match files !! realpath src with
        | None => if is_dir (realpath src) then (pk, Err (OSError "Is a directory")) else (pk, Ok tt)
        | Some content =>
            match write e (scene_path here scene_name) content pk with
            | (pk, Err x) => (pk, Err x)
            | (pk, Ok _) =>
                match b with
                | None => (pk, Ok tt)
                | Some run =>
                    match be_mapping e with
                    | Some x => (pk, Err x)
                    | None =>
                        let pk := put_mapping m pk in
                        match run m content with
                        | Err _ => (pk, Err (RuntimeError "Blender path remapping failed"))
                        | Ok remapped =>
                            (match scene_path here scene_name with Some p => pack_file p remapped pk | None => pk end, Ok tt)
                        end
                    end
                end
            end
        end
      else (pk, Ok tt)
  end.

(** [PackagePlan.to_dict]: the assets in order of their identifiers. *)
Definition manifest_of (plan : package_plan) : list asset_record := isort asset_lt (pp_all_assets plan).

Definition build_package (e : build_env) (here : path) (plan : package_plan) (source : option path) (b : option blender)
    : package * res unit :=
  match copy_records e here (pp_deduplicated_assets plan) (empty_package, [] : odict string) with
  | ((pk, _), Err x) => (pk, Err x)
  | ((pk, m), Ok _) =>
      match copy_scene e here (pp_scene_name plan) source b m pk with
      | (pk, Err x) => (pk, Err x)
      | (pk, Ok _) =>
          match be_manifest e with
          | Some x => (pk, Err x)
          | None => (put_manifest (manifest_of plan) pk, Ok tt)
          end
      end
  end.

(** ** [PackageValidator] *)

Record integrity_result := {
  pi_verified : bool; pi_asset_count : Z; pi_verified_count : Z; pi_failed_assets : list string; pi_missing_assets : list string;
}.

Inductive asset_check := Verified | Failed | Absent.

Definition check_asset (here : path) (package_path digest : string) (pk : package) : asset_check :=
  match p ← locate here package_path; pk_files pk !! p with
  | None => Absent
  | Some content => if String.eqb (sha256 content) digest then Verified else Failed
  end.

Definition present (o : option string) : bool := match o with Some s => str_truthy s | None => false end.

(** The records that must be there physically. *)
Definition is_target (r : asset_record) : bool :=
  bool_decide (ar_status r = RESOLVED) && present (ar_package_path r) && present (ar_sha256 r).

Definition record_check (here : path) (pk : package) (r : asset_record) : asset_check :=
  check_asset here (default "" (ar_package_path r)) (default "" (ar_sha256 r)) pk.

#[export] Instance asset_check_eq_dec : EqDecision asset_check.
Proof. solve_decision. Defined.

Definition checked (here : path) (pk : package) (c : asset_check) (l : list asset_record) : list asset_record :=
  filter (fun r => record_check here pk r = c) l.

Definition asset_tally (here : path) (pk : package) (targets : list asset_record) : integrity_result :=
  let failed := checked here pk Failed targets in
  let missing := checked here pk Absent targets in
  let verified := checked here pk Verified targets in
  {| pi_verified := bool_decide (failed = []) && bool_decide (missing = [])
       && bool_decide (length verified = length targets);
     pi_asset_count := Z.of_nat (length targets); pi_verified_count := Z.of_nat (length verified);
     pi_failed_assets := isort str_lt (map ar_asset_id failed); pi_missing_assets := isort str_lt (map ar_asset_id missing) |}.

Definition also_missing (name : string) (r : integrity_result) : integrity_result :=
  {| pi_verified := false; pi_asset_count := pi_asset_count r; pi_verified_count := pi_verified_count r;
     pi_failed_assets := pi_failed_assets r; pi_missing_assets := isort str_lt (pi_missing_assets r ++ [name]) |}.
Definition also_failed (name : string) (r : integrity_result) : integrity_result :=
  {| pi_verified := false; pi_asset_count := pi_asset_count r; pi_verified_count := pi_verified_count r;
     pi_failed_assets := isort str_lt (pi_failed_assets r ++ [name]); pi_missing_assets := pi_missing_assets r |}.

(** The external program run with the verification script on the scene. *)
Definition verifier := string -> option string.

Definition validate (here : path) (plan : package_plan) (v : option verifier) (pk : package) : integrity_result :=
  let r := asset_tally here pk (filter (fun r => is_target r = true) (pp_deduplicated_assets plan)) in
  match p ← scene_path here (pp_scene_name plan); pk_files pk !! p with
  | None => also_missing ("scene/" +:+ pp_scene_name plan +:+ ".blend") r
  | Some blend =>
      match v with
      | Some run =>
          if pi_verified r then match run blend with Some why => also_failed why r | None => r end else r
      | None => r
      end
  end.

(** The first entry for every package path. *)
Fixpoint unique_paths (seen : gset string) (l : list asset_record) : list asset_record :=
  match l with
  | [] => []
  | r :: l =>
      let pp := default "" (ar_package_path r) in
      if bool_decide (pp ∈ seen) then unique_paths seen l else r :: unique_paths ({[pp]} ∪ seen) l
  end.

Definition validate_manifest (here : path) (pk : package) : res integrity_result :=
  match pk_manifest pk with
  | None => Err FileNotFoundError
  | Some assets =>
      Ok (asset_tally here pk (unique_paths ∅ (filter (fun r => is_target r = true /\ ar_embedded r = false) assets)))
  end.

(** ** [build_and_validate]: publication

    The package directories beside the final one are a map from names. *)

Record rm_failure := { rm_exn : exn; rm_left : package }.

Record publish_env := {
  pe_build : build_env;
  pe_tmp : string;
  pe_backup : string;
  pe_rm_stale : option rm_failure;
  pe_rename_old : option exn;
  pe_rename_new : option exn;
  pe_rollback : option exn;
  pe_rm_backup : option rm_failure;
  pe_rm_tmp : option rm_failure;
}.

Definition rmtree (fails : option rm_failure) (name : string) (d : dirs) : dirs * res unit :=
  match fails with Some f => (<[name := rm_left f]> d, Err (rm_exn f)) | None => (delete name d, Ok tt) end.

Definition rename (fails : option exn) (old new : string) (d : dirs) : dirs * res unit :=
  match fails, d !! old with
  | Some x, _ => (d, Err x)
  | None, Some pk => (<[new := pk]> (delete old d), Ok tt)
  | None, None => (d, Err FileNotFoundError)
  end.

(** [f(); g()] on the directories. *)
Definition and_then (r : dirs * res unit) (k : dirs -> dirs * res unit) : dirs * res unit :=
  match r with (d, Err x) => (d, Err x) | (d, Ok _) => k d end.

(** The new directory takes the place of the old one, or the old one comes back. *)
Definition install (e : publish_env) (final : string) (d : dirs) : dirs * res unit :=
  match rename (pe_rename_new e) (pe_tmp e) final d with
  | (d, Ok _) => rmtree (pe_rm_backup e) (pe_backup e) d
  | (d, Err x) => match rename (pe_rollback e) (pe_backup e) final d with (d, Ok _) => (d, Err x) | r => r end
  end.

Definition publish (e : publish_env) (final : string) (d : dirs) : dirs * res unit :=
  match d !! final with
  | None => rename (pe_rename_new e) (pe_tmp e) final d
  | Some _ =>
      and_then (match d !! pe_backup e with Some _ => rmtree (pe_rm_stale e) (pe_backup e) d | None => (d, Ok tt) end) (fun d =>
      and_then (rename (pe_rename_old e) final (pe_backup e) d) (install e final))
  end.

(** [finally: if tmp_dir.exists(): rmtree(tmp_dir)] *)
Definition clean_tmp {A} (e : publish_env) (d : dirs) (r : res A) : dirs * res A :=
  match d !! pe_tmp e with
  | None => (d, r)
  | Some _ => match rmtree (pe_rm_tmp e) (pe_tmp e) d with (d, Err x) => (d, Err x) | (d, Ok _) => (d, r) end
  end.

Definition build_and_validate (e : publish_env) (parent : path) (plan : package_plan) (final : string) (source : option path)
    (b : option blender) (v : option verifier) (d : dirs) : dirs * res integrity_result :=
  let here := parent ++ [pe_tmp e] in
  let '(pk, built) := build_package (pe_build e) here plan source b in
  let d := <[pe_tmp e := pk]> d in
  match built with
  | Err x => clean_tmp e d (Err x)
  | Ok _ =>
      let report := validate here plan v pk in
      if pi_verified report then
        match publish e final d with
        | (d, Err x) => clean_tmp e d (Err x)
        | (d, Ok _) => clean_tmp e d (Ok report)
        end
      else clean_tmp e d (Err (RuntimeError "Package validation failed."))
  end.
End builder.
