(* ===== verification/PackagingProps.v ===== *)
(** * Packages are complete, intact and published atomically *)
From S2P Require Export Packaging SceneGraphProps.

(** ** Resolution *)

Section resolution.
Context (realpath : path -> path) (is_dir : path -> bool) (files : gmap path string) (search_paths : list path).
Context (g : dependency_graph) (base : path) (seed_ids : gset string) (types : odict string).

#[local] Abbreviation resolve_node := (resolve_node realpath is_dir files search_paths g base seed_ids types).
#[local] Abbreviation resolve := (resolve realpath is_dir files search_paths g base seed_ids types).
#[local] Abbreviation roots := (allowed_roots realpath search_paths base).

(** The raw path of a node, if it stands for an external file. *)
Definition raw_path_of (nid : string) : option string :=
  snd (match od_get nid (node_index g) with Some n => classify_known types n | None => classify_unknown nid end).

Definition confined (p : path) : Prop := exists root, root ∈ roots /\ root `prefix_of` p.

(** What a record says of the file system. *)
Definition faithful (r : asset_record) : Prop :=
  match raw_path_of (ar_asset_id r) with
  | None => ar_status r = EMBEDDED /\ ar_source_path r = None /\ ar_package_path r = None /\ ar_sha256 r = None
  | Some raw =>
      exists p, p = fst (candidate_of realpath is_dir files search_paths raw base) /\ ar_source_path r = Some p /\ confined p /\
        match files !! p with
        | Some content =>
            ar_status r = RESOLVED /\ ar_sha256 r = Some (sha256 content) /\ ar_size_bytes r = str_len content
            /\ ar_package_path r = Some ("assets/" +:+ str_take 8 (sha256 content) +:+ "_" +:+ path_name p)
        | None => ar_status r = MISSING /\ ar_sha256 r = None /\ ar_package_path r = None
        end
  end.

Lemma existsb_roots p : existsb (fun root => bool_decide (root `prefix_of` p)) roots = true <-> confined p.
Proof.
  unfold confined. rewrite existsb_exists. split.
  - intros (root & H%list_elem_of_In & Hp%bool_decide_eq_true). eauto.
  - intros (root & H%list_elem_of_In & Hp). exists root. split; [done|]. by apply bool_decide_eq_true.
Qed.

Lemma resolve_node_spec nid :
  match resolve_node nid with
  | Ok r => ar_asset_id r = nid /\ faithful r
  | Err e => (exists m, e = ValueError m) /\ exists raw, raw_path_of nid = Some raw
      /\ ~ confined (fst (candidate_of realpath is_dir files search_paths raw base))
  end.
Proof.
  unfold Packaging.resolve_node, faithful. unfold raw_path_of.
  destruct (match od_get nid (node_index g) with Some n => classify_known types n | None => classify_unknown nid end)
    as [ty [raw|]] eqn:Ec; simpl; [|by rewrite Ec].
  unfold resolve_path. destruct (candidate_of realpath is_dir files search_paths raw base) as [p rel] eqn:Ep.
  pose proof (existsb_roots p) as Hr. unfold existsb, allowed_roots in Hr |- *. simpl.
  destruct (_ || _) eqn:Eb; simpl.
  - destruct (files !! p) as [content|] eqn:Ef; simpl; rewrite Ec; (split; [done|]); simpl; exists p; rewrite Ep, Ef.
    + split; [done|]. split; [done|]. split; [by apply Hr|done].
    + split; [done|]. split; [done|]. split; [by apply Hr|done].
  - split; [by eexists|]. exists raw. rewrite Ep. split; [done|]. simpl. rewrite <- Hr. congruence.
Qed.

Lemma resolve_all_spec ids :
  match resolve_all realpath is_dir files search_paths g base seed_ids types ids with
  | Ok rs => map ar_asset_id rs = ids /\ Forall faithful rs
  | Err e => (exists m, e = ValueError m) /\ exists nid raw, nid ∈ ids /\ raw_path_of nid = Some raw
      /\ ~ confined (fst (candidate_of realpath is_dir files search_paths raw base))
  end.
Proof.
  induction ids as [|nid ids IH]; [done|]. cbn [resolve_all foldr].
  pose proof (resolve_node_spec nid) as Hn. destruct (resolve_node nid) as [r|e]; simpl.
  - unfold resolve_all in IH. destruct (foldr _ (Ok []) ids) as [rs|e]; simpl.
    + destruct Hn as [Hid Hf], IH as [Hids Hfs]. split; [by rewrite Hid, Hids|by constructor].
    + destruct IH as (He & nid' & raw & H1 & H2 & H3). split; [done|]. exists nid', raw. split; [by right|done].
  - destruct Hn as (He & raw & H1 & H2). split; [done|]. exists nid, raw. split; [by left|done].
Qed.

Lemma resolve_spec closure :
  match resolve closure with
  | Ok rs => map ar_asset_id rs = isort str_lt (elements closure) /\ Forall faithful rs
  | Err e => (exists m, e = ValueError m) /\ exists nid raw, nid ∈ closure /\ raw_path_of nid = Some raw
      /\ ~ confined (fst (candidate_of realpath is_dir files search_paths raw base))
  end.
Proof.
  unfold Packaging.resolve. pose proof (resolve_all_spec (isort str_lt (elements closure))) as H.
  destruct (resolve_all _ _ _ _ _ _ _ _ _); [done|]. destruct H as (He & nid & raw & Hin & H). split; [done|].
  exists nid, raw. split; [|done]. by apply isort_elem, elem_of_elements in Hin.
Qed.
End resolution.

(** Resolution drops nothing and looks nowhere else: it returns one record
    for each identifier of the closure, in order, each embedded, or resolved
    with the digest and the size of its file, or flagged missing, and every
    file it names lies below the project or a search path; it raises only when
    the path of some asset escapes them. *)
Theorem resolution_complete realpath is_dir files search_paths g base seed_ids types closure :
  match resolve realpath is_dir files search_paths g base seed_ids types closure with
  | Ok rs => map ar_asset_id rs = isort str_lt (elements closure)
      /\ Forall (faithful realpath is_dir files search_paths g base types) rs
  | Err e => (exists m, e = ValueError m) /\ exists nid raw, nid ∈ closure /\ raw_path_of g types nid = Some raw
      /\ ~ confined realpath search_paths base (fst (candidate_of realpath is_dir files search_paths raw base))
  end.
Proof. apply resolve_spec. Qed.

(** ** Deduplication *)

Lemma with_package_path_id r p : ar_asset_id (with_package_path p r) = ar_asset_id r.
Proof. done. Qed.

Definition digests (l : list asset_record) : list string := omap ar_sha256 l.

Record deduplicated (seen : odict (option string)) (l all kept : list asset_record) : Prop := {
  dd_same : map (with_package_path None) all = map (with_package_path None) l;
  dd_kept : kept `sublist_of` of_status RESOLVED l;
  dd_in_all : forall k, k ∈ kept -> k ∈ all;
  dd_fresh : forall h, h ∈ digests kept -> od_get h seen = None;
  dd_distinct : NoDup (digests kept);
  dd_canonical : forall r h, r ∈ all -> ar_status r = RESOLVED -> ar_sha256 r = Some h ->
    od_get h seen = Some (ar_package_path r)
    \/ exists k, k ∈ kept /\ ar_sha256 k = Some h /\ ar_package_path k = ar_package_path r;
  dd_undigested : forall r, r ∈ all -> ar_status r = RESOLVED -> ar_sha256 r = None -> r ∈ kept;
}.

Lemma deduplicated_other seen r l all kept :
  ar_status r <> RESOLVED -> deduplicated seen l all kept -> deduplicated seen (r :: l) (r :: all) kept.
Proof.
  intros Hs []. split; simpl; try done.
  - by rewrite dd_same0.
  - unfold of_status. rewrite filter_cons, decide_False by done. done.
  - intros k Hk. right. auto.
  - intros r' h [->|Hr]%elem_of_cons; [done|auto].
  - intros r' [->|Hr]%elem_of_cons; [done|auto].
Qed.

Lemma deduplicated_undigested seen r l all kept :
  ar_status r = RESOLVED -> ar_sha256 r = None -> deduplicated seen l all kept ->
  deduplicated seen (r :: l) (r :: all) (r :: kept).
Proof.
  intros Hs Hh []. split; simpl.
  - by rewrite dd_same0.
  - unfold of_status. rewrite filter_cons, decide_True by done. by constructor.
  - intros k [->|Hk]%elem_of_cons; [by left|right; auto].
  - unfold digests. simpl. rewrite Hh. done.
  - unfold digests. simpl. rewrite Hh. done.
  - intros r' h [->|Hr]%elem_of_cons H1 H2; [congruence|].
    destruct (dd_canonical0 r' h Hr H1 H2) as [H|(k & Hk & H)]; [by left|right]. exists k. split; [by right|done].
  - intros r' [->|Hr]%elem_of_cons H1 H2; [by left|right; auto].
Qed.

Lemma deduplicated_duplicate seen r l all kept h p :
  ar_status r = RESOLVED -> ar_sha256 r = Some h -> od_get h seen = Some p -> deduplicated seen l all kept ->
  deduplicated seen (r :: l) (with_package_path p r :: all) kept.
Proof.
  intros Hs Hh Hp []. split; simpl; try done.
  - by rewrite dd_same0.
  - unfold of_status. rewrite filter_cons, decide_True by done. by constructor.
  - intros k Hk. right. auto.
  - intros r' h' [->|Hr]%elem_of_cons H1 H2; [|auto]. simpl in *. left. congruence.
  - intros r' [->|Hr]%elem_of_cons H1 H2; [simpl in H2; congruence|auto].
Qed.

Lemma deduplicated_canonical seen r l all kept h :
  ar_status r = RESOLVED -> ar_sha256 r = Some h -> od_get h seen = None ->
  deduplicated (od_set h (ar_package_path r) seen) l all kept ->
  deduplicated seen (r :: l) (r :: all) (r :: kept).
Proof.
  intros Hs Hh Hp []. assert (digests (r :: kept) = h :: digests kept) as Hd by (unfold digests; simpl; by rewrite Hh).
  split.
  - simpl. by rewrite dd_same0.
  - unfold of_status. rewrite filter_cons, decide_True by done. by constructor.
  - intros k [->|Hk]%elem_of_cons; [by left|right; auto].
  - rewrite Hd. intros h' [->|Hin]%elem_of_cons; [done|]. pose proof (dd_fresh0 h' Hin) as Hf.
    rewrite od_get_set in Hf. by destruct (String.eqb h' h).
  - rewrite Hd. constructor; [|done]. intros Hin. pose proof (dd_fresh0 h Hin) as Hf. by rewrite od_get_set_eq in Hf.
  - intros r' h' [->|Hr]%elem_of_cons H1 H2.
    + right. exists r. split; [by left|]. split; [done|]. done.
    + destruct (dd_canonical0 r' h' Hr H1 H2) as [H|(k & Hk & H)].
      * rewrite od_get_set in H. destruct (String.eqb_spec h' h) as [->|]; [|by left].
        right. exists r. split; [by left|]. split; [done|congruence].
      * right. exists k. split; [by right|done].
  - intros r' [->|Hr]%elem_of_cons H1 H2; [by left|right; auto].
Qed.

Lemma deduplicate_spec l seen : deduplicated seen l (deduplicate seen l).1 (deduplicate seen l).2.
Proof.
  revert seen. induction l as [|r l IH]; intros seen; cbn [deduplicate].
  { split; simpl; intros; try set_solver; constructor. }
  case_bool_decide as Hs; simpl.
  - destruct (ar_sha256 r) as [h|] eqn:Eh; [destruct (od_get h seen) as [p|] eqn:Eg|].
    + specialize (IH seen). destruct (deduplicate seen l). by eapply deduplicated_duplicate.
    + specialize (IH (od_set h (ar_package_path r) seen)). destruct (deduplicate _ l). by eapply deduplicated_canonical.
    + specialize (IH seen). destruct (deduplicate seen l). by apply deduplicated_undigested.
  - specialize (IH seen). destruct (deduplicate seen l). by apply deduplicated_other.
Qed.

Lemma sublist_elem {A} (l k : list A) x : l `sublist_of` k -> x ∈ l -> x ∈ k.
Proof. induction 1; set_solver. Qed.

Lemma total_size_sublist l k :
  l `sublist_of` k -> (forall r, r ∈ k -> 0 <= ar_size_bytes r) -> total_size l <= total_size k.
Proof.
  unfold total_size. induction 1 as [|r l k _ IH|r l k _ IH]; intros Hn; simpl; [done| |].
  - specialize (IH (fun x Hx => Hn x ltac:(set_solver))). lia.
  - specialize (IH (fun x Hx => Hn x ltac:(set_solver))). pose proof (Hn r ltac:(set_solver)). lia.
Qed.

Lemma asset_not_gt_trans a b c : not_gt asset_lt a b -> not_gt asset_lt b c -> not_gt asset_lt a c.
Proof.
  unfold not_gt, asset_lt. intros H1 H2. destruct (str_lt (ar_asset_id c) (ar_asset_id a)) eqn:E; [|done]. exfalso.
  destruct (decide (ar_asset_id a = ar_asset_id b)) as [Heq|Hne]; [rewrite Heq in E; congruence|].
  pose proof (str_lt_trans _ _ _ E (str_lt_total _ _ (fun e => Hne (eq_sym e)) H1)). congruence.
Qed.

Lemma asset_order_unique l l' :
  Permutation l l' -> NoDup (map ar_asset_id l) -> isort asset_lt l = isort asset_lt l'.
Proof.
  intros Hp Hn.
  assert (forall l, StronglySorted (not_gt asset_lt) (isort asset_lt l)) as Hs.
  { intros k. apply isort_strongly_sorted; [intros a b; apply str_lt_asym|apply asset_not_gt_trans]. }
  apply (StronglySorted_unique_strong (not_gt asset_lt)); [|done..|by rewrite !isort_perm].
  intros x y Hx%isort_elem Hy%isort_elem H1 H2. rewrite <- Hp in Hy.
  assert (ar_asset_id x = ar_asset_id y) as Heq.
  { destruct (decide (ar_asset_id x = ar_asset_id y)) as [|Hne]; [done|].
    pose proof (str_lt_total _ _ (fun e => Hne (eq_sym e)) H1). unfold not_gt, asset_lt in H2. congruence. }
  apply list_elem_of_lookup in Hx as [i Hi], Hy as [j Hj].
  assert (i = j) as ->; [|congruence].
  apply (NoDup_lookup (map ar_asset_id l) i j (ar_asset_id x)); [done| |]; rewrite list_lookup_fmap;
    [by rewrite Hi|rewrite Hj; simpl; congruence].
Qed.

Lemma of_status_same s l l' :
  map (with_package_path None) l = map (with_package_path None) l' ->
  map (with_package_path None) (of_status s l) = map (with_package_path None) (of_status s l').
Proof.
  revert l'. induction l as [|r l IH]; intros [|r' l'] H; try done. simpl in H. injection H as Hid Hty Hsel Hsrc Hrel Hst Hsha Hsz Hemb Hcon Hdep Hl.
  unfold of_status in *. rewrite !filter_cons, Hst.
  destruct (decide (ar_status r' = s)); simpl; [|by apply IH]. f_equal; [|by apply IH].
  unfold with_package_path. congruence.
Qed.

(** A plan keeps every record, only redirecting duplicates; it keeps one
    record per digest, and each resolved record shares its package path with
    the kept record of its digest; the statistics add up and deduplication
    never grows the package; the order in which the records were found does
    not matter when their identifiers are distinct. *)
Theorem plan_correct records id scene camera a b :
  let plan := create_plan records id scene camera a b in
  let st := pp_statistics plan in
  Permutation (map (with_package_path None) (pp_all_assets plan)) (map (with_package_path None) records)
  /\ (forall k, k ∈ pp_deduplicated_assets plan -> k ∈ pp_all_assets plan /\ ar_status k = RESOLVED /\ k ∈ records)
  /\ NoDup (digests (pp_deduplicated_assets plan))
  /\ (forall r h, r ∈ pp_all_assets plan -> ar_status r = RESOLVED -> ar_sha256 r = Some h ->
        exists k, k ∈ pp_deduplicated_assets plan /\ ar_sha256 k = Some h /\ ar_package_path k = ar_package_path r)
  /\ (forall r, r ∈ pp_missing_assets plan <-> r ∈ pp_all_assets plan /\ ar_status r = MISSING)
  /\ pst_resolved_assets st = Z.of_nat (length (pp_deduplicated_assets plan)) + pst_duplicate_assets st
  /\ ((forall r, r ∈ records -> 0 <= ar_size_bytes r) -> pst_package_size_bytes st <= pst_original_size_bytes st)
  /\ (forall records', Permutation records records' -> NoDup (map ar_asset_id records) ->
        create_plan records' id scene camera a b = plan).
Proof.
  cbv zeta. unfold create_plan at 1 2 3 4 5 6 7 8 9 10 11 12 13.
  pose proof (deduplicate_spec (isort asset_lt records) []) as [Hsame Hkept Hall _ Hdis Hcan Hund].
  destruct (deduplicate [] (isort asset_lt records)) as [all kept] eqn:E.
  cbn [fst snd pp_all_assets pp_deduplicated_assets pp_missing_assets pp_statistics statistics_of pst_resolved_assets
       pst_duplicate_assets pst_package_size_bytes pst_original_size_bytes] in *.
  split; [rewrite Hsame; apply Permutation_map, isort_perm|].
  split; [intros k Hk%isort_elem; split; [by apply Hall|]|].
  { pose proof (sublist_elem _ _ _ Hkept Hk) as [H1 H2]%list_elem_of_filter. split; [done|]. by apply isort_elem in H2. }
  split; [|split].
  - eapply NoDup_Permutation_proper; [|exact Hdis]. unfold digests. by rewrite isort_perm.
  - intros r h Hr Hs Hh. destruct (Hcan r h Hr Hs Hh) as [H|(k & Hk & H)]; [done|]. exists k. split; [by apply isort_elem|done].
  - split; [intros r; rewrite isort_elem; unfold of_status; rewrite list_elem_of_filter; tauto|].
    split; [rewrite isort_length; lia|]. split.
    + intros Hn. etrans; [apply (total_size_sublist _ _ Hkept)|].
      { intros r [_ Hr%isort_elem]%list_elem_of_filter. auto. }
      apply Z.eq_le_incl. pose proof (of_status_same RESOLVED _ _ Hsame) as Ho. unfold total_size.
      apply (f_equal (map ar_size_bytes)) in Ho. rewrite !map_map in Ho. exact (f_equal sumZ (eq_sym Ho)).
    + intros records' Hp Hn. unfold create_plan. by rewrite <- (asset_order_unique _ _ Hp Hn), E.
Qed.

(** ** Verification *)

Lemma sha256_truthy data : str_truthy (sha256 data) = true.
Proof. pose proof (sha256_length data) as H. by destruct (sha256 data). Qed.

Lemma filter_all {A} (P : A -> Prop) `{!forall x, Decision (P x)} (l : list A) : (forall x, x ∈ l -> P x) -> filter P l = l.
Proof.
  induction l as [|x l IH]; intros Hp; [done|]. rewrite filter_cons, decide_True by (apply Hp; by left).
  f_equal. apply IH. intros y Hy. apply Hp. by right.
Qed.

Section checks.
Context (realpath : path -> path) (is_dir : path -> bool) (files : gmap path string).

#[local] Abbreviation record_check := (record_check realpath).
#[local] Abbreviation asset_tally := (asset_tally realpath).
#[local] Abbreviation locate := (locate realpath).
#[local] Abbreviation scene_path := (scene_path realpath).
#[local] Abbreviation validate := (validate realpath).

(** A file of the package. *)
Definition packaged (here : path) (pk : package) (pp : string) : option string := p ← locate here pp; pk_files pk !! p.

Lemma checked_length here pk c l : (length (checked realpath here pk c l) <= length l)%nat.
Proof. apply length_filter. Qed.

Lemma tally_verified here pk targets :
  pi_verified (asset_tally here pk targets) = true <-> forall r, r ∈ targets -> record_check here pk r = Verified.
Proof.
  simpl. rewrite !andb_true_iff, !bool_decide_eq_true. split.
  - intros [[Hf Hm] _] r Hr. destruct (record_check here pk r) eqn:E; [done|exfalso..].
    + eapply not_elem_of_nil. rewrite <- Hf. apply list_elem_of_filter. eauto.
    + eapply not_elem_of_nil. rewrite <- Hm. apply list_elem_of_filter. eauto.
  - intros H. assert (forall c, c <> Verified -> checked realpath here pk c targets = []) as Hnone.
    { intros c Hc. apply elem_of_nil_inv. intros r [Hr Hin]%list_elem_of_filter. rewrite (H r Hin) in Hr. congruence. }
    split; [split; by apply Hnone|]. f_equal. by apply filter_all.
Qed.

Lemma record_check_verified here pk r pp h :
  ar_package_path r = Some pp -> ar_sha256 r = Some h ->
  record_check here pk r = Verified <-> exists content, packaged here pk pp = Some content /\ sha256 content = h.
Proof.
  intros Hp Hh. unfold Packaging.record_check, check_asset, packaged. rewrite Hp, Hh. simpl.
  destruct (p ← Packaging.locate realpath here pp; pk_files pk !! p) as [content|]; [|split; [done|by intros (? & [=] & _)]].
  destruct (String.eqb_spec (sha256 content) h) as [Heq|Hne]; split; try done; [by eexists|].
  intros (c & [= <-] & Hc). congruence.
Qed.

Lemma validate_verified here plan v pk :
  pi_verified (validate here plan v pk) = true <->
  (forall r, r ∈ pp_deduplicated_assets plan -> is_target r = true -> record_check here pk r = Verified)
  /\ exists blend, (p ← scene_path here (pp_scene_name plan); pk_files pk !! p) = Some blend
       /\ match v with Some run => run blend = None | None => True end.
Proof.
  unfold Packaging.validate.
  set (t := asset_tally here pk _).
  assert (pi_verified t = true <-> forall r, r ∈ pp_deduplicated_assets plan -> is_target r = true -> record_check here pk r = Verified) as Ht.
  { unfold t. rewrite tally_verified. setoid_rewrite list_elem_of_filter. naive_solver. }
  rewrite <- Ht. clearbody t. clear Ht.
  destruct (p ← scene_path here (pp_scene_name plan); pk_files pk !! p) as [blend|];
    [|split; [done|by intros [_ (? & [=] & _)]]].
  destruct v as [run|]; [|naive_solver].
  destruct (pi_verified t) eqn:E; [|split; [congruence|by intros [? _]]].
  destruct (run blend) eqn:Er; [split; [done|intros [_ (b & [= <-] & Hb)]; congruence]|].
  rewrite E. split; [eauto|done].
Qed.

Lemma is_target_iff r :
  is_target r = true <->
  ar_status r = RESOLVED /\ (exists pp, ar_package_path r = Some pp /\ str_truthy pp = true)
  /\ (exists h, ar_sha256 r = Some h /\ str_truthy h = true).
Proof.
  unfold is_target, present. rewrite !andb_true_iff, bool_decide_eq_true.
  destruct (ar_package_path r), (ar_sha256 r); naive_solver.
Qed.

(** What a verified package holds. *)
Definition intact (here : path) (plan : package_plan) (pk : package) : Prop :=
  (forall r pp h, r ∈ pp_all_assets plan -> ar_status r = RESOLVED -> ar_package_path r = Some pp -> ar_sha256 r = Some h ->
     str_truthy pp = true -> str_truthy h = true ->
     exists content, packaged here pk pp = Some content /\ sha256 content = h)
  /\ exists p blend, scene_path here (pp_scene_name plan) = Some p /\ pk_files pk !! p = Some blend.

(** In the plan of the planner a duplicate is found where its kept record is. *)
Definition canonical (plan : package_plan) : Prop :=
  forall r h, r ∈ pp_all_assets plan -> ar_status r = RESOLVED -> ar_sha256 r = Some h ->
    exists k, k ∈ pp_deduplicated_assets plan /\ ar_status k = RESOLVED /\ ar_sha256 k = Some h /\ ar_package_path k = ar_package_path r.

Lemma create_plan_canonical records id scene camera a b : canonical (create_plan records id scene camera a b).
Proof.
  unfold create_plan. pose proof (deduplicate_spec (isort asset_lt records) []) as [_ Hkept _ _ _ Hcan _].
  destruct (deduplicate [] (isort asset_lt records)) as [all kept]. intros r h Hr Hs Hh. simpl in *.
  destruct (Hcan r h Hr Hs Hh) as [H|(k & Hk & Hkh & Hkp)]; [done|]. exists k. rewrite isort_elem.
  split; [done|]. split; [|done]. by apply (sublist_elem _ _ _ Hkept) in Hk as [? _]%list_elem_of_filter.
Qed.

Lemma verified_intact here plan v pk :
  canonical plan -> pi_verified (validate here plan v pk) = true -> intact here plan pk.
Proof.
  intros Hc [Hd (blend & Hb & _)]%validate_verified. split.
  - intros r pp h Hr Hs Hp Hh Htp Hth. destruct (Hc r h Hr Hs Hh) as (k & Hk & Hks & Hkh & Hkp).
    rewrite Hp in Hkp. apply (record_check_verified here pk k pp h Hkp Hkh). apply Hd; [done|].
    apply is_target_iff. eauto 10.
  - destruct (scene_path here (pp_scene_name plan)) as [p|]; [|done]. exists p, blend. done.
Qed.

(** ** Publication *)

Definition distinct_names (e : publish_env) (final : string) : Prop :=
  pe_tmp e <> final /\ pe_backup e <> final /\ pe_tmp e <> pe_backup e.

(** The three ways a publication leaves the final directory. *)
Inductive final_state (e : publish_env) (final : string) (old : option package) (pk : package) (d : dirs) : Prop :=
| fs_kept : d !! final = old -> final_state e final old pk d
| fs_published : d !! final = Some pk -> d !! pe_tmp e = None -> final_state e final old pk d
| fs_in_backup : is_Some (pe_rollback e) -> d !! final = None -> d !! pe_backup e = old -> final_state e final old pk d.

(** What is left of a step of the publication that began with [old] in place. *)
Definition outcome (e : publish_env) (final : string) (d : dirs) (pk : package) (r : dirs * res unit) : Prop :=
  (forall n, n <> pe_tmp e -> n <> final -> n <> pe_backup e -> r.1 !! n = d !! n)
  /\ final_state e final (d !! final) pk r.1
  /\ (forall x, r.2 = Ok x -> r.1 !! final = Some pk /\ r.1 !! pe_tmp e = None).

Ltac look :=
  repeat first [rewrite lookup_insert_eq | rewrite lookup_delete_eq | rewrite lookup_insert_ne by congruence
               | rewrite lookup_delete_ne by congruence].

Section publication.
Context (e : publish_env) (final : string) (d : dirs) (pk : package).
Hypothesis names : distinct_names e final.

Lemma install_spec (d' : dirs) old :
  d' !! pe_tmp e = Some pk -> d' !! final = None -> d' !! pe_backup e = Some old -> d !! final = Some old ->
  (forall n, n <> pe_tmp e -> n <> final -> n <> pe_backup e -> d' !! n = d !! n) ->
  outcome e final d pk (install e final d').
Proof using names.
  destruct names as (N1 & N2 & N3). intros Ht Hf Hb Hold Hn. unfold outcome, install, rename, rmtree. rewrite Ht.
  destruct (pe_rename_new e) as [x|].
  - rewrite Hb. destruct (pe_rollback e) as [y|] eqn:Er; cbn [fst snd].
    + split; [done|]. split; [|done]. apply fs_in_backup; [by rewrite Er|done|congruence].
    + split; [intros n H1 H2 H3; look; auto|]. split; [|done]. apply fs_kept. by look.
  - destruct (pe_rm_backup e) as [f|]; cbn [fst snd].
    + split; [intros n H1 H2 H3; look; auto|]. split; [|done]. apply fs_published; by look.
    + split; [intros n H1 H2 H3; look; auto|]. split; [apply fs_published; by look|]. intros _ _. by look.
Qed.

Lemma swap_spec (d' : dirs) old :
  d' !! pe_tmp e = Some pk -> d' !! final = Some old -> d !! final = Some old ->
  (forall n, n <> pe_tmp e -> n <> final -> n <> pe_backup e -> d' !! n = d !! n) ->
  outcome e final d pk (and_then (rename (pe_rename_old e) final (pe_backup e) d') (install e final)).
Proof using names.
  destruct names as (N1 & N2 & N3). intros Ht Hf Hold Hn. unfold rename at 1. rewrite Hf.
  destruct (pe_rename_old e) as [x|]; cbn [and_then].
  - split; [done|]. split; [apply fs_kept; simpl; congruence|done].
  - apply (install_spec _ old); [by look..|done|]. intros n H1 H2 H3. look. auto.
Qed.

Lemma publish_spec : d !! pe_tmp e = Some pk -> outcome e final d pk (publish e final d).
Proof using names.
  pose proof names as (N1 & N2 & N3). intros Htmp. unfold publish. destruct (d !! final) as [old|] eqn:Ef.
  - destruct (d !! pe_backup e) as [stale|] eqn:Eb; [|by apply (swap_spec d old)].
    unfold rmtree. destruct (pe_rm_stale e) as [f|]; cbn [and_then].
    + split; [intros n H1 H2 H3; simpl; by look|]. split; [|done]. apply fs_kept. simpl. by look.
    + apply (swap_spec _ old); [by look|by look|done|]. intros n H1 H2 H3. by look.
  - unfold outcome, rename. rewrite Htmp. destruct (pe_rename_new e) as [x|]; cbn [fst snd].
    + split; [done|]. split; [by apply fs_kept|done].
    + split; [intros n H1 H2 H3; by look|].
      split; [apply fs_published; by look|]. intros _ _. split; by look.
Qed.
End publication.

#[local] Abbreviation build_package := (build_package realpath is_dir files).
#[local] Abbreviation build_and_validate := (build_and_validate realpath is_dir files).

Lemma build_manifest e here plan source b pk :
  build_package e here plan source b = (pk, Ok tt) -> pk_manifest pk = Some (manifest_of plan).
Proof.
  unfold Packaging.build_package. destruct (copy_records _ _ _ _ _ _) as [[pk1 m] [[]|x]]; [|done].
  destruct (copy_scene _ _ _ _ _ _ _ _ _ _) as [pk2 [[]|x]]; [|done]. destruct (be_manifest e); [done|]. by intros [= <-].
Qed.

Lemma clean_tmp_spec {A} e (d : dirs) (r : res A) :
  (forall n, n <> pe_tmp e -> (clean_tmp e d r).1 !! n = d !! n)
  /\ (pe_rm_tmp e = None -> (clean_tmp e d r).1 !! pe_tmp e = None)
  /\ (d !! pe_tmp e = None -> clean_tmp e d r = (d, r))
  /\ (forall a, (clean_tmp e d r).2 = Ok a -> r = Ok a).
Proof.
  unfold clean_tmp, rmtree. destruct (d !! pe_tmp e) as [pk|] eqn:E; [|done].
  destruct (pe_rm_tmp e) as [f|]; simpl.
  - split; [intros n Hn; by look|done].
  - split; [intros n Hn; by look|]. split; [intros _; by look|done].
Qed.

(** The kept record has its own place in the package and its source still has
    the content that was hashed. *)
Definition placed (here : path) (r : asset_record) (p : path) (content : string) : Prop :=
  exists src pp, ar_status r = RESOLVED /\ ar_source_path r = Some src /\ ar_package_path r = Some pp /\ str_truthy pp = true
    /\ files !! realpath src = Some content /\ locate here pp = Some p /\ ar_sha256 r = Some (sha256 content).

Lemma copy_record_placed e here r p content pk m :
  (forall q, be_write e q = None) -> placed here r p content ->
  exists m', copy_record realpath files e here r (pk, m) = ((pack_file p content pk, m'), Ok tt).
Proof.
  intros He (src & pp & Hs & Hsrc & Hpp & Ht & Hf & Hl & _). unfold copy_record. rewrite Hs, Hsrc, Hpp, Ht, Hf, Hl.
  unfold write. rewrite He. eauto.
Qed.

Lemma copy_records_placed e here (l : list (asset_record * path * string)) pk m :
  (forall q, be_write e q = None) -> (forall x, x ∈ l -> placed here x.1.1 x.1.2 x.2) -> NoDup (map (fun x => x.1.2) l) ->
  exists pk' m', copy_records realpath files e here (map (fun x => x.1.1) l) (pk, m : odict string) = ((pk', m'), Ok tt)
    /\ (forall x, x ∈ l -> pk_files pk' !! x.1.2 = Some x.2)
    /\ (forall q, q ∉ map (fun x => x.1.2) l -> pk_files pk' !! q = pk_files pk !! q).
Proof.
  intros He. revert pk m. induction l as [|[[r p] content] l IH]; intros pk m Hp Hn.
  { exists pk, m. split; [done|]. split; [intros x Hx; by apply not_elem_of_nil in Hx|done]. }
  cbn [map fst snd copy_records].
  destruct (copy_record_placed e here r p content pk m He (Hp _ ltac:(by left))) as [m1 ->].
  apply NoDup_cons in Hn as [Hfresh Hn]. cbn [fst snd] in Hfresh.
  destruct (IH (pack_file p content pk) m1 (fun x Hx => Hp x ltac:(by right)) Hn) as (pk' & m' & -> & H1 & H2).
  exists pk', m'. split; [done|]. split.
  - intros x [->|Hx]%elem_of_cons; [|auto]. cbn [fst snd]. rewrite H2 by done. unfold pack_file. simpl. by look.
  - intros q Hq. cbn [fst snd] in Hq. apply not_elem_of_cons in Hq as [Hne Hq]. rewrite H2 by done.
    unfold pack_file. simpl. by look.
Qed.

(** When nothing fails, the sources are as they were hashed and the kept
    assets have places of their own in the package, the package is built to
    its end and the validator finds it complete. *)
Theorem build_verifies e here plan src blend sp (l : list (asset_record * path * string)) :
  (forall q, be_write e q = None) -> be_manifest e = None ->
  has_suffix ".blend" (path_name src) = true -> files !! realpath src = Some blend ->
  scene_path here (pp_scene_name plan) = Some sp ->
  pp_deduplicated_assets plan = map (fun x => x.1.1) l ->
  (forall x, x ∈ l -> placed here x.1.1 x.1.2 x.2) -> NoDup (sp :: map (fun x => x.1.2) l) ->
  exists pk, build_package e here plan (Some src) None = (pk, Ok tt)
    /\ pi_verified (validate here plan None pk) = true
    /\ pi_verified_count (validate here plan None pk) = Z.of_nat (length l).
Proof.
  intros He Hman Hsuf Hblend Hsp Hl Hp [Hfresh Hn]%NoDup_cons.
  destruct (copy_records_placed e here l empty_package [] He Hp Hn) as (pk & m & Hcopy & Hin & _).
  unfold Packaging.build_package. rewrite Hl, Hcopy. unfold copy_scene. rewrite Hsuf, Hblend, Hsp. unfold write. rewrite He, Hman.
  set (pk' := put_manifest _ _). exists pk'. split; [done|].
  assert (forall x, x ∈ l -> is_target x.1.1 = true /\ record_check here pk' x.1.1 = Verified) as Hok.
  { intros x Hx. destruct (Hp x Hx) as (s & pp & Hs & _ & Hpp & Ht & _ & Hloc & Hh). split.
    - apply is_target_iff. split; [done|]. split; [eauto|]. eexists. split; [done|apply sha256_truthy].
    - apply (record_check_verified here pk' _ pp (sha256 x.2) Hpp Hh). exists x.2. split; [|done].
      unfold packaged. rewrite Hloc. simpl. unfold pk', put_manifest, pack_file. simpl.
      assert (sp <> x.1.2) as Hne. { intros ->. apply Hfresh, list_elem_of_fmap. eauto. }
      look. auto. }
  assert (forall r, r ∈ pp_deduplicated_assets plan -> is_target r = true /\ record_check here pk' r = Verified) as Hok'.
  { rewrite Hl. intros r (x & -> & Hx)%list_elem_of_fmap. by apply Hok. }
  assert (pi_verified (validate here plan None pk') = true) as Hv.
  { apply validate_verified. split; [intros r Hr _; by apply Hok'|]. exists blend. split; [|done].
    rewrite Hsp. simpl. by look. }
  split; [exact Hv|]. unfold Packaging.validate. rewrite Hsp. cbn [mbind option_bind].
  replace (pk_files pk' !! sp) with (Some blend) by (unfold pk'; simpl; by look).
  simpl. rewrite (filter_all (fun r => is_target r = true)) by (intros r Hr; by apply Hok').
  unfold checked. rewrite filter_all by (intros r Hr; by apply Hok'). by rewrite Hl, length_map.
Qed.

(** Built to the end, verified and with the manifest of the plan. *)
Definition whole (here : path) (plan : package_plan) (pk : package) : Prop :=
  intact here plan pk /\ pk_manifest pk = Some (manifest_of plan).

Definition publication (e : publish_env) (here : path) (plan : package_plan) (final : string) (d : dirs) (pk : package)
    (r : dirs * res integrity_result) : Prop :=
  final_state e final (d !! final) pk r.1
  /\ (r.1 !! final <> d !! final -> r.1 !! final <> None -> whole here plan pk)
  /\ (forall n, n <> pe_tmp e -> n <> final -> n <> pe_backup e -> r.1 !! n = d !! n)
  /\ (pe_rm_tmp e = None -> r.1 !! pe_tmp e = None)
  /\ (forall report, r.2 = Ok report -> r.1 !! final = Some pk /\ pi_verified report = true /\ whole here plan pk).

(** An attempt that fails before the publication only leaves its directory. *)
Lemma failed_publication e here plan final (d : dirs) pk x :
  distinct_names e final -> publication e here plan final d pk (clean_tmp e (<[pe_tmp e := pk]> d) (Err x)).
Proof.
  intros (N1 & N2 & N3). set (d1 := <[pe_tmp e := pk]> d).
  destruct (clean_tmp_spec e d1 (Err x : res integrity_result)) as (C1 & C2 & _ & C4).
  assert (forall n, n <> pe_tmp e -> (clean_tmp e d1 (Err x : res integrity_result)).1 !! n = d !! n) as H.
  { intros n Hn. rewrite C1 by done. unfold d1. by look. }
  split; [apply fs_kept, H; congruence|]. split; [intros Hd; destruct Hd; apply H; congruence|].
  split; [auto|]. split; [done|]. intros report Hr%C4. done.
Qed.

Lemma build_and_validate_spec e parent plan final source b v (d : dirs) :
  canonical plan -> distinct_names e final ->
  exists pk, publication e (parent ++ [pe_tmp e]) plan final d pk (build_and_validate e parent plan final source b v d).
Proof.
  intros Hcan Hnames. unfold Packaging.build_and_validate. set (here := parent ++ [pe_tmp e]).
  destruct (build_package (pe_build e) here plan source b) as [pk built] eqn:Eb. exists pk.
  destruct built as [[]|x]; [|by apply failed_publication].
  destruct (pi_verified (validate here plan v pk)) eqn:Ev; [|by apply failed_publication].
  assert (whole here plan pk) as Hw by (split; [by eapply verified_intact|by eapply build_manifest]).
  set (d1 := <[pe_tmp e := pk]> d). pose proof Hnames as (N1 & N2 & N3).
  destruct (publish_spec e final d1 pk Hnames) as (P1 & P2 & P3); [unfold d1; by look|].
  destruct (publish e final d1) as [d2 r]. cbn [fst snd] in *.
  assert (d1 !! final = d !! final) as Hd1 by (unfold d1; by look). rewrite Hd1 in P2.
  set (out := match r with Ok _ => Ok (validate here plan v pk) | Err x => Err x end).
  replace (match r with Ok _ => clean_tmp e d2 (Ok (validate here plan v pk)) | Err x => clean_tmp e d2 (Err x) end)
    with (clean_tmp e d2 out) by (unfold out; by destruct r).
  destruct (clean_tmp_spec e d2 out) as (C1 & C2 & C3 & C4).
  split; [|split; [done|split; [|split; [done|]]]].
  - destruct P2 as [Hk|Hp Ht|Hb Hk Hbk].
    + apply fs_kept. by rewrite C1 by congruence.
    + rewrite (C3 Ht). by apply fs_published.
    + apply fs_in_backup; [done|by rewrite C1 by congruence|by rewrite C1 by congruence].
  - intros n Ha Hb Hc. rewrite C1, P1 by done. unfold d1. by look.
  - intros report Hr%C4. unfold out in Hr. destruct r as [x|]; [|done]. injection Hr as <-.
    destruct (P3 x eq_refl) as [Hf _]. rewrite C1 by congruence. done.
Qed.

End checks.

(** ** From the scene to the package *)

Section scene.
Context (realpath : path -> path) (is_dir : path -> bool) (files : gmap path string) (search_paths : list path).

Lemma manifest_ids records id scene camera a b :
  Permutation (map ar_asset_id (manifest_of (create_plan records id scene camera a b))) (map ar_asset_id records).
Proof.
  unfold manifest_of, create_plan. pose proof (deduplicate_spec (isort asset_lt records) []) as [Hs _ _ _ _ _ _].
  destruct (deduplicate [] (isort asset_lt records)) as [all kept]. simpl in *.
  apply (f_equal (map ar_asset_id)) in Hs. rewrite !map_map in Hs. simpl in Hs.
  transitivity (map ar_asset_id all); [apply Permutation_map, isort_perm|].
  change (Permutation (map (fun x => ar_asset_id x) all) (map ar_asset_id records)). rewrite Hs.
  change (Permutation (map ar_asset_id (isort asset_lt records)) (map ar_asset_id records)). apply Permutation_map, isort_perm.
Qed.

(** A planned record is one that was resolved, up to its package path. *)
Lemma plan_record records id scene camera a b r :
  r ∈ pp_all_assets (create_plan records id scene camera a b) ->
  exists q, q ∈ records /\ with_package_path None r = with_package_path None q.
Proof.
  unfold create_plan. pose proof (deduplicate_spec (isort asset_lt records) []) as [Hs _ _ _ _ _ _].
  destruct (deduplicate [] (isort asset_lt records)) as [all kept]. simpl in *. intros Hr.
  assert (with_package_path None r ∈ map (with_package_path None) all) as H by (apply list_elem_of_fmap; eauto).
  rewrite Hs in H. apply list_elem_of_fmap in H as (q & Hq & Hin%isort_elem). eauto.
Qed.

(** The records of a resolution, in a plan. *)
Section planned.
Context (g : dependency_graph) (base : path) (seeds : gset string) (types : odict string) (C : gset string).
Context (records : list asset_record).
Hypothesis resolved : resolve realpath is_dir files search_paths g base seeds types C = Ok records.
Context (id scene camera : string) (a b : Z).

#[local] Abbreviation plan := (create_plan records id scene camera a b).
#[local] Abbreviation faithful := (faithful realpath is_dir files search_paths g base types).

Lemma records_spec : map ar_asset_id records = isort str_lt (elements C) /\ Forall faithful records.
Proof using resolved.
  pose proof (resolve_spec realpath is_dir files search_paths g base seeds types C) as H. by rewrite resolved in H.
Qed.

Lemma manifest_complete x : x ∈ C <-> x ∈ map ar_asset_id (manifest_of plan).
Proof using resolved.
  destruct records_spec as [Hids _]. rewrite manifest_ids, Hids, isort_elem. by rewrite elem_of_elements.
Qed.

Lemma planned_file r raw content :
  r ∈ pp_all_assets plan -> raw_path_of g types (ar_asset_id r) = Some raw ->
  files !! fst (candidate_of realpath is_dir files search_paths raw base) = Some content ->
  ar_status r = RESOLVED /\ ar_sha256 r = Some (sha256 content)
  /\ exists pp, ar_package_path r = Some pp /\ str_truthy pp = true.
Proof using resolved.
  intros Hr Hraw Hfile. destruct records_spec as [_ Hf]. rewrite Forall_forall in Hf.
  destruct (plan_record _ _ _ _ _ _ _ Hr) as (q & Hq & Heq).
  pose proof (f_equal ar_asset_id Heq) as Hid. pose proof (f_equal ar_status Heq) as Hst.
  pose proof (f_equal ar_sha256 Heq) as Hsha. simpl in Hid, Hst, Hsha.
  pose proof (Hf q Hq) as Hfq. unfold PackagingProps.faithful in Hfq. rewrite <- Hid, Hraw in Hfq.
  destruct Hfq as (p & -> & _ & _ & Hfq). rewrite Hfile in Hfq. destruct Hfq as (H1 & H2 & _ & _).
  rewrite H1 in Hst. rewrite H2 in Hsha. split; [done|]. split; [done|].
  destruct (create_plan_canonical records id scene camera a b r _ Hr Hst Hsha) as (k & Hk & Hks & _ & Hkp).
  assert (k ∈ records) as Hkr.
  { revert Hk. unfold create_plan. pose proof (deduplicate_spec (isort asset_lt records) []) as [_ Hkept _ _ _ _ _].
    destruct (deduplicate [] (isort asset_lt records)) as [all kept]. simpl in *. intros Hk%isort_elem.
    by apply (sublist_elem _ _ _ Hkept) in Hk as [_ ?%isort_elem]%list_elem_of_filter. }
  pose proof (Hf k Hkr) as Hfk. unfold PackagingProps.faithful in Hfk.
  destruct (raw_path_of g types (ar_asset_id k)); [|destruct Hfk; congruence].
  destruct Hfk as (p & _ & _ & _ & Hfk). destruct (files !! p); [|destruct Hfk; congruence].
  destruct Hfk as (_ & _ & _ & Hpp). rewrite Hkp in Hpp. eexists. split; [exact Hpp|done].
Qed.
End planned.

(** C31: From the scene to the package: when the graph of a scene is built, a
    requirement report is closed over it, its assets are resolved, planned,
    built and published, the published manifest lists exactly the closure, and
    whatever a required object needs that is a file of the project is in the
    package, at the package path of its manifest entry, with its digest. *)
Theorem required_files_packaged s g report C records e parent id scene camera a z final source b v base seeds types (d d' : dirs) result :
  build s = Ok g -> compute_closure g (resolve_requirements report) = Some C ->
  resolve realpath is_dir files search_paths g base seeds types C = Ok records ->
  distinct_names e final ->
  build_and_validate realpath is_dir files e parent (create_plan records id scene camera a z) final source b v d = (d', Ok result) ->
  exists pk manifest, d' !! final = Some pk /\ pk_manifest pk = Some manifest
    /\ (forall x, x ∈ C <-> x ∈ map ar_asset_id manifest)
    /\ forall o x raw content, o ∈ ss_objects s -> so_id o ∈ C -> x = so_id o \/ needed o x ->
         raw_path_of g types x = Some raw -> files !! fst (candidate_of realpath is_dir files search_paths raw base) = Some content ->
         exists r pp c, r ∈ manifest /\ ar_asset_id r = x /\ ar_package_path r = Some pp
           /\ packaged realpath (parent ++ [pe_tmp e]) pk pp = Some c /\ sha256 c = sha256 content.
Proof.
  intros Hg HC Hres Hn Hb. set (plan := create_plan records id scene camera a z) in *.
  destruct (build_and_validate_spec realpath is_dir files e parent plan final source b v d) as (pk & _ & _ & _ & _ & Hok);
    [apply create_plan_canonical|done|]. rewrite Hb in Hok. destruct (Hok result eq_refl) as (Hf & _ & Hint & Hman).
  exists pk, (manifest_of plan). split; [done|]. split; [done|].
  assert (forall x, x ∈ C <-> x ∈ map ar_asset_id (manifest_of plan)) as Hm by (intros x; by eapply manifest_complete).
  split; [exact Hm|].
  intros o x raw content Ho HoC Hx Hraw Hfile.
  assert (x ∈ C) as HxC. { destruct Hx as [->|Hx]; [done|]. by eapply (closure_needs s g report C Hg HC). }
  apply Hm, list_elem_of_fmap in HxC as (r & -> & Hr%isort_elem).
  destruct (planned_file g base seeds types C records Hres id scene camera a z r raw content Hr Hraw Hfile)
    as (Hst & Hsha & pp & Hpp & Ht).
  destruct (proj1 Hint r pp _ Hr Hst Hpp Hsha Ht) as (c & Hc & Hcs); [by apply sha256_truthy|].
  exists r, pp, c. split; [by apply isort_elem|]. done.
Qed.
End scene.

(** ** A concrete project *)

(** The real path where there are no symbolic links. *)
Definition lexical (p : path) : path :=
  fold_left (fun acc c => if String.eqb c ".." then removelast acc else acc ++ [c]) p [].

Definition nowhere (p : path) : bool := false.

Definition project : gmap path string :=
  list_to_map [(["proj"; "shot.blend"], "SCENE"); (["proj"; "tex"; "wood.png"], "WOOD"); (["proj"; "lib"; "tree.blend"], "TREE");
               (["proj"; "hdri"; "sky.hdr"], "SKY")]%string.

Definition seeds_of_cube : gset string := Eval vm_compute in resolve_requirements (cube_report [] []).
Definition closure_of_cube : gset string := Eval vm_compute in default ∅ (compute_closure small_graph seeds_of_cube).

Definition records_of_cube : list asset_record := Eval vm_compute in
  match resolve lexical nowhere project [] small_graph ["proj"%string] seeds_of_cube (object_type_map (ss_objects small_scene)) closure_of_cube with
  | Ok rs => rs | Err _ => [] end.

Definition plan_of (records : list asset_record) : package_plan := create_plan records "p1" "Shot" "Cam" 1 24.

Definition calm : publish_env :=
  {| pe_build := {| be_write := fun _ => None; be_mapping := None; be_manifest := None |}; pe_tmp := "aidar_pkg_x"; pe_backup := "out.bak_7";
     pe_rm_stale := None; pe_rename_old := None; pe_rename_new := None; pe_rollback := None; pe_rm_backup := None; pe_rm_tmp := None |}.

Definition scene_file : option path := Some ["proj"; "shot.blend"]%string.

Definition publish_cube (e : publish_env) (d : dirs) : dirs * res integrity_result :=
  build_and_validate lexical nowhere project e ["srv"%string] (plan_of records_of_cube) "out" scene_file None None d.

Lemma required_files_witness :
  exists pk manifest, (publish_cube calm ∅).1 !! "out"%string = Some pk /\ pk_manifest pk = Some manifest
    /\ exists r pp c, r ∈ manifest /\ ar_asset_id r = "image:wood.png"%string /\ ar_package_path r = Some pp
         /\ packaged lexical ["srv"; "aidar_pkg_x"]%string pk pp = Some c /\ sha256 c = sha256 "WOOD".
Proof.
  destruct (required_files_packaged lexical nowhere project [] small_scene small_graph (cube_report [] []) closure_of_cube records_of_cube
      calm ["srv"%string] "p1" "Shot" "Cam" 1 24 "out" scene_file None None ["proj"%string] seeds_of_cube
      (object_type_map (ss_objects small_scene)) ∅ (publish_cube calm ∅).1
      {| pi_verified := true; pi_asset_count := 2; pi_verified_count := 2; pi_failed_assets := []; pi_missing_assets := [] |})
    as (pk & manifest & H1 & H2 & _ & H3).
  - vm_compute. reflexivity.
  - vm_compute. reflexivity.
  - vm_compute. reflexivity.
  - split; [|split]; vm_compute; discriminate.
  - vm_compute. reflexivity.
  - exists pk, manifest. split; [exact H1|]. split; [exact H2|].
    apply (H3 cube "image:wood.png"%string "//tex/wood.png"%string "WOOD"%string); [by left|vm_compute; done| |vm_compute; reflexivity..].
    right. apply (needs_image cube {| mi_name := "Wood"; mi_image_textures := ["wood.png"%string] |} "wood.png"); by left.
Defined.


(** The two kept assets with their places. *)
Definition kept_of_cube : list (asset_record * path * string) := Eval vm_compute in
  map (fun r => (r, default [] (p ← ar_package_path r; locate lexical ["srv"; "aidar_pkg_x"]%string p),
                 default EmptyString (p ← ar_source_path r; project !! p)))
      (pp_deduplicated_assets (plan_of records_of_cube)).

Lemma build_verifies_witness :
  exists pk, pi_verified_count (validate lexical ["srv"; "aidar_pkg_x"]%string (plan_of records_of_cube) None pk) = 2.
Proof.
  destruct (build_verifies lexical nowhere project (pe_build calm) ["srv"; "aidar_pkg_x"]%string (plan_of records_of_cube)
      ["proj"; "shot.blend"]%string "SCENE" ["scene"; "Shot.blend"]%string kept_of_cube) as (pk & _ & _ & H).
  - done.
  - done.
  - vm_compute. reflexivity.
  - vm_compute. reflexivity.
  - vm_compute. reflexivity.
  - vm_compute. reflexivity.
  - intros x [->|[->|Hx]%elem_of_cons]%elem_of_cons; [| |by apply not_elem_of_nil in Hx];
      eexists _, _; vm_compute; split_and!; reflexivity.
  - apply (bool_decide_unpack _). vm_compute. exact I.
  - exists pk. exact H.
Defined.

(** A package whose plan lists a missing asset is verified and published,
    although [validate] is documented to verify only when all assets exist. *)
Example missing_asset_still_verified :
  map ar_asset_id (pp_missing_assets (plan_of records_of_cube)) = ["texture:wood.png"%string]
  /\ pi_verified <$> match (publish_cube calm ∅).2 with Ok r => Some r | Err _ => None end = Some true.
Proof. split; vm_compute; reflexivity. Qed.

(** ** Two assets with the same or with colliding content *)

Definition pair_graph : dependency_graph :=
  {| dg_nodes := [{| gn_identifier := "asset:a/x.png"; gn_label := "a/x.png"; gn_kind := "asset" |};
                  {| gn_identifier := "asset:b/x.png"; gn_label := "b/x.png"; gn_kind := "asset" |}]; dg_edges := [] |}.

Definition pair_project (a b : string) : gmap path string :=
  list_to_map [(["proj"; "a"; "x.png"]%string, a); (["proj"; "b"; "x.png"]%string, b); (["proj"; "shot.blend"]%string, "SCENE"%string)].

Definition pair_plan (a b : string) : package_plan :=
  plan_of match resolve lexical nowhere (pair_project a b) [] pair_graph ["proj"%string] ∅ [] {["asset:a/x.png"; "asset:b/x.png"]}%string with
          | Ok rs => rs | Err _ => [] end.

(** The path mapping handed to the remap script covers the kept records only:
    the scene keeps its reference to the duplicate outside the package. *)
Example duplicate_not_remapped :
  let pk := fst (build_package lexical nowhere (pair_project "WOOD" "WOOD") (pe_build calm) ["srv"; "tmp"]%string (pair_plan "WOOD" "WOOD")
                   scene_file (Some (fun _ scene => Ok scene))) in
  let pkg_path := option_map (fun r => ar_package_path r) (last (pp_all_assets (pair_plan "WOOD" "WOOD"))) in
  is_Some (pk_mapping pk) /\ length (pp_deduplicated_assets (pair_plan "WOOD" "WOOD")) = 1%nat
  /\ (m ← pk_mapping pk; od_get "/proj/b/x.png" m) = None /\ (m ← pk_mapping pk; od_get "b/x.png" m) = None
  /\ is_Some (m ← pk_mapping pk; od_get "/proj/a/x.png" m).
Proof. vm_compute. split_and!; eauto. Qed.

(** Two different files of one name whose digests agree in the first eight
    digits get the same package path; such a scene cannot be packaged. *)
Example short_digest_collision :
  map ar_package_path (pp_deduplicated_assets (pair_plan "t26821" "t49091")) =
    [Some "assets/3b787b99_x.png"; Some "assets/3b787b99_x.png"]%string
  /\ snd (build_and_validate lexical nowhere (pair_project "t26821" "t49091") calm ["srv"%string] (pair_plan "t26821" "t49091") "out" scene_file
            None None ∅) = Err (RuntimeError "Package validation failed.").
Proof. split; vm_compute; reflexivity. Qed.
