(* ===== verification/Execution.v ===== *)
(** * Running a workload on a worker ([distributed/execution.py])

    [ExecutionManager]: the sandbox of a workload, the staging of its inputs,
    the run, the ingestion of its outputs and the verdict.  The manager's state
    is the object store, the sandboxes by directory, the table of active
    runtimes and the flags of the runtimes.  The runtime's behaviour ([run]),
    what the file system refuses ([stage_env], [ingest_env]) and the clock
    ([times]) are arguments.  A staged input is the object itself (a hard link)
    or a copy, so what a workload writes to an input can reach the store. *)
From S2P Require Export Transfer AttemptRegistry Redaction.

(** ** Safe identifiers *)

Definition sandbox_char (c : ascii) : bool :=
  is_alnum c || bool_decide (c ∈ ["_"; "."; ":"; "#"; "-"]%char).

(** [[p]{0,n}$]: the anchor also accepts one newline at the very end. *)
Fixpoint re_class_upto (p : ascii -> bool) (n : nat) (s : string) {struct s} : bool :=
  match s with
  | EmptyString => true
  | String c rest =>
      (Ascii.eqb c nl && String.eqb rest "")
      || match n with O => false | S n => p c && re_class_upto p n rest end
  end.

Definition safe_workload_id (s : string) : bool :=
  match s with EmptyString => false | String c rest => is_alnum c && re_class_upto sandbox_char 127 rest end.

Fixpoint has_dotdot (s : string) : bool :=
  match s with EmptyString => false | String c rest => starts_with ".." s || has_dotdot rest end.

(** ** Runtimes and runs *)

Record runtime := { rt_id : nat; rt_name : string; rt_supports_checkpointing : bool }.

(** [_checkpoint_requested] and [_cancel_requested]. *)
Record rt_flags := { rf_checkpoint : bool; rf_cancel : bool }.
Definition no_flags : rt_flags := {| rf_checkpoint := false; rf_cancel := false |}.

(** How [execute_with_context] under [wait_for] ends; [cancel_fails] is the
    exception of the [cancel] call that follows, if it raises. *)
Inductive run_outcome :=
| R_returned (success : bool) (stdout stderr : option string)
| R_timeout (cancel_fails : option exn)
| R_cancelled (cancel_fails : option exn)
| R_raised (e : exn).

(** [run_files] is the output directory as [os.walk] lists it; a file that is
    not regular has no content.  [run_writes] are the writes to the inputs the
    operating system let through. *)
Record run := {
  run_end : run_outcome;
  run_files : list (string * option string);
  run_writes : list (string * string);
  run_checkpointed : bool;
}.

Inductive input_file := Linked (p : string * string) | Copied (content : string).

Definition input_content (c : local_cas) (f : input_file) : option string :=
  match f with Linked p => object_at p c | Copied x => Some x end.

Record sandbox := { sb_inputs : gmap string input_file; sb_metadata : option workload_spec }.
Definition new_sandbox : sandbox := {| sb_inputs := ∅; sb_metadata := None |}.

Record exec_manager := {
  em_cas : local_cas;
  em_sandboxes : gmap (list string) sandbox;
  em_active : odict nat;
  em_flags : gmap nat rt_flags;
}.

Definition new_manager (c : local_cas) : exec_manager :=
  {| em_cas := c; em_sandboxes := ∅; em_active := []; em_flags := ∅ |}.

Definition with_cas (c : local_cas) (m : exec_manager) : exec_manager :=
  {| em_cas := c; em_sandboxes := em_sandboxes m; em_active := em_active m; em_flags := em_flags m |}.
Definition with_sandboxes (s : gmap (list string) sandbox) (m : exec_manager) : exec_manager :=
  {| em_cas := em_cas m; em_sandboxes := s; em_active := em_active m; em_flags := em_flags m |}.
Definition with_active (a : odict nat) (m : exec_manager) : exec_manager :=
  {| em_cas := em_cas m; em_sandboxes := em_sandboxes m; em_active := a; em_flags := em_flags m |}.
Definition flag (rid : nat) (f : rt_flags -> rt_flags) (m : exec_manager) : exec_manager :=
  {| em_cas := em_cas m; em_sandboxes := em_sandboxes m; em_active := em_active m;
     em_flags := <[rid := f (default no_flags (em_flags m !! rid))]> (em_flags m) |}.

(** [runtime.checkpoint()] and [runtime.cancel()] as far as the manager sees. *)
Definition request_checkpoint (f : rt_flags) : rt_flags := {| rf_checkpoint := true; rf_cancel := rf_cancel f |}.
Definition request_cancel (f : rt_flags) : rt_flags := {| rf_checkpoint := rf_checkpoint f; rf_cancel := true |}.

Definition checkpoint_workload (wid : string) (m : exec_manager) : exec_manager * bool :=
  match od_get wid (em_active m) with Some rid => (flag rid request_checkpoint m, true) | None => (m, false) end.

Definition cancel_workload (wid : string) (m : exec_manager) : exec_manager * bool :=
  match od_get wid (em_active m) with Some rid => (flag rid request_cancel m, true) | None => (m, false) end.

(** ** What the environment answers *)

Record stage_env := {
  se_cleanup_fails : bool;
  se_workspace : option exn;
  se_metadata : option exn;
  se_link : string -> bool;
  se_copy : string -> option exn;
}.

Record ingest_env := { ie_io : io; ie_uuid : string; ie_now : float; ie_getsize : option exn }.

Record times := {
  t_staging_start : float; t_staging_end : float; t_start : float; t_end : float;
  t_ingest_start : float; t_ingest_end : float; t_verify_start : float; t_verify_end : float;
}.

(** ** Results *)

(** The model of a result requires its last durations to be non-negative. *)
Definition make_result (r : workload_execution_result) : res workload_execution_result :=
  if fle f0 (er_staging_duration_seconds r) && fle f0 (er_output_ingestion_duration_seconds r)
     && fle f0 (er_verification_duration_seconds r) && fle f0 (er_transfer_duration_seconds r)
  then Ok r else Err (ValueError "greater_than_equal").

Definition failure_result (wid worker_id message : string) (category : failure_category)
    (staging transfer : float) : workload_execution_result :=
  {| er_workload_id := wid; er_worker_id := worker_id; er_success := false;
     er_output_asset_hashes := ∅; er_output_asset_sizes := []; er_execution_duration_seconds := f0;
     er_error_message := Some message; er_was_checkpointed := false; er_checkpoint_hash := None;
     er_failure_category := Some category; er_checkpoint_runtime_type := None;
     er_checkpoint_format_version := None; er_staging_duration_seconds := staging;
     er_output_ingestion_duration_seconds := f0; er_verification_duration_seconds := f0;
     er_transfer_duration_seconds := transfer; er_stdout_snippet := None; er_stderr_snippet := None |}.

(** [s[-n:]] *)
Definition str_last (n : nat) (s : string) : string := str_drop (String.length s - n) s.

(** [str(list)] of strings without quotes or backslashes. *)
Definition list_text (l : list string) : string :=
  "[" +:+ String.concat ", " (map (fun h => "'" +:+ h +:+ "'") l) +:+ "]".

Definition newline : string := String nl EmptyString.

Definition truthy_text (s : option string) : option string := x ← s; if str_truthy x then Some x else None.
Definition append_text (s : option string) (t : string) : option string := Some (default "" s +:+ t).

Definition failure_text (stdout stderr : option string) : string :=
  "Execution failed"
  +:+ (match truthy_text stderr with Some e => newline +:+ "stderr:" +:+ newline +:+ str_last 1500 e | None => "" end)
  +:+ (match truthy_text stdout with Some o => newline +:+ "stdout:" +:+ newline +:+ str_last 1000 o | None => "" end).

Section Execution.
Context (real_root : list string) (realpath : list string -> list string).
Context (float_text : float -> string) (json_text : json -> string).

(** ** The sandbox *)

Definition _resolve_sandbox_dir (wid : string) : res (list string) :=
  if negb (str_truthy wid) || negb (safe_workload_id wid) || has_dotdot wid then
    Err (ValueError ("Unsafe workload_id rejected: '" +:+ wid +:+ "'"))
  else
    let candidate := realpath (real_root ++ [wid]) in
    if negb (bool_decide (real_root `prefix_of` candidate)) || bool_decide (candidate = real_root) then
      Err (ValueError ("Sandbox path escapes workloads_dir: '" +:+ wid +:+ "'"))
    else Ok candidate.

Definition cleanup_sandbox (fails : bool) (dir : list string) (m : exec_manager) : exec_manager :=
  if fails then m else with_sandboxes (delete dir (em_sandboxes m)) m.

(** A directory that could not be removed is still there, and [makedirs] refuses it. *)
Definition isolate_workspace (e : stage_env) (dir : list string) (m : exec_manager) : exec_manager * res unit :=
  let m := cleanup_sandbox (se_cleanup_fails e) dir m in
  match em_sandboxes m !! dir, se_workspace e with
  | Some _, _ => (m, Err (OSError "File exists"))
  | None, Some x => (m, Err x)
  | None, None => (with_sandboxes (<[dir := new_sandbox]> (em_sandboxes m)) m, Ok tt)
  end.

(** ** Staging *)

(** [params.get(k) == h] for one of the keys. *)
Definition names_param (keys : list string) (params : odict json) (h : string) : bool :=
  existsb (fun k => match od_get k params with Some (JStr s) => String.eqb s h | _ => false end) keys.

(** [os.link] of a file onto a name of the input directory; an existing name is refused. *)
Definition links (e : stage_env) (name : string) (inputs : gmap string input_file) : bool :=
  se_link e name && bool_decide (inputs !! name = None).

Definition stage_alias (e : stage_env) (wanted : bool) (name content : string) (inputs : gmap string input_file)
    : res (gmap string input_file) :=
  if negb wanted || bool_decide (is_Some (inputs !! name)) then Ok inputs
  else if links e name inputs then Ok (<[name := Copied content]> inputs)
  else match se_copy e name with Some x => Err x | None => Ok (<[name := Copied content]> inputs) end.

Definition SCENE_KEYS : list string := ["scene_file_hash"; "input_file_hash"; "scene_hash"].
Definition SCRIPT_KEYS : list string := ["remap_script_hash"; "script_hash"].

(** The aliases are staged in the copying branch only. *)
Definition stage_input (e : stage_env) (params : odict json) (c : local_cas) (h : string)
    (inputs : gmap string input_file) : res (gmap string input_file) :=
  match get_asset_path h c with
  | None => Err TypeError
  | Some p =>
      if links e h inputs then Ok (<[h := Linked p]> inputs)
      else
        match se_copy e h with
        | Some x => Err x
        | None =>
            let content := default "" (object_at p c) in
            let! inputs := stage_alias e (names_param SCENE_KEYS params h) (h +:+ ".blend") content
                             (<[h := Copied content]> inputs) in
            stage_alias e (names_param SCRIPT_KEYS params h) (h +:+ ".py") content inputs
        end
  end.

(** The loop: the inputs staged, the digests the store lacks, and the failure
    that ended it. *)
Fixpoint stage_inputs (e : stage_env) (params : odict json) (c : local_cas) (hs : list string)
    (inputs : gmap string input_file) (missing : list string)
    : gmap string input_file * list string * option (string * exn) :=
  match hs with
  | [] => (inputs, missing, None)
  | h :: rest =>
      if negb (has_asset h c) then stage_inputs e params c rest inputs (missing ++ [h])
      else
        match stage_input e params c h inputs with
        | Ok inputs => stage_inputs e params c rest inputs missing
        | Err x => (inputs, missing, Some (h, x))
        end
  end.

(** What precedes the run: a result, or the directory to run in. *)
Inductive prepared := Stop (r : res workload_execution_result) | Go (dir : list string).

(** Abort of an execution still active under the same workload. *)
Definition abort_existing (wid : string) (m : exec_manager) : exec_manager := (checkpoint_workload wid m).1.

(** [FailureCategory.INPUT_VALIDATION_ERROR]: the enumeration has no such member. *)
Definition NO_SUCH_CATEGORY : exn :=
  AttributeError "type object 'FailureCategory' has no attribute 'INPUT_VALIDATION_ERROR'".

Definition prepare (e : stage_env) (t : times) (spec : workload_spec) (worker_id : string) (m : exec_manager)
    : exec_manager * prepared :=
  let wid := ws_workload_id spec in
  match _resolve_sandbox_dir wid with
  | Err _ => (m, Stop (Err NO_SUCH_CATEGORY))
  | Ok dir =>
      match isolate_workspace e dir (abort_existing wid m) with
      | (m, Err x) =>
          (m, Stop (make_result (failure_result wid worker_id ("Failed to create workspace: " +:+ exn_text x)
                                   ASSET_STAGING_FAILURE f0 f0)))
      | (m, Ok _) =>
          match se_metadata e with
          | Some x => (m, Stop (Err x))
          | None =>
              let '(inputs, missing, failed) :=
                stage_inputs e (ws_parameters spec) (em_cas m) (elements (ws_input_asset_hashes spec)) ∅ [] in
              let m := with_sandboxes (<[dir := {| sb_inputs := inputs; sb_metadata := Some (redacted_spec spec) |}]>
                                         (em_sandboxes m)) m in
              let staging := fsub (t_staging_end t) (t_staging_start t) in
              match failed with
              | Some (h, x) =>
                  (m, Stop (make_result (failure_result wid worker_id
                              ("Failed to stage dependency " +:+ h +:+ ": " +:+ exn_text x) ASSET_STAGING_FAILURE staging f0)))
              | None =>
                  if negb (bool_decide (missing = [])) then
                    (m, Stop (make_result (failure_result wid worker_id
                                ("Missing dependencies locally: " +:+ list_text missing) TEMPORARY_CAS_FAILURE staging f0)))
                  else (m, Go dir)
              end
          end
      end
  end.

(** ** The run *)

(** What a workload writes to a hard-linked input goes to the object. *)
Definition write_object (p : string * string) (content : string) (c : local_cas) : local_cas :=
  with_objects (<[p.1 := <[p.2 := content]> (default ∅ (lc_objects c !! p.1))]> (lc_objects c)) c.

Definition write_input (inputs : gmap string input_file) (c : local_cas) (w : string * string) : local_cas :=
  match inputs !! w.1 with Some (Linked p) => write_object p w.2 c | _ => c end.

Definition register_runtime (wid : string) (rt : runtime) (m : exec_manager) : exec_manager :=
  flag (rt_id rt) id (with_active (od_set wid (rt_id rt) (em_active m)) m).

Definition input_files (dir : list string) (m : exec_manager) : gmap string input_file :=
  match em_sandboxes m !! dir with Some s => sb_inputs s | None => ∅ end.

(** The input directory as the runtime reads it. *)
Definition input_view (dir : list string) (m : exec_manager) : gmap string string :=
  omap (input_content (em_cas m)) (input_files dir m).

(** The effects of the run, and the entry of the table removed. *)
Definition end_run (wid : string) (rt : runtime) (dir : list string) (r : run) (m : exec_manager) : exec_manager :=
  let m := with_cas (fold_left (write_input (input_files dir m)) (run_writes r) (em_cas m)) m in
  let m := if run_checkpointed r then flag (rt_id rt) request_checkpoint m else m in
  let m := match run_end r with
           | R_timeout _ | R_cancelled _ => flag (rt_id rt) request_cancel m
           | _ => m
           end in
  with_active (od_del wid (em_active m)) m.

Record verdict := {
  vd_success : bool; vd_stdout : option string; vd_stderr : option string;
  vd_timed_out : bool; vd_cancelled : bool;
}.

(** The [except] branches; a [cancel] that raises leaves the function. *)
Definition judge_run (timeout_seconds : option float) (r : run) : res verdict :=
  match run_end r with
  | R_returned ok out err =>
      Ok {| vd_success := ok; vd_stdout := out; vd_stderr := err; vd_timed_out := false; vd_cancelled := false |}
  | R_timeout (Some x) | R_cancelled (Some x) => Err x
  | R_timeout None =>
      Ok {| vd_success := false; vd_stdout := None;
            vd_stderr := Some ("Execution timed out after "
                               +:+ (match timeout_seconds with Some s => float_text s | None => "None" end) +:+ " seconds");
            vd_timed_out := true; vd_cancelled := false |}
  | R_cancelled None =>
      Ok {| vd_success := false; vd_stdout := None; vd_stderr := Some "Execution cancelled by request";
            vd_timed_out := false; vd_cancelled := true |}
  | R_raised x =>
      Ok {| vd_success := false; vd_stdout := None; vd_stderr := Some ("Runtime error: " +:+ exn_text x);
            vd_timed_out := false; vd_cancelled := false |}
  end.

(** ** Ingestion *)

(** The files already ingested stay in the result when a later one fails. *)
Fixpoint ingest (env : nat -> ingest_env) (k : nat) (files : list (string * option string)) (c : local_cas)
    (hashes : gset string) (sizes : odict Z) : local_cas * gset string * odict Z * option exn :=
  match files with
  | [] => (c, hashes, sizes, None)
  | (_, content) :: rest =>
      match store_file (ie_io (env k)) (ie_uuid (env k)) (ie_now (env k)) content None c with
      | (c, Err x) => (c, hashes, sizes, Some x)
      | (c, Ok h) =>
          match ie_getsize (env k) with
          | Some x => (c, {[h]} ∪ hashes, sizes, Some x)
          | None => ingest env (S k) rest c ({[h]} ∪ hashes) (od_set h (str_len (default "" content)) sizes)
          end
      end
  end.

(** ** The verdict *)

Definition timeout_of (spec : workload_spec) : option float := x ← ws_execution_spec spec; es_timeout_seconds x.

Definition unsupported_text (rt : runtime) : string :=
  newline +:+ "Checkpoint was requested but this runtime (" +:+ rt_name rt
  +:+ ") does not support checkpointing (supports_checkpointing=False); execution was aborted and must be retried as a fresh attempt rather than resumed.".

Definition classify (unsupported timed_out ingestion_failed verification_failed cancelled : bool) : failure_category :=
  if unsupported then WORKER_UNAVAILABLE
  else if timed_out then EXECUTION_TIMEOUT
  else if ingestion_failed then TEMPORARY_CAS_FAILURE
  else if verification_failed then ARTIFACT_VERIFICATION_FAILURE
  else if cancelled then EXECUTION_FAILURE
  else EXECUTION_FAILURE.

Definition smallest (hashes : gset string) : option string := head (isort str_lt (elements hashes)).

(** From the end of the run to the result; [grouped] says whether there is an
    execution context.  A count that is not a number raises. *)
Definition conclude (env : nat -> ingest_env) (cleanup_fails : bool) (t : times) (spec : workload_spec)
    (worker_id : string) (rt : runtime) (grouped : bool) (dir : list string) (r : run) (m : exec_manager)
    : exec_manager * res workload_execution_result :=
  match judge_run (timeout_of spec) r with
  | Err x => (m, Err x)
  | Ok v =>
      let checkpoint_requested := rf_checkpoint (default no_flags (em_flags m !! rt_id rt)) in
      let was_checkpointed := checkpoint_requested && rt_supports_checkpointing rt in
      let unsupported := checkpoint_requested && negb (rt_supports_checkpointing rt) in
      let success := vd_success v && negb unsupported in
      let stderr := if unsupported then append_text (vd_stderr v) (unsupported_text rt) else vd_stderr v in
      let '(c, hashes, sizes, ingestion_error) :=
        if success && negb (vd_cancelled v) then ingest env 0 (run_files r) (em_cas m) ∅ []
        else (em_cas m, ∅, [], None) in
      let m := with_cas c m in
      let ingestion_failed := bool_decide (is_Some ingestion_error) in
      let success := success && negb ingestion_failed in
      let stderr := match ingestion_error with
                    | Some x => append_text stderr (newline +:+ "Output ingestion failed: " +:+ exn_text x)
                    | None => stderr
                    end in
      let expected := od_get "expected_output_count" (ws_parameters spec) in
      let count := Z.of_nat (size hashes) in
      match (if success && negb was_checkpointed && negb grouped then too_few_outputs count expected else Ok false) with
      | Err x => (m, Err x)
      | Ok verification_failed =>
          let success := success && negb verification_failed in
          let stderr := if verification_failed
                        then append_text stderr (newline +:+ "Output verification failed: expected at least "
                               +:+ json_text (default JNull expected) +:+ " output file(s), found " +:+ str_of_Z count +:+ ".")
                        else stderr in
          let final_success := success || was_checkpointed in
          (cleanup_sandbox cleanup_fails dir m,
           make_result
             {| er_workload_id := ws_workload_id spec; er_worker_id := worker_id; er_success := final_success;
                er_output_asset_hashes := hashes; er_output_asset_sizes := sizes;
                er_execution_duration_seconds := fsub (t_end t) (t_start t);
                er_error_message := if final_success then None else Some (failure_text (vd_stdout v) stderr);
                er_was_checkpointed := was_checkpointed;
                er_checkpoint_hash := if was_checkpointed then smallest hashes else None;
                er_failure_category :=
                  if final_success then None
                  else Some (classify unsupported (vd_timed_out v) ingestion_failed verification_failed (vd_cancelled v));
                er_checkpoint_runtime_type := if was_checkpointed then Some (rt_name rt) else None;
                er_checkpoint_format_version := if was_checkpointed then Some CURRENT_CHECKPOINT_FORMAT_VERSION else None;
                er_staging_duration_seconds := fsub (t_staging_end t) (t_staging_start t);
                er_output_ingestion_duration_seconds := fsub (t_ingest_end t) (t_ingest_start t);
                er_verification_duration_seconds := fsub (t_verify_end t) (t_verify_start t);
                er_transfer_duration_seconds := f0;
                er_stdout_snippet := vd_stdout v; er_stderr_snippet := stderr |})
      end
  end.

(** The whole of [execute_workload]; the run depends on the inputs it finds. *)
Definition execute_workload (e : stage_env) (env : nat -> ingest_env) (cleanup_fails : bool) (t : times)
    (spec : workload_spec) (worker_id : string) (rt : runtime) (grouped : bool)
    (behaviour : gmap string string -> run) (m : exec_manager) : exec_manager * res workload_execution_result :=
  match prepare e t spec worker_id m with
  | (m, Stop r) => (m, r)
  | (m, Go dir) =>
      let m := register_runtime (ws_workload_id spec) rt m in
      let r := behaviour (input_view dir m) in
      conclude env cleanup_fails t spec worker_id rt grouped dir r (end_run (ws_workload_id spec) rt dir r m)
  end.
End Execution.
