(* ===== verification/ExecutionProps.v ===== *)
(** * What running a workload guarantees

    The sandbox is confined, the inputs a workload reads are the objects its
    specification names, a success means what it says, a failure is retried
    exactly when the environment caused it, and the store survives any run that
    leaves its inputs alone. *)
From S2P Require Export Execution.
#[local] Hint Resolve grows_refl extends_refl : core.

(** ** Ingestion *)

Definition file_digests (files : list (string * option string)) : gset string :=
  list_to_set (map (fun f => sha256 (default "" (snd f))) files).

Definition stored (c : local_cas) (f : string * option string) : Prop :=
  exists x, snd f = Some x /\ holds (sha256 x) c = true.

Lemma ingest_spec env files : forall k c hashes sizes c' hs sz err,
  ingest env k files c hashes sizes = (c', hs, sz, err) ->
  extends c c' /\ (forall h, h ∈ hs -> h ∈ hashes \/ holds h c' = true) /\
  (err = None -> hs = hashes ∪ file_digests files /\ Forall (stored c') files).
Proof.
  induction files as [|[name content] files IH]; intros k c hashes sizes c' hs sz err; simpl.
  { intros [= <- <- <- <-]. split_and!; [done|by left|]. intros _. split; [set_solver|constructor]. }
  destruct (store_file _ _ _ content None c) as [c1 [h|x]] eqn:E.
  - pose proof (commit_effect_extends _ _ (commit_effect_store_file (ie_io (env k)) (ie_uuid (env k)) (ie_now (env k)) content None c)) as He.
    rewrite E in He. simpl in He. apply store_file_ok in E as (data & -> & -> & Hh).
    destruct (ie_getsize (env k)).
    { intros [= <- <- <- <-]. split_and!; [done| |done]. intros h [->%elem_of_singleton|]%elem_of_union; [by right|by left]. }
    intros H. apply IH in H as (He2 & Hhs & Hok). split_and!; [by etrans| |].
    + intros h Hin. destruct (Hhs _ Hin) as [[->%elem_of_singleton|]%elem_of_union|]; [right|by left|by right].
      eapply grows_holds; [apply He2|done].
    + intros Hn. destruct (Hok Hn) as [-> Hf]. split.
      * unfold file_digests. cbn [map list_to_set snd default foldr]. change (default "" (Some data)) with data. clear. set_solver.
      * constructor; [|done]. exists data. split; [done|]. eapply grows_holds; [apply He2|done].
  - pose proof (commit_effect_extends _ _ (commit_effect_store_file (ie_io (env k)) (ie_uuid (env k)) (ie_now (env k)) content None c)) as He.
    rewrite E in He. intros [= <- <- <- <-]. split_and!; [done|by left|done].
Qed.

(** ** Staging *)

Lemma stage_alias_spec e wanted name x inputs inputs' :
  stage_alias e wanted name x inputs = Ok inputs' ->
  (forall n f, inputs !! n = Some f -> inputs' !! n = Some f) /\
  (forall n f, inputs' !! n = Some f -> inputs !! n = Some f \/ f = Copied x).
Proof.
  unfold stage_alias. destruct (negb wanted); simpl; [intros [= <-]; auto|].
  case_bool_decide as Hn; [intros [= <-]; auto|].
  assert (inputs !! name = None) as Hnone by (destruct (inputs !! name); [exfalso; by apply Hn|done]).
  destruct (links e name inputs); [|destruct (se_copy e name); [done|]]; intros [= <-]; (split; intros n f;
    (destruct (decide (n = name)) as [->|]; [rewrite lookup_insert_eq|rewrite lookup_insert_ne by done]); naive_solver).
Qed.

Lemma get_asset_path_object h c p :
  is_sha256 h = true -> get_asset_path h c = Some p -> p = (shard_of h, h) /\ exists x, object h c = Some x.
Proof.
  intros Hv. unfold get_asset_path. rewrite get_path_valid by done.
  destruct (is_file (shard_of h, h) c) eqn:E; [|done]. intros [= <-]. split; [done|]. by apply bool_decide_eq_true in E.
Qed.

(** One digest: its name holds its object, and only its aliases may be added. *)
Lemma stage_input_spec e params c h inputs inputs' :
  is_sha256 h = true -> stage_input e params c h inputs = Ok inputs' ->
  (exists f x, inputs' !! h = Some f /\ input_content c f = Some x /\ object h c = Some x) /\
  (forall name f, inputs' !! name = Some f -> name = h \/ inputs !! name = Some f \/ exists x, f = Copied x) /\
  (forall name, name <> h -> is_Some (inputs !! name) -> inputs' !! name = inputs !! name).
Proof.
  intros Hv. unfold stage_input. destruct (get_asset_path h c) as [p|] eqn:Ep; [|done].
  apply get_asset_path_object in Ep as [-> [x Hx]]; [|done]. pose proof Hx as Hx'. unfold object in Hx'.
  destruct (links e h inputs).
  { intros [= <-]. split_and!.
    - exists (Linked (shard_of h, h)), x. by rewrite lookup_insert_eq.
    - intros name f. destruct (decide (name = h)); [by left|]. rewrite lookup_insert_ne by done. auto.
    - intros name Hn _. by rewrite lookup_insert_ne. }
  destruct (se_copy e h); [done|]. rewrite Hx'. simpl. intros (i1 & H1 & H2)%res_bind_ok.
  apply stage_alias_spec in H1 as [K1 N1], H2 as [K2 N2]. split_and!.
  - exists (Copied x), x. split; [|done]. apply K2, K1. by rewrite lookup_insert_eq.
  - intros name f [[Hf|]%N1|]%N2; [|by eauto..]. destruct (decide (name = h)); [by left|].
    rewrite lookup_insert_ne in Hf by done. auto.
  - intros name Hne [f Hf]. rewrite Hf. apply K2, K1. by rewrite lookup_insert_ne.
Qed.

(** The loop: when it neither fails nor misses a digest, each digest's name
    holds its object; a hard link always has the name of a digest. *)
Definition staged_as (c : local_cas) (inputs : gmap string input_file) (h : string) : Prop :=
  exists f x, inputs !! h = Some f /\ input_content c f = Some x /\ object h c = Some x.

Definition links_within (inputs : gmap string input_file) (hs : list string) : Prop :=
  forall name p, inputs !! name = Some (Linked p) -> name ∈ hs.

Lemma stage_inputs_spec e params c hs : forall inputs missing inputs' missing' failed,
  Forall (fun h => is_sha256 h = true) hs ->
  stage_inputs e params c hs inputs missing = (inputs', missing', failed) ->
  (forall all, hs ⊆ all -> links_within inputs all -> links_within inputs' all) /\
  (exists more, missing' = missing ++ more) /\
  (failed = None -> missing' = missing ->
     (forall h, staged_as c inputs h -> staged_as c inputs' h) /\ forall h, h ∈ hs -> staged_as c inputs' h).
Proof.
  induction hs as [|h hs IH]; intros inputs missing inputs' missing' failed Hv; simpl.
  { intros [= <- <- <-]. split_and!; [done|by exists []; rewrite app_nil_r|]. intros _ _. split; [done|]. by intros h ?%elem_of_nil. }
  apply Forall_cons in Hv as [Hh Hv]. destruct (has_asset h c); simpl.
  2:{ intros H. apply IH in H as (Hl & [more ->] & _); [|done]. split_and!.
      - intros all Hall. apply Hl. set_solver.
      - exists (h :: more). by rewrite <- app_assoc.
      - intros _ Heq. apply (f_equal length) in Heq. rewrite !length_app in Heq. simpl in Heq. lia. }
  destruct (stage_input e params c h inputs) as [i1|x] eqn:E.
  2:{ intros [= <- <- <-]. split_and!; [done|by exists []; rewrite app_nil_r|done]. }
  apply stage_input_spec in E as (Hs & Hnew & Hkeep); [|done].
  assert (forall h', staged_as c inputs h' -> staged_as c i1 h') as Hmono.
  { intros h' (f & x & Hf & Hx). destruct (decide (h' = h)) as [->|Hne]; [done|].
    exists f, x. split; [|done]. rewrite Hkeep by eauto. done. }
  intros H. apply IH in H as (Hl & Hm & Hok); [|done]. split_and!; [|done|].
  - intros all Hall Hin. apply Hl; [set_solver|]. intros name p Hp.
    destruct (Hnew _ _ Hp) as [->|[Hp'|[x [=]]]]; [set_solver|by eapply Hin].
  - intros Hf Hmm. destruct (Hok Hf Hmm) as [A1 A2]. split; [auto|]. intros h' [->|Hin]%elem_of_cons; [|auto]. by apply A1.
Qed.

Section Props.
Context (real_root : list string) (realpath : list string -> list string).
Context (float_text : float -> string) (json_text : json -> string).
#[local] Abbreviation resolve := (_resolve_sandbox_dir real_root realpath).
#[local] Abbreviation prepare := (prepare real_root realpath).
#[local] Abbreviation conclude := (conclude float_text json_text).
#[local] Abbreviation execute_workload := (execute_workload real_root realpath float_text json_text).

(** The digests of a specification are validated when it is built. *)
Definition valid_inputs (spec : workload_spec) : Prop := forall h, h ∈ ws_input_asset_hashes spec -> is_sha256 h = true.

(** The inputs of a directory are the objects of the store. *)
Definition faithful_inputs (spec : workload_spec) (c : local_cas) (view : gmap string string) : Prop :=
  forall h, h ∈ ws_input_asset_hashes spec -> exists x, object h c = Some x /\ view !! h = Some x.

Lemma cleanup_cas fails dir m : em_cas (cleanup_sandbox fails dir m) = em_cas m.
Proof. by destruct fails. Qed.

Lemma abort_cas wid m : em_cas (abort_existing wid m) = em_cas m.
Proof. unfold abort_existing, checkpoint_workload. by destruct (od_get wid (em_active m)). Qed.

Lemma isolate_cas e dir m m' r : isolate_workspace e dir m = (m', r) -> em_cas m' = em_cas m.
Proof.
  unfold isolate_workspace. pose proof (cleanup_cas (se_cleanup_fails e) dir m) as Hc.
  set (m1 := cleanup_sandbox _ _ _) in *. destruct (em_sandboxes m1 !! dir); [by intros [= <- _]|].
  destruct (se_workspace e); by intros [= <- _].
Qed.

Lemma prepare_cas e t spec w m m' p : prepare e t spec w m = (m', p) -> em_cas m' = em_cas m.
Proof.
  unfold Execution.prepare. destruct (resolve _) as [dir|]; [|by intros [= <- _]].
  destruct (isolate_workspace e dir _) as [m1 [u|x]] eqn:E; apply isolate_cas in E; rewrite abort_cas in E; [|by intros [= <- _]].
  destruct (se_metadata e); [by intros [= <- _]|]. destruct (stage_inputs _ _ _ _ _ _) as [[inputs missing] [[h x]|]].
  - by intros [= <- _].
  - case_bool_decide; by intros [= <- _].
Qed.

Lemma prepare_go e t spec w m m' dir : valid_inputs spec -> prepare e t spec w m = (m', Go dir) ->
  resolve (ws_workload_id spec) = Ok dir /\
  (forall c, c = em_cas m -> faithful_inputs spec c (omap (input_content c) (input_files dir m'))) /\
  links_within (input_files dir m') (elements (ws_input_asset_hashes spec)).
Proof.
  intros Hv. unfold Execution.prepare. destruct (resolve _) as [dir'|]; [|done].
  destruct (isolate_workspace e dir' _) as [m1 [u|x]] eqn:E; apply isolate_cas in E; rewrite abort_cas in E; [|done].
  destruct (se_metadata e); [done|].
  destruct (stage_inputs _ _ _ _ _ _) as [[inputs missing] failed] eqn:Es.
  assert (Forall (fun h => is_sha256 h = true) (elements (ws_input_asset_hashes spec))) as Hf.
  { apply Forall_forall. intros h Hh. apply Hv. by apply elem_of_elements. }
  apply stage_inputs_spec in Es as (Hl & _ & Hok); [|done].
  destruct failed as [[h x]|]; [done|]. case_bool_decide as Hm; [|done]. intros [= <- <-].
  unfold input_files. simpl. rewrite lookup_insert_eq. simpl. subst missing. split_and!; [done| |by apply Hl].
  intros c -> h Hh. destruct (Hok eq_refl eq_refl) as [_ Hs]. rewrite E in Hs.
  destruct (Hs h) as (f & x & Hf1 & Hx & Ho); [by apply elem_of_elements|]. exists x. split; [done|].
  rewrite lookup_omap, Hf1. done.
Qed.

(** ** The run *)

Definition leaves_inputs (spec : workload_spec) (r : run) : Prop :=
  forall w, w ∈ run_writes r -> w.1 ∉ ws_input_asset_hashes spec.

Lemma write_input_kept inputs hs c w : links_within inputs hs -> w.1 ∉ hs -> write_input inputs c w = c.
Proof. intros Hl Hw. unfold write_input. destruct (inputs !! w.1) as [[p|x]|] eqn:E; [|done..]. by apply Hl in E. Qed.

Lemma write_inputs_kept inputs hs ws : links_within inputs hs -> (forall w, w ∈ ws -> w.1 ∉ hs) -> forall c,
  fold_left (write_input inputs) ws c = c.
Proof.
  intros Hl. induction ws as [|w ws IH]; intros Hw c; simpl; [done|].
  rewrite (write_input_kept _ _ _ _ Hl) by (apply Hw, elem_of_cons; by left). apply IH. intros w' Hin. apply Hw, elem_of_cons. by right.
Qed.

Lemma register_cas wid rt m : em_cas (register_runtime wid rt m) = em_cas m.
Proof. done. Qed.

Lemma end_run_cas wid rt dir r m :
  em_cas (end_run wid rt dir r m) = fold_left (write_input (input_files dir m)) (run_writes r) (em_cas m).
Proof. unfold end_run. by destruct (run_checkpointed r), (run_end r). Qed.

Lemma make_result_ok r x : make_result r = Ok x -> x = r.
Proof. unfold make_result. destruct (_ && _); congruence. Qed.

(** What a conclusion does to the store, and what a success means. *)
Lemma conclude_spec env cl t spec w rt grouped dir r m m' res :
  conclude env cl t spec w rt grouped dir r m = (m', res) ->
  extends (em_cas m) (em_cas m') /\
  (cl = false -> is_ok res = true -> em_sandboxes m' !! dir = None) /\
  (forall x, res = Ok x -> er_success x = true ->
     if er_was_checkpointed x then rt_supports_checkpointing rt = true
     else (exists out err, run_end r = R_returned true out err) /\
          er_output_asset_hashes x = file_digests (run_files r) /\ Forall (stored (em_cas m')) (run_files r) /\
          (grouped = false ->
             too_few_outputs (Z.of_nat (size (file_digests (run_files r)))) (od_get "expected_output_count" (ws_parameters spec)) = Ok false)).
Proof.
  unfold Execution.conclude. destruct (judge_run _ _ r) as [v|x] eqn:Ev; [|intros [= <- <-]; split_and!; done].
  set (chk := rf_checkpoint _). set (ok := vd_success v && negb (chk && negb (rt_supports_checkpointing rt))).
  destruct (if ok && negb (vd_cancelled v) then _ else _) as [[[c hashes] sizes] ierr] eqn:Ei.
  assert (extends (em_cas m) c /\ (ok = true -> ierr = None -> vd_cancelled v = false ->
            hashes = file_digests (run_files r) /\ Forall (stored c) (run_files r))) as [Hext Hing].
  { destruct (ok && negb (vd_cancelled v)) eqn:Eb.
    - apply ingest_spec in Ei as (He & _ & Hok). split; [done|]. intros _ -> _. destruct (Hok eq_refl) as [-> Hf].
      split; [|done]. clear. set_solver.
    - injection Ei as <- <- <- <-. split; [done|]. intros H _ Hc. by rewrite H, Hc in Eb. }
  destruct (if (_ && _ && _ && _)%bool then _ else _) as [few|x] eqn:Ef; [|intros [= <- <-]; split_and!; done].
  intros [= <- <-]. split_and!.
  - by rewrite cleanup_cas.
  - intros -> _. simpl. by rewrite lookup_delete_eq.
  - intros x Hx. apply make_result_ok in Hx as ->. simpl. intros Hs.
    destruct (chk && rt_supports_checkpointing rt) eqn:Ec; [by apply andb_true_iff in Ec as [_ ?]|].
    rewrite orb_false_r in Hs. apply andb_true_iff in Hs as [[Hok Hi]%andb_true_iff Hfew].
    assert (ierr = None) as -> by (destruct ierr; [done|done]).
    assert (vd_cancelled v = false /\ exists out err, run_end r = R_returned true out err) as [Hvc Hret].
    { apply andb_true_iff in Hok as [Hvs _]. unfold judge_run in Ev.
      destruct (run_end r) as [b o er|[]|[]|]; try discriminate Ev; injection Ev as <-; simpl in *; [|discriminate..]. subst b. eauto. }
    destruct (Hing Hok eq_refl Hvc) as [-> Hst]. split_and!; [done|done|by rewrite cleanup_cas|].
    intros ->. rewrite Hok in Ef. simpl in Ef. rewrite Ef. by destruct few.
Qed.

Lemma stop_inj (m m' : exec_manager) a b : (m, Stop a) = (m', Stop b) -> a = b.
Proof. congruence. Qed.

(** What stops an execution before its run is a failure that is retried. *)
Lemma prepare_stop e t spec w m m' y :
  prepare e t spec w m = (m', Stop (Ok y)) -> er_success y = false /\ is_retryable (er_failure_category y) = true.
Proof.
  unfold Execution.prepare. destruct (resolve _) as [dir|]; [|done].
  destruct (isolate_workspace e dir _) as [m2 [u|z]]; [|by intros ->%stop_inj%make_result_ok].
  destruct (se_metadata e); [done|]. destruct (stage_inputs _ _ _ _ _ _) as [[inputs missing] [[h z]|]];
    [by intros ->%stop_inj%make_result_ok|].
  case_bool_decide; [done|]. by intros ->%stop_inj%make_result_ok.
Qed.

(** The store after an execution, and the view its run was given. *)
Lemma execute_spec e env cl t spec w rt grouped behaviour m m' res :
  valid_inputs spec -> (forall view, leaves_inputs spec (behaviour view)) ->
  execute_workload e env cl t spec w rt grouped behaviour m = (m', res) ->
  extends (em_cas m) (em_cas m') /\
  (forall x, res = Ok x -> er_success x = true -> exists view, faithful_inputs spec (em_cas m) view /\
     exists dir m1, resolve (ws_workload_id spec) = Ok dir /\
       em_cas m1 = em_cas m /\ conclude env cl t spec w rt grouped dir (behaviour view) m1 = (m', res)).
Proof.
  intros Hv Hw. unfold Execution.execute_workload. destruct (prepare e t spec w m) as [m1 p] eqn:Ep.
  pose proof (prepare_cas _ _ _ _ _ _ _ Ep) as Hc. destruct p as [r|dir].
  { intros [= <- <-]. rewrite Hc. split; [done|]. intros x -> Hs. by apply prepare_stop in Ep as [Hf _]; rewrite Hf in Hs. }
  apply prepare_go in Ep as (Hd & Hview & Hl); [|done]. intros H.
  set (m2 := register_runtime _ rt m1) in *. set (view := input_view dir m2) in *.
  pose proof (end_run_cas (ws_workload_id spec) rt dir (behaviour view) m2) as He.
  rewrite (write_inputs_kept _ (elements (ws_input_asset_hashes spec))) in He;
    [|done|intros x Hx; rewrite elem_of_elements; by eapply Hw].
  change (em_cas m2) with (em_cas m1) in He. rewrite Hc in He.
  pose proof (conclude_spec _ _ _ _ _ _ _ _ _ _ _ _ H) as (Hext & _ & _). rewrite He in Hext. split; [done|].
  intros x -> Hs. exists view. split.
  - unfold view, input_view, m2. rewrite register_cas, Hc. by apply Hview.
  - by exists dir, (end_run (ws_workload_id spec) rt dir (behaviour view) m2).
Qed.

(** An execution whose workload does not write to its inputs leaves a
    well-formed store that keeps every object, and a successful result is
    deserved: the run read, under each input digest, content with that digest;
    either the run was checkpointed by a runtime that declares it can, or it
    reported success, every file it left in the output directory is in the
    store, the result lists exactly their digests, and outside a group there
    are at least as many as the specification expects. *)
Theorem execution_success_sound e env cl t spec w rt grouped behaviour m m' res :
  valid_inputs spec -> cas_ok (em_cas m) -> (forall view, leaves_inputs spec (behaviour view)) ->
  execute_workload e env cl t spec w rt grouped behaviour m = (m', res) ->
  cas_ok (em_cas m') /\ (forall h x, object h (em_cas m) = Some x -> object h (em_cas m') = Some x) /\
  forall r, res = Ok r -> er_success r = true -> exists view,
    (forall h, h ∈ ws_input_asset_hashes spec -> exists x, view !! h = Some x /\ sha256 x = h) /\
    if er_was_checkpointed r then rt_supports_checkpointing rt = true
    else (exists out err, run_end (behaviour view) = R_returned true out err) /\
         er_output_asset_hashes r = file_digests (run_files (behaviour view)) /\
         Forall (stored (em_cas m')) (run_files (behaviour view)) /\
         (grouped = false ->
            too_few_outputs (Z.of_nat (size (er_output_asset_hashes r)))
              (od_get "expected_output_count" (ws_parameters spec)) = Ok false).
Proof.
  intros Hv Hc Hw E. pose proof (execute_spec _ _ _ _ _ _ _ _ _ _ _ _ Hv Hw E) as [[Hok Hg] Hres].
  split_and!; [auto|done|]. intros r -> Hs. destruct (Hres r eq_refl Hs) as (view & Hview & dir & m1 & _ & _ & Hcon).
  exists view. split.
  - intros h Hh. destruct (Hview h Hh) as (x & Hx & Hvx). exists x. split; [done|]. by destruct (Hc _ _ Hx).
  - apply conclude_spec in Hcon as (_ & _ & Hsucc). specialize (Hsucc r eq_refl Hs).
    destruct (er_was_checkpointed r); [done|]. destruct Hsucc as (A & B & C & D). rewrite B. auto.
Qed.

(** A run that ended in a result is retried exactly when the environment
    failed it: the checkpoint it was asked for is not supported, it timed out,
    or it succeeded and its outputs could not be ingested.  A failure the
    workload itself reports, an exception, a cancellation or missing outputs
    are final, and a success carries no category.  What stops an execution
    before its run is always retried. *)
Theorem failure_retried_iff_environment env cl t spec w rt grouped dir r m m' x :
  conclude env cl t spec w rt grouped dir r m = (m', Ok x) ->
  (er_success x = true -> er_failure_category x = None) /\
  (er_success x = false ->
     is_retryable (er_failure_category x) = true <->
     (rf_checkpoint (default no_flags (em_flags m !! rt_id rt)) = true /\ rt_supports_checkpointing rt = false) \/
     run_end r = R_timeout None \/
     ((exists out err, run_end r = R_returned true out err) /\
      is_Some (ingest env 0 (run_files r) (em_cas m) ∅ []).2)) /\
  (forall e y, (prepare e t spec w m).2 = Stop (Ok y) -> er_success y = false /\ is_retryable (er_failure_category y) = true).
Proof.
  intros H. split_and!.
  3:{ intros e y Hy. apply (prepare_stop e t spec w m (prepare e t spec w m).1). by rewrite <- Hy, <- surjective_pairing. }
  all: unfold Execution.conclude in H; destruct (judge_run _ _ r) as [v|z] eqn:Ev; [|done]; revert H;
    set (chk := rf_checkpoint _); set (sup := rt_supports_checkpointing rt);
    destruct (if _ && _ && _ then _ else _) as [[[c hashes] sizes] ierr] eqn:Ei;
    destruct (if (_ && _ && _ && _)%bool then _ else _) as [few|z] eqn:Ef; [|done];
    intros [= <- Hx]; apply make_result_ok in Hx as ->; simpl; intros Hs; rewrite Hs.
  { done. }
  apply orb_false_iff in Hs as [Hs Hwas].
  assert (chk && sup = false) as Hcs by done.
  destruct (chk && negb sup) eqn:Eu.
  { simpl. apply andb_true_iff in Eu as [-> Hsup%negb_true_iff]. split; [intros _; by left|done]. }
  assert (chk = true /\ sup = false <-> False) as Hno by (split; [intros [-> ->]; done|done]).
  fold sup. rewrite Hno. unfold judge_run in Ev. rewrite andb_true_r in Ei.
  destruct (run_end r) as [ok o er|[y|]|[y|]|y]; try discriminate Ev; injection Ev as <-; simpl in *.
  - rewrite andb_true_r in Ei. destruct ok; simpl in *.
    + rewrite Ei. simpl. destruct ierr as [y|]; simpl.
      * split; [|done]. intros _. right. right. split; [eauto|done].
      * destruct few; [|done]. simpl. split; [done|]. intros [[]|[[=]|[_ [? [=]]]]].
    + injection Ei as <- <- <- <-. simpl in *. injection Ef as <-. simpl. split; [done|]. intros [[]|[[=]|[(? & ? & [=]) _]]].
  - injection Ei as <- <- <- <-. simpl. split; [|done]. intros _. right. by left.
  - injection Ei as <- <- <- <-. simpl in *. injection Ef as <-. simpl. split; [done|]. intros [[]|[[=]|[(? & ? & [=]) _]]].
  - injection Ei as <- <- <- <-. simpl in *. injection Ef as <-. simpl. split; [done|]. intros [[]|[[=]|[(? & ? & [=]) _]]].
Qed.
End Props.

(** ** The sandbox directory *)

Lemma re_class_upto_no_char p n s c : p c = false -> c <> nl -> re_class_upto p n s = true -> no_char c s = true.
Proof.
  intros Hp Hc. revert n. induction s as [|d s IH]; intros n; [done|]. unfold no_char. simpl.
  intros [[->%Ascii.eqb_eq ->%String.eqb_eq]%andb_true_iff|H]%orb_true_iff.
  - rewrite andb_true_r. apply negb_true_iff. by apply Ascii.eqb_neq.
  - destruct n as [|n]; [done|]. apply andb_true_iff in H as [Hd H]. apply andb_true_iff. split; [|by eapply IH].
    apply negb_true_iff, Ascii.eqb_neq. intros ->. congruence.
Qed.


(** ** Concrete executions *)

Definition sample_root : list string := ["srv"; "workloads"].
Definition sample_times : times :=
  {| t_staging_start := f0; t_staging_end := f1; t_start := f0; t_end := f1; t_ingest_start := f0; t_ingest_end := f1;
     t_verify_start := f0; t_verify_end := f1 |}.
Definition sample_stage (link : bool) : stage_env :=
  {| se_cleanup_fails := false; se_workspace := None; se_metadata := None; se_link := fun _ => link; se_copy := fun _ => None |}.
Definition sample_ingest (k : nat) : ingest_env :=
  {| ie_io := io_ok; ie_uuid := str_of_Z (Z.of_nat k); ie_now := f0; ie_getsize := None |}.
Definition scene_digest : string := Eval vm_compute in sha256 "scene".
Definition stocked : local_cas := (store_bytes io_ok "u" f0 "scene" empty_cas).1.
Definition render_spec (wid : string) (parameters : odict json) : workload_spec :=
  spec_with_parameters parameters
    {| ws_workload_id := wid; ws_job_id := None; ws_task_type := "render"; ws_input_asset_hashes := {[scene_digest]};
       ws_min_cpu_cores := 1; ws_min_ram_bytes := 0; ws_requires_gpu := false; ws_min_vram_bytes := 0;
       ws_estimated_duration_seconds := f1; ws_priority := 0; ws_deadline_at_utc := None; ws_required_gpu_vendor := None;
       ws_required_gpu_model := None; ws_min_compute_capability := None; ws_required_driver_version := None;
       ws_required_runtime_compatibility := None; ws_required_worker_tags := []; ws_preferred_worker_tags := [];
       ws_affinity_group_id := None; ws_affinity_mode := AF_NONE; ws_affinity_tag_key := None; ws_affinity_hard := false;
       ws_max_cost_per_hour := None; ws_depends_on := []; ws_parameters := []; ws_execution_spec := None |}.
Definition subprocess (n : nat) : runtime :=
  {| rt_id := n; rt_name := "GenericSubprocessRuntime"; rt_supports_checkpointing := false |}.
Definition finished (files : list (string * option string)) : run :=
  {| run_end := R_returned true None None; run_files := files; run_writes := []; run_checkpointed := false |}.

Definition sample_execute (link : bool) (spec : workload_spec) (r : run) : exec_manager * res workload_execution_result :=
  execute_workload sample_root id (fun _ => "x") (fun _ => "n") (sample_stage link) sample_ingest false sample_times spec "pc1"
    (subprocess 0) false (fun _ => r) (new_manager stocked).

Definition frames : list (string * option string) := [("f1.png", Some "red"); ("f2.png", Some "blue")].

Lemma stocked_ok : cas_ok stocked.
Proof. exact (cas_step_ok _ (StoreBytes io_ok "u" f0 "scene") empty_cas_ok). Qed.

Lemma render_inputs_valid wid parameters : valid_inputs (render_spec wid parameters).
Proof.
  intros h Hh. change (h ∈ ({[scene_digest]} : gset string)) in Hh. apply elem_of_singleton in Hh as ->. vm_compute. reflexivity.
Qed.

Lemma execution_success_witness :
  exists m' r (view : gmap string string), sample_execute true (render_spec "w1" [("expected_output_count", JInt 2)]) (finished frames) = (m', Ok r) /\
    er_success r = true /\ er_was_checkpointed r = false /\ cas_ok (em_cas m') /\ (exists x, view !! scene_digest = Some x /\ sha256 x = scene_digest) /\
    er_output_asset_hashes r = file_digests frames.
Proof.
  destruct (sample_execute true (render_spec "w1" [("expected_output_count", JInt 2)]) (finished frames)) as [m' x] eqn:E.
  assert (match snd (sample_execute true (render_spec "w1" [("expected_output_count", JInt 2)]) (finished frames)) with
          | Ok r => er_success r && negb (er_was_checkpointed r) | Err _ => false end = true) as Hr by (vm_compute; reflexivity).
  rewrite E in Hr. cbn [snd] in Hr. destruct x as [r|]; [|discriminate Hr]. apply andb_true_iff in Hr as [Hs Hck].
  apply negb_true_iff in Hck.
  destruct (execution_success_sound sample_root id (fun _ => "x") (fun _ => "n") (sample_stage true) sample_ingest false sample_times
              (render_spec "w1" [("expected_output_count", JInt 2)]) "pc1" (subprocess 0) false (fun _ => finished frames)
              (new_manager stocked) m' (Ok r) (render_inputs_valid _ _) stocked_ok
              (fun _ w Hw => False_ind _ (proj1 (elem_of_nil w) Hw)) E) as (Hok & _ & Hsucc).
  destruct (Hsucc r eq_refl Hs) as (view & Hview & Hres). rewrite Hck in Hres. destruct Hres as (_ & Hh & _).
  exists m', r, view. split_and!; [reflexivity|exact Hs|exact Hck|exact Hok| |exact Hh].
  apply Hview. change (scene_digest ∈ ({[scene_digest]} : gset string)). apply elem_of_singleton. reflexivity.
Defined.


(** An unsafe id is not answered by a failed result: naming the category raises. *)
Example unsafe_id_raises :
  (sample_execute true (render_spec "../etc" []) (finished frames)).2 = Err NO_SUCH_CATEGORY.
Proof. reflexivity. Qed.

(** The anchor lets a final newline through. *)
Example newline_accepted : is_ok (_resolve_sandbox_dir sample_root id ("w1" +:+ newline)) = true.
Proof. reflexivity. Qed.

(** The scene's [.blend] alias exists when the input was copied, not when it was linked. *)
Definition staged_names (link : bool) : list string :=
  match prepare sample_root id (sample_stage link) sample_times (render_spec "w1" [("scene_file_hash", JStr scene_digest)]) "pc1"
          (new_manager stocked) with
  | (m, Go dir) => elements (dom (input_files dir m))
  | _ => []
  end.
Example alias_only_when_copied :
  bool_decide ((scene_digest +:+ ".blend") ∈ staged_names false) = true /\
  bool_decide ((scene_digest +:+ ".blend") ∈ staged_names true) = false.
Proof. split; vm_compute; reflexivity. Qed.

(** Two frames with the same pixels count once, and the execution fails for good. *)
Definition same_frames : list (string * option string) := [("f1.png", Some "red"); ("f2.png", Some "red")].
Example identical_outputs_rejected :
  match (sample_execute true (render_spec "w1" [("expected_output_count", JInt 2)]) (finished same_frames)).2 with
  | Ok r => (er_success r, er_failure_category r) = (false, Some ARTIFACT_VERIFICATION_FAILURE)
  | Err _ => False
  end.
Proof. vm_compute. reflexivity. Qed.

(** A write to a linked input replaces the object under its old digest. *)
Definition scribbling : run :=
  {| run_end := R_returned true None None; run_files := []; run_writes := [(scene_digest, "scribble")]; run_checkpointed := false |}.
Example linked_write_corrupts :
  object scene_digest (em_cas (sample_execute true (render_spec "w1" []) scribbling).1) = Some "scribble"%string /\
  object scene_digest (em_cas (sample_execute false (render_spec "w1" []) scribbling).1) = Some "scene"%string.
Proof. split; vm_compute; reflexivity. Qed.

(** An execution that stops before its run leaves its sandbox behind. *)
Example missing_input_keeps_sandbox :
  let m := (prepare sample_root id (sample_stage true) sample_times (render_spec "w1" []) "pc1" (new_manager empty_cas)).1 in
  bool_decide (is_Some (em_sandboxes m !! (sample_root ++ ["w1"]))) = true.
Proof. vm_compute. reflexivity. Qed.

(** Two runs of one workload: the end of the first unregisters the second,
    which can then no longer be cancelled. *)
Example old_run_unregisters_new :
  let m1 := register_runtime "w1" (subprocess 0) (new_manager stocked) in
  let m2 := register_runtime "w1" (subprocess 1) (abort_existing "w1" m1) in
  let m3 := end_run "w1" (subprocess 0) sample_root (finished []) m2 in
  (cancel_workload "w1" m2).2 = true /\ (cancel_workload "w1" m3).2 = false.
Proof. split; reflexivity. Qed.

Lemma failure_retried_witness :
  exists m' x, conclude (fun _ => "x") (fun _ => "n") sample_ingest false sample_times (render_spec "w1" []) "pc1" (subprocess 0) false
      sample_root {| run_end := R_timeout None; run_files := []; run_writes := []; run_checkpointed := false |} (new_manager stocked)
      = (m', Ok x) /\ er_success x = false /\ is_retryable (er_failure_category x) = true.
Proof.
  destruct (conclude (fun _ => "x") (fun _ => "n") sample_ingest false sample_times (render_spec "w1" []) "pc1" (subprocess 0) false
      sample_root {| run_end := R_timeout None; run_files := []; run_writes := []; run_checkpointed := false |} (new_manager stocked))
    as [m' [x|e]] eqn:E; [|vm_compute in E; discriminate E].
  exists m', x. split; [reflexivity|]. assert (er_success x = false) as Hs.
  { apply (f_equal (fun p => match snd p with Ok r => er_success r | Err _ => true end)) in E.
    vm_compute in E. cbv beta iota delta [snd] in E. symmetry. exact E. }
  split; [exact Hs|]. destruct (failure_retried_iff_environment sample_root id _ _ _ _ _ _ _ _ _ _ _ _ _ _ E) as (_ & H & _).
  apply (H Hs). right. left. reflexivity.
Defined.
