(* ===== verification/Runtime.v ===== *)
(** * Running a process ([distributed/runtime.py])

    [GenericSubprocessRuntime]: the environment of a group member, the
    executable and the arguments, the verdict on the process, and the way a
    checkpoint or a cancellation ends its tree; with the group's contexts of
    [workload.py], [_dispatch_execution_group].  The machine is an argument
    ([machine]), and so is what the process does ([spawn]).  A process tree maps
    process ids to parents; nothing is started while it is taken down. *)
From S2P Require Export Execution.

(** ** URLs, as [urllib.parse.urlsplit] reads them *)

Definition is_alpha (c : ascii) : bool := is_lower c || is_upper c.
Definition is_scheme_char (c : ascii) : bool := is_alnum c || bool_decide (c ∈ ["+"; "-"; "."]%char).

Fixpoint str_until (stop : ascii -> bool) (s : string) : string * string :=
  match s with
  | EmptyString => (EmptyString, EmptyString)
  | String c r => if stop c then (EmptyString, s) else let '(a, b) := str_until stop r in (String c a, b)
  end.

(** [s.partition(c)]: before and after the first [c]. *)
Definition partition (c : ascii) (s : string) : string * string :=
  match split_once c s with Some p => p | None => (s, EmptyString) end.

(** [s.rpartition("@")[2]] *)
Definition after_last (c : ascii) (s : string) : string := default s (last (split_on c s)).

Definition has_char (c : ascii) (s : string) : bool := negb (no_char c s).

Definition split_scheme (url : string) : string * string :=
  match url, split_once ":"%char url with
  | String c _, Some (scheme, rest) =>
      if is_alpha c && str_forallb is_scheme_char scheme then (str_lower scheme, rest) else (EmptyString, url)
  | _, _ => (EmptyString, url)
  end.

Record split_url := { su_scheme : string; su_netloc : string; su_path : string }.

Definition urlsplit (url : string) : res split_url :=
  let '(scheme, rest) := split_scheme url in
  let '(netloc, tail) :=
    if starts_with "//" rest then str_until (fun c => bool_decide (c ∈ ["/"; "?"; "#"]%char)) (str_drop 2 rest) else (EmptyString, rest) in
  if xorb (has_char "["%char netloc) (has_char "]"%char netloc) then Err (ValueError "Invalid IPv6 URL")
  else Ok {| su_scheme := scheme; su_netloc := netloc;
             su_path := fst (str_until (fun c => bool_decide (c ∈ ["?"; "#"]%char)) tail) |}.

(** The host and the port text of the authority. *)
Definition hostinfo (u : split_url) : string * string :=
  let h := after_last "@"%char (su_netloc u) in
  if has_char "["%char h then
    let '(host, rest) := partition "]"%char (snd (partition "["%char h)) in (host, snd (partition ":"%char rest))
  else partition ":"%char h.

Definition url_hostname (u : split_url) : option string :=
  let '(host, zone) := partition "%"%char (fst (hostinfo u)) in
  let name := str_lower host +:+ (if has_char "%"%char (fst (hostinfo u)) then "%" +:+ zone else "") in
  if str_truthy name then Some name else None.

Definition url_port (u : split_url) : res (option Z) :=
  let p := snd (hostinfo u) in
  if negb (str_truthy p) then Ok None
  else if str_forallb is_digit p then
    match py_int p with
    | Some n => if n <=? 65535 then Ok (Some n) else Err (ValueError "Port out of range 0-65535")
    | None => Err (ValueError "port")
    end
  else Err (ValueError "Port could not be cast to integer value").

(** ** The contexts of a group ([_dispatch_execution_group]) *)

Record worker_view := { wv_worker_id : string; wv_endpoint_url : string; wv_rank : Z }.

Record execution_context := {
  ec_execution_id : string;
  ec_worker_id : string;
  ec_rank : Z;
  ec_world_size : Z;
  ec_workers : list worker_view;
}.

Definition public_endpoint (value : string) : res string :=
  let! parts := urlsplit value in
  let! port := url_port parts in
  let hostname := default "" (url_hostname parts) in
  let hostname := if has_char ":"%char hostname && negb (starts_with "[" hostname) then "[" +:+ hostname +:+ "]" else hostname in
  let netloc := hostname +:+ match port with Some p => ":" +:+ str_of_Z p | None => "" end in
  let path := rstrip_char "/"%char (su_path parts) in
  let prefix := if str_truthy (su_scheme parts) then su_scheme parts +:+ ":" else "" in
  Ok (prefix +:+ (if str_truthy netloc || starts_with "//" path then
                    "//" +:+ netloc +:+ (if str_truthy path && negb (starts_with "/" path) then "/" +:+ path else path)
                  else path)).

Fixpoint enumerate {A} (n : Z) (l : list A) : list (Z * A) :=
  match l with [] => [] | x :: l => (n, x) :: enumerate (n + 1) l end.

Definition worker_views (endpoint : string -> string) (worker_ids : list string) : res (list worker_view) :=
  foldr (fun '(rank, wid) rest =>
           let! url := public_endpoint (endpoint wid) in let! l := rest in
           Ok ({| wv_worker_id := wid; wv_endpoint_url := url; wv_rank := rank |} :: l))
    (Ok []) (enumerate 0 worker_ids).

Definition group_contexts (endpoint : string -> string) (g : execution_group) : res (list execution_context) :=
  let! views := worker_views endpoint (eg_worker_ids g) in
  Ok (map (fun '(rank, wid) =>
             {| ec_execution_id := eg_execution_id g; ec_worker_id := wid; ec_rank := rank;
                ec_world_size := eg_required_worker_count g; ec_workers := views |})
        (enumerate 0 (eg_worker_ids g))).

(** ** The machine *)

Record machine := {
  mc_environ : odict string;
  mc_nt : bool;
  mc_exists : string -> bool;
  mc_which : string -> option string;
  mc_glob : string -> list string;
  mc_registry : list string;
  mc_python : string;
}.

Section runtime.
Context (m : machine) (context_text : execution_context -> string).

(** [os.path.basename]: on Windows a backslash separates too. *)
Definition os_basename (p : string) : string :=
  basename (if mc_nt m then str_map (fun c => if Ascii.eqb c (ascii_of_N 92) then "/"%char else c) p else p).

(** The environment variable that names a program, if what it names exists. *)
Definition env_program (name : string) : option string :=
  let p := strip (od_get_default name ""%string (mc_environ m)) in
  if str_truthy p && mc_exists m p then Some p else None.

Definition first_existing (l : list string) : option string := List.find (mc_exists m) l.

(** [sorted(glob(pattern), reverse=True)] *)
Definition matches (pattern : string) : list string := rev (isort str_lt (mc_glob m pattern)).

Definition dquote : ascii := ascii_of_N 34.

(** The program of a registry value: the quoted part, or the first word. *)
Definition registry_path (val : string) : string :=
  if has_char dquote val then fst (partition dquote (snd (partition dquote val)))
  else fst (str_until is_space (lstrip val)).

Definition STEAM_PATHS : list string :=
  ["C:\Program Files (x86)\Steam\steamapps\common\Blender\blender.exe"; "C:\Program Files\Steam\steamapps\common\Blender\blender.exe";
   "D:\SteamLibrary\steamapps\common\Blender\blender.exe"; "E:\SteamLibrary\steamapps\common\Blender\blender.exe"]%string.

Definition POSIX_BLENDER : list string :=
  ["/Applications/Blender.app/Contents/MacOS/Blender"; "/snap/bin/blender"; "/usr/bin/blender"; "/usr/local/bin/blender"]%string.

Definition local_appdata : string := od_get_default "LOCALAPPDATA" ""%string (mc_environ m).

Definition winget_blender : option string :=
  if str_truthy local_appdata then
    List.find (fun p => String.eqb (str_lower (os_basename p)) "blender.exe")
      (matches (local_appdata +:+ "\Microsoft\WinGet\Packages\**\*blender*.exe"))
  else None.

(** [a or b] on searches. *)
Definition or_else {A} (a b : option A) : option A := match a with Some x => Some x | None => b end.

Definition _resolve_blender_executable (executable : string) : string :=
  default executable
    (or_else (env_program "AIDAR_BLENDER_EXECUTABLE")
    (or_else (truthy_text (mc_which m executable))
      (if mc_nt m then
         or_else (first_existing (map registry_path (filter (fun v => v <> ""%string) (mc_registry m))))
         (or_else (head (matches "C:\Program Files\Blender Foundation\Blender*\blender.exe"))
         (or_else (first_existing STEAM_PATHS) winget_blender))
       else first_existing POSIX_BLENDER))).

Definition FFMPEG_PATTERNS : list string :=
  [local_appdata +:+ "\Microsoft\WinGet\Packages\Gyan.FFmpeg*\**\bin\ffmpeg.exe"; "C:\ffmpeg\bin\ffmpeg.exe"%string;
   "C:\Program Files\ffmpeg\bin\ffmpeg.exe"%string; "C:\Program Files (x86)\ffmpeg\bin\ffmpeg.exe"%string].

Definition _resolve_ffmpeg_executable (executable : string) : string :=
  default executable
    (or_else (env_program "AIDAR_FFMPEG_EXECUTABLE")
    (or_else (truthy_text (mc_which m executable))
      (if mc_nt m then head (omap (fun p => head (matches p)) FFMPEG_PATTERNS)
       else first_existing ["/usr/bin/ffmpeg"; "/usr/local/bin/ffmpeg"; "/opt/homebrew/bin/ffmpeg"]%string))).

Definition names_program (names : list string) (executable : string) : bool :=
  bool_decide (str_lower (os_basename executable) ∈ names).

Definition resolve_executable_path (executable : string) : string :=
  if names_program ["blender"; "blender.exe"] executable then _resolve_blender_executable executable
  else if names_program ["ffmpeg"; "ffmpeg.exe"] executable then _resolve_ffmpeg_executable executable
  else if names_program ["python"; "python3"; "python.exe"] executable then mc_python m
  else default executable (truthy_text (mc_which m executable)).

(** ** The environment of a group member *)

Definition set_env (l : list (string * string)) (env : odict string) : odict string :=
  fold_left (fun e '(k, v) => od_set k v e) l env.

Definition set_defaults (l : list (string * string)) (env : odict string) : odict string :=
  fold_left (fun e '(k, v) => od_setdefault k v e) l env.

Definition LOCALHOST : string := "127.0.0.1".

(** The first entry of rank 0, or the first entry. *)
Definition leader (w : worker_view) (ws : list worker_view) : worker_view :=
  default w (List.find (fun v => wv_rank v =? 0) (w :: ws)).

Definition peer_host (v : worker_view) : res string :=
  let! u := urlsplit (wv_endpoint_url v) in Ok (default LOCALHOST (url_hostname u)).

Definition rendezvous (w : worker_view) (ws : list worker_view) : res (list (string * string)) :=
  let! parsed := urlsplit (wv_endpoint_url (leader w ws)) in
  let! port := url_port parsed in
  let host := default LOCALHOST (url_hostname parsed) in
  let base := match port with Some p => if p =? 0 then 8000 else p | None => 8000 end in
  let port_text := str_of_Z (base + 10000) in
  let! peers := foldr (fun v rest => let! h := peer_host v in let! l := rest in Ok (h :: l)) (Ok []) (w :: ws) in
  Ok [("AIDAR_MASTER_ADDR", host); ("AIDAR_MASTER_PORT", port_text); ("MASTER_ADDR", host); ("MASTER_PORT", port_text);
      ("AIDAR_PEER_IPS", String.concat "," peers)]%string.

Definition context_environment (c : execution_context) : res (odict string) :=
  let env := set_env [("AIDAR_EXECUTION_CONTEXT"%string, context_text c); ("AIDAR_RANK"%string, str_of_Z (ec_rank c));
                      ("AIDAR_WORLD_SIZE"%string, str_of_Z (ec_world_size c)); ("RANK"%string, str_of_Z (ec_rank c));
                      ("LOCAL_RANK"%string, "0"%string); ("WORLD_SIZE"%string, str_of_Z (ec_world_size c))] (mc_environ m) in
  match ec_workers c with
  | [] => Ok env
  | w :: ws => let! r := rendezvous w ws in Ok (set_defaults r env)
  end.

(** ** The command *)

(** The files of the working directory an argument may name; [link_fails] and
    [copy_fails] are what the system refuses. *)
Record alias_env := { al_link_fails : string -> bool; al_copy_fails : string -> option exn }.

Definition wants_alias (arg : string) : bool :=
  starts_with "inputs/" arg && negb (existsb (fun suf => ends_with suf arg) [".blend"; ".py"]%string).

(** One argument, with the one before it: the files and the argument passed. *)
Definition alias_arg (e : alias_env) (workdir : string) (previous : option string) (arg : string) (files : gset string)
    : gset string * res string :=
  if wants_alias arg then
    let abs_src := workdir +:+ "/" +:+ arg in
    let ext := if bool_decide (previous ∈ [Some "-P"; Some "--python"]%string) then ".py"%string else ".blend"%string in
    let abs_target := abs_src +:+ ext in
    let aliased := (({[abs_target]} ∪ files) : gset string, Ok (arg +:+ ext)) in
    if bool_decide (abs_target ∈ files) then (files, Ok (arg +:+ ext))
    else if bool_decide (abs_src ∈ files) then
      if al_link_fails e abs_target then
        match al_copy_fails e abs_target with Some x => (files, Err x) | None => aliased end
      else aliased
    else (files, Ok arg)
  else (files, Ok arg).

Fixpoint alias_args (e : alias_env) (workdir : string) (previous : option string) (args : list string) (files : gset string)
    : gset string * res (list string) :=
  match args with
  | [] => (files, Ok [])
  | arg :: args =>
      match alias_arg e workdir previous arg files with
      | (files, Err x) => (files, Err x)
      | (files, Ok a) => let '(files, r) := alias_args e workdir (Some arg) args files in (files, res_map (cons a) r)
      end
  end.

Inductive command :=
| Exec (executable : string) (args : list string) (cwd : string) (env : odict string)
| Shell (line cwd : string) (env : option (odict string)).

Definition exec_command (e : alias_env) (es : execution_spec) (workdir : string) (environment : option (odict string)) (files : gset string)
    : gset string * res command :=
  let env := set_env (es_env es) (default (mc_environ m) environment) in
  let cwd := default workdir (truthy_text (es_cwd es)) in
  let executable := if bool_decide (es_executable es ∈ ["python"; "python3"]%string) then mc_python m else es_executable es in
  let blender := names_program ["blender"; "blender.exe"]%string executable in
  let executable := if blender then _resolve_blender_executable executable else executable in
  let '(files, args) := if blender then alias_args e workdir None (es_args es) files else (files, Ok (es_args es)) in
  let executable := if names_program ["ffmpeg"; "ffmpeg.exe"]%string executable then _resolve_ffmpeg_executable executable else executable in
  (files, let! args := args in Ok (Exec executable args cwd env)).

Definition quoted (exe : string) : string := if has_char " "%char exe then String dquote (exe +:+ String dquote "") else exe.

(** The first word is replaced by the program found for it. *)
Definition shell_line (line : string) : string :=
  let rest := snd (partition " "%char line) in
  let starts l := existsb (fun p => starts_with p line) l in
  if starts ["python "; "python3 "]%string then quoted (mc_python m) +:+ " " +:+ rest
  else if starts ["blender "; "blender.exe "]%string then quoted (_resolve_blender_executable "blender") +:+ " " +:+ rest
  else if starts ["ffmpeg "; "ffmpeg.exe "]%string then quoted (_resolve_ffmpeg_executable "ffmpeg") +:+ " " +:+ rest
  else line.

(** ** The verdict *)

(** How the process ends: it exits, or starting it or talking to it raises. *)
Inductive program_end := Exited (returncode : Z) (stdout stderr : string) | Broken (text : string).

Abbreviation verdict := (bool * option string * option string)%type.

Definition snippet (s : string) : option string := if str_truthy s then Some (str_last 1000 s) else None.

(** The flags are those at the end of the process. *)
Definition verdict_of (f : rt_flags) (p : program_end) : verdict :=
  match p with
  | Exited rc out err =>
      if rf_cancel f then (false, snippet out, Some "Execution cancelled by request"%string)
      else ((rc =? 0) || rf_checkpoint f, snippet out, snippet err)
  | Broken text =>
      if rf_checkpoint f then (true, None, Some "Checkpointed"%string)
      else if rf_cancel f then (false, None, Some "Cancelled"%string)
      else (false, None, Some ("Execution failed: " +:+ text))
  end.

(** [_execute]; an exception before the [try] is the caller's. *)
Definition _execute (e : alias_env) (exn_text : exn -> string) (spawn : command -> program_end) (f : rt_flags)
    (spec : workload_spec) (workdir : string) (context : option execution_context) (files : gset string)
    : gset string * res verdict :=
  match match context with Some c => res_map Some (context_environment c) | None => Ok None end with
  | Err x => (files, Err x)
  | Ok environment =>
      match ws_execution_spec spec with
      | Some es =>
          match exec_command e es workdir environment files with
          | (files, Err x) => (files, Ok (verdict_of f (Broken (exn_text x))))
          | (files, Ok c) => (files, Ok (verdict_of f (spawn c)))
          end
      | None =>
          match od_get "command" (ws_parameters spec) with
          | Some (JStr line) =>
              if str_truthy line then (files, Ok (verdict_of f (spawn (Shell (shell_line line) workdir environment))))
              else (files, Ok (false, None, Some "No execution_spec or command specified in workload parameters"%string))
          | Some x =>
              if json_truthy x then (files, Ok (verdict_of f (Broken (exn_text (AttributeError "startswith")))))
              else (files, Ok (false, None, Some "No execution_spec or command specified in workload parameters"%string))
          | None => (files, Ok (false, None, Some "No execution_spec or command specified in workload parameters"%string))
          end
      end
  end.
End runtime.

(** ** Taking a process down

    The table of running processes; the children of a process that ended belong
    to nobody. *)

Record process := { pr_parent : nat; pr_ignores_term : bool }.
Abbreviation processes := (gmap nat process).

Definition children_of (t : processes) (parents : gset nat) : gset nat :=
  dom (filter (fun '(_, p) => pr_parent p ∈ parents) t).

Fixpoint generations (n : nat) (t : processes) (s : gset nat) : gset nat :=
  match n with O => s | S n => generations n t (s ∪ children_of t s) end.

(** The process and its [children(recursive=True)]. *)
Definition tree (t : processes) (root : nat) : gset nat := generations (size t) t {[root]}.

Definition terminate (s : gset nat) (t : processes) : processes := filter (fun '(p, q) => p ∉ s \/ pr_ignores_term q = true) t.
Definition kill (s : gset nat) (t : processes) : processes := filter (fun '(p, _) => p ∉ s) t.

Definition running (t : processes) (p : nat) : bool := bool_decide (is_Some (t !! p)).

Section signals.
Context (nt : bool) (taskkill_works : bool).

Definition taskkill (root : nat) (t : processes) : processes := if nt && taskkill_works then kill (tree t root) t else t.

Definition _terminate_process_tree (root : nat) (t : processes) : processes :=
  if running t root then
    let t := taskkill root t in
    if running t root then terminate (tree t root) t else t
  else t.

Definition checkpoint (root : nat) (f : rt_flags) (t : processes) : rt_flags * processes :=
  (request_checkpoint f, _terminate_process_tree root t).

(** The process has ended by itself when the wait of five seconds succeeds. *)
Definition cancel (root : nat) (f : rt_flags) (t : processes) : rt_flags * processes :=
  let t := _terminate_process_tree root t in
  (request_cancel f,
   if running t root then
     let t := taskkill root (taskkill root t) in
     if running t root then kill (tree t root) t else t
   else t).
End signals.
