(* ===== verification/RuntimeProps.v ===== *)
(** * What the process runtime guarantees

    The members of a group agree on their rendezvous, and a cancellation ends
    exactly the process, its cooperative descendants and the stubborn ones it
    can still find. *)
From S2P Require Export Runtime.

(** ** Process trees *)

Section trees.
Context (t : processes).

(** [p] descends from [q] through running processes. *)
Definition child (q p : nat) : Prop := exists x, t !! p = Some x /\ pr_parent x = q.

Lemma children_spec s p : p ∈ children_of t s <-> exists q, q ∈ s /\ child q p.
Proof.
  unfold children_of, child. rewrite elem_of_dom. split.
  - intros [x [Hx Hq]%map_lookup_filter_Some]. eauto.
  - intros (q & Hq & x & Hx & <-). exists x. by apply map_lookup_filter_Some.
Qed.

Lemma generations_sound n s p : p ∈ generations n t s -> exists q, q ∈ s /\ rtc child q p.
Proof.
  revert s. induction n as [|n IH]; intros s; simpl; [intros H; exists p; by split|].
  intros H. apply IH in H as (q & Hq & Hp). apply elem_of_union in Hq as [Hq|Hq]; [eauto|].
  apply children_spec in Hq as (r & Hr & Hc).
  exists r. split; [done|]. by eapply rtc_l.
Qed.

Lemma generations_mono n s : s ⊆ generations n t s.
Proof. revert s. induction n as [|n IH]; intros s; simpl; [done|]. etrans; [|apply IH]. set_solver. Qed.

(** A set that no longer grows is closed. *)
Lemma generations_closed n s :
  (size (dom t ∖ s) <= n)%nat -> forall q p, q ∈ generations n t s -> child q p -> p ∈ generations n t s.
Proof.
  revert s. induction n as [|n IH]; intros s Hn q p.
  - simpl. intros Hq (x & Hx & _). assert (dom t ∖ s = ∅) as He by (apply leibniz_equiv, size_empty_iff; lia).
    destruct (decide (p ∈ s)) as [|Hout]; [done|]. assert (p ∈ dom t ∖ s) as H by (apply elem_of_difference; split; [by apply elem_of_dom_2 in Hx|done]).
    rewrite He in H. set_solver.
  - simpl. destruct (decide (children_of t s ⊆ s)) as [Hsub|Hnew].
    + assert (s ∪ children_of t s = s) as -> by set_solver. intros Hq Hc.
      assert (forall m, generations m t s = s) as Hfix.
      { induction m as [|m IHm]; [done|]. simpl. by assert (s ∪ children_of t s = s) as -> by set_solver. }
      rewrite Hfix in *. apply Hsub, children_spec. eauto.
    + apply IH. assert (exists c, c ∈ children_of t s /\ c ∉ s) as (c & Hc & Hcs).
      { destruct (set_choose_or_empty (children_of t s ∖ s)) as [[c Hc]|He]; [exists c; set_solver|]. destruct Hnew. set_solver. }
      assert (c ∈ dom t) as Hd. { apply children_spec in Hc as (q' & _ & x & Hx & _). by apply elem_of_dom_2 in Hx. }
      assert (dom t ∖ (s ∪ children_of t s) ⊂ dom t ∖ s) as Hlt by set_solver.
      apply subset_size in Hlt. lia.
Qed.

Lemma tree_spec root p : p ∈ tree t root <-> rtc child root p.
Proof.
  unfold tree. split.
  - intros (q & ->%elem_of_singleton & H)%generations_sound. done.
  - assert (root ∈ generations (size t) t {[root]}) as Hr by (apply generations_mono; set_solver).
    assert (forall q p, q ∈ generations (size t) t {[root]} -> child q p -> p ∈ generations (size t) t {[root]}) as Hc.
    { apply generations_closed. rewrite <- (size_dom t). apply subseteq_size. set_solver. }
    revert Hr Hc. generalize (generations (size t) t {[root]}) as T. intros T Hr Hc H. revert Hr.
    induction H; eauto.
Qed.
End trees.

(** ** Ending a tree *)

Definition descendant (t : processes) (root p : nat) : Prop := rtc (child t) root p.

Lemma kill_lookup s (t : processes) p : is_Some (kill s t !! p) <-> is_Some (t !! p) /\ p ∉ s.
Proof.
  unfold kill. split.
  - intros [x [Hx Hp]%map_lookup_filter_Some]. eauto.
  - intros [[x Hx] Hp]. exists x. by apply map_lookup_filter_Some.
Qed.

Definition ignores (t : processes) (p : nat) : Prop := exists x, t !! p = Some x /\ pr_ignores_term x = true.

Lemma terminate_lookup s (t : processes) p :
  is_Some (terminate s t !! p) <-> is_Some (t !! p) /\ (p ∉ s \/ ignores t p).
Proof.
  unfold terminate, ignores. split.
  - intros [x [Hx Hp]%map_lookup_filter_Some]. split; [eauto|]. destruct Hp; [by left|right; eauto].
  - intros [[x Hx] Hp]. exists x. apply map_lookup_filter_Some. split; [done|].
    destruct Hp as [Hp|(y & Hy & Hi)]; [by left|right; congruence].
Qed.

Lemma running_iff t p : running t p = true <-> is_Some (t !! p).
Proof. apply bool_decide_eq_true. Qed.

(** The processes left after the first signal. *)
Definition signalled (root : nat) (t : processes) : processes := terminate (tree t root) t.

Lemma descendant_signalled root t q p : descendant (signalled root t) q p -> descendant t q p.
Proof.
  unfold descendant. induction 1 as [|x y z (w & Hw & Hpw) _ IH]; [done|].
  eapply rtc_l; [|exact IH]. exists w. split; [|done].
  unfold signalled, terminate in Hw. by apply map_lookup_filter_Some in Hw as [? _].
Qed.

(** C35: On POSIX a cancellation ends the running process for sure, and leaves a
    process running exactly if it was running, is not the cancelled one, and
    either does not descend from it, or ignores the first signal and is not
    found by the second round, which looks only when the process itself
    ignored the first and only along processes that did so too. *)
Theorem cancel_exact works root f (t : processes) p :
  is_Some (t !! root) ->
  let left := (cancel false works root f t).2 in
  left !! root = None
  /\ (is_Some (left !! p) <->
       is_Some (t !! p) /\ p <> root
       /\ (~ descendant t root p
           \/ (ignores t p /\ ~ (ignores t root /\ descendant (signalled root t) root p)))).
Proof.
  intros Hroot. cbv zeta. unfold cancel, _terminate_process_tree, taskkill. simpl.
  rewrite (proj2 (running_iff t root) Hroot). fold (signalled root t).
  assert (forall q, is_Some (signalled root t !! q) <-> is_Some (t !! q) /\ (~ descendant t root q \/ ignores t q)) as Hs.
  { intros q. unfold signalled. rewrite terminate_lookup, tree_spec. done. }
  assert (is_Some (signalled root t !! root) <-> ignores t root) as Hr.
  { rewrite Hs. split; [|auto]. intros [_ [H|H]]; [|done]. destruct H. apply rtc_refl. }
  destruct (running (signalled root t) root) eqn:E.
  - apply running_iff in E. pose proof (proj1 Hr E) as Hi. split.
    + destruct (kill (tree (signalled root t) root) (signalled root t) !! root) eqn:Ek; [|done].
      assert (is_Some (kill (tree (signalled root t) root) (signalled root t) !! root)) as [_ Hn]%kill_lookup by eauto.
      destruct Hn. apply tree_spec, rtc_refl.
    + rewrite kill_lookup, Hs, tree_spec. fold (descendant (signalled root t) root p).
      destruct (decide (p = root)) as [->|Hne].
      * split; [intros [_ H]; destruct H; apply rtc_refl|tauto].
      * assert (descendant (signalled root t) root p -> descendant t root p) as Hsub.
        { apply descendant_signalled. }
        tauto.
  - assert (~ is_Some (signalled root t !! root)) as Hn by (rewrite <- running_iff; congruence).
    split; [destruct (signalled root t !! root) eqn:Ek; [by destruct Hn|done]|]. rewrite Hs.
    destruct (decide (p = root)) as [->|Hne]; [rewrite <- Hs; tauto|]. tauto.
Qed.

(** ** The rendezvous of a group *)

Definition RENDEZVOUS_KEYS : list string :=
  ["AIDAR_MASTER_ADDR"; "AIDAR_MASTER_PORT"; "MASTER_ADDR"; "MASTER_PORT"; "AIDAR_PEER_IPS"]%string.

(** The machine's own environment does not set the variables of the rendezvous. *)
Definition unset (m : machine) : Prop := forall k, k ∈ RENDEZVOUS_KEYS -> od_get k (mc_environ m) = None.

Lemma set_env_other l env k : k ∉ map fst l -> od_get k (set_env l env) = od_get k env.
Proof.
  unfold set_env. revert env. induction l as [|[a v] l IH]; intros env Hk; [done|]. simpl in *.
  rewrite IH by set_solver. apply od_get_set_ne. set_solver.
Qed.

Lemma set_env_get l env k v : NoDup (map fst l) -> (k, v) ∈ l -> od_get k (set_env l env) = Some v.
Proof.
  unfold set_env. revert env. induction l as [|[a w] l IH]; intros env Hn Hin; [by apply not_elem_of_nil in Hin|].
  simpl in *. apply NoDup_cons in Hn as [Hfresh Hn]. apply elem_of_cons in Hin as [[= -> ->]|Hin]; [|by apply IH].
  fold (set_env l (od_set a w env)). rewrite set_env_other by done. apply od_get_set_eq.
Qed.

Lemma setdefault_get k v (env : odict string) k' :
  od_get k' (od_setdefault k v env) = if String.eqb k' k then Some (default v (od_get k env)) else od_get k' env.
Proof.
  unfold od_setdefault, od_mem. destruct (String.eqb_spec k' k) as [->|Hne].
  - destruct (od_get k env) eqn:E; simpl; [by rewrite E|apply od_get_set_eq].
  - destruct (od_get k env); simpl; [done|]. by apply od_get_set_ne.
Qed.

Lemma set_defaults_keep l env k v : od_get k env = Some v -> od_get k (set_defaults l env) = Some v.
Proof.
  unfold set_defaults. revert env. induction l as [|[a w] l IH]; intros env Hk; simpl; [done|].
  apply IH. rewrite setdefault_get. destruct (String.eqb_spec k a) as [->|]; [by rewrite Hk|done].
Qed.

Lemma set_defaults_get l env k : od_get k env = None -> od_get k (set_defaults l env) = od_get k l.
Proof.
  unfold set_defaults. revert env. induction l as [|[a w] l IH]; intros env Hk; simpl; [done|].
  destruct (String.eqb_spec k a) as [->|Hne].
  - apply (set_defaults_keep l). by rewrite setdefault_get, String.eqb_refl, Hk.
  - apply IH. by rewrite setdefault_get, (proj2 (String.eqb_neq k a) Hne).
Qed.

Lemma rendezvous_keys w ws r : rendezvous w ws = Ok r -> map fst r = RENDEZVOUS_KEYS.
Proof.
  unfold rendezvous. intros (u & _ & H)%res_bind_ok. apply res_bind_ok in H as (p & _ & H).
  apply res_bind_ok in H as (peers & _ & H). by injection H as <-.
Qed.

Lemma enumerate_spec {A} (l : list A) n :
  map snd (enumerate n l) = l /\ map fst (enumerate n l) = seqZ n (Z.of_nat (length l)).
Proof.
  revert n. induction l as [|x l IH]; intros n; [done|]. cbn [enumerate map fst snd length].
  rewrite (proj1 (IH (n + 1))), (proj2 (IH (n + 1))). split; [done|].
  rewrite (seqZ_cons n) by lia. f_equal. f_equal; lia.
Qed.

Definition context_keys : list string :=
  ["AIDAR_EXECUTION_CONTEXT"; "AIDAR_RANK"; "AIDAR_WORLD_SIZE"; "RANK"; "LOCAL_RANK"; "WORLD_SIZE"]%string.

(** What the environment of a context says, on any machine. *)
Lemma context_environment_spec m text c env :
  context_environment m text c = Ok env ->
  od_get "RANK" env = Some (str_of_Z (ec_rank c)) /\ od_get "WORLD_SIZE" env = Some (str_of_Z (ec_world_size c))
  /\ forall w ws, ec_workers c = w :: ws -> unset m ->
       exists r, rendezvous w ws = Ok r /\ forall k, k ∈ RENDEZVOUS_KEYS -> od_get k env = od_get k r.
Proof.
  unfold context_environment. set (l := [("AIDAR_EXECUTION_CONTEXT"%string, text c); _; _; _; _; _]).
  assert (NoDup (map fst l)) as Hn by (apply (bool_decide_unpack _); vm_compute; exact I).
  assert (forall k v, (k, v) ∈ l -> od_get k (set_env l (mc_environ m)) = Some v) as Hget by (intros k v Hk; by apply set_env_get).
  assert (("RANK"%string, str_of_Z (ec_rank c)) ∈ l /\ ("WORLD_SIZE"%string, str_of_Z (ec_world_size c)) ∈ l) as [H1 H2]
    by (unfold l; rewrite !elem_of_cons; tauto).
  destruct (ec_workers c) as [|w ws].
  - intros [= <-]. split; [by apply Hget|]. split; [by apply Hget|done].
  - intros (r & Hr & [= <-])%res_bind_ok. split; [apply set_defaults_keep; by apply Hget|].
    split; [apply set_defaults_keep; by apply Hget|]. intros w' ws' [= <- <-] Hu. exists r. split; [done|].
    intros k Hk. apply set_defaults_get. change (od_get k (set_env l (mc_environ m)) = None). rewrite set_env_other; [by apply Hu|].
    assert (Forall (fun k => k ∉ context_keys) RENDEZVOUS_KEYS) as Hd by (apply (bool_decide_unpack _); vm_compute; exact I).
    rewrite Forall_forall in Hd. by apply Hd.
Qed.

Lemma context_environment_ok m text c :
  is_ok (context_environment m text c) = match ec_workers c with [] => true | w :: ws => is_ok (rendezvous w ws) end.
Proof. unfold context_environment. destruct (ec_workers c) as [|w ws]; [done|]. by destruct (rendezvous w ws). Qed.


(** ** Concrete runs *)

Definition plain_machine (env : odict string) : machine :=
  {| mc_environ := env; mc_nt := false; mc_exists := fun p => String.eqb p "/usr/bin/blender"; mc_which := fun _ => None;
     mc_glob := fun _ => []; mc_registry := []; mc_python := "/usr/bin/python3" |}.

Definition pair_group : execution_group :=
  {| eg_execution_id := "w1#1"; eg_worker_ids := ["n1"; "n2"]%string; eg_required_worker_count := 2; eg_state := GS_ASSIGNED;
     eg_unavailable_worker_ids := ∅; eg_placement_decisions := [] |}.

Definition endpoints (port : string) (wid : string) : string :=
  if String.eqb wid "n1" then "http://user:pw@10.0.0.1:" +:+ port +:+ "/" else "http://[FE80::2]:8001/api/".

Definition contexts_of (port : string) : list execution_context :=
  match group_contexts (endpoints port) pair_group with Ok cs => cs | Err _ => [] end.

Definition variable (env : odict string) (port : string) (rank : nat) (k : string) : option string :=
  c ← contexts_of port !! rank;
  match context_environment (plain_machine env) (fun _ => EmptyString) c with Ok e => od_get k e | Err _ => None end.


(** The port of the rendezvous is that of the leader plus 10000: above 55535 no
    port is left. *)
Example master_port_overflows : variable [] "60000" 0 "MASTER_PORT" = Some "70000"%string.
Proof. vm_compute. reflexivity. Qed.

(** A variable left over in the environment of one machine splits the group. *)
Example leftover_variable_splits_group :
  variable [("MASTER_ADDR", "old-host")]%string "8000" 1 "MASTER_ADDR" = Some "old-host"%string
  /\ variable [] "8000" 0 "MASTER_ADDR" = Some "10.0.0.1"%string.
Proof. split; vm_compute; reflexivity. Qed.

(** A process 10 with a child 11 that ignores the signal and a child 12 that
    does not; process 20 is another's. *)
Definition sample_tree (root_ignores : bool) : processes :=
  list_to_map [(10%nat, {| pr_parent := 1; pr_ignores_term := root_ignores |}); (11%nat, {| pr_parent := 10; pr_ignores_term := true |});
               (12%nat, {| pr_parent := 10; pr_ignores_term := false |}); (20%nat, {| pr_parent := 1; pr_ignores_term := false |})].

Definition left_running (root_ignores : bool) : list nat :=
  elements (dom (cancel false false 10 no_flags (sample_tree root_ignores)).2).

Lemma cancel_exact_witness :
  (left_running true = [20%nat]) /\ (cancel false false 10 no_flags (sample_tree true)).2 !! 10%nat = None.
Proof.
  split; [vm_compute; reflexivity|].
  refine (proj1 (cancel_exact false 10 no_flags (sample_tree true) 10 _)). vm_compute. eauto.
Defined.

(** [cancel] exists so that no orphan process is left behind; when the process
    itself obeys the first signal, a child that ignores it is left behind. *)
Example stubborn_child_survives : left_running false = [11%nat; 20%nat] \/ left_running false = [20%nat; 11%nat].
Proof. vm_compute. auto. Qed.

(** A process that fails by itself after a checkpoint was requested is reported
    as a success. *)
Example failed_checkpoint_is_success :
  verdict_of (request_checkpoint no_flags) (Exited 1 "" "Traceback") = (true, None, Some "Traceback"%string).
Proof. reflexivity. Qed.

(** The arguments of a Blender run: the scene gets its suffix, the script of
    [-P] another, and a program found on the machine is used. *)
Example blender_arguments :
  exec_command (plain_machine []) {| al_link_fails := fun _ => false; al_copy_fails := fun _ => None |}
    {| es_executable := "blender"; es_args := ["-b"; "inputs/aa"; "-P"; "inputs/bb"; "-f"; "inputs/gone"]; es_env := []; es_cwd := None;
       es_timeout_seconds := None; es_command := None |} "/w" None {["/w/inputs/aa"; "/w/inputs/bb"]}
  = ({["/w/inputs/aa.blend"; "/w/inputs/bb.py"; "/w/inputs/aa"; "/w/inputs/bb"]}, Ok (Exec "/usr/bin/blender"
       ["-b"; "inputs/aa.blend"; "-P"; "inputs/bb.py"; "-f"; "inputs/gone"] "/w" []))%string.
Proof. vm_compute. reflexivity. Qed.
