(* ===== verification/Worker.v ===== *)
(** * The worker's executions ([distributed/worker.py])

    [DistributedWorker.execute_workload] and the ledger of executions keyed by
    attempt.  A submitted execution runs as an asyncio task; the ledger's state
    changes only where the task or a request runs, so a history is a list of
    events, each one uninterrupted stretch.  A task cancelled before its first
    step never runs its coroutine, as asyncio defines.  The outcome of the awaited
    synchronisation and execution is part of the event that ends the task, and
    [run_body] computes it for an undisturbed one.  [accepted_at] is never read
    and left out. *)
From S2P Require Export ExecutionProps DataPlane Polling.

(** ** One execution *)

Record node := { nd_manager : exec_manager; nd_metrics : metrics }.
Definition nd_cas (n : node) : local_cas := em_cas (nd_manager n).
Definition with_manager (m : exec_manager) (n : node) : node := {| nd_manager := m; nd_metrics := nd_metrics n |}.

Definition er_with_transfer (d : float) (r : workload_execution_result) : workload_execution_result :=
  {| er_workload_id := er_workload_id r; er_worker_id := er_worker_id r; er_success := er_success r;
     er_output_asset_hashes := er_output_asset_hashes r; er_output_asset_sizes := er_output_asset_sizes r;
     er_execution_duration_seconds := er_execution_duration_seconds r; er_error_message := er_error_message r;
     er_was_checkpointed := er_was_checkpointed r; er_checkpoint_hash := er_checkpoint_hash r;
     er_failure_category := er_failure_category r; er_checkpoint_runtime_type := er_checkpoint_runtime_type r;
     er_checkpoint_format_version := er_checkpoint_format_version r;
     er_staging_duration_seconds := er_staging_duration_seconds r;
     er_output_ingestion_duration_seconds := er_output_ingestion_duration_seconds r;
     er_verification_duration_seconds := er_verification_duration_seconds r;
     er_transfer_duration_seconds := d; er_stdout_snippet := er_stdout_snippet r; er_stderr_snippet := er_stderr_snippet r |}.

(** The first entry that is not a success. *)
Definition first_failed (results : odict transfer_result) : option (string * transfer_result) :=
  List.find (fun e => negb (tr_success (snd e))) results.

(** How the task's body ends. *)
Inductive task_outcome :=
| TO_sync_failed (failed_hashes : list string)
| TO_result (r : workload_execution_result)
| TO_cancelled
| TO_raised (text : string).

Definition raised (e : exn) : task_outcome := match e with CancelledError => TO_cancelled | _ => TO_raised (exn_text e) end.

Section Node.
Context (worker_id : string).
(** [sync_assets] of this worker, and [ExecutionManager.execute_workload] with
    a fresh [GenericSubprocessRuntime]. *)
Context (sync : list string -> metrics -> local_cas -> local_cas * res (metrics * odict transfer_result)).
Context (execute : workload_spec -> bool -> exec_manager -> exec_manager * res workload_execution_result).

Definition sync_node (required : list string) (n : node) : node * res (odict transfer_result) :=
  let '(c, r) := sync required (nd_metrics n) (nd_cas n) in
  let n := with_manager (with_cas c (nd_manager n)) n in
  match r with
  | Ok (mx, results) => ({| nd_manager := nd_manager n; nd_metrics := mx |}, Ok results)
  | Err e => (n, Err e)
  end.

(** [DistributedWorker.execute_workload]; [joined] is the outcome of a flight
    of the same key it found under way. *)
Definition worker_execute_workload (joined : option (res (odict transfer_result))) (transfer_duration : float)
    (spec : workload_spec) (grouped : bool) (n : node) : node * res workload_execution_result :=
  let inputs := elements (ws_input_asset_hashes spec) in
  let '(n, synced) :=
    if bool_decide (inputs = []) then (n, Ok [])
    else match joined with Some r => (n, r) | None => sync_node inputs n end in
  match synced with
  | Err e => (n, Err e)
  | Ok results =>
      match first_failed results with
      | Some (h, r) =>
          (n, make_result (failure_result (ws_workload_id spec) worker_id
                ("Failed to sync dependency " +:+ h +:+ ": " +:+ default "None" (tr_error_message r))
                ASSET_TRANSFER_FAILURE f0 transfer_duration))
      | None =>
          let '(m, r) := execute spec grouped (nd_manager n) in
          (with_manager m n, let! r := r in Ok (er_with_transfer transfer_duration r))
      end
  end.

(** A digest missing before the synchronisation that has no successful entry after it. *)
Definition unsynced (results : odict transfer_result) (h : string) : bool :=
  match od_get h results with Some r => negb (tr_success r) | None => true end.

(** The body of [_run_execution_record] between its two state changes. *)
Definition run_body (joined : option (res (odict transfer_result))) (transfer_duration : float)
    (spec : workload_spec) (grouped : bool) (n : node) : node * task_outcome :=
  let inputs := elements (ws_input_asset_hashes spec) in
  let missing := List.filter (fun h => negb (has_asset h (nd_cas n))) inputs in
  let finish n :=
    match worker_execute_workload joined transfer_duration spec grouped n with
    | (n, Ok r) => (n, TO_result r)
    | (n, Err e) => (n, raised e)
    end in
  if bool_decide (missing = []) then finish n
  else
    match sync_node inputs n with
    | (n, Err e) => (n, raised e)
    | (n, Ok synced) =>
        let failed := List.filter (unsynced synced) missing in
        if bool_decide (failed = []) then finish n else (n, TO_sync_failed failed)
    end.
End Node.

(** ** The ledger *)

(** A task: created, suspended at an await, finished. *)
Inductive task := T_NEW | T_SUSPENDED | T_DONE.
#[export] Instance task_eq_dec : EqDecision task.
Proof. solve_decision. Defined.

Record exec_record := {
  xr_attempt_id : string;
  xr_spec : workload_spec;
  xr_state : execution_state;
  xr_result : option workload_execution_result;
  xr_task : task;
  xr_must_cancel : bool;
  xr_cancel_requested : bool;
  xr_updated_at : float;
}.
Definition xr_workload_id (r : exec_record) : string := ws_workload_id (xr_spec r).

Record exec_status := {
  xs_attempt_id : string; xs_workload_id : string; xs_state : execution_state;
  xs_result : option workload_execution_result;
}.

Definition _execution_status (r : exec_record) : exec_status :=
  {| xs_attempt_id := xr_attempt_id r; xs_workload_id := xr_workload_id r; xs_state := xr_state r; xs_result := xr_result r |}.

Record worker := { wk_executions : odict exec_record; wk_manager : exec_manager }.
Definition new_worker (c : local_cas) : worker := {| wk_executions := []; wk_manager := new_manager c |}.
Definition with_executions (d : odict exec_record) (w : worker) : worker :=
  {| wk_executions := d; wk_manager := wk_manager w |}.
Definition put (r : exec_record) (w : worker) : worker := with_executions (od_set (xr_attempt_id r) r (wk_executions w)) w.

Definition MAX_RECORD_AGE : float := f_of_Z 3600.

Definition stale (now : float) (r : exec_record) : bool :=
  is_terminal (xr_state r) && fgt (fsub now (xr_updated_at r)) MAX_RECORD_AGE.

Definition _prune_stale_executions (now : float) (w : worker) : worker :=
  with_executions (List.filter (fun e => negb (stale now (snd e))) (wk_executions w)) w.

Definition new_record (attempt_id : string) (spec : workload_spec) (now : float) : exec_record :=
  {| xr_attempt_id := attempt_id; xr_spec := spec; xr_state := X_ACCEPTED; xr_result := None; xr_task := T_NEW;
     xr_must_cancel := false; xr_cancel_requested := false; xr_updated_at := now |}.

Definition submit_execution (attempt_id : string) (spec : workload_spec) (now : float) (w : worker) : worker * exec_status :=
  let w := _prune_stale_executions now w in
  match od_get attempt_id (wk_executions w) with
  | Some r => (w, _execution_status r)
  | None => let r := new_record attempt_id spec now in (put r w, _execution_status r)
  end.

Definition get_execution (attempt_id : string) (w : worker) : option exec_status :=
  _execution_status <$> od_get attempt_id (wk_executions w).

Definition ack_execution (attempt_id : string) (w : worker) : worker * res bool :=
  match od_get attempt_id (wk_executions w) with
  | None => (w, Ok false)
  | Some r =>
      if negb (is_terminal (xr_state r)) then (w, Err (RuntimeError "execution is not terminal"))
      else (with_executions (od_del attempt_id (wk_executions w)) w, Ok true)
  end.

Definition xr_set (st : execution_state) (result : option workload_execution_result) (t : task) (now : float)
    (r : exec_record) : exec_record :=
  {| xr_attempt_id := xr_attempt_id r; xr_spec := xr_spec r; xr_state := st; xr_result := result; xr_task := t;
     xr_must_cancel := xr_must_cancel r; xr_cancel_requested := xr_cancel_requested r; xr_updated_at := now |}.

Definition xr_ask_cancel (must : bool) (now : float) (r : exec_record) : exec_record :=
  {| xr_attempt_id := xr_attempt_id r; xr_spec := xr_spec r; xr_state := xr_state r; xr_result := xr_result r;
     xr_task := xr_task r; xr_must_cancel := xr_must_cancel r || must; xr_cancel_requested := true; xr_updated_at := now |}.

(** The runtime is looked up by workload; only without one is the task cancelled. *)
Definition cancel_execution (attempt_id : string) (now : float) (w : worker) : worker * option exec_status :=
  match od_get attempt_id (wk_executions w) with
  | None => (w, None)
  | Some r =>
      if is_terminal (xr_state r) then (w, Some (_execution_status r))
      else
        let '(m, cancelled_runtime) := cancel_workload (xr_workload_id r) (wk_manager w) in
        let must := negb cancelled_runtime && negb (bool_decide (xr_task r = T_DONE)) in
        let r := xr_ask_cancel must now r in
        (put r {| wk_executions := wk_executions w; wk_manager := m |}, Some (_execution_status r))
  end.

(** The first step of the task, up to its first await. *)
Definition start_record (now : float) (r : exec_record) : exec_record :=
  if xr_must_cancel r then
    {| xr_attempt_id := xr_attempt_id r; xr_spec := xr_spec r; xr_state := xr_state r; xr_result := xr_result r;
       xr_task := T_DONE; xr_must_cancel := true; xr_cancel_requested := xr_cancel_requested r;
       xr_updated_at := xr_updated_at r |}
  else if xr_cancel_requested r then xr_set X_CANCELLED (xr_result r) T_DONE now r
  else xr_set X_RUNNING (xr_result r) T_SUSPENDED now r.

Definition worker_failure (worker_id : string) (r : exec_record) (message : string) (category : failure_category)
    : workload_execution_result :=
  failure_result (xr_workload_id r) worker_id message category f0 f0.

(** The end of the body and its handlers. *)
Definition finish_record (worker_id : string) (o : task_outcome) (now : float) (r : exec_record) : exec_record :=
  match o with
  | TO_sync_failed failed =>
      xr_set X_FAILED (Some (worker_failure worker_id r ("Failed to synchronize missing input assets: " +:+ list_text failed)
                               ASSET_STAGING_FAILURE)) T_DONE now r
  | TO_result res =>
      xr_set (if xr_cancel_requested r then X_CANCELLED else if er_success res then X_SUCCEEDED else X_FAILED)
        (Some res) T_DONE now r
  | TO_cancelled =>
      xr_set X_CANCELLED (Some (worker_failure worker_id r "Execution cancelled by request" EXECUTION_FAILURE)) T_DONE now r
  | TO_raised text => xr_set X_FAILED (Some (worker_failure worker_id r text EXECUTION_FAILURE)) T_DONE now r
  end.

(** ** Histories *)

(** [Manager] is any change of the manager by a run: a runtime registered or
    removed, a sandbox, the store. *)
Inductive ledger_event :=
| Submit (attempt_id : string) (spec : workload_spec) (now : float)
| Start (attempt_id : string) (now : float)
| Finish (attempt_id : string) (o : task_outcome) (now : float)
| Cancel (attempt_id : string) (now : float)
| Acknowledge (attempt_id : string)
| CancelWorkload (workload_id : string)
| CheckpointWorkload (workload_id : string)
| Manager (f : exec_manager -> exec_manager).

(** A step of a task: nothing unless the task is at that point. *)
Definition task_step (attempt_id : string) (at_point : task) (f : exec_record -> exec_record) (w : worker) : worker :=
  match od_get attempt_id (wk_executions w) with
  | Some r => if bool_decide (xr_task r = at_point) then put (f r) w else w
  | None => w
  end.

Definition on_manager (f : exec_manager -> exec_manager) (w : worker) : worker :=
  {| wk_executions := wk_executions w; wk_manager := f (wk_manager w) |}.

Definition ledger_step (worker_id : string) (w : worker) (e : ledger_event) : worker :=
  match e with
  | Submit aid spec now => (submit_execution aid spec now w).1
  | Start aid now => task_step aid T_NEW (start_record now) w
  | Finish aid o now => task_step aid T_SUSPENDED (finish_record worker_id o now) w
  | Cancel aid now => (cancel_execution aid now w).1
  | Acknowledge aid => (ack_execution aid w).1
  | CancelWorkload wid => on_manager (fun m => (cancel_workload wid m).1) w
  | CheckpointWorkload wid => on_manager (fun m => (checkpoint_workload wid m).1) w
  | Manager f => on_manager f w
  end.

Definition ledger_run (worker_id : string) (w : worker) (es : list ledger_event) : worker :=
  fold_left (ledger_step worker_id) es w.
