(* ===== verification/WorkerProps.v ===== *)
(** * What the worker's ledger guarantees

    States of records, at most one run per attempt and record, terminal records
    that stay as they are, the cancellation that is never carried out, and an
    attempt from its missing inputs to its stored outputs. *)
From S2P Require Export Worker.

(** ** Well-formed ledgers *)

Definition state_ok (r : exec_record) : Prop :=
  match xr_state r with
  | X_ACCEPTED => xr_result r = None /\ (xr_task r = T_NEW \/ xr_task r = T_DONE /\ xr_must_cancel r = true)
  | X_RUNNING => xr_result r = None /\ xr_task r = T_SUSPENDED
  | X_SUCCEEDED => xr_task r = T_DONE /\ xr_cancel_requested r = false /\
      exists res, xr_result r = Some res /\ er_success res = true
  | X_FAILED => xr_task r = T_DONE /\ exists res, xr_result r = Some res /\ er_success res = false
  | X_CANCELLED => xr_task r = T_DONE /\
      (xr_cancel_requested r = true \/ exists res, xr_result r = Some res /\ er_success res = false)
  end.

Record record_ok (aid : string) (r : exec_record) : Prop := {
  rk_key : xr_attempt_id r = aid;
  rk_must : xr_must_cancel r = true -> xr_cancel_requested r = true;
  rk_state : state_ok r;
}.

Record ledger_ok (w : worker) : Prop := {
  lk_wf : od_wf (wk_executions w);
  lk_records : forall aid r, od_get aid (wk_executions w) = Some r -> record_ok aid r;
}.

Lemma terminal_iff st : is_terminal st = true <-> st = X_SUCCEEDED \/ st = X_FAILED \/ st = X_CANCELLED.
Proof. unfold is_terminal. apply bool_decide_eq_true. Qed.

Lemma terminal_done r : state_ok r -> is_terminal (xr_state r) = true -> xr_task r = T_DONE.
Proof. unfold state_ok. destruct (xr_state r); intros H Ht; try discriminate Ht; by destruct H. Qed.

(** Pruning drops records and changes none. *)
Lemma prune_get now w aid :
  od_wf (wk_executions w) ->
  od_get aid (wk_executions (_prune_stale_executions now w)) =
    match od_get aid (wk_executions w) with Some r => if stale now r then None else Some r | None => None end.
Proof.
  unfold od_wf, _prune_stale_executions. simpl. induction (wk_executions w) as [|[k r] d IH]; [done|].
  intros [Hk Hd]%NoDup_cons. simpl. specialize (IH Hd). destruct (stale now r) eqn:Es; simpl.
  - destruct (String.eqb_spec aid k) as [->|]; [|done]. rewrite Es. apply (od_get_None_keys d k) in Hk. by rewrite Hk in IH.
  - destruct (String.eqb_spec aid k) as [->|]; [by rewrite Es|done].
Qed.

Lemma filter_keys_subset {V} (p : string * V -> bool) (d : odict V) k : k ∈ od_keys (List.filter p d) -> k ∈ od_keys d.
Proof.
  unfold od_keys. rewrite !list_elem_of_In, !in_map_iff. intros (e & He & [Hin _]%filter_In). by exists e.
Qed.

Lemma filter_wf {V} (p : string * V -> bool) (d : odict V) : od_wf d -> od_wf (List.filter p d).
Proof.
  unfold od_wf. induction d as [|[k v] d IH]; [done|]. intros [Hk Hd]%NoDup_cons. simpl.
  destruct (p (k, v)); [|auto]. simpl. apply NoDup_cons. split; [|auto]. by intros ?%filter_keys_subset.
Qed.

Lemma put_ok r w : ledger_ok w -> record_ok (xr_attempt_id r) r -> ledger_ok (put r w).
Proof.
  intros [Hw Hr] Hok. split; simpl; [by apply od_set_wf|]. intros aid r'. rewrite od_get_set.
  destruct (String.eqb_spec aid (xr_attempt_id r)) as [->|]; [by intros [= <-]|apply Hr].
Qed.

Lemma prune_ok now w : ledger_ok w -> ledger_ok (_prune_stale_executions now w).
Proof.
  intros [Hw Hr]. split; [by apply filter_wf|]. intros aid r. rewrite prune_get by done.
  destruct (od_get aid (wk_executions w)) as [r'|] eqn:E; [|done]. destruct (stale now r'); [done|]. intros [= <-]. by apply Hr.
Qed.

Lemma start_ok now aid r : record_ok aid r -> xr_task r = T_NEW -> record_ok aid (start_record now r).
Proof.
  intros [Hk Hm Hs] Ht. unfold start_record. unfold state_ok in Hs. rewrite Ht in Hs.
  destruct (xr_must_cancel r) eqn:Em; [|destruct (xr_cancel_requested r) eqn:Ec]; split; simpl; auto; try congruence; unfold state_ok; simpl.
  - destruct (xr_state r); naive_solver.
  - auto.
  - destruct (xr_state r); naive_solver.
Qed.

Lemma finish_ok wid o now aid r : record_ok aid r -> record_ok aid (finish_record wid o now r).
Proof.
  intros [Hk Hm Hs]. destruct o as [failed|res| |text]; split; simpl; auto; unfold state_ok; simpl; eauto.
  destruct (xr_cancel_requested r) eqn:Ec; [auto|]. destruct (er_success res) eqn:Er; simpl; eauto.
Qed.

Lemma cancel_record_ok must now aid r :
  record_ok aid r -> is_terminal (xr_state r) = false -> record_ok aid (xr_ask_cancel must now r).
Proof.
  intros [Hk Hm Hs] Ht. split; simpl; auto. unfold state_ok in *. simpl.
  destruct (xr_state r); try discriminate Ht; [|done]. destruct Hs as [? [?|[? Hc]]]; [auto|]. rewrite Hc. auto.
Qed.

Lemma task_step_ok aid at_point f w :
  (forall r, record_ok aid r -> xr_task r = at_point -> record_ok aid (f r)) -> ledger_ok w -> ledger_ok (task_step aid at_point f w).
Proof.
  intros Hf Hw. unfold task_step. destruct (od_get aid (wk_executions w)) as [r|] eqn:E; [|done].
  case_bool_decide as Ht; [|done]. pose proof (Hf r (lk_records _ Hw _ _ E) Ht) as Hr. apply put_ok; [done|].
  by rewrite (rk_key _ _ Hr).
Qed.

Lemma ledger_step_ok wid w e : ledger_ok w -> ledger_ok (ledger_step wid w e).
Proof.
  intros Hw. destruct e as [aid spec now|aid now|aid o now|aid now|aid|k|k|f]; simpl; try by destruct Hw.
  - unfold submit_execution. pose proof (prune_ok now w Hw) as Hp. destruct (od_get aid _); [done|]. apply put_ok; [done|].
    split; simpl; [done|done|]. unfold state_ok. simpl. auto.
  - apply task_step_ok; [|done]. intros r Hr. by apply start_ok.
  - apply task_step_ok; [|done]. intros r Hr _. by apply finish_ok.
  - unfold cancel_execution. destruct (od_get aid (wk_executions w)) as [r|] eqn:E; [|done].
    destruct (is_terminal (xr_state r)) eqn:Et; [done|]. destruct (cancel_workload _ _) as [m b]. apply put_ok; [by destruct Hw|].
    pose proof (lk_records _ Hw _ _ E) as Hr. simpl. rewrite (rk_key _ _ Hr). by apply cancel_record_ok.
  - unfold ack_execution. destruct (od_get aid (wk_executions w)) as [r|] eqn:E; [|done].
    destruct (negb _); [done|]. destruct Hw as [Hw Hr]. split; simpl; [by apply od_del_wf|].
    intros aid' r'. destruct (decide (aid' = aid)) as [->|Hne]; [by rewrite od_get_del_eq|]. rewrite od_get_del_ne by done. apply Hr.
Qed.

Lemma new_worker_ok c : ledger_ok (new_worker c).
Proof. split; [apply od_wf_nil|done]. Qed.

Lemma ledger_run_ok wid es : forall w, ledger_ok w -> ledger_ok (ledger_run wid w es).
Proof. induction es as [|e es IH]; intros w Hw; simpl; [done|]. by apply IH, ledger_step_ok. Qed.

(** ** Histories *)

Definition record_at (aid : string) (w : worker) : option exec_record := od_get aid (wk_executions w).

(** The event removes the attempt's record: it is acknowledged, or an hour has
    passed since it ended. *)
Definition drops (aid : string) (w : worker) (e : ledger_event) : bool :=
  match record_at aid w, e with
  | Some r, Acknowledge a => String.eqb a aid && is_terminal (xr_state r)
  | Some r, Submit _ _ now => stale now r
  | _, _ => false
  end.

(** The event is the first step of the attempt's task, and the task runs. *)
Definition begins (aid : string) (w : worker) (e : ledger_event) : bool :=
  match record_at aid w, e with
  | Some r, Start a _ => String.eqb a aid && bool_decide (xr_task r = T_NEW) && negb (xr_must_cancel r)
  | _, _ => false
  end.

Fixpoint occurrences (p : worker -> ledger_event -> bool) (wid : string) (w : worker) (es : list ledger_event) : nat :=
  match es with
  | [] => 0%nat
  | e :: es => ((if p w e then 1 else 0) + occurrences p wid (ledger_step wid w e) es)%nat
  end.

Lemma put_get aid r w : record_at aid (put r w) = if String.eqb aid (xr_attempt_id r) then Some r else record_at aid w.
Proof. unfold record_at. simpl. apply od_get_set. Qed.

(** What one event does to one record. *)
Lemma step_record wid w e aid r : ledger_ok w -> record_at aid w = Some r -> drops aid w e = false ->
  exists r', record_at aid (ledger_step wid w e) = Some r' /\
    (r' = r \/
     (exists now, e = Start aid now /\ xr_task r = T_NEW /\ r' = start_record now r) \/
     (exists o now, e = Finish aid o now /\ xr_task r = T_SUSPENDED /\ r' = finish_record wid o now r) \/
     (exists now must, e = Cancel aid now /\ is_terminal (xr_state r) = false /\ r' = xr_ask_cancel must now r)).
Proof.
  intros Hw Hr. pose proof (rk_key _ _ (lk_records _ Hw _ _ Hr)) as Hkey. unfold drops. rewrite Hr.
  assert (forall a at_point f, (forall x, xr_attempt_id (f x) = xr_attempt_id x) ->
    record_at aid (task_step a at_point f w) =
      if String.eqb aid a && bool_decide (xr_task r = at_point) then Some (f r) else Some r) as Htask.
  { intros a at_point f Hf. unfold task_step. destruct (String.eqb_spec aid a) as [<-|Hne].
    - unfold record_at in Hr. rewrite Hr. simpl. case_bool_decide; [|done].
      by rewrite put_get, Hf, Hkey, String.eqb_refl.
    - simpl. destruct (od_get a (wk_executions w)) as [x|] eqn:Ex; [|done]. case_bool_decide; [|done].
      rewrite put_get, Hf, (rk_key _ _ (lk_records _ Hw _ _ Ex)). by apply String.eqb_neq in Hne as ->. }
  destruct e as [a spec now|a now|a o now|a now|a|k|k|f]; simpl; intros Hd; eauto.
  - exists r. split; [|by left]. unfold submit_execution.
    assert (record_at aid (_prune_stale_executions now w) = Some r) as Hp.
    { unfold record_at. rewrite prune_get by apply Hw. unfold record_at in Hr. by rewrite Hr, Hd. }
    destruct (od_get a _) as [x|] eqn:Ea; [done|]. cbn [fst]. rewrite put_get. simpl.
    destruct (String.eqb_spec aid a) as [->|]; [unfold record_at in Hp; congruence|done].
  - rewrite Htask by (intros x; unfold start_record; by repeat case_match).
    destruct (String.eqb_spec aid a) as [->|]; [|by eauto]. simpl. case_bool_decide; [|by eauto]. eexists. split; [done|]. right. left. eauto.
  - rewrite Htask by (intros x; by destruct o). destruct (String.eqb_spec aid a) as [->|]; [|by eauto].
    simpl. case_bool_decide; [|by eauto]. eexists. split; [done|]. right. right. left. eauto.
  - unfold cancel_execution. destruct (od_get a (wk_executions w)) as [x|] eqn:Ex; [|by eauto].
    destruct (is_terminal (xr_state x)) eqn:Et; [by eauto|]. destruct (cancel_workload _ _) as [m b]. simpl.
    rewrite put_get. simpl. rewrite (rk_key _ _ (lk_records _ Hw _ _ Ex)).
    destruct (String.eqb_spec aid a) as [->|]; [|by eauto]. unfold record_at in Hr. rewrite Hr in Ex. injection Ex as <-.
    eexists. split; [done|]. right. right. right. eauto.
  - unfold ack_execution. destruct (od_get a (wk_executions w)) as [x|] eqn:Ex; [|by eauto].
    destruct (is_terminal (xr_state x)) eqn:Et; simpl; [|by eauto]. exists r. split; [|by left].
    unfold record_at. simpl. rewrite od_get_del_ne; [done|]. intros ->. unfold record_at in Hr. rewrite Hr in Ex. injection Ex as <-.
    by rewrite String.eqb_refl, Et in Hd.
Qed.

Lemma step_terminal wid w e aid r : ledger_ok w -> record_at aid w = Some r -> is_terminal (xr_state r) = true ->
  drops aid w e = false -> record_at aid (ledger_step wid w e) = Some r.
Proof.
  intros Hw Hr Ht Hd. pose proof (terminal_done r (rk_state _ _ (lk_records _ Hw _ _ Hr)) Ht) as Hdone.
  destruct (step_record wid w e aid r Hw Hr Hd) as (r' & -> & [->|[(? & _ & ? & _)|[(? & ? & _ & ? & _)|(? & ? & _ & ? & _)]]]);
    [done|congruence..].
Qed.

Definition begun (aid : string) (w : worker) : nat :=
  match record_at aid w with Some r => if bool_decide (xr_task r = T_NEW) then 0 else 1 | None => 0 end.

Lemma begun_step wid w e aid : ledger_ok w ->
  ((if begins aid w e then 1 else 0) + begun aid w <= (if drops aid w e then 1 else 0) + begun aid (ledger_step wid w e))%nat.
Proof.
  intros Hw. unfold begun at 1. destruct (record_at aid w) as [r|] eqn:Hr; [|unfold begins; rewrite Hr; simpl; lia].
  destruct (drops aid w e) eqn:Hd.
  { assert (begins aid w e = false) as -> by (unfold begins, drops in *; rewrite Hr in *; by destruct e).
    case_bool_decide; lia. }
  destruct (step_record wid w e aid r Hw Hr Hd) as (r' & Hr' & Hcase). unfold begun. rewrite Hr'. unfold begins. rewrite Hr.
  destruct Hcase as [->|[(now & -> & Ht & ->)|[(o & now & -> & Ht & ->)|(now & must & -> & _ & ->)]]].
  - destruct e as [|a now| | | | | |]; try lia. destruct (String.eqb_spec a aid) as [->|]; simpl; [|lia].
    case_bool_decide as Ht; simpl; [|lia]. exfalso. revert Hr'. simpl. unfold task_step. unfold record_at in Hr. rewrite Hr.
    rewrite bool_decide_true by done. rewrite put_get.
    assert (xr_attempt_id (start_record now r) = xr_attempt_id r) as -> by (unfold start_record; by repeat case_match).
    rewrite (rk_key _ _ (lk_records _ Hw _ _ Hr)), String.eqb_refl. intros [= Heq]. apply (f_equal xr_task) in Heq.
    rewrite Ht in Heq. unfold start_record in Heq. by repeat case_match.
  - rewrite String.eqb_refl, (bool_decide_true (xr_task r = T_NEW)) by done. simpl.
    rewrite bool_decide_false by (unfold start_record; by repeat case_match). destruct (negb _); lia.
  - rewrite Ht. simpl. rewrite bool_decide_false by (by destruct o). simpl. lia.
  - simpl. lia.
Qed.

Lemma begun_run wid aid es : forall w, ledger_ok w ->
  (occurrences (begins aid) wid w es + begun aid w <= 1 + occurrences (drops aid) wid w es)%nat.
Proof.
  induction es as [|e es IH]; intros w Hw; simpl.
  { unfold begun. repeat case_match; lia. }
  specialize (IH _ (ledger_step_ok wid w e Hw)). pose proof (begun_step wid w e aid Hw). lia.
Qed.

(** C25: whatever requests and task steps interleave, in the worker's ledger a
    record succeeds only with a successful result and no cancellation asked
    for, fails only with a failed one, and is accepted or running without a
    result; a terminal record stays as it is until it is acknowledged or an
    hour old; and one attempt runs at most once more than its record was
    removed, however often it is submitted. *)
Theorem ledger_sound wid c es :
  let w := ledger_run wid (new_worker c) es in
  (forall aid r, record_at aid w = Some r -> xr_attempt_id r = aid /\ state_ok r) /\
  (forall aid r e, record_at aid w = Some r -> is_terminal (xr_state r) = true -> drops aid w e = false ->
     record_at aid (ledger_step wid w e) = Some r) /\
  (forall aid, (occurrences (begins aid) wid (new_worker c) es <= 1 + occurrences (drops aid) wid (new_worker c) es)%nat).
Proof.
  pose proof (ledger_run_ok wid es _ (new_worker_ok c)) as Hw. split_and!.
  - intros aid r Hr. destruct (lk_records _ Hw _ _ Hr) as [Hk _ Hs]. done.
  - intros aid r e. by apply step_terminal.
  - intros aid. pose proof (begun_run wid aid es _ (new_worker_ok c)) as Hb. simpl in *. unfold begun in Hb. simpl in Hb. lia.
Qed.

(** ** The cancellation that is never carried out *)

Definition stuck (r : exec_record) : Prop := xr_state r = X_ACCEPTED /\ xr_must_cancel r = true.

Lemma stuck_step wid w e aid r : ledger_ok w -> record_at aid w = Some r -> stuck r ->
  exists r', record_at aid (ledger_step wid w e) = Some r' /\ stuck r'.
Proof.
  intros Hw Hr [Hst Hm]. assert (drops aid w e = false) as Hd.
  { unfold drops, stale. rewrite Hr, Hst. simpl. destruct e; try done. by rewrite andb_false_r. }
  pose proof (rk_state _ _ (lk_records _ Hw _ _ Hr)) as Hok. unfold state_ok in Hok. rewrite Hst in Hok.
  destruct (step_record wid w e aid r Hw Hr Hd) as (r' & Hr' & Hcase). exists r'. split; [done|].
  destruct Hcase as [->|[(now & _ & Ht & ->)|[(o & now & _ & Ht & _)|(now & must & _ & _ & ->)]]].
  - done.
  - unfold start_record. rewrite Hm. done.
  - destruct Hok as [_ [?|[? _]]]; congruence.
  - split; [done|]. simpl. by rewrite Hm.
Qed.

Lemma stuck_run wid es aid : forall w r, ledger_ok w -> record_at aid w = Some r -> stuck r ->
  exists r', record_at aid (ledger_run wid w es) = Some r' /\ stuck r'.
Proof.
  induction es as [|e es IH]; intros w r Hw Hr Hs; simpl; [by exists r|].
  destruct (stuck_step wid w e aid r Hw Hr Hs) as (r' & Hr' & Hs'). eapply IH; [by apply ledger_step_ok|done|done].
Qed.

(** Cancelling an attempt whose task has not taken its first step, while no
    runtime of its workload is active, leaves its record accepted for ever:
    whatever happens afterwards it is neither cancelled, nor restarted by
    another submission, nor acknowledged, nor pruned. *)
Theorem cancelled_before_start_is_stuck wid c es aid r now es' :
  let w := ledger_run wid (new_worker c) es in
  record_at aid w = Some r -> xr_task r = T_NEW -> od_get (xr_workload_id r) (em_active (wk_manager w)) = None ->
  let w' := ledger_run wid (ledger_step wid w (Cancel aid now)) es' in
  (exists s, get_execution aid w' = Some s /\ xs_state s = X_ACCEPTED) /\
  ack_execution aid w' = (w', Err (RuntimeError "execution is not terminal")).
Proof.
  intros w Hr Ht Hact w'. pose proof (ledger_run_ok wid es _ (new_worker_ok c)) as Hw. fold w in Hw.
  pose proof (lk_records _ Hw _ _ Hr) as [Hk _ Hs].
  assert (xr_state r = X_ACCEPTED) as Hacc by (unfold state_ok in Hs; rewrite Ht in Hs; destruct (xr_state r); naive_solver).
  assert (exists r1, record_at aid (ledger_step wid w (Cancel aid now)) = Some r1 /\ stuck r1) as (r1 & Hr1 & Hst).
  { simpl. unfold cancel_execution. unfold record_at in Hr. rewrite Hr, Hacc. simpl.
    unfold cancel_workload. rewrite Hact. simpl. rewrite Ht. simpl. exists (xr_ask_cancel true now r).
    rewrite put_get. simpl. rewrite Hk, String.eqb_refl. split; [done|]. split; [done|]. simpl. apply orb_true_r. }
  destruct (stuck_run wid es' aid _ r1 (ledger_step_ok wid w (Cancel aid now) Hw) Hr1 Hst) as (r2 & Hr2 & Hst2 & _).
  fold w' in Hr2. unfold record_at in Hr2. split.
  - exists (_execution_status r2). unfold get_execution. by rewrite Hr2.
  - unfold ack_execution. by rewrite Hr2, Hst2.
Qed.

(** ** An attempt from end to end *)

Section EndToEnd.
Context (worker_id : string) (net : peer) (envs : string -> nat -> attempt_env).
Context (locate : list string -> res locate_response) (i : io) (coordinator : bool).
Context (real_root : list string) (realpath : list string -> list string).
Context (float_text : float -> string) (json_text : json -> string).
Context (e : stage_env) (env : nat -> ingest_env) (cleanup_fails : bool) (t : times) (rt : runtime).
Context (behaviour : gmap string string -> run).

Definition node_sync := sync_assets net envs locate i coordinator.
Definition node_execute (spec : workload_spec) (grouped : bool) (m : exec_manager) :=
  execute_workload real_root realpath float_text json_text e env cleanup_fails t spec worker_id rt grouped behaviour m.
Definition attempt_body := run_body worker_id node_sync node_execute.

Lemma sync_node_extends required n : extends (nd_cas n) (nd_cas (sync_node node_sync required n).1).
Proof.
  unfold sync_node. pose proof (sync_assets_extends net envs locate i coordinator required (nd_metrics n) (nd_cas n)) as H.
  unfold node_sync. destruct (sync_assets _ _ _ _ _ _ _ _) as [c [[mx rs]|x]]; exact H.
Qed.

(** What a successful result of this node means, before and after the run. *)
Definition deserved (spec : workload_spec) (c c' : local_cas) (r : workload_execution_result) : Prop :=
  exists view, faithful_inputs spec c view /\
    (er_was_checkpointed r = false ->
       er_output_asset_hashes r = file_digests (run_files (behaviour view)) /\
       Forall (stored c') (run_files (behaviour view))).

Lemma worker_execute_spec joined d spec grouped n n' x :
  valid_inputs spec -> (forall view, leaves_inputs spec (behaviour view)) ->
  worker_execute_workload worker_id node_sync node_execute joined d spec grouped n = (n', x) ->
  extends (nd_cas n) (nd_cas n') /\
  (forall r, x = Ok r -> er_success r = true -> exists c, extends c (nd_cas n') /\ deserved spec c (nd_cas n') r).
Proof.
  intros Hv Hl. unfold worker_execute_workload.
  set (synced := if bool_decide _ then _ else _).
  assert (extends (nd_cas n) (nd_cas synced.1)) as Hs.
  { unfold synced. case_bool_decide; [done|]. destruct joined; [done|]. apply sync_node_extends. }
  destruct synced as [n1 [results|y]]; simpl in Hs; [|by intros [= <- <-]].
  destruct (first_failed results) as [[h r0]|].
  { intros H. assert (n' = n1) as -> by congruence. split; [done|]. intros r Hx Hr.
    rewrite Hx in H. apply (f_equal snd) in H. cbn [snd] in H. apply make_result_ok in H as ->. done. }
  unfold node_execute. destruct (execute_workload _ _ _ _ _ _ _ _ _ _ _ _ _ _) as [m r] eqn:E. intros [= <- <-].
  pose proof (execute_spec _ _ _ _ _ _ _ _ _ _ _ _ _ _ _ _ Hv Hl E) as [Hext Hres]. split; [by etrans|].
  intros r' (r1 & -> & [= <-])%res_bind_ok Hr. exists (em_cas (nd_manager n1)). split; [exact Hext|].
  destruct (Hres r1 eq_refl Hr) as (view & Hview & dir & m1 & _ & _ & Hcon). exists view. split; [done|].
  apply conclude_spec in Hcon as (_ & _ & Hsucc). specialize (Hsucc r1 eq_refl Hr). simpl. intros Hck. rewrite Hck in Hsucc. by destruct Hsucc as (_ & ? & ? & _).
Qed.

Lemma run_body_spec joined d spec grouped n n' o :
  valid_inputs spec -> (forall view, leaves_inputs spec (behaviour view)) ->
  attempt_body joined d spec grouped n = (n', o) ->
  extends (nd_cas n) (nd_cas n') /\
  (forall r, o = TO_result r -> er_success r = true -> exists c, extends c (nd_cas n') /\ deserved spec c (nd_cas n') r).
Proof.
  intros Hv Hl. unfold attempt_body, run_body.
  assert (forall n1, extends (nd_cas n) (nd_cas n1) ->
    (match worker_execute_workload worker_id node_sync node_execute joined d spec grouped n1 with
     | (n, Ok r) => (n, TO_result r) | (n, Err e) => (n, raised e) end) = (n', o) ->
    extends (nd_cas n) (nd_cas n') /\
    (forall r, o = TO_result r -> er_success r = true -> exists c, extends c (nd_cas n') /\ deserved spec c (nd_cas n') r)) as Hfin.
  { intros n1 H1. destruct (worker_execute_workload _ _ _ _ _ _ _ n1) as [n2 x] eqn:E.
    apply worker_execute_spec in E as [He Hr]; [|done..]. destruct x as [r|y]; intros [= <- <-]; (split; [by etrans|]).
    - intros r' [= <-]. by apply Hr.
    - intros r'. by destruct y. }
  case_bool_decide; [by apply Hfin|]. pose proof (sync_node_extends (elements (ws_input_asset_hashes spec)) n) as Hs.
  destruct (sync_node _ _ n) as [n1 [synced|y]]; simpl in Hs.
  - case_bool_decide; [by apply Hfin|]. by intros [= <- <-].
  - intros [= <- <-]. split; [done|]. intros r. by destruct y.
Qed.

End EndToEnd.

(** ** Concrete histories *)

(** The input is downloaded from a peer, then rendered. *)
Definition remote_spec : workload_spec :=
  {| ws_workload_id := "w1"; ws_job_id := None; ws_task_type := "render"; ws_input_asset_hashes := {[sample_digest]};
     ws_min_cpu_cores := 1; ws_min_ram_bytes := 0; ws_requires_gpu := false; ws_min_vram_bytes := 0;
     ws_estimated_duration_seconds := f1; ws_priority := 0; ws_deadline_at_utc := None; ws_required_gpu_vendor := None;
     ws_required_gpu_model := None; ws_min_compute_capability := None; ws_required_driver_version := None;
     ws_required_runtime_compatibility := None; ws_required_worker_tags := []; ws_preferred_worker_tags := [];
     ws_affinity_group_id := None; ws_affinity_mode := AF_NONE; ws_affinity_tag_key := None; ws_affinity_hard := false;
     ws_max_cost_per_hour := None; ws_depends_on := []; ws_parameters := []; ws_execution_spec := None |}.

Definition sample_node : node := {| nd_manager := new_manager empty_cas; nd_metrics := new_metrics |}.

Definition sample_attempt : node * task_outcome :=
  attempt_body "pc1" sample_net (fun _ => sample_env io_ok) sample_locate io_ok true sample_root id (fun _ => "x") (fun _ => "n")
    (sample_stage true) sample_ingest false sample_times (subprocess 0) (fun _ => finished frames) None f0 remote_spec false sample_node.


Definition just_submitted : list ledger_event := [Submit "a1" remote_spec f0].

Lemma cancelled_before_start_witness :
  let w' := ledger_run "pc1" (ledger_step "pc1" (ledger_run "pc1" (new_worker empty_cas) just_submitted) (Cancel "a1" f1))
              [Start "a1" f1; Submit "a1" remote_spec (f_of_Z 7200); Cancel "a1" f1; Acknowledge "a1"] in
  ack_execution "a1" w' = (w', Err (RuntimeError "execution is not terminal")).
Proof.
  exact (proj2 (cancelled_before_start_is_stuck "pc1" empty_cas just_submitted "a1" (new_record "a1" remote_spec f0) f1 _
                  eq_refl eq_refl eq_refl)).
Defined.

(** Cancelling the second attempt of a workload while the first still runs stops
    the first one's process and leaves the second one's task alone. *)
Example cancel_reaches_the_other_attempt :
  let w := ledger_run "pc1" (new_worker empty_cas)
             [Submit "a1" remote_spec f0; Start "a1" f0; Manager (register_runtime "w1" (subprocess 0)); Submit "a2" remote_spec f0] in
  let w' := (cancel_execution "a2" f1 w).1 in
  (rf_cancel <$> em_flags (wk_manager w') !! 0%nat, xr_must_cancel <$> record_at "a2" w', xr_cancel_requested <$> record_at "a1" w')
  = (Some true, Some false, Some false).
Proof. reflexivity. Qed.

(** A run to success, its second submission, its acknowledgement. *)
Example ledger_walk :
  let es := [Submit "a1" remote_spec f0; Start "a1" f0; Submit "a1" remote_spec f1;
             Finish "a1" (TO_raised "boom") f1; Acknowledge "a1"; Submit "a1" remote_spec f1; Start "a1" f1] in
  (occurrences (begins "a1") "pc1" (new_worker empty_cas) es, occurrences (drops "a1") "pc1" (new_worker empty_cas) es) = (2%nat, 1%nat).
Proof. vm_compute. reflexivity. Qed.
