(* ===== verification/WorkerServer.v ===== *)
(** * The worker's HTTP server ([distributed/server.py])

    The binary routes (stream, upload, existence, inventory), the check of the
    control-plane credential and the execution routes, as functions of the
    worker's store, metrics and ledger.  A refused request is an [HTTPException];
    a response carries its status, headers and the chunks its generator yields.
    What FastAPI does around a handler is left out: routing, request parsing,
    the status of an uncaught exception.  Header values are ASCII, so
    [hmac.compare_digest] is equality. *)
From S2P Require Export WorkerProps Auth.

(** ** The control-plane credential *)

(** Unset counts as insecure here. *)
Definition server_insecure (env : odict string) : bool :=
  bool_decide (str_lower (strip (od_get_default INSECURE_MODE_ENV_VAR "1" env)) ∈ ["1"; "true"; "yes"]%string).

Definition expected_secret (env : odict string) (bootstrap_secret : option string) : string :=
  let own := default "" bootstrap_secret in
  strip (if str_truthy own then own else od_get_default BOOTSTRAP_SECRET_ENV_VAR "" env).

Definition bearer_token (auth_header : string) : string :=
  if starts_with "bearer " (str_lower auth_header) then strip (str_drop 7 auth_header) else "".

Definition verify_control_plane_auth (env : odict string) (bootstrap_secret authorization : option string) : res unit :=
  let secret := expected_secret env bootstrap_secret in
  if server_insecure env || negb (str_truthy secret) then Ok tt
  else
    let token := bearer_token (default "" authorization) in
    if negb (str_truthy token) || negb (String.eqb token secret) then
      unauthorized "Missing or invalid worker control-plane credential"
    else Ok tt.

(** ** Streaming *)

Record server := { sv_cas : local_cas; sv_metrics : worker_metrics }.
Definition with_store (c : local_cas) (s : server) : server := {| sv_cas := c; sv_metrics := sv_metrics s |}.

Record stream_response := { sr_status : Z; sr_headers : odict string; sr_chunks : list string }.

Definition wm_streams (d sent : Z) (m : worker_metrics) : worker_metrics :=
  {| wm_active_transfers := Z.max 0 (wm_active_transfers m + d); wm_active_uploads := Z.max 0 (wm_active_uploads m + d);
     wm_active_downloads := wm_active_downloads m; wm_cpu_percent := wm_cpu_percent m; wm_ram_percent := wm_ram_percent m;
     wm_used_bytes := wm_used_bytes m; wm_available_bytes := wm_available_bytes m;
     wm_total_bytes_sent := wm_total_bytes_sent m + sent; wm_total_bytes_received := wm_total_bytes_received m;
     wm_transfer_error_count := wm_transfer_error_count m; wm_uptime_seconds := wm_uptime_seconds m |}.

(** [active_transfers] and [active_uploads] go up by one. *)
Definition open_transfer (s : server) : server :=
  let m := sv_metrics s in
  {| sv_cas := sv_cas s;
     sv_metrics :=
       {| wm_active_transfers := wm_active_transfers m + 1; wm_active_uploads := wm_active_uploads m + 1;
          wm_active_downloads := wm_active_downloads m; wm_cpu_percent := wm_cpu_percent m; wm_ram_percent := wm_ram_percent m;
          wm_used_bytes := wm_used_bytes m; wm_available_bytes := wm_available_bytes m;
          wm_total_bytes_sent := wm_total_bytes_sent m; wm_total_bytes_received := wm_total_bytes_received m;
          wm_transfer_error_count := wm_transfer_error_count m; wm_uptime_seconds := wm_uptime_seconds m |} |}.

Definition http_error {A} (status : Z) (detail : string) : res A := Err (HTTPException status detail).

(** The size the file system reports, or else the end of a probe stream. *)
Definition asset_size (i : io) (norm : string) (c : local_cas) : res Z :=
  match get_asset_size i norm c with
  | Some n => Ok n
  | None =>
      match open_asset_stream norm 0 c with
      | Ok content => Ok (str_len content)
      | Err e => http_error 500 ("Failed to determine size of asset " +:+ norm +:+ ": " +:+ exn_text e)
      end
  end.

Definition range_of (range : option string) (total_size : Z) : res (Z * Z * Z * bool) :=
  match parse_byte_range_header range total_size with
  | Err (ValueError _) => Ok (0, if 0 <? total_size then Z.max 0 (total_size - 1) else 0, total_size, false)
  | r => r
  end.

Definition unsatisfiable (total_size : Z) : stream_response :=
  {| sr_status := 416; sr_headers := [("Content-Range"%string, "bytes */" +:+ str_of_Z total_size); ("Accept-Ranges"%string, "bytes"%string)];
     sr_chunks := [] |}.

Definition stream_headers (norm : string) (start end_ content_length total_size : Z) (is_partial : bool) : odict string :=
  [("Content-Type"%string, "application/octet-stream"%string); ("Content-Length"%string, str_of_Z content_length);
   ("Accept-Ranges"%string, "bytes"%string); ("X-Asset-SHA256"%string, norm)]
  ++ (if is_partial then [("Content-Range"%string, "bytes " +:+ str_of_Z start +:+ "-" +:+ str_of_Z end_ +:+ "/" +:+ str_of_Z total_size)]
      else []).

(** [chunk_size_bytes or DEFAULT_CHUNK_SIZE] *)
Definition served_chunk_size (cap : worker_capabilities) : Z :=
  if cap_chunk_size_bytes cap =? 0 then DEFAULT_CHUNK_SIZE else cap_chunk_size_bytes cap.

Definition stream_asset (i : io) (cap : worker_capabilities) (sha : string) (range : option string) (s : server)
    : server * res stream_response :=
  match validate_sha256_hex sha with
  | Err e => (s, http_error 400 ("Invalid SHA-256 hash format: " +:+ exn_text e))
  | Ok norm =>
      if negb (has_asset norm (sv_cas s)) then (s, http_error 404 ("Asset " +:+ norm +:+ " not found in local CAS."))
      else
        match asset_size i norm (sv_cas s) with
        | Err e => (s, Err e)
        | Ok total_size =>
            match range_of range total_size with
            | Err IndexError => (s, Ok (unsatisfiable total_size))
            | Err e => (s, Err e)
            | Ok (start, end_, content_length, is_partial) =>
                match open_asset_stream norm start (sv_cas s) with
                | Err e => (s, http_error 404 ("Unable to open stream for asset " +:+ norm +:+ ": " +:+ exn_text e))
                | Ok stream =>
                    (open_transfer s,
                     Ok {| sr_status := if is_partial then 206 else 200;
                           sr_headers := stream_headers norm start end_ content_length total_size is_partial;
                           sr_chunks := generate_bounded_chunks stream content_length (served_chunk_size cap) |})
                end
            end
        end
  end.

(** The end of a response: the [finally] of its generator, which runs only if
    the body was begun; [sent] chunks went out before the end or an abort. *)
Definition close_stream (begun : bool) (sent : nat) (r : stream_response) (s : server) : server :=
  if begun then
    {| sv_cas := sv_cas s; sv_metrics := wm_streams (-1) (str_len (str_concat (take sent (sr_chunks r)))) (sv_metrics s) |}
  else s.

(** ** Uploads *)

Record uploaded := { up_status : string; up_sha256 : string; up_size_bytes : Z }.

Definition upload_name (norm random : string) : string := "upload_" +:+ substring 0 12 norm +:+ "_" +:+ random +:+ ".tmp".

(** A handler deletes the staged file and raises; the deletion may raise itself. *)
Definition drop_upload (i : io) (name : string) (e : exn) (c : local_cas) : local_cas * res uploaded :=
  match unlink_staged i name c with (c, Ok _) => (c, Err e) | (c, Err x) => (c, Err x) end.

Definition upload_failed (i : io) (name : string) (x : exn) (c : local_cas) : local_cas * res uploaded :=
  drop_upload i name (HTTPException 500 ("Failed to store uploaded asset: " +:+ exn_text x)) c.

(** [body] is what the request stream yields, [broken] the exception it ends with. *)
Definition receive_upload (i : io) (random : string) (now : float) (norm : string) (body : list string)
    (broken : option exn) (c : local_cas) : local_cas * res uploaded :=
  if io_fails i IO_STAGING_DIR then (c, Err (OSError "mkdir"))
  else
    let name := upload_name norm random in
    let data := str_concat body in
    match write_staged i name data now c with
    | (c, Err x) => upload_failed i name x c
    | (c, Ok _) =>
        match broken with
        | Some x => upload_failed i name x c
        | None =>
            let actual_hash := str_lower (sha256 data) in
            if negb (String.eqb actual_hash norm) then
              match unlink_staged i name c with
              | (c, Err x) => upload_failed i name x c
              | (c, Ok _) =>
                  drop_upload i name (HTTPException 400 ("SHA-256 mismatch: expected " +:+ norm +:+ ", got " +:+ actual_hash)) c
              end
            else
              match commit_staged_file i name norm c with
              | (c, Err x) => upload_failed i name x c
              | (c, Ok _) => (c, Ok {| up_status := "stored"; up_sha256 := norm; up_size_bytes := str_len data |})
              end
        end
    end.

Definition upload_asset (i : io) (random : string) (now : float) (auth : res unit) (sha : string) (body : list string)
    (broken : option exn) (s : server) : server * res uploaded :=
  match auth with
  | Err e => (s, Err e)
  | Ok _ =>
      match validate_sha256_hex sha with
      | Err e => (s, http_error 400 (exn_text e))
      | Ok norm =>
          if has_asset norm (sv_cas s) then
            (s, Ok {| up_status := "exists"; up_sha256 := norm; up_size_bytes := default 0 (get_asset_size i norm (sv_cas s)) |})
          else
            let '(c, r) := receive_upload i random now norm body broken (sv_cas s) in (with_store c s, r)
      end
  end.

(** ** Diagnostics *)

Record existence := { ex_sha256 : string; ex_exists : bool; ex_size_bytes : option Z }.

Definition asset_exists (i : io) (sha : string) (s : server) : existence :=
  match validate_sha256_hex sha with
  | Err _ => {| ex_sha256 := sha; ex_exists := false; ex_size_bytes := None |}
  | Ok norm =>
      let exists_ := has_asset norm (sv_cas s) in
      {| ex_sha256 := norm; ex_exists := exists_; ex_size_bytes := if exists_ then get_asset_size i norm (sv_cas s) else None |}
  end.

Definition get_inventory (s : server) : Z * list string :=
  let hashes := elements (get_inventory_hashes (sv_cas s)) in
  (Z.of_nat (length hashes), isort str_lt hashes).

(** [PongResponse] *)
Record pong := {
  pg_worker_id : string; pg_client_timestamp_utc : float; pg_server_timestamp_utc : float; pg_status : string; pg_sequence_number : option Z;
}.
Definition ping_post (worker_id : string) (client_timestamp_utc : float) (sequence_number : option Z) (now : float) : pong :=
  {| pg_worker_id := worker_id; pg_client_timestamp_utc := client_timestamp_utc; pg_server_timestamp_utc := now;
     pg_status := "pong"; pg_sequence_number := sequence_number |}.

(** ** Execution routes *)

Section Routes.
Context (linked : bool).

Definition link_checked {A} (r : res A) : res A :=
  if linked then r else http_error 500 "Worker instance not linked to server".

Definition found (r : option exec_status) : res exec_status :=
  match r with Some s => Ok s | None => http_error 404 "Execution not found" end.

Definition route_submit (auth : res unit) (attempt_id : string) (spec : workload_spec) (now : float) (w : worker)
    : worker * res exec_status :=
  match auth, linked with
  | Ok _, true => let '(w, s) := submit_execution attempt_id spec now w in (w, Ok s)
  | Ok _, false => (w, link_checked (Err TypeError))
  | Err e, _ => (w, Err e)
  end.

(** Reading a status and acknowledging it ask for no credential. *)
Definition route_get (attempt_id : string) (w : worker) : res exec_status :=
  link_checked (found (get_execution attempt_id w)).

Definition route_ack (attempt_id : string) (w : worker) : worker * res unit :=
  if negb linked then (w, link_checked (Err TypeError))
  else
    match ack_execution attempt_id w with
    | (w, Ok true) => (w, Ok tt)
    | (w, Ok false) => (w, http_error 404 "Execution not found")
    | (w, Err e) => (w, http_error 409 (exn_text e))
    end.

Definition route_cancel (auth : res unit) (attempt_id : string) (now : float) (w : worker) : worker * res exec_status :=
  match auth, linked with
  | Ok _, true => let '(w, s) := cancel_execution attempt_id now w in (w, found s)
  | Ok _, false => (w, link_checked (Err TypeError))
  | Err e, _ => (w, Err e)
  end.

(** The two routes that act on a workload's active runtime. *)
Definition route_runtime (op : string -> exec_manager -> exec_manager * bool) (refusal done_ : string) (auth : res unit)
    (workload_id : string) (w : worker) : worker * res string :=
  match auth, linked with
  | Ok _, true =>
      let '(m, success) := op workload_id (wk_manager w) in
      ({| wk_executions := wk_executions w; wk_manager := m |}, if success then Ok done_ else http_error 404 refusal)
  | Ok _, false => (w, link_checked (Err TypeError))
  | Err e, _ => (w, Err e)
  end.

Definition route_checkpoint : res unit -> string -> worker -> worker * res string :=
  route_runtime checkpoint_workload "Workload not found or could not be checkpointed" "checkpointing".
Definition route_cancel_workload : res unit -> string -> worker -> worker * res string :=
  route_runtime cancel_workload "Workload not found or could not be cancelled" "cancelled".

(** The synchronous routes; [execute] is the worker's [execute_workload]. *)
Definition route_execute (execute : workload_spec -> bool -> node -> node * res workload_execution_result) (auth : res unit)
    (spec : workload_spec) (n : node) : node * res workload_execution_result :=
  match auth, linked with
  | Ok _, true => execute spec false n
  | Ok _, false => (n, link_checked (Err TypeError))
  | Err e, _ => (n, Err e)
  end.

Definition route_execute_group (execute : workload_spec -> bool -> node -> node * res workload_execution_result)
    (auth : res unit) (worker_id context_worker_id : string) (spec : workload_spec) (n : node)
    : node * res workload_execution_result :=
  match auth, linked with
  | Ok _, true =>
      if negb (String.eqb context_worker_id worker_id) then
        (n, http_error 400 "Execution context worker_id does not match this worker")
      else execute spec true n
  | Ok _, false => (n, link_checked (Err TypeError))
  | Err e, _ => (n, Err e)
  end.
End Routes.

(** ** Replies as the peers see them *)

(** A streamed response as the downloading client reads it, when the
    connection holds. *)
Definition as_response (r : stream_response) : response :=
  {| Transfer.rp_status := sr_status r; Transfer.rp_content_length := od_get "Content-Length" (sr_headers r); Transfer.rp_chunks := sr_chunks r;
     Transfer.rp_broken := None |}.

Definition error_response (e : exn) : response :=
  {| Transfer.rp_status := match e with HTTPException code _ => code | _ => 500 end; Transfer.rp_content_length := None; Transfer.rp_chunks := [];
     Transfer.rp_broken := None |}.

(** What this server answers to a request for the stream of an asset. *)
Definition serve (i : io) (cap : worker_capabilities) (s : server) (sha : string) (range : option string) : http_reply :=
  Reply (match snd (stream_asset i cap sha range s) with Ok r => as_response r | Err e => error_response e end).

(** A status answer as the coordinator's poll reads it. *)
Definition as_http (code : Z) (r : res exec_status) : http :=
  match r with
  | Ok s => REPLY code (P_STATUS (xs_state s) (xs_result s))
  | Err (HTTPException c detail) => REPLY c (P_INVALID detail)
  | Err e => REPLY 500 (P_INVALID (exn_text e))
  end.
