(* ===== verification/WorkerServerProps.v ===== *)
(** * What the worker's server guarantees

    A stream is exactly the requested part of the object with honest headers; a
    download from this server, whole or resumed, yields the object; an upload is
    verified; and a submission whose answer was lost is found again. *)
From S2P Require Export WorkerServer.
#[local] Hint Resolve grows_refl extends_refl : core.

(** ** Streaming *)

Lemma held_object norm c x : is_sha256 norm = true -> object norm c = Some x ->
  has_asset norm c = true /\ get_asset_path norm c = Some (shard_of norm, norm).
Proof.
  intros Hn Hx. assert (is_file (shard_of norm, norm) c = true) as Hf.
  { unfold is_file. apply bool_decide_eq_true. unfold object in Hx. by rewrite Hx. }
  unfold has_asset, get_asset_path. rewrite get_path_valid by done. by rewrite Hf.
Qed.

Lemma open_at norm c x k : is_sha256 norm = true -> object norm c = Some x -> 0 <= k <= str_len x ->
  open_asset_stream norm k c = Ok (str_drop (Z.to_nat k) x).
Proof.
  intros Hn Hx Hk. destruct (held_object _ _ _ Hn Hx) as [_ Hp]. unfold open_asset_stream. rewrite Hp.
  unfold object in Hx. rewrite Hx. simpl. destruct (Z.ltb_spec k 0); [lia|]. destruct (Z.ltb_spec (str_len x) k); [lia|done].
Qed.

Lemma asset_size_held i norm c x : is_sha256 norm = true -> object norm c = Some x -> asset_size i norm c = Ok (str_len x).
Proof.
  intros Hn Hx. unfold asset_size. destruct (get_asset_size i norm c) as [n|] eqn:E.
  - unfold get_asset_size in E. destruct (held_object _ _ _ Hn Hx) as [_ Hp]. rewrite Hp in E. simpl in E.
    unfold object in Hx. rewrite Hx in E. destruct (io_fails i _); [done|]. simpl in E. by injection E as <-.
  - rewrite (open_at _ _ x) by (done || (unfold str_len; lia)). simpl. by destruct x.
Qed.

Lemma range_of_ok range total : 0 <= total ->
  match range_of range total with
  | Ok (start, end_, n, partial) =>
      0 <= start /\ 0 <= n /\ start + n <= total /\ (0 < total -> 0 < n /\ end_ = start + n - 1) /\
      (partial = false -> start = 0 /\ n = total)
  | Err e => e = IndexError
  end.
Proof.
  intros Ht. pose proof (parse_range_correct range total Ht) as H. unfold range_of.
  destruct (parse_byte_range_header range total) as [[[[s e] n] p]|e]; [done|].
  destruct H as (h & _ & _ & [[_ [m ->]]|[_ ->]]); [|done]. destruct (Z.ltb_spec 0 total); split_and!; lia.
Qed.

(** The answer for an object the store holds. *)
Lemma stream_held i cap sha norm range s x :
  validate_sha256_hex sha = Ok norm -> object norm (sv_cas s) = Some x ->
  match range_of range (str_len x) with
  | Ok (start, end_, n, partial) =>
      stream_asset i cap sha range s =
        (open_transfer s,
         Ok {| sr_status := if partial then 206 else 200;
               sr_headers := stream_headers norm start end_ n (str_len x) partial;
               sr_chunks := generate_bounded_chunks (str_drop (Z.to_nat start) x) n (served_chunk_size cap) |})
  | Err _ => stream_asset i cap sha range s = (s, Ok (unsatisfiable (str_len x)))
  end.
Proof.
  intros Hv Hx. pose proof (validated_sha256 _ _ Hv) as Hn. destruct (held_object _ _ _ Hn Hx) as [Hh _].
  assert (0 <= str_len x) as Hlen by (unfold str_len; lia). pose proof (range_of_ok range _ Hlen) as Hr.
  unfold stream_asset. rewrite Hv, Hh, (asset_size_held _ _ _ x) by done. simpl.
  destruct (range_of range (str_len x)) as [[[[start end_] n] partial]|e]; [|by subst e].
  destruct Hr as (H1 & H2 & H3 & _). by rewrite (open_at _ _ x) by (done || lia).
Qed.

Definition sr_body (r : stream_response) : string := str_concat (sr_chunks r).

(** C28: for an object the store holds, whatever range is asked for and whether
    or not its size can be read, the answer is the whole object (200), a part of
    it (206) or a refusal without a body (416).  A part is the slice its
    [Content-Range] announces, [Content-Length] is the length of the body, and
    every chunk is non-empty and at most the served chunk size.  A digest the
    store does not hold is refused with 404, an ill-formed one with 400. *)
Theorem served_stream_exact i cap sha range s :
  match validate_sha256_hex sha with
  | Err _ => exists d, stream_asset i cap sha range s = (s, http_error 400 d)
  | Ok norm =>
      match object norm (sv_cas s) with
      | None => exists d, stream_asset i cap sha range s = (s, http_error 404 d)
      | Some x =>
          exists s' r, stream_asset i cap sha range s = (s', Ok r) /\ sv_cas s' = sv_cas s /\
            Forall (fun ch => ch <> EmptyString /\ str_len ch <= Z.max 1024 (served_chunk_size cap)) (sr_chunks r) /\
            ((sr_status r = 200 /\ sr_body r = x /\ od_get "Content-Length" (sr_headers r) = Some (str_of_Z (str_len x))) \/
             (sr_status r = 206 /\ exists start n, 0 <= start /\ 0 <= n /\ start + n <= str_len x /\
                sr_body r = str_take (Z.to_nat n) (str_drop (Z.to_nat start) x) /\
                od_get "Content-Length" (sr_headers r) = Some (str_of_Z (str_len (sr_body r))) /\
                (0 < str_len x -> od_get "Content-Range" (sr_headers r) =
                   Some ("bytes " +:+ str_of_Z start +:+ "-" +:+ str_of_Z (start + n - 1) +:+ "/" +:+ str_of_Z (str_len x)))) \/
             (sr_status r = 416 /\ sr_chunks r = [] /\ s' = s))
      end
  end.
Proof.
  destruct (validate_sha256_hex sha) as [norm|e] eqn:Hv; [|unfold stream_asset; rewrite Hv; eauto].
  pose proof (validated_sha256 _ _ Hv) as Hn.
  destruct (object norm (sv_cas s)) as [x|] eqn:Hx.
  2:{ unfold stream_asset. rewrite Hv. assert (has_asset norm (sv_cas s) = false) as ->; [|simpl; eauto].
      unfold has_asset. rewrite get_path_valid by done. unfold is_file. unfold object in Hx. by rewrite Hx. }
  assert (0 <= str_len x) as Hlen by (unfold str_len; lia).
  pose proof (stream_held i cap sha norm range s x Hv Hx) as Hs. pose proof (range_of_ok range _ Hlen) as Hr.
  destruct (range_of range (str_len x)) as [[[[start end_] n] partial]|e].
  2:{ exists s, (unsatisfiable (str_len x)). split_and!; [done|done|constructor|]. right. right. by split_and!. }
  destruct Hr as (H1 & H2 & H3 & H4 & H5). eexists _, _. split_and!; [exact Hs|done| |].
  { apply (bounded_chunks_exact (str_drop (Z.to_nat start) x) n (served_chunk_size cap)). }
  pose proof (proj1 (bounded_chunks_exact (str_drop (Z.to_nat start) x) n (served_chunk_size cap))) as Hb. simpl in Hb.
  destruct partial; [right; left|left]; unfold sr_body; cbn [sr_status sr_headers sr_chunks]; rewrite Hb.
  - split; [done|]. exists start, n. split_and!; [done..| |].
    + simpl. f_equal. f_equal. unfold str_len in *. rewrite str_take_length, str_drop_length. lia.
    + intros Hpos. destruct (H4 Hpos) as [_ ->]. done.
  - destruct (H5 eq_refl) as [-> ->]. split_and!; [done| |done]. apply str_take_all. unfold str_len. lia.
Qed.

(** ** Downloading from this server *)

Definition range_from (k : Z) : string := "bytes=" +:+ str_of_Z k +:+ "-".

Lemma nospace_app u v : str_forallb (fun c => negb (is_space c)) (u +:+ v)
  = str_forallb (fun c => negb (is_space c)) u && str_forallb (fun c => negb (is_space c)) v.
Proof. induction u as [|c u IH]; simpl; [done|]. by rewrite IH, andb_assoc. Qed.

Lemma parse_range_from k total : 0 < k < total ->
  range_of (Some (range_from k)) total = Ok (k, total - 1, total - k, true).
Proof.
  intros Hk. unfold range_of, parse_byte_range_header.
  assert (strip (range_from k) = range_from k) as ->.
  { apply strip_nospace. unfold range_from. rewrite !nospace_app, str_of_Z_nospace by lia. done. }
  assert (match_range (range_from k) = Some (str_of_Z k, None)) as ->.
  { unfold match_range. change (starts_with "bytes=" (range_from k)) with true. cbn [negb].
    change (str_drop 6 (range_from k)) with (str_of_Z k +:+ String "-" EmptyString).
    rewrite split_once_app by (apply str_of_Z_no_char; [lia|by apply pretty_N_char_ne]).
    rewrite str_of_Z_digits by lia. destruct (str_of_Z_nonempty k ltac:(lia)) as (c & s & ->). done. }
  change (str_truthy (range_from k)) with true. cbn match.
  unfold decimal. rewrite py_int_str_of_Z by lia. simpl.
  destruct (Z.eqb_spec total 0); [lia|]. destruct (Z.ltb_spec k 0); [lia|]. destruct (Z.leb_spec total k); [lia|]. simpl.
  repeat f_equal; lia.
Qed.

Lemma serve_whole i cap s norm x : is_sha256 norm = true -> object norm (sv_cas s) = Some x ->
  exists r, serve i cap s norm None = Reply r /\ Transfer.rp_status r = 200 /\ Transfer.rp_broken r = None /\
    str_concat (Transfer.rp_chunks r) = x /\ Transfer.rp_content_length r = Some (str_of_Z (str_len x)).
Proof.
  intros Hn Hx. pose proof (stream_held i cap norm norm None s x (validate_sha256_hex_norm _ Hn) Hx) as Hs.
  unfold range_of in Hs. simpl in Hs. eexists. unfold serve. rewrite Hs. split; [done|]. simpl. split_and!; [done|done| |done].
  rewrite (proj1 (bounded_chunks_exact _ _ _)). apply str_take_all. unfold str_len. lia.
Qed.

Lemma serve_from i cap s norm x k : is_sha256 norm = true -> object norm (sv_cas s) = Some x -> 0 < k < str_len x ->
  exists r, serve i cap s norm (Some (range_from k)) = Reply r /\ Transfer.rp_status r = 206 /\ Transfer.rp_broken r = None /\
    str_concat (Transfer.rp_chunks r) = str_drop (Z.to_nat k) x /\
    Transfer.rp_content_length r = Some (str_of_Z (str_len x - k)).
Proof.
  intros Hn Hx Hk. pose proof (stream_held i cap norm norm (Some (range_from k)) s x (validate_sha256_hex_norm _ Hn) Hx) as Hs.
  rewrite parse_range_from in Hs by done. eexists. unfold serve. rewrite Hs. split; [done|]. simpl. split_and!; [done|done| |done].
  rewrite (proj1 (bounded_chunks_exact _ _ _)). apply str_take_all. unfold str_len in *. rewrite str_drop_length. lia.
Qed.

Lemma expected_text r n : 0 <= n -> Transfer.rp_content_length r = Some (str_of_Z n) -> expected_bytes r = Some n.
Proof.
  intros Hn Hr. unfold expected_bytes. rewrite Hr. destruct (str_of_Z_nonempty n Hn) as (c & s & E).
  rewrite E. simpl. rewrite <- E. by apply py_int_str_of_Z.
Qed.

(** A network that reaches this server at [endpoint] with undisturbed connections. *)
Definition reaches (net : peer) (i : io) (cap : worker_capabilities) (s : server) (endpoint norm : string) : Prop :=
  forall range, net (stream_url endpoint norm) range = serve i cap s norm range.

(** C27: the range protocol round-trips between a worker's client and a worker's
    server: from a server that holds an object, a download, whole or resumed
    after any proper prefix of it, ends with the object's exact content in the
    staging file and its digest verified; and the server counts as a candidate
    that delivers, so that fail-over to it succeeds. *)
Theorem download_from_server net i cap s endpoint norm x at_ k c :
  reaches net i cap s endpoint norm -> is_sha256 norm = true -> object norm (sv_cas s) = Some x -> sha256 x = norm ->
  (forall op, io_fails (at_io at_) op = false) -> k = 0 \/ 0 < k < str_len x ->
  download_stream_to_staging net at_ endpoint norm k (if 0 <? k then Some (str_take (Z.to_nat k) x) else None) c =
    (stage (staging_path norm (at_uuid at_)) x (at_now at_) c, Ok (staging_path norm (at_uuid at_), norm, str_len x - k)) /\
  delivers net at_ endpoint norm.
Proof.
  intros Hnet Hn Hx Hh Hio Hk. split.
  2:{ destruct (serve_whole i cap s norm x Hn Hx) as (r & Hr & Hst & Hb & Hc & Hl). exists r. rewrite Hnet, Hc.
      split_and!; [done|by left|done|done| |done]. intros n Hn'. rewrite (expected_text r (str_len x)) in Hn'; [congruence|unfold str_len; lia|done]. }
  assert (0 <= str_len x) as Hlen by (unfold str_len; lia).
  unfold download_stream_to_staging. rewrite validate_sha256_hex_norm, !Hio, andb_false_r by done.
  destruct (Z.ltb_spec 0 k) as [Hpos|Hzero].
  - destruct (serve_from i cap s norm x k Hn Hx ltac:(lia)) as (r & Hr & Hst & Hb & Hc & Hl).
    change ("bytes=" +:+ str_of_Z k +:+ "-") with (range_from k). rewrite Hnet, Hr.
    assert (usable_prefix k (Some (str_take (Z.to_nat k) x)) = Some (str_take (Z.to_nat k) x)) as ->.
    { unfold usable_prefix. destruct (Z.ltb_spec 0 k); [|lia].
      unfold str_len in *. rewrite str_take_length. destruct (Z.eqb_spec (Z.of_nat (Nat.min (Z.to_nat k) (String.length x))) k); [done|lia]. }
    unfold receive_response. rewrite Hst, Hio. cbn match. simpl Z.eqb. cbn [negb orb andb]. rewrite receive_spec, Hc, Hb.
    assert (str_len x - k = str_len (str_drop (Z.to_nat k) x)) as Hkl by (unfold str_len in *; rewrite str_drop_length; lia).
    rewrite (expected_text r (str_len x - k)) by (done || lia). rewrite Z.add_0_l, <- Hkl, Z.eqb_refl. cbn [negb].
    rewrite (bool_decide_true (is_Some (Some (str_take (Z.to_nat k) x)))) by eauto. cbn [andb orb default]. simpl default.
    unfold id. rewrite str_take_drop, Hh, String.eqb_refl, orb_true_r. cbn [orb andb negb]. done.
  - assert (k = 0) as -> by lia. destruct (serve_whole i cap s norm x Hn Hx) as (r & Hr & Hst & Hb & Hc & Hl).
    rewrite Hnet, Hr. unfold receive_response. rewrite Hst, Hio. cbn match. simpl Z.eqb. cbn [negb orb andb usable_prefix].
    rewrite receive_spec, Hc, Hb. rewrite (expected_text r (str_len x)) by done. rewrite Z.add_0_l, Z.eqb_refl. cbn [negb default].
    simpl default. change ("" +:+ x) with x. rewrite Hh, String.eqb_refl. cbn [orb andb negb]. by rewrite Z.sub_0_r.
Qed.

(** ** Uploads *)

Definition no_leftover (i : io) (name : string) (c' : local_cas) : Prop :=
  io_fails i (IO_UNLINK name) = false -> lc_staging c' !! name = None.

Lemma unlink_spec i name c c' r : unlink_staged i name c = (c', r) -> same_objects c c' /\ no_leftover i name c'.
Proof.
  intros E. split; [intros p; apply object_at_objects; by rewrite <- (unlink_staged_objects i name c), E|].
  intros Hu. rewrite unlink_staged_cases, Hu in E. simpl in E. injection E as <- _. simpl. by rewrite lookup_delete_eq.
Qed.

Lemma drop_upload_spec i name e c c' r : drop_upload i name e c = (c', r) ->
  same_objects c c' /\ no_leftover i name c' /\ exists x, r = Err x.
Proof.
  unfold drop_upload. destruct (unlink_staged i name c) as [c1 [u|x]] eqn:E; apply unlink_spec in E as [Hs Hl];
    intros [= <- <-]; eauto.
Qed.

Lemma receive_upload_spec i random now norm body broken c c' r :
  is_sha256 norm = true -> lc_staging c !! upload_name norm random = None -> holds norm c = false ->
  receive_upload i random now norm body broken c = (c', r) ->
  no_leftover i (upload_name norm random) c' /\
  match r with
  | Err _ => same_objects c c'
  | Ok u => commit_effect c c' /\ up_status u = "stored"%string /\ up_sha256 u = norm /\ up_size_bytes u = str_len (str_concat body) /\
            broken = None /\ sha256 (str_concat body) = norm /\
            ((forall op, io_fails i op = false) -> object norm c' = Some (str_concat body))
  end.
Proof.
  intros Hn Hfree Hnew. unfold receive_upload. set (name := upload_name norm random) in *. set (data := str_concat body).
  destruct (io_fails i IO_STAGING_DIR); [intros [= <- <-]; split; [by intros _|apply same_objects_refl]|].
  pose proof (write_staged_same i name data now c) as Hw.
  destruct (write_staged i name data now c) as [c1 w] eqn:Ew. simpl in Hw.
  assert (forall e c2, same_objects c c2 -> drop_upload i name e c2 = (c', r) ->
    no_leftover i name c' /\ match r with Err _ => same_objects c c' | Ok _ => False end) as Hdrop.
  { intros e c2 H2 (Hs & Hl & x & ->)%drop_upload_spec. split; [done|]. by eapply same_objects_trans. }
  assert (forall P : uploaded -> Prop, no_leftover i name c' /\ match r with Err _ => same_objects c c' | Ok _ => False end ->
    no_leftover i name c' /\ match r with Err _ => same_objects c c' | Ok u => P u end) as Hweak.
  { intros P [H1 H2]. split; [done|]. by destruct r. }
  destruct w as [u|x]; [|intros E; apply Hweak; by eapply Hdrop].
  destruct broken as [x|]; [intros E; apply Hweak; by eapply Hdrop|].
  rewrite (is_sha256_lower (sha256 data)) by apply sha256_is_sha256.
  destruct (String.eqb_spec (sha256 data) norm) as [Hh|]; cbn [negb].
  2:{ destruct (unlink_staged i name c1) as [c2 [u'|x]] eqn:Eu; apply unlink_spec in Eu as [Hs _]; intros E; apply Hweak;
        (eapply Hdrop; [|exact E]); by eapply same_objects_trans. }
  assert (c1 = stage name data now c) as ->.
  { unfold write_staged in Ew. destruct (io_fails i IO_WRITE); [done|]. by injection Ew as <- _. }
  destruct (commit_staged_file i name norm _) as [c2 b] eqn:Ec. destruct b as [b|x].
  2:{ intros E. apply Hweak. eapply Hdrop; [|exact E]. eapply same_objects_trans; [exact Hw|]. eapply commit_refused; [exact Ec|done]. }
  intros [= <- <-]. pose proof (commit_effect_commit i name norm (stage name data now c)) as He. rewrite Ec in He. simpl in He.
  split; [intros Hu; by eapply commit_consumes|]. split_and!; try done; try (by eapply commit_effect_pre). intros Hio.
  assert (Ok b = Ok true) as Hb.
  { apply (commit_accepts_iff _ _ _ _ _ _ Ec). exists {| sg_content := data; sg_mtime := now |}. simpl. rewrite lookup_insert_eq, Hh.
    rewrite validate_sha256_hex_norm by done. split_and!; done. }
  rewrite Hb in Ec. clear Hb. destruct (commit_cases _ _ _ _ _ _ Ec) as [[_ [H|(f & Hf & _ & Hheld)]]|(_ & f & Hf & _ & _ & _ & Hp)]; [done|..];
    simpl in Hf; rewrite lookup_insert_eq in Hf; injection Hf as <-; simpl in *; rewrite Hh in *.
  - exfalso. unfold holds, is_file in Hheld, Hnew. rewrite Hw in Hheld. congruence.
  - unfold object. rewrite Hp. by rewrite bool_decide_true.
Qed.

(** C29: an upload never removes or alters an object and keeps the store's
    integrity.  A refused or failed one leaves the objects as they were; one
    answered [stored] was authorised, complete and of the announced digest, and
    the object is then in the store with the body as its content unless a
    system call failed; [exists] means it was there.  No staging file is left
    behind unless the system refuses to delete it. *)
Theorem upload_verified i random now auth sha body broken s s' r :
  (forall norm, validate_sha256_hex sha = Ok norm -> lc_staging (sv_cas s) !! upload_name norm random = None) ->
  upload_asset i random now auth sha body broken s = (s', r) ->
  (cas_ok (sv_cas s) -> cas_ok (sv_cas s')) /\
  (forall h x, object h (sv_cas s) = Some x -> object h (sv_cas s') = Some x) /\
  match r with
  | Err _ => same_objects (sv_cas s) (sv_cas s')
  | Ok u =>
      auth = Ok tt /\ validate_sha256_hex sha = Ok (up_sha256 u) /\
      ((up_status u = "exists"%string /\ s' = s /\ is_Some (object (up_sha256 u) (sv_cas s))) \/
       (up_status u = "stored"%string /\ broken = None /\ sha256 (str_concat body) = up_sha256 u /\
        ((forall op, io_fails i op = false) -> object (up_sha256 u) (sv_cas s') = Some (str_concat body))))
  end /\
  (forall norm, validate_sha256_hex sha = Ok norm -> io_fails i (IO_UNLINK (upload_name norm random)) = false ->
     lc_staging (sv_cas s') !! upload_name norm random = None).
Proof.
  intros Hfree. unfold upload_asset. destruct auth as [[]|e];
    [|intros [= <- <-]; split_and!; [done|done|apply same_objects_refl|intros n Hn _; by apply Hfree]].
  destruct (validate_sha256_hex sha) as [norm|e] eqn:Hv; [|intros [= <- <-]; split_and!; [done|done|apply same_objects_refl|done]].
  pose proof (validated_sha256 _ _ Hv) as Hn.
  destruct (has_asset norm (sv_cas s)) eqn:Eh.
  { intros [= <- <-]. split_and!; [done|done|done|done| |by intros n [= <-] _; apply Hfree]. left. split_and!; [done|done|].
    apply has_asset_holds in Eh as (n & Hvn & Hh). rewrite validate_sha256_hex_norm in Hvn by done. injection Hvn as <-. by apply holds_iff. }
  destruct (receive_upload i random now norm body broken (sv_cas s)) as [c' x] eqn:E. intros [= <- <-]. simpl.
  apply receive_upload_spec in E as [Hl Hx]; [|done|by apply Hfree|].
  2:{ unfold has_asset in Eh. by rewrite get_path_valid in Eh by done. }
  assert (extends (sv_cas s) c') as [Hok Hg].
  { destruct x; [apply commit_effect_extends, Hx|apply commit_effect_extends; by left]. }
  split_and!; [done|done| |by intros n [= <-]]. destruct x as [u|]; [|done].
  destruct Hx as (_ & H1 & H2 & _ & H3 & H4 & H5). rewrite H2. split_and!; [done|done|]. right. by split_and!.
Qed.

(** ** A submission whose answer was lost *)

(** Once a worker has processed a submission, then as long as the record is
    neither acknowledged nor expired, a coordinator whose submit request got no
    answer finds the attempt with its follow-up request: it polls on with the
    record's state and result and never takes the worker for one that does not
    know the attempt. *)
Theorem lost_submit_resolved wid c es1 aid spec now es2 text status_error_text :
  let w1 := ledger_run wid (new_worker c) es1 in
  let w2 := (route_submit true (Ok tt) aid spec now w1).1 in
  let w3 := ledger_run wid w2 es2 in
  occurrences (drops aid) wid w2 es2 = 0%nat ->
  exists r, record_at aid w3 = Some r /\
    submit status_error_text (NO_REPLY text) (as_http 200 (route_get true aid w3))
    = (Polling.Polling (xr_state r) (xr_result r), [SUBMIT; RESOLVE]).
Proof.
  intros w1 w2 w3 Hd. pose proof (ledger_run_ok wid es1 _ (new_worker_ok c)) as Hw1. fold w1 in Hw1.
  assert (w2 = ledger_step wid w1 (Submit aid spec now)) as Hw2.
  { unfold w2, route_submit. simpl. by destruct (submit_execution aid spec now w1). }
  assert (ledger_ok w2) as Hok by (rewrite Hw2; by apply ledger_step_ok).
  assert (is_Some (record_at aid w2)) as Hsome.
  { rewrite Hw2. simpl. unfold submit_execution. destruct (od_get aid _) as [r|] eqn:E; [by exists r|].
    cbn [fst]. rewrite put_get. simpl. by rewrite String.eqb_refl. }
  assert (forall es w, ledger_ok w -> is_Some (record_at aid w) -> occurrences (drops aid) wid w es = 0%nat ->
    is_Some (record_at aid (ledger_run wid w es))) as Hkeep.
  { induction es as [|e es IH]; intros w Hw [r Hr]; simpl; [by exists r|]. intros H0.
    destruct (drops aid w e) eqn:Ed; [done|]. apply IH; [by apply ledger_step_ok| |done].
    destruct (step_record wid w e aid r Hw Hr Ed) as (r' & Hr' & _). by exists r'. }
  destruct (Hkeep es2 w2 Hok Hsome Hd) as [r Hr]. fold w3 in Hr. exists r. split; [done|].
  unfold route_get, link_checked, found, get_execution. unfold record_at in Hr. rewrite Hr. done.
Qed.

(** ** Concrete requests *)

Definition idle_metrics : worker_metrics :=
  {| wm_active_transfers := 0; wm_active_uploads := 0; wm_active_downloads := 0; wm_cpu_percent := f0; wm_ram_percent := f0;
     wm_used_bytes := 0; wm_available_bytes := 0; wm_total_bytes_sent := 0; wm_total_bytes_received := 0;
     wm_transfer_error_count := 0; wm_uptime_seconds := f0 |}.
Definition sample_server : server := {| sv_cas := stocked; sv_metrics := idle_metrics |}.
Definition one_server_net : peer := fun url range =>
  if String.eqb url (stream_url "http://pc1:8000" scene_digest) then serve io_ok plain_capabilities sample_server scene_digest range
  else RequestFailed "no route".

(** The last three bytes of an interrupted download. *)
Lemma download_from_server_witness :
  download_stream_to_staging one_server_net (sample_env io_ok 0) "http://pc1:8000" scene_digest 2 (Some "sc"%string) empty_cas =
    (stage (staging_path scene_digest "0") "scene" f0 empty_cas, Ok (staging_path scene_digest "0", scene_digest, 3)).
Proof.
  apply (download_from_server one_server_net io_ok plain_capabilities sample_server "http://pc1:8000" scene_digest "scene"
           (sample_env io_ok 0) 2 empty_cas).
  - intros range. unfold one_server_net. rewrite String.eqb_refl. reflexivity.
  - vm_compute. reflexivity.
  - vm_compute. reflexivity.
  - vm_compute. reflexivity.
  - intros op. reflexivity.
  - right. vm_compute. split; reflexivity.
Defined.

Lemma upload_verified_witness :
  exists s' u, upload_asset io_ok "r" f0 (Ok tt) (sha256 "hello") ["hel"%string; "lo"%string] None sample_server = (s', Ok u) /\
    up_status u = "stored"%string /\ object (sha256 "hello") (sv_cas s') = Some "hello"%string.
Proof.
  destruct (upload_asset io_ok "r" f0 (Ok tt) (sha256 "hello") ["hel"%string; "lo"%string] None sample_server) as [s' x] eqn:E.
  assert (match snd (upload_asset io_ok "r" f0 (Ok tt) (sha256 "hello") ["hel"%string; "lo"%string] None sample_server) with
          | Ok u => String.eqb (up_status u) "stored" | Err _ => false end = true) as Hu by (vm_compute; reflexivity).
  rewrite E in Hu. cbn [snd] in Hu. destruct x as [u|]; [|discriminate Hu]. apply String.eqb_eq in Hu.
  destruct (upload_verified io_ok "r" f0 (Ok tt) (sha256 "hello") ["hel"%string; "lo"%string] None sample_server s' (Ok u)
              (fun norm _ => eq_refl) E) as (_ & _ & (_ & Hv & Hcase) & _).
  exists s', u. split_and!; [reflexivity|exact Hu|].
  assert (up_sha256 u = sha256 "hello") as Hsha by (vm_compute in Hv; injection Hv as Hv; symmetry; exact Hv).
  destruct Hcase as [(H & _)|(_ & _ & _ & Hobj)]; [rewrite H in Hu; discriminate Hu|].
  rewrite <- Hsha. exact (Hobj (fun _ => eq_refl)).
Defined.

Lemma lost_submit_witness :
  let w2 := (route_submit true (Ok tt) "a1" remote_spec f0 (new_worker empty_cas)).1 in
  let w3 := ledger_run "pc1" w2 [Start "a1" f0; Finish "a1" (TO_raised "boom") f1] in
  exists r, record_at "a1" w3 = Some r /\
    submit (fun _ => "") (NO_REPLY "timeout") (as_http 200 (route_get true "a1" w3))
    = (Polling.Polling (xr_state r) (xr_result r), [SUBMIT; RESOLVE]).
Proof.
  exact (lost_submit_resolved "pc1" empty_cas [] "a1" remote_spec f0 [Start "a1" f0; Finish "a1" (TO_raised "boom") f1] "timeout"
           (fun _ => "") eq_refl).
Defined.

(** The commit is refused by the file system; the answer is [stored] all the same. *)
Definition no_rename : io := {| io_fails := fun op => match op with IO_REPLACE => true | _ => false end; io_partial := fun s => s |}.
Example stored_but_absent :
  let '(s', r) := upload_asset no_rename "r" f0 (Ok tt) (sha256 "hello") ["hello"%string] None sample_server in
  r = Ok {| up_status := "stored"; up_sha256 := sha256 "hello"; up_size_bytes := 5 |} /\
  object (sha256 "hello") (sv_cas s') = None.
Proof. vm_compute. split; reflexivity. Qed.

(** With the mode unset a worker that has a secret asks nobody for it, although
    the coordinator counts an unset mode as secure. *)
Example unset_mode_is_open :
  verify_control_plane_auth [] (Some "s3cret"%string) None = Ok tt /\ is_insecure_mode_enabled [] = false /\
  verify_control_plane_auth [("AIDAR_INSECURE_MODE"%string, "0"%string)] (Some "s3cret"%string) None
  = unauthorized "Missing or invalid worker control-plane credential".
Proof. vm_compute. split_and!; reflexivity. Qed.

(** A response dropped before its body is begun is counted as active for ever. *)
Example unstarted_stream_leaks :
  match stream_asset io_ok plain_capabilities scene_digest None sample_server with
  | (s, Ok r) => (wm_active_transfers (sv_metrics (close_stream true 5 r s)), wm_active_transfers (sv_metrics (close_stream false 0 r s)))
  | _ => (0, 0)
  end = (0, 1).
Proof. vm_compute. reflexivity. Qed.

(** A prefix that is already the whole object cannot be resumed: the server
    refuses the empty rest. *)
Example complete_prefix_refused :
  match serve io_ok plain_capabilities sample_server scene_digest (Some (range_from 5)) with
  | Reply r => Transfer.rp_status r
  | RequestFailed _ => 0
  end = 416.
Proof. vm_compute. reflexivity. Qed.
