(* ===== verification/IntelligenceProps.v ===== *)
(** * Properties of the history and the distributed intelligence

    What a valid observation vouches for; a replayed event counts once, a restart depends on the records alone, and
    the anomalies are those the reference definition [judged] finds. *)
From S2P Require Export History Intelligence.

(** ** What a valid observation vouches for *)

Lemma error_if_nil b msg : error_if b msg = [] <-> b = false.
Proof. by destruct b. Qed.

Section observations.
Context (now : float) (workloads : odict workload_record) (attempts : list attempt_record).

#[local] Abbreviation errors a := (errors_of now attempts (od_get (at_workload_id a) workloads) a).
#[local] Abbreviation observe := (observe now workloads attempts).

(** The time stamps on record, in the order of the life cycle. *)
Definition times (a : attempt_record) : list float := at_queued_at a :: omap (fun t => t) [at_assigned_at a; at_started_at a; at_finished_at a].

(** What holds of an attempt whose observation has no error. *)
Record sound_record (a : attempt_record) (w : workload_record) : Prop := {
  sr_number : 1 <= at_attempt_number a;
  sr_id : at_attempt_id a = make_attempt_id (at_workload_id a) (at_attempt_number a);
  sr_unique : (id_count attempts (at_attempt_id a) <= 1)%nat;
  sr_workload : od_get (at_workload_id a) workloads = Some w;
  sr_task_type : str_truthy (strip (ws_task_type (wr_spec w))) = true;
  sr_submitted : valid_time now (wr_submitted_at w) = true;
  sr_times : Forall (fun t => valid_time now t = true) (times a);
  sr_order : Sorted (fun s t => flt t s = false) (times a);
}.

Lemma timeline_step_nil label v s errs prev :
  timeline_step now label v (errs, prev) = s -> fst s = [] ->
  errs = [] /\ match v with Some t => valid_time now t = true /\ flt t prev = false /\ snd s = t | None => snd s = prev end.
Proof.
  unfold timeline_step. intros <-. destruct v as [t|]; [|done].
  destruct (valid_time now t) eqn:E1; simpl; [|intros H; by destruct errs].
  destruct (flt t prev) eqn:E2; simpl; [intros H; by destruct errs|done].
Qed.

Lemma timeline_sound a :
  valid_time now (at_queued_at a) = true -> timeline_errors now a = [] ->
  Forall (fun t => valid_time now t = true) (times a) /\ Sorted (fun s t => flt t s = false) (times a).
Proof.
  intros Hq. unfold timeline_errors. rewrite Hq.
  destruct (timeline_step now "ASSIGNED" (at_assigned_at a) ([], at_queued_at a)) as [e1 p1] eqn:E1.
  destruct (timeline_step now "STARTED" (at_started_at a) (e1, p1)) as [e2 p2] eqn:E2.
  destruct (timeline_step now "FINISHED" (at_finished_at a) (e2, p2)) as [e3 p3] eqn:E3. simpl. intros ->.
  apply timeline_step_nil in E3 as [-> H3]; [|done]. apply timeline_step_nil in E2 as [-> H2]; [|done].
  apply timeline_step_nil in E1 as [_ H1]; [|done]. simpl in *. unfold times.
  destruct (at_assigned_at a) as [t1|]; [destruct H1 as (V1 & L1 & ->)|subst p1];
  (destruct (at_started_at a) as [t2|]; [destruct H2 as (V2 & L2 & ->)|subst p2]);
  (destruct (at_finished_at a) as [t3|]; [destruct H3 as (V3 & L3 & _)|]); simpl;
  (split; [by repeat constructor|]); repeat constructor; done.
Qed.

Lemma no_errors_sound a : errors a = [] -> exists w, sound_record a w.
Proof.
  unfold errors_of, identity_errors, workload_errors. rewrite !app_nil. intros (H1 & H2 & H3 & _).
  destruct H1 as (_ & _ & Hn & Hd). destruct H2 as (Hw & Hq & Hs).
  rewrite error_if_nil in Hd, Hq. apply negb_false_iff in Hq.
  destruct (at_attempt_number a <? 1) eqn:En; [done|]. rewrite error_if_nil in Hn. apply negb_false_iff, String.eqb_eq in Hn.
  destruct (od_get (at_workload_id a) workloads) as [w|] eqn:Ew; [|done].
  rewrite error_if_nil in Hw, Hs. apply negb_false_iff in Hw, Hs.
  destruct (timeline_sound a Hq H3) as [Ht Ho]. exists w. split; try done; [lia|].
  unfold duplicate_ids in Hd. apply bool_decide_eq_false in Hd. lia.
Qed.

Lemma observe_quality a :
  ob_data_quality (observe a) = if bool_decide (errors a = []) then snd (fst (outcome_of a)) else DQ_INVALID.
Proof. unfold observe. by destruct (outcome_of a) as [[]]. Qed.

Lemma observe_outcome a : ob_outcome (observe a) = fst (fst (outcome_of a)).
Proof. unfold observe. by destruct (outcome_of a) as [[]]. Qed.

Lemma outcome_quality a :
  snd (fst (outcome_of a)) = if bool_decide (fst (fst (outcome_of a)) ∈ [OUT_SUCCESS; OUT_FAILURE]) then DQ_VALID else DQ_CENSORED.
Proof.
  unfold outcome_of. destruct (at_status a); try done. destruct (at_execution_result a) as [r|]; [|done].
  destruct (negb (er_success r)); [done|]. by destruct (_ || _).
Qed.

(** An error-free success has a result of its own worker that took time. *)
Lemma success_sound a :
  errors a = [] -> fst (fst (outcome_of a)) = OUT_SUCCESS ->
  at_status a = SUCCEEDED
  /\ exists r d, at_execution_result a = Some r /\ er_success r = true /\ er_was_checkpointed r = false
       /\ er_workload_id r = at_workload_id a /\ (forall w, at_worker_id a = Some w -> str_truthy w = true -> er_worker_id r = w)
       /\ duration_of a = Some d /\ f_isfinite d = true /\ fle d f0 = false.
Proof.
  unfold errors_of. rewrite !app_nil. intros (_ & _ & _ & _ & Hr & Ho) Hs. unfold outcome_of in Hs, Ho.
  destruct (at_status a); try done. destruct (at_execution_result a) as [r|] eqn:Er; [|done].
  destruct (er_success r) eqn:Esu; [|done]. simpl in Hs, Ho. destruct (er_was_checkpointed r) eqn:Eck; [done|].
  destruct (opt_truthy (at_checkpoint_hash a)); [done|]. simpl in Ho. rewrite error_if_nil in Ho.
  unfold result_errors in Hr. rewrite Er, !app_nil in Hr. destruct Hr as (_ & Hw & Hwk). rewrite error_if_nil in Hw.
  apply negb_false_iff, String.eqb_eq in Hw. split; [done|].
  unfold duration_of in *. rewrite Er in *. destruct (bad_duration r) eqn:Eb; [done|].
  exists r, (er_execution_duration_seconds r). split_and!; try done.
  - intros w Hwid Ht. rewrite Hwid, error_if_nil, Ht in Hwk. by apply negb_false_iff, String.eqb_eq in Hwk.
  - unfold bad_duration in Eb. apply orb_false_iff in Eb as [Eb _]. by apply negb_false_iff in Eb.
Qed.
End observations.

(** ** Counting *)

Lemma quality_partition l :
  Forall (fun o => ob_data_quality o ∈ [DQ_VALID; DQ_INVALID; DQ_CENSORED]) l ->
  quality_count DQ_VALID l + quality_count DQ_INVALID l + quality_count DQ_CENSORED l = Z.of_nat (length l).
Proof.
  unfold quality_count. induction 1 as [|o l Ho _ IH]; [done|]. rewrite !filter_cons. cbn [length].
  rewrite !elem_of_cons in Ho. destruct Ho as [H|[H|[H|H]]]; [..|by apply not_elem_of_nil in H]; rewrite H; simpl; lia.
Qed.

Lemma id_count_cons a l aid : id_count (a :: l) aid = ((if decide (at_attempt_id a = aid) then 1 else 0) + id_count l aid)%nat.
Proof. unfold id_count. rewrite filter_cons. by destruct (decide (at_attempt_id a = aid)). Qed.

Lemma id_count_nil aid : id_count [] aid = 0%nat.
Proof. done. Qed.

Lemma id_count_pos l aid : (0 < id_count l aid)%nat <-> aid ∈ map at_attempt_id l.
Proof.
  induction l as [|a l IH]; [rewrite id_count_nil; split; [lia|intros H; by apply not_elem_of_nil in H]|].
  rewrite id_count_cons. cbn [map]. rewrite elem_of_cons, <- IH. destruct (decide (at_attempt_id a = aid)); split; intros H; auto; try lia.
  destruct H as [H|H]; [congruence|lia].
Qed.

Lemma id_count_nodup l : NoDup (map at_attempt_id l) <-> forall aid, (id_count l aid <= 1)%nat.
Proof.
  induction l as [|a l IH]; [split; [intros _ aid; rewrite id_count_nil; lia|intros _; constructor]|].
  cbn [map]. rewrite NoDup_cons, IH. pose proof (id_count_pos l (at_attempt_id a)) as Hp. split.
  - intros [Hn Hl] aid. rewrite id_count_cons. destruct (decide (at_attempt_id a = aid)) as [<-|]; [|apply Hl].
    assert (~ (0 < id_count l (at_attempt_id a))%nat) by tauto. lia.
  - intros H. split.
    + intros Hin%Hp. specialize (H (at_attempt_id a)). rewrite id_count_cons, decide_True in H by done. lia.
    + intros aid. specialize (H aid). rewrite id_count_cons in H. lia.
Qed.

Lemma duplicate_total_spec l : 0 <= duplicate_total l /\ (duplicate_total l = 0 <-> NoDup (map at_attempt_id l)).
Proof.
  unfold duplicate_total. set (f := fun aid => Z.of_nat (id_count l aid) - 1).
  set (dups := filter _ _).
  assert (forall aid, aid ∈ dups -> 1 <= f aid) as Hf.
  { intros aid [H _]%list_elem_of_filter. unfold f. lia. }
  assert (0 <= sumZ (map f dups)) as Hnn.
  { apply sumZ_nonneg. intros x (aid & -> & H%Hf)%list_elem_of_fmap. lia. }
  split; [exact Hnn|]. rewrite id_count_nodup.
  assert (dups = [] <-> forall aid, (id_count l aid <= 1)%nat) as Hd.
  { split.
    - intros H aid. destruct (decide (1 < id_count l aid)%nat) as [Hgt|]; [|lia]. exfalso.
      eapply not_elem_of_nil. rewrite <- H. apply list_elem_of_filter. split; [exact Hgt|].
      apply elem_of_elements, elem_of_list_to_set, id_count_pos. lia.
    - intros H. apply elem_of_nil_inv. intros aid [Hgt _]%list_elem_of_filter. specialize (H aid). lia. }
  rewrite <- Hd. split; [|by intros ->]. intros Hs. destruct dups as [|aid dups'] eqn:E; [done|]. exfalso.
  pose proof (Hf aid ltac:(by left)). simpl in Hs.
  assert (0 <= sumZ (map f dups')). { apply sumZ_nonneg. intros x (b & -> & Hb)%list_elem_of_fmap. pose proof (Hf b ltac:(by right)). lia. }
  lia.
Qed.

(** The projection observes every attempt on record once; what it calls
    valid is an error-free success or failure of an attempt with a unique
    identifier, a known workload and time stamps that lie in the past and in
    the order of the life cycle; a valid success ran on its own worker for a
    positive time and was not a checkpoint; what it calls censored is an
    error-free attempt without such an outcome; the counts add up, and no
    duplicates are counted exactly when the identifiers are distinct. *)
Theorem projection_vouches now workloads attempts :
  let p := project now workloads attempts in
  let ix := index_workloads workloads in
  (exists l, Permutation l attempts /\ pj_observations p = map (observe now ix attempts) l)
  /\ pj_valid_count p + pj_invalid_count p + pj_censored_count p = Z.of_nat (length attempts)
  /\ (forall a, let o := observe now ix attempts a in
        (ob_data_quality o = DQ_INVALID <-> errors_of now attempts (od_get (at_workload_id a) ix) a <> [])
        /\ (ob_data_quality o = DQ_VALID \/ ob_data_quality o = DQ_CENSORED -> exists w, sound_record now ix attempts a w)
        /\ (ob_data_quality o = DQ_VALID -> ob_outcome o = OUT_SUCCESS \/ ob_outcome o = OUT_FAILURE)
        /\ (ob_data_quality o = DQ_CENSORED -> ob_outcome o <> OUT_SUCCESS /\ ob_outcome o <> OUT_FAILURE)
        /\ (ob_data_quality o = DQ_VALID -> ob_outcome o = OUT_SUCCESS ->
              exists r d, at_execution_result a = Some r /\ er_success r = true /\ er_was_checkpointed r = false
                /\ er_workload_id r = at_workload_id a /\ (forall w, at_worker_id a = Some w -> str_truthy w = true -> er_worker_id r = w)
                /\ ob_duration_seconds o = Some d /\ f_isfinite d = true /\ fle d f0 = false))
  /\ 0 <= pj_duplicate_count p /\ (pj_duplicate_count p = 0 <-> NoDup (map at_attempt_id attempts)).
Proof.
  cbv zeta. split; [exists (sort_attempts now attempts); split; [apply isort_perm|done]|].
  assert (forall a, let o := observe now (index_workloads workloads) attempts a in
            ob_data_quality o ∈ [DQ_VALID; DQ_INVALID; DQ_CENSORED]) as Hq.
  { intros a. cbv zeta. rewrite observe_quality, outcome_quality. case_bool_decide; [|set_solver]. case_bool_decide; set_solver. }
  split; [|split; [|apply duplicate_total_spec]].
  - unfold project, sort_attempts. simpl. rewrite quality_partition; [by rewrite length_map, isort_length|].
    apply Forall_forall. intros o (a & -> & _)%list_elem_of_fmap. apply Hq.
  - intros a. set (errs := errors_of _ _ _ a). rewrite observe_quality, observe_outcome, outcome_quality. fold errs.
    destruct (bool_decide (errs = [])) eqn:E.
    + apply bool_decide_eq_true in E. pose proof (no_errors_sound now _ _ a E) as Hs.
      assert (ob_duration_seconds (observe now (index_workloads workloads) attempts a) = duration_of a) as Hd
        by (unfold observe; by destruct (outcome_of a) as [[]]).
      destruct (fst (fst (outcome_of a))) eqn:Eo; simpl; split_and!; try done; try (intros; by eauto).
      intros _ _. destruct (success_sound now _ attempts a E Eo) as (_ & r & d & H). exists r, d. by rewrite Hd.
    + apply bool_decide_eq_false in E. split_and!; try done; intros H; by destruct H.
Qed.

(** ** The attempts a registry keeps *)

Lemma make_attempt_id_truthy w n : str_truthy (make_attempt_id w n) = true.
Proof. unfold make_attempt_id. by destruct w. Qed.

(** No history of calls on the attempt registry can make the projection
    doubt the identity of an attempt: numbers, identifiers and their uniqueness
    hold for everything the registry lists. *)
Theorem registry_attempts_identified {S} `{RecordStore S attempt_record} (reg : attempts S) (h : list (float * acall)) a :
  attempts_wf reg -> let l := list_attempts (arun h reg) in a ∈ l ->
  identity_errors l a = error_if (negb (str_truthy (at_workload_id a))) "MISSING_WORKLOAD_ID".
Proof.
  intros Hwf0. cbv zeta. pose proof (arun_wf h reg Hwf0) as Hwf. set (reg' := arun h reg) in *. unfold list_attempts. intros Ha.
  pose proof (attempts_values_ids reg' Hwf) as Hids. destruct Hwf as (Hod & _ & _ & Hnum).
  apply od_values_elem in Ha as [k Hk]; [|done]. destruct (Hnum k a Hk) as [Hn Hkey].
  assert (at_attempt_id a = k) as Hid.
  { apply (attempts_wf_get_id reg'); [by apply arun_wf|done]. }
  unfold identity_errors. rewrite Hid, Hkey. rewrite (proj2 (Z.ltb_ge _ _)) by lia. rewrite String.eqb_refl, make_attempt_id_truthy. simpl.
  replace (duplicate_ids _ _) with false; [by rewrite app_nil_r|].
  symmetry. apply bool_decide_eq_false. enough (id_count (od_values (ar_attempts reg')) (make_attempt_id (at_workload_id a) (at_attempt_number a)) <= 1)%nat by lia.
  apply id_count_nodup. by rewrite Hids.
Qed.

Lemma registry_attempts_identified_witness :
  let reg := arun (S := mem_store attempt_record) [(f1, ACreate "w" None None None); (f1, ACreate "w" None None None)] (empty_attempts None) in
  exists a, a ∈ list_attempts reg /\ at_attempt_id a = "w#2"%string /\ identity_errors (list_attempts reg) a = [].
Proof.
  cbv zeta. set (reg := arun _ _). set (a := new_attempt f1 "w" 2 None None None). exists a.
  assert (a ∈ list_attempts reg) as Ha by (right; left).
  split_and!; [done|done|].
  exact (registry_attempts_identified (S := mem_store attempt_record) (empty_attempts None)
    [(f1, ACreate "w" None None None); (f1, ACreate "w" None None None)] a (attempts_wf_empty None) Ha).
Defined.

(** A clock that was set back between the start and the end of an attempt turns
    its success into an invalid observation, which is not counted. *)
Example clock_set_back :
  let result := {| er_workload_id := "w"; er_worker_id := "n1"; er_success := true; er_output_asset_hashes := ∅; er_output_asset_sizes := [];
    er_execution_duration_seconds := f1; er_error_message := None; er_was_checkpointed := false; er_checkpoint_hash := None;
    er_failure_category := None; er_checkpoint_runtime_type := None; er_checkpoint_format_version := None; er_staging_duration_seconds := f0;
    er_output_ingestion_duration_seconds := f0; er_verification_duration_seconds := f0; er_transfer_duration_seconds := f0; er_stdout_snippet := None; er_stderr_snippet := None |} in
  let attempts finished := list_attempts (arun (S := mem_store attempt_record)
    [(f_of_Z 10, ACreate "w" None None None); (f_of_Z 11, AAssigned "w#1" "n1"); (f_of_Z 12, ARunning "w#1");
     (f_of_Z finished, ASucceeded "w#1" result)] (empty_attempts None)) in
  let quality finished := map (fun o => (ob_data_quality o, ob_validation_errors o))
    (pj_observations (project (f_of_Z 100) [new_workload_record (f_of_Z 9) (plain_spec "w" "BLENDER" [])] (attempts finished))) in
  quality 20 = [(DQ_VALID, [])] /\ quality 11 = [(DQ_INVALID, ["TIMESTAMP_ORDER_INVALID"%string])].
Proof. split; vm_compute; reflexivity. Qed.

(** ** The memory *)

Lemma reset_ingest now ty du ram fl ev m : reset_workload_history (ingest_workload_result now ty du ram fl ev m) = reset_workload_history m.
Proof. unfold ingest_workload_result. by repeat case_match. Qed.

Lemma reset_replay now o m : reset_workload_history (_replay_one now o m) = reset_workload_history m.
Proof. unfold _replay_one. destruct (countable o); [apply reset_ingest|done]. Qed.

Lemma reset_replay_all now l m :
  reset_workload_history (fold_left (fun m o => _replay_one now o m) l m) = reset_workload_history m.
Proof. revert m. induction l as [|o l IH]; intros m; simpl; [done|]. by rewrite IH, reset_replay. Qed.

Lemma reset_idem m : reset_workload_history (reset_workload_history m) = reset_workload_history m.
Proof. done. Qed.

Lemma reset_workers m m' : reset_workload_history m = reset_workload_history m' <-> tm_workers m = tm_workers m'.
Proof. unfold reset_workload_history. split; [by intros [=]|by intros ->]. Qed.

(** The identifiers counted. *)
Definition counted (l : list observation) : gset string := list_to_set (omap ob_attempt_id (filter (fun o => countable o = true) l)).

Lemma ingest_events now ty du ram fl ev m :
  tm_event_ids (ingest_workload_result now ty du ram fl ev m)
  = match ev with Some e => {[e]} ∪ tm_event_ids m | None => tm_event_ids m end.
Proof.
  unfold ingest_workload_result. destruct ev as [e|]; simpl; [|done].
  case_bool_decide; simpl; [|done]. set_solver.
Qed.

Lemma replay_all_events now l m :
  tm_event_ids (fold_left (fun m o => _replay_one now o m) l m) = counted l ∪ tm_event_ids m.
Proof.
  unfold counted. revert m. induction l as [|o l IH]; intros m; simpl; [set_solver|]. rewrite IH.
  unfold _replay_one at 1. rewrite filter_cons. destruct (countable o); simpl; [|set_solver].
  rewrite ingest_events. simpl. destruct (ob_attempt_id o); simpl; set_solver.
Qed.

Lemma counted_perm l l' : Permutation l l' -> counted l = counted l'.
Proof. intros H. unfold counted. apply leibniz_equiv. by rewrite H. Qed.

(** ** Anomalies *)

(** What the rows seen before say of a task type. *)
Definition sample (o : observation) : option (option float) :=
  if is_valid o && failure o then Some None
  else if is_valid o && success o then option_map Some (nonzero (ob_duration_seconds o)) else None.

Definition past (key : string) (l : list observation) : list (option float) :=
  omap sample (filter (fun o => text_or "" (ob_task_type o) = key) l).

(** What one row is, given the rows before it. *)
Definition judged (now : float) (before : list observation) (o : observation) : option anomaly_record :=
  let hist := past (text_or "" (ob_task_type o)) before in
  match sample o with
  | None => None
  | Some None =>
      if (10 <=? Z.of_nat (length hist)) && forallb (fun d => bool_decide (is_Some d)) hist
      then Some (_anomaly RARE_FAILURE now o f1 f0 (Z.of_nat (length hist)) f1) else None
  | Some (Some d) =>
      let known := omap (fun x => x) hist in
      let ratio := duration_ratio (median known) d in
      if (5 <=? Z.of_nat (length known)) && (fge ratio (flit 15 1) || fle ratio (flit 5 1))
      then Some (_anomaly DURATION_DEVIATION now o d (median known) (Z.of_nat (length known)) (fmin f1 (fabs (fsub ratio f1)))) else None
  end.

Fixpoint judged_all (now : float) (before rows : list observation) : list anomaly_record :=
  match rows with
  | [] => []
  | o :: rows => match judged now before o with Some a => [a] | None => [] end ++ judged_all now (before ++ [o]) rows
  end.

Definition agrees (h : task_history) (before : list observation) : Prop := forall key, od_get_default key [] h = past key before.

Lemma past_snoc key l o :
  past key (l ++ [o]) = past key l ++ (if decide (text_or "" (ob_task_type o) = key) then match sample o with Some s => [s] | None => [] end else []).
Proof.
  unfold past. rewrite filter_app, omap_app, filter_cons, filter_nil. destruct (decide _); simpl; [|done]. by destruct (sample o).
Qed.

Lemma agrees_set h before o s :
  agrees h before -> sample o = Some s ->
  agrees (od_set (text_or "" (ob_task_type o)) (past (text_or "" (ob_task_type o)) before ++ [s]) h) (before ++ [o]).
Proof.
  intros Ha Hs key. rewrite past_snoc, Hs. unfold od_get_default.
  destruct (decide (text_or "" (ob_task_type o) = key)) as [<-|Hne]; [by rewrite od_get_set_eq|].
  rewrite od_get_set_ne, app_nil_r by done. apply Ha.
Qed.

Lemma agrees_skip h before o : agrees h before -> sample o = None -> agrees h (before ++ [o]).
Proof. intros Ha Hs key. rewrite past_snoc, Hs, Ha. by destruct (decide _); rewrite app_nil_r. Qed.

Lemma anomaly_step_judged now o h before :
  agrees h before ->
  agrees (fst (anomaly_step now o h)) (before ++ [o])
  /\ snd (anomaly_step now o h) = match judged now before o with Some a => [a] | None => [] end.
Proof.
  intros Ha. unfold anomaly_step, judged. rewrite (Ha _).
  pose proof (agrees_set h before o) as Hset. pose proof (agrees_skip h before o Ha) as Hskip.
  assert (success o = true -> failure o = false) as Hsf.
  { unfold success, failure. intros H%bool_decide_eq_true. apply bool_decide_eq_false. by rewrite H. }
  unfold sample in *. destruct (is_valid o); simpl in *; [|split; [by apply Hskip|done]].
  destruct (success o); simpl in *; [rewrite Hsf in * by done; simpl in *|].
  - destruct (nonzero (ob_duration_seconds o)) as [d|]; simpl in *; [|split; [by apply Hskip|done]].
    split; [by apply Hset|]. unfold ANOMALY_BASELINE. by destruct (_ && _).
  - destruct (failure o); simpl in *; [|split; [by apply Hskip|done]]. split; [by apply Hset|].
    replace (bool_decide (10 <= length (past (text_or "" (ob_task_type o)) before))%nat)
      with (10 <=? Z.of_nat (length (past (text_or "" (ob_task_type o)) before))).
    { by destruct (_ && _). }
    apply eq_true_iff_eq. rewrite Z.leb_le, bool_decide_eq_true. lia.
Qed.

Lemma anomaly_loop_judged now rows h before : agrees h before -> anomaly_loop now rows h = judged_all now before rows.
Proof.
  revert h before. induction rows as [|o rows IH]; intros h before Ha; simpl; [done|].
  destruct (anomaly_step now o h) as [h' found] eqn:E. pose proof (anomaly_step_judged now o h before Ha) as [Hb Hf].
  rewrite E in Hb, Hf. simpl in *. by rewrite Hf, (IH h' _ Hb).
Qed.

Lemma judged_all_elem now a rows before :
  a ∈ judged_all now before rows <-> exists pre o post, rows = pre ++ o :: post /\ judged now (before ++ pre) o = Some a.
Proof.
  revert before. induction rows as [|o rows IH]; intros before; simpl.
  - split; [intros H; by apply not_elem_of_nil in H|intros (pre & o & post & H & _); by destruct pre].
  - rewrite elem_of_app, IH. split.
    + intros [H|(pre & o' & post & -> & H)].
      * exists [], o, rows. rewrite app_nil_r. destruct (judged now before o); [|by apply not_elem_of_nil in H].
        by apply list_elem_of_singleton in H as ->.
      * exists (o :: pre), o', post. split; [done|]. by rewrite <- app_assoc in H.
    + intros (pre & o' & post & Heq & H). destruct pre as [|x pre]; simplify_list_eq.
      * left. rewrite ?app_nil_r in H. rewrite H. by left.
      * right. exists pre, o', post. by rewrite <- app_assoc.
Qed.

Lemma clamp01_range x : fle f0 (clamp01' x) = true /\ fle (clamp01' x) f1 = true.
Proof.
  unfold clamp01'. assert (notnan (fmin f1 x)) as Hn by (by apply fmin_notnan). split.
  - by apply fmax_ge_l.
  - unfold fmax. destruct (flt f0 (fmin f1 x)) eqn:E; [by apply fmin_le_l|done].
Qed.

(** The two kinds of finding. *)
Lemma judged_sound now before o a :
  judged now before o = Some a ->
  is_valid o = true /\ ano_attempt_id a = ob_attempt_id o /\ ano_workload_id a = ob_workload_id o /\ ano_worker_id a = ob_worker_id o
  /\ fle f0 (ano_score a) = true /\ fle (ano_score a) f1 = true
  /\ let hist := past (text_or "" (ob_task_type o)) before in
     match ano_category a with
     | RARE_FAILURE => failure o = true /\ 10 <= ano_support_count a /\ ano_support_count a = Z.of_nat (length hist) /\ None ∉ hist
     | DURATION_DEVIATION =>
         success o = true /\ 5 <= ano_support_count a /\ ano_support_count a = Z.of_nat (length (omap (fun x => x) hist))
         /\ nonzero (ob_duration_seconds o) = Some (ano_observed_value a) /\ ano_expected_value a = median (omap (fun x => x) hist)
         /\ let ratio := duration_ratio (ano_expected_value a) (ano_observed_value a) in (fge ratio (flit 15 1) || fle ratio (flit 5 1)) = true
     end.
Proof.
  unfold judged. destruct (sample o) as [[d|]|] eqn:Es; [| |done]; unfold sample in Es;
    (destruct (is_valid o) eqn:Ev; [simpl in Es|done]); destruct (_ && _) eqn:E; intros [= <-];
    apply andb_true_iff in E as [E1 E2]; simpl; pose proof (clamp01_range) as Hc.
  - destruct (failure o); [done|]. destruct (success o); [|done].
    destruct (nonzero (ob_duration_seconds o)); simplify_eq/=. split_and!; try done; try apply Hc. by apply Z.leb_le.
  - destruct (failure o); [|destruct (success o); [by destruct (nonzero _)|done]].
    split_and!; try done; try apply Hc; [by apply Z.leb_le|]. intros Hn. rewrite forallb_forall in E2.
    apply list_elem_of_In, E2, bool_decide_eq_true in Hn. by destruct Hn.
Qed.

(** ** The index of observations *)

Definition history_wf (d : intelligence) : Prop :=
  NoDup (map ob_attempt_id (di_observations d))
  /\ forall aid o, od_get aid (di_by_attempt d) = Some o <-> o ∈ di_observations d /\ ob_attempt_id o = Some aid.

Lemma replace_first_ids aid o l : ob_attempt_id o = aid -> map ob_attempt_id (replace_first aid o l) = map ob_attempt_id l.
Proof. intros <-. induction l as [|x l IH]; simpl; [done|]. case_bool_decide as E; simpl; [by rewrite E|by rewrite IH]. Qed.

Lemma replace_first_elem aid o l x :
  ob_attempt_id o = aid -> NoDup (map ob_attempt_id l) -> aid ∈ map ob_attempt_id l ->
  x ∈ replace_first aid o l <-> x = o \/ (x ∈ l /\ ob_attempt_id x <> aid).
Proof.
  intros Ho. induction l as [|y l IH]; simpl; intros Hnd Hin; [by apply not_elem_of_nil in Hin|].
  apply NoDup_cons in Hnd as [Hy Hnd]. case_bool_decide as E.
  - rewrite !elem_of_cons. split.
    + intros [->|Hx]; [by left|]. right. split; [by right|]. intros Hxa. apply Hy. rewrite E, <- Hxa.
      by apply list_elem_of_fmap_2.
    + intros [->|[[->|Hx] Hne]]; [by left|done|by right].
  - apply elem_of_cons in Hin as [->|Hin]; [done|]. rewrite !elem_of_cons, IH by done. split.
    + intros [->|[->|[Hx Hne]]]; [by right; split; [left|]|by left|]. right. by split; [right|].
    + intros [->|[[->|Hx] Hne]]; [by right; left|by left|]. by right; right.
Qed.

Lemma replace_first_twice aid o l : ob_attempt_id o = aid -> replace_first aid o (replace_first aid o l) = replace_first aid o l.
Proof.
  intros Ho. induction l as [|y l IH]; simpl; [done|]. destruct (bool_decide (ob_attempt_id y = aid)) eqn:E; simpl.
  - by rewrite bool_decide_true by done.
  - by rewrite E, IH.
Qed.

Lemma observe_id now ix l a : ob_attempt_id (observe now ix l a) = or_none (at_attempt_id a).
Proof. unfold observe. by destruct (outcome_of a) as [[]]. Qed.

Lemma or_none_truthy s t : or_none s = Some t -> s = t /\ str_truthy t = true.
Proof. unfold or_none. destruct (str_truthy s) eqn:E; [|done]. by intros [= <-]. Qed.

#[export] Instance or_none_inj : Inj (=) (=) or_none.
Proof. intros s t. unfold or_none. destruct s, t; simpl; intros; congruence. Qed.

Lemma by_attempt_spec l aid o (d : odict observation) :
  NoDup (map ob_attempt_id l) -> Forall (fun o => ob_attempt_id o <> Some ""%string) l ->
  od_get aid (fold_left (fun d o => match ob_attempt_id o with Some a => if str_truthy a then od_set a o d else d | None => d end) l d) = Some o
  <-> (o ∈ l /\ ob_attempt_id o = Some aid) \/ ((Some aid ∉ map ob_attempt_id l) /\ od_get aid d = Some o).
Proof.
  revert d. induction l as [|x l IH]; intros d Hnd Hne; simpl.
  - split; [intros H; right; split; [apply not_elem_of_nil|done]|intros [[H _]|[_ H]]; [by apply not_elem_of_nil in H|done]].
  - apply NoDup_cons in Hnd as [Hx Hnd]. apply Forall_cons in Hne as [Hxe Hne]. rewrite IH by done. rewrite (elem_of_cons l o x), not_elem_of_cons.
    assert (od_get aid match ob_attempt_id x with Some a => if str_truthy a then od_set a x d else d | None => d end
            = if decide (ob_attempt_id x = Some aid) then Some x else od_get aid d) as ->.
    { destruct (ob_attempt_id x) as [b|]; [|by rewrite decide_False].
      replace (str_truthy b) with true by (by destruct b). destruct (decide (Some b = Some aid)) as [[= ->]|Hn].
      - by rewrite od_get_set_eq. - rewrite od_get_set_ne; [done|congruence]. }
    destruct (decide (ob_attempt_id x = Some aid)) as [Hxa|Hxa]; split.
    + intros [[H1 H2]|[_ [= <-]]]; [left; auto|by left; split; [left|]].
    + intros [[[->|H1] H2]|[[H1 _] _]]; [right; split; [by rewrite <- Hxa|done]| |congruence].
      left. auto.
    + intros [[H1 H2]|[H1 H2]]; [left; auto|right; auto].
    + intros [[[->|H1] H2]|[[_ H1] H2]]; [done|left; auto|right; auto].
Qed.

Lemma rebuild_wf now ws l d : NoDup (map at_attempt_id l) -> history_wf (rebuild_history now ws l d).
Proof.
  intros Hnd. unfold history_wf, rebuild_history, project, by_attempt, sort_attempts. simpl.
  set (sorted := isort _ l). assert (Permutation sorted l) as Hp by apply isort_perm.
  assert (map ob_attempt_id (map (observe now (index_workloads ws) l) sorted) = map or_none (map at_attempt_id sorted)) as Hids.
  { rewrite !map_map. apply map_ext. intros a. apply observe_id. }
  assert (NoDup (map ob_attempt_id (map (observe now (index_workloads ws) l) sorted))) as Hno.
  { rewrite Hids. apply NoDup_fmap_2; [apply _|]. by rewrite Hp. }
  split; [done|]. intros aid o. rewrite by_attempt_spec; [|done|].
  - split; [intros [H|[_ H]]; done|by left].
  - apply Forall_forall. intros x (a & -> & _)%list_elem_of_fmap. rewrite observe_id. intros H%or_none_truthy. by destruct H.
Qed.

Lemma ids_elem l aid : Some aid ∈ map ob_attempt_id l <-> exists o, o ∈ l /\ ob_attempt_id o = Some aid.
Proof.
  split; [intros (o & Ho & Hin)%list_elem_of_fmap; by exists o|]. intros (o & Hin & Ho). rewrite <- Ho. by apply list_elem_of_fmap_2.
Qed.

(** What an observation of one attempt does, by the state of the index. *)
Lemma observe_attempt_cases now a w l d :
  observe_attempt now a w l d = d
  \/ exists o, ob_attempt_id o = Some (at_attempt_id a)
       /\ let o' := match od_get (at_attempt_id a) (di_by_attempt d) with None => o | Some _ => conflicting o end in
          let observations := match od_get (at_attempt_id a) (di_by_attempt d) with
                              | None => di_observations d ++ [o']
                              | Some _ => replace_first (Some (at_attempt_id a)) o' (di_observations d)
                              end in
          od_get (at_attempt_id a) (di_by_attempt d) <> Some o
          /\ observe_attempt now a w l d =
             {| di_memory := _replay_one now o' (di_memory d); di_observations := observations;
                di_by_attempt := od_set (at_attempt_id a) o' (di_by_attempt d); di_anomalies := _find_anomalies now (in_order observations) |}.
Proof.
  unfold observe_attempt. destruct w as [w|]; [|by left]. destruct (negb _); [by left|].
  destruct (List.find _ _) as [o|] eqn:Ef; [|by left].
  apply List.find_some in Ef as [_ Ho%bool_decide_eq_true].
  destruct (od_get (at_attempt_id a) (di_by_attempt d)) as [p|] eqn:Ep.
  - destruct (bool_decide (p = o)) eqn:E; [by left|]. apply bool_decide_eq_false in E. right. exists o. split_and!; [done|congruence|].
    by rewrite Ho.
  - right. exists o. by split_and!.
Qed.

Lemma observe_attempt_wf now a w l d : history_wf d -> history_wf (observe_attempt now a w l d).
Proof.
  intros [Hnd Hby]. destruct (observe_attempt_cases now a w l d) as [->|(o & Ho & Hne & ->)]; [done|].
  destruct (od_get (at_attempt_id a) (di_by_attempt d)) as [p|] eqn:Ep; split; simpl.
  - by rewrite replace_first_ids.
  - apply Hby in Ep as Hp. intros aid x. rewrite replace_first_elem; [|done|done|apply ids_elem; eauto].
    destruct (decide (aid = at_attempt_id a)) as [->|Hd].
    + rewrite od_get_set_eq. split; [by intros [= <-]; split; [left|]|]. intros [[->|[_ H]] Hx]; [done|congruence].
    + rewrite od_get_set_ne, Hby by done. split; intros [H1 H2]; (split; [|done]).
      * right. split; [done|]. congruence.
      * destruct H1 as [->|[H1 _]]; [|done]. simpl in H2. congruence.
  - rewrite map_app. simpl. apply NoDup_app. split_and!; [done| |apply NoDup_singleton].
    intros x Hx ->%list_elem_of_singleton. rewrite Ho in Hx. apply ids_elem in Hx as (y & Hy & Hid).
    assert (od_get (at_attempt_id a) (di_by_attempt d) = Some y) by (by apply Hby). congruence.
  - intros aid x. rewrite elem_of_app, list_elem_of_singleton. destruct (decide (aid = at_attempt_id a)) as [->|Hd].
    + rewrite od_get_set_eq. split; [by intros [= <-]; split; [right|]|]. intros [[Hx| ->] Hid]; [|done].
      assert (od_get (at_attempt_id a) (di_by_attempt d) = Some x) by (by apply Hby). congruence.
    + rewrite od_get_set_ne, Hby by done. split; [intros [H1 H2]; by split; [left|]|]. intros [[H1| ->] H2]; [done|congruence].
Qed.

Lemma replay_seen now o m aid : ob_attempt_id o = Some aid -> aid ∈ tm_event_ids m -> _replay_one now o m = m.
Proof. intros Ho Hin. unfold _replay_one, ingest_workload_result. destruct (countable o); [|done]. by rewrite Ho, bool_decide_true. Qed.

Lemma replay_conflicting now o m : _replay_one now (conflicting o) m = m.
Proof. done. Qed.

Lemma conflicting_ne o : conflicting o <> o.
Proof.
  intros H. apply (f_equal (fun o => length (ob_validation_errors o))) in H. simpl in H. rewrite length_app in H. simpl in H. lia.
Qed.

(** ** The claims *)

(** A terminal event that is reported again changes nothing: the same
    observation made twice leaves the state of the first, and an attempt that
    has been counted never adds to the learned history again, whatever is
    reported about it and whenever.  What was learned of the workers is never
    touched, and the index keeps holding exactly the observations listed, at
    most one per attempt. *)
Theorem terminal_event_counts_once now a w l d :
  observe_attempt now a w l (observe_attempt now a w l d) = observe_attempt now a w l d
  /\ (at_attempt_id a ∈ tm_event_ids (di_memory d) -> di_memory (observe_attempt now a w l d) = di_memory d)
  /\ tm_event_ids (di_memory (observe_attempt now a w l d)) ⊆ {[at_attempt_id a]} ∪ tm_event_ids (di_memory d)
  /\ tm_workers (di_memory (observe_attempt now a w l d)) = tm_workers (di_memory d)
  /\ (history_wf d -> history_wf (observe_attempt now a w l d)).
Proof.
  split.
  - destruct w as [w|]; [|done]. unfold observe_attempt at 1 3. destruct (negb _) eqn:En; [by unfold observe_attempt; rewrite En|].
    destruct (List.find _ _) as [o|] eqn:Ef; [|by unfold observe_attempt; rewrite En, Ef].
    unfold observe_attempt. rewrite En, Ef. destruct (od_get _ (di_by_attempt d)) as [p|] eqn:Ep; simpl.
    + destruct (bool_decide (p = o)) eqn:E; simpl; [by rewrite Ep, E|].
      rewrite od_get_set_eq. rewrite bool_decide_false by apply conflicting_ne. f_equal; simpl.
      * by apply replace_first_twice.
      * apply od_set_twice.
      * by rewrite replace_first_twice.
    + by rewrite od_get_set_eq, bool_decide_true.
  - destruct (observe_attempt_cases now a w l d) as [Heq|(o & Ho & _ & Heq)]; rewrite Heq; [split_and!; [done|set_solver|done|done]|].
    rewrite <- Heq. split_and!; [| | |apply observe_attempt_wf]; rewrite Heq; simpl.
    + intros Hin. eapply replay_seen; [|done]. by destruct (od_get _ _).
    + unfold _replay_one. destruct (countable _); [|set_solver]. rewrite ingest_events.
      destruct (od_get _ _); simpl; rewrite Ho; set_solver.
    + pose proof (reset_replay now (match od_get (at_attempt_id a) (di_by_attempt d) with Some _ => conflicting o | None => o end) (di_memory d)) as H.
      by apply reset_workers in H.
Qed.

(** After a restart the history is a function of the records and of what
    was learned of the workers, which it leaves alone: whatever the state was,
    and however often the rebuild is repeated.  The events counted are the
    valid successes and failures on record, each attempt is listed once, and the
    anomalies are those of the reference definition: each is about a valid
    observation, measured against the earlier ones of its task type, with
    enough of them and a score between zero and one. *)
Theorem restart_replays_history now ws l d :
  let r := rebuild_history now ws l d in
  (forall d', tm_workers (di_memory d') = tm_workers (di_memory d) -> rebuild_history now ws l d' = r)
  /\ rebuild_history now ws l r = r
  /\ tm_workers (di_memory r) = tm_workers (di_memory d)
  /\ tm_event_ids (di_memory r) = counted (pj_observations (project now ws l))
  /\ (NoDup (map at_attempt_id l) -> history_wf r)
  /\ (forall x, x ∈ di_anomalies r <->
        exists pre o post, in_order (di_observations r) = pre ++ o :: post /\ judged now pre o = Some x)
  /\ (forall pre o x, judged now pre o = Some x -> is_valid o = true /\ ano_attempt_id x = ob_attempt_id o
        /\ fle f0 (ano_score x) = true /\ fle (ano_score x) f1 = true
        /\ match ano_category x with RARE_FAILURE => 10 <= ano_support_count x | DURATION_DEVIATION => 5 <= ano_support_count x end).
Proof.
  cbv zeta. assert (forall d1 d2, tm_workers (di_memory d1) = tm_workers (di_memory d2) ->
    rebuild_history now ws l d1 = rebuild_history now ws l d2) as Hdet.
  { intros d1 d2 H%reset_workers. unfold rebuild_history. by rewrite H. }
  assert (tm_workers (di_memory (rebuild_history now ws l d)) = tm_workers (di_memory d)) as Hw.
  { unfold rebuild_history. simpl. apply reset_workers. by rewrite reset_replay_all. }
  split_and!; [by intros; apply Hdet|by apply Hdet|done| |apply rebuild_wf| |].
  - unfold rebuild_history. simpl. rewrite replay_all_events. simpl. rewrite union_empty_r_L. apply counted_perm, isort_perm.
  - intros x. simpl. unfold _find_anomalies. rewrite (anomaly_loop_judged now _ [] []) by done. by rewrite judged_all_elem.
  - intros pre o x H%judged_sound. destruct H as (Hv & Hid & _ & _ & H1 & H2 & H3). split_and!; try done.
    destruct (ano_category x); by destruct H3 as (_ & H3 & _).
Qed.
