(* ===== verification/MLShards.v ===== *)
(** * Sharding of a training job ([adapters/ml_training], [adapters/pytorch_ddp], [sdk/ml.py])

    Workers get consecutive slices of a dataset in proportion to their
    throughput.  The coordinator writes the bounds of a slice as two ratios
    ([MLTrainingAdapter.plan_shards], [MLLifecycleOrchestrator.partition_workload]
    and the platform adapters share the loop); the worker turns them into indices
    ([sitecustomize_hook.py]).  The sampler of the DDP adapter, the exact integer
    splits of the task-parallel platforms and the SDK's loader are here as well.

    A worker is a [WorkerInfo] or [None]; a shuffle is a function of the seed. *)
From Stdlib Require Import SpecFloat.
From S2P Require Export PyFloat Placement.

Abbreviation ml_worker := (option worker_info).

(** [int(round(x))]; NaN and infinities raise. *)
Definition round_int (x : float) : res Z :=
  match f_round_int x with Some n => Ok n | None => Err (ValueError "cannot convert float to integer") end.

(** [l[a:b]] for [0 <= a]. *)
Definition slice {A} (a b : Z) (l : list A) : list A := take (Z.to_nat (b - a)) (drop (Z.to_nat a) l).

(** ** Shares and ratios *)

Definition profile_of (w : ml_worker) : option worker_resource_profile := i ← w; wi_resource_profile i.

Definition score_of (w : ml_worker) : float :=
  match profile_of w with Some p => compute_worker_throughput_score p | None => f_of_Z 4 end.

(** [[s / total for s in scores]] with [total = sum(scores) or default]. *)
Definition shares_of (dflt : float) (scores : list float) : list float :=
  let total := fsum scores in
  let total := if feq total f0 then dflt else total in
  map (fun s => fdiv s total) scores.

Definition worker_shares (ws : list ml_worker) : list float := shares_of (f_of_Z (Z.of_nat (length ws))) (map score_of ws).

(** The slices: each starts where the one before ends, the last ends at 1. *)
Fixpoint ratios_from (curr : float) (shares : list float) : list (float * float) :=
  match shares with
  | [] => []
  | [_] => [(curr, f1)]
  | share :: rest => let next := f_round (fadd curr share) 4 in (curr, next) :: ratios_from next rest
  end.

Definition ratios (shares : list float) : list (float * float) := ratios_from f0 shares.

(** ** The slice of a worker ([get_shard_range], [shard_dataset]) *)

Definition get_shard_range (total_count : Z) (start_ratio end_ratio : float) : res (Z * Z) :=
  if total_count <=? 0 then Ok (0, 0)
  else
    let! a := round_int (fmul (f_of_Z total_count) start_ratio) in
    let! b := round_int (fmul (f_of_Z total_count) end_ratio) in
    let i_start := Z.max 0 (Z.min total_count a) in
    let i_end := Z.max i_start (Z.min total_count b) in
    Ok (i_start, if i_end =? i_start then Z.min total_count (i_start + 1) else i_end).

Section environment.
(** [float(s)] of a string; [None] where Python raises [ValueError]. *)
Context (parse_float : string -> option float).

Definition env_ratio (name : string) (dflt : float) (environ : odict string) : float :=
  match od_get name environ with
  | None => dflt
  | Some s => default dflt (parse_float s)
  end.

Definition shard_range_of_env (environ : odict string) (total_count : Z) : res (Z * Z) :=
  get_shard_range total_count (env_ratio "AIDAR_SHARD_START_RATIO" f0 environ) (env_ratio "AIDAR_SHARD_END_RATIO" f1 environ).

Definition shard_dataset {A} (environ : odict string) (data : list A) : res (list A) :=
  let total_len := Z.of_nat (length data) in
  if total_len <? 4 then Ok data
  else
    let! r := shard_range_of_env environ total_len in
    Ok (slice (fst r) (snd r) data).

(** [_patched_init]: the indices of the subset, [None] for the whole dataset.
    One unreadable ratio resets both. *)
Definition loader_ratios (environ : odict string) : float * float :=
  let read name dflt := match od_get name environ with None => Some dflt | Some s => parse_float s end in
  match read "AIDAR_SHARD_START_RATIO"%string f0, read "AIDAR_SHARD_END_RATIO"%string f1 with
  | Some a, Some b => (a, b)
  | _, _ => (f0, f1)
  end.

Definition loader_range (environ : odict string) (total_len : Z) : option (Z * Z) :=
  let '(start_ratio, end_ratio) := loader_ratios environ in
  if (fgt start_ratio f0 || flt end_ratio f1) && (4 <=? total_len) then
    match f_round_int (fmul (f_of_Z total_len) start_ratio), f_round_int (fmul (f_of_Z total_len) end_ratio) with
    | Some a, Some b =>
        let i_start := Z.max 0 (Z.min (total_len - 1) a) in
        Some (i_start, Z.max (i_start + 1) (Z.min total_len b))
    | _, _ => None
    end
  else None.
End environment.

(** ** Low memory *)

Definition low_ram_set (environ : odict string) : bool :=
  bool_decide (strip (od_get_default "AIDAR_LOW_RAM_MODE" "0"%string environ) ∈ ["1"; "true"; "yes"]%string).

(** The arguments of [DataLoader] the hook touches: the batch size as a keyword
    or as the first positional argument. *)
Record loader_args := {
  la_kw_batch_size : option (option Z);
  la_pos_batch_size : option (option Z);
  la_pin_memory : option bool;
  la_num_workers : option Z;
}.

Definition halve (b : Z) : Z := Z.max 1 (b / 2).

Definition tune_loader (environ : odict string) (a : loader_args) : loader_args :=
  if low_ram_set environ then
    let '(kw, pos) :=
      match la_kw_batch_size a, la_pos_batch_size a with
      | Some (Some b), pos => (Some (Some (halve b)), pos)
      | kw, Some (Some b) => (kw, Some (Some (halve b)))
      | kw, pos => (kw, pos)
      end in
    {| la_kw_batch_size := kw; la_pos_batch_size := pos; la_pin_memory := Some false; la_num_workers := Some 0 |}
  else a.

(** ** Threads *)

Definition optimal_threads (cpus : Z) : Z := if 8 <=? cpus then Z.max 1 (cpus - 2) else Z.max 1 (cpus - 1).

Definition str_isdigit (s : string) : bool := str_truthy s && str_forallb is_digit s.

Definition THREAD_VARIABLES : list string :=
  ["OMP_NUM_THREADS"; "MKL_NUM_THREADS"; "OPENBLAS_NUM_THREADS"; "NUMEXPR_NUM_THREADS"; "VECLIB_MAXIMUM_THREADS"]%string.

(** [configure_thread_pools]: the number and the environment left behind.
    [cpu_count] is [os.cpu_count()]. *)
Definition configure_thread_pools (cpu_count : option Z) (requested : option Z) (environ : odict string) : Z * odict string :=
  let threads :=
    match requested with
    | Some n => if 0 <? n then Some n else None
    | None => None
    end in
  let n := match threads with
           | Some n => n
           | None =>
               match od_get "AIDAR_OPTIMAL_THREADS" environ with
               | Some v => if str_isdigit v then default 0 (py_int v) else optimal_threads (match cpu_count with Some c => if c =? 0 then 4 else c | None => 4 end)
               | None => optimal_threads (match cpu_count with Some c => if c =? 0 then 4 else c | None => 4 end)
               end
           end in
  (n, fold_left (fun e v => od_set v (str_of_Z n) e) THREAD_VARIABLES environ).

(** ** The lifecycle's partitions ([MLLifecycleOrchestrator]) *)

Record ml_partition := {
  pt_shard_index : Z;
  pt_worker_id : string;
  pt_start_ratio : float;
  pt_end_ratio : float;
  pt_sample_count : Z;
  pt_recovered_from_failure : bool;
}.

Definition worker_name (i : Z) (w : ml_worker) : string :=
  match w with Some w => wi_worker_id w | None => "worker-" +:+ str_of_Z i end.

(** [total_samples or len(workload_data)]; [data_len] is [None] for data
    without a length. *)
Definition sample_total (total_samples data_len : option Z) : Z :=
  match total_samples with
  | Some n => if n =? 0 then default 1000 data_len else n
  | None => default 1000 data_len
  end.

Fixpoint partitions_from (i n_samples : Z) (ws : list ml_worker) (rs : list (float * float)) : res (list ml_partition) :=
  match ws, rs with
  | w :: ws, (a, b) :: rs =>
      let! count := round_int (fmul (fsub b a) (f_of_Z n_samples)) in
      let! rest := partitions_from (i + 1) n_samples ws rs in
      Ok ({| pt_shard_index := i; pt_worker_id := worker_name i w; pt_start_ratio := a; pt_end_ratio := b;
             pt_sample_count := count; pt_recovered_from_failure := false |} :: rest)
  | _, _ => Ok []
  end.

Definition partition_workload (active_workers : list ml_worker) (total_samples data_len : option Z) : res (list ml_partition) :=
  match active_workers with
  | [] =>
      Ok [{| pt_shard_index := 0; pt_worker_id := "local"; pt_start_ratio := f0; pt_end_ratio := f1;
             pt_sample_count := match total_samples with Some n => if n =? 0 then 100 else n | None => 100 end;
             pt_recovered_from_failure := false |}]
  | _ => partitions_from 0 (sample_total total_samples data_len) active_workers (ratios (worker_shares active_workers))
  end.

Definition recover_failed_worker_shard (failed : ml_partition) (healthy : ml_worker) : ml_partition :=
  {| pt_shard_index := pt_shard_index failed;
     pt_worker_id := match healthy with Some w => wi_worker_id w | None => "healthy-fallback" end;
     pt_start_ratio := pt_start_ratio failed; pt_end_ratio := pt_end_ratio failed; pt_sample_count := pt_sample_count failed;
     pt_recovered_from_failure := true |}.

(** ** The sampler of the DDP adapter ([PowerWeightedDistributedSampler]) *)

Record sampler := {
  sm_length : nat;
  sm_rank : nat;
  sm_world_size : nat;
  sm_shares : list float;
  sm_shuffle : bool;
  sm_seed : Z;
  sm_epoch : Z;
}.

Definition sampler_shares (world_size : nat) (throughput_scores : list float) : list float :=
  let scores := map (fmax (flit 1 1)) throughput_scores in
  let scores := scores ++ repeat f1 (world_size - length scores) in
  shares_of (f_of_Z (Z.of_nat world_size)) (take world_size scores).

Definition new_sampler (length rank world_size : nat) (throughput_scores : list float) (shuffle : bool) (seed : Z) : sampler :=
  {| sm_length := length; sm_rank := rank; sm_world_size := world_size; sm_shares := sampler_shares world_size throughput_scores;
     sm_shuffle := shuffle; sm_seed := seed; sm_epoch := 0 |}.

Definition set_epoch (epoch : Z) (s : sampler) : sampler :=
  {| sm_length := sm_length s; sm_rank := sm_rank s; sm_world_size := sm_world_size s; sm_shares := sm_shares s;
     sm_shuffle := sm_shuffle s; sm_seed := sm_seed s; sm_epoch := epoch |}.

(** [int(round(n * sum(shares[:k])))] *)
Definition share_bound (n : nat) (shares : list float) (k : nat) : res Z := round_int (fmul (f_of_Z (Z.of_nat n)) (fsum (take k shares))).

Section sampler.
(** [random.Random(seed).shuffle]. *)
Context (shuffled : Z -> list nat -> list nat).

Definition sampler_range (s : sampler) : res (Z * Z) :=
  let n := Z.of_nat (sm_length s) in
  let! a := share_bound (sm_length s) (sm_shares s) (sm_rank s) in
  let! b := share_bound (sm_length s) (sm_shares s) (sm_rank s + 1) in
  let start_idx := Z.max 0 (Z.min n a) in
  let end_idx := Z.max start_idx (Z.min n b) in
  Ok (start_idx, if (end_idx =? start_idx) && (0 <? n) then Z.min n (start_idx + 1) else end_idx).

Definition sampler_indices (s : sampler) : list nat :=
  if sm_shuffle s then shuffled (sm_seed s + sm_epoch s) (seq 0 (sm_length s)) else seq 0 (sm_length s).

(** [__iter__] *)
Definition sampler_iter (s : sampler) : res (list nat) :=
  let! r := sampler_range s in Ok (slice (fst r) (snd r) (sampler_indices s)).

(** [__len__] *)
Definition sampler_len (s : sampler) : res Z :=
  let! a := share_bound (sm_length s) (sm_shares s) (sm_rank s) in
  let! b := share_bound (sm_length s) (sm_shares s) (sm_rank s + 1) in
  Ok (Z.max (if (0 <? Z.of_nat (sm_length s)) then 1 else 0) (b - a)).
End sampler.

(** ** Splits into equal parts (the task-parallel platforms) *)

(** The seeds of one rank ([ComfyUIAdapter.evaluate_request]). *)
Definition seed_range (batch_count num_workers rank : Z) : Z * Z :=
  let per_worker := batch_count / num_workers in
  let remainder := batch_count mod num_workers in
  let start_idx := rank * per_worker + Z.min rank remainder in
  (start_idx, start_idx + per_worker + (if rank <? remainder then 1 else 0)).

Definition assigned_seeds (base_seed batch_count num_workers rank : Z) : list Z :=
  let '(a, b) := seed_range batch_count num_workers rank in slice a b (map (fun i => base_seed + i) (seqZ 0 batch_count)).

(** The files of one rank ([RVCAdapter], [VoiceboxAdapter]). *)
Definition file_chunk (num_workers n_files : Z) : Z := Z.max 1 ((n_files + num_workers - 1) / num_workers).

Definition assigned_files {A} (num_workers rank : Z) (files : list A) : list A :=
  let n := Z.of_nat (length files) in
  let c := file_chunk num_workers n in
  slice (rank * c) (Z.min n ((rank + 1) * c)) files.

(** ** The loader of the SDK ([AidarSynchronizedDataLoader]) *)

Record sdk_loader (A : Type) := { sl_dataset : list A; sl_batch_size : Z; sl_shuffle : bool; sl_pin_memory : bool; sl_num_workers : Z }.
Arguments sl_dataset {A}. Arguments sl_batch_size {A}. Arguments sl_shuffle {A}. Arguments sl_pin_memory {A}. Arguments sl_num_workers {A}.

Section sdk.
Context {A : Type} (parse_float : string -> option float) (environ : odict string).

Definition new_loader (dataset : list A) (batch_size : Z) (shuffle pin_memory : bool) (num_workers : Z) : res (sdk_loader A) :=
  let! shard := shard_dataset parse_float environ dataset in
  Ok (if low_ram_set environ
      then {| sl_dataset := shard; sl_batch_size := halve batch_size; sl_shuffle := shuffle; sl_pin_memory := false; sl_num_workers := 0 |}
      else {| sl_dataset := shard; sl_batch_size := batch_size; sl_shuffle := shuffle; sl_pin_memory := pin_memory; sl_num_workers := num_workers |}).

(** [for i in range(0, n, b): yield l[i : i + b]], with one turn per element
    as fuel. *)
Fixpoint batches_of (fuel : nat) (b : nat) (l : list A) : list (list A) :=
  match fuel, l with
  | S fuel, _ :: _ => take b l :: batches_of fuel b (drop b l)
  | _, _ => []
  end.

(** [permute] is [np.random.shuffle]. *)
Definition loader_batches (permute : list A -> list A) (s : sdk_loader A) : res (list (list A)) :=
  let rows := if sl_shuffle s then permute (sl_dataset s) else sl_dataset s in
  if sl_batch_size s =? 0 then Err (ValueError "range() arg 3 must not be zero")
  else if sl_batch_size s <? 0 then Ok []
  else Ok (batches_of (length rows) (Z.to_nat (sl_batch_size s)) rows).

Definition loader_len (s : sdk_loader A) : res Z :=
  if sl_batch_size s =? 0 then Err ZeroDivisionError
  else match f_floor (fopp (fdivZ (Z.of_nat (length (sl_dataset s))) (sl_batch_size s))) with
       | Some m => Ok (Z.max 1 (- m))
       | None => Err (ValueError "cannot convert float to integer")
       end.
End sdk.
