(* ===== verification/MLShardsProps.v ===== *)
(** * Every row of a dataset is trained on

    Chains of ratios and of indices, the slices they cut, the rows of the
    sampler, and the exact splits of the task-parallel platforms. *)
From Stdlib Require Import SpecFloat.
From S2P Require Export MLShards.

(** ** Slices of a list *)

Lemma slice_elem {A} (a b : Z) (l : list A) i x :
  0 <= a <= i -> i < b -> l !! Z.to_nat i = Some x -> x ∈ slice a b l.
Proof.
  intros Ha Hb Hi. apply list_elem_of_lookup. exists (Z.to_nat i - Z.to_nat a)%nat. unfold slice.
  rewrite lookup_take_lt by lia. rewrite lookup_drop. rewrite <- Hi. f_equal. lia.
Qed.

Lemma slice_app {A} (a b c : Z) (l : list A) : 0 <= a <= b -> b <= c -> slice a b l ++ slice b c l = slice a c l.
Proof.
  intros Ha Hb. unfold slice. replace (Z.to_nat (c - a)) with (Z.to_nat (b - a) + Z.to_nat (c - b))%nat by lia.
  rewrite <- (take_take_drop (drop (Z.to_nat a) l)). rewrite drop_drop. do 2 f_equal. f_equal. lia.
Qed.

Lemma slice_full {A} (l : list A) : slice 0 (Z.of_nat (length l)) l = l.
Proof. unfold slice. rewrite drop_0. apply take_ge. lia. Qed.

Lemma slice_empty {A} (a : Z) (l : list A) : slice a a l = [].
Proof. unfold slice. by rewrite Z.sub_diag. Qed.

Lemma slice_incl {A} (a b : Z) (l : list A) x : x ∈ slice a b l -> x ∈ l.
Proof. intros (i & Hi)%list_elem_of_lookup. unfold slice in Hi. apply lookup_take_Some in Hi as [Hi _]. rewrite lookup_drop in Hi. by apply list_elem_of_lookup_2 in Hi. Qed.

(** A function of an index that starts at or below [i] and ends above it
    crosses [i] somewhere. *)
Lemma crossing (f : nat -> Z) k i : f 0%nat <= i -> i < f k -> exists j, (j < k)%nat /\ f j <= i < f (S j).
Proof.
  intros H0. induction k as [|k IH]; intros Hk; [lia|].
  destruct (Z.lt_ge_cases i (f k)) as [Hlt|Hge]; [destruct (IH Hlt) as (j & ? & ?); exists j; split; [lia|done]|].
  exists k. split; lia.
Qed.

(** Consecutive slices of a monotone function put together. *)
Lemma slices_concat {A} (f : nat -> Z) (l : list A) k :
  0 <= f 0%nat -> (forall j, (j < k)%nat -> f j <= f (S j)) ->
  concat (map (fun j => slice (f j) (f (S j)) l) (seq 0 k)) = slice (f 0%nat) (f k) l.
Proof.
  intros H0 Hm. assert (forall j, (j <= k)%nat -> f 0%nat <= f j) as Hle.
  { induction j as [|j IH]; [lia|]. intros Hj. etransitivity; [apply IH; lia|]. apply Hm. lia. }
  induction k as [|k IH]; [simpl; by rewrite slice_empty|].
  rewrite seq_S, map_app, concat_app, IH by (intros; apply Hm || apply Hle; lia). simpl. rewrite app_nil_r.
  apply slice_app; [split; [done|apply Hle; lia]|apply Hm; lia].
Qed.

(** ** The chain of ratios *)

Lemma ratios_from_length c shares : length (ratios_from c shares) = length shares.
Proof. revert c. induction shares as [|s [|s' rest] IH]; intros c; simpl in *; [done|done|]. by rewrite IH. Qed.

(** The [j]-th bound: the start of slice [j], and 1 after the last. *)
Definition bound (c : float) (shares : list float) (j : nat) : float :=
  match ratios_from c shares !! j with Some r => fst r | None => f1 end.

Lemma ratios_from_lookup c shares j r :
  ratios_from c shares !! j = Some r -> r = (bound c shares j, bound c shares (S j)).
Proof.
  revert c j. unfold bound. induction shares as [|s [|s' rest] IH]; intros c j; simpl; [done| |].
  - destruct j; simpl; [by intros [= <-]|done].
  - destruct j as [|j]; simpl.
    + intros [= <-]. destruct rest; done.
    + intros H. specialize (IH _ _ H). simpl in IH. by rewrite IH.
Qed.

Lemma ratios_lookup shares j :
  (j < length shares)%nat -> ratios shares !! j = Some (bound f0 shares j, bound f0 shares (S j)).
Proof.
  intros Hj. unfold ratios. destruct (ratios_from f0 shares !! j) as [r|] eqn:Er; [by rewrite (ratios_from_lookup _ _ _ _ Er)|].
  apply lookup_ge_None_1 in Er. rewrite ratios_from_length in Er. lia.
Qed.

Lemma bound_first c shares : shares <> [] -> bound c shares 0 = c.
Proof. unfold bound. destruct shares as [|s [|]]; done. Qed.

Lemma bound_last c shares : bound c shares (length shares) = f1.
Proof. unfold bound. rewrite lookup_ge_None_2; [done|]. by rewrite ratios_from_length. Qed.

(** ** From ratios to indices *)

Definition clamp (n z : Z) : Z := Z.max 0 (Z.min n z).

(** The index a ratio stands for. *)
Definition cut (n : Z) (r : float) : Z := clamp n (default 0 (f_round_int (fmul (f_of_Z n) r))).

Lemma cut_zero n : 0 <= n < 2 ^ 53 -> cut n f0 = 0.
Proof. intros H. unfold cut, clamp. rewrite round_mul_zero by done. simpl. lia. Qed.

Lemma cut_one n : 0 <= n < 2 ^ 53 -> cut n f1 = n.
Proof. intros H. unfold cut, clamp. rewrite round_mul_one by done. simpl. lia. Qed.

Lemma cut_bounds n r : 0 <= n -> 0 <= cut n r <= n.
Proof. unfold cut, clamp. lia. Qed.

Lemma round_int_ok x z : round_int x = Ok z -> f_round_int x = Some z.
Proof. unfold round_int. by destruct (f_round_int x); [intros [= <-]|]. Qed.

Lemma get_shard_range_ok n s e a b :
  0 < n -> get_shard_range n s e = Ok (a, b) ->
  a = cut n s /\ (if cut n e <=? cut n s then b = Z.min n (cut n s + 1) else b = cut n e).
Proof.
  intros Hn. unfold get_shard_range, cut, clamp. rewrite (proj2 (Z.leb_gt n 0)) by lia.
  intros (za & Ha%round_int_ok & H)%res_bind_ok. apply res_bind_ok in H as (zb & Hb%round_int_ok & [= <- <-]).
  rewrite Ha, Hb. simpl. split; [done|].
  destruct (Z.leb_spec (Z.max 0 (Z.min n zb)) (Z.max 0 (Z.min n za))).
  - rewrite (proj2 (Z.eqb_eq _ _)) by lia. done.
  - rewrite (proj2 (Z.eqb_neq _ _)) by lia. lia.
Qed.

(** The rows of slice [j] start at its cut and reach at least the next one. *)
Lemma shard_range_reaches n s e a b :
  0 < n -> get_shard_range n s e = Ok (a, b) -> a = cut n s /\ cut n e <= b /\ a <= b <= n.
Proof.
  intros Hn H. pose proof (cut_bounds n s ltac:(lia)). pose proof (cut_bounds n e ltac:(lia)).
  apply get_shard_range_ok in H as [-> H]; [|done]. destruct (Z.leb_spec (cut n e) (cut n s)); lia.
Qed.

Lemma shard_range_exact n s e a b :
  0 < n -> cut n s < cut n e -> get_shard_range n s e = Ok (a, b) -> a = cut n s /\ b = cut n e.
Proof.
  intros Hn Hlt H. apply get_shard_range_ok in H as [-> H]; [|done]. split; [done|].
  by rewrite (proj2 (Z.leb_gt _ _)) in H.
Qed.

(** All rows lie in the slice of some worker. *)
Lemma shards_cover n shares i :
  shares <> [] -> 0 < n < 2 ^ 53 -> 0 <= i < n ->
  Forall (fun r => is_ok (get_shard_range n (fst r) (snd r)) = true) (ratios shares) ->
  exists j r a b, ratios shares !! j = Some r /\ get_shard_range n (fst r) (snd r) = Ok (a, b) /\ a <= i < b.
Proof.
  intros Hne Hn Hi Hok. destruct (crossing (fun j => cut n (bound f0 shares j)) (length shares) i) as (j & Hj & Hcross).
  { rewrite bound_first, cut_zero by (done || lia). lia. }
  { rewrite bound_last, cut_one by lia. lia. }
  pose proof (ratios_lookup shares j Hj) as Er. rewrite Forall_lookup in Hok. specialize (Hok _ _ Er). simpl in Hok.
  destruct (get_shard_range n (bound f0 shares j) (bound f0 shares (S j))) as [[a b]|] eqn:Eg; [|done].
  eexists j, _, a, b. split_and!; [exact Er|exact Eg|..]; apply shard_range_reaches in Eg; lia.
Qed.

(** Slices whose cuts increase are cut one after the other. *)
Lemma shards_partition {A} (data : list A) shares :
  let n := Z.of_nat (length data) in
  shares <> [] -> 0 < n < 2 ^ 53 ->
  Forall (fun r => is_ok (get_shard_range n (fst r) (snd r)) = true /\ cut n (fst r) < cut n (snd r)) (ratios shares) ->
  concat (map (fun r => match get_shard_range n (fst r) (snd r) with Ok (a, b) => slice a b data | Err _ => [] end) (ratios shares)) = data.
Proof.
  cbv zeta. set (n := Z.of_nat (length data)). intros Hne Hn Hok.
  transitivity (concat (map (fun j => slice (cut n (bound f0 shares j)) (cut n (bound f0 shares (S j))) data) (seq 0 (length shares)))).
  - f_equal. apply list_eq. intros j. rewrite !list_lookup_fmap.
    destruct (decide (j < length shares)%nat) as [Hj|Hj].
    + rewrite lookup_seq_lt, (ratios_lookup shares j Hj) by done. simpl. f_equal. rewrite Forall_lookup in Hok.
      destruct (Hok _ _ (ratios_lookup shares j Hj)) as [Ho Hlt]. simpl in *.
      destruct (get_shard_range n _ _) as [[a b]|] eqn:Eg; [|done].
      apply shard_range_exact in Eg as [-> ->]; [done|lia|done].
    + rewrite !lookup_ge_None_2; [done| |]; [rewrite length_seq; lia|unfold ratios; rewrite ratios_from_length; lia].
  - rewrite (slices_concat (fun j => cut n (bound f0 shares j))); [|apply cut_bounds; lia|].
    + rewrite bound_first, cut_zero, bound_last, cut_one by (done || lia). apply slice_full.
    + intros j Hj. rewrite Forall_lookup in Hok. destruct (Hok _ _ (ratios_lookup shares j Hj)) as [_ Hlt]. simpl in Hlt. lia.
Qed.

(** ** Exact splits *)

Lemma concat_ranks {A} (g : Z -> list A) (f : nat -> Z) (l : list A) (w : nat) :
  0 <= f 0%nat -> (forall j, (j < w)%nat -> f j <= f (S j)) ->
  (forall j, (j < w)%nat -> g (Z.of_nat j) = slice (f j) (f (S j)) l) ->
  concat (map g (seqZ 0 (Z.of_nat w))) = slice (f 0%nat) (f w) l.
Proof.
  intros H0 Hm Hg. rewrite <- slices_concat by done. f_equal. unfold seqZ. rewrite Nat2Z.id, map_map.
  apply list_eq. intros j. rewrite !list_lookup_fmap. destruct (decide (j < w)%nat) as [Hj|Hj].
  - rewrite lookup_seq_lt by done. simpl. f_equal. rewrite Z.add_0_r. by apply Hg.
  - rewrite lookup_ge_None_2; [done|]. rewrite length_seq; lia.
Qed.

Lemma seeds_length base bc : length (map (fun i => base + i) (seqZ 0 bc)) = Z.to_nat bc.
Proof. by rewrite length_map, length_seqZ. Qed.

(** The task-parallel platforms split their work exactly: the seeds of the
    workers, one after the other, are the seeds of the batch, and no worker gets
    over one more than another; the files of the workers, one after the other,
    are the files of the request. *)
Theorem task_split_exact {A} base batch_count (files : list A) (w : nat) :
  (0 < w)%nat -> 0 <= batch_count ->
  concat (map (assigned_seeds base batch_count (Z.of_nat w)) (seqZ 0 (Z.of_nat w))) = map (fun i => base + i) (seqZ 0 batch_count)
  /\ (forall r, 0 <= r < Z.of_nat w ->
        batch_count / Z.of_nat w <= Z.of_nat (length (assigned_seeds base batch_count (Z.of_nat w) r)) <= batch_count / Z.of_nat w + 1)
  /\ concat (map (fun r => assigned_files (Z.of_nat w) r files) (seqZ 0 (Z.of_nat w))) = files.
Proof.
  intros Hw Hbc. set (W := Z.of_nat w). assert (0 < W) as HW by lia.
  pose proof (Z.div_mod batch_count W ltac:(lia)) as Hdm. pose proof (Z.mod_pos_bound batch_count W HW) as Hmod.
  pose proof (Z.div_pos batch_count W Hbc HW) as Hq. set (q := batch_count / W) in *. set (m := batch_count mod W) in *.
  set (f := fun j : nat => Z.of_nat j * q + Z.min (Z.of_nat j) m).
  assert (forall j, (j < w)%nat -> f (S j) = f j + q + (if Z.of_nat j <? m then 1 else 0)) as Hf.
  { intros j _. unfold f. rewrite Nat2Z.inj_succ. destruct (Z.ltb_spec (Z.of_nat j) m); nia. }
  assert (f w = batch_count) as Hfw by (unfold f; fold W; nia).
  assert (forall j, (j < w)%nat -> assigned_seeds base batch_count W (Z.of_nat j) = slice (f j) (f (S j)) (map (fun i => base + i) (seqZ 0 batch_count))) as Hg.
  { intros j Hj. unfold assigned_seeds, seed_range. rewrite Hf by done. done. }
  assert (forall j, (j <= w)%nat -> f j <= batch_count) as Hle.
  { intros j Hj. rewrite <- Hfw. unfold f. nia. }
  split_and!.
  - etransitivity; [apply (concat_ranks _ f (map (fun i => base + i) (seqZ 0 batch_count)) w); [| |exact Hg]|].
    3: { rewrite Hfw. replace (f 0%nat) with 0 by (unfold f; lia).
      set (l := map _ _). transitivity (slice 0 (Z.of_nat (length l)) l); [|apply slice_full]. replace (Z.of_nat (length l)) with batch_count by (unfold l; rewrite seeds_length; lia). done. }
    + unfold f. lia.
    + intros j Hj. rewrite Hf by done. destruct (_ <? _); lia.
  - intros r Hr. replace r with (Z.of_nat (Z.to_nat r)) by lia. rewrite Hg by lia. unfold slice.
    rewrite length_take, length_drop, seeds_length. pose proof (Hle (S (Z.to_nat r)) ltac:(lia)) as H1.
    rewrite (Hf (Z.to_nat r)) in H1 |- * by lia. assert (0 <= f (Z.to_nat r)) by (unfold f; nia). destruct (_ <? _); lia.
  - set (n := Z.of_nat (length files)). set (c := file_chunk W n).
    assert (1 <= c) as Hc by (unfold c, file_chunk; lia).
    assert (n <= W * c) as Hcov.
    { unfold c, file_chunk. pose proof (Z.div_mod (n + W - 1) W ltac:(lia)). pose proof (Z.mod_pos_bound (n + W - 1) W HW). nia. }
    etransitivity; [apply (concat_ranks _ (fun j => Z.min n (Z.of_nat j * c)) files w)|].
    4: { replace (Z.min n (Z.of_nat 0 * c)) with 0 by lia. fold W. replace (Z.min n (W * c)) with n by lia. apply slice_full. }
    + lia.
    + intros j _. rewrite Nat2Z.inj_succ. nia.
    + intros j _. unfold assigned_files. fold n. fold c. rewrite Nat2Z.inj_succ.
      destruct (Z.le_gt_cases (Z.of_nat j * c) n) as [Hl|Hg'].
      * by rewrite (Z.min_r n (Z.of_nat j * c)) by done.
      * rewrite !(Z.min_l n) by nia. rewrite slice_empty. unfold slice.
        by replace (Z.to_nat (n - Z.of_nat j * c)) with 0%nat by lia.
Qed.

(** ** Batches *)

Lemma batches_of_spec {A} fuel b (l : list A) :
  (0 < b)%nat -> (length l <= fuel)%nat ->
  concat (batches_of fuel b l) = l /\ Forall (fun x => (1 <= length x <= b)%nat) (batches_of fuel b l).
Proof.
  intros Hb. revert l. induction fuel as [|fuel IH]; intros [|x l] Hl; simpl; try (by split); simpl in Hl; [lia|].
  destruct (IH (drop b (x :: l))) as [H1 H2]; [rewrite length_drop; simpl; lia|]. destruct b as [|b]; [lia|]. split.
  - rewrite H1. simpl. by rewrite take_drop.
  - constructor; [|done]. rewrite length_take. simpl. lia.
Qed.

(** ** The sampler *)

Section sampler.
Context (shuffled : Z -> list nat -> list nat).
Context (Hshuffled : forall s l, Permutation (shuffled s l) l).

Lemma sampler_indices_perm s : Permutation (sampler_indices shuffled s) (seq 0 (sm_length s)).
Proof. unfold sampler_indices. destruct (sm_shuffle s); [apply Hshuffled|done]. Qed.

Definition sampler_cut (n : nat) (shares : list float) (k : nat) : Z :=
  clamp (Z.of_nat n) (match share_bound n shares k with Ok z => z | Err _ => 0 end).

Lemma sampler_range_spec s a b :
  sampler_range s = Ok (a, b) ->
  let c := sampler_cut (sm_length s) (sm_shares s) in
  a = c (sm_rank s) /\ c (S (sm_rank s)) <= b
  /\ (c (sm_rank s) < c (S (sm_rank s)) -> b = c (S (sm_rank s))).
Proof.
  unfold sampler_range, sampler_cut, clamp. replace (S (sm_rank s)) with (sm_rank s + 1)%nat by lia.
  intros (za & Ha & H)%res_bind_ok. apply res_bind_ok in H as (zb & Hb & [= <- <-]). rewrite Ha, Hb. cbv zeta.
  set (n := Z.of_nat (sm_length s)). assert (0 <= n) by lia. split; [done|].
  destruct (Z.eqb_spec (Z.max (Z.max 0 (Z.min n za)) (Z.min n zb)) (Z.max 0 (Z.min n za))) as [E|E]; simpl; [|lia].
  destruct (Z.ltb_spec 0 n); lia.
Qed.

(** The ranks of a job draw from one shuffled order.  When the last bound
    reaches the number of rows, every row is drawn by some rank; and when each
    rank has a row of its own, the draws of the ranks, one after the other, are
    that order, so every row is drawn by exactly one rank. *)
Theorem sampler_draws_all n w scores shuffle seed epoch :
  let sampler r := set_epoch epoch (new_sampler n r w scores shuffle seed) in
  let c := sampler_cut n (sampler_shares w scores) in
  (forall r, (r < w)%nat -> is_ok (sampler_range (sampler r)) = true) -> c w = Z.of_nat n ->
  (forall i, (i < n)%nat -> exists r l, (r < w)%nat /\ sampler_iter shuffled (sampler r) = Ok l /\ i ∈ l)
  /\ ((forall r, (r < w)%nat -> c r < c (S r)) ->
        exists order, Permutation order (seq 0 n)
          /\ concat (map (fun r => match sampler_iter shuffled (sampler r) with Ok l => l | Err _ => [] end) (seq 0 w)) = order).
Proof.
  cbv zeta. intros Hok Hlast.
  set (sampler := fun r => set_epoch epoch (new_sampler n r w scores shuffle seed)).
  set (c := sampler_cut n (sampler_shares w scores)) in *.
  set (order := sampler_indices shuffled (sampler 0%nat)).
  assert (Permutation order (seq 0 n)) as Hperm by apply (sampler_indices_perm (sampler 0%nat)).
  assert (forall k, 0 <= c k) as Hc0 by (intros; unfold c, sampler_cut, clamp; lia).
  assert (c 0%nat = 0) as Hfirst.
  { unfold c, sampler_cut, share_bound, clamp, round_int. simpl. destruct (decide (Z.of_nat n < 2 ^ 53)) as [Hn|Hn].
    - rewrite round_mul_zero by lia. lia.
    - unfold fmul, SFmul. destruct (f_of_Z (Z.of_nat n)); simpl; lia. }
  assert (forall r, (r < w)%nat -> exists a b, sampler_iter shuffled (sampler r) = Ok (slice a b order)
            /\ a = c r /\ c (S r) <= b /\ (c r < c (S r) -> b = c (S r))) as Hiter.
  { intros r Hr. specialize (Hok r Hr). change (is_ok (sampler_range (sampler r)) = true) in Hok. unfold sampler_iter.
    destruct (sampler_range (sampler r)) as [[a b]|] eqn:E; [|done]. exists a, b. split; [done|].
    by apply sampler_range_spec in E. }
  split.
  - intros i Hi. assert (i ∈ order) as (p & Hp)%list_elem_of_lookup by (rewrite Hperm; apply elem_of_seq; lia).
    assert (p < n)%nat as Hpn. { apply lookup_lt_Some in Hp. by rewrite Hperm, length_seq in Hp. }
    destruct (crossing c w (Z.of_nat p)) as (r & Hr & Hcross); [lia|lia|].
    destruct (Hiter r Hr) as (a & b & Hit & -> & Hb & _). exists r, (slice (c r) b order). split_and!; [done|done|].
    apply (slice_elem _ _ _ (Z.of_nat p)); [|lia|by rewrite Nat2Z.id]. specialize (Hc0 r). lia.
  - intros Hinc. exists order. split; [done|]. etransitivity; [|apply slice_full].
    transitivity (slice (c 0%nat) (c w) order); [|rewrite Hfirst, Hlast; f_equal; by rewrite Hperm, length_seq].
    rewrite <- slices_concat; [|done|intros; by apply Z.lt_le_incl, Hinc].
    f_equal. apply map_ext_in. intros r Hr%in_seq. destruct (Hiter r ltac:(lia)) as (a & b & -> & -> & _ & Hb).
    by rewrite Hb by (apply Hinc; lia).
Qed.
End sampler.

(** The batches of a loader are its rows, none over the batch size, which a
    low-memory worker halves. *)
Theorem loader_batches_exact {A} parse (environ : odict string) (data : list A) b shuffle pin workers s (permute : list A -> list A) :
  0 < b -> new_loader parse environ data b shuffle pin workers = Ok s ->
  exists bs, loader_batches permute s = Ok bs
    /\ concat bs = (if shuffle then permute (sl_dataset s) else sl_dataset s)
    /\ Forall (fun x => 1 <= Z.of_nat (length x) <= (if low_ram_set environ then Z.max 1 (b / 2) else b)) bs.
Proof.
  intros Hb (shard & Hs & [= <-])%res_bind_ok. unfold loader_batches, halve.
  assert (forall c, 0 < c -> forall rows : list A, exists bs,
    (if c =? 0 then Err (ValueError "range() arg 3 must not be zero") else if c <? 0 then Ok [] else Ok (batches_of (length rows) (Z.to_nat c) rows)) = Ok bs
    /\ concat bs = rows /\ Forall (fun x => 1 <= Z.of_nat (length x) <= c) bs) as H.
  { intros c Hc rows. rewrite (proj2 (Z.eqb_neq c 0)), (proj2 (Z.ltb_ge c 0)) by lia. eexists. split; [done|].
    destruct (batches_of_spec (length rows) (Z.to_nat c) rows) as [H1 H2]; [lia|done|]. split; [done|].
    eapply Forall_impl; [exact H2|]. simpl. intros; lia. }
  destruct (low_ram_set environ); simpl; apply H; lia.
Qed.

Lemma loader_batches_witness :
  let s := {| sl_dataset := [1; 2; 3; 4; 5]; sl_batch_size := 2; sl_shuffle := false; sl_pin_memory := false; sl_num_workers := 0 |} in
  new_loader (fun _ => None) [("AIDAR_LOW_RAM_MODE", "1")]%string [1; 2; 3; 4; 5] 4 false true 2 = Ok s
  /\ exists bs, loader_batches (@rev Z) s = Ok bs /\ concat bs = [1; 2; 3; 4; 5] /\ length bs = 3%nat.
Proof.
  cbv zeta. set (s := Build_sdk_loader _ _ _ _ _ _).
  assert (new_loader (fun _ => None) [("AIDAR_LOW_RAM_MODE", "1")]%string [1; 2; 3; 4; 5] 4 false true 2 = Ok s) as Hs
    by (vm_compute; reflexivity).
  split; [exact Hs|].
  destruct (loader_batches_exact (fun _ => None) [("AIDAR_LOW_RAM_MODE", "1")]%string [1; 2; 3; 4; 5] 4 false true 2 s (@rev Z) eq_refl Hs)
    as (bs & H1 & H2 & _).
  exists bs. split_and!; [exact H1|exact H2|]. vm_compute in H1. by injection H1 as <-.
Defined.

Lemma task_split_witness :
  (0 < 3)%nat /\ 0 <= 8 /\ map (assigned_seeds 100 8 3) [0; 1; 2] = [[100; 101; 102]; [103; 104; 105]; [106; 107]]
  /\ concat (map (fun r => assigned_files 3 r ["a"; "b"; "c"; "d"]%string) (seqZ 0 3)) = ["a"; "b"; "c"; "d"]%string.
Proof.
  split_and!; [lia|lia|reflexivity|]. exact (proj2 (proj2 (task_split_exact 100 8 ["a"; "b"; "c"; "d"]%string 3 ltac:(lia) ltac:(lia)))).
Defined.

Lemma sampler_draws_witness :
  let sampler r := set_epoch 3 (new_sampler 10 r 2 [f_of_Z 12; f_of_Z 4] true 7) in
  concat (map (fun r => match sampler_iter (fun _ => @rev nat) (sampler r) with Ok l => l | Err _ => [] end) [0%nat; 1%nat])
  = [9; 8; 7; 6; 5; 4; 3; 2; 1; 0]%nat
  /\ exists order, Permutation order (seq 0 10)
      /\ concat (map (fun r => match sampler_iter (fun _ => @rev nat) (sampler r) with Ok l => l | Err _ => [] end) (seq 0 2)) = order.
Proof.
  cbv zeta. split; [vm_compute; reflexivity|].
  apply (sampler_draws_all (fun _ => @rev nat) (fun _ l => Permutation_sym (Permutation_rev l)) 10 2 [f_of_Z 12; f_of_Z 4] true 7 3).
  - intros [|[|r]] Hr; [vm_compute; reflexivity|vm_compute; reflexivity|lia].
  - vm_compute; reflexivity.
  - intros [|[|r]] Hr; [vm_compute; reflexivity|vm_compute; reflexivity|lia].
Defined.

(** A slow last worker draws nothing from a small dataset, although its sampler
    announces one row. *)
Example sampler_announces_a_row :
  let s := new_sampler 3 1 2 [f_of_Z 1000; f_of_Z 0] false 0 in sampler_iter (fun _ l => l) s = Ok [] /\ sampler_len s = Ok 1.
Proof. split; vm_compute; reflexivity. Qed.

(** A slow worker in the middle takes a row its successor has as well. *)
Example sampler_row_drawn_twice :
  map (fun r => sampler_iter (fun _ l => l) (new_sampler 4 r 3 [f_of_Z 100; f_of_Z 0; f_of_Z 100] false 0)) [0; 1; 2]%nat
  = [Ok [0; 1]; Ok [2]; Ok [2; 3]]%nat.
Proof. vm_compute. reflexivity. Qed.

(** Half of five rounds to the even two, twice: a sample belongs to nobody. *)
Example sample_counted_by_nobody :
  res_map (map pt_sample_count) (partition_workload [None; None] (Some 5) None) = Ok [2; 2].
Proof. vm_compute. reflexivity. Qed.

(** Below four rows every worker trains on the whole dataset. *)
Example small_dataset_not_split (environ : odict string) : shard_dataset (fun _ => None) environ [1; 2; 3] = Ok [1; 2; 3].
Proof. reflexivity. Qed.

(** An empty shard has no batch, but a length of one. *)
Example empty_loader_has_length :
  let s := {| sl_dataset := [] : list Z; sl_batch_size := 4; sl_shuffle := false; sl_pin_memory := true; sl_num_workers := 0 |} in
  loader_batches (@rev Z) s = Ok [] /\ loader_len s = Ok 1.
Proof. split; vm_compute; reflexivity. Qed.
