(* ===== verification/MLMerge.v ===== *)
(** * Aggregating what the workers trained ([adapters/ml_training])

    [merger.py] merges the outputs of the workers into one directory,
    [lifecycle.py] averages their updates round by round and chooses the
    checkpoint to keep, [sdk/ml.py] accepts or refuses one.  NumPy and PyTorch
    are outside the source: an array is of the argument type [T], and what the
    code does with arrays are the operations of [tensor_ops].  Loading and
    saving a file format are arguments as well.  A worker's output is a file or
    the files of a directory in the order of [os.walk]. *)
From Stdlib Require Import SpecFloat.
From S2P Require Export Models MLShards.

(** ** Weights ([_normalize_weights]) *)

Inductive worker_weighting := NO_WEIGHTS | WEIGHT_DICT (d : odict float) | WEIGHT_LIST (l : list float).

Definition uniform (keys : list string) : odict float := map (fun k => (k, fdivZ 1 (Z.of_nat (length keys)))) keys.

Definition raw_weights (keys : list string) (w : worker_weighting) : option (odict float) :=
  match w with
  | NO_WEIGHTS => None
  | WEIGHT_DICT d => Some (map (fun k => (k, od_get_default k f1 d)) keys)
  | WEIGHT_LIST l => Some (imap (fun i k => (k, default f1 (l !! i))) keys)
  end.

Definition _normalize_weights (keys : list string) (w : worker_weighting) : odict float :=
  match keys, raw_weights keys w with
  | [], _ => []
  | _, None => uniform keys
  | _, Some raw =>
      let total_w := fsum (od_values raw) in
      if fle total_w f0 then uniform keys else map (fun '(k, v) => (k, fdiv v total_w)) raw
  end.

(** [[w / (sum(loaded) or 1.0) for w in loaded]] *)
Definition renormalise (loaded : list float) : list float :=
  let sum_w := fsum loaded in
  let sum_w := if feq sum_w f0 then f1 else sum_w in
  map (fun w => fdiv w sum_w) loaded.

(** ** JSON documents ([_fedavg_json_dict]) *)

Definition is_number (j : json) : bool := match j with JInt _ | JFloat _ | JBool _ => true | _ => false end.

Section json_average.
Context (parse_float : string -> option float).

(** [float(x)] *)
Definition json_float (j : json) : res float :=
  match j with
  | JInt n => Ok (f_of_Z n)
  | JFloat f => Ok f
  | JBool b => Ok (f_of_Z (if b then 1 else 0))
  | JStr s => match parse_float s with Some f => Ok f | None => Err (ValueError "could not convert string to float") end
  | _ => Err TypeError
  end.

(** [d.get(k, dflt)] on a value that may be no dictionary. *)
Definition json_get (k : string) (dflt d : json) : res json :=
  match d with JObj o => Ok (od_get_default k dflt o) | _ => Err (AttributeError "get") end.

Definition gets (k : string) (dflt : json) (docs : list json) : res (list json) :=
  foldr (fun d rest => let! v := json_get k dflt d in let! l := rest in Ok (v :: l)) (Ok []) docs.

Fixpoint weighted_sum (acc : float) (values : list json) (weights : list float) : res float :=
  match values, weights with
  | v :: values, w :: weights => let! x := json_float v in weighted_sum (fadd acc (fmul x w)) values weights
  | _, _ => Ok acc
  end.

(** The loop over the indices of one worker's list. *)
Fixpoint accumulate (acc : list float) (cur : list json) (w : float) : res (list float) :=
  match acc, cur with
  | a :: acc, c :: cur => let! x := json_float c in let! rest := accumulate acc cur w in Ok (fadd a (fmul x w) :: rest)
  | _, _ => Ok acc
  end.

(** What [len(x)] and [x[idx]] see. *)
Definition elements_of (j : json) : res (list json) :=
  match j with
  | JList l => Ok l
  | JStr s => Ok (map (fun c => JStr (String c "")) (list_ascii_of_string s))
  | JObj [] => Ok []
  | JObj _ => Err (KeyError "0")
  | _ => Err TypeError
  end.

Fixpoint weighted_lists (acc : list float) (lists : list json) (weights : list float) : res (list float) :=
  match lists, weights with
  | l :: lists, w :: weights =>
      let! cur := elements_of l in
      let! acc := accumulate acc cur w in
      weighted_lists acc lists weights
  | _, _ => Ok acc
  end.

(** [ref] is the first document, [others] the documents of the other workers. *)
Fixpoint _fedavg_json_dict (ref : json) (others : list json) (weights : list float) {struct ref} : res json :=
  match ref, others with
  | JObj o, [] => Ok (JObj o)
  | JObj o, _ :: _ =>
      let! merged :=
        (fix items (o : list (string * json)) : res (list (string * json)) :=
           match o with
           | [] => Ok []
           | (k, v) :: o =>
               let! merged_v :=
                 match v with
                 | JInt _ | JFloat _ | JBool _ =>
                     let! vs := gets k v others in res_map JFloat (weighted_sum f0 (v :: vs) weights)
                 | JList (x :: l) =>
                     if is_number x then
                       let! vs := gets k v others in
                       res_map (fun acc => JList (map JFloat acc)) (weighted_lists (repeat f0 (length (x :: l))) (v :: vs) weights)
                     else Ok v
                 | JObj _ => let! vs := gets k (JObj []) others in _fedavg_json_dict v vs weights
                 | _ => Ok v
                 end in
               let! rest := items o in
               Ok ((k, merged_v) :: rest)
           end) o in
      Ok (JObj merged)
  | _, _ => Err (AttributeError "items")
  end.
End json_average.

(** ** Arrays *)

Record tensor_ops (T : Type) := {
  t_finite : T -> bool;             (** [np.all(np.isfinite(x))] *)
  t_floating : T -> bool;           (** a floating or complex element type *)
  t_zeros : T -> T;                 (** [zeros_like(x)] in the accumulator's type *)
  t_sub : T -> T -> res T;          (** [x - y] in double precision *)
  t_scale : float -> T -> T;        (** [w * x] in the accumulator's type *)
  t_add : T -> T -> res T;          (** [x + y], raising when the shapes do not fit *)
  t_astype : T -> T -> T;           (** [y.astype(x.dtype)] *)
  t_item : T -> res Z;              (** [x.item()] of an integer tensor *)
  t_of_int : T -> Z -> T;           (** a tensor of the same type holding an integer *)
}.
Arguments t_finite {T}. Arguments t_floating {T}. Arguments t_zeros {T}. Arguments t_sub {T}. Arguments t_scale {T}. Arguments t_add {T}.
Arguments t_astype {T}. Arguments t_item {T}. Arguments t_of_int {T}.

Section arrays.
Context {T : Type} (ops : tensor_ops T).

(** [accum += w * x], for every array and its weight. *)
Fixpoint accumulate_arrays (accum : T) (xs : list (T * float)) : res T :=
  match xs with
  | [] => Ok accum
  | (x, w) :: xs => let! accum := t_add ops accum (t_scale ops w x) in accumulate_arrays accum xs
  end.

Definition od_lookup {V} (k : string) (d : odict V) : res V := match od_get k d with Some v => Ok v | None => Err (KeyError k) end.

Fixpoint lookup_all (k : string) (ds : list (odict T)) : res (list T) :=
  match ds with
  | [] => Ok []
  | d :: ds => let! v := od_lookup k d in let! l := lookup_all k ds in Ok (v :: l)
  end.

Fixpoint merge_arrays (ref : odict T) (ds : list (odict T)) (weights : list float) : res (odict T) :=
  match ref with
  | [] => Ok []
  | (k, v) :: ref =>
      let! merged_v :=
        if t_floating ops v then
          let! xs := lookup_all k ds in
          res_map (t_astype ops v) (accumulate_arrays (t_zeros ops v) (zip xs weights))
        else Ok v in
      let! rest := merge_arrays ref ds weights in
      Ok ((k, merged_v) :: rest)
  end.

Definition _fedavg_numpy_dict (ds : list (odict T)) (weights : list float) : res (odict T) :=
  match ds with
  | [] => Ok []
  | [d] => Ok d
  | ref :: _ => merge_arrays ref ds weights
  end.

(** What [torch.load] returns: tensors, dictionaries and everything else. *)
Inductive tvalue := TTensor (t : T) | TDict (d : list (string * tvalue)) | TOther (j : json).

Definition t_get (k : string) (sd : tvalue) : res (option tvalue) :=
  match sd with TDict d => Ok (od_get k d) | _ => Err (AttributeError "get") end.

Fixpoint t_gets (k : string) (sds : list tvalue) : res (list (option tvalue)) :=
  match sds with
  | [] => Ok []
  | sd :: sds => let! v := t_get k sd in let! l := t_gets k sds in Ok (v :: l)
  end.

Fixpoint accumulate_tensors (accum : T) (xs : list (option tvalue * float)) : res T :=
  match xs with
  | [] => Ok accum
  | (None, _) :: xs | (Some (TOther JNull), _) :: xs => accumulate_tensors accum xs
  | (Some (TTensor x), w) :: xs => let! accum := t_add ops accum (t_scale ops w x) in accumulate_tensors accum xs
  | (Some _, _) :: _ => Err (AttributeError "to")
  end.

Fixpoint sum_items (xs : list (option tvalue)) : res Z :=
  match xs with
  | [] => Ok 0
  | None :: xs => sum_items xs
  | Some (TTensor x) :: xs => let! n := t_item ops x in let! m := sum_items xs in Ok (n + m)
  | Some _ :: _ => Err (AttributeError "item")
  end.

Fixpoint str_contains (needle s : string) : bool :=
  starts_with needle s || match s with EmptyString => false | String _ s => str_contains needle s end.

Definition is_counter (k : string) : bool := existsb (fun w => str_contains w k) ["batches_tracked"; "step"; "count"]%string.

Fixpoint _fedavg_pytorch_state_dict (ref : tvalue) (others : list tvalue) (weights : list float) {struct ref} : res tvalue :=
  match others with
  | [] => Ok ref
  | _ :: _ =>
      match ref with
      | TDict d =>
          let! merged :=
            (fix items (d : list (string * tvalue)) : res (list (string * tvalue)) :=
               match d with
               | [] => Ok []
               | (k, v) :: d =>
                   let! merged_v :=
                     match v with
                     | TTensor t =>
                         if t_floating ops t then
                           let! xs := t_gets k others in
                           res_map (fun a => TTensor (t_astype ops t a)) (accumulate_tensors (t_zeros ops t) (zip (Some v :: xs) weights))
                         else if is_counter k then
                           let! xs := t_gets k others in
                           res_map (fun n => TTensor (t_of_int ops t n)) (sum_items (Some v :: xs))
                         else Ok v
                     | TDict _ =>
                         let! subs := t_gets k others in
                         _fedavg_pytorch_state_dict v (map (default (TDict [])) subs) weights
                     | TOther _ => Ok v
                     end in
                   let! rest := items d in
                   Ok ((k, merged_v) :: rest)
               end) d in
          Ok (TDict merged)
      | _ => Err (AttributeError "items")
      end
  end.

Definition fedavg_state_dicts (sds : list tvalue) (weights : list float) : res tvalue :=
  match sds with
  | [] => Ok (TDict [])
  | ref :: others => _fedavg_pytorch_state_dict ref others weights
  end.
End arrays.
Arguments TTensor {T}. Arguments TDict {T}. Arguments TOther {T}.

(** ** Rounds of synchronisation ([MLLifecycleOrchestrator]) *)

Section lifecycle.
Context {T : Type} (ops : tensor_ops T).

Abbreviation checkpoint := (odict T).

Definition is_valid_update (cp : checkpoint) : bool := forallb (fun kv => t_finite ops (snd kv)) cp.

(** [accum_delta] of one key. *)
Fixpoint accum_delta (key : string) (base : T) (acc : T) (ups : list (checkpoint * float)) : res T :=
  match ups with
  | [] => Ok acc
  | (cp, w) :: ups =>
      match od_get key cp with
      | None => accum_delta key base acc ups
      | Some v =>
          let! delta := t_sub ops v base in
          let! acc := t_add ops acc (t_scale ops w delta) in
          accum_delta key base acc ups
      end
  end.

Fixpoint aggregate_keys (base : checkpoint) (ups : list (checkpoint * float)) : res checkpoint :=
  match base with
  | [] => Ok []
  | (key, v) :: base =>
      let! delta := accum_delta key v (t_zeros ops v) ups in
      let! new_val := t_add ops v delta in
      let! rest := aggregate_keys base ups in
      Ok ((key, t_astype ops v new_val) :: rest)
  end.

(** [[c / total for c in counts]], the total being [float(sum(counts)) or 1.0]. *)
Definition sample_weights (counts : list Z) : list float :=
  let total := f_of_Z (sumZ counts) in
  let total := if feq total f0 then f1 else total in
  map (fun c => fdiv (f_of_Z c) total) counts.

Definition aggregate_valid_updates (base : checkpoint) (worker_checkpoints : list checkpoint) (sample_counts : list Z) : res checkpoint :=
  let valid := filter (fun u => is_valid_update (fst u) = true) (zip worker_checkpoints sample_counts) in
  match valid with
  | [] => Ok base
  | _ => aggregate_keys base (zip (map fst valid) (sample_weights (map snd valid)))
  end.

(** One round: every partition is trained from the same checkpoint. *)
Definition synchronization_round (train : Z -> checkpoint -> ml_partition -> checkpoint) (partitions : list ml_partition) (r : Z)
    (current : checkpoint) : res checkpoint :=
  aggregate_valid_updates current (map (train r current) partitions) (map pt_sample_count partitions).

Definition coordinate_synchronization_rounds (train : Z -> checkpoint -> ml_partition -> checkpoint) (partitions : list ml_partition)
    (num_rounds : Z) (initial : checkpoint) : res checkpoint :=
  res_fold (fun cp r => synchronization_round train partitions r cp) initial (seqZ 1 num_rounds).

(** ** The choice of a checkpoint *)

Inductive checkpoint_choice := CHOOSE_MERGED | CHOOSE_BEST_WORKER_FALLBACK.

Record validation_report := {
  vr_baseline_val_loss : float;
  vr_merged_val_loss : float;
  vr_per_worker_val_loss : list (string * float);
  vr_best_worker_val_loss : float;
  vr_validation_degradation_detected : bool;
  vr_selected_checkpoint_type : checkpoint_choice;
}.

(** [min(values)]: the first least one. *)
Definition py_min (x : float) (l : list float) : float := fold_left (fun m y => if flt y m then y else m) l x.

(** [evaluate] is [_eval], the loss on the held-out data. *)
Definition validate_against_baseline (evaluate : checkpoint -> float) (merged baseline : checkpoint) (workers : list checkpoint)
    : validation_report :=
  let merged_loss := evaluate merged in
  let per_worker := imap (fun i cp => (("worker_" +:+ str_of_Z (Z.of_nat i))%string, evaluate cp)) workers in
  let best := match map snd per_worker with [] => merged_loss | x :: l => py_min x l end in
  let degraded := fgt merged_loss (fadd best (flit 1 9)) in
  {| vr_baseline_val_loss := evaluate baseline; vr_merged_val_loss := merged_loss; vr_per_worker_val_loss := per_worker;
     vr_best_worker_val_loss := best; vr_validation_degradation_detected := degraded;
     vr_selected_checkpoint_type := if degraded then CHOOSE_BEST_WORKER_FALLBACK else CHOOSE_MERGED |}.

(** [AidarValidationGate.verify_no_degradation] *)
Definition verify_no_degradation (evaluate : checkpoint -> float) (candidate baseline : checkpoint) : bool * float * float :=
  let cand_loss := evaluate candidate in
  let base_loss := evaluate baseline in
  (fle cand_loss (fmul base_loss (flit 105 2)), cand_loss, base_loss).
End lifecycle.

(** ** Merging the output directories ([merge_worker_ml_outputs]) *)

Inductive worker_output := OutFile (name content : string) | OutDir (files : list (string * string)).

(** The text before and after the last dot of a name. *)
Fixpoint last_dot (s : string) : option (string * string) :=
  match s with
  | EmptyString => None
  | String c r =>
      match last_dot r with
      | Some (a, b) => Some (String c a, b)
      | None => if Ascii.eqb c "."%char then Some (""%string, r) else None
      end
  end.

Definition base_name (rel : string) : string := basename rel.

(** [PurePath.stem] and [suffix]: a leading or a trailing dot starts no suffix. *)
Definition split_suffix (rel : string) : string * string :=
  match last_dot (base_name rel) with
  | Some (a, b) => if str_truthy a && str_truthy b then (a, "." +:+ b) else (base_name rel, "")
  | None => (base_name rel, "")
  end.
Definition path_stem (rel : string) : string := fst (split_suffix rel).
Definition path_suffix (rel : string) : string := snd (split_suffix rel).
Definition dir_prefix (rel : string) : string := str_take (String.length rel - String.length (base_name rel)) rel.

(** [files_by_name]: for every relative path the workers that produced it. *)
Definition files_by_name (workers : odict worker_output) : odict (odict string) :=
  fold_left (fun acc '(wid, out) =>
    fold_left (fun acc '(rel, content) => od_set rel (od_set wid content (od_get_default rel [] acc)) acc)
      (match out with OutFile name content => [(name, content)] | OutDir files => files end) acc)
    workers [].

Section merger.
Context {T : Type} (ops : tensor_ops T) (parse_float : string -> option float).
Context (torch_load : string -> res (tvalue (T := T))) (torch_save : tvalue (T := T) -> res string).
Context (npz_load safetensors_load : string -> res (odict T)) (npz_save safetensors_save : odict T -> res string).
Context (json_load : string -> res json) (json_dump : json -> res string).
Context (npy_load : string -> res T) (npy_concatenate : list T -> res T) (npy_save : T -> res string).

Definition res_all {A B} (f : A -> res B) (l : list A) : res (list B) :=
  foldr (fun a rest => let! b := f a in let! l := rest in Ok (b :: l)) (Ok []) l.

(** The files of one path in the order of the workers, with their weights. *)
Definition loaded_files (weights : odict float) (w_files : odict string) : list (string * float) :=
  omap (fun '(wid, w) => c ← od_get wid w_files; Some (c, w)) weights.

(** The state dictionaries among the loaded values, and the outer dictionary of
    the last full checkpoint. *)
Definition state_dict_of (loaded : tvalue) : option (tvalue (T := T)) * option (string * list (string * tvalue (T := T))) :=
  match loaded with
  | TDict d =>
      match od_get "state_dict" d with
      | Some sd => (Some sd, Some ("state_dict"%string, d))
      | None => match od_get "model" d with
                | Some (TDict m) => (Some (TDict m), Some ("model"%string, d))
                | _ => (Some loaded, None)
                end
      end
  | _ => (None, None)
  end.

Definition merge_torch (files : list (string * float)) : res string :=
  let! loaded := res_all (fun f => torch_load (fst f)) files in
  let parts := map state_dict_of loaded in
  let! merged_sd := fedavg_state_dicts ops (omap fst parts) (renormalise (map snd files)) in
  match last (omap snd parts) with
  | Some (_, outer) =>
      (* the key is looked up again in the outer dictionary *)
      torch_save (TDict (od_set (if od_mem "state_dict" outer then "state_dict"%string else "model"%string) merged_sd outer))
  | None => torch_save merged_sd
  end.

Definition merge_numpy (load : string -> res (odict T)) (save : odict T -> res string) (files : list (string * float)) : res string :=
  let! loaded := res_all (fun f => load (fst f)) files in
  let! merged := _fedavg_numpy_dict ops loaded (renormalise (map snd files)) in
  save merged.

(** [None] when the first document is no dictionary. *)
Definition merge_json (files : list (string * float)) : res (option string) :=
  let! loaded := res_all (fun f => json_load (fst f)) files in
  match loaded with
  | JObj o :: others => res_map Some (let! m := _fedavg_json_dict parse_float (JObj o) others (renormalise (map snd files)) in json_dump m)
  | _ => Ok None
  end.

Definition merge_features (files : list (string * float)) : res (option string) :=
  let! arrays := res_all (fun f => npy_load (fst f)) files in
  match arrays with
  | [] => Ok None
  | _ => let! a := npy_concatenate arrays in res_map Some (npy_save a)
  end.

(** The averaged content of one path, by its extension; [None] when the files
    are to be copied. *)
Definition averaged (rel_name : string) (files : list (string * float)) : option string :=
  let ext := str_lower (path_suffix rel_name) in
  let kept {A} (r : res A) : option A := match r with Ok x => Some x | Err _ => None end in
  if bool_decide (ext ∈ [".pt"; ".pth"]%string) then kept (merge_torch files)
  else if String.eqb ext ".npz" then kept (merge_numpy npz_load npz_save files)
  else if String.eqb ext ".safetensors" then kept (merge_numpy safetensors_load safetensors_save files)
  else if String.eqb ext ".json" then c ← kept (merge_json files); c
  else if String.eqb ext ".npy" && (str_contains "total_fea" (str_lower rel_name) || str_contains "features" (str_lower rel_name))
  then c ← kept (merge_features files); c
  else None.

(** The name of one worker's copy: its file, and the key it is reported under. *)
Definition distinct_name (rel_name wid : string) : string := (path_stem rel_name +:+ "_" +:+ wid +:+ path_suffix rel_name)%string.
Definition distinct_path (rel_name wid : string) : string := (dir_prefix rel_name +:+ distinct_name rel_name wid)%string.

(** The destination directory and the returned dictionary. *)
Record merge_state := { ms_dest : gmap string string; ms_results : odict string }.

Definition put (path key content : string) (s : merge_state) : merge_state :=
  {| ms_dest := <[path := content]> (ms_dest s); ms_results := od_set key path (ms_results s) |}.

Definition copy_files (rel_name : string) (w_files : odict string) (s : merge_state) : merge_state :=
  match w_files with
  | [(_, content)] => put rel_name rel_name content s
  | _ => fold_left (fun s '(wid, content) => put (distinct_path rel_name wid) (distinct_name rel_name wid) content s) w_files s
  end.

Definition merge_file (weights : odict float) (rel_name : string) (w_files : odict string) (s : merge_state) : merge_state :=
  match averaged rel_name (loaded_files weights w_files) with
  | Some content => put rel_name rel_name content s
  | None => copy_files rel_name w_files s
  end.

Definition merge_worker_ml_outputs (workers : odict worker_output) (weighting : worker_weighting) (dest : gmap string string) : merge_state :=
  match workers with
  | [] => {| ms_dest := dest; ms_results := [] |}
  | _ =>
      let weights := _normalize_weights (od_keys workers) weighting in
      fold_left (fun s '(rel_name, w_files) => merge_file weights rel_name w_files s) (files_by_name workers)
        {| ms_dest := dest; ms_results := [] |}
  end.
End merger.
