(* ===== verification/MLMergeProps.v ===== *)
(** * Aggregation is robust and loses nothing

    A corrupt update has no influence on any round, the checkpoint kept is not
    worse than the best worker's, an averaged JSON document has the shape of the
    first one, and every file of every worker reaches the merged directory. *)
From Stdlib Require Import SpecFloat.
From S2P Require Export MLMerge MLShardsProps.

(** ** Corrupt updates *)

Section lifecycle.
Context {T : Type} (ops : tensor_ops T).

Lemma aggregate_keys_keys base ups cp : aggregate_keys ops base ups = Ok cp -> od_keys cp = od_keys base.
Proof.
  revert cp. induction base as [|[k v] base IH]; simpl; intros cp; [by intros [= <-]|].
  intros (d & _ & H)%res_bind_ok. apply res_bind_ok in H as (n & _ & H). apply res_bind_ok in H as (rest & Hr & [= <-]).
  unfold od_keys in *. simpl. by rewrite (IH _ Hr).
Qed.

Lemma aggregate_keys_of base cps counts cp : aggregate_valid_updates ops base cps counts = Ok cp -> od_keys cp = od_keys base.
Proof.
  unfold aggregate_valid_updates. destruct (filter _ _); [by intros [= <-]|]. apply aggregate_keys_keys.
Qed.

Lemma aggregate_skip base (cps1 cps2 : list (odict T)) (ns1 ns2 : list Z) cp n :
  length cps1 = length ns1 -> is_valid_update ops cp = false ->
  aggregate_valid_updates ops base (cps1 ++ cp :: cps2) (ns1 ++ n :: ns2) = aggregate_valid_updates ops base (cps1 ++ cps2) (ns1 ++ ns2).
Proof.
  intros Hl Hv. unfold aggregate_valid_updates. rewrite !zip_with_app by done. simpl.
  rewrite !filter_app, filter_cons. simpl. by rewrite Hv.
Qed.

Lemma aggregate_none base cps counts :
  Forall (fun cp => is_valid_update ops cp = false) cps -> aggregate_valid_updates ops base cps counts = Ok base.
Proof.
  intros H. unfold aggregate_valid_updates. replace (filter _ _) with ([] : list (odict T * Z)); [done|]. symmetry.
  apply elem_of_nil_inv. intros [cp n] [Hv Hin]%list_elem_of_filter. simpl in Hv.
  apply elem_of_zip_l in Hin. rewrite Forall_forall in H. specialize (H _ Hin). congruence.
Qed.

Lemma rounds_invariant (P : odict T -> Prop) train parts num init cp :
  (forall r cp cp', P cp -> synchronization_round ops train parts r cp = Ok cp' -> P cp') ->
  P init -> coordinate_synchronization_rounds ops train parts num init = Ok cp -> P cp.
Proof.
  intros Hstep. unfold coordinate_synchronization_rounds. generalize (seqZ 1 num). intros l. revert init.
  induction l as [|r l IH]; simpl; intros init Hi; [by intros [= <-]|]. intros (cp1 & H1 & H2)%res_bind_ok. eauto.
Qed.

Lemma res_fold_ext {A S} (f g : S -> A -> res S) s l : (forall s a, f s a = g s a) -> res_fold f s l = res_fold g s l.
Proof. intros Hfg. revert s. induction l as [|a l IH]; simpl; intros s; [done|]. rewrite Hfg. by destruct (g s a); simpl. Qed.

(** An update with a value that is not finite. *)
Definition corrupt (cp : odict T) : Prop := exists k v, (k, v) ∈ cp /\ t_finite ops v = false.

Lemma corrupt_invalid cp : corrupt cp -> is_valid_update ops cp = false.
Proof.
  intros (k & v & Hin & Hv). apply not_true_iff_false. unfold is_valid_update. rewrite forallb_forall. intros H.
  apply list_elem_of_In in Hin. specialize (H _ Hin). simpl in H. congruence.
Qed.

(** C37: A worker whose updates hold a NaN or an infinity has no influence on the
    training: the rounds run as if its partition did not exist, and when every
    worker is corrupt the initial checkpoint is returned.  However the workers
    answer, the parameters of the model stay the same set. *)
Theorem poisoned_worker_harmless train (parts1 parts2 : list ml_partition) p num (init : odict T) :
  ((forall r cp, corrupt (train r cp p)) ->
     coordinate_synchronization_rounds ops train (parts1 ++ p :: parts2) num init
     = coordinate_synchronization_rounds ops train (parts1 ++ parts2) num init)
  /\ ((forall r cp q, q ∈ parts1 -> corrupt (train r cp q)) ->
        coordinate_synchronization_rounds ops train parts1 num init = Ok init)
  /\ (forall cp, coordinate_synchronization_rounds ops train parts1 num init = Ok cp -> od_keys cp = od_keys init).
Proof.
  split_and!.
  - intros Hp. apply res_fold_ext. intros cp r. unfold synchronization_round. rewrite !map_app. simpl.
    apply aggregate_skip; [by rewrite !length_map|apply corrupt_invalid, Hp].
  - intros Hp. unfold coordinate_synchronization_rounds. generalize (seqZ 1 num). intros l.
    induction l as [|r l IH]; simpl; [done|]. unfold synchronization_round. rewrite aggregate_none; [apply IH|].
    apply Forall_forall. intros cp (q & -> & Hq)%list_elem_of_fmap. by apply corrupt_invalid, Hp.
  - intros cp. apply (rounds_invariant (fun c => od_keys c = od_keys init)); [|done]. intros r c c' Hc H. rewrite <- Hc. by eapply aggregate_keys_of.
Qed.
End lifecycle.

(** ** The checkpoint kept *)

Lemma py_min_spec x l :
  notnan x -> Forall notnan l -> let m := py_min x l in m ∈ x :: l /\ Forall (fun y => fle m y = true) (x :: l).
Proof.
  unfold py_min. revert x. induction l as [|y l IH]; intros x Hx Hl; simpl.
  - split; [by left|]. constructor; [by apply fle_refl|done].
  - apply Forall_cons in Hl as [Hy Hl]. specialize (IH (if flt y x then y else x)).
    destruct IH as [Hin Hle]; [by destruct (flt y x)|done|]. set (m := fold_left _ l _) in *. apply Forall_cons in Hle as [Hm Hle].
    destruct (flt y x) eqn:E.
    + split; [by right|]. repeat constructor; [|done|done]. eapply fle_trans; [exact Hy|exact Hm|by apply flt_fle].
    + split; [apply elem_of_cons in Hin as [->|Hin]; [by left|by right; right]|]. repeat constructor; [done| |done].
      eapply fle_trans; [exact Hx|exact Hm|]. by apply flt_false_fle.
Qed.

Lemma fgt_false_fle x y : notnan x -> notnan y -> fgt x y = false -> fle x y = true.
Proof. intros Hx Hy H. unfold fgt in H. by apply flt_false_fle. Qed.

(** When the losses are numbers, the checkpoint kept loses no more on the
    held-out data than the best worker's plus the tolerance: the merged one is
    kept exactly when it meets that bound, otherwise the best worker's is. *)
Theorem kept_checkpoint_not_worse {T} (evaluate : odict T -> float) merged baseline workers :
  workers <> [] -> notnan (evaluate merged) -> Forall (fun cp => notnan (evaluate cp)) workers ->
  let r := validate_against_baseline evaluate merged baseline workers in
  let best := vr_best_worker_val_loss r in
  notnan (fadd best (flit 1 9)) ->
  (exists cp, cp ∈ workers /\ evaluate cp = best) /\ Forall (fun cp => fle best (evaluate cp) = true) workers
  /\ (vr_selected_checkpoint_type r = CHOOSE_MERGED <-> fle (evaluate merged) (fadd best (flit 1 9)) = true)
  /\ (vr_selected_checkpoint_type r = CHOOSE_BEST_WORKER_FALLBACK <-> fgt (evaluate merged) (fadd best (flit 1 9)) = true).
Proof.
  intros Hne Hm Hw. cbv zeta. unfold validate_against_baseline. cbn [vr_best_worker_val_loss vr_selected_checkpoint_type].
  generalize (flit 1 9). intros tol.
  assert (forall i, map snd (imap (fun j cp => (("worker_" +:+ str_of_Z (Z.of_nat (i + j)))%string, evaluate cp)) workers) = map evaluate workers) as Hmap.
  { clear. induction workers as [|w ws IH]; intros i; simpl; [done|]. f_equal. rewrite <- (IH (S i)). f_equal. apply imap_ext.
    intros j cp _. unfold compose. by replace (S i + j)%nat with (i + S j)%nat by lia. }
  specialize (Hmap 0%nat). cbn [Nat.add] in Hmap. rewrite Hmap. destruct workers as [|w ws]; [done|]. simpl.
  apply Forall_cons in Hw as [Hw0 Hws]. destruct (py_min_spec (evaluate w) (map evaluate ws)) as [Hin Hle]; [done|by apply Forall_map|].
  set (best := py_min (evaluate w) (map evaluate ws)) in *. generalize (fadd best tol). intros bound Hb. split_and!.
  - change (evaluate w :: map evaluate ws) with (map evaluate (w :: ws)) in Hin. apply list_elem_of_fmap in Hin as (cp & -> & Hcp). by exists cp.
  - change (evaluate w :: map evaluate ws) with (map evaluate (w :: ws)) in Hle. by apply Forall_map in Hle.
  - destruct (fgt _ _) eqn:E; (split; [intros ?|intros H]); try done.
    + exfalso. apply flt_false_fle in H; [|done|done]. unfold fgt in E. congruence.
    + by apply fgt_false_fle.
  - destruct (fgt _ _) eqn:E; split; done.
Qed.

(** ** The shape of an averaged document *)

(** Numbers and lists of numbers become floats, in place; the rest is kept. *)
Fixpoint same_shape (a b : json) {struct a} : Prop :=
  match a with
  | JObj o =>
      match b with
      | JObj p =>
          (fix go (o p : list (string * json)) : Prop :=
             match o, p with
             | [], [] => True
             | (k, x) :: o, (k', y) :: p => k = k' /\ same_shape x y /\ go o p
             | _, _ => False
             end) o p
      | _ => False
      end
  | JInt _ | JFloat _ | JBool _ => b = a \/ exists f, b = JFloat f
  | JList (x :: l) => b = a \/ (is_number x = true /\ exists fs, b = JList (map JFloat fs) /\ length fs = length (x :: l))
  | _ => b = a
  end.

Definition same_shape_items : list (string * json) -> list (string * json) -> Prop :=
  fix go o p := match o, p with
                | [], [] => True
                | (k, x) :: o, (k', y) :: p => k = k' /\ same_shape x y /\ go o p
                | _, _ => False
                end.

Lemma same_shape_refl j : same_shape j j.
Proof.
  induction j as [v Hv|l Hl|o Ho] using json_nested_ind; [destruct v; simpl in *; by (done || left)|destruct l; simpl; by auto|].
  change (same_shape_items o o). induction Ho as [|[k x] o Hx _ IH]; simpl; [done|]. by split_and!.
Qed.

Lemma accumulate_length parse acc cur w acc' : accumulate parse acc cur w = Ok acc' -> length acc' = length acc.
Proof.
  revert cur acc'. induction acc as [|a acc IH]; intros [|c cur] acc'; simpl; try (by intros [= <-]).
  intros (x & _ & H)%res_bind_ok. apply res_bind_ok in H as (rest & Hr & [= <-]). simpl. by rewrite (IH _ _ Hr).
Qed.

Lemma weighted_lists_length parse acc ls ws acc' : weighted_lists parse acc ls ws = Ok acc' -> length acc' = length acc.
Proof.
  revert acc ws. induction ls as [|l ls IH]; intros acc [|w ws]; simpl; try (by intros [= <-]).
  intros (cur & _ & H)%res_bind_ok. apply res_bind_ok in H as (acc1 & H1 & H2).
  by rewrite (IH _ _ H2), (accumulate_length _ _ _ _ _ H1).
Qed.

Lemma res_map_ok {A B} (f : A -> B) m y : res_map f m = Ok y <-> exists x, m = Ok x /\ f x = y.
Proof. destruct m; simpl; split; [intros [= <-]; eauto|intros (x & [= ->] & <-); done|done|by intros (x & [=] & _)]. Qed.

(** The average of one value of the first document. *)
Lemma json_average_items parse ref others ws r :
  _fedavg_json_dict parse ref others ws = Ok r -> same_shape ref r.
Proof.
  revert others ws r. induction ref as [v Hv|l Hl|o Ho] using json_nested_ind; intros others ws r.
  - destruct v; done.
  - done.
  - destruct others as [|d others]; [intros [= <-]; apply same_shape_refl|]. cbn [_fedavg_json_dict].
    intros (m & Hm & [= <-])%res_bind_ok. change (same_shape_items o m). revert m Hm.
    induction Ho as [|[k x] o Hx _ IH]; intros m; [by intros [= <-]|].
    intros (y & Hy & H)%res_bind_ok. apply res_bind_ok in H as (rest & Hr & [= <-]). simpl. split_and!; [done| |by apply IH].
    simpl in Hx. destruct x as [|b|n|f|s|[|z l]|p]; try (by injection Hy as <-).
    + apply res_bind_ok in Hy as (vs & _ & (f & _ & <-)%res_map_ok). right. eauto.
    + apply res_bind_ok in Hy as (vs & _ & (f & _ & <-)%res_map_ok). right. eauto.
    + apply res_bind_ok in Hy as (vs & _ & (g & _ & <-)%res_map_ok). right. eauto.
    + destruct (is_number z) eqn:Ez; [|injection Hy as <-; by left]. apply res_bind_ok in Hy as (vs & _ & (acc & Ha & <-)%res_map_ok).
      right. split; [done|]. exists acc. split; [done|]. apply weighted_lists_length in Ha. by rewrite Ha, repeat_length.
    + apply res_bind_ok in Hy as (vs & _ & Hy). by apply Hx in Hy.
Qed.

(** The average of JSON documents has the keys of the first one at every level,
    a float for each of its numbers, a list of the same length for each of its
    lists of numbers, and its other values; a single document is unchanged. *)
Theorem json_average_shape parse o others ws r :
  _fedavg_json_dict parse (JObj o) others ws = Ok r -> same_shape (JObj o) r /\ (others = [] -> r = JObj o).
Proof. intros H. split; [by eapply json_average_items|]. intros ->. by injection H. Qed.

(** ** Every file reaches the destination *)

Definition files_of (out : worker_output) : list (string * string) :=
  match out with OutFile name content => [(name, content)] | OutDir files => files end.

Definition file_at (acc : odict (odict string)) (rel wid : string) : option string := w ← od_get rel acc; od_get wid w.

Definition add_files (wid : string) (acc : odict (odict string)) (files : list (string * string)) : odict (odict string) :=
  fold_left (fun acc '(rel, content) => od_set rel (od_set wid content (od_get_default rel [] acc)) acc) files acc.

Lemma file_at_set acc rel wid content rel' wid' :
  file_at (od_set rel (od_set wid content (od_get_default rel [] acc)) acc) rel' wid'
  = if decide (rel' = rel /\ wid' = wid) then Some content else file_at acc rel' wid'.
Proof.
  unfold file_at, od_get_default, odict in *. destruct (decide (rel' = rel)) as [->|Hr].
  - rewrite od_get_set_eq. simpl. destruct (decide (wid' = wid)) as [->|Hw].
    + by rewrite od_get_set_eq, decide_True.
    + rewrite od_get_set_ne by done. rewrite decide_False by (intros []; congruence). destruct (od_get rel acc) eqn:E; simpl; rewrite ?E; done.
  - rewrite od_get_set_ne by done. rewrite decide_False by (intros []; congruence). done.
Qed.

Lemma add_files_other wid acc files rel wid' : wid' <> wid -> file_at (add_files wid acc files) rel wid' = file_at acc rel wid'.
Proof.
  intros Hne. unfold add_files. revert acc. induction files as [|[r c] files IH]; intros acc; simpl; [done|].
  rewrite IH, file_at_set. by rewrite decide_False by (intros []; congruence).
Qed.

Lemma add_files_absent wid acc files rel wid' :
  rel ∉ map fst files -> file_at (add_files wid acc files) rel wid' = file_at acc rel wid'.
Proof.
  unfold add_files. revert acc. induction files as [|[r c] files IH]; intros acc; simpl; [done|]. intros [Hr Hn]%not_elem_of_cons.
  rewrite IH, file_at_set by done. by rewrite decide_False by (intros []; congruence).
Qed.

Lemma add_files_self wid acc files rel c :
  NoDup (map fst files) -> (rel, c) ∈ files -> file_at (add_files wid acc files) rel wid = Some c.
Proof.
  unfold add_files. revert acc. induction files as [|[r x] files IH]; intros acc; simpl; [intros _ H; by apply not_elem_of_nil in H|].
  intros [Hr Hnd]%NoDup_cons [[= -> ->]|Hin]%elem_of_cons; [|by apply IH].
  pose proof (add_files_absent wid (od_set r (od_set wid x (od_get_default r [] acc)) acc) files r wid Hr) as H.
  unfold add_files in H. rewrite H, file_at_set. by rewrite decide_True.
Qed.

Lemma files_by_name_spec workers wid out rel c :
  od_wf workers -> od_get wid workers = Some out -> NoDup (map fst (files_of out)) -> (rel, c) ∈ files_of out ->
  file_at (files_by_name workers) rel wid = Some c.
Proof.
  unfold files_by_name. change (fold_left _ workers []) with (fold_left (fun acc '(wid, out) => add_files wid acc (files_of out)) workers []).
  generalize ([] : odict (odict string)). intros acc Hwf Hget Hnd Hin. revert acc.
  induction workers as [|[k o] workers IH]; intros acc; simpl in *; [done|].
  unfold od_wf in Hwf. simpl in Hwf. apply NoDup_cons in Hwf as [Hk Hwf].
  destruct (String.eqb_spec wid k) as [->|Hne].
  - injection Hget as ->. pose proof (add_files_self k acc _ _ _ Hnd Hin) as Ha. revert Ha. generalize (add_files k acc (files_of out)).
    clear -Hk. induction workers as [|[k' o'] workers IH]; intros acc Ha; simpl in *; [done|]. apply not_elem_of_cons in Hk as [Hkk Hk].
    apply IH; [done|]. by rewrite add_files_other.
  - by apply IH.
Qed.

Lemma distinct_path_inj rel wid wid' : distinct_path rel wid = distinct_path rel wid' -> wid = wid'.
Proof.
  unfold distinct_path, distinct_name. intros H. do 3 apply (inj (String.append _)) in H. by eapply str_app_inv_tail.
Qed.

Definition write_all (l : list (string * string)) (d : gmap string string) : gmap string string :=
  fold_left (fun d '(p, c) => <[p := c]> d) l d.

Lemma write_all_absent l d p : p ∉ map fst l -> write_all l d !! p = d !! p.
Proof.
  unfold write_all. revert d. induction l as [|[q c] l IH]; intros d; simpl; [done|]. intros [Hq Hn]%not_elem_of_cons.
  rewrite IH by done. by rewrite lookup_insert_ne.
Qed.

Lemma write_all_lookup l d p c : NoDup (map fst l) -> (p, c) ∈ l -> write_all l d !! p = Some c.
Proof.
  revert d. induction l as [|[q x] l IH]; intros d; simpl; [intros _ H; by apply not_elem_of_nil in H|].
  intros [Hq Hnd]%NoDup_cons [[= -> ->]|Hin]%elem_of_cons; [|by apply IH].
  change (write_all l (<[q := x]> d) !! q = Some x). rewrite write_all_absent by done. apply lookup_insert_eq.
Qed.

Section merger.
Context {T : Type} (ops : tensor_ops T) (parse_float : string -> option float).
Context (torch_load : string -> res (tvalue (T := T))) (torch_save : tvalue (T := T) -> res string).
Context (npz_load safetensors_load : string -> res (odict T)) (npz_save safetensors_save : odict T -> res string).
Context (json_load : string -> res json) (json_dump : json -> res string).
Context (npy_load : string -> res T) (npy_concatenate : list T -> res T) (npy_save : T -> res string).

#[local] Abbreviation average := (averaged ops parse_float torch_load torch_save npz_load safetensors_load npz_save safetensors_save
  json_load json_dump npy_load npy_concatenate npy_save).
#[local] Abbreviation merge := (merge_worker_ml_outputs ops parse_float torch_load torch_save npz_load safetensors_load npz_save
  safetensors_save json_load json_dump npy_load npy_concatenate npy_save).
#[local] Abbreviation merge_one := (merge_file ops parse_float torch_load torch_save npz_load safetensors_load npz_save
  safetensors_save json_load json_dump npy_load npy_concatenate npy_save).

(** Where the copy of a worker's file goes. *)
Definition copy_path (rel wid : string) (w_files : odict string) : string :=
  match w_files with [_] => rel | _ => distinct_path rel wid end.

(** What one path writes. *)
Definition outputs (weights : odict float) (rel : string) (w_files : odict string) : list (string * string) :=
  match average rel (loaded_files weights w_files) with
  | Some c => [(rel, c)]
  | None => map (fun '(wid, c) => (copy_path rel wid w_files, c)) w_files
  end.

Lemma merge_one_dest weights rel w_files s :
  ms_dest (merge_one weights rel w_files s) = write_all (outputs weights rel w_files) (ms_dest s).
Proof.
  unfold merge_file, outputs. destruct (average _ _) as [c|]; [done|]. unfold copy_files, copy_path.
  destruct w_files as [|[w c] [|p l]]; [done|done|]. set (w_files := (w, c) :: p :: l). clearbody w_files. unfold write_all.
  revert s. induction w_files as [|[w' c'] w_files IH]; intros s; simpl; [done|]. by rewrite IH.
Qed.

Definition all_outputs (weighting : worker_weighting) (workers : odict worker_output) : list (string * string) :=
  concat (map (fun '(rel, w_files) => outputs (_normalize_weights (od_keys workers) weighting) rel w_files) (files_by_name workers)).

Lemma merge_dest workers weighting dest :
  workers <> [] -> ms_dest (merge workers weighting dest) = write_all (all_outputs weighting workers) dest.
Proof.
  intros Hne. unfold merge_worker_ml_outputs, all_outputs. destruct workers as [|w0 ws]; [done|].
  set (workers := w0 :: ws). set (weights := _normalize_weights _ _). generalize (files_by_name workers). intros l.
  change dest with (ms_dest {| ms_dest := dest; ms_results := [] |}) at 2.
  generalize {| ms_dest := dest; ms_results := [] |}. induction l as [|[rel wf] l IH]; intros s; simpl; [done|].
  rewrite IH, merge_one_dest. unfold write_all. by rewrite fold_left_app.
Qed.

(** Merging loses no file: when no two results are written to the same path,
    every file of every worker is in the destination afterwards -- averaged
    into one file of its name if its format was understood, and otherwise as it
    is, under its own name if it was the only one and under a name with the
    worker's if not.  The copies of one path never collide with each other. *)
Theorem merged_outputs_complete workers weighting dest wid out rel c :
  od_wf workers -> od_get wid workers = Some out -> NoDup (map fst (files_of out)) -> (rel, c) ∈ files_of out ->
  NoDup (map fst (all_outputs weighting workers)) ->
  (exists w_files, od_get rel (files_by_name workers) = Some w_files /\ od_get wid w_files = Some c
     /\ match average rel (loaded_files (_normalize_weights (od_keys workers) weighting) w_files) with
        | Some a => ms_dest (merge workers weighting dest) !! rel = Some a
        | None => ms_dest (merge workers weighting dest) !! copy_path rel wid w_files = Some c
        end)
  /\ (forall w1 w2, distinct_path rel w1 = distinct_path rel w2 -> w1 = w2).
Proof.
  intros Hwf Hget Hnd Hin Hall. split; [|apply distinct_path_inj].
  pose proof (files_by_name_spec _ _ _ _ _ Hwf Hget Hnd Hin) as Hf. unfold file_at in Hf.
  destruct (od_get rel (files_by_name workers)) as [w_files|] eqn:Erel; [|done]. simpl in Hf. exists w_files. split_and!; [done|done|].
  assert (workers <> []) as Hne by (by intros ->).
  assert (forall p x, (p, x) ∈ outputs (_normalize_weights (od_keys workers) weighting) rel w_files ->
    ms_dest (merge workers weighting dest) !! p = Some x) as Hout.
  { intros p x Hx. rewrite merge_dest by done. apply write_all_lookup; [done|]. unfold all_outputs.
    apply list_elem_of_In, in_concat. eexists. split; [|by apply list_elem_of_In].
    apply in_map_iff. exists (rel, w_files). split; [done|]. apply list_elem_of_In. by apply od_get_Some_elem. }
  unfold outputs in Hout. destruct (average _ _) as [a|]; [by apply Hout; left|]. apply Hout.
  apply list_elem_of_In, in_map_iff. exists (wid, c). split; [done|]. apply list_elem_of_In. by apply od_get_Some_elem.
Qed.
End merger.

(** ** Concrete arrays *)

(** Vectors of doubles; a vector of one element fits every length. *)
Definition vec_zip (f : float -> float -> float) (x y : list float) : res (list float) :=
  if Nat.eqb (length x) (length y) then Ok (zip_with f x y)
  else match y with [b] => Ok (map (fun a => f a b) x) | _ => Err (ValueError "operands could not be broadcast together") end.

Definition vec_ops : tensor_ops (list float) :=
  {| t_finite := forallb f_isfinite; t_floating := fun _ => true; t_zeros := map (fun _ => f0); t_sub := vec_zip fsub;
     t_scale := fun w => map (fmul w); t_add := vec_zip fadd; t_astype := fun _ y => y;
     t_item := fun x => match x with [a] => match f_trunc a with Some n => Ok n | None => Err TypeError end | _ => Err TypeError end;
     t_of_int := fun _ n => [f_of_Z n] |}.

Definition nan_vec : list float := [S754_nan].

(** Two rounds of three workers, one of them corrupt: two thirds of the way to
    one worker's answer and a third to the other's, by sample counts. *)
Lemma poisoned_worker_witness :
  let part i n := {| pt_shard_index := i; pt_worker_id := "w"; pt_start_ratio := f0; pt_end_ratio := f1; pt_sample_count := n;
                     pt_recovered_from_failure := false |} in
  let train (_ : Z) (cp : odict (list float)) p :=
    if pt_shard_index p =? 1 then [("W"%string, nan_vec)] else map (fun '(k, v) => (k, map (fadd (f_of_Z (pt_shard_index p))) v)) cp in
  let init := [("W"%string, [f_of_Z 1; f_of_Z 2])] in
  coordinate_synchronization_rounds vec_ops train ([part 0 10] ++ part 1 99 :: [part 4 30]) 2 init
  = coordinate_synchronization_rounds vec_ops train ([part 0 10] ++ [part 4 30]) 2 init
  /\ coordinate_synchronization_rounds vec_ops train ([part 0 10] ++ [part 4 30]) 2 init = Ok [("W"%string, [f_of_Z 7; f_of_Z 8])].
Proof.
  cbv zeta. split; [|vm_compute; reflexivity].
  apply (poisoned_worker_harmless vec_ops). intros r cp. eexists _, _. split; [left|reflexivity].
Defined.

Lemma kept_checkpoint_witness :
  let evaluate (cp : odict float) := od_get_default "W" f0 cp in
  let workers := [[("W"%string, f_of_Z 5)]; [("W"%string, f_of_Z 3)]] in
  let r m := validate_against_baseline evaluate [("W"%string, f_of_Z m)] [] workers in
  vr_selected_checkpoint_type (r 2) = CHOOSE_MERGED /\ vr_selected_checkpoint_type (r 4) = CHOOSE_BEST_WORKER_FALLBACK
  /\ (vr_selected_checkpoint_type (r 2) = CHOOSE_MERGED <-> fle (f_of_Z 2) (fadd (vr_best_worker_val_loss (r 2)) (flit 1 9)) = true).
Proof.
  cbv zeta. split_and!; [vm_compute; reflexivity|vm_compute; reflexivity|].
  apply (kept_checkpoint_not_worse (fun cp : odict float => od_get_default "W" f0 cp) [("W"%string, f_of_Z 2)] []
    [[("W"%string, f_of_Z 5)]; [("W"%string, f_of_Z 3)]]).
  - discriminate.
  - vm_compute. discriminate.
  - repeat constructor; vm_compute; discriminate.
  - vm_compute. discriminate.
Defined.

(** A merged checkpoint that evaluates to NaN is kept. *)
Example nan_checkpoint_kept :
  vr_selected_checkpoint_type (validate_against_baseline (fun cp : odict float => od_get_default "W" f0 cp) [("W"%string, S754_nan)] []
    [[("W"%string, f_of_Z 3)]]) = CHOOSE_MERGED.
Proof. vm_compute. reflexivity. Qed.

(** A checkpoint worse than the baseline is kept as well, if the workers' are
    worse still: the baseline is never chosen. *)
Example baseline_never_kept :
  let r := validate_against_baseline (fun cp : odict float => od_get_default "W" f0 cp) [("W"%string, f_of_Z 9)] [("W"%string, f_of_Z 1)]
    [[("W"%string, f_of_Z 9)]] in
  vr_selected_checkpoint_type r = CHOOSE_MERGED /\ fgt (vr_merged_val_loss r) (vr_baseline_val_loss r) = true.
Proof. split; vm_compute; reflexivity. Qed.

(** A flag becomes a number in an averaged document. *)
Example flag_averaged :
  _fedavg_json_dict (fun _ => None) (JObj [("ok"%string, JBool true)]) [JObj [("ok"%string, JBool false)]] [flit 5 1; flit 5 1]
  = Ok (JObj [("ok"%string, JFloat (flit 5 1))]).
Proof. vm_compute. reflexivity. Qed.

(** A value that is no dictionary keeps its weight: the weights of the state
    dictionaries after it shift by one, and the average uses the wrong ones.
    Here the third worker should count twice as much as the second. *)
Example weights_shift :
  let load (s : string) : res (tvalue (T := list float)) :=
    if String.eqb s "list" then Ok (TOther (JList [])) else Ok (TDict [("W"%string, TTensor (if String.eqb s "one" then [f1] else [f_of_Z 5]))]) in
  let save (v : tvalue (T := list float)) :=
    match v with TDict [(_, TTensor [x])] => if feq x (f_of_Z 2) then Ok "2"%string else if feq x f1 then Ok "1"%string else Ok "?"%string | _ => Err TypeError end in
  merge_torch vec_ops load save [("list"%string, f_of_Z 1); ("one"%string, f_of_Z 1); ("five"%string, f_of_Z 2)] = Ok "?"%string
  /\ merge_torch vec_ops load save [("one"%string, f_of_Z 3); ("five"%string, f_of_Z 1)] = Ok "2"%string.
Proof. split; vm_compute; reflexivity. Qed.

Lemma merged_outputs_witness :
  let workers := [("w1", OutDir [("a/x.wav", "one"); ("y.npy", "feat")]); ("w2", OutDir [("a/x.wav", "two")])]%string in
  let fail {A B} : A -> res B := fun _ => Err TypeError in
  let dest := ms_dest (merge_worker_ml_outputs vec_ops (fun _ => None) fail fail fail fail fail fail fail fail fail fail fail workers NO_WEIGHTS ∅) in
  dest !! "a/x_w1.wav"%string = Some "one"%string /\ dest !! "a/x_w2.wav"%string = Some "two"%string.
Proof.
  cbv zeta. set (workers := [_; _]). split; [|vm_compute; reflexivity].
  assert (NoDup (map fst (all_outputs vec_ops (fun _ => None) (fun _ => Err TypeError) (fun _ => Err TypeError) (fun _ => Err TypeError)
    (fun _ => Err TypeError) (fun _ => Err TypeError) (fun _ => Err TypeError) (fun _ => Err TypeError) (fun _ => Err TypeError)
    (fun _ => Err TypeError) (fun _ => Err TypeError) (fun _ => Err TypeError) NO_WEIGHTS workers))) as Hnd.
  { apply (bool_decide_unpack _). vm_compute. exact I. }
  destruct (merged_outputs_complete vec_ops (fun _ => None) (fun _ => Err TypeError) (fun _ => Err TypeError) (fun _ => Err TypeError)
    (fun _ => Err TypeError) (fun _ => Err TypeError) (fun _ => Err TypeError) (fun _ => Err TypeError) (fun _ => Err TypeError)
    (fun _ => Err TypeError) (fun _ => Err TypeError) (fun _ => Err TypeError) workers NO_WEIGHTS ∅ "w1"
    (OutDir [("a/x.wav", "one"); ("y.npy", "feat")]%string) "a/x.wav" "one") as [(wf & Hrel & _ & H) _].
  - apply (bool_decide_unpack _). vm_compute. exact I.
  - reflexivity.
  - apply (bool_decide_unpack _). vm_compute. exact I.
  - left.
  - exact Hnd.
  - vm_compute in Hrel. injection Hrel as <-. exact H.
Defined.

(** Two copies with the same stem in different directories are one entry of the
    returned dictionary, and a worker whose own file is called like another's
    copy overwrites it. *)
Example results_collide :
  let fail {A B} : A -> res B := fun _ => Err TypeError in
  let merge workers := merge_worker_ml_outputs vec_ops (fun _ => None) fail fail fail fail fail fail fail fail fail fail fail workers NO_WEIGHTS ∅ in
  map fst (ms_results (merge [("w1", OutDir [("a/x.wav", "1"); ("b/x.wav", "2")]); ("w2", OutDir [("a/x.wav", "3"); ("b/x.wav", "4")])]%string))
    = ["x_w1.wav"; "x_w2.wav"]%string
  /\ ms_dest (merge [("w1", OutDir [("x.wav", "1")]); ("w2", OutDir [("x.wav", "2")]); ("w3", OutDir [("x_w1.wav", "3")])]%string)
       !! "x_w1.wav"%string = Some "3"%string.
Proof. split; vm_compute; reflexivity. Qed.
