(* ===== verification/MLAdapters.v ===== *)
(** * Planning the workloads of a request ([adapters/base.py], [adapters/ml_training], [adapters/pytorch_ddp])

    An adapter turns a request, a dictionary, into workload specifications with
    an execution specification each.  Files that exist under a path of the
    request are hashed and handed to the asset manager on the way: [planning] is
    the sequence of these uploads with the result.  The machine the adapter runs
    on is a record of arguments, [host].  A path is a string (an integer, which
    Python takes for a file descriptor, is refused here).  The workers of a
    request stand beside its values, [None] for one the adapter knows nothing of.
    [WorkloadSpec] ignores fields it does not declare, among them the
    [pinned_worker_id] some adapters pass. *)
From Stdlib Require Import SpecFloat.
From S2P Require Export MLMerge SubmitJob JobGraph Sha256.

(** ** Requests *)

Record app_request := { rq_values : odict json; rq_active_workers : list ml_worker }.

(** [d.get(k)] and [d.get(k, dflt)] *)
Definition get (k : string) (d : odict json) : json := od_get_default k JNull d.

(** [a or b] *)
Definition json_or (a b : json) : json := if json_truthy a then a else b.

(** [int(x)] *)
Definition json_int (j : json) : res Z :=
  match j with
  | JInt n => Ok n
  | JBool b => Ok (if b then 1 else 0)
  | JFloat f => match f_trunc f with Some n => Ok n | None => Err (ValueError "cannot convert float to integer") end
  | JStr s => match py_int s with Some n => Ok n | None => Err (ValueError "invalid literal for int()") end
  | _ => Err TypeError
  end.

Definition get_int (k : string) (dflt : Z) (d : odict json) : res Z := json_int (od_get_default k (JInt dflt) d).
Definition get_bool (k : string) (dflt : bool) (d : odict json) : bool := json_truthy (od_get_default k (JBool dflt) d).

(** [float(n)] *)
Definition float_of_int (n : Z) : res float :=
  if f_isfinite (f_of_Z n) then Ok (f_of_Z n) else Err (ValueError "int too large to convert to float").

(** [list(x)] *)
Definition json_items (j : json) : res (list json) :=
  match j with
  | JList l => Ok l
  | JStr s => Ok (map (fun c => JStr (String c "")) (list_ascii_of_string s))
  | JObj o => Ok (map (fun kv => JStr (fst kv)) o)
  | _ => Err TypeError
  end.

(** A value given to a field of type [str]. *)
Definition json_text (j : json) : res string := match j with JStr s => Ok s | _ => Err (ValueError "Input should be a valid string") end.

(** ** The machine *)

Record host := {
  h_read_file : string -> option string;              (** the content of a regular file *)
  h_upload : option (string -> string -> res unit);   (** the asset manager *)
  h_uuid : string;                                    (** [uuid.uuid4().hex] *)
  h_pythonpath : option string;
  h_repr : json -> string;                            (** [str] of a float, a list or a dictionary *)
  h_encoded_size : odict json -> Z;                   (** [len(json.dumps(v, default=str))] *)
  h_parse_float : string -> option float;             (** [float(s)] *)
  h_gethostbyname : string -> option string;
  h_if_addrs : odict (list (bool * string));          (** [psutil.net_if_addrs]: is it IPv4, and the address *)
  h_if_up : string -> bool;                           (** [psutil.net_if_stats] knows the interface and it is up *)
}.

(** Uploads so far, and the result. *)
Definition planning (A : Type) : Type := list (string * string) * res A.
Definition pure {A} (r : res A) : planning A := ([], r).
Definition and_then {A B} (m : planning A) (f : A -> planning B) : planning B :=
  match m with
  | (t, Ok a) => let '(t', r) := f a in (t ++ t', r)
  | (t, Err e) => (t, Err e)
  end.
Notation "'let^' x ':=' m 'in' k" := (and_then m (fun x => k)) (at level 10, x pattern, m at level 100, k at level 200) : aidar_scope.

Section planning.
Context (h : host).

Definition py_str (j : json) : string := json_str (h_repr h) j.

Definition upload (path digest : string) : planning unit :=
  match h_upload h with
  | None => pure (Ok tt)
  | Some up => ([(path, digest)], up path digest)
  end.

(** The digest of the file under one path of the request, if there is one. *)
Definition ingest_path (path : json) : planning (option string) :=
  if json_truthy path then
    match path with
    | JStr p =>
        match h_read_file h p with
        | Some content => let digest := sha256 content in let^ _ := upload p digest in pure (Ok (Some digest))
        | None => pure (Ok None)
        end
    | _ => pure (Err TypeError)
    end
  else pure (Ok None).

Definition add_hash (d : option string) (hashes : gset string) : gset string := match d with Some d => {[d]} ∪ hashes | None => hashes end.
Definition hash_or (d : option string) (dflt : json) : json := match d with Some d => JStr d | None => dflt end.

(** ** Specifications *)

Definition GIB_bytes : Z := 1024 * 1024 * 1024.
Definition MAX_WORKLOAD_PARAMETERS_BYTES : Z := 65536.

(** What the adapters set of a [WorkloadSpec]; the rest has its default. *)
Record workload_args := {
  wa_workload_id : string; wa_job_id : option string; wa_task_type : string; wa_input_asset_hashes : gset string;
  wa_min_cpu_cores : Z; wa_min_ram_bytes : Z; wa_requires_gpu : bool; wa_min_vram_bytes : Z;
  wa_estimated_duration_seconds : float; wa_parameters : odict json;
}.

Definition spec_of_args (a : workload_args) (es : option execution_spec) : workload_spec :=
  {| ws_workload_id := wa_workload_id a; ws_job_id := wa_job_id a; ws_task_type := wa_task_type a;
     ws_input_asset_hashes := wa_input_asset_hashes a; ws_min_cpu_cores := wa_min_cpu_cores a; ws_min_ram_bytes := wa_min_ram_bytes a;
     ws_requires_gpu := wa_requires_gpu a; ws_min_vram_bytes := wa_min_vram_bytes a;
     ws_estimated_duration_seconds := wa_estimated_duration_seconds a; ws_priority := 100; ws_deadline_at_utc := None;
     ws_required_gpu_vendor := None; ws_required_gpu_model := None; ws_min_compute_capability := None;
     ws_required_driver_version := None; ws_required_runtime_compatibility := None; ws_required_worker_tags := [];
     ws_preferred_worker_tags := []; ws_affinity_group_id := None; ws_affinity_mode := AF_NONE; ws_affinity_tag_key := None;
     ws_affinity_hard := true; ws_max_cost_per_hour := None; ws_depends_on := []; ws_parameters := wa_parameters a;
     ws_execution_spec := es |}.

(** The bounds Pydantic checks on these fields, and the size of the parameters. *)
Definition args_in_bounds (a : workload_args) : bool :=
  str_truthy (wa_workload_id a) && (str_len (wa_workload_id a) <=? 128)
  && match wa_job_id a with Some j => str_len j <=? 128 | None => true end
  && (1 <=? wa_min_cpu_cores a) && (1 <=? wa_min_ram_bytes a) && (0 <=? wa_min_vram_bytes a)
  && fgt (wa_estimated_duration_seconds a) f0
  && (h_encoded_size h (wa_parameters a) <=? MAX_WORKLOAD_PARAMETERS_BYTES).

(** [ExecutionSpec(command=program, ...)]: either of [command] and [executable]
    fills in the other; a timeout is positive. *)
Definition new_execution_spec (program : string) (args : list string) (env : odict string) (timeout : option float) : res execution_spec :=
  if match timeout with Some t => fgt t f0 | None => true end
  then Ok {| es_executable := program; es_args := args; es_env := env; es_cwd := None; es_timeout_seconds := timeout; es_command := Some program |}
  else Err (ValueError "Input should be greater than 0").

(** [spec = WorkloadSpec(...); spec.execution_spec = self.build_execution_spec(spec)] *)
Definition build_workload (a : workload_args) (build : workload_spec -> res execution_spec) : res workload_spec :=
  if args_in_bounds a then let! es := build (spec_of_args a None) in Ok (spec_of_args a (Some es))
  else Err (ValueError "WorkloadSpec").

(** [for i, x in enumerate(l): specs.append(build(i, x))] *)
Fixpoint build_each {A} (build : Z -> A -> res workload_spec) (i : Z) (l : list A) : res (list workload_spec) :=
  match l with
  | [] => Ok []
  | x :: l => let! s := build i x in let! rest := build_each build (i + 1) l in Ok (s :: rest)
  end.

(** [OutputVerificationPolicy(expected_output_count=n)] *)
Definition output_policy (n : option Z) : res (option Z) :=
  match n with
  | Some n => if 1 <=? n then Ok (Some n) else Err (ValueError "Input should be greater than or equal to 1")
  | None => Ok None
  end.
End planning.

(** ** The contract ([ApplicationAdapter]) *)

Class ApplicationAdapter := {
  validate : app_request -> bool;
  evaluate_request : app_request -> planning (list workload_spec);
  build_execution_spec : workload_spec -> res execution_spec;
  describe_expected_outputs : workload_spec -> res (option Z);
}.

(** Inherited by every adapter: the workloads with the shape they have. *)
Definition shape_of (workloads : list workload_spec) : execution_shape :=
  if existsb (fun w => negb (bool_decide (ws_depends_on w = []))) workloads then PIPELINE
  else if 1 <? Z.of_nat (length workloads) then TASK_SPLIT
  else SINGLE_MACHINE.

Definition describe_request `{ApplicationAdapter} (recursion_limit : nat) (r : app_request) : planning execution_description :=
  let^ workloads := evaluate_request r in
  pure (validate_plan recursion_limit {| ed_execution_shape := shape_of workloads; ed_workloads := workloads; ed_required_worker_count := 1 |}).

(** ** What the training adapters share *)

Section training.
Context (h : host).

(** The path of a script or a dataset. *)
Definition named_path (k1 k2 : string) (dflt : json) (d : odict json) : json := json_or (json_or (get k1 d) (get k2 d)) dflt.

(** [f"inputs/{hash}" if hash else str(path)] *)
Definition input_arg (digest path : json) : string := if json_truthy digest then ("inputs/" +:+ py_str h digest)%string else py_str h path.

(** [f".{os.pathsep}{os.environ.get('PYTHONPATH', '')}".rstrip(os.pathsep)] *)
Definition python_path : string := rstrip_char ":" (".:" +:+ default "" (h_pythonpath h))%string.

(** Threads and memory of a worker: [logical or fallback or 4] processors, and
    less than 3.5 GiB free. *)
Definition worker_tuning (fallback : worker_resource_profile -> Z) (w : ml_worker) : Z * string :=
  match profile_of w with
  | None => (4, "0"%string)
  | Some p =>
      let cpus := if rp_cpu_cores_logical p =? 0 then (if fallback p =? 0 then 4 else fallback p) else rp_cpu_cores_logical p in
      (optimal_threads cpus, if flt (fdivZ (rp_ram_available_bytes p) GIB_bytes) (flit 35 1) then "1"%string else "0"%string)
  end.

(** A worker with its score and its slice. *)
Definition shards_of (ws : list ml_worker) : list (ml_worker * (float * (float * float))) :=
  zip ws (zip (map score_of ws) (ratios (worker_shares ws))).

(** The environment the hook of the worker reads ([sitecustomize_hook.py]). *)
Definition shard_environment (p : odict json) : odict string :=
  [("AIDAR_SHARD_START_RATIO", py_str h (od_get_default "start_ratio" (JStr "0.0") p));
   ("AIDAR_SHARD_END_RATIO", py_str h (od_get_default "end_ratio" (JStr "1.0") p));
   ("AIDAR_OPTIMAL_THREADS", py_str h (od_get_default "optimal_threads" (JStr "4") p));
   ("AIDAR_LOW_RAM_MODE", py_str h (od_get_default "low_ram_mode" (JStr "0") p));
   ("AIDAR_WORKER_ID", py_str h (od_get_default "worker_id" (JStr "") p));
   ("PYTHONPATH", python_path)]%string.
End training.

(** ** [MLTrainingAdapter] *)

Section ml_training.
Context (h : host).

Definition ml_validate (r : app_request) : bool :=
  od_mem "script_path" (rq_values r) || od_mem "script" (rq_values r) || od_mem "dataset" (rq_values r) || od_mem "dataset_path" (rq_values r).

Definition ml_build_execution_spec (workload : workload_spec) : res execution_spec :=
  let p := ws_parameters workload in
  let! output_path := json_text (od_get_default "output" (JStr "./outputs/model.pt") p) in
  new_execution_spec "python"
    [input_arg h (get "script_hash" p) (json_or (get "script" p) (JStr "train.py"));
     "--dataset"; input_arg h (get "dataset_hash" p) (json_or (get "dataset" p) (JStr "dataset"));
     "--epochs"; py_str h (od_get_default "epochs" (JInt 1) p);
     "--batch-size"; py_str h (od_get_default "batch_size" (JInt 32) p);
     "--output"; output_path]%string
    (("AIDAR_ADAPTER", "ml_training") :: shard_environment h p)%string
    (Some (fmul (ws_estimated_duration_seconds workload) (f_of_Z 3))).

Definition ml_describe_expected_outputs (_ : workload_spec) : res (option Z) := output_policy (Some 1).

(** The workers that can run Python; the adapter refuses only what it knows
    about.  The capabilities of a [WorkerInfo] are a record, no list, so they
    refuse nobody. *)
Definition is_capable (w : ml_worker) : bool :=
  match w with
  | None => true
  | Some w =>
      negb (bool_decide (wi_status w = WS_OFFLINE \/ wi_status w = WS_DRAINING))
      && wi_can_execute_workloads w
      && negb (bool_decide (od_get "cap:python" (wi_tags w) = Some "false"%string)
               && bool_decide (od_get "cap:pytorch" (wi_tags w) = Some "false"%string))
  end.

Definition capable_workers (ws : list ml_worker) : list ml_worker :=
  match List.filter is_capable ws with [] => [None] | l => l end.

(** One turn of the loop of [plan_shards]. *)
Definition plan_shard (job_id : option string) (hashes : gset string) (requires_gpu : bool) (script dataset script_hash dataset_hash : json)
    (epochs batch_size num_workers : Z) (i : Z) (x : ml_worker * (float * (float * float))) : res workload_spec :=
  let '(w, (score, (start_ratio, end_ratio))) := x in
  let '(threads, low_ram_mode) := worker_tuning rp_cpu_cores_total w in
  let! seconds := float_of_int epochs in
  build_workload h
    {| wa_workload_id := (match job_id with Some j => j | None => "None" end +:+ "-chunk-" +:+ str_of_Z i)%string; wa_job_id := job_id;
       wa_task_type := "ml_training"; wa_input_asset_hashes := hashes; wa_min_cpu_cores := threads; wa_min_ram_bytes := 4 * GIB_bytes;
       wa_requires_gpu := requires_gpu; wa_min_vram_bytes := 0; wa_estimated_duration_seconds := fmul seconds (f_of_Z 30);
       wa_parameters :=
         [("script", script); ("dataset", dataset); ("script_hash", script_hash); ("dataset_hash", dataset_hash); ("epochs", JInt epochs);
          ("batch_size", JInt batch_size); ("shard_index", JInt i); ("total_shards", JInt num_workers); ("start_ratio", JFloat start_ratio);
          ("end_ratio", JFloat end_ratio); ("throughput_score", JFloat score); ("optimal_threads", JInt threads);
          ("low_ram_mode", JStr low_ram_mode); ("worker_id", JStr (worker_name i w))]%string |}
    ml_build_execution_spec.

(** [job_spec] is a request or a specification. *)
Definition plan_shards (job_spec : odict json + workload_spec) (active_workers : list ml_worker) : planning (list workload_spec) :=
  let '(p, requires_gpu, job_id, hashes) :=
    match job_spec with
    | inr s => (ws_parameters s, ws_requires_gpu s, ws_job_id s, ws_input_asset_hashes s)
    | inl r => (r, get_bool "requires_gpu" false r, Some ("ml-train-" +:+ str_take 16 (h_uuid h))%string, ∅)
    end in
  let script := named_path "script_path" "script" (JStr "train.py") p in
  let dataset := named_path "dataset_path" "dataset" (JStr "dataset") p in
  let^ epochs := pure (get_int "epochs" 1 p) in
  let^ batch_size := pure (get_int "batch_size" 32 p) in
  let^ script_digest := ingest_path h script in
  let^ dataset_digest := ingest_path h dataset in
  let workers := capable_workers active_workers in
  pure (build_each (plan_shard job_id (add_hash dataset_digest (add_hash script_digest hashes)) requires_gpu script dataset
                      (hash_or script_digest (get "script_hash" p)) (hash_or dataset_digest (get "dataset_hash" p))
                      epochs batch_size (Z.of_nat (length workers))) 0 (shards_of workers)).

Definition ml_evaluate_request (r : app_request) (active_workers : list ml_worker) : planning (list workload_spec) :=
  let p := rq_values r in
  let workers := match active_workers with [] => rq_active_workers r | ws => ws end in
  let^ worker_count := pure (get_int "worker_count" 1 p) in
  if negb (bool_decide (workers = [])) || (1 <? worker_count)
  then plan_shards (inl p) (match workers with [] => repeat None (Z.to_nat worker_count) | ws => ws end)
  else
    let script := named_path "script_path" "script" (JStr "train.py") p in
    let dataset := named_path "dataset_path" "dataset" (JStr "dataset") p in
    let^ epochs := pure (get_int "epochs" 1 p) in
    let^ batch_size := pure (get_int "batch_size" 32 p) in
    let requires_gpu := get_bool "requires_gpu" false p in
    let^ script_digest := ingest_path h script in
    let^ dataset_digest := ingest_path h dataset in
    let job_id := ("ml-train-" +:+ str_take 16 (h_uuid h))%string in
    let^ seconds := pure (float_of_int epochs) in
    let^ spec := pure (build_workload h
      {| wa_workload_id := (job_id +:+ "-chunk-0")%string; wa_job_id := Some job_id; wa_task_type := "ml_training";
         wa_input_asset_hashes := add_hash dataset_digest (add_hash script_digest ∅); wa_min_cpu_cores := 4; wa_min_ram_bytes := 8 * GIB_bytes;
         wa_requires_gpu := requires_gpu; wa_min_vram_bytes := if requires_gpu then 4 * GIB_bytes else 0;
         wa_estimated_duration_seconds := fmul seconds (f_of_Z 30);
         wa_parameters :=
           [("script", script); ("dataset", dataset); ("script_hash", hash_or script_digest JNull);
            ("dataset_hash", hash_or dataset_digest JNull); ("epochs", JInt epochs); ("batch_size", JInt batch_size);
            ("shard_index", JInt 0); ("total_shards", JInt 1); ("start_ratio", JFloat f0); ("end_ratio", JFloat f1);
            ("optimal_threads", JInt 4); ("low_ram_mode", JStr "0"); ("worker_id", JStr "worker-0")]%string |}
      ml_build_execution_spec) in
    pure (Ok [spec]).
End ml_training.

#[export] Instance ml_training_adapter (h : host) : ApplicationAdapter := {|
  validate := ml_validate;
  evaluate_request r := ml_evaluate_request h r [];
  build_execution_spec := ml_build_execution_spec h;
  describe_expected_outputs := ml_describe_expected_outputs;
|}.

(** ** [PyTorchDDPAdapter] *)

(** [s.replace(needle, "")] for a needle that is not empty, with the length of
    the text as fuel. *)
Fixpoint str_remove_n (fuel : nat) (needle s : string) : string :=
  match fuel, s with
  | S fuel, String c rest =>
      if starts_with needle s then str_remove_n fuel needle (str_drop (String.length needle) s) else String c (str_remove_n fuel needle rest)
  | _, _ => s
  end.
Definition str_remove (needle s : string) : string := str_remove_n (String.length s) needle s.

Section network.
Context (h : host).

Definition VIRTUAL_INTERFACES : list string := ["wsl"; "hyper-v"; "vethernet"; "loopback"; "virtualbox"; "vmware"]%string.
Definition is_virtual (ifname : string) : bool := existsb (fun v => str_contains v (str_lower ifname)) VIRTUAL_INTERFACES.

Definition octets (address : string) : list string := take 3 (split_on "." address).

(** The first interface, with one address of it, that satisfies a condition. *)
Definition first_interface (p : string -> bool -> string -> bool) : option string :=
  option_map fst (List.find (fun '(ifname, addrs) => existsb (fun '(is_ipv4, address) => p ifname is_ipv4 address) addrs) (h_if_addrs h)).

Definition target_name (host : string) : string :=
  let s := str_remove "https://" (str_remove "http://" host) in
  match split_once ":" s with Some (a, _) => a | None => s end.

(** An unresolvable host, or a value that is no string, is ignored. *)
Definition detect_lan_network_interface (target_host : json) : option string :=
  let not_local ifname is_ipv4 address := is_ipv4 && negb (starts_with "127." address) in
  let near :=
    match target_host with
    | JStr host =>
        if str_truthy host then
          match h_gethostbyname h (target_name host) with
          | Some ip => first_interface (fun ifname is_ipv4 address => negb (is_virtual ifname) && is_ipv4 && bool_decide (octets address = octets ip))
          | None => None
          end
        else None
    | _ => None
    end in
  match near with
  | Some ifname => Some ifname
  | None =>
      match first_interface (fun ifname is_ipv4 address => negb (is_virtual ifname) && h_if_up h ifname && not_local ifname is_ipv4 address) with
      | Some ifname => Some ifname
      | None => first_interface not_local
      end
  end.

(** [detect_lan_network_interface(host) or ""] *)
Definition lan_ifname (target_host : json) : string := default ""%string (detect_lan_network_interface target_host).
End network.

Section ddp.
Context (h : host).

Definition ddp_validate (r : app_request) : bool := od_mem "script_path" (rq_values r) || od_mem "script" (rq_values r).

Definition ddp_build_execution_spec (workload : workload_spec) : res execution_spec :=
  let p := ws_parameters workload in
  let text k dflt := py_str h (od_get_default k dflt p) in
  let lan_ifname := text "gloo_socket_ifname"%string (JStr "") in
  new_execution_spec "python"
    [input_arg h (get "script_hash" p) (od_get_default "script" (JStr "train.py") p);
     "--dataset"; input_arg h (get "dataset_hash" p) (od_get_default "dataset" (JStr "dataset") p);
     "--epochs"; text "epochs" (JInt 1); "--batch-size"; text "batch_size" (JInt 32);
     "--rank"; text "rank" (JInt 0); "--world-size"; text "world_size" (JInt 1)]%string
    ([("RANK", text "rank" (JInt 0)); ("LOCAL_RANK", "0"); ("WORLD_SIZE", text "world_size" (JInt 1));
      ("MASTER_ADDR", text "master_addr" (JStr "127.0.0.1")); ("MASTER_PORT", text "master_port" (JInt 29500));
      ("GLOO_SOCKET_IFNAME", lan_ifname); ("TP_SOCKET_IFNAME", lan_ifname)]%string ++ shard_environment h p)
    (Some (fmul (ws_estimated_duration_seconds workload) (f_of_Z 3))).

Definition ddp_describe_expected_outputs (_ : workload_spec) : res (option Z) := output_policy (Some 1).

(** One turn of the loop over the ranks. *)
Definition ddp_plan_rank (job_id : string) (hashes : gset string) (requires_gpu : bool) (script dataset script_hash dataset_hash master_addr : json)
    (epochs batch_size master_port world_size : Z) (lan : string) (rank : Z) (x : ml_worker * (float * (float * float))) : res workload_spec :=
  let '(w, (score, (start_ratio, end_ratio))) := x in
  let '(threads, low_ram_mode) := worker_tuning (fun _ => 0) w in
  let! seconds := float_of_int epochs in
  build_workload h
    {| wa_workload_id := (job_id +:+ "-rank-" +:+ str_of_Z rank)%string; wa_job_id := Some job_id; wa_task_type := "pytorch_ddp";
       wa_input_asset_hashes := hashes; wa_min_cpu_cores := threads; wa_min_ram_bytes := 4 * GIB_bytes; wa_requires_gpu := requires_gpu;
       wa_min_vram_bytes := 0; wa_estimated_duration_seconds := fmul seconds (f_of_Z 30);
       wa_parameters :=
         [("script", script); ("dataset", json_or dataset (JStr "dataset")); ("script_hash", script_hash); ("dataset_hash", dataset_hash);
          ("rank", JInt rank); ("world_size", JInt world_size); ("master_addr", master_addr); ("master_port", JInt master_port);
          ("gloo_socket_ifname", JStr lan); ("throughput_score", JFloat score); ("start_ratio", JFloat start_ratio);
          ("end_ratio", JFloat end_ratio); ("optimal_threads", JInt threads); ("low_ram_mode", JStr low_ram_mode);
          ("worker_id", JStr (worker_name rank w)); ("epochs", JInt epochs); ("batch_size", JInt batch_size)]%string |}
    ddp_build_execution_spec.

Definition ddp_evaluate_request (r : app_request) (active_workers : list ml_worker) : planning (list workload_spec) :=
  let p := rq_values r in
  let script := named_path "script_path" "script" (JStr "train.py") p in
  let dataset := json_or (get "dataset_path" p) (get "dataset" p) in
  let^ epochs := pure (get_int "epochs" 1 p) in
  let^ batch_size := pure (get_int "batch_size" 32 p) in
  let requires_gpu := get_bool "requires_gpu" false p in
  let master_addr := json_or (get "master_addr" p) (JStr "127.0.0.1") in
  let^ master_port := pure (get_int "master_port" 29500 p) in
  let^ workers := pure (match active_workers, rq_active_workers r with
                        | [], [] => let! n := get_int "worker_count" 1 p in Ok (repeat None (Z.to_nat (Z.max 1 n)))
                        | [], ws => Ok ws
                        | ws, _ => Ok ws
                        end) in
  let^ script_digest := ingest_path h script in
  let^ dataset_digest := ingest_path h dataset in
  pure (build_each (ddp_plan_rank ("ddp-job-" +:+ str_take 16 (h_uuid h))%string (add_hash dataset_digest (add_hash script_digest ∅)) requires_gpu
                      script dataset (hash_or script_digest JNull) (hash_or dataset_digest JNull) master_addr epochs batch_size master_port
                      (Z.of_nat (length workers)) (lan_ifname h master_addr)) 0 (shards_of workers)).
End ddp.

#[export] Instance pytorch_ddp_adapter (h : host) : ApplicationAdapter := {|
  validate := ddp_validate;
  evaluate_request r := ddp_evaluate_request h r [];
  build_execution_spec := ddp_build_execution_spec h;
  describe_expected_outputs := ddp_describe_expected_outputs;
|}.

(** ** The first steps of the lifecycle ([MLLifecycleOrchestrator]) *)

Inductive distribution_strategy := DATA_PARALLEL | MODEL_PARALLEL | FEDERATED_LEARNING | TASK_PARALLEL.
#[export] Instance distribution_strategy_eq_dec : EqDecision distribution_strategy.
Proof. solve_decision. Defined.

Definition strategy_value (s : distribution_strategy) : string :=
  match s with
  | DATA_PARALLEL => "DATA_PARALLEL" | MODEL_PARALLEL => "MODEL_PARALLEL"
  | FEDERATED_LEARNING => "FEDERATED_LEARNING" | TASK_PARALLEL => "TASK_PARALLEL"
  end.

Record workload_detection_result := {
  dr_framework : string; dr_platform : string; dr_is_preprocessing_only : bool; dr_has_distributed_api : bool; dr_raw_command : string;
}.

Definition mentions (words : list string) (cmd : string) : bool := existsb (fun k => str_contains k cmd) words.

Definition platform_of (cmd : string) : string * bool :=
  if mentions ["rvc"] cmd then ("rvc", mentions ["extract_f0"; "slice"; "preprocess"; "hubert"; "rmvpe"; "harvest"] cmd)
  else if mentions ["kohya"; "train_network.py"] cmd then ("kohya", false)
  else if mentions ["comfyui"; "workflow.json"] cmd then ("comfyui", true)
  else if mentions ["voicebox"] cmd then ("voicebox", mentions ["feature_prep"; "preprocess"; "phoneme"; "spectrogram"] cmd)
  else if mentions ["aidars.sdk.ml"; "@distributed_train"] cmd then ("custom_sdk", false)
  else ("generic", false).

Definition framework_of (cmd : string) : string :=
  if mentions ["torch"; "pytorch"] cmd then "pytorch"
  else if mentions ["sklearn"; "scikit"] cmd then "sklearn"
  else if mentions ["onnx"] cmd then "onnx"
  else "custom_python".

Definition DISTRIBUTED_APIS : list string :=
  ["torch.distributed"; "init_process_group"; "torchrun"; "accelerate launch"; "distributeddataparallel"; "ddp"]%string.

Definition detect_workload (command_or_script : string) : workload_detection_result :=
  let cmd := str_lower command_or_script in
  {| dr_framework := framework_of cmd; dr_platform := fst (platform_of cmd); dr_is_preprocessing_only := snd (platform_of cmd);
     dr_has_distributed_api := mentions DISTRIBUTED_APIS cmd; dr_raw_command := command_or_script |}.

Record inspection_result := {
  ir_parameters_count : Z; ir_estimated_ram_mb : float; ir_dataset_format : json; ir_dataset_count : Z; ir_active_workers_count : Z;
  ir_min_worker_free_ram_mb : float; ir_worker_profiles : list worker_resource_profile;
}.

Definition f_infinity : float := S754_infinity false.

(** The least free memory, in MiB. *)
Definition min_free_ram_mb (profiles : list worker_resource_profile) : float :=
  fold_left (fun m p => let free_mb := fdivZ (rp_ram_available_bytes p) (1024 * 1024) in if flt free_mb m then free_mb else m) profiles f_infinity.

Definition inspect_requirements (active_workers : list ml_worker) (req : odict json) : res inspection_result :=
  let! params_count := get_int "parameters_count" 10000000 req in
  let! batch_size := get_int "batch_size" 16 req in
  let! params := float_of_int params_count in
  let! batch := float_of_int batch_size in
  let estimated_ram_mb := fdiv (fmul params (f_of_Z 16)) (f_of_Z (1024 * 1024)) in
  let total := f_round (fadd estimated_ram_mb (fmul batch (f_of_Z 256))) 2 in
  let profiles := omap profile_of active_workers in
  let free := min_free_ram_mb profiles in
  let! dataset_count := get_int "dataset_count" 1000 req in
  Ok {| ir_parameters_count := params_count; ir_estimated_ram_mb := total; ir_dataset_format := od_get_default "dataset_format" (JStr "tensor") req;
        ir_dataset_count := dataset_count; ir_active_workers_count := Z.of_nat (length active_workers);
        ir_min_worker_free_ram_mb := match free with S754_infinity _ => f_of_Z 8192 | _ => free end; ir_worker_profiles := profiles |}.

Definition select_distribution_strategy (detection : workload_detection_result) (inspection : inspection_result) : distribution_strategy :=
  if dr_is_preprocessing_only detection || String.eqb (dr_platform detection) "comfyui" then TASK_PARALLEL
  else if fgt (ir_min_worker_free_ram_mb inspection) f0
          && fgt (ir_estimated_ram_mb inspection) (fmul (flit 65 2) (ir_min_worker_free_ram_mb inspection)) then MODEL_PARALLEL
  else if dr_has_distributed_api detection then DATA_PARALLEL
  else FEDERATED_LEARNING.

(** [{**params, ...}] *)
Definition shard_parameters (params : odict json) (strategy : distribution_strategy) (part : ml_partition) : odict json :=
  od_merge params
    [("execution_paradigm", JStr (strategy_value strategy)); ("worker_id", JStr (pt_worker_id part)); ("shard_index", JInt (pt_shard_index part));
     ("start_ratio", JFloat (pt_start_ratio part)); ("end_ratio", JFloat (pt_end_ratio part)); ("sample_count", JInt (pt_sample_count part))]%string.

(** The specifications have the defaults of [WorkloadSpec] and no execution
    specification. *)
Definition dispatch_to_workers (h : host) (job_id : string) (partitions : list ml_partition) (strategy : distribution_strategy) (params : odict json)
    : res (list workload_spec) :=
  res_all (fun part =>
    let a := {| wa_workload_id := (job_id +:+ "-shard-" +:+ str_of_Z (pt_shard_index part))%string; wa_job_id := Some job_id;
                wa_task_type := "ml_training"; wa_input_asset_hashes := ∅; wa_min_cpu_cores := 1; wa_min_ram_bytes := GIB_bytes;
                wa_requires_gpu := false; wa_min_vram_bytes := 0; wa_estimated_duration_seconds := f_of_Z 10;
                wa_parameters := shard_parameters params strategy part |} in
    if args_in_bounds h a then Ok (spec_of_args a None) else Err (ValueError "WorkloadSpec")) partitions.

Definition enforce_worker_constraints (w : ml_worker) : odict string :=
  let '(cpus, free_ram_gb) :=
    match profile_of w with
    | None => (4, f_of_Z 8)
    | Some p =>
        (if negb (rp_cpu_cores_logical p =? 0) then rp_cpu_cores_logical p
         else if negb (rp_cpu_cores_total p =? 0) then rp_cpu_cores_total p else 4,
         fdivZ (rp_ram_available_bytes p) GIB_bytes)
    end in
  let threads := str_of_Z (optimal_threads cpus) in
  [("AIDAR_LOW_RAM_MODE", if flt free_ram_gb (flit 35 1) then "1" else "0"); ("AIDAR_OPTIMAL_THREADS", threads); ("OMP_NUM_THREADS", threads);
   ("MKL_NUM_THREADS", threads); ("OPENBLAS_NUM_THREADS", threads); ("VECLIB_MAXIMUM_THREADS", threads); ("NUMEXPR_NUM_THREADS", threads)]%string.
