(* ===== verification/MLRun.v ===== *)
(** * A distributed training run ([cli/ml_run.py])

    [run_ml_distributed] plans the shards of a script, stages the files on the
    workers, submits the shards, polls them until all are complete, downloads
    what they produced and merges it.  The coordinator's and the workers'
    answers are arguments, indexed by the turn of the polling loop where they
    change; an unreachable coordinator or worker answers like one that refuses.
    The packing of a dataset directory into an archive comes before the parts
    modelled here: [dataset] is the file that is trained on. *)
From Stdlib Require Import SpecFloat.
From S2P Require Export MLAdapters.

(** What a completed workload reports. *)
Record completed_workload := { cw_selected_worker_id : option string; cw_output_asset_hashes : list string }.

(** One answer to a poll: an error, an unfinished state and an unreadable body
    make no difference. *)
Inductive poll_answer := PENDING | COMPLETED (d : completed_workload) | FAILED_OR_CANCELLED.

Section polling.
Context (answer : Z -> string -> poll_answer) (expired : Z -> bool).

(** One pass over the submitted workloads; [None] ends the run. *)
Fixpoint poll_pass (turn : Z) (ids : list string) (done : odict completed_workload) : option (odict completed_workload) :=
  match ids with
  | [] => Some done
  | wid :: ids =>
      if od_mem wid done then poll_pass turn ids done
      else match answer turn wid with
           | PENDING => poll_pass turn ids done
           | COMPLETED d => poll_pass turn ids (od_set wid d done)
           | FAILED_OR_CANCELLED => None
           end
  end.

(** The loop; [None] on a time-out or a failure. *)
Fixpoint poll_until_done (fuel : nat) (turn : Z) (ids : list string) (done : odict completed_workload) : option (odict completed_workload) :=
  if Z.of_nat (length done) <? Z.of_nat (length ids) then
    match fuel with
    | O => None
    | S fuel =>
        if expired turn then None
        else match poll_pass turn ids done with
             | Some done => poll_until_done fuel (turn + 1) ids done
             | None => None
             end
    end
  else Some done.
End polling.

(** The staging directories, one per worker, with the one file they may hold,
    and the weights of the workers. *)
Record staging := { sg_dirs : odict (option string); sg_weights : odict float }.

Section run.
Context (h : host).
(** [fetch digest]: the bytes that arrive for an asset, whatever the status of
    the answer; [None] when nobody has it or the connection fails. *)
Context (fetch : string -> option string).

Definition stage_name (idx : Z) (d : completed_workload) : string :=
  match cw_selected_worker_id d with
  | Some w => if str_truthy w then w else "worker_" +:+ str_of_Z idx
  | None => "worker_" +:+ str_of_Z idx
  end.

(** All outputs of a workload go to one file. *)
Definition download_outputs (held : option string) (outputs : list string) : option string :=
  fold_left (fun held digest => match fetch digest with Some c => Some c | None => held end) outputs held.

Fixpoint stage_outputs (idx : Z) (ids : list string) (specs : list workload_spec) (done : odict completed_workload) (s : staging) : res staging :=
  match ids with
  | [] => Ok s
  | wid :: ids =>
      let! d := od_lookup wid done in
      match specs !! Z.to_nat idx with
      | None => Err IndexError
      | Some spec =>
          let worker_id := stage_name idx d in
          let! weight := json_float (h_parse_float h) (od_get_default "throughput_score" (JFloat f1) (ws_parameters spec)) in
          let held := default None (od_get worker_id (sg_dirs s)) in
          stage_outputs (idx + 1) ids specs done
            {| sg_dirs := od_set worker_id (download_outputs held (cw_output_asset_hashes d)) (sg_dirs s);
               sg_weights := od_set worker_id weight (sg_weights s) |}
      end
  end.

(** What the merge sees of the staging directories. *)
Definition staged_worker (kv : string * option string) : string * worker_output :=
  (fst kv, OutDir match snd kv with Some c => [("model_" +:+ fst kv +:+ ".pt", c)]%string | None => [] end).

(** The files every worker with an endpoint is asked to store. *)
Definition stage_requests (active_workers : list worker_info) (assets : list string) : list (string * string) :=
  concat (map (fun w => if str_truthy (wi_endpoint_url w) then map (fun digest => (rstrip_char "/" (wi_endpoint_url w), digest)) assets else []) active_workers).

Definition job_request (script_path script_hash : string) (dataset : option (string * option string)) (epochs batch_size : Z) (requires_gpu : bool) : odict json :=
  [("script_path", JStr script_path); ("script_hash", JStr script_hash);
   ("dataset_path", match dataset with Some (p, _) => JStr p | None => JNull end);
   ("dataset_hash", match dataset with Some (_, Some d) => JStr d | _ => JNull end);
   ("epochs", JInt epochs); ("batch_size", JInt batch_size); ("requires_gpu", JBool requires_gpu)]%string.

(** The exit code, the workloads submitted and what is merged.  [dataset] is
    the path of the dataset and its digest if the file exists, [merge] is
    [merge_worker_ml_outputs] into the output directory. *)
Definition run_ml_distributed (submit : workload_spec -> bool) (answer : Z -> string -> poll_answer) (expired : Z -> bool) (max_turns : nat)
    (merge : odict worker_output -> worker_weighting -> merge_state) (script_path : string) (dataset : option (string * option string))
    (epochs batch_size : Z) (requires_gpu : bool) (active_workers : list worker_info) : res (Z * list string * option merge_state) :=
  match h_read_file h script_path with
  | None => Ok (1, [], None)
  | Some script =>
      let request := job_request script_path (sha256 script) dataset epochs batch_size requires_gpu in
      let! specs := snd (plan_shards h (inl request) (map Some active_workers)) in
      let submitted := map ws_workload_id (List.filter submit specs) in
      match submitted with
      | [] => Ok (0, [], None)
      | _ =>
          match poll_until_done answer expired max_turns 0 submitted [] with
          | None => Ok (1, submitted, None)
          | Some done =>
              let! s := stage_outputs 0 submitted specs done {| sg_dirs := []; sg_weights := [] |} in
              Ok (0, submitted, Some (merge (map staged_worker (sg_dirs s)) (WEIGHT_DICT (sg_weights s))))
          end
      end
  end.
End run.
