(* ===== verification/MLPlatforms.v ===== *)
(** * The platform adapters ([adapters/ml_training/platforms])

    Kohya, ComfyUI, RVC and Voicebox: the request is divided among the workers
    by rank, in proportion to their throughput when a model is trained and into
    equal parts when independent items are processed.  A request without workers
    is for one unknown worker. *)
From Stdlib Require Import SpecFloat.
From S2P Require Export MLAdapters.

(** [list(active_workers or request.get("active_workers") or [None])] *)
Definition platform_workers (active_workers : list ml_worker) (r : app_request) : list ml_worker :=
  match active_workers, rq_active_workers r with [], [] => [None] | [], ws => ws | ws, _ => ws end.

(** A specification with the defaults of [WorkloadSpec]. *)
Definition rank_args (job_id : string) (rank : Z) (task_type : string) (requires_gpu : bool) (params : odict json) : workload_args :=
  {| wa_workload_id := (job_id +:+ "-rank-" +:+ str_of_Z rank)%string; wa_job_id := Some job_id; wa_task_type := task_type;
     wa_input_asset_hashes := ∅; wa_min_cpu_cores := 1; wa_min_ram_bytes := GIB_bytes; wa_requires_gpu := requires_gpu; wa_min_vram_bytes := 0;
     wa_estimated_duration_seconds := f_of_Z 10; wa_parameters := params |}.

(** [python -m module] with the platform in the environment. *)
Definition runner_spec (platform : string) (args : list string) : res execution_spec :=
  new_execution_spec "python"
    ("-m" :: ("aidars.adapters.ml_training.platforms." +:+ platform +:+ "_runner") :: args)%string [("AIDAR_PLATFORM", platform)]%string None.

(** ** [KohyaAdapter] *)

Section kohya.
Context (h : host).

Definition kohya_validate (r : app_request) : bool := od_mem "pretrained_model_name_or_path" (rq_values r) || od_mem "train_data_dir" (rq_values r).

Definition kohya_build_execution_spec (workload : workload_spec) : res execution_spec :=
  let p := ws_parameters workload in
  let option_of name k := ("--" +:+ name +:+ "=" +:+ py_str h (get k p))%string in
  let text k dflt := py_str h (od_get_default k dflt p) in
  let precision := get "mixed_precision" p in
  new_execution_spec "python"
    (["train_network.py"; option_of "pretrained_model_name_or_path" "pretrained_model"; option_of "train_data_dir" "train_data_dir";
      option_of "output_dir" "output_dir"; option_of "max_train_epochs" "max_train_epochs"; option_of "network_dim" "network_dim"]%string
     ++ (if json_truthy (get "gradient_checkpointing" p) then ["--gradient_checkpointing"%string] else [])
     ++ (if json_truthy (get "cache_latents_to_disk" p) then ["--cache_latents_to_disk"%string] else [])
     ++ (if json_truthy precision && negb (json_eqb precision (JStr "no")) then [option_of "mixed_precision" "mixed_precision"]%string else []))
    [("AIDAR_ADAPTER", "kohya"); ("AIDAR_EXECUTION_PARADIGM", text "execution_paradigm" (JStr "DATA_PARALLEL")); ("RANK", text "rank" (JInt 0));
     ("LOCAL_RANK", "0"); ("WORLD_SIZE", text "world_size" (JInt 1)); ("MASTER_ADDR", text "master_addr" (JStr "127.0.0.1"));
     ("MASTER_PORT", text "master_port" (JInt 29500)); ("GLOO_SOCKET_IFNAME", text "gloo_socket_ifname" (JStr ""));
     ("AIDAR_SHARD_START_RATIO", text "start_ratio" (JFloat f0)); ("AIDAR_SHARD_END_RATIO", text "end_ratio" (JFloat f1));
     ("PYTHONPATH", python_path h)]%string None.

Definition kohya_describe_expected_outputs (_ : workload_spec) : res (option Z) := output_policy (Some 1).

(** Less than 3.5 GiB free; 8 GiB where nothing is known. *)
Definition low_ram (w : ml_worker) : bool :=
  flt (match profile_of w with Some p => fdiv (f_of_Z (rp_ram_available_bytes p)) (f_of_Z GIB_bytes) | None => f_of_Z 8 end) (flit 35 1).

Definition kohya_plan_rank (p : odict json) (job_id : string) (master_addr : json) (master_port world_size : Z) (lan : string) (rank : Z)
    (x : (ml_worker * (float * (float * float))) * float) : res workload_spec :=
  let '((w, (score, (start_r, end_r))), share) := x in
  let low := low_ram w in
  let! epochs := get_int "max_train_epochs" 10 p in
  let! network_dim := get_int "network_dim" 32 p in
  build_workload h
    (rank_args job_id rank "kohya_training" (get_bool "requires_gpu" true p)
       [("platform", JStr "kohya"); ("execution_paradigm", JStr (strategy_value DATA_PARALLEL)); ("worker_id", JStr (worker_name rank w));
        ("rank", JInt rank); ("world_size", JInt world_size); ("master_addr", master_addr); ("master_port", JInt master_port);
        ("gloo_socket_ifname", JStr lan); ("throughput_score", JFloat score); ("sample_share", JFloat share);
        ("start_ratio", JFloat start_r); ("end_ratio", JFloat end_r);
        ("pretrained_model", od_get_default "pretrained_model_name_or_path" (JStr "runwayml/stable-diffusion-v1-5") p);
        ("train_data_dir", od_get_default "train_data_dir" (JStr "inputs/train_data") p);
        ("output_dir", od_get_default "output_dir" (JStr "outputs") p); ("max_train_epochs", JInt epochs); ("network_dim", JInt network_dim);
        ("low_ram_mode", JBool low); ("gradient_checkpointing", JBool (low || get_bool "gradient_checkpointing" false p));
        ("cache_latents_to_disk", JBool (low || get_bool "cache_latents_to_disk" false p));
        ("mixed_precision", if low then JStr "fp16" else od_get_default "mixed_precision" (JStr "no") p)]%string)
    kohya_build_execution_spec.

Definition kohya_evaluate_request (r : app_request) (active_workers : list ml_worker) : planning (list workload_spec) :=
  let p := rq_values r in
  let workers := platform_workers active_workers r in
  let master_addr := od_get_default "master_addr" (JStr "127.0.0.1") p in
  let^ master_port := pure (get_int "master_port" 29500 p) in
  pure (build_each (kohya_plan_rank p ("kohya-lora-" +:+ str_take 12 (h_uuid h))%string master_addr master_port (Z.of_nat (length workers))
                      (lan_ifname h master_addr)) 0 (zip (shards_of workers) (worker_shares workers))).
End kohya.

#[export] Instance kohya_adapter (h : host) : ApplicationAdapter := {|
  validate := kohya_validate;
  evaluate_request r := kohya_evaluate_request h r [];
  build_execution_spec := kohya_build_execution_spec h;
  describe_expected_outputs := kohya_describe_expected_outputs;
|}.

(** ** [ComfyUIAdapter] *)

Section comfyui.
Context (h : host).

Definition comfyui_validate (r : app_request) : bool := od_mem "workflow" (rq_values r) || od_mem "workflow_path" (rq_values r).

Definition comfyui_build_execution_spec (_ : workload_spec) : res execution_spec := runner_spec "comfyui" [].

(** [len(x)] *)
Definition json_len (j : json) : res Z :=
  match j with
  | JList l => Ok (Z.of_nat (length l))
  | JStr s => Ok (str_len s)
  | JObj o => Ok (Z.of_nat (length o))
  | _ => Err TypeError
  end.

Definition comfyui_describe_expected_outputs (workload : workload_spec) : res (option Z) :=
  let! n := json_len (od_get_default "seeds" (JList []) (ws_parameters workload)) in output_policy (Some (Z.max 1 n)).

Definition comfyui_plan_rank (job_id : string) (workflow : json) (base_seed batch_count num_workers rank : Z) (w : ml_worker) : res workload_spec :=
  let seeds := assigned_seeds base_seed batch_count num_workers rank in
  build_workload h
    (rank_args job_id rank "comfyui_generation" false
       [("platform", JStr "comfyui"); ("execution_paradigm", JStr (strategy_value TASK_PARALLEL)); ("worker_id", JStr (worker_name rank w));
        ("workflow", workflow); ("seeds", JList (map JInt seeds)); ("batch_size", JInt (Z.of_nat (length seeds)))]%string)
    comfyui_build_execution_spec.

Definition comfyui_evaluate_request (r : app_request) (active_workers : list ml_worker) : planning (list workload_spec) :=
  let p := rq_values r in
  let workers := platform_workers active_workers r in
  let^ batch_count := pure (get_int "batch_count" 1 p) in
  let^ base_seed := pure (get_int "seed" 0 p) in
  pure (build_each (comfyui_plan_rank ("comfyui-" +:+ str_take 12 (h_uuid h))%string (od_get_default "workflow" (JObj []) p) base_seed batch_count
                      (Z.of_nat (length workers))) 0 workers).
End comfyui.

#[export] Instance comfyui_adapter (h : host) : ApplicationAdapter := {|
  validate := comfyui_validate;
  evaluate_request r := comfyui_evaluate_request h r [];
  build_execution_spec := comfyui_build_execution_spec;
  describe_expected_outputs := comfyui_describe_expected_outputs;
|}.

(** ** Stages ([RVCAdapter], [VoiceboxAdapter]) *)

Definition is_stage (stages : list string) (stage : json) : bool := match stage with JStr s => bool_decide (s ∈ stages) | _ => false end.

(** The audio files of one rank, with the parameters around them. *)
Definition plan_files (h : host) (job_id task_type : string) (before after : odict json) (files : list json) (num_workers : Z)
    (build : workload_spec -> res execution_spec) (rank : Z) (w : ml_worker) : res workload_spec :=
  build_workload h
    (rank_args job_id rank task_type false
       (before ++ [("execution_paradigm", JStr (strategy_value TASK_PARALLEL)); ("worker_id", JStr (worker_name rank w));
                   ("audio_files", JList (assigned_files num_workers rank files))]%string ++ after))
    build.

Section rvc.
Context (h : host).

Definition rvc_validate (r : app_request) : bool := od_mem "stage" (rq_values r) || od_mem "audio_files" (rq_values r).

Definition rvc_build_execution_spec (workload : workload_spec) : res execution_spec :=
  runner_spec "rvc" [("--stage=" +:+ py_str h (od_get_default "stage" (JStr "extract_f0") (ws_parameters workload)))%string].

Definition rvc_describe_expected_outputs (_ : workload_spec) : res (option Z) := output_policy (Some 1).

Definition rvc_plan_training (p : odict json) (job_id : string) (stage : json) (num_workers rank : Z) (x : ml_worker * (float * (float * float)))
    : res workload_spec :=
  let '(w, (score, (start_r, end_r))) := x in
  let! epochs := get_int "epochs" 20 p in
  let! batch_size := get_int "batch_size" 4 p in
  build_workload h
    (rank_args job_id rank "rvc_training" false
       [("platform", JStr "rvc"); ("stage", stage); ("execution_paradigm", JStr (strategy_value DATA_PARALLEL));
        ("worker_id", JStr (worker_name rank w)); ("rank", JInt rank); ("world_size", JInt num_workers); ("throughput_score", JFloat score);
        ("start_ratio", JFloat start_r); ("end_ratio", JFloat end_r); ("epochs", JInt epochs); ("batch_size", JInt batch_size)]%string)
    rvc_build_execution_spec.

Definition rvc_evaluate_request (r : app_request) (active_workers : list ml_worker) : planning (list workload_spec) :=
  let p := rq_values r in
  let workers := platform_workers active_workers r in
  let num_workers := Z.of_nat (length workers) in
  let stage := od_get_default "stage" (JStr "extract_f0") p in
  let job_id := ("rvc-" +:+ py_str h stage +:+ "-" +:+ str_take 12 (h_uuid h))%string in
  if is_stage ["slice"; "extract_f0"; "hubert"; "preprocess"] stage then
    let^ files := pure (json_items (od_get_default "audio_files" (JList []) p)) in
    pure (build_each (plan_files h job_id "rvc_preprocessing" [("platform", JStr "rvc"); ("stage", stage)]%string
                        [("f0_method", od_get_default "f0_method" (JStr "rmvpe") p)]%string files num_workers rvc_build_execution_spec) 0 workers)
  else pure (build_each (rvc_plan_training p job_id stage num_workers) 0 (shards_of workers)).
End rvc.

#[export] Instance rvc_adapter (h : host) : ApplicationAdapter := {|
  validate := rvc_validate;
  evaluate_request r := rvc_evaluate_request h r [];
  build_execution_spec := rvc_build_execution_spec h;
  describe_expected_outputs := rvc_describe_expected_outputs;
|}.

Section voicebox.
Context (h : host).

Definition voicebox_validate (r : app_request) : bool :=
  od_mem "stage" (rq_values r) || od_mem "audio_files" (rq_values r) || od_mem "dataset_path" (rq_values r).

Definition voicebox_build_execution_spec (workload : workload_spec) : res execution_spec :=
  runner_spec "voicebox" [("--stage=" +:+ py_str h (od_get_default "stage" (JStr "feature_prep") (ws_parameters workload)))%string].

Definition voicebox_describe_expected_outputs (_ : workload_spec) : res (option Z) := output_policy (Some 1).

Definition voicebox_plan_training (p : odict json) (job_id : string) (stage : json) (num_workers rank : Z) (x : ml_worker * (float * (float * float)))
    : res workload_spec :=
  let '(w, (score, (start_r, end_r))) := x in
  build_workload h
    (rank_args job_id rank "voicebox_training" false
       [("platform", JStr "voicebox"); ("stage", stage); ("execution_paradigm", JStr (strategy_value FEDERATED_LEARNING));
        ("worker_id", JStr (worker_name rank w)); ("rank", JInt rank); ("world_size", JInt num_workers); ("throughput_score", JFloat score);
        ("start_ratio", JFloat start_r); ("end_ratio", JFloat end_r);
        ("dataset_path", od_get_default "dataset_path" (JStr "./data/speech") p)]%string)
    voicebox_build_execution_spec.

Definition voicebox_evaluate_request (r : app_request) (active_workers : list ml_worker) : planning (list workload_spec) :=
  let p := rq_values r in
  let workers := platform_workers active_workers r in
  let num_workers := Z.of_nat (length workers) in
  let stage := od_get_default "stage" (JStr "feature_prep") p in
  let job_id := ("voicebox-" +:+ py_str h stage +:+ "-" +:+ str_take 12 (h_uuid h))%string in
  if is_stage ["feature_prep"; "preprocess"; "phoneme"; "spectrogram"] stage then
    let^ files := pure (json_items (od_get_default "audio_files" (JList []) p)) in
    pure (build_each (plan_files h job_id "voicebox_preprocessing" [("platform", JStr "voicebox"); ("stage", stage)]%string [] files num_workers
                        voicebox_build_execution_spec) 0 workers)
  else pure (build_each (voicebox_plan_training p job_id stage num_workers) 0 (shards_of workers)).
End voicebox.

#[export] Instance voicebox_adapter (h : host) : ApplicationAdapter := {|
  validate := voicebox_validate;
  evaluate_request r := voicebox_evaluate_request h r [];
  build_execution_spec := voicebox_build_execution_spec h;
  describe_expected_outputs := voicebox_describe_expected_outputs;
|}.
