(* ===== verification/AppAdapters.v ===== *)
(** * The adapters for scripts, videos and language models ([adapters/custom], [adapters/video_rendering], [adapters/llm])

    A script is one workload; a video is cut into pieces in proportion to the
    workers' throughput; the prompts for a language model are one workload or
    one each.  The program the model adapter passes to the worker
    ([_LLM_WORKER_RUNNER_CODE]), the contents of directories and archives, JSON
    text and the MD5 digest are arguments.  A request for a language model is a
    dictionary; an object with the same attributes is read the same way. *)
From Stdlib Require Import SpecFloat.
From S2P Require Export MLAdapters.

(** A value given to a field of type [bool]. *)
Definition pydantic_bool (j : json) : res bool :=
  let bad := Err (ValueError "Input should be a valid boolean") in
  match j with
  | JBool b => Ok b
  | JInt n => if n =? 0 then Ok false else if n =? 1 then Ok true else bad
  | JFloat f => if feq f f0 then Ok false else if feq f f1 then Ok true else bad
  | JStr s =>
      let s := str_lower s in
      if bool_decide (s ∈ ["1"; "on"; "t"; "true"; "y"; "yes"]%string) then Ok true
      else if bool_decide (s ∈ ["0"; "off"; "f"; "false"; "n"; "no"]%string) then Ok false
      else bad
  | _ => bad
  end.

(** A value given to a field of type [Optional[int]]. *)
Definition pydantic_int (j : json) : res (option Z) :=
  let bad := Err (ValueError "Input should be a valid integer") in
  match j with
  | JNull => Ok None
  | JBool b => Ok (Some (if b then 1 else 0))
  | JInt n => Ok (Some n)
  | JFloat f => match f_trunc f with Some n => if feq (f_of_Z n) f then Ok (Some n) else bad | None => bad end
  | JStr s => match py_int s with Some n => Ok (Some n) | None => bad end
  | _ => bad
  end.

(** A value given to a field of type [List[str]]. *)
Definition pydantic_strings (l : list json) : res (list string) := res_all json_text l.

(** ** [CustomScriptAdapter] *)

Section custom.
Context (h : host) (sys_executable : string).

Definition custom_validate (r : app_request) : bool := od_mem "script_path" (rq_values r) || od_mem "script" (rq_values r).

Definition custom_build_execution_spec (workload : workload_spec) : res execution_spec :=
  let p := ws_parameters workload in
  match od_get_default "script_args" (JList []) p with
  | JList l =>
      let! args := pydantic_strings l in
      new_execution_spec sys_executable (input_arg h (get "script_hash" p) (json_or (get "script_path" p) (JStr "script.py")) :: args) []
        (Some (fmul (ws_estimated_duration_seconds workload) (f_of_Z 3)))
  | _ => Err TypeError
  end.

Definition custom_describe_expected_outputs (workload : workload_spec) : res (option Z) :=
  let! n := pydantic_int (od_get_default "expected_output_count" (JInt 0) (ws_parameters workload)) in output_policy n.

Definition custom_evaluate_request (r : app_request) : planning (list workload_spec) :=
  let p := rq_values r in
  let script_path := json_or (get "script_path" p) (get "script" p) in
  let^ digest := ingest_path h script_path in
  let job_id := ("custom-" +:+ str_take 16 (h_uuid h))%string in
  let^ spec := pure (build_workload h
    {| wa_workload_id := (job_id +:+ "-chunk-0")%string; wa_job_id := Some job_id; wa_task_type := "custom_script";
       wa_input_asset_hashes := add_hash digest ∅; wa_min_cpu_cores := 1; wa_min_ram_bytes := 256 * 1024 * 1024; wa_requires_gpu := false;
       wa_min_vram_bytes := 0; wa_estimated_duration_seconds := f_of_Z 30;
       wa_parameters :=
         [("script_path", json_or script_path (JStr "script.py")); ("script_hash", hash_or digest JNull);
          ("script_args", od_get_default "args" (JList []) p);
          ("expected_output_count", od_get_default "expected_output_count" (JInt 0) p)]%string |}
    custom_build_execution_spec) in
  pure (Ok [spec]).
End custom.

#[export] Instance custom_script_adapter (h : host) (sys_executable : string) : ApplicationAdapter := {|
  validate := custom_validate;
  evaluate_request := custom_evaluate_request h sys_executable;
  build_execution_spec := custom_build_execution_spec h sys_executable;
  describe_expected_outputs := custom_describe_expected_outputs;
|}.

(** ** [FFmpegAdapter] *)

(** A worker of a video request: a record with a profile, or a profile. *)
Inductive video_worker := VInfo (w : worker_info) | VProfile (p : worker_resource_profile).

Definition video_score (w : video_worker) : res float :=
  match w with
  | VInfo w => match wi_resource_profile w with
               | Some p => Ok (compute_worker_throughput_score p)
               | None => Err (AttributeError "ram_total_bytes")
               end
  | VProfile p => Ok (compute_worker_throughput_score p)
  end.

Section ffmpeg.
Context (h : host) (ffmpeg_executable : option string).
(** The files below a directory, [None] for what is no directory, as
    [os.walk] yields them; the names in a ZIP archive, [None] where it cannot be
    read; the path [zf.extract(name, dir)] writes, [None] where it raises. *)
Context (walk : string -> option (list (string * list string))) (zip_names : string -> option (list string))
        (zip_extract : string -> string -> option string).

Definition has_extension (exts : list string) (name : string) : bool := existsb (fun e => ends_with e (str_lower name)) exts.

Definition MEDIA_FILES : list string := [".mp4"; ".mov"; ".mkv"; ".mxf"; ".avi"; ".exr"; ".dpx"; ".png"]%string.
Definition MEDIA_CLIPS : list string := [".mp4"; ".mov"; ".mkv"; ".mxf"; ".avi"]%string.

(** [os.path.join(root, file)] for a file name. *)
Definition join (root file : string) : string := if ends_with "/" root || String.eqb root "" then (root +:+ file)%string else (root +:+ "/" +:+ file)%string.

Fixpoint first_media (entries : list (string * list string)) : option string :=
  match entries with
  | [] => None
  | (root, files) :: entries =>
      match List.find (has_extension MEDIA_FILES) (isort str_lt files) with
      | Some file => Some (join root file)
      | None => first_media entries
      end
  end.

Definition resolve_davinci_or_video_input (input_path : string) : string :=
  if negb (str_truthy input_path) then input_path
  else if bool_decide (is_Some (walk input_path)) || ends_with ".dra" (str_lower input_path) then
    default input_path (first_media (default [] (walk input_path)))
  else if ends_with ".drp" (str_lower input_path) && bool_decide (is_Some (h_read_file h input_path)) then
    match zip_names input_path with
    | Some names =>
        match List.find (has_extension MEDIA_CLIPS) (isort str_lt names) with
        | Some name => default input_path (zip_extract input_path name)
        | None => input_path
        end
    | None => input_path
    end
  else input_path.

Definition ffmpeg_validate (r : app_request) : bool := od_mem "input_video_path" (rq_values r).

Definition ffmpeg_build_execution_spec (spec : workload_spec) : res execution_spec :=
  let p := ws_parameters spec in
  let text k dflt := py_str h (od_get_default k (JStr dflt) p) in
  let input_hash := match isort str_lt (elements (ws_input_asset_hashes spec)) with d :: _ => d | [] => "missing_input"%string end in
  let exec := py_str h (json_or (json_or (get "ffmpeg_executable" p) (match ffmpeg_executable with Some e => JStr e | None => JNull end)) (JStr "ffmpeg")) in
  let start_time := get "start_time" p in
  let duration := get "duration" p in
  let! cut := match duration with JNull => Ok false | _ => res_map (fun d => fgt d f0) (json_float (h_parse_float h) duration) end in
  new_execution_spec exec
    (["-y"]%string ++ (match start_time with JNull => [] | _ => ["-ss"%string; py_str h start_time] end)
     ++ ["-i"; "inputs/" +:+ input_hash]%string ++ (if cut then ["-t"%string; py_str h duration] else [])
     ++ ["-c:v"; text "codec" "libx264"; "-vf"; "scale=" +:+ text "resolution" "1920x1080";
         "outputs/output_" +:+ ws_workload_id spec +:+ "." +:+ text "output_format" "mp4"]%string)
    [("AIDAR_ADAPTER", "ffmpeg")]%string None.

Definition ffmpeg_describe_expected_outputs (_ : workload_spec) : res (option Z) := output_policy (Some 1).

(** The pieces: start and length, each starting at the sum of those before. *)
Fixpoint pieces_from (curr : float) (durations : list float) : list (float * float) :=
  match durations with
  | [] => []
  | d :: rest => (curr, d) :: pieces_from (fadd curr d) rest
  end.

Definition durations_of (total : float) (scores : list float) : list float :=
  let sum := fsum scores in
  let sum := if feq sum f0 then f1 else sum in
  map (fun s => fmul total (fdiv s sum)) scores.

(** The parameters every piece has: what the adapter knows, then every other
    value of the request. *)
Definition base_params (p : odict json) (input_video_path video_hash : json) : odict json :=
  fold_left (fun d '(k, v) =>
      if od_mem k d || bool_decide (k ∈ ["min_ram_bytes"; "min_cpu_cores"; "requires_gpu"]%string) then d else od_set k v d)
    p [("input_video_path", json_or input_video_path (JStr "input.mp4")); ("video_hash", video_hash);
       ("output_format", od_get_default "output_format" (JStr "mp4") p)]%string.

(** A specification from the values all pieces share. *)
Definition video_args (job_id : string) (idx : Z) (hashes : gset string) (cpu ram : Z) (gpu_value : json) (seconds : float) (params : odict json)
    : res workload_args :=
  let! gpu := pydantic_bool gpu_value in
  Ok {| wa_workload_id := (job_id +:+ "-chunk-" +:+ str_of_Z idx)%string; wa_job_id := Some job_id; wa_task_type := "video_transcoding";
        wa_input_asset_hashes := hashes; wa_min_cpu_cores := cpu; wa_min_ram_bytes := ram; wa_requires_gpu := gpu;
        wa_min_vram_bytes := if json_truthy gpu_value then 2 * GIB_bytes else 0; wa_estimated_duration_seconds := seconds; wa_parameters := params |}.

Definition plan_piece (job_id : string) (hashes : gset string) (cpu ram : Z) (gpu_value : json) (params : odict json) (idx : Z) (piece : float * float)
    : res workload_spec :=
  let '(start, dur) := piece in
  let! a := video_args job_id idx hashes cpu ram gpu_value (fmul dur (flit 5 1))
    (od_set "chunk_index" (JInt idx) (od_set "duration" (JFloat (f_round dur 3)) (od_set "start_time" (JFloat (f_round start 3)) params))) in
  build_workload h a ffmpeg_build_execution_spec.

(** [workers] is [request.get("workers")]; it would be copied into the
    parameters of the pieces as well, where nothing reads it. *)
Definition ffmpeg_evaluate_request (workers : list video_worker) (r : app_request) : planning (list workload_spec) :=
  let p := rq_values r in
  let raw := get "input_video_path" p in
  let^ input := pure (if json_truthy raw then match raw with JStr s => Ok (JStr (resolve_davinci_or_video_input s)) | _ => Err TypeError end else Ok JNull) in
  let gpu_value := od_get_default "requires_gpu" (JBool false) p in
  let^ digest := ingest_path h input in
  let hashes := add_hash digest ∅ in
  let job_id := ("ffmpeg-" +:+ str_take 16 (h_uuid h))%string in
  let^ ram := pure (get_int "min_ram_bytes" (4 * GIB_bytes) p) in
  let^ cpu := pure (get_int "min_cpu_cores" 4 p) in
  let params := base_params p input (hash_or digest JNull) in
  let^ worker_count := pure (get_int "worker_count" 1 p) in
  let n := Z.of_nat (length workers) in
  let^ total := pure (json_float (h_parse_float h) (od_get_default "duration" (od_get_default "total_duration" (JFloat (f_of_Z 60)) p) p)) in
  if ((1 <? worker_count) || (1 <? n)) && fgt total f0 then
    let^ scores := pure (match workers with [] => Ok (repeat f1 (Z.to_nat worker_count)) | _ => res_all video_score workers end) in
    pure (build_each (plan_piece job_id hashes cpu ram gpu_value params) 0 (pieces_from f0 (durations_of total scores)))
  else
    let^ seconds := pure (json_float (h_parse_float h) (od_get_default "estimated_duration_seconds" (JFloat (f_of_Z 30)) p)) in
    let^ a := pure (video_args job_id 0 hashes cpu ram gpu_value seconds params) in
    let^ spec := pure (build_workload h a ffmpeg_build_execution_spec) in
    pure (Ok [spec]).
End ffmpeg.

#[export] Instance ffmpeg_adapter (h : host) ffmpeg_executable walk zip_names zip_extract (workers : list video_worker) : ApplicationAdapter := {|
  validate := ffmpeg_validate;
  evaluate_request := ffmpeg_evaluate_request h ffmpeg_executable walk zip_names zip_extract workers;
  build_execution_spec := ffmpeg_build_execution_spec h ffmpeg_executable;
  describe_expected_outputs := ffmpeg_describe_expected_outputs;
|}.

(** ** [LLMAdapter] *)

Section llm.
Context (h : host) (worker_runner_code : string) (json_dumps : json -> string) (md5_hex : string -> string).

Definition llm_validate (r : app_request) : bool := od_mem "prompt" (rq_values r) || od_mem "prompts" (rq_values r).

Definition llm_build_execution_spec (spec : workload_spec) : res execution_spec :=
  let p := ws_parameters spec in
  let value k dflt := py_str h (od_get_default k dflt p) in
  let model_id := py_str h (json_or (get "model_identifier" p) (od_get_default "model" (JStr "llama3") p)) in
  let batch_size := value "batch_size"%string (JInt 1) in
  let max_tokens := value "max_tokens"%string (JInt 512) in
  let temperature := value "temperature"%string (JFloat (flit 3 1)) in
  let! prompts := json_items (json_or (get "prompts" p) (JList [if json_truthy (get "prompt" p) then get "prompt" p else JStr "Hello"])) in
  new_execution_spec "python"
    ["-c"; worker_runner_code; "--model"; model_id; "--batch-size"; batch_size; "--max-tokens"; max_tokens; "--temperature"; temperature]%string
    [("AIDAR_ADAPTER", "llm"); ("AIDAR_LLM_MODEL", model_id); ("AIDAR_LLM_BATCH_SIZE", batch_size); ("AIDAR_LLM_MAX_TOKENS", max_tokens);
     ("AIDAR_LLM_NUM_CTX", value "num_ctx" (JInt 1024)); ("AIDAR_LLM_TEMPERATURE", temperature);
     ("AIDAR_LLM_FAST_REASONING", if get_bool "fast_reasoning" true p then "1" else "0"); ("AIDAR_LLM_PROMPTS_JSON", json_dumps (JList prompts));
     ("AIDAR_LLM_CHUNK_INDEX", value "chunk_index" (JInt 0)); ("AIDAR_LLM_PARAMS_JSON", json_dumps (JObj p))]%string None.

Definition llm_describe_expected_outputs (_ : workload_spec) : res (option Z) := output_policy (Some 1).

Definition prompt_list (p : odict json) : list string :=
  match get "prompts" p with
  | JList (x :: l) => map (py_str h) (x :: l)
  | _ => let prompt := od_get_default "prompt" (JStr "") p in if json_truthy prompt then [py_str h prompt] else ["Hello"%string]
  end.

(** The values of a request that every workload repeats. *)
Record llm_settings := {
  ls_model_identifier : json; ls_max_tokens : Z; ls_temperature : float; ls_num_ctx : Z; ls_fast_reasoning : bool; ls_requires_gpu : json;
  ls_min_cpu_cores : Z; ls_min_ram_bytes : Z;
}.

Definition llm_args (s : llm_settings) (job_id workload_id : string) (model_hash : option string) (prompt : string) (prompts : list string)
    (chunk_index : option Z) : res workload_args :=
  let! gpu := pydantic_bool (ls_requires_gpu s) in
  let! tokens := float_of_int (ls_max_tokens s) in
  Ok {| wa_workload_id := workload_id; wa_job_id := Some job_id; wa_task_type := "llm_inference"; wa_input_asset_hashes := add_hash model_hash ∅;
        wa_min_cpu_cores := ls_min_cpu_cores s; wa_min_ram_bytes := ls_min_ram_bytes s; wa_requires_gpu := gpu;
        wa_min_vram_bytes := if json_truthy (ls_requires_gpu s) then 4 * GIB_bytes else 0;
        wa_estimated_duration_seconds := fmul tokens (flit 5 1);
        wa_parameters :=
          [("model", ls_model_identifier s); ("model_identifier", ls_model_identifier s); ("model_hash", hash_or model_hash JNull);
           ("prompt", JStr prompt); ("prompts", JList (map JStr prompts)); ("max_tokens", JInt (ls_max_tokens s));
           ("temperature", JFloat (ls_temperature s)); ("num_ctx", JInt (ls_num_ctx s)); ("fast_reasoning", JBool (ls_fast_reasoning s))]%string
          ++ match chunk_index with Some i => [("chunk_index"%string, JInt i)] | None => [] end |}.

Definition plan_prompt (s : llm_settings) (job_id : string) (model_hash : option string) (idx : Z) (prompt : string) : res workload_spec :=
  let! a := llm_args s job_id (job_id +:+ "-chunk-" +:+ str_of_Z idx)%string model_hash prompt [prompt] (Some idx) in
  build_workload h a llm_build_execution_spec.

Definition llm_evaluate_request (r : app_request) : planning (list workload_spec) :=
  let p := rq_values r in
  let model_path := get "model_path" p in
  let model_identifier := json_or (json_or (json_or (get "model_identifier" p) (get "model" p)) model_path) (JStr "default-model") in
  let^ max_tokens := pure (get_int "max_tokens" 256 p) in
  let^ temperature := pure (json_float (h_parse_float h) (od_get_default "temperature" (JFloat (flit 3 1)) p)) in
  let^ num_ctx := pure (get_int "num_ctx" 1024 p) in
  let^ worker_count := pure (get_int "worker_count" 1 p) in
  let^ cpu := pure (get_int "min_cpu_cores" 4 p) in
  let^ ram := pure (get_int "min_ram_bytes" (8 * GIB_bytes) p) in
  let s := {| ls_model_identifier := model_identifier; ls_max_tokens := max_tokens; ls_temperature := temperature; ls_num_ctx := num_ctx;
              ls_fast_reasoning := get_bool "fast_reasoning" true p; ls_requires_gpu := od_get_default "requires_gpu" (JBool true) p;
              ls_min_cpu_cores := cpu; ls_min_ram_bytes := ram |} in
  let prompts := prompt_list p in
  let^ model_hash := ingest_path h model_path in
  let job_id := ("llm-job-" +:+ str_take 16 (h_uuid h))%string in
  if (1 <? Z.of_nat (length prompts)) && (1 <? worker_count) then pure (build_each (plan_prompt s job_id model_hash) 0 prompts)
  else
    let first := default "Hello"%string (head prompts) in
    let^ a := pure (llm_args s job_id (job_id +:+ "-" +:+ str_take 8 (md5_hex first))%string model_hash first prompts None) in
    let^ spec := pure (build_workload h a llm_build_execution_spec) in
    pure (Ok [spec]).
End llm.

#[export] Instance llm_adapter (h : host) worker_runner_code json_dumps md5_hex : ApplicationAdapter := {|
  validate := llm_validate;
  evaluate_request := llm_evaluate_request h worker_runner_code json_dumps md5_hex;
  build_execution_spec := llm_build_execution_spec h worker_runner_code json_dumps;
  describe_expected_outputs := llm_describe_expected_outputs;
|}.
