(* ===== verification/BlenderAdapter.v ===== *)
(** * Render requests ([adapters/blender/adapter.py])

    A request names a scene and a range of frames.  The adapter loads the scene,
    resolves the files it needs, divides the frames into chunks and makes a
    workload of every chunk; with cooperative sample fusion every worker renders
    all the frames with a seed of its own.  [compute_job_frame_coverage]
    ([frame_coverage.py]) reads the frames back from the registries.

    Loading a scene ([SceneEngine.load_source] and [analyze], which run Blender
    or read a JSON file), packing it and the text of the script that prepares a
    render are arguments.  The cost of a chunk is only reported, so the chunks
    are their frame ranges.  A frame number is an integer. *)
From Stdlib Require Import SpecFloat.
From S2P Require Export Packaging Frames JobRegistry WorkloadRegistry AppAdapters.

(** What the adapter asks of Blender and of the machine beside [host]. *)
Record blender_host := {
  bh_load_scene : string -> res scene_snapshot;
  bh_base_dir : string -> path;                      (** the directory relative paths start from *)
  bh_realpath : path -> path;
  bh_is_dir : path -> bool;
  bh_files : gmap path string;
  bh_bpy_packs : string -> bool;                     (** packing inside this process succeeds *)
  bh_blender_packs : string -> bool;                 (** packing with the executable leaves a file that is not empty *)
  bh_executable : option string;                     (** [AIDAR_BLENDER_EXECUTABLE] *)
  bh_prepass_code : string;                          (** [BLENDER_UNIVERSAL_PREPASS_CODE] *)
}.

(** [frame_start + k] is defined for numbers. *)
Definition json_frame (j : json) : res Z := match j with JInt n => Ok n | JBool b => Ok (if b then 1 else 0) | _ => Err TypeError end.

(** A value given to a field of type [int]. *)
Definition pydantic_required_int (j : json) : res Z :=
  let! n := pydantic_int j in match n with Some n => Ok n | None => Err (ValueError "Input should be a valid integer") end.

(** [json["key"] is True] *)
Definition is_true (j : json) : bool := match j with JBool true => true | _ => false end.

(** [os.path.splitext(p)[0]]: a name that starts with its only dot has no
    extension. *)
Definition splitext_root (p : string) : string := str_take (String.length p - String.length (path_suffix p)) p.

Section render.
Context (h : host) (b : blender_host).

(** ** Preparing the scene *)

Definition prepare_self_contained_blend (blend_path : string) : string :=
  if str_truthy blend_path && bool_decide (is_Some (h_read_file h blend_path)) then
    if bh_bpy_packs b blend_path || bh_blender_packs b blend_path then (splitext_root blend_path +:+ "_packed.blend")%string else blend_path
  else blend_path.

(** [SceneEngine.resolve_required_assets]: every node of the graph is a seed. *)
Definition resolve_required_assets (snapshot : scene_snapshot) (g : dependency_graph) (input_path : string) : res (list Packaging.asset_record) :=
  let seed_ids := list_to_set (map gn_identifier (dg_nodes g)) : gset string in
  match compute_closure g seed_ids with
  | Some closure =>
      Packaging.resolve (bh_realpath b) (bh_is_dir b) (bh_files b) [] g (bh_base_dir b input_path) seed_ids
        (object_type_map (ss_objects snapshot)) closure
  | None => Err RecursionError
  end.

(** [{record.sha256: record.source_path ...}] *)
Definition paths_by_hash (records : list Packaging.asset_record) : odict string :=
  fold_left (fun d r => match ar_sha256 r, ar_source_path r with
                        | Some digest, Some p => if str_truthy digest then od_set digest (path_text p) d else d
                        | _, _ => d
                        end) records [].

(** The scene file itself, packed if that is possible. *)
Definition stage_scene (input : json) (d : odict string) : res (option string * odict string) :=
  match input with
  | JStr p =>
      if str_truthy p && bool_decide (is_Some (h_read_file h p)) then
        let staged := prepare_self_contained_blend p in
        match h_read_file h staged with
        | Some content => let digest := sha256 content in Ok (Some digest, od_set digest staged d)
        | None => Err FileNotFoundError
        end
      else Ok (None, d)
  | _ => Ok (None, d)
  end.

Fixpoint upload_all (l : list (string * string)) : planning unit :=
  match l with
  | [] => pure (Ok tt)
  | (digest, p) :: l => let^ _ := upload h p digest in upload_all l
  end.

(** ** Workers and chunks *)

(** The number of workers and whether the chunks adapt. *)
Definition effective_workers (worker_count : json) : res (Z * bool) :=
  match worker_count with
  | JNull => Ok (2, false)
  | JStr "auto" => Ok (1, true)
  | j => let! n := json_int j in Ok (Z.max 1 n, false)
  end.

Definition optional_int (j : json) : res (option Z) := match j with JNull => Ok None | j => res_map Some (json_int j) end.

Definition fuses (r : odict json) (total_frames workers : Z) (adaptive : bool) : bool :=
  is_true (get "cooperative_sample_fusion" r)
  || (is_true (get "sample_fusion" r) && (1 <? workers))
  || ((total_frames <? workers) && (1 <? workers) && negb (json_eqb (get "worker_count" r) JNull) && negb adaptive).

(** ** [build_execution_spec] *)

Definition blender_build_execution_spec (spec : workload_spec) : res execution_spec :=
  let p := ws_parameters spec in
  let scene_hash := json_or (get "input_file_hash" p) (get "scene_hash" p) in
  if negb (json_truthy scene_hash) then Err (ValueError "Blender workload missing input_file_hash")
  else
    let exec := py_str h (json_or (json_or (get "blender_executable" p) (match bh_executable b with Some e => JStr e | None => JNull end)) (JStr "blender")) in
    let remap := get "remap_script_hash" p in
    let engine := get "engine" p in
    let! timeout := json_float (h_parse_float h) (od_get_default "timeout_seconds" (JFloat (f_of_Z 14400)) p) in
    new_execution_spec exec
      (["-b"; "inputs/" +:+ py_str h scene_hash]%string
       ++ (if json_truthy engine then ["-E"%string; py_str h engine] else [])
       ++ (if json_truthy remap then ["--python"; "inputs/" +:+ py_str h remap]%string else [])
       ++ ["--python-expr"%string; bh_prepass_code b]
       ++ ["-o"; "//../outputs/frame_######"; "-s"; py_str h (od_get_default "frame_start" (JInt 1) p);
           "-e"; py_str h (od_get_default "frame_end" (JInt 1) p); "-a"]%string)
      (match od_get "sample_fusion_rank" p with Some r => [("AIDAR_SAMPLE_FUSION_RANK"%string, py_str h r)] | None => [] end)
      (Some timeout).

Definition blender_describe_expected_outputs (spec : workload_spec) : res (option Z) :=
  let! n := pydantic_int (get "expected_output_count" (ws_parameters spec)) in output_policy n.

(** ** The workloads *)

(** The values every workload of a request shares. *)
Record render_job := {
  rj_request : odict json; rj_job_id : string; rj_input_path : json; rj_input_file_hash : option string; rj_hashes : list string;
  rj_frame_start : Z; rj_frame_end : Z; rj_frame_duration : float; rj_min_cpu_cores : json; rj_min_ram_bytes : json; rj_requires_gpu : json;
  rj_min_vram_bytes : json; rj_remap_script_hash : json; rj_total_asset_bytes : Z;
}.

Definition optional_param (k : string) (j : option json) : odict json := match j with Some j => [(k, j)] | None => [] end.

(** The parameters after the frame range: the script, the renderer, the
    executable, [extra], and the scene with its command. *)
Definition render_params (rj : render_job) (first last : Z) (before extra : odict json) : odict json :=
  [("input_path", rj_input_path rj); ("frame_start", JInt first); ("frame_end", JInt last)]%string
  ++ before
  ++ [("job_frame_start", JInt (rj_frame_start rj)); ("job_frame_end", JInt (rj_frame_end rj))]%string
  ++ (if json_truthy (rj_remap_script_hash rj) then [("remap_script_hash"%string, JStr (py_str h (rj_remap_script_hash rj)))] else [])
  ++ optional_param "engine" (od_get "engine" (rj_request rj))
  ++ optional_param "blender_executable" (od_get "blender_executable" (rj_request rj))
  ++ extra
  ++ match rj_input_file_hash rj with
     | Some digest =>
         [("input_file_hash", JStr digest);
          ("command", JStr ("blender -b inputs/" +:+ digest +:+ " -o //../outputs/frame_#### -s " +:+ str_of_Z first +:+ " -e " +:+ str_of_Z last +:+ " -a"))]%string
     | None => []
     end.

(** One workload; a [ValueError] of the execution specification leaves it out. *)
Definition render_workload (rj : render_job) (idx frames : Z) (params : odict json) : res workload_spec :=
  let! hashes := validate_hashes (rj_hashes rj) in
  let! cpu := pydantic_required_int (rj_min_cpu_cores rj) in
  let! ram := pydantic_required_int (rj_min_ram_bytes rj) in
  let! gpu := pydantic_bool (rj_requires_gpu rj) in
  let! vram := pydantic_required_int (rj_min_vram_bytes rj) in
  let! n := float_of_int frames in
  let a := {| wa_workload_id := (rj_job_id rj +:+ "-chunk-" +:+ str_of_Z idx)%string; wa_job_id := Some (rj_job_id rj);
              wa_task_type := "blender_render"; wa_input_asset_hashes := hashes; wa_min_cpu_cores := cpu; wa_min_ram_bytes := ram;
              wa_requires_gpu := gpu; wa_min_vram_bytes := vram; wa_estimated_duration_seconds := fmul n (rj_frame_duration rj);
              wa_parameters := params |} in
  if args_in_bounds h a then
    match rj_input_file_hash rj with
    | None => Ok (spec_of_args a None)
    | Some _ =>
        match blender_build_execution_spec (spec_of_args a None) with
        | Ok es => Ok (spec_of_args a (Some es))
        | Err (ValueError _) => Ok (spec_of_args a None)
        | Err e => Err e
        end
    end
  else Err (ValueError "WorkloadSpec").

(** A worker of a fused render: all the frames, with its rank. *)
Definition fusion_workload (rj : render_job) (workers rank : Z) (_ : Z) : res workload_spec :=
  let total := Z.max 1 (rj_frame_end rj - rj_frame_start rj + 1) in
  render_workload rj rank total
    (render_params rj (rj_frame_start rj) (rj_frame_end rj)
       [("chunk_index", JInt rank); ("sample_fusion_rank", JInt rank); ("sample_fusion_worker_count", JInt workers);
        ("expected_output_count", JInt total)]%string []).

Definition chunk_workload (rj : render_job) (idx : Z) (chunk : Z * Z) : res workload_spec :=
  let '(first, last) := chunk in
  let frames := last - first + 1 in
  render_workload rj idx frames
    (render_params rj first last [("chunk_index", JInt idx); ("expected_output_count", JInt frames)]%string
       (if negb (od_mem "min_ram_bytes" (rj_request rj)) && (rj_total_asset_bytes rj =? 0)
        then [("resource_requirement_confidence", JStr "unverified"); ("ram_requirement_state", JStr "undeclared_unconstrained")]%string else [])).

(** [int(base + total * 1.5)] *)
Definition evidenced_ram (total_asset_bytes : Z) : res Z :=
  match f_trunc (fadd (f_of_Z (256 * 1024 * 1024)) (fmul (f_of_Z total_asset_bytes) (flit 15 1))) with
  | Some n => Ok n
  | None => Err (ValueError "cannot convert float to integer")
  end.

Definition blender_validate (r : app_request) : bool := json_truthy (get "input_path" (rq_values r)).

Definition blender_evaluate_request (r : app_request) : planning (list workload_spec) :=
  let p := rq_values r in
  let input := get "input_path" p in
  let frame k dflt := json_frame (od_get_default k (JInt dflt) p) in
  let requires_gpu := od_get_default "requires_gpu" (JBool false) p in
  let^ duration := pure (json_float (h_parse_float h) (od_get_default "estimated_frame_duration_seconds" (JFloat (f_of_Z 2)) p)) in
  let^ effective := pure (effective_workers (get "worker_count" p)) in
  let workers := fst effective in
  let^ chunk_count := pure (optional_int (get "chunk_count" p)) in
  let adaptive := snd effective && bool_decide (chunk_count = None) in
  let^ input_path := pure (match input with JStr s => Ok s | _ => Err TypeError end) in
  let^ snapshot := pure (bh_load_scene b input_path) in
  let^ g := pure (SceneGraph.build snapshot) in
  let^ first := pure (frame "frame_start"%string 1) in
  let^ last := pure (frame "frame_end"%string 250) in
  let^ chunks := pure (schedule_ranges default_chunking first last workers chunk_count (Some duration) adaptive) in
  let^ records := pure (resolve_required_assets snapshot g input_path) in
  let^ staged := pure (stage_scene input (paths_by_hash records)) in
  let '(input_file_hash, paths) := staged in
  let^ _ := upload_all paths in
  let total_asset_bytes := sumZ (map ar_size_bytes records) in
  let^ evidenced := pure (evidenced_ram total_asset_bytes) in
  let remap := get "remap_script_hash" p in
  let rj := {| rj_request := p; rj_job_id := ("job-" +:+ str_take 16 (h_uuid h))%string; rj_input_path := input;
               rj_input_file_hash := input_file_hash;
               rj_hashes := od_keys paths ++ (if json_truthy remap then [py_str h remap] else []);
               rj_frame_start := first; rj_frame_end := last; rj_frame_duration := duration;
               rj_min_cpu_cores := od_get_default "min_cpu_cores" (JInt 1) p;
               rj_min_ram_bytes := od_get_default "min_ram_bytes" (JInt (if 0 <? total_asset_bytes then evidenced else 256 * 1024 * 1024)) p;
               rj_requires_gpu := requires_gpu;
               rj_min_vram_bytes := od_get_default "min_vram_bytes" (JInt (if json_truthy requires_gpu then 2 * GIB_bytes else 0)) p;
               rj_remap_script_hash := remap; rj_total_asset_bytes := total_asset_bytes |} in
  if fuses p (Z.max 1 (last - first + 1)) workers adaptive
  then pure (build_each (fusion_workload rj workers) 0 (seqZ 0 workers))
  else pure (build_each (chunk_workload rj) 0 chunks).
End render.

#[export] Instance blender_adapter (h : host) (b : blender_host) : ApplicationAdapter := {|
  validate := blender_validate;
  evaluate_request := blender_evaluate_request h b;
  build_execution_spec := blender_build_execution_spec h b;
  describe_expected_outputs := blender_describe_expected_outputs;
|}.

(** ** [fuse_sample_buffers] *)

Section fusion.
Context {T : Type} (ops : tensor_ops T).

(** The images averaged by weight; anything that fails leaves the first one. *)
Definition fuse_sample_buffers (buffers : list T) (weights : option (list float)) : option T :=
  match buffers with
  | [] => None
  | first :: _ =>
      let n := Z.of_nat (length buffers) in
      let weights := match weights with
                     | Some l => if Z.of_nat (length l) =? n then l else repeat (fdivZ 1 n) (length buffers)
                     | None => repeat (fdivZ 1 n) (length buffers)
                     end in
      let total := fsum weights in
      let fused := if feq total f0 then Err ZeroDivisionError
                   else accumulate_arrays ops (t_zeros ops first) (zip buffers (map (fun w => fdiv w total) weights)) in
      Some (match fused with Ok t => t | Err _ => first end)
  end.
End fusion.

(** ** [compute_job_frame_coverage] *)

Section coverage.
Context {SJ SW : Type} `{RecordStore SJ job_record} `{RecordStore SW workload_record}.

(** A workload's chunk with the range its job declares; [None] for a workload
    without frames. *)
Definition chunk_of (reg : registry SW) (wid : string) : res (option (chunk_coverage * (json * json))) :=
  match get_workload reg wid with
  | None => Ok None
  | Some record =>
      let p := ws_parameters (wr_spec record) in
      match get "frame_start" p, get "frame_end" p with
      | JNull, _ | _, JNull => Ok None
      | first, last =>
          let! s := json_frame first in
          let! e := json_frame last in
          Ok (Some ({| ch_workload_id := wid; ch_frame_start := s; ch_frame_end := e;
                       ch_is_complete := bool_decide (wr_state record = COMPLETED) |},
                    (od_get_default "job_frame_start" first p, od_get_default "job_frame_end" last p)))
      end
  end.

Definition is_null (j : json) : bool := match j with JNull => true | _ => false end.

(** The range is the one the first workload declares. *)
Definition compute_job_frame_coverage (job_id : string) (jobs : jobs SJ) (reg : registry SW) : res (option frame_coverage_report) :=
  match get_job jobs job_id with
  | None => Ok None
  | Some job =>
      let! found := res_all (chunk_of reg) (elements (jr_workload_ids job)) in
      let chunks := omap id found in
      match List.find (fun c => negb (is_null (fst (snd c)))) chunks with
      | Some (_, (first, last)) =>
          if is_null last then Ok None
          else
            let! s := json_frame first in
            let! e := json_frame last in
            Ok (Some (compute_frame_coverage s e (map fst chunks)))
      | None => Ok None
      end
  end.
End coverage.
