(* ===== verification/MLAdaptersProps.v ===== *)
(** * What the adapters plan ([MLAdapters], [MLPlatforms], [AppAdapters], [MLRun])

    The shards of a training job, from the request to the rows a worker loads;
    the shape of every adapter's plan; the runs that lose work. *)
From Stdlib Require Import SpecFloat.
From S2P Require Export MLShardsProps MLPlatforms AppAdapters MLRun.

(** ** Loops that build specifications *)

Lemma build_each_ok {A} (build : Z -> A -> res workload_spec) i l specs :
  build_each build i l = Ok specs -> Forall2 (fun '(j, x) s => build j x = Ok s) (zip (seqZ i (Z.of_nat (length l))) l) specs.
Proof.
  revert i specs. induction l as [|x l IH]; intros i specs; simpl.
  - intros [= <-]. by destruct (seqZ i 0).
  - intros (s & Hs & (rest & Hrest & [= <-])%res_bind_ok)%res_bind_ok. rewrite seqZ_cons by lia. simpl. constructor; [done|].
    replace (Z.pred (Z.of_nat (S (length l)))) with (Z.of_nat (length l)) by lia. by apply IH.
Qed.

Lemma build_each_lookup {A} (build : Z -> A -> res workload_spec) l specs k :
  build_each build 0 l = Ok specs ->
  length specs = length l
  /\ (forall x, l !! k = Some x -> exists s, specs !! k = Some s /\ build (Z.of_nat k) x = Ok s)
  /\ (forall s, specs !! k = Some s -> exists x, l !! k = Some x /\ build (Z.of_nat k) x = Ok s).
Proof.
  intros H%build_each_ok. assert (length (zip (seqZ 0 (Z.of_nat (length l))) l) = length l) as Hlen.
  { rewrite length_zip_with, length_seqZ. lia. }
  assert (forall x, l !! k = Some x -> zip (seqZ 0 (Z.of_nat (length l))) l !! k = Some (Z.of_nat k, x)) as Hzip.
  { intros x Hx. apply lookup_lt_Some in Hx as Hk. apply lookup_zip_with_Some. exists (Z.of_nat k), x. split_and!; [done| |done].
    apply lookup_seqZ. lia. }
  split_and!.
  - rewrite <- (Forall2_length _ _ _ H), Hlen. done.
  - intros x Hx. by destruct (Forall2_lookup_l _ _ _ _ _ H (Hzip x Hx)) as (s & Hs & Hb); eauto.
  - intros s Hs. destruct (Forall2_lookup_r _ _ _ _ _ H Hs) as ([j x] & Hx & Hb).
    apply lookup_zip_with_Some in Hx as (j' & x' & [= -> ->] & Hj & Hx). apply lookup_seqZ in Hj as [-> _]. by exists x'.
Qed.

Lemma and_then_ok {A B} (m : planning A) (f : A -> planning B) t b :
  and_then m f = (t, Ok b) -> exists t1 a t2, m = (t1, Ok a) /\ f a = (t2, Ok b) /\ t = t1 ++ t2.
Proof.
  destruct m as [t1 [a|e]]; simpl; [|done]. destruct (f a) as [t2 r] eqn:E. intros [= <- ->]. by exists t1, a, t2.
Qed.

Lemma pure_ok {A} (r : res A) t a : pure r = (t, Ok a) -> t = [] /\ r = Ok a.
Proof. by intros [= <- ->]. Qed.

Lemma build_workload_ok h a build s :
  build_workload h a build = Ok s -> exists es, build (spec_of_args a None) = Ok es /\ s = spec_of_args a (Some es).
Proof. unfold build_workload. destruct (args_in_bounds h a); [|done]. intros (es & He & [= <-])%res_bind_ok. by exists es. Qed.

Lemma new_execution_spec_ok program args env timeout es :
  new_execution_spec program args env timeout = Ok es -> es_env es = env /\ es_args es = args /\ es_executable es = program.
Proof. unfold new_execution_spec. destruct timeout as [t|]; [destruct (fgt t f0); [|done]|]; by intros [= <-]. Qed.

(** Undo the steps of a plan that succeeded. *)
Ltac undo_planning :=
  repeat match goal with
         | H : and_then _ _ = (_, Ok _) |- _ => apply and_then_ok in H as (? & ? & ? & ? & H & ?)
         | H : pure _ = (_, Ok _) |- _ => apply pure_ok in H as [? H]
         | H : context [match ?x with (_, _) => _ end] |- _ => destruct x eqn:?
         end; subst.

(** ** From the request to the rows of a worker *)

Section shards.
Context (h : host).

(** The environment of a workload's process. *)
Definition env_of (s : workload_spec) : odict string := match ws_execution_spec s with Some es => es_env es | None => [] end.

(** The rows the hook hands to the script of a workload. *)
Definition rows_of {A} (data : list A) (s : workload_spec) : res (list A) := shard_dataset (h_parse_float h) (env_of s) data.

(** The workers of a plan: those that can run it, or one unknown worker. *)
Abbreviation crew ws := (capable_workers ws).

Lemma capable_workers_nonempty ws : crew ws <> [].
Proof. unfold capable_workers. by destruct (List.filter _ ws). Qed.

Lemma worker_shares_length ws : length (worker_shares ws) = length ws.
Proof. unfold worker_shares, shares_of. by rewrite !length_map. Qed.

Lemma shards_of_ratios ws : map (fun x => snd (snd x)) (shards_of ws) = ratios (worker_shares ws).
Proof.
  unfold shards_of. apply list_eq. intros k. rewrite list_lookup_fmap.
  destruct (ratios (worker_shares ws) !! k) as [r|] eqn:Er.
  - apply lookup_lt_Some in Er as Hk. unfold ratios in Hk. rewrite ratios_from_length, worker_shares_length in Hk.
    destruct (lookup_lt_is_Some_2 ws k Hk) as [w Hw].
    assert (zip ws (zip (map score_of ws) (ratios (worker_shares ws))) !! k = Some (w, (score_of w, r))) as ->; [|done].
    apply lookup_zip_with_Some. exists w, (score_of w, r). split_and!; [done|done|].
    apply lookup_zip_with_Some. exists (score_of w), r. by rewrite list_lookup_fmap, Hw.
  - destruct (zip ws _ !! k) as [[w [s r]]|] eqn:E; [|done].
    apply lookup_zip_with_Some in E as (? & ? & [= <- <-] & _ & E). apply lookup_zip_with_Some in E as (? & ? & [= <- <-] & _ & E). congruence.
Qed.

Lemma shards_of_length ws : length (shards_of ws) = length ws.
Proof. rewrite <- (length_map (fun x => snd (snd x))), shards_of_ratios. unfold ratios. by rewrite ratios_from_length, worker_shares_length. Qed.

(** A workload's rows are the slice of its ratios, read back from the text in
    its environment. *)
Lemma plan_shard_rows {A} (data : list A) j hashes gpu sc ds sh dh ep bs nw i x s :
  (forall f, h_parse_float h (h_repr h (JFloat f)) = Some f) ->
  plan_shard h j hashes gpu sc ds sh dh ep bs nw i x = Ok s -> 4 <= Z.of_nat (length data) ->
  rows_of data s = let! r := get_shard_range (Z.of_nat (length data)) (fst (snd (snd x))) (snd (snd (snd x))) in Ok (slice (fst r) (snd r) data).
Proof.
  intros Hparse Hs Hn. destruct x as [w [score [a b]]]. unfold plan_shard in Hs. destruct (worker_tuning _ w) as [threads low].
  apply res_bind_ok in Hs as (sec & _ & Hs). apply build_workload_ok in Hs as (es & He & ->).
  apply res_bind_ok in He as (out & _ & He). apply new_execution_spec_ok in He as [He _].
  unfold rows_of, shard_dataset. rewrite (proj2 (Z.ltb_ge _ _)) by lia. unfold env_of, spec_of_args. cbn [ws_execution_spec]. rewrite He.
  unfold shard_range_of_env, env_ratio.
  change (od_get "AIDAR_SHARD_START_RATIO" (("AIDAR_ADAPTER"%string, _) :: _)) with (Some (h_repr h (JFloat a))).
  change (od_get "AIDAR_SHARD_END_RATIO" (("AIDAR_ADAPTER"%string, _) :: _)) with (Some (h_repr h (JFloat b))).
  cbv beta iota. by rewrite !Hparse.
Qed.
End shards.


(** ** The shape of a plan *)

(** Workloads that wait for nothing, belong to one job, can be executed and
    have ids of their own. *)
Definition independent (job : option string) (s : workload_spec) : Prop :=
  ws_depends_on s = [] /\ ws_job_id s = job /\ is_Some (ws_execution_spec s).

Definition independent_tasks (specs : list workload_spec) : Prop :=
  specs <> [] /\ NoDup (map ws_workload_id specs) /\ exists job, Forall (independent job) specs.

Definition chunk_id (job mid : string) (i : Z) : string := (job +:+ mid +:+ str_of_Z i)%string.

Lemma chunk_id_inj job mid i j : chunk_id job mid i = chunk_id job mid j -> i = j.
Proof. unfold chunk_id. intros H. do 2 apply (inj (String.append _)) in H. by apply str_of_Z_inj. Qed.

(** [build] makes the workload number [i] of a job. *)
Definition numbers {A} (job : option string) (prefix mid : string) (build : Z -> A -> res workload_spec) : Prop :=
  forall i x s, build i x = Ok s -> ws_workload_id s = chunk_id prefix mid i /\ independent job s.

Lemma build_each_distinct {A} prefix mid (build : Z -> A -> res workload_spec) l specs :
  (forall i x s, build i x = Ok s -> ws_workload_id s = chunk_id prefix mid i) ->
  build_each build 0 l = Ok specs -> NoDup (map ws_workload_id specs).
Proof.
  intros Hb Hspecs. pose proof (fun k => build_each_lookup build l specs k Hspecs) as Hk.
  apply NoDup_alt. intros i j id. rewrite !list_lookup_fmap. intros (s & Hs & ->)%fmap_Some (s' & Hs' & Hid)%fmap_Some.
  destruct (Hk i) as (_ & _ & Hi), (Hk j) as (_ & _ & Hj). destruct (Hi s Hs) as (x & _ & E%Hb), (Hj s' Hs') as (y & _ & E'%Hb).
  rewrite E, E' in Hid. apply chunk_id_inj in Hid. lia.
Qed.

Lemma build_each_tasks {A} job prefix mid (build : Z -> A -> res workload_spec) l specs :
  numbers job prefix mid build -> l <> [] -> build_each build 0 l = Ok specs -> independent_tasks specs.
Proof.
  intros Hb Hl Hspecs. pose proof (fun k => build_each_lookup build l specs k Hspecs) as Hk. split_and!.
  - intros ->. destruct (Hk 0%nat) as [Hlen _]. by destruct l.
  - eapply build_each_distinct; [|exact Hspecs]. by intros i x s [? _]%Hb.
  - exists job. apply Forall_lookup. intros k s Hs. destruct (Hk k) as (_ & _ & Hr). by destruct (Hr s Hs) as (x & _ & [_ ?]%Hb).
Qed.

Lemma built_independent a es : independent (wa_job_id a) (spec_of_args a (Some es)).
Proof. by split_and!. Qed.

Lemma one_task h a build s : build_workload h a build = Ok s -> independent_tasks [s].
Proof.
  intros (es & _ & ->)%build_workload_ok. split_and!; [done|apply NoDup_singleton|]. exists (wa_job_id a). constructor; [apply built_independent|constructor].
Qed.

Lemma built_numbered h a build s job prefix mid i :
  build_workload h a build = Ok s -> wa_workload_id a = chunk_id prefix mid i -> wa_job_id a = job ->
  ws_workload_id s = chunk_id prefix mid i /\ independent job s.
Proof. intros (es & _ & ->)%build_workload_ok Hid <-. split; [done|apply built_independent]. Qed.

Lemma shards_of_nonempty ws : ws <> [] -> shards_of ws <> [].
Proof. intros H E. apply H, nil_length_inv. by rewrite <- shards_of_length, E. Qed.

Lemma platform_workers_nonempty ws r : platform_workers ws r <> [].
Proof. unfold platform_workers. destruct ws; [by destruct (rq_active_workers r)|done]. Qed.

(** What [validate_plan] makes of independent tasks. *)
Lemma tasks_described limit specs :
  independent_tasks specs ->
  let d := {| ed_execution_shape := if 1 <? Z.of_nat (length specs) then TASK_SPLIT else SINGLE_MACHINE; ed_workloads := specs;
              ed_required_worker_count := 1 |} in
  shape_of specs = ed_execution_shape d /\ validate_plan limit d = Ok d.
Proof.
  intros (Hne & _ & job & Hind). cbv zeta. split.
  - unfold shape_of. simpl. destruct (existsb _ specs) eqn:E; [|done]. apply existsb_exists in E as (s & Hs%list_elem_of_In & E).
    rewrite Forall_forall in Hind. destruct (Hind s Hs) as [Hd _]. by rewrite Hd in E.
  - unfold validate_plan. simpl. rewrite bool_decide_false by done. simpl. destruct specs as [|s [|s' rest]]; [done|done|].
    cbn [length]. rewrite (proj2 (Z.ltb_lt _ _)) by lia. done.
Qed.

(** [build_each] over numbered workloads, from the arguments of one. *)
Ltac numbered :=
  intros ? ? ? ?;
  repeat match goal with
         | x : _ * _ |- _ => destruct x
         | H : context [let (_, _) := ?e in _] |- _ => destruct e eqn:?
         | H : res_bind _ _ = Ok _ |- _ => apply res_bind_ok in H as (? & ? & H)
         end;
  eapply built_numbered; [eassumption|unfold rank_args; cbn [wa_workload_id]; reflexivity|unfold rank_args; cbn [wa_job_id]; reflexivity].

Section adapters.
Context (h : host).

Lemma ml_numbers j hashes gpu sc ds sh dh ep bs nw :
  numbers j (match j with Some j => j | None => "None" end) "-chunk-" (plan_shard h j hashes gpu sc ds sh dh ep bs nw).
Proof. unfold numbers, plan_shard. numbered. Qed.

Lemma ml_plan_tasks job_spec ws t specs : plan_shards h job_spec ws = (t, Ok specs) -> independent_tasks specs.
Proof.
  unfold plan_shards. destruct (match job_spec with inl _ => _ | inr _ => _ end) as [[[p gpu] j] hashes]. intros H. undo_planning.
  eapply build_each_tasks; [apply ml_numbers|apply shards_of_nonempty, capable_workers_nonempty|done].
Qed.

Lemma ml_tasks r ws t specs : ml_evaluate_request h r ws = (t, Ok specs) -> independent_tasks specs.
Proof.
  unfold ml_evaluate_request. intros H. apply and_then_ok in H as (? & wc & ? & _ & H & _).
  destruct (negb _ || _); [by eapply ml_plan_tasks|]. undo_planning. injection H as <-. by eapply one_task.
Qed.

Lemma ddp_tasks r ws t specs : ddp_evaluate_request h r ws = (t, Ok specs) -> independent_tasks specs.
Proof.
  unfold ddp_evaluate_request. intros H. apply and_then_ok in H as (? & ep & ? & _ & H & _). apply and_then_ok in H as (? & bs & ? & _ & H & _).
  apply and_then_ok in H as (? & port & ? & _ & H & _). apply and_then_ok in H as (? & workers & ? & [_ Hw]%pure_ok & H & _).
  assert (workers <> []) as Hne.
  { destruct ws, (rq_active_workers r); [|by injection Hw as <-..]. apply res_bind_ok in Hw as (n & _ & [= <-]).
    by destruct (Z.to_nat (Z.max 1 n)) eqn:E; [lia|]. }
  undo_planning. eapply (build_each_tasks _ _ "-rank-"); [|by apply shards_of_nonempty|done]. unfold numbers, ddp_plan_rank. numbered.
Qed.

Lemma kohya_tasks r ws t specs : kohya_evaluate_request h r ws = (t, Ok specs) -> independent_tasks specs.
Proof.
  unfold kohya_evaluate_request. intros H. undo_planning. eapply (build_each_tasks _ _ "-rank-"); [| |done].
  - unfold numbers, kohya_plan_rank. numbered.
  - intros E%(f_equal length). rewrite length_zip_with, shards_of_length, worker_shares_length in E.
    pose proof (platform_workers_nonempty ws r). destruct (platform_workers ws r); [done|simpl in E; lia].
Qed.

Lemma comfyui_tasks r ws t specs : comfyui_evaluate_request h r ws = (t, Ok specs) -> independent_tasks specs.
Proof.
  unfold comfyui_evaluate_request. intros H. undo_planning. eapply (build_each_tasks _ _ "-rank-"); [|apply platform_workers_nonempty|done].
  unfold numbers, comfyui_plan_rank. numbered.
Qed.

Lemma rvc_tasks r ws t specs : rvc_evaluate_request h r ws = (t, Ok specs) -> independent_tasks specs.
Proof.
  unfold rvc_evaluate_request. destruct (is_stage _ _); intros H; undo_planning.
  - eapply (build_each_tasks _ _ "-rank-"); [|apply platform_workers_nonempty|done]. unfold numbers, plan_files. numbered.
  - eapply (build_each_tasks _ _ "-rank-"); [|apply shards_of_nonempty, platform_workers_nonempty|done]. unfold numbers, rvc_plan_training. numbered.
Qed.

Lemma voicebox_tasks r ws t specs : voicebox_evaluate_request h r ws = (t, Ok specs) -> independent_tasks specs.
Proof.
  unfold voicebox_evaluate_request. destruct (is_stage _ _); intros H; undo_planning.
  - eapply (build_each_tasks _ _ "-rank-"); [|apply platform_workers_nonempty|done]. unfold numbers, plan_files. numbered.
  - eapply (build_each_tasks _ _ "-rank-"); [|apply shards_of_nonempty, platform_workers_nonempty|done]. unfold numbers, voicebox_plan_training. numbered.
Qed.

Lemma custom_tasks python r t specs : custom_evaluate_request h python r = (t, Ok specs) -> independent_tasks specs.
Proof. unfold custom_evaluate_request. intros H. undo_planning. injection H as <-. by eapply one_task. Qed.

Lemma llm_tasks code dumps md5 r t specs : llm_evaluate_request h code dumps md5 r = (t, Ok specs) -> independent_tasks specs.
Proof.
  unfold llm_evaluate_request. intros H. do 7 apply and_then_ok in H as (? & ? & ? & _ & H & _).
  destruct (_ && _) eqn:E.
  - apply pure_ok in H as [_ H]. eapply (build_each_tasks _ _ "-chunk-"); [| |done].
    + unfold numbers, plan_prompt, llm_args. intros i y s (a & (gpu & _ & (tk & _ & [= <-])%res_bind_ok)%res_bind_ok & Hs)%res_bind_ok.
      eapply built_numbered; [exact Hs|cbn [wa_workload_id]; reflexivity|cbn [wa_job_id]; reflexivity].
    + intros Hnil. by rewrite Hnil in E.
  - undo_planning. injection H as <-. by eapply one_task.
Qed.

Lemma ffmpeg_tasks exec walk names extract workers r t specs :
  ffmpeg_evaluate_request h exec walk names extract workers r = (t, Ok specs) -> independent_tasks specs.
Proof.
  unfold ffmpeg_evaluate_request. intros H. do 6 apply and_then_ok in H as (? & ? & ? & _ & H & _).
  destruct (_ && fgt _ _) eqn:E; [|undo_planning; injection H as <-; by eapply one_task].
  apply andb_true_iff in E as [E _]. apply and_then_ok in H as (? & scores & ? & [_ Hscores]%pure_ok & H & _). apply pure_ok in H as [_ H].
  eapply (build_each_tasks _ _ "-chunk-"); [| |done].
  - unfold numbers, plan_piece, video_args. intros i [st d] s (a & (gpu & _ & [= <-])%res_bind_ok & Hs)%res_bind_ok.
    eapply built_numbered; [exact Hs|cbn [wa_workload_id]; reflexivity|cbn [wa_job_id]; reflexivity].
  - assert (scores <> []) as Hne.
    { destruct workers as [|w ws].
      - injection Hscores as <-. simpl in E. rewrite orb_false_r in E. apply Z.ltb_lt in E. destruct (Z.to_nat _) eqn:En; [lia|done].
      - unfold res_all in Hscores. simpl in Hscores. by apply res_bind_ok in Hscores as (? & _ & (? & _ & [= <-])%res_bind_ok). }
    by destruct scores.
Qed.

(** The adapters of the repository, on one machine. *)
Definition adapters python exec walk names extract workers code dumps md5 : list ApplicationAdapter :=
  [ml_training_adapter h; pytorch_ddp_adapter h; kohya_adapter h; comfyui_adapter h; rvc_adapter h; voicebox_adapter h;
   custom_script_adapter h python; ffmpeg_adapter h exec walk names extract workers; llm_adapter h code dumps md5].

Lemma adapters_plan_tasks python exec walk names extract workers code dumps md5 :
  Forall (fun A => forall r t specs, @evaluate_request A r = (t, Ok specs) -> independent_tasks specs)
    (adapters python exec walk names extract workers code dumps md5).
Proof.
  repeat apply Forall_cons_2; [..|apply Forall_nil_2]; intros r t specs; simpl.
  - apply ml_tasks.
  - apply ddp_tasks.
  - apply kohya_tasks.
  - apply comfyui_tasks.
  - apply rvc_tasks.
  - apply voicebox_tasks.
  - apply custom_tasks.
  - apply ffmpeg_tasks.
  - apply llm_tasks.
Qed.
End adapters.

(** C38: What any of the adapters plans for a request is ready for submission:
    there is a workload, the ids are distinct, all belong to one job, none waits
    for another, and every one says what to execute; so the description of the
    request is accepted, as a split into tasks if there are several workloads
    and as work for a single machine if there is one. *)
Theorem every_adapter_plans_tasks h python exec walk names extract workers code dumps md5 A r t specs limit :
  A ∈ adapters h python exec walk names extract workers code dumps md5 -> @evaluate_request A r = (t, Ok specs) ->
  independent_tasks specs
  /\ @describe_request A limit r
     = (t, Ok {| ed_execution_shape := if 1 <? Z.of_nat (length specs) then TASK_SPLIT else SINGLE_MACHINE; ed_workloads := specs;
                 ed_required_worker_count := 1 |}).
Proof.
  intros HA Hr. pose proof (adapters_plan_tasks h python exec walk names extract workers code dumps md5) as H. rewrite Forall_forall in H.
  specialize (H A HA r t specs Hr). split; [done|]. unfold describe_request. rewrite Hr. simpl.
  destruct (tasks_described limit specs H) as [E Hv]. rewrite E. simpl in *. rewrite Hv. by rewrite app_nil_r.
Qed.

(** ** The loop of a run *)

Section runs.
Context (answer : Z -> string -> poll_answer) (expired : Z -> bool).

(** Everything noted as done was reported complete. *)
Definition reported (ids : list string) (done : odict completed_workload) : Prop :=
  od_wf done /\ forall wid d, od_get wid done = Some d -> wid ∈ ids /\ exists turn, answer turn wid = COMPLETED d.

Lemma poll_pass_reported turn ids all done done' :
  (forall wid, wid ∈ ids -> wid ∈ all) -> reported all done -> poll_pass answer turn ids done = Some done' -> reported all done'.
Proof.
  revert done. induction ids as [|wid ids IH]; intros done Hin Hd; simpl; [by intros [= <-]|].
  assert (forall w, w ∈ ids -> w ∈ all) as Hin' by (intros; apply Hin; by constructor).
  destruct (od_mem wid done); [by apply IH|]. destruct (answer turn wid) as [|d|] eqn:E; [by apply IH| |done].
  apply IH; [done|]. destruct Hd as [Hwf Hd]. split; [by apply od_set_wf|]. intros w d'. rewrite od_get_set.
  destruct (String.eqb_spec w wid) as [->|]; [|by apply Hd]. intros [= <-]. split; [apply Hin; by constructor|eauto].
Qed.

Lemma poll_reported fuel turn ids done done' :
  reported ids done -> poll_until_done answer expired fuel turn ids done = Some done' ->
  reported ids done' /\ (length ids <= length done')%nat.
Proof.
  revert turn done. induction fuel as [|fuel IH]; intros turn dn Hd; simpl;
    (destruct (Z.ltb_spec (Z.of_nat (length dn)) (Z.of_nat (length ids))) as [|Hge]; [|intros [= <-]; split; [done|lia]]); [done|].
  destruct (expired turn); [done|]. destruct (poll_pass answer turn ids dn) as [d|] eqn:E; [|done].
  apply IH. by eapply poll_pass_reported.
Qed.

Lemma poll_complete fuel ids dn :
  NoDup ids -> poll_until_done answer expired fuel 0 ids [] = Some dn ->
  forall wid, wid ∈ ids -> exists turn d, od_get wid dn = Some d /\ answer turn wid = COMPLETED d.
Proof.
  intros Hnd H. apply poll_reported in H as [[Hwf Hd] Hlen]; [|split; [constructor|done]].
  assert (od_keys dn ⊆+ ids) as Hsub.
  { apply NoDup_submseteq; [done|]. intros w Hw. destruct (od_get w dn) as [d|] eqn:E; [by apply (Hd w d)|].
    by apply od_get_None_keys in E. }
  assert (od_keys dn ≡ₚ ids) as Hperm by (apply submseteq_length_Permutation; [done|unfold od_keys; by rewrite length_map]).
  intros wid Hin. rewrite <- Hperm in Hin. destruct (od_get wid dn) as [d|] eqn:E; [|by apply od_get_None_keys in E].
  destruct (Hd wid d E) as [_ [turn Ht]]. by exists turn, d.
Qed.

(** When the time is up at some turn, more turns change nothing. *)
Lemma poll_enough fuel fuel' turn k ids done :
  expired (turn + Z.of_nat k) = true -> (k < fuel)%nat -> (k < fuel')%nat ->
  poll_until_done answer expired fuel turn ids done = poll_until_done answer expired fuel' turn ids done.
Proof.
  revert fuel fuel' turn done. induction k as [|k IH]; intros [|fuel] [|fuel'] turn dn Hk Hf Hf'; try lia; simpl.
  - replace (turn + Z.of_nat 0) with turn in Hk by lia. by rewrite Hk.
  - destruct (_ <? _); [|done]. destruct (expired turn); [done|]. destruct (poll_pass _ _ _ _); [|done].
    apply IH; [|lia|lia]. by replace (turn + 1 + Z.of_nat k) with (turn + Z.of_nat (S k)) by lia.
Qed.
End runs.

(** A run that merges has seen every workload it submitted reported complete,
    and what it merges are the directories of these; it ends at the latest when
    its time is up. *)
Theorem run_merges_completed_work h fetch submit answer expired turns merge script dataset epochs batch gpu workers submitted m :
  run_ml_distributed h fetch submit answer expired turns merge script dataset epochs batch gpu workers = Ok (0, submitted, Some m) ->
  submitted <> []
  /\ (forall wid, wid ∈ submitted -> exists turn d, answer turn wid = COMPLETED d)
  /\ (forall k more, expired (Z.of_nat k) = true -> (k < turns)%nat -> (turns <= more)%nat ->
        run_ml_distributed h fetch submit answer expired more merge script dataset epochs batch gpu workers = Ok (0, submitted, Some m)).
Proof.
  unfold run_ml_distributed. destruct (h_read_file h script) as [content|]; [|done]. intros (specs & Hplan & H)%res_bind_ok.
  assert (NoDup (map ws_workload_id (List.filter submit specs))) as Hnd.
  { destruct (plan_shards _ _ _) as [t r] eqn:E. simpl in Hplan. subst r. apply ml_plan_tasks in E as (_ & Hnd & _).
    eapply sublist_NoDup; [exact Hnd|]. apply (fmap_sublist ws_workload_id). clear. induction specs as [|s l IH]; simpl; [done|].
    destruct (submit s); by constructor. }
  destruct (map ws_workload_id (List.filter submit specs)) as [|w ws] eqn:Eids; [done|].
  destruct (poll_until_done _ _ _ _ _ _) as [dn|] eqn:Epoll; [|done]. apply res_bind_ok in H as (s & Hs & [= <- <-]). split_and!; [done|..].
  - intros wid Hin. destruct (poll_complete _ _ _ _ _ Hnd Epoll wid Hin) as (turn & d & _ & Ht). by exists turn, d.
  - intros k more Hk Hlt Hle. rewrite Hplan. simpl. rewrite Eids.
    rewrite <- (poll_enough _ _ turns more 0 k) by (done || lia). rewrite Epoll. by rewrite Hs.
Qed.

(** ** Examples *)

(** A text for every number, and its reading. *)
Fixpoint pos_text (p : positive) (rest : string) : string :=
  match p with xH => String "." rest | xO p => String "0" (pos_text p rest) | xI p => String "1" (pos_text p rest) end.
Fixpoint text_pos (s : string) : option (positive * string) :=
  match s with
  | String c s =>
      if Ascii.eqb c "." then Some (xH, s)
      else '(p, rest) ← text_pos s; Some (if Ascii.eqb c "0" then xO p else xI p, rest)
  | EmptyString => None
  end.
Definition Z_text (z : Z) (rest : string) : string :=
  match z with Z0 => String "z" rest | Zpos p => String "+" (pos_text p rest) | Zneg p => String "-" (pos_text p rest) end.
Definition text_Z (s : string) : option Z :=
  match s with
  | String c s =>
      if Ascii.eqb c "z" then Some 0
      else '(p, _) ← text_pos s; Some (if Ascii.eqb c "+" then Zpos p else Zneg p)
  | EmptyString => None
  end.
Definition float_text (f : float) : string :=
  let sign (b : bool) := if b then "-"%char else "+"%char in
  match f with
  | S754_zero b => String "0" (String (sign b) "")
  | S754_infinity b => String "i" (String (sign b) "")
  | S754_nan => "nan"
  | S754_finite b m e => String "f" (String (sign b) (pos_text m (Z_text e "")))
  end.
Definition text_float (s : string) : option float :=
  match s with
  | String k (String c rest) =>
      let b := Ascii.eqb c "-" in
      if Ascii.eqb k "0" then Some (S754_zero b)
      else if Ascii.eqb k "i" then Some (S754_infinity b)
      else if Ascii.eqb k "f" then '(m, r) ← text_pos rest; e ← text_Z r; Some (S754_finite b m e)
      else Some S754_nan
  | _ => None
  end.

Lemma text_pos_text p rest : text_pos (pos_text p rest) = Some (p, rest).
Proof. induction p as [p IH|p IH|]; simpl; [by rewrite IH|by rewrite IH|done]. Qed.

Lemma text_float_text f : text_float (float_text f) = Some f.
Proof.
  destruct f as [[]|[]| |[] m e]; try done; simpl; rewrite text_pos_text; simpl;
    (destruct e as [|p|p]; simpl; [done| |]; by rewrite text_pos_text).
Qed.

(** A machine without files and networks. *)
Definition bare_host : host :=
  {| h_read_file _ := None; h_upload := None; h_uuid := "0123456789abcdef0123456789abcdef"; h_pythonpath := None;
     h_repr j := match j with JFloat f => float_text f | _ => "?" end; h_encoded_size _ := 0; h_parse_float := text_float;
     h_gethostbyname _ := None; h_if_addrs := []; h_if_up _ := false |}.

Definition plan_of (m : planning (list workload_spec)) : list workload_spec := match m with (_, Ok l) => l | _ => [] end.


Lemma every_adapter_witness :
  let r := {| rq_values := [("script", JStr "train.py"); ("worker_count", JInt 2)]%string; rq_active_workers := [] |} in
  exists t d, @describe_request (ml_training_adapter bare_host) 1000 r = (t, Ok d) /\ ed_execution_shape d = TASK_SPLIT
    /\ map ws_workload_id (ed_workloads d) = ["ml-train-0123456789abcdef-chunk-0"; "ml-train-0123456789abcdef-chunk-1"]%string.
Proof.
  cbv zeta. set (r := {| rq_values := _; rq_active_workers := _ |}).
  destruct (@evaluate_request (ml_training_adapter bare_host) r) as [t res] eqn:E.
  assert (exists specs, res = Ok specs /\ length specs = 2%nat
    /\ map ws_workload_id specs = ["ml-train-0123456789abcdef-chunk-0"; "ml-train-0123456789abcdef-chunk-1"]%string) as (specs & -> & Hlen & Hids).
  { vm_compute in E. injection E as <- <-. eexists. split_and!; [reflexivity|reflexivity|vm_compute; reflexivity]. }
  exists t. eexists. split_and!; [|..].
  - eapply (every_adapter_plans_tasks bare_host "python" None (fun _ => None) (fun _ => None) (fun _ _ => None) [] "" (fun _ => "") (fun s => s));
      [left|exact E].
  - cbn [ed_execution_shape]. rewrite Hlen. reflexivity.
  - exact Hids.
Defined.

(** A machine that holds the script. *)
Definition script_host : host :=
  {| h_read_file p := if String.eqb p "train.py" then Some "pass"%string else None; h_upload := None; h_uuid := "0123456789abcdef";
     h_pythonpath := None; h_repr := h_repr bare_host; h_encoded_size _ := 0; h_parse_float := text_float; h_gethostbyname _ := None;
     h_if_addrs := []; h_if_up _ := false |}.

Definition demo_merge (workers : odict worker_output) (_ : worker_weighting) : merge_state :=
  {| ms_dest := ∅; ms_results := map (fun w => (fst w, "")) workers |}%string.

(** A run on two workers, the second of which finishes a turn later. *)
Lemma run_witness :
  let answer turn wid := if (0 <? turn) || ends_with "0" wid then COMPLETED {| cw_selected_worker_id := None; cw_output_asset_hashes := ["a"%string] |} else PENDING in
  let run := run_ml_distributed script_host (fun _ => Some "model"%string) (fun _ => true) answer (fun turn => 5 <? turn) 10 demo_merge "train.py" None 1 32 false
               [sample_worker "w0"; sample_worker "w1"] in
  exists submitted m, run = Ok (0, submitted, Some m) /\ length submitted = 2%nat
    /\ (forall wid, wid ∈ submitted -> exists turn d, answer turn wid = COMPLETED d).
Proof.
  cbv zeta. eexists _, _. split_and!; [vm_compute; reflexivity|reflexivity|].
  eapply (run_merges_completed_work script_host (fun _ => Some "model"%string) (fun _ => true) _ (fun turn => 5 <? turn) 10 demo_merge "train.py" None
            1 32 false [sample_worker "w0"; sample_worker "w1"]).
  vm_compute. reflexivity.
Defined.

(** When no workload can be submitted, nothing runs and the exit code is that of
    a success. *)
Theorem nothing_submitted_succeeds h fetch answer expired turns merge script content epochs batch gpu workers specs :
  h_read_file h script = Some content ->
  snd (plan_shards h (inl (job_request script (sha256 content) None epochs batch gpu)) (map Some workers)) = Ok specs ->
  run_ml_distributed h fetch (fun _ => false) answer expired turns merge script None epochs batch gpu workers = Ok (0, [], None).
Proof.
  intros Hread Hplan. unfold run_ml_distributed. rewrite Hread, Hplan. simpl.
  assert (List.filter (fun _ : workload_spec => false) specs = []) as -> by (clear; induction specs as [|s l IH]; [done|exact IH]). done.
Qed.

(** Of several outputs of one workload the last one downloaded is kept. *)
Example outputs_overwritten : download_outputs (fun d => Some ("content of " +:+ d)%string) None ["metrics"; "model"; "log"]%string = Some "content of log"%string.
Proof. reflexivity. Qed.

(** The weights are taken from the plan by position among the submitted
    workloads: when the first submission is refused, the second workload is
    weighted like the first. *)
Example weights_misaligned :
  let spec i score := with_job_id None (spec_of_args {| wa_workload_id := i; wa_job_id := None; wa_task_type := "ml_training"; wa_input_asset_hashes := ∅;
      wa_min_cpu_cores := 1; wa_min_ram_bytes := 1; wa_requires_gpu := false; wa_min_vram_bytes := 0; wa_estimated_duration_seconds := f1;
      wa_parameters := [("throughput_score", JFloat (f_of_Z score))]%string |} None) in
  res_map sg_weights (stage_outputs bare_host (fun _ => None) 0 ["second"%string] [spec "first"%string 1; spec "second"%string 9]
    [("second"%string, {| cw_selected_worker_id := Some "w"%string; cw_output_asset_hashes := [] |})] {| sg_dirs := []; sg_weights := [] |})
  = Ok [("w"%string, f_of_Z 1)].
Proof. vm_compute. reflexivity. Qed.

(** Two plans for specifications without a job have the same ids. *)
Example jobless_plans_collide :
  let spec i := spec_of_args {| wa_workload_id := i; wa_job_id := None; wa_task_type := "ml_training"; wa_input_asset_hashes := ∅;
      wa_min_cpu_cores := 1; wa_min_ram_bytes := 1; wa_requires_gpu := false; wa_min_vram_bytes := 0; wa_estimated_duration_seconds := f1;
      wa_parameters := [("script", JStr i)]%string |} None in
  map ws_workload_id (plan_of (plan_shards bare_host (inr (spec "a"%string)) [None])) = ["None-chunk-0"%string]
  /\ map ws_workload_id (plan_of (plan_shards bare_host (inr (spec "b"%string)) [None])) = ["None-chunk-0"%string].
Proof. vm_compute. done. Qed.

(** The command of a rank of the RVC adapter depends on nothing but the stage:
    two ranks with different files or slices run the same command. *)
Theorem rvc_ranks_run_alike h s1 s2 :
  od_get_default "stage" (JStr "extract_f0") (ws_parameters s1) = od_get_default "stage" (JStr "extract_f0") (ws_parameters s2) ->
  rvc_build_execution_spec h s1 = rvc_build_execution_spec h s2.
Proof. unfold rvc_build_execution_spec. by intros ->. Qed.

(** The outputs expected of a script that names no number of them are refused by
    the policy. *)
Example default_script_refused :
  let r := {| rq_values := [("script", JStr "run.py")]%string; rq_active_workers := [] |} in
  map custom_describe_expected_outputs (plan_of (custom_evaluate_request bare_host "python" r))
  = [Err (ValueError "Input should be greater than or equal to 1")].
Proof. vm_compute. reflexivity. Qed.

(** Ten seconds in three pieces: the second piece starts a millisecond after the
    first two thirds of what was cut before it. *)
Definition piece_bounds (s : workload_spec) : json * json := (get "start_time" (ws_parameters s), get "duration" (ws_parameters s)).
Definition video_request (values : odict json) : app_request := {| rq_values := ("input_video_path"%string, JStr "in.mp4") :: values; rq_active_workers := [] |}.
Definition plan_video (values : odict json) : list workload_spec :=
  plan_of (ffmpeg_evaluate_request bare_host None (fun _ => None) (fun _ => None) (fun _ _ => None) [] (video_request values)).

Example video_gap :
  map piece_bounds (plan_video [("worker_count", JInt 3); ("duration", JInt 10)]%string)
  = [(JFloat f0, JFloat (flit 3333 3)); (JFloat (flit 3333 3), JFloat (flit 3333 3)); (JFloat (flit 6667 3), JFloat (flit 3333 3))].
Proof. vm_compute. reflexivity. Qed.

(** A video of unknown length is cut after a minute. *)
Example video_cut_short :
  map piece_bounds (plan_video [("worker_count", JInt 2)]%string)
  = [(JFloat f0, JFloat (f_of_Z 30)); (JFloat (f_of_Z 30), JFloat (f_of_Z 30))].
Proof. vm_compute. reflexivity. Qed.
