(* ===== verification/BlenderAdapterProps.v ===== *)
(** * A render request, from the request to the frames ([BlenderAdapter])

    What the workloads of a request render together, and what the coverage
    report reads back from the registries that hold them. *)
From Stdlib Require Import SpecFloat.
From S2P Require Export BlenderAdapter MLAdaptersProps.

(** ** One workload *)

(** A workload renders the frames of a range of a job from [first] to [last]:
    its parameters declare both ranges and a file for every frame, and its
    command, when it has one, asks for the same frames. *)
Definition renders (first last : Z) (s : workload_spec) (r : Z * Z) : Prop :=
  let p := ws_parameters s in
  get "frame_start" p = JInt (fst r) /\ get "frame_end" p = JInt (snd r)
  /\ get "job_frame_start" p = JInt first /\ get "job_frame_end" p = JInt last
  /\ blender_describe_expected_outputs s = Ok (Some (snd r - fst r + 1))
  /\ forall es, ws_execution_spec s = Some es ->
       exists options, es_args es = options ++ ["-s"; str_of_Z (fst r); "-e"; str_of_Z (snd r); "-a"]%string.

Section rendering.
Context (h : host) (b : blender_host).

Lemma execution_range s es :
  blender_build_execution_spec h b s = Ok es ->
  exists options, es_args es = options ++ ["-s"; py_str h (od_get_default "frame_start" (JInt 1) (ws_parameters s));
                                           "-e"; py_str h (od_get_default "frame_end" (JInt 1) (ws_parameters s)); "-a"]%string
  /\ es_env es = match od_get "sample_fusion_rank" (ws_parameters s) with
                 | Some r => [("AIDAR_SAMPLE_FUSION_RANK"%string, py_str h r)] | None => [] end.
Proof.
  unfold blender_build_execution_spec. destruct (negb _); [done|]. intros (timeout & _ & H)%res_bind_ok.
  apply new_execution_spec_ok in H as (-> & -> & _). eexists. split; [|done].
  match goal with |- context [("-o" :: ?x :: ?t)%string] => change ("-o" :: x :: t)%string with (["-o"%string; x] ++ t) end.
  rewrite !app_assoc. reflexivity.
Qed.

Lemma render_workload_ok rj idx frames params s :
  render_workload h b rj idx frames params = Ok s ->
  ws_workload_id s = chunk_id (rj_job_id rj) "-chunk-" idx /\ ws_job_id s = Some (rj_job_id rj) /\ ws_depends_on s = []
  /\ ws_parameters s = params
  /\ forall es, ws_execution_spec s = Some es -> exists a, ws_parameters a = params /\ blender_build_execution_spec h b a = Ok es.
Proof.
  unfold render_workload. intros H.
  apply res_bind_ok in H as (hashes & _ & H). apply res_bind_ok in H as (cpu & _ & H). apply res_bind_ok in H as (ram & _ & H).
  apply res_bind_ok in H as (gpu & _ & H). apply res_bind_ok in H as (vram & _ & H). apply res_bind_ok in H as (n & _ & H).
  destruct (args_in_bounds _ _); [|done]. destruct (rj_input_file_hash rj) as [digest|].
  - destruct (blender_build_execution_spec _ _ _) as [es|e] eqn:E.
    + injection H as <-. split_and!; [done..|]. intros es' [= <-]. eexists. split; [|exact E]. done.
    + destruct e; try done; injection H as <-; split_and!; done.
  - injection H as <-. split_and!; done.
Qed.

(** The parameters every workload has. *)
Lemma render_params_lookup rj first last before extra k :
  od_get k (render_params h rj first last before extra)
  = if String.eqb k "input_path" then Some (rj_input_path rj)
    else if String.eqb k "frame_start" then Some (JInt first)
    else if String.eqb k "frame_end" then Some (JInt last)
    else match od_get k before with
         | Some v => Some v
         | None =>
             if String.eqb k "job_frame_start" then Some (JInt (rj_frame_start rj))
             else if String.eqb k "job_frame_end" then Some (JInt (rj_frame_end rj))
             else od_get k ((if json_truthy (rj_remap_script_hash rj) then [("remap_script_hash"%string, JStr (py_str h (rj_remap_script_hash rj)))] else [])
                     ++ optional_param "engine" (od_get "engine" (rj_request rj))
                     ++ optional_param "blender_executable" (od_get "blender_executable" (rj_request rj))
                     ++ extra
                     ++ match rj_input_file_hash rj with
                        | Some digest =>
                            [("input_file_hash", JStr digest);
                             ("command", JStr ("blender -b inputs/" +:+ digest +:+ " -o //../outputs/frame_#### -s " +:+ str_of_Z first +:+ " -e " +:+ str_of_Z last +:+ " -a"))]%string
                        | None => []
                        end)
         end.
Proof.
  unfold render_params. rewrite od_get_app. cbn [od_get]. repeat (destruct (String.eqb k _); [done|]).
  rewrite od_get_app. destruct (od_get k before); [done|]. rewrite od_get_app. cbn [od_get].
  repeat (destruct (String.eqb k _); [done|]). done.
Qed.

Lemma workload_renders rj idx frames first last before extra s :
  render_workload h b rj idx frames (render_params h rj first last before extra) = Ok s ->
  od_get "job_frame_start" before = None -> od_get "job_frame_end" before = None ->
  od_get "expected_output_count" before = Some (JInt (last - first + 1)) -> first <= last ->
  renders (rj_frame_start rj) (rj_frame_end rj) s (first, last).
Proof.
  intros (_ & _ & _ & Hp & Hes)%render_workload_ok H1 H2 H3 Hle. unfold renders, blender_describe_expected_outputs, get, od_get_default.
  rewrite Hp, !render_params_lookup, H1, H2, H3. simpl. split_and!; [done..| |].
  - unfold output_policy. by rewrite (proj2 (Z.leb_le _ _)) by lia.
  - intros es Es. destruct (Hes es Es) as (a & Ha & (options & Ho & _)%execution_range). exists options.
    rewrite Ho. unfold od_get_default. by rewrite Ha, !render_params_lookup.
Qed.

Lemma chunk_renders rj idx first last s :
  chunk_workload h b rj idx (first, last) = Ok s -> first <= last -> renders (rj_frame_start rj) (rj_frame_end rj) s (first, last).
Proof. intros H Hle. by eapply workload_renders. Qed.

(** A worker of a fused render takes its seed from its rank. *)
Definition seeded_by (rank : Z) (s : workload_spec) : Prop :=
  get "sample_fusion_rank" (ws_parameters s) = JInt rank
  /\ forall es, ws_execution_spec s = Some es -> es_env es = [("AIDAR_SAMPLE_FUSION_RANK"%string, str_of_Z rank)].

Lemma fusion_renders rj workers rank x s :
  fusion_workload h b rj workers rank x = Ok s -> rj_frame_start rj <= rj_frame_end rj ->
  renders (rj_frame_start rj) (rj_frame_end rj) s (rj_frame_start rj, rj_frame_end rj) /\ seeded_by rank s.
Proof.
  unfold fusion_workload. intros H Hle. split.
  - eapply workload_renders; [exact H|done|done| |done]. simpl. do 2 f_equal. lia.
  - apply render_workload_ok in H as (_ & _ & _ & Hp & Hes). unfold seeded_by, get, od_get_default.
    rewrite Hp, render_params_lookup. split; [done|]. intros es Es. destruct (Hes es Es) as (a & Ha & (_ & _ & ->)%execution_range).
    by rewrite Ha, render_params_lookup.
Qed.

Lemma chunk_workload_id rj idx chunk s :
  chunk_workload h b rj idx chunk = Ok s -> ws_workload_id s = chunk_id (rj_job_id rj) "-chunk-" idx.
Proof. destruct chunk. by intros (? & _)%render_workload_ok. Qed.

Lemma fusion_workload_id rj workers rank x s :
  fusion_workload h b rj workers rank x = Ok s -> ws_workload_id s = chunk_id (rj_job_id rj) "-chunk-" rank.
Proof. by intros (? & _)%render_workload_ok. Qed.
End rendering.

(** ** The coverage of a job *)

Section coverage.
Context {SJ SW : Type} `{RecordStore SJ job_record} `{RecordStore SW workload_record}.
Implicit Types (jobs : JobRegistry.jobs SJ) (reg : registry SW).

(** The registry holds a workload as it was planned. *)
Definition holds reg (s : workload_spec) : Prop := exists record, get_workload reg (ws_workload_id s) = Some record /\ wr_spec record = s.

Definition completed reg (s : workload_spec) : Prop :=
  exists record, get_workload reg (ws_workload_id s) = Some record /\ wr_state record = WorkloadRegistry.COMPLETED.

#[export] Instance completed_dec reg s : Decision (completed reg s).
Proof.
  refine (match get_workload reg (ws_workload_id s) as o return Decision (exists r, o = Some r /\ wr_state r = WorkloadRegistry.COMPLETED) with
          | Some r => cast_if (decide (wr_state r = WorkloadRegistry.COMPLETED)) | None => right _ end); naive_solver.
Defined.

Definition chunk_facts reg (s : workload_spec) (r : Z * Z) : chunk_coverage :=
  {| ch_workload_id := ws_workload_id s; ch_frame_start := fst r; ch_frame_end := snd r; ch_is_complete := bool_decide (completed reg s) |}.

Lemma chunk_of_renders reg first last s r :
  holds reg s -> renders first last s r ->
  chunk_of reg (ws_workload_id s) = Ok (Some (chunk_facts reg s r, (JInt first, JInt last))).
Proof.
  intros (record & Hg & Hs) (H1 & H2 & H3 & H4 & _). unfold chunk_of. rewrite Hg, Hs. unfold get in *. rewrite H1, H2. simpl.
  assert (forall k d v, od_get_default k JNull d = JInt v -> forall x, od_get_default k x d = JInt v) as Hd
    by (unfold od_get_default; intros k d v E x; destruct (od_get k d); congruence).
  rewrite (Hd _ _ _ H3), (Hd _ _ _ H4). unfold chunk_facts. do 4 f_equal. apply bool_decide_ext. unfold completed. rewrite Hg. naive_solver.
Qed.

Lemma res_all_map {A B} (f : A -> res B) (g : A -> B) l : (forall a, a ∈ l -> f a = Ok (g a)) -> res_all f l = Ok (map g l).
Proof.
  unfold res_all. induction l as [|a l IH]; intros Hf; simpl; [done|]. rewrite (Hf a) by left. simpl. rewrite IH; [done|]. intros; apply Hf; by right.
Qed.

Lemma job_coverage jobs reg j job first last specs ranges :
  get_job jobs j = Some job -> jr_workload_ids job = list_to_set (map ws_workload_id specs) -> specs <> [] ->
  (forall s, s ∈ specs -> holds reg s) -> Forall2 (renders first last) specs ranges ->
  exists chunks, compute_job_frame_coverage j jobs reg = Ok (Some (compute_frame_coverage first last chunks))
  /\ forall c, c ∈ chunks <-> exists s r, (s, r) ∈ zip specs ranges /\ c = chunk_facts reg s r.
Proof.
  intros Hj Hids Hne Hholds Hr. unfold compute_job_frame_coverage. rewrite Hj, Hids.
  set (l := elements _). set (facts w := match chunk_of reg w with Ok o => o | Err _ => None end).
  assert (forall s r, (s, r) ∈ zip specs ranges -> chunk_of reg (ws_workload_id s) = Ok (Some (chunk_facts reg s r, (JInt first, JInt last)))) as Hz.
  { intros s r (i & Hi)%list_elem_of_lookup. apply lookup_zip_with_Some in Hi as (? & ? & [= <- <-] & Hs & Hrr).
    apply chunk_of_renders; [apply Hholds; by eapply list_elem_of_lookup_2|by eapply Forall2_lookup_lr]. }
  assert (forall w, w ∈ l <-> exists s r, (s, r) ∈ zip specs ranges /\ w = ws_workload_id s) as Hl.
  { intros w. unfold l. rewrite elem_of_elements, elem_of_list_to_set, list_elem_of_fmap. split; [|intros (s & r & Hs%elem_of_zip_l & ->); eauto].
    intros (s & -> & (i & Hi)%list_elem_of_lookup). destruct (Forall2_lookup_l _ _ _ _ _ Hr Hi) as (r & Hir & _). exists s, r. split; [|done].
    apply (list_elem_of_lookup_2 _ i), lookup_zip_with_Some. eauto. }
  rewrite (res_all_map _ facts) by (intros w (s & r & Hs%Hz & ->)%Hl; unfold facts; by rewrite Hs). cbn [res_bind].
  set (found := omap id (map facts l)).
  assert (forall c, c ∈ found <-> exists s r, (s, r) ∈ zip specs ranges /\ c = (chunk_facts reg s r, (JInt first, JInt last))) as Hfound.
  { intros c. unfold found. rewrite list_elem_of_omap. setoid_rewrite list_elem_of_fmap. split.
    - intros (o & (w & -> & (s & r & Hs & ->)%Hl) & Hc). unfold facts in Hc. rewrite (Hz s r Hs) in Hc. injection Hc as <-. eauto.
    - intros (s & r & Hs & ->). eexists. split; [|reflexivity]. exists (ws_workload_id s). unfold facts. rewrite (Hz s r Hs). split; [done|].
      apply Hl. eauto. }
  exists (map fst found). split.
  - destruct found as [|c rest] eqn:E.
    + destruct specs as [|s specs]; [done|]. destruct ranges as [|r ranges]; [by inversion Hr|]. exfalso.
      apply (not_elem_of_nil (chunk_facts reg s r, (JInt first, JInt last))), Hfound. exists s, r. split; [left|done].
    + destruct (proj1 (Hfound c) ltac:(left)) as (s & r & _ & ->). reflexivity.
  - intros c. rewrite list_elem_of_fmap. setoid_rewrite Hfound. naive_solver.
Qed.
End coverage.

(** ** The request *)

Lemma ranges_nonempty ranges first last workers count est adaptive :
  schedule_ranges default_chunking first last workers count est adaptive = Ok ranges ->
  first <= last /\ ranges <> [] /\ flat_map frames_of ranges = seqZ first (last - first + 1) /\ Forall (fun r => fst r <= snd r) ranges.
Proof.
  intros Hs. assert (first <= last) as Hle.
  { unfold schedule_ranges in Hs. destruct (workers <? 1); [done|]. destruct (Z.ltb_spec last first); [done|lia]. }
  apply schedule_partitions_frames in Hs as (Hflat & _ & Hlen & Hin). split_and!; [done| |done|].
  - intros ->. simpl in Hlen. lia.
  - apply Forall_forall. intros [s e] Hr. apply Hin in Hr. simpl. lia.
Qed.

Lemma build_each_forall2 {A B} (build : Z -> A -> res workload_spec) (P : workload_spec -> B -> Prop) (f : A -> B) l specs :
  build_each build 0 l = Ok specs -> (forall i x s, x ∈ l -> build i x = Ok s -> P s (f x)) -> Forall2 P specs (map f l).
Proof.
  intros Hb HP. destruct (build_each_lookup _ _ _ 0%nat Hb) as [Hlen _]. apply Forall2_same_length_lookup. split; [by rewrite length_map|].
  intros k s y Hs Hy. destruct (build_each_lookup _ _ _ k Hb) as (_ & _ & Hr). destruct (Hr s Hs) as (x & Hx & E).
  rewrite list_lookup_fmap, Hx in Hy. injection Hy as <-. eapply HP; [by eapply list_elem_of_lookup_2|exact E].
Qed.

(** A plan: its values, its chunks, and the loop that made the workloads. *)
Lemma blender_plan h b r t specs :
  blender_evaluate_request h b r = (t, Ok specs) ->
  let p := rq_values r in
  exists rj workers auto count est chunks,
    json_frame (od_get_default "frame_start" (JInt 1) p) = Ok (rj_frame_start rj)
    /\ json_frame (od_get_default "frame_end" (JInt 250) p) = Ok (rj_frame_end rj)
    /\ effective_workers (get "worker_count" p) = Ok (workers, auto) /\ optional_int (get "chunk_count" p) = Ok count
    /\ let adaptive := auto && bool_decide (count = None) in
       schedule_ranges default_chunking (rj_frame_start rj) (rj_frame_end rj) workers count est adaptive = Ok chunks
       /\ (if fuses p (Z.max 1 (rj_frame_end rj - rj_frame_start rj + 1)) workers adaptive
           then build_each (fusion_workload h b rj workers) 0 (seqZ 0 workers) else build_each (chunk_workload h b rj) 0 chunks) = Ok specs.
Proof.
  cbv zeta. unfold blender_evaluate_request. intros H. apply and_then_ok in H as (? & duration & ? & _ & H & _).
  apply and_then_ok in H as (? & [workers auto] & ? & [_ Hw]%pure_ok & H & _). apply and_then_ok in H as (? & count & ? & [_ Hc]%pure_ok & H & _).
  do 3 apply and_then_ok in H as (? & ? & ? & _ & H & _). apply and_then_ok in H as (? & first & ? & [_ Hf]%pure_ok & H & _).
  apply and_then_ok in H as (? & last & ? & [_ Hl]%pure_ok & H & _). apply and_then_ok in H as (? & chunks & ? & [_ Hs]%pure_ok & H & _).
  apply and_then_ok in H as (? & ? & ? & _ & H & _). apply and_then_ok in H as (? & [hash paths] & ? & _ & H & _).
  do 2 apply and_then_ok in H as (? & ? & ? & _ & H & _).
  lazymatch type of H with context [chunk_workload _ _ ?rj] => exists rj, workers, auto, count, (Some duration), chunks end.
  split_and!; [exact Hf|exact Hl|done|done|exact Hs|].
  cbn [rj_frame_start rj_frame_end] in *. destruct (fuses _ _ _ _); by apply pure_ok in H as [_ H].
Qed.

Lemma workers_positive j workers auto : effective_workers j = Ok (workers, auto) -> 1 <= workers.
Proof.
  unfold effective_workers. intros H.
  repeat case_match; first [injection H as <- _; lia|apply res_bind_ok in H as (n & _ & [= <- _]); lia].
Qed.

(** The workers of a fused render render all the frames, each with its rank. *)
Lemma fused_plan h b rj workers specs :
  build_each (fusion_workload h b rj workers) 0 (seqZ 0 workers) = Ok specs -> 1 <= workers -> rj_frame_start rj <= rj_frame_end rj ->
  let whole := (rj_frame_start rj, rj_frame_end rj) in
  NoDup (map ws_workload_id specs) /\ Forall2 (renders (rj_frame_start rj) (rj_frame_end rj)) specs (map (fun _ => whole) (seqZ 0 workers))
  /\ Z.of_nat (length specs) = workers /\ forall k s, specs !! k = Some s -> seeded_by (Z.of_nat k) s.
Proof.
  intros Hb Hw Hle. cbv zeta. split_and!.
  - eapply build_each_distinct; [|exact Hb]. intros; by eapply fusion_workload_id.
  - eapply build_each_forall2; [exact Hb|]. intros i x s _ Hs. by apply fusion_renders in Hs as [? _].
  - destruct (build_each_lookup _ _ _ 0%nat Hb) as [-> _]. rewrite length_seqZ. lia.
  - intros k s Hs. destruct (build_each_lookup _ _ _ k Hb) as (_ & _ & Hr). destruct (Hr s Hs) as (x & _ & E).
    by apply fusion_renders in E as [_ ?].
Qed.

Lemma split_plan h b rj chunks specs :
  build_each (chunk_workload h b rj) 0 chunks = Ok specs -> Forall (fun r => fst r <= snd r) chunks ->
  NoDup (map ws_workload_id specs) /\ Forall2 (renders (rj_frame_start rj) (rj_frame_end rj)) specs chunks.
Proof.
  intros Hb Hne. split.
  - eapply build_each_distinct; [|exact Hb]. intros; by eapply chunk_workload_id.
  - rewrite <- (map_id chunks). eapply build_each_forall2; [exact Hb|]. intros i [a z] s Hx Hs. rewrite Forall_forall in Hne.
    apply Hne in Hx. by eapply chunk_renders.
Qed.

(** Ranges whose frames, in order, are those of a range cover it. *)
Lemma flat_covered ranges first n f : flat_map frames_of ranges = seqZ first n -> first <= f < first + n -> covered f ranges.
Proof.
  intros Hflat Hf. assert (f ∈ flat_map frames_of ranges) as Hin by (rewrite Hflat; by apply elem_of_seqZ).
  apply list_elem_of_In, in_flat_map in Hin as (r & Hr & Hfr). apply list_elem_of_In in Hr, Hfr. apply elem_of_seqZ in Hfr.
  exists r. split; [done|]. unfold inside. lia.
Qed.

(** What the report says of workloads that cover the job. *)
Lemma report_of_plan {SW} `{RecordStore SW workload_record} (reg : registry SW) first last specs ranges chunks :
  (forall c, c ∈ chunks <-> exists s r, (s, r) ∈ zip specs ranges /\ c = chunk_facts reg s r) ->
  length specs = length ranges -> (forall f, first <= f <= last -> covered f ranges) ->
  let report := compute_frame_coverage first last chunks in
  (forall f, first <= f <= last ->
     covered f (fr_missing_ranges report) <-> ~ exists s rg, (s, rg) ∈ zip specs ranges /\ completed reg s /\ inside f rg)
  /\ (fr_is_complete report = true <-> forall s, s ∈ specs -> completed reg s).
Proof.
  intros Hc Hlen Hcov. cbv zeta. destruct (coverage_exact first last chunks) as (H1 & _ & H3).
  assert (forall f, completed_frame chunks f <-> exists s rg, (s, rg) ∈ zip specs ranges /\ completed reg s /\ inside f rg) as Hcf.
  { intros f. unfold completed_frame. setoid_rewrite Hc. split.
    - intros (c & (s & r & Hsr & ->) & Ht & Hin). apply bool_decide_eq_true in Ht. by exists s, r.
    - intros (s & r & Hsr & Hs & Hin). exists (chunk_facts reg s r). split_and!; [eauto|by apply bool_decide_eq_true|apply Hin..]. }
  split; [intros f Hf; by rewrite H1, Hcf|]. rewrite H3. setoid_rewrite Hcf. setoid_rewrite Hc. split.
  - intros [Hall _] s (i & Hi)%list_elem_of_lookup. destruct (lookup_lt_is_Some_2 ranges i) as [r Hr].
    { rewrite <- Hlen. by eapply lookup_lt_Some. }
    assert ((s, r) ∈ zip specs ranges) as Hsr by (apply (list_elem_of_lookup_2 _ i), lookup_zip_with_Some; eauto).
    specialize (Hall _ (ex_intro _ s (ex_intro _ r (conj Hsr eq_refl)))). by apply bool_decide_eq_true in Hall.
  - intros Hall. split.
    + intros c (s & r & Hsr & ->). apply bool_decide_eq_true, Hall. by eapply elem_of_zip_l.
    + intros f Hf. destruct (Hcov f Hf) as (r & (i & Hi)%list_elem_of_lookup & Hin). destruct (lookup_lt_is_Some_2 specs i) as [s Hs].
      { rewrite Hlen. by eapply lookup_lt_Some. }
      exists s, r. split_and!; [apply (list_elem_of_lookup_2 _ i), lookup_zip_with_Some; eauto|apply Hall; by eapply list_elem_of_lookup_2|done].
Qed.

(** C11: A render request covers its frames exactly.  Without sample fusion the
    ranges of the planned workloads, one after the other, are the frames of the
    request, each once; with fusion every worker renders all of them with a seed
    of its own.  Every workload declares its range, the job's range and one
    output per frame, and its command asks for the same frames.  When the
    registries hold the plan, the coverage report of the job can be made, a
    frame is missing from it exactly as long as no completed workload renders
    it, and it is complete exactly when every workload is. *)
Theorem render_request_covers_frames {SJ SW} `{RecordStore SJ job_record} `{RecordStore SW workload_record}
    h b r t specs (jobs : JobRegistry.jobs SJ) (reg : registry SW) j job :
  blender_evaluate_request h b r = (t, Ok specs) ->
  get_job jobs j = Some job -> jr_workload_ids job = list_to_set (map ws_workload_id specs) -> (forall s, s ∈ specs -> holds reg s) ->
  let p := rq_values r in
  exists first last workers auto count ranges report,
    json_frame (od_get_default "frame_start" (JInt 1) p) = Ok first /\ json_frame (od_get_default "frame_end" (JInt 250) p) = Ok last
    /\ effective_workers (get "worker_count" p) = Ok (workers, auto) /\ optional_int (get "chunk_count" p) = Ok count
    /\ NoDup (map ws_workload_id specs) /\ Forall2 (renders first last) specs ranges
    /\ (if fuses p (Z.max 1 (last - first + 1)) workers (auto && bool_decide (count = None))
        then Z.of_nat (length specs) = workers /\ Forall (eq (first, last)) ranges /\ forall k s, specs !! k = Some s -> seeded_by (Z.of_nat k) s
        else flat_map frames_of ranges = seqZ first (last - first + 1))
    /\ compute_job_frame_coverage j jobs reg = Ok (Some report)
    /\ (forall f, first <= f <= last ->
          covered f (fr_missing_ranges report) <-> ~ exists s rg, (s, rg) ∈ zip specs ranges /\ completed reg s /\ inside f rg)
    /\ (fr_is_complete report = true <-> forall s, s ∈ specs -> completed reg s).
Proof.
  intros Hplan Hj Hids Hholds p. apply blender_plan in Hplan as (rj & workers & auto & count & est & chunks & Hf & Hl & Hw & Hc & Hs & Hb).
  apply workers_positive in Hw as Hpos. apply ranges_nonempty in Hs as (Hle & Hne & Hflat & Hall). fold p in Hf, Hl, Hw, Hc, Hb.
  set (whole := (rj_frame_start rj, rj_frame_end rj)).
  set (fused := fuses p _ workers _) in Hb.
  set (ranges := if fused then map (fun _ => whole) (seqZ 0 workers) else chunks).
  assert (NoDup (map ws_workload_id specs) /\ Forall2 (renders (rj_frame_start rj) (rj_frame_end rj)) specs ranges
    /\ ranges <> [] /\ (forall f, rj_frame_start rj <= f <= rj_frame_end rj -> covered f ranges)
    /\ if fused then Z.of_nat (length specs) = workers /\ Forall (eq whole) ranges /\ forall k s, specs !! k = Some s -> seeded_by (Z.of_nat k) s
       else flat_map frames_of ranges = seqZ (rj_frame_start rj) (rj_frame_end rj - rj_frame_start rj + 1)) as (Hnd & Hr & Hrne & Hcov & Hkind).
  { unfold ranges. destruct fused.
    - destruct (fused_plan _ _ _ _ _ Hb Hpos Hle) as (Hnd & Hr & Hlen & Hseed). rewrite (seqZ_cons 0 workers) in * by lia. split_and!; try done.
      + intros f Hin. exists whole. split; [left|exact Hin].
      + apply List.Forall_map, Forall_true. done.
    - destruct (split_plan _ _ _ _ _ Hb Hall) as [Hnd Hr]. split_and!; try done. intros f Hin. eapply flat_covered; [exact Hflat|lia]. }
  assert (specs <> []) as Hsne by (intros ->; by inversion Hr; subst).
  destruct (job_coverage jobs reg j job _ _ specs ranges Hj Hids Hsne Hholds Hr) as (cs & Hreport & Hcs).
  eexists _, _, workers, auto, count, ranges, _. split_and!; try done.
  all: by apply (report_of_plan reg _ _ specs ranges cs Hcs (Forall2_length _ _ _ Hr) Hcov).
Qed.

(** ** Examples *)

(** A machine with a scene that can be packed, and nothing in it. *)
Definition render_host : host :=
  {| h_read_file p := if String.eqb p "scene_packed.blend" then Some "PACKED"%string else if String.eqb p "scene.blend" then Some "BLENDER"%string else None;
     h_upload := None; h_uuid := "0123456789abcdef0123456789abcdef"; h_pythonpath := None; h_repr := h_repr bare_host;
     h_encoded_size _ := 0; h_parse_float := text_float; h_gethostbyname _ := None; h_if_addrs := []; h_if_up _ := false |}.
Definition empty_scene : scene_snapshot := {| ss_name := "scene"; ss_collections := []; ss_objects := []; ss_images := [] |}.
Definition demo_blender : blender_host :=
  {| bh_load_scene _ := Ok empty_scene; bh_base_dir _ := []; bh_realpath p := p; bh_is_dir _ := false; bh_files := ∅;
     bh_bpy_packs _ := true; bh_blender_packs _ := false; bh_executable := None; bh_prepass_code := "import bpy" |}.
Definition render_request (values : odict json) : app_request :=
  {| rq_values := [("input_path", JStr "scene.blend"); ("frame_end", JInt 10)]%string ++ values; rq_active_workers := [] |}.
Definition planned_renders (values : odict json) : list workload_spec := plan_of (blender_evaluate_request render_host demo_blender (render_request values)).
Definition file_all (specs : list workload_spec) (done : list string) : mem_registry :=
  wrun (map (fun s => (f0, CAdd s)) specs ++ map (fun w => (f1, CUpdateState w WorkloadRegistry.COMPLETED None)) done) witness_registry.
Definition job_of (specs : list workload_spec) : jobs (mem_store job_record) :=
  fst (create_job f0 "j" (list_to_set (map ws_workload_id specs)) ALL_REQUIRED None TASK_SPLIT 1 None None
         {| jb_jobs := []; jb_store := Some (Build_mem_store [] []) |}).

(** Three workers; the second one has finished. *)
Lemma render_request_witness :
  let specs := planned_renders [("worker_count"%string, JInt 3)] in
  let reg := file_all specs ["job-0123456789abcdef-chunk-1"%string] in
  map (fun s => (get "frame_start" (ws_parameters s), get "frame_end" (ws_parameters s))) specs
    = [(JInt 1, JInt 3); (JInt 4, JInt 6); (JInt 7, JInt 10)]
  /\ exists report, compute_job_frame_coverage "j" (job_of specs) reg = Ok (Some report) /\ fr_missing_ranges report = [(1, 3); (7, 10)]
     /\ fr_is_complete report = false /\ ~ (forall s, s ∈ specs -> completed reg s).
Proof.
  cbv zeta. split; [vm_compute; reflexivity|].
  set (specs := planned_renders _). set (reg := file_all _ _).
  destruct (get_job (job_of specs) "j") as [job|] eqn:Ej; [|vm_compute in Ej; discriminate].
  destruct (render_request_covers_frames render_host demo_blender (render_request [("worker_count"%string, JInt 3)])
              (fst (blender_evaluate_request render_host demo_blender (render_request [("worker_count"%string, JInt 3)]))) specs (job_of specs) reg "j" job)
    as (first & last & workers & auto & count & ranges & report & _ & _ & _ & _ & _ & _ & _ & Hr & _ & Hc).
  - vm_compute. reflexivity.
  - exact Ej.
  - vm_compute in Ej. injection Ej as <-. apply (bool_decide_unpack _). vm_compute. exact I.
  - assert (Forall (fun s => option_map wr_spec (get_workload reg (ws_workload_id s)) = Some s) specs) as Hall
      by (vm_compute; repeat constructor).
    intros s Hs. rewrite Forall_forall in Hall. apply Hall in Hs. unfold holds.
    destruct (get_workload reg (ws_workload_id s)) as [record|]; [|discriminate Hs]. injection Hs as Hs. by exists record.
  - exists report. split; [exact Hr|]. vm_compute in Hr. injection Hr as <-. split; [reflexivity|]. split; [reflexivity|].
    intros Hall. apply Hc in Hall. discriminate Hall.
Defined.

(** More workers than frames: the render is fused.  As soon as one rank has
    finished no frame is missing, but the job is not complete, and when all have
    the ranks overlap on every frame. *)
Example fused_render :
  let specs := planned_renders [("worker_count", JInt 2); ("frame_end", JInt 1); ("cooperative_sample_fusion", JBool true)]%string in
  let report done := compute_job_frame_coverage "j" (job_of specs) (file_all specs done) in
  map (fun s => option_map es_env (ws_execution_spec s)) specs
    = [Some [("AIDAR_SAMPLE_FUSION_RANK", "0")]; Some [("AIDAR_SAMPLE_FUSION_RANK", "1")]]%string
  /\ res_map (option_map (fun r => (fr_missing_ranges r, fr_is_complete r))) (report ["job-0123456789abcdef-chunk-0"%string]) = Ok (Some ([], false))
  /\ res_map (option_map (fun r => (fr_overlapping_ranges r, fr_is_complete r))) (report (map ws_workload_id specs)) = Ok (Some ([(1, 10)], true)).
Proof. vm_compute. done. Qed.

(** The scene that is rendered is the packed file. *)
Example packed_scene_rendered :
  map (fun s => get "input_file_hash" (ws_parameters s)) (planned_renders [("worker_count"%string, JInt 1)]) = [JStr (sha256 "PACKED")].
Proof. vm_compute. reflexivity. Qed.
