(* ===== verification/Visibility.v ===== *)
(** * What a render needs ([adapters/blender/visibility])

    [eligibility.py] decides which objects are not hidden somewhere in a range
    of frames, [influence.py] adds what influences a picture without being seen,
    [resolver.py] follows the dependencies to meshes, materials, textures and
    images.

    A scene is a dictionary of JSON values, as [asdict] makes it of a snapshot.
    The name or the reference of an entity is a string; a truthy value that is
    none raises [TypeError].  A Python set is iterated in the order of
    [elements]. *)
From Stdlib Require Import SpecFloat.
From S2P Require Export Packaging AppAdapters.

(** ** [models.py] *)

Definition reason := string.
Definition CAMERA_VISIBLE : reason := "CAMERA_VISIBLE".
Definition LIGHT_SOURCE : reason := "LIGHT_SOURCE".
Definition ANIMATION_DRIVER : reason := "ANIMATION_DRIVER".
Definition DEPENDENCY : reason := "DEPENDENCY".
Definition WORLD_ENVIRONMENT : reason := "WORLD_ENVIRONMENT".
Definition SIMULATION : reason := "SIMULATION".
Definition PARENT_HIERARCHY : reason := "PARENT_HIERARCHY".

Record render_request_model := {
  rr_camera_id : string; rr_frame_start : Z; rr_frame_end : Z; rr_resolution : Z * Z; rr_view_layer : string; rr_scene_name : string;
  rr_conservative : bool;
}.

Record visibility_state := { vs_hidden : bool; vs_render_disabled : bool; vs_viewport_disabled : bool; vs_selectable : bool }.

Record visibility_report := {
  vr_frame_start : Z; vr_frame_end : Z; vr_visible_object_ids : gset string; vr_hidden_object_ids : gset string;
}.
Definition is_visible (r : visibility_report) (object_id : string) : bool := bool_decide (object_id ∈ vr_visible_object_ids r).

(** ** [eligibility.py] *)

Record keyframe := { kf_frame : Z; kf_value : float }.
Record animation_curve := { ac_data_path : string; ac_keyframes : list keyframe; ac_interpolation : string }.
(** The fields of a [SceneObject] that are read; [an_curves] is [None] without
    an animation. *)
Record animated_object := { an_id : string; an_hide_render : bool; an_curves : option (list animation_curve) }.

Definition HIDDEN_THRESHOLD : float := flit 5 1.
Definition shown (v : float) : bool := fle v HIDDEN_THRESHOLD.

Definition sort_keyframes : list keyframe -> list keyframe := isort (fun a b => kf_frame a <? kf_frame b).

(** [l[-1] if l else dflt] and [l[0] if l else dflt] *)
Definition last_or (dflt : keyframe) (l : list keyframe) : keyframe := List.last l dflt.
Definition first_or (dflt : keyframe) (l : list keyframe) : keyframe := List.hd dflt l.

Definition curve_indicates_visible_in_range (raw_kfs : list keyframe) (frame_start frame_end : Z) (static_hidden : bool) (interp : string) : bool :=
  let sorted_kfs := sort_keyframes raw_kfs in
  match sorted_kfs with
  | [] => negb static_hidden
  | k0 :: _ =>
      let in_range := List.filter (fun k => (frame_start <=? kf_frame k) && (kf_frame k <=? frame_end)) sorted_kfs in
      if existsb (fun k => shown (kf_value k)) in_range then true
      else
        let prev := last_or k0 (List.filter (fun k => kf_frame k <=? frame_start) sorted_kfs) in
        let next := first_or (last_or k0 sorted_kfs) (List.filter (fun k => frame_end <=? kf_frame k) sorted_kfs) in
        if shown (kf_value prev) then true
        else if negb (String.eqb (str_upper interp) "CONSTANT") && shown (kf_value next) then true
        else match in_range with [] => shown (kf_value prev) | _ => false end
  end.

Definition find_hide_render_curve (obj : animated_object) : option animation_curve :=
  match an_curves obj with None => None | Some curves => List.find (fun c => String.eqb (ac_data_path c) "hide_render") curves end.

(** The interpolation of a curve that names none is that of the argument. *)
Definition curve_interpolation (c : animation_curve) : string := if str_truthy (ac_interpolation c) then ac_interpolation c else "BEZIER".

Definition is_eligible_in_range (obj : animated_object) (frame_start frame_end : Z) : bool :=
  match find_hide_render_curve obj with
  | None => negb (an_hide_render obj)
  | Some c => curve_indicates_visible_in_range (ac_keyframes c) frame_start frame_end (an_hide_render obj) (curve_interpolation c)
  end.

Definition sort_object (frame_start frame_end : Z) (sets : gset string * gset string) (obj : animated_object) : gset string * gset string :=
  if is_eligible_in_range obj frame_start frame_end then ({[an_id obj]} ∪ fst sets, snd sets) else (fst sets, {[an_id obj]} ∪ snd sets).

(** [EligibilityAnalyzer.analyze], and [VisibilityAnalyzer.analyze] of
    [engine.py] *)
Definition analyze_visibility (objects : list animated_object) (frame_start frame_end : Z) : visibility_report :=
  let sets := fold_left (sort_object frame_start frame_end) objects (∅, ∅) in
  {| vr_frame_start := frame_start; vr_frame_end := frame_end; vr_visible_object_ids := fst sets; vr_hidden_object_ids := snd sets |}.

(** [evaluate_static] of the dictionary under ["visibility"]. *)
Definition evaluate_static (visibility : odict json) : visibility_state :=
  let hidden := json_truthy (od_get_default "hide_render" (JBool false) visibility) in
  {| vs_hidden := hidden; vs_render_disabled := hidden;
     vs_viewport_disabled := json_truthy (od_get_default "hide_viewport" (JBool false) visibility); vs_selectable := true |}.

(** ** Reading a scene *)

(** [_to_dict]: a value that is no dictionary has no keys. *)
Definition to_dict (j : json) : odict json := match j with JObj o => o | _ => [] end.
Definition is_string (j : json) : bool := match j with JStr _ => true | _ => false end.
Definition json_is (j : json) (s : string) : bool := match j with JStr t => String.eqb t s | _ => false end.

(** [for x in (j or [])] *)
Definition items (j : json) : res (list json) :=
  if json_truthy j then
    match j with
    | JList l => Ok l
    | JObj o => Ok (map JStr (od_keys o))
    | JStr s => Ok (map (fun c => JStr (String c EmptyString)) (list_ascii_of_string s))
    | _ => Err TypeError
    end
  else Ok [].

(** The records of a list, which are not strings. *)
Definition records_of (k : string) (d : odict json) : res (list (odict json)) :=
  let! l := items (get k d) in Ok (map to_dict (List.filter (fun j => negb (is_string j)) l)).

(** A name, if there is one. *)
Definition reference (j : json) : res (option string) :=
  if json_truthy j then match j with JStr s => Ok (Some s) | _ => Err TypeError end else Ok None.

Definition add_reason (entity_id : string) (why : reason) (reasons : odict (list reason)) : odict (list reason) :=
  let l := od_get_default entity_id [] reasons in od_set entity_id (if bool_decide (why ∈ l) then l else l ++ [why]) reasons.

(** [s.split(":")[-1]] *)
Definition last_colon_part (s : string) : string := List.last (split_on ":" s) EmptyString.

Section scene.
Context (repr_other : json -> string).

Definition text (j : json) : string := json_str repr_other j.

(** [str(o.get("id", o.get("name", dflt)))] *)
Definition ident (dflt : string) (o : odict json) : string := text (od_get_default "id" (od_get_default "name" (JStr dflt) o) o).

Definition type_of (o : odict json) : string := str_upper (text (od_get_default "type" (JStr "") o)).

(** ** [influence.py] *)

Record influence := { in_required : gset string; in_reasons : odict (list reason) }.

Definition require (i : string) (why : reason) (s : influence) : influence :=
  {| in_required := {[i]} ∪ in_required s; in_reasons := add_reason i why (in_reasons s) |}.

(** The chain of parents of [curr]; as many steps as there are objects reach its
    end. *)
Fixpoint require_parents (fuel : nat) (obj_map : odict (odict json)) (curr : string) (visited : gset string) (s : influence) : res influence :=
  match fuel with
  | O => Err RecursionError
  | S fuel =>
      match od_get curr obj_map with
      | None => Ok s
      | Some o =>
          let! parent := reference (get "parent" o) in
          match parent with
          | Some p =>
              if od_mem p obj_map then
                if bool_decide (p ∈ visited) then Ok s
                else require_parents fuel obj_map p ({[p]} ∪ visited) (require p PARENT_HIERARCHY s)
              else Ok s
          | None => Ok s
          end
      end
  end.

Definition obj_map_of (objects : list (odict json)) : odict (odict json) := fold_left (fun d o => od_set (ident "" o) o d) objects [].

Definition LIGHT_TYPES : list string := ["LIGHT"; "LAMP"; "SUN"; "POINT_LIGHT"; "SPOT_LIGHT"; "AREA_LIGHT"]%string.
Definition SIMULATIONS : list string := ["CLOTH"; "FLUID"; "SMOKE"; "OCEAN"; "COLLISION"; "DYNAMIC_PAINT"; "PARTICLE"; "HAIR"]%string.

Definition is_light (o : odict json) : bool := existsb (String.eqb (type_of o)) LIGHT_TYPES.

Definition is_simulated (o : odict json) : res bool :=
  let! modifiers := items (get "modifiers" o) in
  Ok (json_truthy (get "particle_systems" o)
      || existsb (fun m => existsb (fun kw => str_contains kw (type_of (to_dict m))) SIMULATIONS) modifiers).

Definition has_bones (o : odict json) : bool := json_truthy (get "bones" o) || String.eqb (type_of o) "ARMATURE".

Definition apply_constraint (obj_map : odict (odict json)) (obj_id : string) (s : influence) (c : json) : res influence :=
  let! target := reference (get "target" (to_dict c)) in
  match target with
  | Some t =>
      if bool_decide (obj_id ∈ in_required s) || bool_decide (t ∈ in_required s) then
        let required := {[obj_id]} ∪ in_required s in
        Ok {| in_required := if od_mem t obj_map then {[t]} ∪ required else required;
              in_reasons := add_reason t DEPENDENCY (add_reason obj_id DEPENDENCY (in_reasons s)) |}
      else Ok s
  | None => Ok s
  end.

(** The modifiers, bones and constraints of one object. *)
Definition influence_of_object (obj_map : odict (odict json)) (s : influence) (o : odict json) : res influence :=
  let obj_id := ident "" o in
  let! simulated := is_simulated o in
  let s := if simulated then require obj_id SIMULATION s else s in
  let s := if has_bones o then require obj_id ANIMATION_DRIVER s else s in
  let! constraints := items (get "constraints" o) in
  res_fold (apply_constraint obj_map obj_id) s constraints.

Definition analyze_influences (scene_data : odict json) (candidates : gset string) (reasons : odict (list reason)) : res influence :=
  let! objects := records_of "objects" scene_data in
  let obj_map := obj_map_of objects in
  let s := {| in_required := candidates; in_reasons := fold_left (fun r i => add_reason i CAMERA_VISIBLE r) (elements candidates) reasons |} in
  let! s := res_fold (fun s i => require_parents (S (length obj_map)) obj_map i {[i]} s) s (elements candidates) in
  let! lights := items (get "lights" scene_data) in
  let s := fold_left (fun s l => let i := ident "light" (to_dict l) in if str_truthy i then require i LIGHT_SOURCE s else s) lights s in
  let s := fold_left (fun s o => if is_light o then require (ident "" o) LIGHT_SOURCE s else s) objects s in
  let! s := res_fold (influence_of_object obj_map) s objects in
  let world := json_or (get "world" scene_data) (get "environment" scene_data) in
  Ok (if json_truthy world then require (ident "World" (to_dict world)) WORLD_ENVIRONMENT s else s).

(** ** [resolver.py] *)

(** The lookups [resolve_closure] builds from the scene. *)
Record scene_index := {
  sx_obj_by_id : odict (odict json); sx_obj_by_name : odict (odict json);
  sx_mat_by_id : odict (odict json); sx_mat_by_name : odict (odict json);
  sx_mat_names : odict string;                       (** [mat_real_name_by_id] *)
  sx_nodes : odict (odict json); sx_edges : odict (list (odict json));
}.

(** [if o.get(k): d[str(o[k])] = o] *)
Definition index_by (k : string) (d : odict (odict json)) (o : odict json) : odict (odict json) :=
  if json_truthy (get k o) then od_set (text (get k o)) o d else d.

(** The text of a value that is empty by default. *)
Definition text_at (k : string) (o : odict json) : string := text (od_get_default k (JStr "") o).

Definition index_material (by_id_by_name : odict (odict json) * odict (odict json) * odict string) (m : odict json)
  : odict (odict json) * odict (odict json) * odict string :=
  let '(by_id, by_name, names) := by_id_by_name in
  let m_id := text_at "id" m in
  let m_name := text_at "name" m in
  (if str_truthy m_id then od_set m_id m by_id else by_id,
   if str_truthy m_name then od_set m_name m by_name else by_name,
   if str_truthy m_id && str_truthy m_name
   then od_set (str_remove "material:" m_id) m_name (od_set ("material:" +:+ m_id)%string m_name (od_set m_id m_name names)) else names).

Definition index_edge (d : odict (list (odict json))) (e : odict json) : odict (list (odict json)) :=
  let src := text_at "source" e in
  if str_truthy src then od_set src (od_get_default src [] d ++ [e]) d else d.

Definition index_scene (scene_data : odict json) : res scene_index :=
  let! objects := records_of "objects" scene_data in
  let! materials := records_of "materials" scene_data in
  let! nodes := records_of "nodes" scene_data in
  let! edges := records_of "edges" scene_data in
  let '(mat_by_id, mat_by_name, names) := fold_left index_material materials ([], [], []) in
  Ok {| sx_obj_by_id := fold_left (index_by "id") objects []; sx_obj_by_name := fold_left (index_by "name") objects [];
        sx_mat_by_id := mat_by_id; sx_mat_by_name := mat_by_name; sx_mat_names := names;
        sx_nodes := fold_left (index_by "identifier") nodes []; sx_edges := fold_left index_edge edges [] |}.

Section resolver.
Context (ix : scene_index).

Definition node_of (i : string) : odict json := od_get_default i [] (sx_nodes ix).
Definition edges_of (i : string) : list (odict json) := od_get_default i [] (sx_edges ix).

Definition resolve_mat_name (target_id : string) : res string :=
  if negb (str_truthy target_id) then Ok EmptyString
  else
    match od_get target_id (sx_mat_names ix) with
    | Some name => Ok name
    | None =>
        let clean_id := str_remove "node:" (str_remove "material:" target_id) in
        match od_get clean_id (sx_mat_names ix) with
        | Some name => Ok name
        | None => let! label := reference (get "label" (node_of target_id)) in Ok (default clean_id label)
        end
    end.

(** What an entity depends on. *)
Inductive link := LMesh (name : string) | LMaterial (name : string) | LTexture (name : string) | LImageTexture (name : string).

(** The name of an image texture: [tex.get("name") or tex.get("source")]. *)
Definition texture_name (tex : json) : res (option string) :=
  match tex with
  | JObj o => reference (json_or (get "name" o) (get "source" o))
  | j => let s := text j in Ok (if str_truthy s then Some s else None)
  end.

(** The textures inside a material. *)
Definition inline_textures (m : odict json) : res (list link) :=
  let! textures := items (json_or (get "image_textures" m) (get "textures" m)) in
  let! names := res_all texture_name textures in
  Ok (map LImageTexture (omap id names)).

(** A label is a string. *)
Definition label_of (node : odict json) (target : string) : res string :=
  match od_get_default "label" (JStr (last_colon_part target)) node with JStr s => Ok s | _ => Err TypeError end.

(** [d.get("name") or str(d.get("id", ""))] *)
Definition name_or_id (d : odict json) : res string := let! n := reference (get "name" d) in Ok (default (text_at "id" d) n).

(** The mesh and the materials of an object. *)
Definition material_entry_links (entry : json) : res (list link) :=
  let! parts := match entry with
                | JStr s => Ok (s, [])
                | JObj m => let! name := name_or_id m in let! textures := inline_textures m in Ok (name, textures)
                | _ => Ok (EmptyString, [])
                end in
  let '(name, textures) := parts in
  if str_truthy name then let! resolved := resolve_mat_name name in Ok (textures ++ [LMaterial resolved]) else Ok textures.

Definition object_links (obj : odict json) : res (list link) :=
  let mesh := get "mesh" obj in
  let! mesh_name := (if json_truthy mesh then name_or_id (to_dict mesh) else Ok EmptyString) in
  let! entries := items (get "materials" obj) in
  let! links := res_all material_entry_links entries in
  Ok ((if str_truthy mesh_name then [LMesh mesh_name] else []) ++ concat links).

(** The edges that leave an entity. *)
Definition entity_edge_links (e : odict json) : res (list link) :=
  let rel := od_get_default "relationship" (JStr "") e in
  let target := text_at "target" e in
  if negb (str_truthy target) then Ok []
  else
    let kind := od_get_default "kind" rel (node_of target) in
    if json_is kind "material" || json_is rel "material" then let! m := resolve_mat_name target in Ok [LMaterial m]
    else if json_is kind "texture" || json_is kind "image" || json_is rel "texture" || json_is rel "image" then
      let! label := label_of (node_of target) target in Ok [LTexture label]
    else Ok [].

(** The edges that leave a material; what is neither a material nor a texture is
    treated as a texture. *)
Definition material_edge_links (e : odict json) : res (list link) :=
  let target := text_at "target" e in
  if negb (str_truthy target) then Ok []
  else
    let rel := str_lower (text (od_get_default "relationship" (JStr "") e)) in
    let kind := str_lower (text (od_get_default "kind" (JStr rel) (node_of target))) in
    if String.eqb kind "material" || String.eqb rel "material" || od_mem target (sx_mat_names ix) || od_mem target (sx_mat_by_name ix)
       || od_mem target (sx_mat_by_id ix)
    then let! m := resolve_mat_name target in Ok (if str_truthy m then [LMaterial m] else [])
    else let! label := label_of (node_of target) target in Ok (if str_truthy label then [LImageTexture label] else []).

(** The keys a material may have in the graph. *)
Definition material_keys (name : string) : list string :=
  fold_left (fun keys '(m_id, m_real) => if String.eqb m_real name && bool_decide (m_id ∉ keys) then keys ++ [m_id] else keys)
    (sx_mat_names ix) [name; ("material:" +:+ name)%string].

(** [d.get(a) or d.get(b) or ...]: an empty record is not found. *)
Definition first_record (candidates : list (option (odict json))) : odict json :=
  match List.find (fun o => match o with Some (_ :: _) => true | _ => false end) candidates with Some (Some o) => o | _ => [] end.

Definition material_record (name : string) : odict json :=
  first_record [od_get name (sx_mat_by_name ix); od_get name (sx_mat_by_id ix); od_get ("material:" +:+ name)%string (sx_mat_by_id ix)].

Definition material_links (name : string) : res (list link) :=
  let! textures := inline_textures (material_record name) in
  let! edges := res_all material_edge_links (concat (map edges_of (material_keys name))) in
  Ok (textures ++ concat edges).

(** The sets of the closure. *)
Record requirements := {
  nd_meshes : gset string; nd_materials : gset string; nd_textures : gset string; nd_images : gset string; nd_reasons : odict (list reason);
}.

Definition add_requirement (r : requirements) (l : link) : requirements :=
  match l with
  | LMesh n => {| nd_meshes := {[n]} ∪ nd_meshes r; nd_materials := nd_materials r; nd_textures := nd_textures r; nd_images := nd_images r;
                  nd_reasons := add_reason n DEPENDENCY (nd_reasons r) |}
  | LMaterial n => {| nd_meshes := nd_meshes r; nd_materials := {[n]} ∪ nd_materials r; nd_textures := nd_textures r; nd_images := nd_images r;
                      nd_reasons := add_reason n DEPENDENCY (nd_reasons r) |}
  | LTexture n => {| nd_meshes := nd_meshes r; nd_materials := nd_materials r; nd_textures := {[n]} ∪ nd_textures r; nd_images := nd_images r;
                     nd_reasons := add_reason n DEPENDENCY (nd_reasons r) |}
  | LImageTexture n => {| nd_meshes := nd_meshes r; nd_materials := nd_materials r; nd_textures := {[n]} ∪ nd_textures r;
                          nd_images := {[n]} ∪ nd_images r; nd_reasons := add_reason n DEPENDENCY (nd_reasons r) |}
  end.

Definition linked_materials (l : list link) : list string := omap (fun x => match x with LMaterial n => Some n | _ => None end) l.

(** The search over the materials. *)
Fixpoint material_search (fuel : nat) (queue : list string) (visited : gset string) (r : requirements) : res requirements :=
  match queue with
  | [] => Ok r
  | m :: queue =>
      match fuel with
      | O => Err RecursionError
      | S fuel =>
          if negb (str_truthy m) || bool_decide (m ∈ visited) then material_search fuel queue visited r
          else
            let visited := {[m]} ∪ visited in
            let! links := material_links m in
            material_search fuel (queue ++ List.filter (fun n => bool_decide (n ∉ visited)) (linked_materials links)) visited
              (fold_left add_requirement links
                 {| nd_meshes := nd_meshes r; nd_materials := {[m]} ∪ nd_materials r; nd_textures := nd_textures r; nd_images := nd_images r;
                    nd_reasons := nd_reasons r |})
      end
  end.

(** A material queues at most all the edges under each of its keys, and only
    the queued materials and the targets of edges are ever visited. *)
Definition search_fuel (queue : list string) : nat :=
  let edges := sum_list_with (fun kv => length (snd kv)) (sx_edges ix) in
  length queue + (length queue + edges) * ((2 + length (sx_mat_names ix)) * edges).

(** The name an entity goes by. *)
Definition object_name (entity_id : string) : string :=
  match od_get entity_id (sx_obj_by_id ix) with
  | Some o => text (json_or (get "name" o) (JStr entity_id))
  | None =>
      if json_is (get "kind" (node_of entity_id)) "object" then text (json_or (get "label" (node_of entity_id)) (JStr entity_id)) else entity_id
  end.

Definition append_new (l : list string) (x : string) : list string := if bool_decide (x ∈ l) then l else l ++ [x].

Record requirement_closure := {
  rc_objects : list string; rc_meshes : list string; rc_materials : list string; rc_textures : list string; rc_images : list string;
  rc_reasons : odict (list reason);
}.

Definition sorted_names (s : gset string) : list string := isort str_lt (elements s).

Definition required_names (ids : list string) : list string := fold_left append_new (map object_name ids) [].

(** What the objects have themselves, and what their edges lead to. *)
Definition direct_requirements (ids : list string) (reasons : odict (list reason)) : res requirements :=
  let objects := required_names ids in
  let! own := res_all (fun i => object_links (first_record [od_get i (sx_obj_by_id ix); od_get i (sx_obj_by_name ix)])) objects in
  let! along := res_all entity_edge_links (concat (map edges_of (ids ++ objects))) in
  Ok (fold_left add_requirement (concat own ++ concat along)
        {| nd_meshes := ∅; nd_materials := ∅; nd_textures := ∅; nd_images := ∅; nd_reasons := reasons |}).

Definition close_requirements (required_entity_ids : gset string) (reasons : odict (list reason)) : res requirement_closure :=
  let ids := elements required_entity_ids in
  let! start := direct_requirements ids reasons in
  let queue := elements (nd_materials start) in
  let! r := material_search (search_fuel queue) queue ∅ start in
  Ok {| rc_objects := required_names ids; rc_meshes := sorted_names (nd_meshes r); rc_materials := sorted_names (nd_materials r);
        rc_textures := sorted_names (nd_textures r); rc_images := sorted_names (nd_images r); rc_reasons := nd_reasons r |}.
End resolver.

Definition resolve_closure (required_entity_ids : gset string) (scene_data : odict json) (reasons : odict (list reason)) : res requirement_closure :=
  let! ix := index_scene scene_data in close_requirements ix required_entity_ids reasons.
End scene.
