(* ===== verification/VisibilityGeometry.v ===== *)
(** * Cameras and what they see ([visibility/camera.py], [visibility/geometry.py])

    A camera is read from JSON with many defaults; a box is tested against its
    frustum and against the boxes before it.  The trigonometric functions of
    [math] are arguments, [sqrt] is correctly rounded. *)
From Stdlib Require Import SpecFloat.
From S2P Require Export Visibility.

(** The functions of [math] that are used, and [float] of a string. *)
Record math_fns := { m_sin : float -> float; m_cos : float -> float; m_tan : float -> float; m_atan : float -> float }.

Definition fsqrt : float -> float := SFsqrt 53 1024.
Definition f_abs : float -> float := SFabs.
Definition math_pi : float := flit 3141592653589793 15.
Definition radians (x : float) : float := fmul x (fdiv math_pi (f_of_Z 180)).
Definition f_half (x : float) : float := fdiv x (f_of_Z 2).

Definition vec3 : Type := float * float * float.
Definition vx (v : vec3) : float := fst (fst v).
Definition vy (v : vec3) : float := snd (fst v).
Definition vz (v : vec3) : float := snd v.

(** [a*b + c*d + e*f] *)
Definition dot (a b : vec3) : float := fadd (fadd (fmul (vx a) (vx b)) (fmul (vy a) (vy b))) (fmul (vz a) (vz b)).
Definition vsub (a b : vec3) : vec3 := (fsub (vx a) (vx b), fsub (vy a) (vy b), fsub (vz a) (vz b)).
Definition vdiv (a : vec3) (d : float) : vec3 := (fdiv (vx a) d, fdiv (vy a) d, fdiv (vz a) d).
Definition norm (a : vec3) : float := fsqrt (dot a a).

(** ** [camera.py] *)

Record camera_model := {
  cm_id : string; cm_name : string; cm_location : vec3; cm_rotation_euler : vec3; cm_direction : option vec3; cm_look_at : option vec3;
  cm_fov_h : float; cm_fov_v : float; cm_clip_start : float; cm_clip_end : float; cm_projection_type : string; cm_ortho_scale : float;
  cm_aspect_ratio : float; cm_right_vec : vec3; cm_up_vec : vec3; cm_dir_vec : vec3; cm_is_specified : bool;
}.

Section camera.
Context (M : math_fns) (repr_other : json -> string) (json_loads : string -> option json) (parse_float : string -> option float).
#[local] Abbreviation text := (Visibility.text repr_other).

(** [_to_dict] of [camera.py], [_normalize_dict] of [analyzer.py]: a string is
    JSON text or a name. *)
Definition normalize_dict (j : json) : odict json :=
  match j with
  | JStr s => match json_loads s with Some (JObj o) => o | _ => [("id", JStr s); ("name", JStr s)]%string end
  | _ => to_dict j
  end.

(** [float(j)] or a default after a [ValueError] or a [TypeError]. *)
Definition float_or (dflt : float) (j : json) : float := match json_float parse_float j with Ok f => f | Err _ => dflt end.

Definition parse_vector3_opt (j : json) : option vec3 :=
  match j with
  | JList (x :: y :: z :: _) =>
      match json_float parse_float x, json_float parse_float y, json_float parse_float z with
      | Ok x, Ok y, Ok z => Some (x, y, z)
      | _, _, _ => None
      end
  | _ => None
  end.
Definition parse_vector3 (dflt : vec3) (j : json) : vec3 := default dflt (parse_vector3_opt j).

Definition named (d : odict json) (cam_ref : string) : bool := json_is (get "id" d) cam_ref || json_is (get "name" d) cam_ref.

Definition find_camera_in_scene (cam_ref : string) (scene_dict : odict json) : option (odict json) :=
  let any := String.eqb cam_ref "any" in
  let in_list k (p : odict json -> bool) :=
    match od_get_default k (JList []) scene_dict with JList l => List.find p (map normalize_dict l) | _ => None end in
  match in_list "objects"%string (fun o => (any && String.eqb (type_of repr_other o) "CAMERA") || named o cam_ref) with
  | Some o => Some o
  | None =>
      match in_list "cameras"%string (fun c => any || named c cam_ref) with
      | Some c => Some c
      | None =>
          let active := get "active_camera" scene_dict in
          let a := normalize_dict active in
          if json_truthy active && (any || named a cam_ref) then Some a else None
      end
  end.

(** Right, up and direction. *)
Definition normalized (v : vec3) (dflt : vec3) : vec3 := let n := norm v in if fgt n (flit 1 9) then vdiv v n else dflt.

Definition cross (a b : vec3) : vec3 :=
  (fsub (fmul (vy a) (vz b)) (fmul (vz a) (vy b)), fsub (fmul (vz a) (vx b)) (fmul (vx a) (vz b)), fsub (fmul (vx a) (vy b)) (fmul (vy a) (vx b))).

Definition f_vec (x y z : Z) : vec3 := (f_of_Z x, f_of_Z y, f_of_Z z).

Definition euler_basis (rot : vec3) : vec3 * vec3 * vec3 :=
  let '(rx, ry, rz) := rot in
  let cx := m_cos M rx in let sx := m_sin M rx in
  let cy := m_cos M ry in let sy := m_sin M ry in
  let cz := m_cos M rz in let sz := m_sin M rz in
  let dir := (fopp (fadd (fmul (fmul cz sy) cx) (fmul sz sx)), fopp (fsub (fmul (fmul sz sy) cx) (fmul cz sx)), fopp (fmul cy cx)) in
  let up := (fsub (fmul (fmul cz sy) sx) (fmul sz cx), fadd (fmul (fmul sz sy) sx) (fmul cz cx), fmul cy sx) in
  let rightv := (fmul cz cy, fmul sz cy, fopp sy) in
  (rightv, up, dir).

Definition basis_of_direction (dir : vec3) : vec3 * vec3 * vec3 :=
  let up_ref := if flt (f_abs (vz dir)) (flit 999 3) then f_vec 0 0 1 else f_vec 0 1 0 in
  let rightv := normalized (cross dir up_ref) (f_vec 1 0 0) in
  let up := normalized (cross rightv dir) (f_vec 0 1 0) in
  (rightv, up, dir).

Definition compute_view_basis (loc rot : vec3) (direction look_at : option vec3) : vec3 * vec3 * vec3 :=
  match look_at, direction with
  | Some p, _ => basis_of_direction (normalized (vsub p loc) (f_vec 0 1 0))
  | None, Some d => basis_of_direction (normalized d (f_vec 0 1 0))
  | None, None => euler_basis rot
  end.

Definition default_location : vec3 := f_vec 0 (-10) 0.
Definition default_rotation : vec3 := (f_half math_pi, f0, f0).

(** The horizontal field of view, before it is clamped. *)
Definition field_of_view (cam_info : odict json) : float :=
  match get "fov" cam_info with
  | JNull =>
      let lens := float_or (f_of_Z 50) (od_get_default "lens" (JFloat (f_of_Z 50)) cam_info) in
      let sensor_width := float_or (f_of_Z 36) (od_get_default "sensor_width" (JFloat (f_of_Z 36)) cam_info) in
      if fgt lens f0 && fgt sensor_width f0 then fmul (f_of_Z 2) (m_atan M (fdiv sensor_width (fmul (f_of_Z 2) lens))) else radians (f_of_Z 60)
  | fov =>
      match json_float parse_float fov with
      | Ok v => if fle v f0 || fge v (f_of_Z 360) then radians (f_of_Z 60) else if fgt v (flit 628 2) then radians v else v
      | Err _ => radians (f_of_Z 60)
      end
  end.

Definition aspect_ratio_of (render_dict : odict json) : float :=
  let side k dflt := json_float parse_float (od_get_default k (JInt dflt) render_dict) in
  let '(res_x, res_y) := match side "resolution_x"%string 1920, side "resolution_y"%string 1080 with
                         | Ok x, Ok y => (x, y) | _, _ => (f_of_Z 1920, f_of_Z 1080) end in
  if fgt res_x f0 && fgt res_y f0 then fdiv res_x res_y else flit 17777777777777777 16.

(** The dictionary of the camera, and whether it was found. *)
Definition camera_dict (camera_input : json) (scene_dict : odict json) : odict json * bool :=
  let cam_dict := normalize_dict camera_input in
  let is_specified := negb (bool_decide (cam_dict = [])) in
  let has_scene := match scene_dict with [] => false | _ => true end in
  let '(cam_dict, is_specified) :=
    match camera_input with
    | JStr s =>
        if has_scene then match find_camera_in_scene s scene_dict with Some ((_ :: _) as o) => (o, true) | _ => (cam_dict, is_specified) end
        else (cam_dict, is_specified)
    | _ => (cam_dict, is_specified)
    end in
  match cam_dict with
  | [] =>
      if has_scene then match find_camera_in_scene "any" scene_dict with Some ((_ :: _) as o) => (o, true) | _ => (cam_dict, is_specified) end
      else (cam_dict, is_specified)
  | _ => (cam_dict, is_specified)
  end.

Definition resolve_camera (camera_input : json) (scene_dict render_dict : odict json) : camera_model :=
  let '(cam_dict, is_specified) := camera_dict camera_input scene_dict in
  let transform := normalize_dict (od_get_default "transform" (JObj cam_dict) cam_dict) in
  let loc := parse_vector3 default_location (od_get_default "location" (JList (map JFloat [f0; f_of_Z (-10); f0])) transform) in
  let rot := parse_vector3 default_rotation
               (od_get_default "rotation_euler" (od_get_default "rotation" (JList (map JFloat [f_half math_pi; f0; f0])) transform) transform) in
  let direction := parse_vector3_opt (od_get_default "direction" (get "direction" cam_dict) transform) in
  let look_at := parse_vector3_opt (od_get_default "look_at" (od_get_default "look_at" (get "target" transform) cam_dict) transform) in
  let cam_info := normalize_dict (od_get_default "camera" (JObj cam_dict) cam_dict) in
  let ortho := float_or (f_of_Z 6) (od_get_default "ortho_scale" (JFloat (f_of_Z 6)) cam_info) in
  let aspect := aspect_ratio_of render_dict in
  let fov_h := fmax (flit 1 4) (fmin (field_of_view cam_info) (fsub math_pi (flit 1 4))) in
  let fov_v := fmul (f_of_Z 2) (m_atan M (fdiv (m_tan M (f_half fov_h)) (fmax aspect (flit 1 6)))) in
  let clip k k' dflt := float_or dflt (od_get_default k (od_get_default k' (od_get_default k (JFloat dflt) render_dict) cam_info) cam_info) in
  let '(rightv, up, dir) := compute_view_basis loc rot direction look_at in
  {| cm_id := text (od_get_default "id" (od_get_default "name" (JStr "camera-main") cam_dict) cam_dict);
     cm_name := text (od_get_default "name" (od_get_default "id" (JStr "Camera") cam_dict) cam_dict);
     cm_location := loc; cm_rotation_euler := rot; cm_direction := direction; cm_look_at := look_at; cm_fov_h := fov_h; cm_fov_v := fov_v;
     cm_clip_start := clip "clip_start"%string "near"%string (flit 1 1); cm_clip_end := clip "clip_end"%string "far"%string (f_of_Z 1000);
     cm_projection_type := str_upper (text (od_get_default "type" (od_get_default "projection_type" (JStr "PERSPECTIVE") cam_info) cam_info));
     cm_ortho_scale := if fle ortho f0 then f_of_Z 6 else ortho; cm_aspect_ratio := aspect; cm_right_vec := rightv; cm_up_vec := up;
     cm_dir_vec := dir; cm_is_specified := is_specified |}.
End camera.

(** ** [geometry.py] *)

Inductive culling_result := OUTSIDE | INTERSECTING | INSIDE.

Record bounding_box := { bb_min_pt : vec3; bb_max_pt : vec3; bb_corners : list vec3; bb_is_solid_opaque : bool }.

(** [min] and [max] of a list. *)
Definition list_min (l : list float) : float := match l with [] => f0 | x :: l => fold_left fmin l x end.
Definition list_max (l : list float) : float := match l with [] => f0 | x :: l => fold_left fmax l x end.

Definition from_corners (corners : list vec3) (is_solid_opaque : bool) : bounding_box :=
  let corners := match corners with
                 | [] => let half := f_half f1 in [(fopp half, fopp half, fopp half); (half, half, half)]
                 | _ => corners
                 end in
  {| bb_min_pt := (list_min (map vx corners), list_min (map vy corners), list_min (map vz corners));
     bb_max_pt := (list_max (map vx corners), list_max (map vy corners), list_max (map vz corners));
     bb_corners := corners; bb_is_solid_opaque := is_solid_opaque |}.

(** The corners of a box, and of an array of eight points. *)
Definition box_corners (a b : vec3) : list vec3 :=
  [(vx a, vy a, vz a); (vx a, vy a, vz b); (vx a, vy b, vz a); (vx a, vy b, vz b);
   (vx b, vy a, vz a); (vx b, vy a, vz b); (vx b, vy b, vz a); (vx b, vy b, vz b)].
Definition unit_box : list vec3 := let half := f_half f1 in box_corners (fopp half, fopp half, fopp half) (half, half, half).

Section culling.
Context (M : math_fns) (parse_float : string -> option float).

Definition local_corners (bound_box : json) : list vec3 :=
  let point := parse_vector3_opt parse_float in
  match bound_box with
  | JList [a; b] => match point a, point b with Some a, Some b => box_corners a b | _, _ => unit_box end
  | JList [_; _; _; _; _; _; _; _] =>
      match bound_box with
      | JList l => let found := omap point l in if (length found =? 8)%nat then found else unit_box
      | _ => unit_box
      end
  | _ => unit_box
  end.

Definition rotate_euler (v rot : vec3) : vec3 :=
  let '(rx, ry, rz) := rot in
  let cx := m_cos M rx in let sx := m_sin M rx in
  let cy := m_cos M ry in let sy := m_sin M ry in
  let cz := m_cos M rz in let sz := m_sin M rz in
  let '(x, y, z) := v in
  let '(x1, y1, z1) := (x, fsub (fmul y cx) (fmul z sx), fadd (fmul y sx) (fmul z cx)) in
  let '(x2, y2, z2) := (fadd (fmul x1 cy) (fmul z1 sy), y1, fadd (fmul (fopp x1) sy) (fmul z1 cy)) in
  (fsub (fmul x2 cz) (fmul y2 sz), fadd (fmul x2 sz) (fmul y2 cz), z2).

Definition compute_world_bounds (obj_dict : odict json) : bounding_box :=
  let transform := to_dict (od_get_default "transform" (JObj []) obj_dict) in
  let zeros := JList (map JFloat [f0; f0; f0]) in
  let loc := parse_vector3 parse_float (f_vec 0 0 0) (od_get_default "location" zeros transform) in
  let rot := parse_vector3 parse_float (f_vec 0 0 0) (od_get_default "rotation_euler" (od_get_default "rotation" zeros transform) transform) in
  let scale := parse_vector3 parse_float (f_vec 1 1 1) (od_get_default "scale" (JList (map JFloat [f1; f1; f1])) transform) in
  let place pt :=
    let r := rotate_euler (fmul (vx pt) (vx scale), fmul (vy pt) (vy scale), fmul (vz pt) (vz scale)) rot in
    (fadd (vx r) (vx loc), fadd (vy r) (vy loc), fadd (vz r) (vz loc)) in
  from_corners (map place (local_corners (od_get_default "bound_box" (get "bounding_box" obj_dict) obj_dict)))
    (json_truthy (od_get_default "is_solid_opaque" (JBool true) obj_dict)).

Definition world_to_cam_space (p : vec3) (cam_loc r u d : vec3) : vec3 := let rel := vsub p cam_loc in (dot rel r, dot rel u, dot rel d).

Definition conservative_tolerance : float := flit 1 4.

(** [all(p(x) for x in l)] *)
Definition all_of {A} (p : A -> bool) (l : list A) : bool := forallb p l.
Definition between (lo x hi : float) : bool := fle lo x && fle x hi.

Definition test_frustum (bounds : bounding_box) (camera : camera_model) : culling_result :=
  let tol := conservative_tolerance in
  let cam_corners := map (fun p => world_to_cam_space p (cm_location camera) (cm_right_vec camera) (cm_up_vec camera) (cm_dir_vec camera)) (bb_corners bounds) in
  let near := fsub (cm_clip_start camera) tol in
  let far := fadd (cm_clip_end camera) tol in
  if all_of (fun c => flt (vz c) near) cam_corners || all_of (fun c => fgt (vz c) far) cam_corners then OUTSIDE
  else if String.eqb (cm_projection_type camera) "ORTHOGRAPHIC" then
    let half_w := fadd (f_half (fmul (cm_ortho_scale camera) (cm_aspect_ratio camera))) tol in
    let half_h := fadd (f_half (cm_ortho_scale camera)) tol in
    if all_of (fun c => flt (vx c) (fopp half_w)) cam_corners || all_of (fun c => fgt (vx c) half_w) cam_corners then OUTSIDE
    else if all_of (fun c => flt (vy c) (fopp half_h)) cam_corners || all_of (fun c => fgt (vy c) half_h) cam_corners then OUTSIDE
    else if all_of (fun c => between near (vz c) far) cam_corners && all_of (fun c => between (fopp half_w) (vx c) half_w) cam_corners
            && all_of (fun c => between (fopp half_h) (vy c) half_h) cam_corners
    then INSIDE else INTERSECTING
  else
    let tan_h := m_tan M (f_half (cm_fov_h camera)) in
    let tan_v := m_tan M (f_half (cm_fov_v camera)) in
    if all_of (fun c => flt (vx c) (fsub (fmul (fopp (vz c)) tan_h) tol)) cam_corners then OUTSIDE
    else if all_of (fun c => fgt (vx c) (fadd (fmul (vz c) tan_h) tol)) cam_corners then OUTSIDE
    else if all_of (fun c => flt (vy c) (fsub (fmul (fopp (vz c)) tan_v) tol)) cam_corners then OUTSIDE
    else if all_of (fun c => fgt (vy c) (fadd (fmul (vz c) tan_v) tol)) cam_corners then OUTSIDE
    else
      (* The loop is [for x, y, z in zip(x_cams, z_cams, y_cams)]: its [y] is the
          depth and its [z] the height. *)
      let inside c := let '(x, z, y) := c in between near z far && between (fmul (fopp z) tan_h) x (fmul z tan_h)
                                            && between (fmul (fopp z) tan_v) y (fmul z tan_v) in
      if all_of inside cam_corners then INSIDE else INTERSECTING.

Definition point_in_aabb (pt b_min b_max : vec3) : bool :=
  between (vx b_min) (vx pt) (vx b_max) && between (vy b_min) (vy pt) (vy b_max) && between (vz b_min) (vz pt) (vz b_max).

(** One axis of the slab test; [None] when the ray misses. *)
Definition slab (t : option (float * float)) (axis : float * float * (float * float)) : option (float * float) :=
  '(t_min, t_max) ← t;
  let '(o, d, (lo, hi)) := axis in
  if flt (f_abs d) (flit 1 9) then if flt o lo || fgt o hi then None else Some (t_min, t_max)
  else
    let inv_d := fdiv f1 d in
    let t1 := fmul (fsub lo o) inv_d in
    let t2 := fmul (fsub hi o) inv_d in
    let '(t1, t2) := if fgt t1 t2 then (t2, t1) else (t1, t2) in
    let t_min := fmax t_min t1 in
    let t_max := fmin t_max t2 in
    if fgt t_min t_max then None else Some (t_min, t_max).

Definition ray_intersects_aabb (origin direction aabb_min aabb_max : vec3) : option float :=
  let eps := flit 1 4 in
  let far := f_of_Z (10 ^ 30) in
  '(t_min, t_max) ← fold_left slab [(vx origin, vx direction, (vx aabb_min, vx aabb_max)); (vy origin, vy direction, (vy aabb_min, vy aabb_max));
                                     (vz origin, vz direction, (vz aabb_min, vz aabb_max))] (Some (fopp far, far));
  if fle t_max eps then None
  else let hit_t := if fgt t_min eps then t_min else t_max in if fgt hit_t eps then Some hit_t else None.

(** The centre of the corners, which are never none, and the corners. *)
Definition sample_points (corners : list vec3) : list vec3 :=
  let n := f_of_Z (Z.of_nat (length corners)) in
  (fdiv (fsum (map vx corners)) n, fdiv (fsum (map vy corners)) n, fdiv (fsum (map vz corners)) n) :: corners.

(** A ray to a point hits a box well before the point. *)
Definition hits_before (cam_p ray_dir b_min b_max : vec3) (dist : float) : bool :=
  match ray_intersects_aabb cam_p ray_dir b_min b_max with
  | Some hit_t => flt (flit 1 4) hit_t && flt hit_t (fsub dist (flit 1 4))
  | None => false
  end.

(** Does [blocked] hold for the ray to every point?  A point at the camera is
    not blocked. *)
Definition every_ray (cam_p : vec3) (blocked : vec3 -> float -> bool) (points : list vec3) : bool :=
  all_of (fun sp => let v := vsub sp cam_p in
                    let dist := norm v in
                    if flt dist (flit 1 6) then false else blocked (vdiv v dist) dist) points.

Definition test_occlusion (candidate_bounds : bounding_box) (camera : camera_model) (opaque_blockers : list bounding_box) : bool :=
  match opaque_blockers with
  | [] => false
  | _ =>
      let cam_p := cm_location camera in
      every_ray cam_p (fun ray_dir dist =>
          existsb (fun b => bb_is_solid_opaque b && negb (point_in_aabb cam_p (bb_min_pt b) (bb_max_pt b))
                            && hits_before cam_p ray_dir (bb_min_pt b) (bb_max_pt b) dist) opaque_blockers)
        (sample_points (bb_corners candidate_bounds))
  end.

(** The dictionaries of [is_occluded]. *)
Record aabb_dict := { ab_corners : list vec3; ab_min_pt : option vec3; ab_max_pt : option vec3; ab_is_solid_opaque : bool }.
Definition half_vec (s : bool) : vec3 := let half := if s then f_half f1 else fopp (f_half f1) in (half, half, half).

Definition aabb_strictly_occludes_target (target occ : aabb_dict) (cam_p : vec3) : bool :=
  let t_corners := match ab_corners target with
                   | [] => box_corners (default (half_vec false) (ab_min_pt target)) (default (half_vec true) (ab_max_pt target))
                   | l => l
                   end in
  let o_min := default (half_vec false) (ab_min_pt occ) in
  let o_max := default (half_vec true) (ab_max_pt occ) in
  every_ray cam_p (fun ray_dir dist => negb (point_in_aabb cam_p o_min o_max) && hits_before cam_p ray_dir o_min o_max dist)
    (sample_points t_corners).

Definition is_occluded (target : aabb_dict) (occluders : list aabb_dict) (cam_p : vec3) : bool :=
  existsb (fun occ => ab_is_solid_opaque occ && aabb_strictly_occludes_target target occ cam_p) occluders.
End culling.
