(* ===== verification/VisibilityAnalyzer.v ===== *)
(** * The requirements of a render ([visibility/analyzer.py], [visibility/engine.py])

    The analysis merges a scene with its dependency graph, finds the objects
    that are not hidden, culls those out of the picture or behind others, adds
    what influences them and closes the result over the dependencies.  What is
    left over is unused. *)
From Stdlib Require Import SpecFloat.
From S2P Require Export VisibilityGeometry BlenderAdapter.

Section analyzer.
Context (M : math_fns) (repr_other : json -> string) (json_loads : string -> option json) (parse_float : string -> option float).
#[local] Abbreviation text := (Visibility.text repr_other).
#[local] Abbreviation normalize_dict := (normalize_dict json_loads).
#[local] Abbreviation ident := (ident repr_other).

(** ** Inputs *)

(** A key of the graph fills a key the scene lacks or leaves empty. *)
Definition merge_graph (scene_dict graph_dict : odict json) : odict json :=
  fold_left (fun d '(k, v) => if json_truthy (get k d) then d else od_set k v d) graph_dict scene_dict.

(** The objects of a scene that is nothing but a graph. *)
Definition node_object (n : json) : option json :=
  let d := normalize_dict n in
  if json_is (get "kind" d) "object" then
    let identifier := od_get_default "identifier" (JStr "") d in
    Some (JObj [("id", identifier); ("name", od_get_default "label" identifier d); ("visibility", JObj [("hide_render", JBool false)]);
                ("is_pure_graph_node", JBool true)]%string)
  else None.

Definition reconstruct_objects (d : odict json) : res (odict json) :=
  if negb (json_truthy (get "objects" d)) && json_truthy (get "nodes" d) then
    let! nodes := items (get "nodes" d) in Ok (od_set "objects"%string (JList (omap node_object nodes)) d)
  else Ok d.

Definition combine_data (snapshot : json) (dependency_graph : option json) : res (odict json) :=
  let graph := match dependency_graph with Some g => normalize_dict g | None => [] end in
  reconstruct_objects (merge_graph (normalize_dict snapshot) graph).

(** [_resolve_render_request]; a request that is a [RenderRequest] is itself. *)
Definition camera_name (active_camera : json) : json :=
  let main o := od_get_default "id" (od_get_default "name" (JStr "camera-main") o) o in
  match active_camera with
  | JStr s => match json_loads s with Some (JObj o) => main o | _ => JStr s end
  | JObj o => main o
  | _ => JStr ""
  end.

Definition resolve_render_request (request : render_request_model + option json) (active_camera : json) (render_dict scene_data : odict json)
  : res render_request_model :=
  match request with
  | inl r => Ok r
  | inr request =>
      let req_dict := match request with Some j => normalize_dict j | None => [] end in
      let cam_id := od_get_default "camera_id" (od_get_default "camera" (JStr "") req_dict) req_dict in
      let cam_id := if negb (json_truthy cam_id) && json_truthy active_camera
                    then match active_camera with JStr _ | JObj _ => camera_name active_camera | _ => cam_id end else cam_id in
      let metadata := to_dict (od_get_default "metadata" (JObj []) scene_data) in
      let! f_start := json_int (od_get_default "frame_start" (od_get_default "frame_start" (JInt 1) metadata) req_dict) in
      let! f_end := json_int (od_get_default "frame_end" (od_get_default "frame_end" (JInt f_start) metadata) req_dict) in
      let! res_x := json_int (od_get_default "resolution_x" (od_get_default "resolution_x" (JInt 1920) req_dict) render_dict) in
      let! res_y := json_int (od_get_default "resolution_y" (od_get_default "resolution_y" (JInt 1080) req_dict) render_dict) in
      Ok {| rr_camera_id := text cam_id; rr_frame_start := f_start; rr_frame_end := f_end; rr_resolution := (res_x, res_y);
            rr_view_layer := text (od_get_default "view_layer" (JStr "ViewLayer") req_dict);
            rr_scene_name := text (od_get_default "name" (JStr "") metadata);
            rr_conservative := json_truthy (od_get_default "conservative" (JBool true) req_dict) |}
  end.

(** ** Eligibility of dictionaries *)

(** A keyframe of JSON; its frame is an integer and its value a number. *)
Definition json_keyframe (j : json) : res keyframe :=
  let! k := match j with JObj k => Ok k | _ => Err (AttributeError "get") end in
  let! frame := json_frame (od_get_default "frame" (JInt 0) k) in
  let! v := match od_get_default "value" (JFloat f0) k with JStr _ => Err TypeError | v => json_float (fun _ => None) v end in
  Ok {| kf_frame := frame; kf_value := v |}.

Definition held_value (keyframes : list keyframe) (k0 : keyframe) (frame : Z) : float :=
  (fix go (held : float) (l : list keyframe) : float :=
     match l with
     | [] => held
     | k :: l => if kf_frame k <=? frame then go (kf_value k) l else held
     end) (kf_value k0) keyframes.

Definition keyframes_indicate_visible (keyframes : list keyframe) (frame_start frame_end : Z) (static_hidden : bool) : bool :=
  let sorted := sort_keyframes keyframes in
  match sorted with
  | [] => negb static_hidden
  | k0 :: _ =>
      match List.filter (fun k => (frame_start <=? kf_frame k) && (kf_frame k <=? frame_end)) sorted with
      | [] => flt (held_value sorted k0 frame_start) (flit 5 1)
      | in_range => existsb (fun k => flt (kf_value k) (flit 5 1)) in_range
      end
  end.

Definition is_hide_curve (c : json) : bool := match c with JObj o => json_is (get "data_path" o) "hide_render" | _ => false end.

Definition is_eligible_dict (o : odict json) (frame_start frame_end : Z) : res bool :=
  let static_hidden := match od_get_default "visibility" (JObj []) o with
                       | JObj v => json_truthy (od_get_default "hide_render" (JBool false) v) | _ => false end in
  let! curves := match od_get_default "animation" (JObj []) o with
                 | JObj a => match od_get_default "curves" (JList []) a with JList l => Ok l | JObj _ | JStr _ => Ok [] | _ => Err TypeError end
                 | _ => Ok []
                 end in
  match List.find is_hide_curve curves with
  | None => Ok (negb static_hidden)
  | Some c =>
      let! l := match od_get_default "keyframes" (JList []) (to_dict c) with JList l => Ok l | _ => Err TypeError end in
      let! keyframes := res_all json_keyframe l in
      Ok (keyframes_indicate_visible keyframes frame_start frame_end static_hidden)
  end.

Definition evaluate_eligibility (scene_data : odict json) (frame_start frame_end : Z) : res (gset string) :=
  let! objects := items (get "objects" scene_data) in
  res_fold (fun ids obj =>
              let o := normalize_dict obj in
              let i := ident "" o in
              let! eligible := is_eligible_dict o frame_start frame_end in
              Ok (if eligible then {[i; text (od_get_default "name" (JStr i) o)]} ∪ ids else ids))
    ∅ objects.

(** ** Culling *)

Record cull_item := { cd_id : string; cd_name : string; cd_bounds : bounding_box; cd_depth : float }.

Definition object_id (o : odict json) : string := ident "Unknown" o.
Definition object_label (o : odict json) : string := text (od_get_default "name" (JStr (object_id o)) o).

(** The depth of a box: its nearest corner along the view. *)
Definition cam_depth (bounds : bounding_box) (camera : camera_model) : float :=
  list_min (map (fun p => dot (vsub p (cm_location camera)) (cm_dir_vec camera)) (bb_corners bounds)).

(** What becomes of an object: shown as it is, a candidate, or nothing. *)
Definition cull_object (eligible : gset string) (camera : camera_model) (o : odict json) : option (string * string + cull_item) :=
  let i := object_id o in
  let n := object_label o in
  if negb (bool_decide (i ∈ eligible)) && negb (bool_decide (n ∈ eligible)) then None
  else if String.eqb (type_of repr_other o) "CAMERA" then None
  else if json_truthy (get "is_pure_graph_node" o) then Some (inl (i, n))
  else
    let bounds := compute_world_bounds M parse_float o in
    match test_frustum M bounds camera with
    | OUTSIDE => None
    | _ => Some (inr {| cd_id := i; cd_name := n; cd_bounds := bounds; cd_depth := cam_depth bounds camera |})
    end.

(** Front to back; what is not occluded is visible and occludes what follows. *)
Definition see_candidates (camera : camera_model) (candidates : list cull_item) : gset string * list bounding_box :=
  fold_left (fun '(visible, blockers) c =>
      if test_occlusion (cd_bounds c) camera blockers then (visible, blockers)
      else ({[cd_id c; cd_name c]} ∪ visible, blockers ++ [cd_bounds c]))
    (isort (fun a b => flt (cd_depth a) (cd_depth b)) candidates) (∅, []).

Definition shown_as_is (x : string * string + cull_item) : option (list string) := match x with inl (i, n) => Some [i; n] | inr _ => None end.
Definition to_see (x : string * string + cull_item) : option cull_item := match x with inl _ => None | inr c => Some c end.

Definition visible_ids (eligible : gset string) (camera : camera_model) (objects : list (odict json)) : gset string :=
  let culled := omap (cull_object eligible camera) objects in
  list_to_set (concat (omap shown_as_is culled)) ∪ fst (see_candidates camera (omap to_see culled)).

(** ** [analyze] *)

Record render_requirement_report := {
  rp_request : render_request_model; rp_required : requirement_report; rp_unused_objects : list string; rp_reasons : odict (list reason);
  rp_conservative : bool; rp_statistics : odict Z;
}.

Definition normalized_objects (d : odict json) : res (list (odict json)) :=
  let! l := items (get "objects" d) in Ok (map normalize_dict (List.filter (fun j => negb (is_string j)) l)).

(** The names of the objects, each once. *)
Definition object_identifiers (objects : list (odict json)) : list string :=
  fold_left (fun l o => let name := text (json_or (get "name" o) (od_get_default "id" (JStr "") o)) in if str_truthy name then append_new l name else l) objects [].

Definition required_lights (d : odict json) : res (list string) :=
  let! lights := items (get "lights" d) in
  Ok (fold_left (fun l x => let i := ident "light" (normalize_dict x) in if str_truthy i then append_new l i else l) lights []).

(** Where the camera is looked for. *)
Definition camera_source (active_camera : json) (req : render_request_model) (d : odict json) : json :=
  let cam_source := match active_camera with JNull => JStr (rr_camera_id req) | j => j end in
  if negb (json_truthy cam_source) && json_truthy (get "active_camera" d) then get "active_camera" d else cam_source.

Definition settings_dict (render_settings : option json) : odict json := match render_settings with Some r => normalize_dict r | None => [] end.

Definition analyze (snapshot : json) (dependency_graph : option json) (request : render_request_model + option json) (active_camera : json)
    (render_settings : option json) : res render_requirement_report :=
  let render_dict := settings_dict render_settings in
  let! d := combine_data snapshot dependency_graph in
  let! req := resolve_render_request request active_camera render_dict d in
  let! eligible := evaluate_eligibility d (rr_frame_start req) (rr_frame_end req) in
  let camera := resolve_camera M repr_other json_loads parse_float (camera_source active_camera req d) d render_dict in
  let! objects := normalized_objects d in
  let! required := analyze_influences repr_other d (visible_ids eligible camera objects) [] in
  let! closure := resolve_closure repr_other (in_required required) d (in_reasons required) in
  let names := object_identifiers objects in
  let unused := List.filter (fun n => negb (bool_decide (n ∈ rc_objects closure))) names in
  let! lights := required_lights d in
  let count {A} (l : list A) := Z.of_nat (length l) in
  Ok {| rp_request := req;
        rp_required := {| rq_objects := rc_objects closure; rq_meshes := rc_meshes closure; rq_materials := rc_materials closure;
                          rq_textures := rc_textures closure; rq_images := rc_images closure; rq_lights := lights;
                          rq_cameras := if str_truthy (cm_id camera) then [cm_id camera] else []; rq_libraries := []; rq_simulation_caches := [] |};
        rp_unused_objects := unused; rp_reasons := rc_reasons closure; rp_conservative := rr_conservative req;
        rp_statistics := [("total_objects", count names); ("required_objects_count", count (rc_objects closure));
                          ("unused_objects_count", count unused); ("required_materials_count", count (rc_materials closure));
                          ("required_textures_count", count (rc_textures closure))]%string |}.

(** ** [VisibilityEngine.analyze]: the R4 dictionary *)

Definition to_r4_dict (r : render_requirement_report) : odict (list string) :=
  [("visible_objects", rq_objects (rp_required r)); ("unused_objects", rp_unused_objects r);
   ("required_materials", rq_materials (rp_required r)); ("required_textures", rq_textures (rp_required r))]%string.

Definition engine_analyze (active_camera : json) (dependency_graph render_settings snapshot : option json) (request : render_request_model + option json)
  : res (odict (list string)) :=
  let target_scene := match snapshot with Some s => s | None => default JNull dependency_graph end in
  let! r := analyze target_scene dependency_graph request active_camera render_settings in Ok (to_r4_dict r).

(** The JSON of a report. *)
Definition to_dict_report (r : render_requirement_report) : json :=
  let strs l := JList (map JStr l) in
  let q := rp_request r in
  let n := rp_required r in
  JObj [("request", JObj [("camera", JStr (rr_camera_id q)); ("frame_start", JInt (rr_frame_start q)); ("frame_end", JInt (rr_frame_end q));
                          ("resolution", JList [JInt (fst (rr_resolution q)); JInt (snd (rr_resolution q))]);
                          ("view_layer", JStr (rr_view_layer q)); ("scene_name", JStr (rr_scene_name q))]);
        ("required", JObj [("objects", strs (rq_objects n)); ("meshes", strs (rq_meshes n)); ("materials", strs (rq_materials n));
                           ("textures", strs (rq_textures n)); ("images", strs (rq_images n)); ("lights", strs (rq_lights n));
                           ("cameras", strs (rq_cameras n)); ("libraries", strs (rq_libraries n));
                           ("simulation_caches", strs (rq_simulation_caches n))]);
        ("unused_objects", strs (rp_unused_objects r));
        ("reasons", JObj (map (fun '(k, l) => (k, strs l)) (rp_reasons r)));
        ("analysis", JObj [("conservative", JBool (rp_conservative r));
                           ("statistics", JObj (map (fun '(k, n) => (k, JInt n)) (rp_statistics r)))])]%string.
End analyzer.
