(* ===== verification/VisibilityProps.v ===== *)
(** * What the visibility analysis promises

    A hidden object is hidden in every frame; an object is left out of a render
    only for a reason; the search over the materials ends. *)
From Stdlib Require Import SpecFloat.
From S2P Require Export VisibilityAnalyzer.

(** ** Keyframes *)

Definition in_frame_order : list keyframe -> Prop := StronglySorted (fun a b => kf_frame a <= kf_frame b).

Lemma sort_keyframes_sorted l : in_frame_order (sort_keyframes l).
Proof. apply (isort_key_sorted kf_frame). Qed.

Lemma sort_keyframes_perm l : Permutation (sort_keyframes l) l.
Proof. apply isort_perm. Qed.

Lemma filter_in_order p l : in_frame_order l -> in_frame_order (List.filter p l).
Proof.
  induction 1 as [|k l Hs IH Hf]; simpl; [constructor|]. destruct (p k); [|done]. constructor; [done|].
  rewrite List.Forall_forall in *. intros x [Hx _]%filter_In. by apply Hf.
Qed.

Lemma last_greatest l dflt k : in_frame_order l -> k ∈ l -> kf_frame k <= kf_frame (last_or dflt l).
Proof.
  unfold last_or. intros Hord. revert k. induction Hord as [|x l Hs IH Hf]; intros k; [by intros ?%not_elem_of_nil|]. rewrite List.Forall_forall in Hf.
  destruct l as [|y l]; [by intros ->%list_elem_of_singleton|]. change (List.last (x :: y :: l) dflt) with (List.last (y :: l) dflt).
  intros [->|Hk]%elem_of_cons; [|by apply IH]. etransitivity; [apply (Hf y); by left|]. apply IH. left.
Qed.

Lemma first_least l dflt k : in_frame_order l -> k ∈ l -> kf_frame (first_or dflt l) <= kf_frame k.
Proof.
  destruct 1 as [|x l Hs Hf]; [by intros ?%not_elem_of_nil|]. rewrite List.Forall_forall in Hf. simpl.
  intros [->|Hk]%elem_of_cons; [done|]. apply Hf. by apply list_elem_of_In.
Qed.

Lemma last_elem l dflt : l <> [] -> last_or dflt l ∈ l.
Proof. unfold last_or. intros H. destruct (exists_last H) as (l' & x & ->). rewrite List.last_last. apply elem_of_app. right. left. Qed.

Lemma first_elem l dflt : l <> [] -> first_or dflt l ∈ l.
Proof. destruct l; [done|]. intros _. left. Qed.

(** The keyframes that hold before and after a frame. *)
Definition upto (f : Z) (l : list keyframe) : list keyframe := List.filter (fun k => kf_frame k <=? f) l.
Definition from (f : Z) (l : list keyframe) : list keyframe := List.filter (fun k => f <=? kf_frame k) l.

Lemma elem_upto k f l : k ∈ upto f l <-> k ∈ l /\ kf_frame k <= f.
Proof. unfold upto. rewrite list_elem_of_In, filter_In, Z.leb_le. by rewrite list_elem_of_In. Qed.
Lemma elem_from k f l : k ∈ from f l <-> k ∈ l /\ f <= kf_frame k.
Proof. unfold from. rewrite list_elem_of_In, filter_In, Z.leb_le. by rewrite list_elem_of_In. Qed.

Definition before_frame (l : list keyframe) (k0 : keyframe) (f : Z) : keyframe := last_or k0 (upto f l).
Definition after_frame (l : list keyframe) (k0 : keyframe) (f : Z) : keyframe := first_or (last_or k0 l) (from f l).

(** A keyframe before a range is the same at its start as at any frame up to
    which no other follows. *)
Lemma before_frame_start l k0 fs f :
  in_frame_order l -> fs <= f ->
  (before_frame l k0 f ∈ l /\ fs <= kf_frame (before_frame l k0 f) <= f) \/ before_frame l k0 f = before_frame l k0 fs.
Proof.
  intros Hs Hle. unfold before_frame at 1 2. destruct (decide (upto f l = [])) as [Hnil|Hne].
  { right. unfold before_frame. rewrite Hnil. assert (upto fs l = []) as ->; [|done].
    apply elem_of_nil_inv. intros x [Hx Hf]%elem_upto. apply (not_elem_of_nil x). rewrite <- Hnil. apply elem_upto. split; [done|lia]. }
  pose proof (last_elem (upto f l) k0 Hne) as [Hin Hf]%elem_upto.
  destruct (decide (fs <= kf_frame (before_frame l k0 f))) as [Hge|Hlt]; [left; unfold before_frame in *; by split_and!|right].
  unfold before_frame. f_equal. unfold upto. apply filter_ext_in. intros x Hx%list_elem_of_In.
  apply eq_true_iff_eq. rewrite !Z.leb_le. split; [|lia]. intros Hxf.
  assert (x ∈ upto f l) as Hxu by by apply elem_upto. pose proof (last_greatest _ k0 x (filter_in_order _ _ Hs) Hxu) as Hlast.
  unfold before_frame in Hlt. fold (upto f l) in Hlast. lia.
Qed.

Lemma after_frame_end l k0 fe f :
  in_frame_order l -> f <= fe ->
  (after_frame l k0 f ∈ l /\ f <= kf_frame (after_frame l k0 f) <= fe) \/ after_frame l k0 f = after_frame l k0 fe.
Proof.
  intros Hs Hle. unfold after_frame at 1 2. destruct (decide (from f l = [])) as [Hnil|Hne].
  { right. unfold after_frame. rewrite Hnil. assert (from fe l = []) as ->; [|done].
    apply elem_of_nil_inv. intros x [Hx Hf]%elem_from. apply (not_elem_of_nil x). rewrite <- Hnil. apply elem_from. split; [done|lia]. }
  set (dflt := last_or k0 l). pose proof (first_elem (from f l) dflt Hne) as [Hin Hf]%elem_from.
  destruct (decide (kf_frame (first_or dflt (from f l)) <= fe)) as [Hge|Hlt]; [left; by split_and!|right].
  unfold after_frame. fold dflt. f_equal. unfold from. apply filter_ext_in. intros x Hx%list_elem_of_In.
  apply eq_true_iff_eq. rewrite !Z.leb_le. split; [|lia]. intros Hxf.
  assert (x ∈ from f l) as Hxu by by apply elem_from. pose proof (first_least _ dflt x (filter_in_order _ _ Hs) Hxu) as Hfirst.
  fold (from f l) in Hfirst. lia.
Qed.

(** ** When an object is hidden *)

Section curve.
Context (raw : list keyframe).
Let l := sort_keyframes raw.
Let k0 := first_or {| kf_frame := 0; kf_value := f0 |} l.

(** The value that holds before a frame, and the one after it. *)
Definition value_before (f : Z) : float := kf_value (before_frame l k0 f).
Definition value_after (f : Z) : float := kf_value (after_frame l k0 f).

Lemma curve_cases fs fe hidden interp :
  raw <> [] ->
  curve_indicates_visible_in_range raw fs fe hidden interp
  = existsb (fun k => shown (kf_value k)) (List.filter (fun k => (fs <=? kf_frame k) && (kf_frame k <=? fe)) l)
    || shown (value_before fs) || (negb (String.eqb (str_upper interp) "CONSTANT") && shown (value_after fe)).
Proof.
  intros Hne. unfold curve_indicates_visible_in_range, value_before, value_after, before_frame, after_frame, k0. fold l.
  destruct l as [|k rest] eqn:El.
  { destruct Hne. apply Permutation_nil. rewrite <- (sort_keyframes_perm raw). fold l. by rewrite El. }
  change (first_or _ (k :: rest)) with k. unfold upto, from.
  destruct (existsb _ _); [done|]. destruct (shown (kf_value (last_or k _))); [done|]. destruct (_ && _); [done|]. by destruct (List.filter _ _).
Qed.

(** A curve that never falls below both keyframes around a frame; a constant one
    holds the keyframe before. *)
Definition follows (interp : string) (value : Z -> float) : Prop :=
  forall f, fle (value_before f) (value f) = true
            \/ (str_upper interp <> "CONSTANT"%string /\ fle (value_after f) (value f) = true).

Lemma shown_below v w : fle v w = true -> shown w = true -> shown v = true.
Proof. unfold shown. intros Hv Hw. eapply fle_trans; [|exact Hv|exact Hw]. by apply fle_notnan in Hv as [_ ?]. Qed.

Lemma shown_in_range fs fe k :
  k ∈ l -> fs <= kf_frame k <= fe -> shown (kf_value k) = true ->
  existsb (fun k => shown (kf_value k)) (List.filter (fun k => (fs <=? kf_frame k) && (kf_frame k <=? fe)) l) = true.
Proof.
  intros Hk Hf Hs. apply existsb_exists. exists k. split; [|done]. apply filter_In. split; [by apply list_elem_of_In|].
  rewrite andb_true_iff, !Z.leb_le. lia.
Qed.

Lemma curve_conservative fs fe hidden interp f :
  raw <> [] -> fs <= f <= fe ->
  shown (value_before f) = true \/ (str_upper interp <> "CONSTANT"%string /\ shown (value_after f) = true) ->
  curve_indicates_visible_in_range raw fs fe hidden interp = true.
Proof.
  intros Hne Hf Hsh. rewrite curve_cases by done. assert (in_frame_order l) as Hs by apply sort_keyframes_sorted.
  destruct Hsh as [Hsh|[Hc Hsh]].
  - unfold value_before in Hsh. destruct (before_frame_start l k0 fs f Hs ltac:(lia)) as [[Hin Hr]|E].
    + by rewrite (shown_in_range fs fe _ Hin ltac:(lia) Hsh).
    + unfold value_before. rewrite <- E, Hsh. by rewrite orb_true_r.
  - unfold value_after in Hsh. destruct (after_frame_end l k0 fe f Hs ltac:(lia)) as [[Hin Hr]|E].
    + by rewrite (shown_in_range fs fe _ Hin ltac:(lia) Hsh).
    + unfold value_after. rewrite <- E, Hsh. destruct (String.eqb_spec (str_upper interp) "CONSTANT"); [done|]. by rewrite !orb_true_r.
Qed.

Lemma follows_shown interp value f :
  follows interp value -> shown (value f) = true ->
  shown (value_before f) = true \/ (str_upper interp <> "CONSTANT"%string /\ shown (value_after f) = true).
Proof. intros Hfol Hv. destruct (Hfol f) as [Hb|[Hc Ha]]; [left|right; split; [done|]]; by eapply shown_below. Qed.

(** With one value per frame, a keyframe holds at its own frame. *)
Lemma before_own_frame k :
  (forall x y, x ∈ raw -> y ∈ raw -> kf_frame x = kf_frame y -> x = y) -> k ∈ l -> before_frame l k0 (kf_frame k) = k.
Proof.
  intros Hinj Hk. assert (k ∈ upto (kf_frame k) l) as Hu by by apply elem_upto.
  assert (upto (kf_frame k) l <> []) as Hne by (intros E; rewrite E in Hu; by apply not_elem_of_nil in Hu).
  pose proof (last_elem _ k0 Hne) as [Hin Hle]%elem_upto.
  pose proof (last_greatest _ k0 k (filter_in_order _ _ (sort_keyframes_sorted raw)) Hu) as Hge. fold l in Hge. fold (upto (kf_frame k) l) in Hge.
  unfold before_frame. apply Hinj; [by rewrite <- (sort_keyframes_perm raw)|by rewrite <- (sort_keyframes_perm raw)|lia].
Qed.

Lemma curve_exact fs fe hidden interp :
  raw <> [] -> (forall x y, x ∈ raw -> y ∈ raw -> kf_frame x = kf_frame y -> x = y) -> str_upper interp = "CONSTANT"%string -> fs <= fe ->
  curve_indicates_visible_in_range raw fs fe hidden interp = true <-> exists f, fs <= f <= fe /\ shown (value_before f) = true.
Proof.
  intros Hne Hinj Hc Hle. split.
  - rewrite curve_cases, Hc by done. simpl. rewrite orb_false_r, orb_true_iff. intros [H|H]; [|exists fs; split; [lia|done]].
    apply existsb_exists in H as (k & [Hk Hr]%filter_In & Hs). rewrite andb_true_iff, !Z.leb_le in Hr. apply list_elem_of_In in Hk.
    exists (kf_frame k). split; [lia|]. unfold value_before. by rewrite before_own_frame.
  - intros (f & Hf & Hs). eapply curve_conservative; [done|exact Hf|by left].
Qed.
End curve.

Lemma nodup_inj {A B} (f : A -> B) l x y : NoDup (map f l) -> x ∈ l -> y ∈ l -> f x = f y -> x = y.
Proof.
  intros Hnd [i Hi]%list_elem_of_lookup [j Hj]%list_elem_of_lookup E. rewrite NoDup_alt in Hnd.
  assert (i = j) as <-; [|congruence]. apply (Hnd i j (f x)); rewrite list_lookup_fmap; [by rewrite Hi|by rewrite Hj, E].
Qed.

Lemma report_sets objects fs fe :
  let r := analyze_visibility objects fs fe in
  (forall i, i ∈ vr_visible_object_ids r <-> exists o, o ∈ objects /\ an_id o = i /\ is_eligible_in_range o fs fe = true)
  /\ (forall i, i ∈ vr_hidden_object_ids r <-> exists o, o ∈ objects /\ an_id o = i /\ is_eligible_in_range o fs fe = false).
Proof.
  unfold analyze_visibility. cbv zeta.
  set (ids p := list_to_set (map an_id (List.filter p objects)) : gset string).
  assert (fold_left (sort_object fs fe) objects (∅, ∅) = (ids (fun o => is_eligible_in_range o fs fe), ids (fun o => negb (is_eligible_in_range o fs fe)))) as ->.
  { assert (forall v h, fold_left (sort_object fs fe) objects (v, h) = (v ∪ ids (fun o => is_eligible_in_range o fs fe), h ∪ ids (fun o => negb (is_eligible_in_range o fs fe)))) as Hf.
    { unfold ids. clear ids. induction objects as [|o l IH]; intros v h; cbn [fold_left List.filter map]; [f_equal; set_solver|].
      unfold sort_object at 2. destruct (is_eligible_in_range o fs fe); simpl; rewrite IH; f_equal; set_solver. }
    rewrite Hf. f_equal; set_solver. }
  simpl. split; intros i; unfold ids; rewrite elem_of_list_to_set, list_elem_of_fmap; setoid_rewrite list_elem_of_In; setoid_rewrite filter_In;
    setoid_rewrite negb_true_iff || idtac; split; intros (o & H); exists o; intuition congruence.
Qed.

(** The keyframes of an object's [hide_render] curve. *)
Definition hide_keyframes (obj : animated_object) : list keyframe := match find_hide_render_curve obj with Some c => ac_keyframes c | None => [] end.
Definition hide_interpolation (obj : animated_object) : string := match find_hide_render_curve obj with Some c => curve_interpolation c | None => "" end.

(** An object is shown at a frame, when its curve holds its values. *)
Definition shown_at (obj : animated_object) (f : Z) : bool :=
  match hide_keyframes obj with [] => negb (an_hide_render obj) | kfs => shown (value_before kfs f) end.

(** Some value of a curve that runs between its keyframes shows the object. *)
Definition may_show (obj : animated_object) (f : Z) : Prop :=
  match hide_keyframes obj with
  | [] => an_hide_render obj = false
  | kfs => exists value, follows kfs (hide_interpolation obj) value /\ shown (value f) = true
  end.

Lemma eligible_cases obj fs fe :
  is_eligible_in_range obj fs fe
  = match hide_keyframes obj with
    | [] => negb (an_hide_render obj)
    | kfs => curve_indicates_visible_in_range kfs fs fe (an_hide_render obj) (hide_interpolation obj)
    end.
Proof.
  unfold is_eligible_in_range, hide_keyframes, hide_interpolation. destruct (find_hide_render_curve obj) as [c|]; [|done].
  by destruct (ac_keyframes c).
Qed.


(** ** The search over the materials *)

Section materials.
Context (repr_other : json -> string) (ix : scene_index).
#[local] Abbreviation links_of := (material_links repr_other ix).

(** A material leads to another, and to a texture. *)
Definition leads_to (a b : string) : Prop := str_truthy a = true /\ exists links, links_of a = Ok links /\ LMaterial b ∈ links.
Definition shows_texture (a t : string) : Prop := str_truthy a = true /\ exists links, links_of a = Ok links /\ (LTexture t ∈ links \/ LImageTexture t ∈ links).

Lemma linked_elem b links : b ∈ linked_materials links <-> LMaterial b ∈ links.
Proof.
  unfold linked_materials. rewrite list_elem_of_omap. split; [|intros H; by exists (LMaterial b)].
  intros ([] & H & E); try done. by injection E as <-.
Qed.

Lemma add_links_materials links r n : n ∈ nd_materials (fold_left add_requirement links r) <-> n ∈ nd_materials r \/ LMaterial n ∈ links.
Proof.
  revert r. induction links as [|l links IH]; intros r; cbn [fold_left]; [set_solver|]. rewrite IH, elem_of_cons.
  destruct l; simpl; rewrite ?elem_of_union, ?elem_of_singleton; naive_solver.
Qed.

Lemma add_links_textures links r n :
  n ∈ nd_textures (fold_left add_requirement links r) <-> n ∈ nd_textures r \/ LTexture n ∈ links \/ LImageTexture n ∈ links.
Proof.
  revert r. induction links as [|l links IH]; intros r; cbn [fold_left]; [set_solver|]. rewrite IH, !elem_of_cons.
  destruct l; simpl; rewrite ?elem_of_union, ?elem_of_singleton; naive_solver.
Qed.

(** What a search that ends has found, from the materials visited before it. *)
Lemma material_search_sound fuel queue visited r r' :
  material_search repr_other ix fuel queue visited r = Ok r' ->
  (forall x y, x ∈ visited -> leads_to x y -> str_truthy y = true -> y ∈ visited \/ y ∈ queue) ->
  exists V, visited ⊆ V /\ (forall x, x ∈ queue -> str_truthy x = true -> x ∈ V)
  /\ (forall x y, x ∈ V -> leads_to x y -> str_truthy y = true -> y ∈ V)
  /\ (forall x, x ∈ V -> x ∈ visited \/ (str_truthy x = true /\ exists s, s ∈ queue /\ rtc leads_to s x))
  /\ (forall n, n ∈ nd_materials r' <-> n ∈ nd_materials r \/ (exists m, m ∈ V /\ (m ∉ visited) /\ (n = m \/ leads_to m n)))
  /\ (forall t, t ∈ nd_textures r' <-> t ∈ nd_textures r \/ (exists m, m ∈ V /\ (m ∉ visited) /\ shows_texture m t)).
Proof.
  revert queue visited r. induction fuel as [|fuel IH]; intros [|m queue] visited r; simpl; intros Hrun Hcl; try done.
  1,2: injection Hrun as <-; exists visited; split_and!; try set_solver; intros x y Hx Hl Hy; destruct (Hcl x y Hx Hl Hy); set_solver.
  destruct (str_truthy m) eqn:Et; simpl in Hrun.
  2:{ destruct (IH _ _ _ Hrun) as (V & H1 & H2 & H3 & H4 & H5).
      { intros x y Hx Hl Hy. destruct (Hcl x y Hx Hl Hy) as [|[->|]%elem_of_cons]; [by left|congruence|by right]. }
      exists V. split_and!; [done|intros x [->|Hx]%elem_of_cons Hy; [congruence|by apply H2]|done| |apply H5..].
      intros x [Hx|(? & s & Hs & Hr)]%H4; [by left|right; split; [done|]; exists s; split; [by right|done]]. }
  case_bool_decide as Hm.
  - destruct (IH _ _ _ Hrun) as (V & H1 & H2 & H3 & H4 & H5).
    { intros x y Hx Hl Hy. destruct (Hcl x y Hx Hl Hy) as [|[->|]%elem_of_cons]; auto. }
    exists V. split_and!; [done|intros x [->|Hx]%elem_of_cons Hy; [by apply H1|by apply H2]|done| |apply H5..].
    intros x [Hx|(? & s & Hs & Hr)]%H4; [by left|right; split; [done|]; exists s; split; [by right|done]].
  - apply res_bind_ok in Hrun as (links & El & Hrun).
    assert (forall y, leads_to m y <-> LMaterial y ∈ links) as Hl.
    { intros y. unfold leads_to. rewrite El. split; [by intros (_ & ? & [= <-] & ?)|eauto]. }
    destruct (IH _ _ _ Hrun) as (V & H1 & H2 & H3 & H4 & H5 & H6).
    { intros x y [->%elem_of_singleton|Hx]%elem_of_union Hlx Hy.
      - destruct (decide (y ∈ {[m]} ∪ visited)) as [|Hn]; [by left|right]. apply elem_of_app. right. apply list_elem_of_In, filter_In.
        split; [apply list_elem_of_In, linked_elem, Hl, Hlx|by apply bool_decide_eq_true].
      - destruct (Hcl x y Hx Hlx Hy) as [|[->|]%elem_of_cons]; set_solver. }
    assert (m ∈ V) as HmV by set_solver.
    exists V. split_and!; [set_solver|intros x [->|Hx]%elem_of_cons Hy; [done|apply H2; [set_solver|done]]|done| | |].
    + intros x [Hx|(Hx & s & Hs & Hr)]%H4.
      * apply elem_of_union in Hx as [->%elem_of_singleton|Hx]; [|by left]. right. split; [done|]. exists m. split; [left|done].
      * right. split; [done|]. apply elem_of_app in Hs as [Hs|Hs]; [exists s; split; [by right|done]|].
        apply list_elem_of_In, filter_In in Hs as [Hs _]. apply list_elem_of_In, linked_elem, Hl in Hs.
        exists m. split; [left|]. by eapply rtc_l.
    + intros n. rewrite H5, add_links_materials. simpl. rewrite elem_of_union, elem_of_singleton. setoid_rewrite <- Hl.
      split; [|intros [Hn|(a & Ha & Hna & Hx)]; [tauto|]].
      * intros [[[->|Hn]|Hn]|(a & Ha & Hna & Hx)]; [right; exists m; auto|by left|right; exists m; auto|right; exists a; set_solver].
      * destruct (decide (a = m)) as [->|]; [naive_solver|]. right. exists a. set_solver.
    + assert (forall t, shows_texture m t <-> LTexture t ∈ links \/ LImageTexture t ∈ links) as Ht.
      { intros t. unfold shows_texture. rewrite El. split; [by intros (_ & ? & [= <-] & ?)|eauto]. }
      intros t. rewrite H6, add_links_textures. simpl. rewrite <- Ht.
      split; [|intros [Hn|(a & Ha & Hna & Hx)]; [tauto|]].
      * intros [[Hn|Hn]|(a & Ha & Hna & Hx)]; [by left|right; exists m; auto|right; exists a; set_solver].
      * destruct (decide (a = m)) as [->|]; [tauto|]. right. exists a. set_solver.
Qed.

(** *** The search ends *)

(** No step of reading a scene raises [RecursionError]. *)
Definition finite {A} (m : res A) : Prop := match m with Err RecursionError => False | _ => True end.

Lemma finite_bind {A B} (m : res A) (f : A -> res B) : finite m -> (forall a, m = Ok a -> finite (f a)) -> finite (let! a := m in f a).
Proof. destruct m; simpl; intros Hm Hf; [by apply Hf|done]. Qed.

Lemma finite_all {A B} (f : A -> res B) l : (forall a, finite (f a)) -> finite (res_all f l).
Proof.
  intros Hf. unfold res_all. induction l as [|a l IH]; cbn [foldr]; [done|]. apply finite_bind; [apply Hf|]. intros b _. by apply finite_bind.
Qed.

Lemma finite_items j : finite (items j).
Proof. unfold items. destruct (json_truthy j); [|done]. by destruct j. Qed.
Lemma finite_reference j : finite (reference j).
Proof. unfold reference. destruct (json_truthy j); [|done]. by destruct j. Qed.
Lemma finite_label node target : finite (label_of node target).
Proof. unfold label_of. by destruct (od_get_default _ _ _). Qed.
Lemma finite_texture tex : finite (texture_name repr_other tex).
Proof. destruct tex; try done. apply finite_reference. Qed.
Lemma finite_inline m : finite (inline_textures repr_other m).
Proof.
  unfold inline_textures. apply finite_bind; [apply finite_items|]. intros l _. apply finite_bind; [apply finite_all, finite_texture|done].
Qed.
Lemma finite_mat_name t : finite (resolve_mat_name ix t).
Proof.
  unfold resolve_mat_name. destruct (negb _); [done|]. destruct (od_get _ _); [done|]. destruct (od_get _ _); [done|].
  by apply finite_bind; [apply finite_reference|].
Qed.
Lemma finite_edge e : finite (material_edge_links repr_other ix e).
Proof.
  unfold material_edge_links. destruct (negb _); [done|]. destruct (_ || _ || _ || _ || _).
  - by apply finite_bind; [apply finite_mat_name|].
  - by apply finite_bind; [apply finite_label|].
Qed.
Lemma finite_links m : finite (links_of m).
Proof.
  unfold material_links. apply finite_bind; [apply finite_inline|]. intros t _. apply finite_bind; [apply finite_all, finite_edge|done].
Qed.

Lemma elem_concat {A} (x : A) ls : x ∈ concat ls <-> exists l, x ∈ l /\ l ∈ ls.
Proof. rewrite list_elem_of_In, in_concat. setoid_rewrite list_elem_of_In. naive_solver. Qed.

(** All the edges, and the materials they may lead to. *)
Definition all_edges : list (odict json) := concat (map snd (sx_edges ix)).
Definition edge_materials (e : odict json) : list string := match material_edge_links repr_other ix e with Ok l => linked_materials l | Err _ => [] end.
Definition targets : list string := concat (map edge_materials all_edges).

Lemma edges_of_all i : edges_of ix i ⊆ all_edges /\ (length (edges_of ix i) <= length all_edges)%nat.
Proof.
  unfold edges_of, od_get_default, all_edges. destruct (od_get i (sx_edges ix)) as [l|] eqn:E; [|simpl; split; [by intros x ?%not_elem_of_nil|lia]].
  apply od_get_Some_elem in E. assert (l ∈ map snd (sx_edges ix)) as Hin by (apply list_elem_of_fmap; by exists (i, l)).
  clear E. induction (map snd (sx_edges ix)) as [|l' ls IH]; [by apply not_elem_of_nil in Hin|]. simpl. rewrite length_app.
  apply elem_of_cons in Hin as [<-|Hin]; [split; [set_solver|lia]|]. destruct (IH Hin). split; [set_solver|lia].
Qed.

Lemma edge_materials_length e : (length (edge_materials e) <= 1)%nat.
Proof.
  unfold edge_materials, material_edge_links. destruct (negb _); [simpl; lia|]. destruct (_ || _ || _ || _ || _).
  - destruct (resolve_mat_name _ _) as [m|]; simpl; [|lia]. destruct (str_truthy m); simpl; lia.
  - destruct (label_of _ _) as [m|]; simpl; [|lia]. destruct (str_truthy m); simpl; lia.
Qed.

Lemma linked_app l l' : linked_materials (l ++ l') = linked_materials l ++ linked_materials l'.
Proof. apply omap_app. Qed.

Lemma all_links_materials es ls :
  res_all (material_edge_links repr_other ix) es = Ok ls -> linked_materials (concat ls) = concat (map edge_materials es).
Proof.
  unfold res_all. revert ls. induction es as [|e es IH]; intros ls; simpl; [by intros [= <-]|].
  intros (l & El & (rest & Hrest & [= <-])%res_bind_ok)%res_bind_ok. simpl. rewrite linked_app, (IH rest Hrest). unfold edge_materials at 2. by rewrite El.
Qed.

Lemma concat_short {A} (f : odict json -> list A) l : (forall e, (length (f e) <= 1)%nat) -> (length (concat (map f l)) <= length l)%nat.
Proof. intros Hf. induction l as [|e l IH]; simpl; [lia|]. rewrite length_app. specialize (Hf e). lia. Qed.

Lemma material_keys_length m : (length (material_keys ix m) <= 2 + length (sx_mat_names ix))%nat.
Proof.
  unfold material_keys. change 2%nat with (length [m; ("material:" +:+ m)%string]). generalize [m; ("material:" +:+ m)%string].
  induction (sx_mat_names ix) as [|[i r] l IH]; intros keys; simpl; [lia|].
  destruct (_ && _); [|specialize (IH keys); lia]. specialize (IH (keys ++ [i])). rewrite length_app in IH. simpl in IH. lia.
Qed.

Lemma links_bounded m links :
  links_of m = Ok links ->
  linked_materials links ⊆ targets /\ (length (linked_materials links) <= (2 + length (sx_mat_names ix)) * length all_edges)%nat.
Proof.
  unfold material_links. intros (textures & Ht & (edges & He & [= <-])%res_bind_ok)%res_bind_ok.
  rewrite linked_app, (all_links_materials _ _ He). assert (linked_materials textures = []) as ->.
  { apply res_bind_ok in Ht as (l & _ & (names & _ & [= <-])%res_bind_ok). induction (omap id names) as [|n ns IH]; [done|exact IH]. }
  simpl app. split.
  - unfold targets. intros x (l & Hx & Hl)%elem_concat. apply list_elem_of_fmap in Hl as (e & -> & (es & He' & Hes)%elem_concat).
    apply list_elem_of_fmap in Hes as (k & -> & _). apply elem_concat. exists (edge_materials e). split; [done|].
    apply list_elem_of_fmap. exists e. split; [done|]. by apply (edges_of_all k).
  - etransitivity; [apply concat_short, edge_materials_length|]. etransitivity; [|apply Nat.mul_le_mono_r, (material_keys_length m)].
    clear He. induction (material_keys ix m) as [|k ks IH]; cbn [map concat length]; [lia|]. rewrite length_app, Nat.mul_succ_l.
    destruct (edges_of_all k). lia.
Qed.

Lemma remove_dups_length (l : list string) : (length (remove_dups l) <= length l)%nat.
Proof. induction l as [|x l IH]; simpl; [lia|]. destruct (decide_rel _ _ _); simpl; lia. Qed.

(** The materials that may still be visited. *)
Definition unvisited (U : list string) (visited : gset string) : nat := length (List.filter (fun m => bool_decide (m ∉ visited)) (remove_dups U)).

Lemma unvisited_visit U m visited : m ∈ U -> m ∉ visited -> (unvisited U ({[m]} ∪ visited) < unvisited U visited)%nat.
Proof.
  intros Hm Hv. unfold unvisited. assert (m ∈ remove_dups U) as Hin by by apply elem_of_remove_dups. pose proof (NoDup_remove_dups U) as Hnd.
  assert (forall l, (length (List.filter (fun x => bool_decide (x ∉ {[m]} ∪ visited)) l) <= length (List.filter (fun x => bool_decide (x ∉ visited)) l))%nat) as Hle.
  { induction l as [|x l IH]; simpl; [lia|]. repeat case_bool_decide; simpl; set_solver by lia. }
  induction (remove_dups U) as [|x l IH]; [by apply not_elem_of_nil in Hin|]. cbn [List.filter]. apply NoDup_cons in Hnd as [Hx Hnd].
  destruct (decide (x = m)) as [->|Hne].
  - rewrite bool_decide_false by set_solver. rewrite bool_decide_true by done. specialize (Hle l). simpl. lia.
  - apply elem_of_cons in Hin as [->|Hin]; [done|]. specialize (IH Hin Hnd). repeat case_bool_decide; simpl; set_solver by lia.
Qed.

Lemma material_search_ends U fuel queue visited r :
  let K := ((2 + length (sx_mat_names ix)) * length all_edges)%nat in
  queue ⊆ U -> targets ⊆ U -> (length queue + unvisited U visited * K <= fuel)%nat ->
  finite (material_search repr_other ix fuel queue visited r).
Proof.
  intros K. revert queue visited r. induction fuel as [|fuel IH]; intros [|m queue] visited r HU HT Hf; cbn [material_search]; try done.
  { simpl in Hf. lia. }
  cbn [length] in Hf. destruct (negb (str_truthy m) || bool_decide (m ∈ visited)) eqn:E; [apply IH; [set_solver|done|lia]|].
  apply orb_false_iff in E as [_ Hm%bool_decide_eq_false]. apply finite_bind; [apply finite_links|]. intros links Hl.
  destruct (links_bounded m links Hl) as [Hsub Hlen]. fold K in Hlen.
  apply IH; [|done|].
  - intros x [Hx|Hx]%elem_of_app; [apply HU; by right|]. apply HT, Hsub. apply list_elem_of_In, filter_In in Hx as [Hx _]. by apply list_elem_of_In.
  - rewrite length_app. pose proof (filter_length_le (fun n => bool_decide (n ∉ {[m]} ∪ visited)) (linked_materials links)).
    pose proof (unvisited_visit U m visited ltac:(apply HU; left) Hm). nia.
Qed.

Lemma search_finite queue visited r : finite (material_search repr_other ix (search_fuel ix queue) queue visited r).
Proof.
  assert (sum_list_with (fun kv => length (snd kv)) (sx_edges ix) = length all_edges) as Hsum.
  { unfold all_edges. induction (sx_edges ix) as [|[k l] es IH]; simpl; [done|]. by rewrite length_app, IH. }
  apply (material_search_ends (queue ++ targets)); [set_solver|set_solver|]. unfold search_fuel. rewrite Hsum.
  apply Nat.add_le_mono_l, Nat.mul_le_mono_r. unfold unvisited.
  etransitivity; [apply filter_length_le|]. etransitivity; [apply remove_dups_length|]. rewrite length_app.
  apply Nat.add_le_mono_l. unfold targets. apply concat_short, edge_materials_length.
Qed.
End materials.

(** The materials of a closure are those the materials of the required objects
    lead to, and its textures are the textures of the objects and of these. *)
Lemma material_closure_exact repr_other ix ids reasons start c :
  direct_requirements repr_other ix (elements ids) reasons = Ok start -> close_requirements repr_other ix ids reasons = Ok c ->
  (forall n, n ∈ rc_materials c <-> exists s, s ∈ nd_materials start /\ rtc (leads_to repr_other ix) s n)
  /\ (forall t, t ∈ rc_textures c <-> t ∈ nd_textures start
        \/ exists s m, s ∈ nd_materials start /\ rtc (leads_to repr_other ix) s m /\ shows_texture repr_other ix m t).
Proof.
  unfold close_requirements. intros Hstart Hc. rewrite Hstart in Hc. cbn [res_bind] in Hc. apply res_bind_ok in Hc as (r & Hr & [= <-]).
  destruct (material_search_sound _ _ _ _ _ _ _ Hr) as (V & _ & Hq & Hcl & Hv & Hm & Ht); [set_solver|]. cbn [rc_materials rc_textures].
  assert (forall n s, n ∈ sorted_names s <-> n ∈ s) as Hsorted by (intros n s; unfold sorted_names; by rewrite isort_elem, elem_of_elements).
  setoid_rewrite Hsorted.
  assert (forall s m, s ∈ nd_materials start -> rtc (leads_to repr_other ix) s m -> str_truthy m = true -> m ∈ V) as Hreach.
  { intros s m Hs Hrt Hmt. revert Hmt. refine (rtc_ind_r (fun m => str_truthy m = true -> m ∈ V) s _ _ m Hrt).
    - intros Hst. apply Hq; [by apply elem_of_elements|done].
    - intros a b' _ Hab IH Hb. eapply Hcl; [|exact Hab|done]. apply IH. apply Hab. }
  assert (forall m, m ∈ V -> exists s, s ∈ nd_materials start /\ rtc (leads_to repr_other ix) s m) as Hback.
  { intros m [?|(_ & s & Hs%elem_of_elements & Hrt)]%Hv; [set_solver|]. by exists s. }
  split.
  - intros n. rewrite Hm. split.
    + intros [Hn|(m & HmV & _ & [->|Hl])]; [by exists n|by apply Hback|]. destruct (Hback m HmV) as (s & Hs & Hrt). exists s. split; [done|].
      by eapply rtc_r.
    + intros (s & Hs & Hrt). apply rtc_inv_r in Hrt as [->|(m & Hrt & Hl)]; [by left|right]. exists m. split_and!; [|set_solver|by right].
      eapply Hreach; [done..|]. apply Hl.
  - intros t. rewrite Ht. split; (intros [?|H]; [by left|right]).
    + destruct H as (m & HmV & _ & Hs). destruct (Hback m HmV) as (s & Hss & Hrt). by exists s, m.
    + destruct H as (s & m & Hs & Hrt & Htx). exists m. split_and!; [|set_solver|done]. eapply Hreach; [done..|]. apply Htx.
Qed.

(** ** What influences a render *)

Lemma res_fold_invariant {A S} (f : S -> A -> res S) (P : S -> Prop) l s s' :
  (forall s a s', a ∈ l -> f s a = Ok s' -> P s -> P s') -> res_fold f s l = Ok s' -> P s -> P s'.
Proof.
  revert s. induction l as [|a l IH]; intros s Hf; cbn [res_fold]; [by intros [= <-]|]. intros (s1 & H1 & H)%res_bind_ok Hs.
  eapply IH; [|exact H|eapply Hf; [left|exact H1|done]]. intros; eapply Hf; [by right|done..].
Qed.

(** What one step reaches, the steps after it keep. *)
Lemma res_fold_reaches {A S} (f : S -> A -> res S) (I P : S -> Prop) l s s' a :
  (forall s b s', b ∈ l -> f s b = Ok s' -> I s -> I s' /\ (P s -> P s')) -> (forall s s', f s a = Ok s' -> I s -> P s') ->
  a ∈ l -> res_fold f s l = Ok s' -> I s -> P s'.
Proof.
  intros Hkeep Ha. revert s. induction l as [|b l IH]; intros s; cbn [res_fold]; [by intros ?%not_elem_of_nil|].
  intros Hin (s1 & H1 & H)%res_bind_ok Hs. destruct (Hkeep s b s1 ltac:(left) H1 Hs) as [Hs1 _].
  apply elem_of_cons in Hin as [->|Hin]; [|eapply IH; [|done..]; intros; eapply Hkeep; [by right|done..]].
  assert (I s1 /\ P s1) as HP by (split; [done|by eapply Ha]).
  eapply (res_fold_invariant f (fun s => I s /\ P s)); [|exact H|exact HP]. intros x c y Hc Hf [Hx HPx].
  destruct (Hkeep x c y ltac:(by right) Hf Hx) as [? Hp]. split; [done|by apply Hp].
Qed.

Lemma fold_left_same {A S} (f g : S -> A -> S) l s : (forall s a, f s a = g s a) -> fold_left f l s = fold_left g l s.
Proof. intros Hfg. revert s. induction l as [|a l IH]; intros s; simpl; [done|]. by rewrite Hfg, IH. Qed.

Lemma finite_fold {A S} (f : S -> A -> res S) l s : (forall s a, a ∈ l -> finite (f s a)) -> finite (res_fold f s l).
Proof.
  revert s. induction l as [|a l IH]; intros s Hf; cbn [res_fold]; [done|]. apply finite_bind; [apply Hf; left|]. intros; apply IH.
  intros; apply Hf; by right.
Qed.

Section influence.
Context (repr_other : json -> string).

Definition parent_of (obj_map : odict (odict json)) (i p : string) : Prop :=
  exists o, od_get i obj_map = Some o /\ reference (get "parent" o) = Ok (Some p) /\ od_mem p obj_map = true.

(** The chain of parents is complete: it ends in a set closed under parents. *)
Lemma parents_required fuel m curr visited s s' :
  require_parents fuel m curr visited s = Ok s' -> curr ∈ visited -> visited ⊆ in_required s ->
  (forall v p, v ∈ visited -> v <> curr -> parent_of m v p -> p ∈ visited) ->
  in_required s ⊆ in_required s' /\ exists V, visited ⊆ V /\ V ⊆ in_required s' /\ forall v p, v ∈ V -> parent_of m v p -> p ∈ V.
Proof.
  revert curr visited s. induction fuel as [|fuel IH]; intros curr visited s; cbn [require_parents]; [done|].
  intros Hrun Hcurr Hsub Hcl.
  assert (forall v p, v ∈ visited -> parent_of m v p -> parent_of m curr p -> v <> curr -> p ∈ visited) by eauto.
  assert (in_required s' = in_required s -> (forall p, parent_of m curr p -> p ∈ visited) ->
          in_required s ⊆ in_required s' /\ exists V, visited ⊆ V /\ V ⊆ in_required s' /\ forall v p, v ∈ V -> parent_of m v p -> p ∈ V) as Hstop.
  { intros E Hp. rewrite E. split; [done|]. exists visited. split_and!; [done..|]. intros v p Hv Hvp.
    destruct (decide (v = curr)) as [->|Hne]; [by apply Hp|by eapply Hcl]. }
  destruct (od_get curr m) as [o|] eqn:Eo.
  2:{ injection Hrun as <-. apply Hstop; [done|]. intros p (o & E & _). congruence. }
  apply res_bind_ok in Hrun as (parent & Ep & Hrun).
  assert (forall p, parent_of m curr p -> parent = Some p /\ od_mem p m = true) as Hpar.
  { intros p (o' & E & E' & Hm). rewrite Eo in E. injection E as <-. split; [congruence|done]. }
  destruct parent as [p|].
  2:{ injection Hrun as <-. apply Hstop; [done|]. by intros p [? _]%Hpar. }
  destruct (od_mem p m) eqn:Em.
  2:{ injection Hrun as <-. apply Hstop; [done|]. intros p' [[= <-] ?]%Hpar. congruence. }
  case_bool_decide as Hv.
  - injection Hrun as <-. apply Hstop; [done|]. by intros p' [[= <-] _]%Hpar.
  - destruct (IH p ({[p]} ∪ visited) (require p PARENT_HIERARCHY s) Hrun) as [Hg (V & H1 & H2 & H3)].
    + set_solver.
    + simpl. set_solver.
    + intros v q [->%elem_of_singleton|Hvv]%elem_of_union Hne Hvq; [done|].
      destruct (decide (v = curr)) as [->|]; [apply Hpar in Hvq as [[= ->] _]; set_solver|]. apply elem_of_union. right. by eapply Hcl.
    + simpl in Hg. split; [set_solver|]. exists V. split_and!; [set_solver|done..].
Qed.

Lemma parents_finite fuel m curr visited s :
  (unvisited (od_keys m) visited < fuel)%nat -> finite (require_parents fuel m curr visited s).
Proof.
  revert curr visited s. induction fuel as [|fuel IH]; intros curr visited s Hf; cbn [require_parents]; [lia|].
  destruct (od_get curr m) as [o|]; [|done]. apply finite_bind; [apply finite_reference|]. intros [p|] _; [|done].
  destruct (od_mem p m) eqn:Em; [|done]. case_bool_decide; [done|]. apply IH.
  assert (p ∈ od_keys m) as Hk. { unfold od_mem in Em. destruct (decide (p ∈ od_keys m)) as [|Hn]; [done|]. apply od_get_None_keys in Hn. by rewrite Hn in Em. }
  pose proof (unvisited_visit (od_keys m) p visited Hk ltac:(done)). lia.
Qed.

(** Every step only adds. *)
Definition grows (s s' : influence) : Prop := in_required s ⊆ in_required s'.
#[local] Instance grows_preorder : PreOrder grows.
Proof. split; unfold grows; [by intros s|intros s1 s2 s3; apply transitivity]. Qed.

Lemma constraint_grows m i s c s' : apply_constraint m i s c = Ok s' -> grows s s'.
Proof.
  unfold apply_constraint, grows. intros (t & _ & H)%res_bind_ok. destruct t as [t|]; [|injection H as <-; set_solver].
  destruct (_ || _); [|injection H as <-; set_solver]. injection H as <-. simpl. destruct (od_mem t m); set_solver.
Qed.

Lemma object_influence m s o s' :
  influence_of_object repr_other m s o = Ok s' ->
  grows s s' /\ (is_simulated repr_other o = Ok true \/ has_bones repr_other o = true -> ident repr_other "" o ∈ in_required s').
Proof.
  unfold influence_of_object. intros (sim & Hsim & (cs & _ & H)%res_bind_ok)%res_bind_ok.
  set (s1 := if sim then _ else s) in H. set (s2 := if has_bones _ o then _ else s1) in H.
  assert (grows s2 s') as Hg.
  { eapply (res_fold_invariant _ (fun x => grows s2 x)); [|exact H|reflexivity]. intros x c y _ Hc%constraint_grows Hx. by etransitivity. }
  unfold grows in *. split.
  - unfold s2, s1 in Hg. destruct (has_bones _ o), sim; simpl in Hg; set_solver.
  - intros Hor. apply Hg. unfold s2, s1. destruct Hor as [Hs|Hb]; [rewrite Hs in Hsim; injection Hsim as <-|rewrite Hb].
    + destruct (has_bones _ o); simpl; set_solver.
    + simpl. set_solver.
Qed.

Lemma fold_require_grows {A} (key : A -> option string) why (l : list A) s :
  let f s a := match key a with Some i => require i why s | None => s end in
  grows s (fold_left f l s) /\ forall a i, a ∈ l -> key a = Some i -> i ∈ in_required (fold_left f l s).
Proof.
  cbv zeta. unfold grows. revert s. induction l as [|a l IH]; intros s; cbn [fold_left]; [split; [done|by intros ? ? ?%not_elem_of_nil]|].
  destruct (IH (match key a with Some i => require i why s | None => s end)) as [Hg Hin]. split.
  - destruct (key a); simpl in Hg; set_solver.
  - intros b i [->|Hb]%elem_of_cons Hi; [|by eapply Hin]. rewrite Hi in *. apply Hg. simpl. set_solver.
Qed.

(** What the analysis adds to the visible objects. *)
Lemma influences_needed d candidates reasons s objects :
  analyze_influences repr_other d candidates reasons = Ok s -> records_of "objects" d = Ok objects ->
  candidates ⊆ in_required s
  /\ (forall o, o ∈ objects -> is_light repr_other o = true \/ is_simulated repr_other o = Ok true \/ has_bones repr_other o = true ->
        ident repr_other "" o ∈ in_required s)
  /\ (forall i p, i ∈ candidates -> rtc (parent_of (obj_map_of repr_other objects)) i p -> p ∈ in_required s).
Proof.
  unfold analyze_influences. intros H Hobjects. rewrite Hobjects in H. cbn [res_bind] in H. set (m := obj_map_of _ objects) in *.
  apply res_bind_ok in H as (s1 & H1 & H). apply res_bind_ok in H as (lights & _ & H).
  set (s2 := fold_left _ lights s1) in H. set (s3 := fold_left _ objects s2) in H. apply res_bind_ok in H as (s4 & H4 & H).
  assert (grows s1 s2) as G2.
  { pose proof (fold_require_grows (fun l => let i := ident repr_other "light" (to_dict l) in if str_truthy i then Some i else None) LIGHT_SOURCE lights s1) as [Hg _].
    unfold s2. erewrite fold_left_same; [exact Hg|]. intros x l. simpl. by destruct (str_truthy _). }
  pose proof (fold_require_grows (fun o => if is_light repr_other o then Some (ident repr_other "" o) else None) LIGHT_SOURCE objects s2) as [G3 L3].
  assert (s3 = fold_left (fun s a => match (if is_light repr_other a then Some (ident repr_other "" a) else None) with
    | Some i => require i LIGHT_SOURCE s | None => s end) objects s2) as E3.
  { unfold s3. apply fold_left_same. intros x o. by destruct (is_light _ o). }
  cbv zeta in G3, L3. rewrite <- E3 in G3, L3.
  assert (grows s3 s4) as G4.
  { eapply (res_fold_invariant _ (fun x => grows s3 x)); [|exact H4|reflexivity]. intros x o y _ [Ho _]%object_influence Hx. by etransitivity. }
  assert (grows s4 s) as G5 by (destruct (json_truthy _); injection H as <-; unfold grows; simpl; set_solver).
  assert (in_required s1 ⊆ in_required s) as G by (unfold grows in *; set_solver).
  set (I x := candidates ⊆ in_required x).
  set (P i x := exists V : gset string, i ∈ V /\ V ⊆ in_required x /\ forall v p, v ∈ V -> parent_of m v p -> p ∈ V).
  set (f x i := require_parents (Datatypes.S (length m)) m i {[i]} x) in H1.
  assert (forall x i y, i ∈ elements candidates -> f x i = Ok y -> I x -> grows x y /\ P i y) as Hstep.
  { intros x i y Hi%elem_of_elements Hr Hx. eapply parents_required in Hr as [Hg (V & HiV & HV & Hcl)]; [|set_solver|unfold I in Hx; set_solver|].
    - split; [done|]. exists V. split_and!; [set_solver|done..].
    - by intros v p ->%elem_of_singleton. }
  assert (I s1) as Hc.
  { eapply (res_fold_invariant f I); [|exact H1|unfold I; reflexivity]. intros x i y Hi Hr Hx. destruct (Hstep x i y Hi Hr Hx) as [Hg _].
    unfold I, grows in *. by etransitivity. }
  assert (forall i, i ∈ candidates -> P i s1) as Hchain.
  { intros i Hi. eapply (res_fold_reaches f (fun x => I x) (P i)); [| |exact (proj2 (elem_of_elements _ _) Hi)|exact H1|unfold I; reflexivity].
    - intros x k y Hk Hr Hx. destruct (Hstep x k y Hk Hr Hx) as [Hg _]. split; [unfold I, grows in *; by etransitivity|].
      intros (V & HiV & HV & Hcl). exists V. split_and!; [done|unfold grows in Hg; by etransitivity|done].
    - intros x y Hr Hx. by apply (Hstep x i y (proj2 (elem_of_elements _ _) Hi)). }
  split_and!.
  - by etransitivity.
  - intros o Ho [Hl|Hor].
    + assert (in_required s3 ⊆ in_required s) as G' by (unfold grows in *; by etransitivity). apply G'. eapply (L3 o); [done|]. by rewrite Hl.
    + apply G5. eapply (res_fold_reaches _ (fun _ => True) (fun x => ident repr_other "" o ∈ in_required x)); [| |exact Ho|exact H4|done].
      * intros x b y _ [Hg _]%object_influence _. split; [done|]. apply Hg.
      * intros x y [_ Hin]%object_influence _. by apply Hin.
  - intros i p Hi Hr. destruct (Hchain i Hi) as (V & HiV & HV & Hcl). apply G, HV. clear -Hr HiV Hcl.
    induction Hr as [|a b c Hab _ IH]; [done|]. apply IH. by eapply Hcl.
Qed.
End influence.

(** ** What is seen *)

Section seen.
Context (M : math_fns) (repr_other : json -> string) (parse_float : string -> option float).

(** A candidate is seen, or boxes of seen candidates hide it. *)
Lemma candidates_seen camera l c :
  c ∈ l ->
  let visible := fst (see_candidates camera l) in
  cd_id c ∈ visible
  \/ exists blockers, test_occlusion (cd_bounds c) camera blockers = true
     /\ forall b, b ∈ blockers -> exists c', c' ∈ l /\ cd_bounds c' = b /\ cd_id c' ∈ visible.
Proof.
  intros Hc. unfold see_candidates. cbv zeta.
  set (step := fun '(visible, blockers) c => _). set (sorted := isort _ l).
  assert (forall x, x ∈ sorted -> x ∈ l) as Hsub by (intros x; apply isort_elem).
  assert (c ∈ sorted) as Hin by by apply isort_elem.
  set (Inv := fun (vb : gset string * list bounding_box) => forall b, b ∈ snd vb -> exists c', c' ∈ l /\ cd_bounds c' = b /\ cd_id c' ∈ fst vb).
  assert (forall l' vb, (forall x, x ∈ l' -> x ∈ l) -> Inv vb ->
    Inv (fold_left step l' vb) /\ fst vb ⊆ fst (fold_left step l' vb)
    /\ forall x, x ∈ l' -> cd_id x ∈ fst (fold_left step l' vb)
       \/ exists blockers, test_occlusion (cd_bounds x) camera blockers = true
          /\ forall b, b ∈ blockers -> exists c', c' ∈ l /\ cd_bounds c' = b /\ cd_id c' ∈ fst (fold_left step l' vb)) as Hfold.
  { induction l' as [|x l' IH]; intros vb Hl HI; cbn [fold_left]; [split_and!; [done..|by intros ? ?%not_elem_of_nil]|].
    destruct vb as [visible blockers]. cbn [fst]. destruct (test_occlusion (cd_bounds x) camera blockers) eqn:E.
    - assert (step (visible, blockers) x = (visible, blockers)) as -> by (unfold step; by rewrite E).
      destruct (IH (visible, blockers)) as (H1 & H2 & H3); [intros; apply Hl; by right|done|].
      split_and!; [done..|]. intros y [->|Hy]%elem_of_cons; [right|by apply H3]. exists blockers. split; [done|].
      intros b Hb. destruct (HI b Hb) as (c' & ? & ? & Hc'). exists c'. split_and!; [done..|]. by apply H2.
    - assert (step (visible, blockers) x = ({[cd_id x; cd_name x]} ∪ visible, blockers ++ [cd_bounds x])) as -> by (unfold step; by rewrite E).
      destruct (IH ({[cd_id x; cd_name x]} ∪ visible, blockers ++ [cd_bounds x])) as (H1 & H2 & H3); [intros; apply Hl; by right| |].
      + intros b [Hb| ->%list_elem_of_singleton]%elem_of_app.
        * destruct (HI b Hb) as (c' & ? & ? & Hc'). exists c'. split_and!; [done..|]. cbn [fst] in *. set_solver.
        * exists x. split_and!; [apply Hl; left|done|]. cbn [fst]. set_solver.
      + cbn [fst] in H2. split_and!; [done|set_solver|]. intros y [->|Hy]%elem_of_cons; [left; set_solver|by apply H3]. }
  destruct (Hfold sorted (∅, []) Hsub) as (_ & _ & H); [by intros b ?%not_elem_of_nil|]. by apply H.
Qed.

(** Why an object is not seen. *)
Definition unseen (eligible : gset string) (camera : camera_model) (objects : list (odict json)) (visible : gset string) (o : odict json) : Prop :=
  ((object_id repr_other o ∉ eligible) /\ (object_label repr_other o ∉ eligible))
  \/ type_of repr_other o = "CAMERA"%string
  \/ test_frustum M (compute_world_bounds M parse_float o) camera = OUTSIDE
  \/ exists blockers, test_occlusion (compute_world_bounds M parse_float o) camera blockers = true
     /\ forall b, b ∈ blockers -> exists o', o' ∈ objects /\ compute_world_bounds M parse_float o' = b /\ object_id repr_other o' ∈ visible.

Lemma cull_candidate eligible camera o c :
  cull_object M repr_other parse_float eligible camera o = Some (inr c) ->
  cd_id c = object_id repr_other o /\ cd_bounds c = compute_world_bounds M parse_float o.
Proof.
  unfold cull_object. destruct (_ && _); [done|]. destruct (String.eqb _ _); [done|]. destruct (json_truthy _); [done|].
  by destruct (test_frustum _ _ _); intros [= <-].
Qed.

Lemma seen_or_reason eligible camera objects o :
  o ∈ objects -> let visible := visible_ids M repr_other parse_float eligible camera objects in
  object_id repr_other o ∈ visible \/ unseen eligible camera objects visible o.
Proof.
  intros Ho. cbv zeta. unfold visible_ids. set (culled := omap _ objects). set (cands := omap to_see culled).
  set (visible := _ ∪ fst (see_candidates camera cands)).
  destruct (cull_object M repr_other parse_float eligible camera o) as [[[i n]|c]|] eqn:E.
  - left. unfold visible. apply elem_of_union. left. apply elem_of_list_to_set, elem_concat. exists [i; n].
    assert (i = object_id repr_other o) as ->.
    { unfold cull_object in E. destruct (_ && _); [done|]. destruct (String.eqb _ _); [done|]. destruct (json_truthy _); [by injection E as <- <-|].
      by destruct (test_frustum _ _ _). }
    split; [left|]. apply list_elem_of_omap. eexists. split; [apply list_elem_of_omap; by exists o|done].
  - assert (forall c', c' ∈ cands <-> exists o', o' ∈ objects /\ cull_object M repr_other parse_float eligible camera o' = Some (inr c')) as Hcands.
    { intros c'. unfold cands, culled. rewrite list_elem_of_omap. setoid_rewrite list_elem_of_omap. split.
      - intros ([|c2] & (o' & Ho' & E') & [= <-]). eauto.
      - intros (o' & Ho' & E'). exists (inr c'). eauto. }
    destruct (cull_candidate _ _ _ _ E) as [Hid Hb].
    destruct (candidates_seen camera cands c) as [Hv|(blockers & Hocc & Hbl)]; [apply Hcands; eauto| |].
    + left. unfold visible. rewrite <- Hid. set_solver.
    + right. do 3 right. exists blockers. rewrite <- Hb. split; [done|]. intros b Hbin. destruct (Hbl b Hbin) as (c' & (o' & Ho' & E')%Hcands & Hb' & Hv).
      destruct (cull_candidate _ _ _ _ E') as [Hid' Hb2]. exists o'. split_and!; [done|congruence|]. unfold visible. rewrite <- Hid'. set_solver.
  - right. unfold cull_object in E. destruct (_ && _) eqn:Ee.
    + left. apply andb_true_iff in Ee as [H1 H2]. apply negb_true_iff, bool_decide_eq_false in H1. by apply negb_true_iff, bool_decide_eq_false in H2.
    + destruct (String.eqb_spec (type_of repr_other o) "CAMERA"); [by right; left|]. destruct (json_truthy _); [done|].
      destruct (test_frustum M _ camera) eqn:Ef; [|done..]. right. right. by left.
Qed.
End seen.

(** ** Names *)

Section names.
Context (repr_other : json -> string).

(** The objects have ids of their own. *)
Definition well_identified (objects : list (odict json)) : Prop :=
  NoDup (map (ident repr_other "") objects) /\ Forall (fun o => exists i, od_get "id"%string o = Some (JStr i) /\ str_truthy i = true) objects.

Definition label (o : odict json) : string := text repr_other (json_or (get "name" o) (od_get_default "id" (JStr "") o)).

Lemma index_elsewhere objects d i :
  (forall o, o ∈ objects -> ident repr_other "" o <> i) -> Forall (fun o => exists i, od_get "id"%string o = Some (JStr i) /\ str_truthy i = true) objects ->
  od_get i (fold_left (index_by repr_other "id") objects d) = od_get i d.
Proof.
  revert d. induction objects as [|o objects IH]; intros d Hne Hids; cbn [fold_left]; [done|]. apply Forall_cons in Hids as [(j & Hj & Ht) Hids].
  rewrite IH by (intros; try apply Hne; by (done || right)).
  unfold index_by, get, od_get_default. rewrite Hj. simpl. rewrite Ht. rewrite od_get_set. destruct (String.eqb_spec i j) as [->|]; [|done].
  destruct (Hne o); [left|]. unfold ident, od_get_default. by rewrite Hj.
Qed.

Lemma index_found objects d o :
  well_identified objects -> o ∈ objects -> od_get (ident repr_other "" o) (fold_left (index_by repr_other "id") objects d) = Some o.
Proof.
  intros [Hnd Hids]. revert d. induction objects as [|x objects IH]; intros d; [by intros ?%not_elem_of_nil|]. cbn [fold_left map] in *.
  apply NoDup_cons in Hnd as [Hx Hnd]. pose proof Hids as Hids0. apply Forall_cons in Hids as [(j & Hj & Ht) Hids].
  intros [->|Ho]%elem_of_cons; [|by apply IH]. rewrite index_elsewhere; [|intros o' Ho' E; apply Hx; rewrite <- E; by apply list_elem_of_fmap_2|done].
  unfold index_by, get, ident, od_get_default. rewrite Hj. simpl. rewrite Ht. apply od_get_set_eq.
Qed.

Lemma append_new_elem l acc x : x ∈ fold_left append_new l acc <-> x ∈ acc \/ x ∈ l.
Proof.
  revert acc. induction l as [|y l IH]; intros acc; cbn [fold_left]; [set_solver|]. rewrite IH, elem_of_cons. unfold append_new.
  case_bool_decide; rewrite ?elem_of_app, ?list_elem_of_singleton; naive_solver.
Qed.

Lemma identifiers_elem objects n : n ∈ object_identifiers repr_other objects -> exists o, o ∈ objects /\ label o = n.
Proof.
  unfold object_identifiers. fold (label : odict json -> string).
  assert (forall objects acc, n ∈ fold_left (fun l o => if str_truthy (label o) then append_new l (label o) else l) objects acc ->
          n ∈ acc \/ exists o, o ∈ objects /\ label o = n) as H.
  { clear. induction objects as [|o objects IH]; intros acc; cbn [fold_left]; [by left|]. intros [Hn|(x & Hx & Hl)]%IH; [|right; exists x; split; [by right|done]].
    destruct (str_truthy (label o)); [|by left]. unfold append_new in Hn. case_bool_decide; [by left|].
    apply elem_of_app in Hn as [Hn| ->%list_elem_of_singleton]; [by left|right]. exists o. split; [left|done]. }
  intros Hn. destruct (H objects [] Hn) as [?%not_elem_of_nil|]; done.
Qed.

(** A required object is among the required names. *)
Lemma required_named d objects ids reasons c o :
  resolve_closure repr_other ids d reasons = Ok c -> records_of "objects" d = Ok objects -> well_identified objects ->
  o ∈ objects -> ident repr_other "" o ∈ ids -> label o ∈ rc_objects c.
Proof.
  unfold resolve_closure, index_scene. intros (ix & Hix & H)%res_bind_ok Hobjects Hwell Ho Hin. rewrite Hobjects in Hix. cbn [res_bind] in Hix.
  apply res_bind_ok in Hix as (materials & _ & Hix). apply res_bind_ok in Hix as (nodes & _ & Hix). apply res_bind_ok in Hix as (edges & _ & Hix).
  destruct (fold_left _ materials _) as [[by_id by_name] names]. injection Hix as <-.
  unfold close_requirements in H. apply res_bind_ok in H as (start & _ & H). apply res_bind_ok in H as (r & _ & [= <-]). cbn [rc_objects]. apply append_new_elem. right. apply list_elem_of_fmap.
  exists (ident repr_other "" o). split; [|by apply elem_of_elements]. unfold object_name. cbn [sx_obj_by_id]. rewrite index_found by done.
  unfold label. destruct Hwell as [_ Hids]. rewrite Forall_forall in Hids. destruct (Hids o Ho) as (i & Hi & _).
  unfold ident, od_get_default. by rewrite Hi.
Qed.

Lemma normalized_records json_loads d : normalized_objects json_loads d = records_of "objects" d.
Proof.
  unfold normalized_objects, records_of. destruct (items _) as [l|]; [|done]. cbn [res_bind]. f_equal. apply map_ext_in.
  intros j [_ Hj]%filter_In. by destruct j.
Qed.
End names.

(** ** The analysis *)

Section analysis.
Context (M : math_fns) (repr_other : json -> string) (json_loads : string -> option json) (parse_float : string -> option float).

Lemma finite_records k d : finite (records_of k d).
Proof. by apply finite_bind; [apply finite_items|]. Qed.
Lemma finite_int j : finite (json_int j).
Proof. destruct j; try done; simpl; [by destruct (f_trunc f)|by destruct (py_int s)]. Qed.
Lemma finite_float p j : finite (json_float p j).
Proof. destruct j; try done. simpl. by destruct (p s). Qed.

Lemma finite_request request active_camera render_dict d :
  finite (resolve_render_request repr_other json_loads request active_camera render_dict d).
Proof. destruct request; [done|]. unfold resolve_render_request. by repeat (apply finite_bind; [apply finite_int|intros ? _]). Qed.

Lemma finite_eligible o fs fe : finite (is_eligible_dict o fs fe).
Proof.
  unfold is_eligible_dict. apply finite_bind.
  { destruct (od_get_default _ _ o); try done. by destruct (od_get_default _ _ _). }
  intros curves _. destruct (List.find _ curves) as [c|]; [|done]. apply finite_bind; [by destruct (od_get_default _ _ _)|].
  intros l _. apply finite_bind; [|done]. apply finite_all. intros j. unfold json_keyframe. apply finite_bind; [by destruct j|].
  intros k _. apply finite_bind; [by destruct (od_get_default _ _ _)|]. intros f _. apply finite_bind; [|done].
  destruct (od_get_default _ _ _); try done; apply finite_float.
Qed.

Lemma finite_influences d candidates reasons : finite (analyze_influences repr_other d candidates reasons).
Proof.
  unfold analyze_influences. apply finite_bind; [apply finite_records|]. intros objects _.
  assert (forall m l s, finite (res_fold (influence_of_object repr_other m) s l)) as Hobj.
  { intros m l s. apply finite_fold. intros s' o _. unfold influence_of_object, is_simulated.
    apply finite_bind; [by apply finite_bind; [apply finite_items|]|]. intros sim _. apply finite_bind; [apply finite_items|]. intros cs _.
    apply finite_fold. intros s2 c _. unfold apply_constraint. apply finite_bind; [apply finite_reference|]. intros [t|] _; [|done]. by destruct (_ || _). }
  apply finite_bind.
  { apply finite_fold. intros s i _. apply parents_finite. unfold unvisited.
    pose proof (filter_length_le (fun m => bool_decide (m ∉ ({[i]} : gset string))) (remove_dups (od_keys (obj_map_of repr_other objects)))).
    pose proof (remove_dups_length (od_keys (obj_map_of repr_other objects))) as Hd. unfold od_keys in Hd at 2. rewrite length_map in Hd. lia. }
  intros s1 _. apply finite_bind; [apply finite_items|]. intros lights _. apply finite_bind; [apply Hobj|]. done.
Qed.

Lemma finite_closure ids d reasons : finite (resolve_closure repr_other ids d reasons).
Proof.
  unfold resolve_closure. apply finite_bind.
  { unfold index_scene. do 4 (apply finite_bind; [apply finite_records|intros ? _]). by destruct (fold_left _ _ _) as [[]]. }
  intros ix _. unfold close_requirements, direct_requirements.
  assert (forall o, finite (object_links repr_other ix o)) as Hlinks.
  { intros o. unfold object_links, name_or_id. apply finite_bind.
    { destruct (json_truthy _); [|done]. by apply finite_bind; [apply finite_reference|]. }
    intros mesh _. apply finite_bind; [apply finite_items|]. intros es _. apply finite_bind; [|done]. apply finite_all. intros e.
    unfold material_entry_links, name_or_id. apply finite_bind.
    { destruct e; try done. apply finite_bind; [by apply finite_bind; [apply finite_reference|]|]. intros ? _. by apply finite_bind; [apply finite_inline|]. }
    intros [name textures] _. destruct (str_truthy name); [|done]. by apply finite_bind; [apply finite_mat_name|]. }
  apply finite_bind.
  { apply finite_bind; [apply finite_all; intros; apply Hlinks|]. intros own _. apply finite_bind; [|done]. apply finite_all. intros e. unfold entity_edge_links. destruct (negb _); [done|]. destruct (_ || _); [by apply finite_bind; [apply finite_mat_name|]|].
    destruct (_ || _ || _ || _); [|done]. by apply finite_bind; [apply finite_label|]. }
  intros start _. by apply finite_bind; [apply search_finite|].
Qed.

Lemma analysis_ends snapshot graph request camera settings :
  finite (analyze M repr_other json_loads parse_float snapshot graph request camera settings).
Proof.
  unfold analyze, combine_data, reconstruct_objects. apply finite_bind.
  { destruct (_ && _); [|done]. by apply finite_bind; [apply finite_items|]. }
  intros d _. apply finite_bind; [apply finite_request|]. intros req _. apply finite_bind.
  { apply finite_bind; [apply finite_items|]. intros objects _. apply finite_fold. intros s o _. by apply finite_bind; [apply finite_eligible|]. }
  intros eligible _. apply finite_bind; [by apply finite_bind; [apply finite_items|]|]. intros objects _.
  apply finite_bind; [apply finite_influences|]. intros s _. apply finite_bind; [apply finite_closure|]. intros c _.
  by apply finite_bind; [apply finite_bind; [apply finite_items|]|].
Qed.

End analysis.


(** ** Examples *)

Definition kf (frame : Z) (v : Z) : keyframe := {| kf_frame := frame; kf_value := f_of_Z v |}.
Definition hiding (i : string) (keyframes : list keyframe) : animated_object :=
  {| an_id := i; an_hide_render := false;
     an_curves := Some [{| ac_data_path := "hide_render"; ac_keyframes := keyframes; ac_interpolation := "CONSTANT" |}] |}.


(** The same curve in the dictionary the requirement analysis reads: it looks at
    the keyframes inside the range only, and hides an object that is shown for
    the first frames of the range. *)
Definition curve_json (keyframes : list (Z * Z)) : json :=
  JObj [("curves", JList [JObj [("data_path", JStr "hide_render");
     ("keyframes", JList (map (fun '(f, v) => JObj [("frame", JInt f); ("value", JInt v)]%string) keyframes))]])]%string.

Example shown_but_not_eligible :
  is_eligible_dict [("id", JStr "a"); ("animation", curve_json [(1, 0); (10, 1)])]%string 5 15 = Ok false
  /\ is_eligible_in_range (hiding "a" [kf 1 0; kf 10 1]) 5 15 = true /\ shown_at (hiding "a" [kf 1 0; kf 10 1]) 5 = true.
Proof. vm_compute. done. Qed.

(** A scene with a camera far from the default one. *)
Definition flat_math : math_fns := {| m_sin _ := f0; m_cos _ := f1; m_tan _ := f1; m_atan _ := f1 |}.
Definition at_point (x y z : Z) : json := JObj [("location", JList [JInt x; JInt y; JInt z])]%string.
Definition entity (i ty : string) (extra : odict json) : json := JObj ([("id", JStr i); ("name", JStr (i +:+ " name")); ("type", JStr ty)]%string ++ extra).
Definition demo_scene : json :=
  JObj [("objects", JList [entity "cam" "CAMERA" [("transform"%string, at_point 100 0 0)];
                           entity "cube" "MESH" [("transform"%string, JObj [("location", JList [JInt 0; JInt 5; JInt 0])]%string); ("parent"%string, JStr "root")];
                           entity "root" "EMPTY" [("visibility"%string, JObj [("hide_render"%string, JBool true)])];
                           entity "ghost" "MESH" [("visibility"%string, JObj [("hide_render"%string, JBool true)])];
                           entity "lamp" "LIGHT" [("visibility"%string, JObj [("hide_render"%string, JBool true)]); ("parent"%string, JStr "rig")];
                           entity "rig" "EMPTY" [("visibility"%string, JObj [("hide_render"%string, JBool true)])]])]%string.
Definition no_text (j : json) : string := "?".
Definition analyze_demo (camera : json) : res render_requirement_report :=
  analyze flat_math no_text (fun _ => None) (fun _ => None) demo_scene None (inr None) camera None.
Definition look_north : json := JObj [("id", JStr "north"); ("location", JList [JInt 0; JInt 0; JInt 0]); ("direction", JList [JInt 0; JInt 1; JInt 0])]%string.


(** The parent of a light that moves with it is left out. *)
Example light_without_its_parent :
  res_map (fun r => bool_decide ("rig name"%string ∈ rp_unused_objects r)) (analyze_demo look_north) = Ok true.
Proof. vm_compute. reflexivity. Qed.

(** A request without a camera is answered for a camera that is not in the
    scene, although the scene has one. *)
Example camera_made_up :
  let camera id := resolve_camera flat_math no_text (fun _ => None) (fun _ => None) (JStr id) (to_dict demo_scene) [] in
  (cm_location (camera ""), cm_id (camera ""), cm_is_specified (camera "")) = (f_vec 0 (-10) 0, ""%string, true)
  /\ cm_location (camera "cam") = f_vec 100 0 0 /\ cm_location (camera "any") = f_vec 100 0 0.
Proof. vm_compute. done. Qed.

(** A box in the middle of the picture is not found to be inside: the loop takes
    the heights for the depths. *)
Example box_in_view_intersects :
  let camera := resolve_camera flat_math no_text (fun _ => None) (fun _ => None) look_north [] [] in
  let box z := compute_world_bounds flat_math (fun _ => None) [("transform"%string, JObj [("location", JList [JInt 0; JInt 20; JInt z])]%string)] in
  map (fun p => vz (world_to_cam_space p (cm_location camera) (cm_right_vec camera) (cm_up_vec camera) (cm_dir_vec camera))) (bb_corners (box 0))
    = [flit 195 1; flit 195 1; flit 205 1; flit 205 1; flit 195 1; flit 195 1; flit 205 1; flit 205 1]
  /\ map (fun z => test_frustum flat_math (box z) camera) [0; 5; 10; 15; 30] = [INTERSECTING; INTERSECTING; INTERSECTING; INTERSECTING; OUTSIDE].
Proof. vm_compute. done. Qed.

(** Constraints are applied once, in the order of the objects: the first object
    would follow the second, which the third requires only later. *)
Definition constrained (i : string) (target : string) : json := entity i "EMPTY" [("constraints"%string, JList [JObj [("target"%string, JStr target)]])].
Example constraints_once :
  let scene := [("objects"%string, JList [constrained "a" "b"; constrained "b" "c"; entity "c" "ARMATURE" []])] in
  let reversed := [("objects"%string, JList [entity "c" "ARMATURE" []; constrained "b" "c"; constrained "a" "b"])] in
  let required s := res_map (fun r => elements (in_required r)) (analyze_influences no_text s ∅ []) in
  required scene = Ok ["c"%string] /\ res_map (@length string) (required reversed) = Ok 3%nat.
Proof. vm_compute. done. Qed.

(** A frame is not solid, but its box is taken for a solid when nothing says
    otherwise: what is seen through it is left out. *)
Definition framed_scene (extra : odict json) : json :=
  let place y k := ("transform"%string, JObj [("location", JList [JInt 0; JInt y; JInt 0]); ("scale", JList [JInt k; JInt 1; JInt k])]%string) in
  JObj [("objects"%string, JList [entity "frame" "MESH" (place 5 4 :: extra); entity "vase" "MESH" [place 9 1]])].
Example seen_through_a_frame :
  let unused scene := res_map rp_unused_objects (analyze flat_math no_text (fun _ => None) (fun _ => None) scene None (inr None) look_north None) in
  unused (framed_scene []) = Ok ["vase name"%string] /\ unused (framed_scene [("is_solid_opaque"%string, JBool false)]) = Ok [].
Proof. vm_compute. done. Qed.
