(* ===== verification/SceneEngine.v ===== *)
(** * The scene pipeline and its cache ([intelligence/scene_engine.py], [intelligence/cache.py])

    [SceneEngine.run] loads a scene, writes its snapshot and its dependency
    graph, and builds a package of what a render needs.  [SceneCache] remembers
    the outputs of a request for a source, so that the same request need not run
    again while the source is unchanged.

    Reading a scene (from Blender or from JSON), the text of the files written,
    [json.dumps] and [json.loads] and the programs run on a package are
    arguments.  A path is resolved from the working directory.  The messages of
    a result are left out. *)
From Stdlib Require Import SpecFloat.
From S2P Require Export VisibilityAnalyzer.

(** ** Requests, results, entries *)

Record engine_request := {
  er_input_path : string; er_scene_output : string; er_graph_output : string; er_build_graph : bool; er_build_package : bool;
  er_optimize_package_by_visibility : bool; er_frame_start : Z; er_frame_end : Z; er_package_output : string; er_cache_dir : option string;
  er_blender_executable : option string; er_camera_id : string;
}.

Record scene_cache_entry := {
  sce_source_hash : string; sce_scene_output : string; sce_request_hash : string; sce_graph_output : option string;
  sce_package_output : option string; sce_build_graph : bool; sce_build_package : bool; sce_optimize_package_by_visibility : bool;
  sce_frame_start : Z; sce_frame_end : Z; sce_camera_id : string; sce_cached_at : float;
}.

Record engine_result := {
  es_from_cache : bool; es_graph : option dependency_graph; es_integrity : option integrity_report; es_visibility : option visibility_report;
  es_render_requirements : option render_requirement_report; es_package_plan : option package_plan; es_package_integrity : option integrity_result;
  es_scene_output_path : option string; es_graph_output_path : option string; es_package_output_path : option string; es_warnings : list string;
}.

(** The files, the package directories by the directory that holds them, and the
    index of every cache directory; an index that is not there or cannot be read
    is none. *)
Record engine_world := {
  ew_files : gmap path string;
  ew_packages : gmap path (gmap string package);
  ew_indexes : gmap path (odict scene_cache_entry);
}.
Definition with_files (f : gmap path string) (w : engine_world) : engine_world :=
  {| ew_files := f; ew_packages := ew_packages w; ew_indexes := ew_indexes w |}.
Definition with_packages (p : gmap path (gmap string package)) (w : engine_world) : engine_world :=
  {| ew_files := ew_files w; ew_packages := p; ew_indexes := ew_indexes w |}.
Definition with_indexes (i : gmap path (odict scene_cache_entry)) (w : engine_world) : engine_world :=
  {| ew_files := ew_files w; ew_packages := ew_packages w; ew_indexes := i |}.

(** A scene as it is loaded and analyzed: the fields of the snapshot that are
    read, the whole snapshot as a dictionary, the fields of its objects that the
    eligibility analysis reads, and its name. *)
Record loaded_scene := { ls_snapshot : scene_snapshot; ls_dict : json; ls_animated : list animated_object; ls_name : string }.

Record engine_env := {
  ee_cwd : path;
  ee_load : string -> option string -> gmap path string -> res loaded_scene;
  ee_scene_text : json -> string;                    (** [JsonSceneExporter] *)
  ee_graph_text : dependency_graph -> string;        (** [DependencyGraphExporter] *)
  ee_dumps : json -> string;                         (** [json.dumps(..., sort_keys=True, separators=(",", ":"))] *)
  ee_loads : string -> option json;
  ee_realpath : path -> path;
  ee_is_dir : path -> bool;
  ee_publish : publish_env;
  ee_blender : option string -> option blender;      (** the programs run with an executable *)
  ee_verifier : option string -> option verifier;
  ee_math : math_fns;
  ee_repr : json -> string;
  ee_parse_float : string -> option float;
  ee_now : float;
}.

Section engine.
Context (e : engine_env).

Definition path_of (p : string) : path := join_path (ee_cwd e) p.
Definition parent_path (p : path) : path := take (length p - 1) p.
Definition is_scene_file (w : engine_world) (p : string) : bool := bool_decide (is_Some (ew_files w !! path_of p)).

(** ** [cache.py] *)

(** A file of JSON text that cannot be parsed raises. *)
Definition hash_source (w : engine_world) (source : string) : res string :=
  match ew_files w !! path_of source with
  | None => Err FileNotFoundError
  | Some content =>
      if String.eqb (str_lower (path_suffix source)) ".blend" then Ok (sha256 content)
      else match ee_loads e content with Some j => Ok (sha256 (ee_dumps e j)) | None => Err (ValueError "JSONDecodeError") end
  end.

Definition make_key (source_key request_hash : string) : string :=
  if str_truthy request_hash then (source_key +:+ "::" +:+ request_hash)%string else source_key.

Definition load_index (w : engine_world) (cache_dir : string) : odict scene_cache_entry := default [] (ew_indexes w !! path_of cache_dir).
Definition write_index (cache_dir : string) (index : odict scene_cache_entry) (w : engine_world) : engine_world :=
  with_indexes (<[path_of cache_dir := index]> (ew_indexes w)) w.

(** A path exists as a file, as a directory or as the manifest of a package. *)
Definition output_exists (w : engine_world) (p : string) : bool :=
  let q := path_of p in
  is_scene_file w p || ee_is_dir e q
  || match ew_packages w !! parent_path (parent_path q) with
     | Some d => String.eqb (path_name q) "manifest.json" && bool_decide (is_Some (pk ← d !! path_name (parent_path q); pk_manifest pk))
     | None => false
     end.

Definition lost (w : engine_world) (p : option string) : bool :=
  match p with Some p => str_truthy p && negb (output_exists w p) | None => false end.

Definition cache_get (w : engine_world) (cache_dir source_key request_hash : string) (verify_artifacts : bool) : option scene_cache_entry :=
  match od_get (make_key source_key request_hash) (load_index w cache_dir) with
  | None => None
  | Some entry =>
      if verify_artifacts then
        if lost w (Some (sce_scene_output entry)) then None
        else if sce_build_graph entry && lost w (sce_graph_output entry) then None
        else if sce_build_package entry && lost w (sce_package_output entry) then None
        else Some entry
      else Some entry
  end.

Definition stamped (now : float) (entry : scene_cache_entry) : scene_cache_entry :=
  {| sce_source_hash := sce_source_hash entry; sce_scene_output := sce_scene_output entry; sce_request_hash := sce_request_hash entry;
     sce_graph_output := sce_graph_output entry; sce_package_output := sce_package_output entry; sce_build_graph := sce_build_graph entry;
     sce_build_package := sce_build_package entry; sce_optimize_package_by_visibility := sce_optimize_package_by_visibility entry;
     sce_frame_start := sce_frame_start entry; sce_frame_end := sce_frame_end entry; sce_camera_id := sce_camera_id entry;
     sce_cached_at := if feq (sce_cached_at entry) f0 then now else sce_cached_at entry |}.

Definition cache_put (cache_dir source_key : string) (entry : scene_cache_entry) (w : engine_world) : engine_world :=
  write_index cache_dir (od_set (make_key source_key (sce_request_hash entry)) (stamped (ee_now e) entry) (load_index w cache_dir)) w.

Definition has_changed (w : engine_world) (cache_dir source_key current_hash request_hash : string) (verify_artifacts : bool) : bool :=
  match cache_get w cache_dir source_key request_hash verify_artifacts with
  | None => true
  | Some cached =>
      negb (String.eqb (sce_source_hash cached) current_hash)
      || (str_truthy request_hash && negb (String.eqb (sce_request_hash cached) request_hash))
  end.

Definition invalidate (cache_dir source_key : string) (w : engine_world) : engine_world :=
  let index := load_index w cache_dir in
  let doomed k := String.eqb k source_key || starts_with (source_key +:+ "::")%string k in
  if existsb doomed (od_keys index) then write_index cache_dir (List.filter (fun kv => negb (doomed (fst kv))) index) w else w.

(** ** [scene_engine.py] *)

Definition json_opt (o : option string) : json := match o with Some s => JStr s | None => JNull end.

Definition fingerprint (r : engine_request) : string :=
  sha256 (ee_dumps e (JObj
    [("scene_output", JStr (er_scene_output r)); ("graph_output", JStr (er_graph_output r)); ("package_output", JStr (er_package_output r));
     ("build_graph", JBool (er_build_graph r)); ("build_package", JBool (er_build_package r));
     ("optimize_package_by_visibility", JBool (er_optimize_package_by_visibility r)); ("frame_start", JInt (er_frame_start r));
     ("frame_end", JInt (er_frame_end r)); ("camera_id", JStr (er_camera_id r)); ("blender_executable", json_opt (er_blender_executable r))]%string)).

Definition write_text (p content : string) (w : engine_world) : engine_world := with_files (<[path_of p := content]> (ew_files w)) w.

Definition counted_names (l : list string) (what : string) : string := (str_of_Z (Z.of_nat (length l)) +:+ what +:+ String.concat ", " (isort str_lt l))%string.

Definition format_integrity_warnings (i : integrity_report) : list string :=
  (match ir_missing_targets i with [] => [] | l => [counted_names l " referenced asset(s) could not be resolved: "] end)
  ++ (match ir_unused_nodes i with [] => [] | l => [counted_names (map gn_label l) " asset(s) appear unused in the scene: "] end).

(** The outputs of a hit. *)
Definition result_from_cache (entry : scene_cache_entry) : engine_result :=
  let opt (o : option string) := match o with Some s => if str_truthy s then Some s else None | None => None end in
  {| es_from_cache := true; es_graph := None; es_integrity := None; es_visibility := None; es_render_requirements := None;
     es_package_plan := None; es_package_integrity := None; es_scene_output_path := Some (sce_scene_output entry);
     es_graph_output_path := opt (sce_graph_output entry); es_package_output_path := opt (sce_package_output entry); es_warnings := [] |}.

Definition lookup_cache (w : engine_world) (r : engine_request) (source_hash : string) : option scene_cache_entry :=
  match er_cache_dir r with
  | Some c =>
      match cache_get w c (er_input_path r) (fingerprint r) true with
      | Some entry => if String.eqb (sce_source_hash entry) source_hash && String.eqb (sce_request_hash entry) (fingerprint r) then Some entry else None
      | None => None
      end
  | None => None
  end.

(** The base directory of the paths of a scene. *)
Definition base_dir (w : engine_world) (input_path : string) : path :=
  if str_truthy input_path && is_scene_file w input_path then parent_path (path_of input_path) else ee_cwd e.

(** What a package is made for: the requirements of a render, or everything. *)
Definition package_seeds (r : engine_request) (scene : loaded_scene) (g : dependency_graph)
  : res (option (render_requirement_report * visibility_report) * gset string) :=
  if er_optimize_package_by_visibility r then
    let req := {| rr_camera_id := er_camera_id r; rr_frame_start := er_frame_start r; rr_frame_end := er_frame_end r;
                  rr_resolution := (1920, 1080); rr_view_layer := "ViewLayer"; rr_scene_name := ""; rr_conservative := true |} in
    let graph := JObj [("nodes", JList (map (fun n => JObj [("identifier", JStr (gn_identifier n)); ("label", JStr (gn_label n)); ("kind", JStr (gn_kind n))]) (dg_nodes g)));
                       ("edges", JList (map (fun x => JObj [("source", JStr (ge_source x)); ("target", JStr (ge_target x));
                                                            ("relationship", JStr (ge_relationship x))]) (dg_edges g)))]%string in
    let! report := analyze (ee_math e) (ee_repr e) (ee_loads e) (ee_parse_float e) (ls_dict scene) (Some graph) (inl req) JNull None in
    Ok (Some (report, analyze_visibility (ls_animated scene) (er_frame_start r) (er_frame_end r)), resolve_requirements (rp_required report))
  else Ok (None, list_to_set (map gn_identifier (dg_nodes g))).

(** The directory of a package, and its manifest. *)
Definition package_dir (package_output : string) : path :=
  let p := path_of package_output in if str_truthy (path_suffix package_output) then parent_path p else p.

(** The plan of a package. *)
Definition plan_package (w : engine_world) (r : engine_request) (scene : loaded_scene) (g : dependency_graph) (seeds : gset string) : res package_plan :=
  match compute_closure g seeds with
  | None => Err RecursionError
  | Some closure =>
      let! records := Packaging.resolve (ee_realpath e) (ee_is_dir e) (ew_files w) [] g (base_dir w (er_input_path r)) seeds
                        (object_type_map (ss_objects (ls_snapshot scene))) closure in
      Ok (create_plan records (str_take 12 (sha256 (fingerprint r))) (ls_name scene) (er_camera_id r) (er_frame_start r) (er_frame_end r))
  end.

Definition publish_package (w : engine_world) (r : engine_request) (plan : package_plan) : engine_world * res integrity_result :=
  let dir := package_dir (er_package_output r) in
  let parent := parent_path dir in
  let '(d, outcome) := build_and_validate (ee_realpath e) (ee_is_dir e) (ew_files w) (ee_publish e) parent plan (path_name dir)
                         (Some (path_of (er_input_path r))) (ee_blender e (er_blender_executable r)) (ee_verifier e (er_blender_executable r))
                         (default ∅ (ew_packages w !! parent)) in
  (with_packages (<[parent := d]> (ew_packages w)) w, outcome).

Definition with_graph (g : dependency_graph) (graph_output : string) (r : engine_result) : engine_result :=
  let i := check_integrity g in
  {| es_from_cache := es_from_cache r; es_graph := Some g; es_integrity := Some i; es_visibility := es_visibility r;
     es_render_requirements := es_render_requirements r; es_package_plan := es_package_plan r; es_package_integrity := es_package_integrity r;
     es_scene_output_path := es_scene_output_path r; es_graph_output_path := Some graph_output; es_package_output_path := es_package_output_path r;
     es_warnings := es_warnings r ++ format_integrity_warnings i |}.

Definition with_package (seen : option (render_requirement_report * visibility_report)) (plan : package_plan) (i : integrity_result) (p : string)
    (r : engine_result) : engine_result :=
  {| es_from_cache := es_from_cache r; es_graph := es_graph r; es_integrity := es_integrity r; es_visibility := option_map snd seen;
     es_render_requirements := option_map fst seen; es_package_plan := Some plan; es_package_integrity := Some i;
     es_scene_output_path := es_scene_output_path r; es_graph_output_path := es_graph_output_path r; es_package_output_path := Some p;
     es_warnings := es_warnings r |}.

(** The stages after the scene is loaded. *)
Definition graph_stage (r : engine_request) (scene : loaded_scene) (w : engine_world) (res0 : engine_result) : engine_world * res engine_result :=
  if er_build_graph r then
    match build (ls_snapshot scene) with
    | Err x => (w, Err x)
    | Ok g => (write_text (er_graph_output r) (ee_graph_text e g) w, Ok (with_graph g (er_graph_output r) res0))
    end
  else (w, Ok res0).

Definition package_stage (r : engine_request) (scene : loaded_scene) (w : engine_world) (res0 : engine_result) : engine_world * res engine_result :=
  if er_build_package r then
    match (let! g := match es_graph res0 with Some g => Ok g | None => build (ls_snapshot scene) end in
           let! seeds := package_seeds r scene g in
           let! plan := plan_package w r scene g (snd seeds) in Ok (fst seeds, plan)) with
    | Err x => (w, Err x)
    | Ok (seen, plan) =>
        match publish_package w r plan with
        | (w, Err x) => (w, Err x)
        | (w, Ok i) => (w, Ok (with_package seen plan i (path_text (package_dir (er_package_output r) ++ ["manifest.json"%string])) res0))
        end
    end
  else (w, Ok res0).

Definition entry_of (r : engine_request) (source_hash : string) (res0 : engine_result) : scene_cache_entry :=
  {| sce_source_hash := source_hash; sce_scene_output := default "None"%string (es_scene_output_path res0); sce_request_hash := fingerprint r;
     sce_graph_output := es_graph_output_path res0; sce_package_output := es_package_output_path res0; sce_build_graph := er_build_graph r;
     sce_build_package := er_build_package r; sce_optimize_package_by_visibility := er_optimize_package_by_visibility r;
     sce_frame_start := er_frame_start r; sce_frame_end := er_frame_end r; sce_camera_id := er_camera_id r; sce_cached_at := f0 |}.

Definition fresh_result (scene_output : string) : engine_result :=
  {| es_from_cache := false; es_graph := None; es_integrity := None; es_visibility := None; es_render_requirements := None;
     es_package_plan := None; es_package_integrity := None; es_scene_output_path := Some scene_output; es_graph_output_path := None;
     es_package_output_path := None; es_warnings := [] |}.

(** The whole pipeline for a request that is not answered from the cache. *)
Definition run_pipeline (r : engine_request) (w : engine_world) : engine_world * res engine_result :=
  match ee_load e (er_input_path r) (er_blender_executable r) (ew_files w) with
  | Err x => (w, Err x)
  | Ok scene =>
      let w := write_text (er_scene_output r) (ee_scene_text e (ls_dict scene)) w in
      match graph_stage r scene w (fresh_result (er_scene_output r)) with
      | (w, Err x) => (w, Err x)
      | (w, Ok res1) => package_stage r scene w res1
      end
  end.

(** An empty cache directory is none. *)
Definition cache_of (r : engine_request) : option string := match er_cache_dir r with Some c => if str_truthy c then Some c else None | None => None end.

Definition run_engine (r : engine_request) (w : engine_world) : engine_world * res engine_result :=
  match cache_of r with
  | None => run_pipeline r w
  | Some c =>
      match hash_source w (er_input_path r) with
      | Err x => (w, Err x)
      | Ok source_hash =>
          match lookup_cache w r source_hash with
          | Some entry => (w, Ok (result_from_cache entry))
          | None =>
              match run_pipeline r w with
              | (w, Err x) => (w, Err x)
              | (w, Ok res1) => (cache_put c (er_input_path r) (entry_of r source_hash res1) w, Ok res1)
              end
          end
      end
  end.
End engine.

(** ** What the cache promises *)

Section cache.
Context (e : engine_env).

Lemma pipeline_indexes r w w' outcome : run_pipeline e r w = (w', outcome) -> ew_indexes w' = ew_indexes w.
Proof.
  unfold run_pipeline. destruct (ee_load _ _ _ _) as [scene|x]; [|by intros [= <- _]].
  set (w1 := write_text _ _ _ w). assert (ew_indexes w1 = ew_indexes w) as E1 by done.
  destruct (graph_stage e r scene w1 _) as [w2 res1] eqn:Eg.
  assert (ew_indexes w2 = ew_indexes w) as E2.
  { unfold graph_stage in Eg. destruct (er_build_graph r); [|by injection Eg as <- _]. by destruct (build _); injection Eg as <- _. }
  destruct res1 as [res1|x]; [|by intros [= <- _]]. unfold package_stage. destruct (er_build_package r); [|by intros [= <- _]].
  destruct (res_bind _ _) as [[seen plan]|x]; [|by intros [= <- _]].
  unfold publish_package. destruct (build_and_validate _ _ _ _ _ _ _ _ _ _ _) as [d [i|x]]; by intros [= <- _].
Qed.

(** A pipeline that succeeds names its outputs. *)
Lemma pipeline_outputs r w w' res1 :
  run_pipeline e r w = (w', Ok res1) ->
  es_from_cache res1 = false /\ es_scene_output_path res1 = Some (er_scene_output r)
  /\ es_graph_output_path res1 = (if er_build_graph r then Some (er_graph_output r) else None)
  /\ es_package_output_path res1
     = (if er_build_package r then Some (path_text (package_dir e (er_package_output r) ++ ["manifest.json"%string])) else None).
Proof.
  unfold run_pipeline. destruct (ee_load _ _ _ _) as [scene|x]; [|done]. destruct (graph_stage _ _ _ _ _) as [w2 [g|x]] eqn:Eg; [|done].
  assert (es_from_cache g = false /\ es_scene_output_path g = Some (er_scene_output r)
          /\ es_graph_output_path g = (if er_build_graph r then Some (er_graph_output r) else None) /\ es_package_output_path g = None) as (G1 & G2 & G3 & G4).
  { unfold graph_stage in Eg. destruct (er_build_graph r); [|by injection Eg as _ <-]. destruct (build _); [|done]. by injection Eg as _ <-. }
  unfold package_stage. destruct (er_build_package r); [|by intros [= _ <-]]. destruct (res_bind _ _) as [[seen plan]|x]; [|done].
  destruct (publish_package _ _ _ _) as [w3 [i|x]]; [|done]. by intros [= _ <-].
Qed.

(** The outputs of a result. *)
Definition result_outputs (r : engine_result) : list string :=
  omap id [es_scene_output_path r; es_graph_output_path r; es_package_output_path r].

Definition same_outputs (a b : engine_result) : Prop :=
  es_scene_output_path a = es_scene_output_path b /\ es_graph_output_path a = es_graph_output_path b
  /\ es_package_output_path a = es_package_output_path b.

(** A later run of a request finds the entry of the run that made it. *)
Lemma fresh_entry_found r c w w' res1 w2 source_hash :
  run_pipeline e r w = (w', Ok res1) ->
  ew_indexes w2 !! path_of e c = ew_indexes (cache_put e c (er_input_path r) (entry_of e r source_hash res1) w') !! path_of e c ->
  (forall p, p ∈ result_outputs res1 -> str_truthy p = true /\ output_exists e w2 p = true) -> er_cache_dir r = Some c ->
  exists entry, lookup_cache e w2 r source_hash = Some entry /\ same_outputs (result_from_cache entry) res1.
Proof.
  intros Hrun Hix Hout Hc. destruct (pipeline_outputs r w w' res1 Hrun) as (_ & Hs & Hg & Hp).
  exists (stamped (ee_now e) (entry_of e r source_hash res1)). unfold lookup_cache. rewrite Hc. unfold cache_get.
  assert (load_index e w2 c = od_set (make_key (er_input_path r) (fingerprint e r)) (stamped (ee_now e) (entry_of e r source_hash res1)) (load_index e w' c)) as ->.
  { unfold cache_put, write_index in Hix. cbn [ew_indexes with_indexes] in Hix. rewrite lookup_insert_eq in Hix.
    unfold load_index in *. unfold odict in *. by rewrite Hix. }
  rewrite od_get_set_eq. unfold result_outputs in Hout. rewrite Hs, Hg, Hp in Hout.
  assert (forall p, p ∈ omap id [Some (er_scene_output r); if er_build_graph r then Some (er_graph_output r) else None;
    if er_build_package r then Some (path_text (package_dir e (er_package_output r) ++ ["manifest.json"%string])) else None] -> lost e w2 (Some p) = false) as Hkept.
  { intros p Hpin. destruct (Hout p Hpin) as [_ Hex]. unfold lost. by rewrite Hex, andb_false_r. }
  unfold stamped, entry_of, result_from_cache, same_outputs. cbn [sce_scene_output sce_graph_output sce_package_output sce_build_graph sce_build_package
    sce_source_hash sce_request_hash es_scene_output_path es_graph_output_path es_package_output_path].
  rewrite Hs, Hg, Hp. cbn [from_option id]. rewrite (Hkept (er_scene_output r)) by (simpl; left).
  destruct (er_build_graph r).
  - rewrite (Hkept (er_graph_output r)) by (simpl; right; left). simpl andb. destruct (Hout (er_graph_output r)) as [Ht _]; [simpl; right; left|].
    rewrite Ht. destruct (er_build_package r).
    + set (m := path_text _) in *. rewrite (Hkept m) by (simpl; right; right; left).
      simpl. by rewrite !String.eqb_refl.
    + simpl. by rewrite !String.eqb_refl.
  - simpl andb. destruct (er_build_package r).
    + set (m := path_text _) in *. rewrite (Hkept m) by (simpl; right; left).
      simpl. by rewrite !String.eqb_refl.
    + simpl. by rewrite !String.eqb_refl.
Qed.
End cache.

(** The cache answers only for what it has seen: an answer from the cache changes
    nothing, its entry was made for the same content of the source and the same
    request, and all its outputs are still there; a run that fails leaves the
    cache as it was; and once a request has run, it is answered from the cache,
    with the same outputs, as long as the source, the index and the outputs are
    there. *)
Theorem scene_cache_sound e r c w w' outcome :
  cache_of r = Some c -> run_engine e r w = (w', outcome) ->
  match outcome with
  | Err _ => ew_indexes w' = ew_indexes w
  | Ok res1 =>
      (es_from_cache res1 = true ->
         w' = w /\ exists entry source_hash, hash_source e w (er_input_path r) = Ok source_hash
           /\ od_get (make_key (er_input_path r) (fingerprint e r)) (load_index e w c) = Some entry /\ sce_source_hash entry = source_hash
           /\ sce_request_hash entry = fingerprint e r /\ res1 = result_from_cache entry /\ lost e w (Some (sce_scene_output entry)) = false)
      /\ forall w2, ew_files w2 !! path_of e (er_input_path r) = ew_files w !! path_of e (er_input_path r) ->
           ew_indexes w2 !! path_of e c = ew_indexes w' !! path_of e c ->
           (forall p, p ∈ result_outputs res1 -> str_truthy p = true /\ output_exists e w2 p = true) ->
           es_from_cache res1 = false ->
           exists res2, run_engine e r w2 = (w2, Ok res2) /\ es_from_cache res2 = true /\ same_outputs res2 res1
  end.
Proof.
  intros Hc. assert (er_cache_dir r = Some c) as Hdir by (unfold cache_of in Hc; destruct (er_cache_dir r) as [d|]; [destruct (str_truthy d)|]; congruence).
  unfold run_engine. rewrite Hc. destruct (hash_source e w (er_input_path r)) as [source_hash|x] eqn:Eh; [|by intros [= <- <-]].
  destruct (lookup_cache e w r source_hash) as [entry|] eqn:El.
  - intros [= <- <-]. split; [|done]. intros _. split; [done|]. exists entry, source_hash. unfold lookup_cache, cache_get in El. rewrite Hdir in El.
    destruct (od_get _ _) as [x|] eqn:Eg; [|done]. destruct (lost e w (Some (sce_scene_output x))) eqn:Elost; [done|].
    destruct (_ && lost e w (sce_graph_output x)); [done|]. destruct (_ && lost e w (sce_package_output x)); [done|].
    destruct (String.eqb_spec (sce_source_hash x) source_hash) as [Hsh|]; [|done]. destruct (String.eqb_spec (sce_request_hash x) (fingerprint e r)) as [Hrh|]; [|done].
    injection El as ->. done.
  - destruct (run_pipeline e r w) as [w1 [res1|x]] eqn:Er; [|intros [= <- <-]; by eapply pipeline_indexes].
    intros [= <- <-]. split; [destruct (pipeline_outputs e r w w1 res1 Er) as [E _]; congruence|].
    intros w2 Hfile Hix Hout _. destruct (fresh_entry_found e r c w w1 res1 w2 source_hash Er Hix Hout Hdir) as (entry & Hl & Hsame).
    assert (hash_source e w2 (er_input_path r) = Ok source_hash) as -> by (rewrite <- Eh; unfold hash_source; by rewrite Hfile).
    rewrite Hl. by exists (result_from_cache entry).
Qed.

(** ** Examples *)

Definition demo_text (j : json) : string := match j with JStr s => s | JInt n => str_of_Z n | JBool true => "true" | JBool false => "false" | _ => "-" end.
Definition demo_dumps (j : json) : string := match j with JObj o => String.concat ";" (map (fun kv => demo_text (snd kv)) o) | j => demo_text j end.
Definition demo_load (p : string) (_ : option string) (files : gmap path string) : res loaded_scene :=
  match files !! parts p with
  | Some content =>
      Ok {| ls_snapshot := {| ss_name := content; ss_collections := []; ss_objects := []; ss_images := [] |}; ls_dict := JStr content; ls_animated := [];
            ls_name := content |}
  | None => Err FileNotFoundError
  end.
Definition no_failures : publish_env :=
  {| pe_build := {| be_write _ := None; be_mapping := None; be_manifest := None |}; pe_tmp := "tmp"; pe_backup := "bak"; pe_rm_stale := None;
     pe_rename_old := None; pe_rename_new := None; pe_rollback := None; pe_rm_backup := None; pe_rm_tmp := None |}.
Definition demo_engine : engine_env :=
  {| ee_cwd := []; ee_load := demo_load; ee_scene_text := demo_dumps; ee_graph_text _ := "graph"; ee_dumps := demo_dumps; ee_loads s := Some (JStr s);
     ee_realpath p := p; ee_is_dir _ := false; ee_publish := no_failures; ee_blender _ := None; ee_verifier _ := None;
     ee_math := {| m_sin _ := f0; m_cos _ := f1; m_tan _ := f1; m_atan _ := f1 |}; ee_repr _ := "?"; ee_parse_float _ := None; ee_now := f1 |}.
Definition demo_request (input : string) : engine_request :=
  {| er_input_path := input; er_scene_output := "output/scene.json"; er_graph_output := "output/dependency_graph.json"; er_build_graph := true;
     er_build_package := false; er_optimize_package_by_visibility := false; er_frame_start := 1; er_frame_end := 24;
     er_package_output := "output/package.json"; er_cache_dir := Some "cache"%string; er_blender_executable := None; er_camera_id := "" |}.
Definition demo_world : engine_world :=
  {| ew_files := <[["a.blend"%string] := "room"%string]> {[ ["b.blend"%string] := "garden"%string ]}; ew_packages := ∅; ew_indexes := ∅ |}.
Definition then_run (input : string) (w : engine_world) : engine_world := fst (run_engine demo_engine (demo_request input) w).

(** The second run of the same request is answered from the cache. *)
Lemma scene_cache_witness :
  exists res2, run_engine demo_engine (demo_request "a.blend") (then_run "a.blend" demo_world) = (then_run "a.blend" demo_world, Ok res2)
  /\ es_from_cache res2 = true /\ es_scene_output_path res2 = Some "output/scene.json"%string.
Proof.
  destruct (run_engine demo_engine (demo_request "a.blend") demo_world) as [w' [res1|x]] eqn:E; [|exfalso; vm_compute in E; discriminate E].
  pose proof (scene_cache_sound demo_engine (demo_request "a.blend") "cache" demo_world w' (Ok res1) eq_refl E) as [_ H].
  assert (then_run "a.blend" demo_world = w') as -> by (unfold then_run; rewrite E; reflexivity).
  vm_compute in E. injection E as Hw Hr. destruct (H w') as (res2 & Hrun & Hcache & Hsame & _).
  - rewrite <- Hw. vm_compute. reflexivity.
  - reflexivity.
  - intros p Hp. rewrite <- Hr in Hp. rewrite <- Hw. apply elem_of_cons in Hp as [->|Hp]; [vm_compute; split; reflexivity|].
    apply list_elem_of_singleton in Hp as ->. vm_compute. split; reflexivity.
  - rewrite <- Hr. reflexivity.
  - exists res2. split; [exact Hrun|]. split; [exact Hcache|]. rewrite Hsame, <- Hr. reflexivity.
Defined.

(** The outputs of a hit are only checked to exist: two sources with the same
    output files overwrite each other's snapshot, and the first is answered with
    the snapshot of the second. *)
Example hit_with_another_scene :
  let w := then_run "b.blend" (then_run "a.blend" demo_world) in
  let '(w', outcome) := run_engine demo_engine (demo_request "a.blend") w in
  res_map (fun r => (es_from_cache r, es_scene_output_path r)) outcome = Ok (true, Some "output/scene.json"%string)
  /\ ew_files w' !! ["output"; "scene.json"]%string = Some "garden"%string /\ ew_files w' !! ["a.blend"%string] = Some "room"%string.
Proof. vm_compute. done. Qed.
